(* ===== verification/_CoqProject ===== *)
-Q . S2P
Prelude.v
Base16.v
StringRef.v
StringSupport.v
Utf8.v
Binary.v
JavaClass.v
Cpio.v
SourceSink.v
Hash.v
Posix.v
OsException.v
FileCache.v
Subprocess.v
FileHandle.v
PythonAnalyzer.v
PgSplit.v
PgPrivate.v
PgQuery.v
Threads.v
Queue.v
SortedMap.v
RpmInfo.v
RpmParser.v
Xml.v
Expat.v
Minidom.v
Maven.v
ElfLookup.v
ElfClosure.v
Repomd.v
Primary.v
Database.v
DatabaseSpec.v
ElfImage.v
ZipFile.v
Gunzip.v
UrlSource.v
Download.v
RepoAccess.v
RpmLoad.v
Regex.v
GetFile.v
DownloadRepo.v
ShowSource.v
Symboldb.v
Tosrpm.v
Asdl.v
PgTestdb.v
