(* ===== verification/Prelude.v ===== *)
(** * symboldb: a verification development

    symboldb keeps the symbols of the ELF files, the classes and the imports of RPM
    packages in a PostgreSQL database.  The command line program downloads repositories
    or reads packages, takes them apart, and records what it finds; it answers queries
    from the database and from a cache of package files.  [tosrpm] builds source packages;
    [pgtestshell] is a database server for tests.  This library models the C++ code below
    src/, include/ and lib/ of the repository as functions and step relations, and proves
    what makes it correct.

    * How the program is put together

    Below, a line names a file here, the code it models, and the theorems it is there for.
    A later file calls those before it, as the code does.

    Values and texts:
    - Prelude: bytes, machine integers, exceptions, the monads, shared lemmas and tactics.
    - Base16 (base16.hpp): both decoders invert the encoder.
    - StringRef (const_stringref): a reference is an object, an offset and a length;
      every operation stays inside of the object or throws.
    - StringSupport (string_support): quoting, stripping, numbers.
    - Utf8 (utf8.cpp): [is_valid_utf8_spec], RFC 3629.
    - Binary (endian.hpp, vector_extract), JavaClass (java_class.cpp):
      [java_class_roundtrip]; Cpio (cpio_reader.cpp): the two header formats.
    - SortedMap: the ordered maps of the C++ library, in their order of iteration.
    - RpmInfo (rpm_evr and the other records of package metadata, and
      package_set_consolidator); Asdl (include/cxxll/asdl.hpp): [definition_roundtrip].

    Sources, sinks and documents:
    - SourceSink: [source] and [sink] are the type classes [Source] and [Sink]; helper
      functions are proved against the classes, each implementation is an instance.
    - Hash (hash.cpp, checksum.cpp): digests over NSS.
    - Gunzip (gunzip_source.cpp): [gunzip_source_spec]; UrlSource (url_source.cpp):
      [url_source_spec]; ZipFile (zip_file.cpp).
    - Xml is the interface of the pull parser, a class with the contract; Expat
      (expat_source.cpp) discharges it: [expat_source_contract].  Minidom
      (expat_minidom.cpp): [minidom_parse_spec]; Maven (maven_url.cpp):
      [maven_extract_spec]; Repomd and Primary (repomd.cpp, repomd_primary.cpp):
      [repomd_acquire_spec], [primary_next_spec].  These four are proved against Xml, not
      against Expat.
    - PythonAnalyzer (python_analyzer.cpp): [python_protocol].

    The operating system:
    - Posix (fd_handle, dir_handle, lib/cxxll/os): [fd_handle_ownership],
      [remove_directory_tree_no_leak]; OsException (os_exception.cpp);
      FileHandle (file_handle.cpp, read_lines.cpp); Subprocess (subprocess.cpp):
      [subprocess_children]; Threads (task.cpp, mutex.hpp, cond.hpp);
      Regex (regex_handle.cpp).
    - FileCache (file_cache.cpp, expire.cpp, and the options): [file_cache_add_spec],
      [expire_files_spec].

    The database:
    - PgSplit (pg_split_statement.cpp): [pg_split_statement_spec]; PgPrivate
      (pg_private): binary values; PgQuery (pg_query.hpp, pg_response.hpp, the handles):
      [query_parameters].
    - Database (database.cpp): every member function, with its statements;
      [database_balanced].  DatabaseSpec: what the functions achieve if the server keeps
      its promises for these statements: [update_package_set_spec],
      [intern_file_attribute_spec], [add_file_bounds].
    - ElfLookup and ElfClosure (update_elf_closure.cpp): [update_elf_closure_spec].

    Packages and repositories:
    - RpmParser (rpm_parser.cpp): [rpm_files_once], [rpm_read_archive]; ElfImage
      (elf_image.cpp): [elf_symbols_spec], [elf_symbols_total].
    - RpmLoad (rpm_load.cpp) composes the parser, the recognisers of contents and the
      database: [rpm_load_verified], [add_files_verified].
    - Download (download.cpp, download_source.cpp, repomd_primary_xml.cpp) composes
      the network, the cache in the database and decompression: [download_write_through],
      [primary_xml_verified].  RepoAccess: the interface [repositories] for the two
      commands that read repositories, and its implementation.
    - Queue (bounded_ordered_queue.hpp): [queue_safety], [queue_no_lost_wakeup].
      DownloadRepo (download_repo.cpp): the helper threads, the queue and the main thread:
      [downloads_accounted], [downloads_finish], [downloaded_packages_verified],
      [download_repo_spec].
    - GetFile (get_file.cpp): [get_file_spec]; ShowSource
      (show_source_packages.cpp): [show_source_packages_spec].

    Programs:
    - Symboldb (src/symboldb.cpp): [main_spec], [run_example_spec].  The record
      [parts] is what a command needs of the components; [program_parts] makes it of them.
    - Tosrpm (src/tosrpm.cpp): [tosrpm_spec]; PgTestdb (pg_testdb.cpp,
      src/pgtestshell.cpp).

    * How the code is represented

    A comment [Source:] above a definition names the lines that the definition translates.
    Names are those of the code; a member function has the name of its class in front where
    that is needed to tell functions apart.  An object is a record of its data members (a
    pimpl and its [impl] are one), and a member function is a computation on that record.
    Exceptions are the values [Throw e] of [res]; a computation with state that may throw is
    an [sx], one that may also run out of fuel an [fsx].  The state at the place of the
    exception is kept, so that what a destructor or a handler finds is what the code left
    there.  Destructors are called where the scope of the object ends, on the way of an
    exception, too.

    Integers have the width of their types: wrap-around is written out ([u8], [u16],
    [u32], [u64], [to_signed]), and so are the checks for it in the code.  The data model is
    LP64 with a signed [char]; the byte order is a parameter ([machine] or [host]).  Bytes
    are integers from 0 to 255; a C string is what is before the first NUL ([until_nul]).
    Undefined behaviour is modelled as the end of the process ([fatal_signal]) where it is
    a null pointer; reads are within bounds by construction or theorem.

    Where objects are shared, there is a store: [Minidom] has a heap of nodes, [Posix] a
    table of descriptors seen through the laws, [PgQuery] the set of live results.  Threads
    are interleaved: a critical section is a step, a call of [wait] ends one.  Queue and
    DownloadRepo have step relations, and their theorems hold for all schedules; that a
    section holds its mutex is [with_lock_spec] of Threads.

    * Parameters and what is assumed of them

    Code from outside is a record or class of functions on a state of its own, which a
    definition takes as an argument: libpq and the server ([libpq]), the kernel ([posix],
    [processes]), the C library ([stdio], regular expressions, [getopt_long]), POSIX
    threads, NSS, Expat, librpm and its I/O, libelf, libarchive, zlib, libcurl, and the
    interpreters.  A call is free to fail at any place.  What a theorem relies on is a
    record of laws ([libpq_laws], [child_laws], [set_laws], and so on) of documented
    behaviour, over a view of the state, such as the set of open descriptors.  A small
    implementation that satisfies the laws goes with them, and the theorem is applied to it
    in its witness.

    * Fuel

    Loops whose end depends on what other code answers take fuel; [None] means that it was
    used up.  A function that takes fuel comes with a theorem that some amount is enough,
    and with the result for it, wherever the code ends: the octets left in a source bound
    the copy loops ([copy_source_to_sink_spec]), the events left the readers of XML, the
    chain of strictly increasing offsets that of symbol versions ([elf_symbols_total]), the
    number of missing pairs the closure ([update_elf_closure_spec]), the work left the
    downloads ([steps_bound]), the entries of the file system the removal of a directory
    tree.  Where the end is not up to the program, the theorem has the end as a premise and
    says so: a child that writes forever, a directory to which others keep adding entries.

    * What the theorems say

    The first group is about the data that go into the database.  What is loaded is what
    the package list and the package headers describe: checksums are compared over what was
    read, and nothing that fails the comparison gets through.  Nothing is lost, repeated or
    reordered between the network, the decompression, the cache, the parsers and the
    database.  The second group is about resources: descriptors, children, threads, query
    results and temporary directories are released once, on every path.  The third is about
    concurrency: invariants of the queue and of the downloads, no lost wake-ups, and an end
    under every schedule.  The fourth equates parsers, printers and streaming code with
    reference definitions: on trees of documents, on character encodings, on statements.  The
    fifth is about the programs: the status they exit with, and what they have done by then.
    Examples show where the code does not do what it means to; the development proves them
    as lemmas next to the definitions they are about.

    * Not modelled

    - The statements of SQL are strings: the schema (schema-base.sql, schema-index.sql) and
      the functions it defines in the server are not C++.  DatabaseSpec states what a
      statement is relied on to do.
    - The script of the Python analyzer, which the interpreter runs: the protocol with it is
      modelled, on both ends for the round trip.
    - Owners of memory and of objects of other libraries ([malloc_handle], [rpmtd_wrapper],
      [curl_handle], [expat_handle]), casts and phantom types: the objects appear as their
      values.  Memory does not run out, except where a library reports it.
    - The text of an [os_exception] outside of OsException and ZipFile: elsewhere it is the
      error number.  The time of day and durations are what a function of the state says.
    - Data races and the memory model: a variable is only shared under its mutex, or read
      after the thread was joined.
    - Initialisation of libraries without a result ([rpm_parser_init], [elf_image_init]), and
      the destructors that run at the end of a process.
    - The unit tests, the build, and generated tables. *)

From stdpp Require Export base tactics list numbers strings gmap sorting pretty.
From Stdlib Require Export ZArith Lia.

#[export] Set Default Goal Selector "!".

#[global] Open Scope Z_scope.

(** ** Bytes and machine integers *)

(** A byte string: [std::string], [std::vector<unsigned char>] and C buffers
    are all lists of byte values. *)
Abbreviation bytes := (list Z).

Definition is_byte (b : Z) : Prop := 0 <= b < 256.
#[global] Instance is_byte_dec b : Decision (is_byte b).
Proof. unfold is_byte. apply _. Defined.

Definition bytes_ok (s : bytes) : Prop := Forall is_byte s.

(** String literals as bytes, and the length as an integer. *)
Fixpoint str (s : string) : bytes :=
  match s with
  | EmptyString => []
  | String c s => Z.of_N (Ascii.N_of_ascii c) :: str s
  end.

(** A number in decimal, as [%u], [%zu], [%lld] and the stream operators print it. *)
Definition dec (z : Z) : bytes := str (pretty z).

Definition zlen {A} (l : list A) : Z := Z.of_nat (length l).
Arguments zlen : simpl never.

(** Reductions modulo the width of the C types (LP64, two's complement). *)
Definition u8 (z : Z) : Z := z mod 256.
Definition u16 (z : Z) : Z := z mod 65536.
Definition u32 (z : Z) : Z := z mod 4294967296.
Definition u64 (z : Z) : Z := z mod 18446744073709551616.
Definition to_signed (w z : Z) : Z :=
  let m := z mod 2 ^ w in if m <? 2 ^ (w - 1) then m else m - 2 ^ w.
(** [char] is a signed type on the platforms the program supports. *)
Definition schar (b : Z) : Z := if b <? 128 then b else b - 256.

(** [size_t] as the address space allows it. *)
Definition SIZE_MAX : Z := 18446744073709551615.
Definition npos : Z := SIZE_MAX.
Definition INT_MAX : Z := 2147483647.

(** Sub-ranges of byte strings, with C offsets. *)
Definition zdrop {A} (n : Z) (l : list A) : list A := drop (Z.to_nat n) l.
Definition ztake {A} (n : Z) (l : list A) : list A := take (Z.to_nat n) l.
Definition zget {A} (l : list A) (i : Z) : option A :=
  if i <? 0 then None else l !! Z.to_nat i.

(** The bytes before the first NUL: what [strlen] and friends see. *)
Fixpoint until_nul (s : bytes) : bytes :=
  match s with
  | [] => []
  | c :: s => if c =? 0 then [] else c :: until_nul s
  end.

(** Lexicographic comparison of byte strings as unsigned characters
    ([memcmp] with the length as a tie breaker, [std::string::compare]). *)
Fixpoint bytes_cmp (a b : bytes) : comparison :=
  match a, b with
  | [], [] => Eq
  | [], _ :: _ => Lt
  | _ :: _, [] => Gt
  | x :: a, y :: b => match x ?= y with Eq => bytes_cmp a b | c => c end
  end.
Definition bytes_ltb (a b : bytes) : bool :=
  match bytes_cmp a b with Lt => true | _ => false end.

(** ** Exceptions *)

(** Where a document is malformed, with what is around the place. *)
Record xml_report := XmlReport { xr_line : Z; xr_column : Z; xr_message : bytes; xr_before : bytes; xr_after : bytes }.
#[global] Instance xml_report_eq_dec : EqDecision xml_report.
Proof. solve_decision. Defined.

(** What a failed download reports; the strings are C strings. *)
Record curl_report := CurlReport {
  cr_message : bytes; cr_original_url : bytes; cr_url : bytes; cr_remote_ip : bytes; cr_status : Z; cr_remote_port : Z
}.
#[global] Instance curl_report_eq_dec : EqDecision curl_report.
Proof. solve_decision. Defined.

(** The classes of exception thrown by the modelled code.  [assertion_failure]
    stands for a failing [assert], [abort_called] for [abort()], and [fatal_signal]
    for the end of the process on a null pointer or a division by zero. *)
Inductive exn :=
| bad_string_index (size index : Z)
| out_of_range (what : bytes)
| runtime_error (what : bytes)
| logic_error (what : bytes)
| bad_alloc
| eof_exception
| base16_decode_exception (what : bytes) (offset : Z)
| pg_exception (what : bytes)
| java_class_exception (what : bytes)
| zlib_inflate_exception (what : bytes)
| xml_malformed (report : xml_report)
| xml_entity_declaration (report : xml_report)
| xml_illegal_state (actual expected : Z)
| curl_exception (report : curl_report)
| os_exception (errno : Z)
| checksum_mismatch (kind : bytes)
| unsupported_hash (what : bytes)
| usage_error (what : bytes)
| queue_without_producers
| rpm_parser_exception (what : bytes)
| elf_exception (what : bytes)
| regex_error (what : bytes) (code : Z)
| assertion_failure
| abort_called
| fatal_signal
| exit_called (status : Z).

#[global] Instance exn_eq_dec : EqDecision exn.
Proof. solve_decision. Defined.

(** The outcome of a call: a value, or the exception it leaves with. *)
Inductive res (A : Type) : Type :=
| Ok (a : A)
| Throw (e : exn).
Arguments Ok {A} a.
Arguments Throw {A} e.

#[global] Instance res_eq_dec `{EqDecision A} : EqDecision (res A).
Proof. solve_decision. Defined.

#[global] Instance res_ret : MRet res := @Ok.
#[global] Instance res_bind : MBind res := λ A B f m,
  match m with Ok a => f a | Throw e => Throw e end.
#[global] Instance res_fmap : FMap res := λ A B f m,
  match m with Ok a => Ok (f a) | Throw e => Throw e end.

Definition is_ok {A} (r : res A) : bool := match r with Ok _ => true | Throw _ => false end.

(** A computation with state that may leave with an exception; what has been
    done to the state before the exception stays. *)
Definition sx (S A : Type) : Type := S → res A * S.
#[global] Instance sx_ret {S} : MRet (sx S) := λ A a s, (Ok a, s).
#[global] Instance sx_bind {S} : MBind (sx S) := λ A B f m s,
  match m s with
  | (Ok a, s) => f a s
  | (Throw e, s) => (Throw e, s)
  end.
Definition sx_get {S} : sx S S := λ s, (Ok s, s).
Definition sx_put {S} (s : S) : sx S unit := λ _, (Ok tt, s).
Definition sx_modify {S} (f : S → S) : sx S unit := λ s, (Ok tt, f s).
Definition sx_throw {S A} (e : exn) : sx S A := λ s, (Throw e, s).
Definition sx_res {S A} (r : res A) : sx S A := λ s, (r, s).
(** [try { m } catch (...) { h; throw; }], and a destructor that always runs. *)
Definition sx_rethrow {S A} (m : sx S A) (h : S → S) : sx S A := λ s,
  match m s with (Ok a, s) => (Ok a, s) | (Throw e, s) => (Throw e, h s) end.
Definition sx_finally {S A} (m : sx S A) (h : S → S) : sx S A := λ s,
  let '(r, s) := m s in (r, h s).
(** The calls on one component of the state. *)
Definition sx_on {S T A} (get : S → T) (set : T → S → S) (m : sx T A) : sx S A := λ s,
  let '(r, t) := m (get s) in (r, set t s).

(** Calls with loops that are run on fuel: [None] when it is used up. *)
Definition attempt (A : Type) : Type := option (res A).
#[global] Instance attempt_ret : MRet attempt := λ A a, Some (Ok a).
#[global] Instance attempt_bind : MBind attempt := λ A B f m,
  match m with Some (Ok a) => f a | Some (Throw e) => Some (Throw e) | None => None end.
Definition attempt_res {A} (r : res A) : attempt A := Some r.

Definition fsx (S A : Type) : Type := S → option (res A * S).
#[global] Instance fsx_ret {S} : MRet (fsx S) := λ A a s, Some (Ok a, s).
#[global] Instance fsx_bind {S} : MBind (fsx S) := λ A B f m s,
  match m s with
  | Some (Ok a, s) => f a s
  | Some (Throw e, s) => Some (Throw e, s)
  | None => None
  end.
Definition fsx_attempt {S A} (m : attempt A) : fsx S A := λ s,
  match m with Some r => Some (r, s) | None => None end.
Definition fsx_sx {S A} (m : sx S A) : fsx S A := λ s, Some (m s).

(** [assert (b)]. *)
Definition assert_ (b : bool) : res unit := if b then Ok tt else Throw assertion_failure.

(** [std::vector::at]. *)
Definition vec_at {A} (what : bytes) (l : list A) (i : Z) : res A :=
  match zget l i with Some x => Ok x | None => Throw (out_of_range what) end.

(** ** Tactics *)

(** Split a hypothesis or goal about the result monad. *)
Ltac res_step :=
  match goal with
  | H : Ok _ = Ok _ |- _ => injection H as H; try subst
  | H : Throw _ = Throw _ |- _ => injection H as H; try subst
  | H : Ok _ = Throw _ |- _ => discriminate H
  | H : Throw _ = Ok _ |- _ => discriminate H
  | H : mret _ = _ |- _ => unfold mret, res_ret in H
  | H : (mbind _ ?e) = Ok _ |- _ =>
      let E := fresh "E" in destruct e eqn:E; [cbn [mbind res_bind] in H | discriminate H]
  | H : (fmap _ ?e) = Ok _ |- _ =>
      let E := fresh "E" in destruct e eqn:E; [cbn [fmap res_fmap] in H | discriminate H]
  end.
Ltac res_inv := repeat (res_step; simplify_eq).

(** A computation with state that returned normally: what its steps returned. *)
Lemma sx_bind_Ok {S A B} (m : sx S A) (f : A → sx S B) s b s'' :
  (m ≫= f) s = (Ok b, s'') → ∃ a s', m s = (Ok a, s') ∧ f a s' = (Ok b, s'').
Proof. unfold mbind, sx_bind. destruct (m s) as [[a|e] s']; [eauto|done]. Qed.
Lemma sx_bind_run {S A B} (m : sx S A) (f : A → sx S B) s a s' : m s = (Ok a, s') → (m ≫= f) s = f a s'.
Proof. unfold mbind, sx_bind. by intros ->. Qed.
Lemma sx_ret_Ok {S A} (a b : A) (s s' : S) : (mret a : sx S A) s = (Ok b, s') → b = a ∧ s' = s.
Proof. by intros [= -> ->]. Qed.
Lemma sx_res_Ok {S A} (r : res A) (b : A) (s s' : S) : sx_res r s = (Ok b, s') → r = Ok b ∧ s' = s.
Proof. by intros [= -> ->]. Qed.
Lemma sx_get_Ok {S} (s b s' : S) : sx_get s = (Ok b, s') → b = s ∧ s' = s.
Proof. by intros [= -> ->]. Qed.
Lemma sx_modify_Ok {S} (f : S → S) s u s' : sx_modify f s = (Ok u, s') → s' = f s.
Proof. by intros [= _ ->]. Qed.
(** Run the first step of a computation, given what it returns. *)
Ltac sx_run H := etransitivity; [apply (sx_bind_run _ _ _ _ _ H)|]; cbv beta iota.
Ltac subst_lhs H := try match type of H with ?x = _ => subst x end.
Ltac subst_both H :=
  let H1 := fresh H in let H2 := fresh H in destruct H as [H1 H2]; subst_lhs H2; subst_lhs H1.
Ltac sx_inv :=
  repeat match goal with
  | H : sx_throw _ _ = (Ok _, _) |- _ => discriminate H
  | H : (mbind _ _) _ = (Ok _, _) |- _ =>
      apply sx_bind_Ok in H; destruct H as (? & ? & ? & H)
  | H : (mret _) _ = (Ok _, _) |- _ => apply sx_ret_Ok in H; subst_both H
  | H : sx_res _ _ = (Ok _, _) |- _ => apply sx_res_Ok in H; subst_both H
  | H : sx_get _ = (Ok _, _) |- _ => apply sx_get_Ok in H; subst_both H
  | H : sx_modify _ _ = (Ok _, _) |- _ => apply sx_modify_Ok in H; subst_lhs H
  end.

(** The same for computations on fuel. *)
Lemma fsx_bind_Ok {S A B} (m : fsx S A) (f : A → fsx S B) s b s'' :
  (m ≫= f) s = Some (Ok b, s'') → ∃ a s', m s = Some (Ok a, s') ∧ f a s' = Some (Ok b, s'').
Proof. unfold mbind, fsx_bind. destruct (m s) as [[[a|e] s']|]; [eauto|done..]. Qed.
Lemma fsx_bind_run {S A B} (m : fsx S A) (f : A → fsx S B) s a s' : m s = Some (Ok a, s') → (m ≫= f) s = f a s'.
Proof. unfold mbind, fsx_bind. by intros ->. Qed.
Lemma fsx_bind_throw {S A B} (m : fsx S A) (f : A → fsx S B) s e s' :
  m s = Some (Throw e, s') → (m ≫= f) s = Some (Throw e, s').
Proof. unfold mbind, fsx_bind. by intros ->. Qed.
Lemma fsx_ret_Ok {S A} (a b : A) (s s' : S) : (mret a : fsx S A) s = Some (Ok b, s') → b = a ∧ s' = s.
Proof. by intros [= -> ->]. Qed.
Ltac fsx_inv :=
  repeat match goal with
  | H : (mbind _ _) _ = Some (Ok _, _) |- _ =>
      apply fsx_bind_Ok in H; destruct H as (? & ? & ? & H)
  | H : (mret _) _ = Some (Ok _, _) |- _ => apply fsx_ret_Ok in H; subst_both H
  end.

(** Boolean guards of the code to propositions. *)
Ltac zbool :=
  repeat match goal with
  | H : (_ =? _) = true |- _ => apply Z.eqb_eq in H
  | H : (_ =? _) = false |- _ => apply Z.eqb_neq in H
  | H : (_ <? _) = true |- _ => apply Z.ltb_lt in H
  | H : (_ <? _) = false |- _ => apply Z.ltb_ge in H
  | H : (_ <=? _) = true |- _ => apply Z.leb_le in H
  | H : (_ <=? _) = false |- _ => apply Z.leb_gt in H
  end.

(** Destruct the scrutinee of the first boolean test or match in the goal. *)
Ltac case_if :=
  match goal with
  | |- context [if ?b then _ else _] => let E := fresh "E" in destruct b eqn:E
  | H : context [if ?b then _ else _] |- _ => let E := fresh "E" in destruct b eqn:E
  end.

(** Case analysis over the 256 byte values, by computation. *)
Lemma byte_all (P : Z → Prop) `{∀ b, Decision (P b)} :
  forallb (λ b, bool_decide (P b)) (seqZ 0 256) = true → ∀ b, is_byte b → P b.
Proof.
  intros Hall b Hb. rewrite forallb_forall in Hall. apply (bool_decide_unpack (P b)).
  rewrite Hall; [done|]. apply list_elem_of_In, elem_of_seqZ. unfold is_byte in Hb. lia.
Qed.
Ltac byte_compute b Hb :=
  revert b Hb;
  lazymatch goal with
  | |- ∀ b, is_byte b → @?P b => refine (byte_all P _); vm_compute; reflexivity
  end.

(** The same with free variables in the goal: one goal per byte value. *)
Lemma byte_each (P : Z → Prop) : Forall P (seqZ 0 256) → ∀ b, is_byte b → P b.
Proof. rewrite Forall_forall. intros H b Hb. apply H, elem_of_seqZ. unfold is_byte in Hb. lia. Qed.
Ltac byte_each b Hb tac :=
  revert b Hb; refine (byte_each _ _);
  let l := eval vm_compute in (seqZ 0 256) in change (seqZ 0 256) with l;
  repeat (apply Forall_cons_2; [tac|]); apply Forall_nil_2.

(** ** Generic lemmas *)

Create HintDb symdb.
Create Rewrite HintDb zlen.
Create Rewrite HintDb symdb_rw.

Lemma zlen_nonneg {A} (l : list A) : 0 <= zlen l.
Proof. unfold zlen. lia. Qed.
Lemma zlen_nil {A} : zlen (@nil A) = 0.
Proof. reflexivity. Qed.
Lemma zlen_cons {A} (x : A) l : zlen (x :: l) = 1 + zlen l.
Proof. unfold zlen. rewrite length_cons. lia. Qed.
Lemma zlen_app {A} (l k : list A) : zlen (l ++ k) = zlen l + zlen k.
Proof. unfold zlen. rewrite length_app. lia. Qed.
Lemma zlen_fmap {A B} (f : A → B) l : zlen (f <$> l) = zlen l.
Proof. unfold zlen. by rewrite length_fmap. Qed.
Lemma zget_fmap {A B} (f : A → B) l i : zget (f <$> l) i = f <$> zget l i.
Proof. unfold zget. destruct (i <? 0); [done|]. apply list_lookup_fmap. Qed.
Lemma zlen_0_nil {A} (l : list A) : zlen l = 0 → l = [].
Proof. destruct l; [done|]. rewrite zlen_cons. pose proof (zlen_nonneg l). lia. Qed.
Lemma to_nat_zlen {A} (l : list A) : Z.to_nat (zlen l) = length l.
Proof. unfold zlen. lia. Qed.
#[export] Hint Rewrite @zlen_nil @zlen_cons @zlen_app : zlen.
#[export] Hint Resolve zlen_nonneg : symdb.

(** Linear arithmetic with the lengths in view. *)
Ltac zl := autorewrite with zlen in *; unfold zlen in *; try lia.

Lemma zget_nonneg {A} (l : list A) i : 0 <= i → zget l i = l !! Z.to_nat i.
Proof. unfold zget. intros. destruct (Z.ltb_spec i 0); [lia|done]. Qed.
Lemma zget_Some {A} (l : list A) i x : zget l i = Some x → 0 <= i < zlen l.
Proof.
  unfold zget, zlen. destruct (Z.ltb_spec i 0); [done|].
  intros ?%lookup_lt_Some. lia.
Qed.
Lemma zget_None {A} (l : list A) i : 0 <= i → zget l i = None → zlen l <= i.
Proof.
  unfold zget, zlen. intros. destruct (Z.ltb_spec i 0); [lia|].
  match goal with H : _ !! _ = None |- _ => apply lookup_ge_None in H end. lia.
Qed.
Lemma zget_is_Some {A} (l : list A) i : 0 <= i < zlen l → ∃ x, zget l i = Some x.
Proof.
  intros Hi. rewrite zget_nonneg by lia. unfold zlen in Hi.
  destruct (lookup_lt_is_Some_2 l (Z.to_nat i)) as [x Hx]; [lia|eauto].
Qed.
Lemma zget_app_l {A} (l k : list A) i : i < zlen l → zget (l ++ k) i = zget l i.
Proof.
  unfold zget, zlen. intros. destruct (Z.ltb_spec i 0); [done|]. apply lookup_app_l. lia.
Qed.
Lemma zget_app_r {A} (l k : list A) i : zlen l <= i → zget (l ++ k) i = zget k (i - zlen l).
Proof.
  unfold zget, zlen. intros. destruct (Z.ltb_spec i 0); [lia|].
  destruct (Z.ltb_spec (i - Z.of_nat (length l)) 0); [lia|].
  rewrite lookup_app_r by lia. f_equal. lia.
Qed.
Lemma zget_app_mid {A} (l : list A) x k : zget (l ++ x :: k) (zlen l) = Some x.
Proof. rewrite zget_app_r by lia. rewrite Z.sub_diag. done. Qed.

Lemma bytes_ok_app s t : bytes_ok (s ++ t) ↔ bytes_ok s ∧ bytes_ok t.
Proof. apply Forall_app. Qed.
Lemma bytes_ok_cons b s : bytes_ok (b :: s) ↔ is_byte b ∧ bytes_ok s.
Proof. apply Forall_cons. Qed.
Lemma bytes_ok_nil : bytes_ok [].
Proof. constructor. Qed.
#[export] Hint Resolve bytes_ok_nil : symdb.

Lemma bytes_cmp_refl a : bytes_cmp a a = Eq.
Proof. induction a as [|x a IH]; simpl; [done|]. by rewrite Z.compare_refl. Qed.
Lemma bytes_cmp_eq a b : bytes_cmp a b = Eq ↔ a = b.
Proof.
  split; [|intros ->; apply bytes_cmp_refl].
  revert b. induction a as [|x a IH]; intros [|y b]; simpl; try done.
  destruct (Z.compare_spec x y); try done. intros. f_equal; auto.
Qed.
Lemma bytes_cmp_antisym a b : bytes_cmp b a = CompOpp (bytes_cmp a b).
Proof.
  revert b. induction a as [|x a IH]; intros [|y b]; simpl; try done.
  rewrite Z.compare_antisym. destruct (x ?= y); simpl; auto.
Qed.
Lemma bytes_cmp_lt_trans a b c : bytes_cmp a b = Lt → bytes_cmp b c = Lt → bytes_cmp a c = Lt.
Proof.
  revert b c. induction a as [|x a IH]; intros [|y b] [|z c]; simpl; try done.
  destruct (Z.compare_spec x y), (Z.compare_spec y z), (Z.compare_spec x z);
    try lia; try done; subst; eauto.
Qed.
Lemma bytes_ltb_irrefl a : bytes_ltb a a = false.
Proof. unfold bytes_ltb. by rewrite bytes_cmp_refl. Qed.
Lemma bytes_ltb_trans a b c : bytes_ltb a b = true → bytes_ltb b c = true → bytes_ltb a c = true.
Proof.
  unfold bytes_ltb. destruct (bytes_cmp a b) eqn:E1, (bytes_cmp b c) eqn:E2; try done.
  by rewrite (bytes_cmp_lt_trans _ _ _ E1 E2).
Qed.
Lemma bytes_ltb_total a b : bytes_ltb a b = false → bytes_ltb b a = false → a = b.
Proof.
  unfold bytes_ltb. rewrite (bytes_cmp_antisym a b).
  destruct (bytes_cmp a b) eqn:E; try done. intros. by apply bytes_cmp_eq.
Qed.

Lemma until_nul_nonul s : Forall (λ c, c ≠ 0) s → until_nul s = s.
Proof.
  induction 1 as [|c s Hc _ IH]; simpl; [done|].
  destruct (Z.eqb_spec c 0); [done|]. by rewrite IH.
Qed.
Lemma until_nul_app_nul s t : Forall (λ c, c ≠ 0) s → until_nul (s ++ 0 :: t) = s.
Proof.
  induction 1 as [|c s Hc _ IH]; simpl; [done|].
  destruct (Z.eqb_spec c 0); [done|]. by rewrite IH.
Qed.

(** Sub-ranges. *)
Lemma zlen_ztake {A} n (l : list A) : 0 <= n → zlen (ztake n l) = Z.min n (zlen l).
Proof. unfold zlen, ztake. intros. rewrite length_take. lia. Qed.
Lemma zlen_zdrop {A} n (l : list A) : 0 <= n → zlen (zdrop n l) = Z.max 0 (zlen l - n).
Proof. unfold zlen, zdrop. intros. rewrite length_drop. lia. Qed.
Lemma zdrop_zdrop {A} a b (l : list A) : 0 <= a → 0 <= b → zdrop a (zdrop b l) = zdrop (b + a) l.
Proof. unfold zdrop. intros. rewrite drop_drop. f_equal. lia. Qed.
Lemma zdrop_ztake {A} a b (l : list A) : 0 <= a <= b →
  zdrop a (ztake b l) = ztake (b - a) (zdrop a l).
Proof. unfold zdrop, ztake. intros. rewrite skipn_firstn_comm. f_equal. lia. Qed.
Lemma ztake_ztake {A} a b (l : list A) : 0 <= a → 0 <= b → ztake a (ztake b l) = ztake (Z.min a b) l.
Proof. unfold ztake. intros. rewrite take_take. f_equal. lia. Qed.
Lemma ztake_all {A} n (l : list A) : zlen l <= n → ztake n l = l.
Proof. unfold ztake, zlen. intros. apply take_ge. lia. Qed.
Lemma ztake_zdrop_id {A} n (l : list A) : ztake n l ++ zdrop n l = l.
Proof. apply take_drop. Qed.
Lemma zlen_ztake_le {A} n (l : list A) : 0 <= n <= zlen l → zlen (ztake n l) = n.
Proof. intros. rewrite zlen_ztake; lia. Qed.
Lemma zlen_zdrop_le {A} n (l : list A) : 0 <= n <= zlen l → zlen (zdrop n l) = zlen l - n.
Proof. intros. rewrite zlen_zdrop; lia. Qed.
Lemma zdrop_app {A} (l k : list A) : zdrop (zlen l) (l ++ k) = k.
Proof. unfold zdrop. rewrite to_nat_zlen. apply drop_app_length. Qed.
Lemma ztake_app {A} (l k : list A) : ztake (zlen l) (l ++ k) = l.
Proof. unfold ztake. rewrite to_nat_zlen. apply take_app_length. Qed.
Lemma zdrop_past {A} pos (src : list A) : zlen src <= pos → zdrop pos src = [].
Proof. intros H. unfold zdrop. apply drop_ge. unfold zlen in H. lia. Qed.
