(* ===== verification/Base16.v ===== *)
(** * Base16 encoding and decoding (include/cxxll/base16.hpp) *)

From S2P Require Import Prelude.

(** Source: include/cxxll/base16.hpp 29-32, digits. *)
Definition b16_digits : bytes := str "0123456789abcdef".

Definition b16_digit (n : Z) : Z := nth (Z.to_nat n) b16_digits 0.

(** Source: include/cxxll/base16.hpp 25-39, base16_encode. *)
Fixpoint base16_encode (s : bytes) : bytes :=
  match s with
  | [] => []
  | c :: s =>
      let ch := u8 (Z.land c 255) in
      b16_digit (Z.shiftr ch 4) :: b16_digit (Z.land ch 15) :: base16_encode s
  end.

(** The value of a digit, [None] for the branch that throws.
    Source: include/cxxll/base16.hpp 62-72, base16_decode. *)
Definition b16_value (ch : Z) : option Z :=
  if (48 <=? ch) && (ch <=? 57) then Some (ch - 48)
  else if (65 <=? ch) && (ch <=? 70) then Some (10 + ch - 65)
  else if (97 <=? ch) && (ch <=? 102) then Some (10 + ch - 97)
  else None.

Definition b16_invalid : bytes := str "invalid hexadecimal digit".
Definition b16_odd : bytes := str "odd number of digits".

(** What the output iterator received, and how the loop ended.
    Source: include/cxxll/base16.hpp 56-94, base16_decode. *)
Fixpoint base16_decode_loop (offset : Z) (s : bytes) : bytes * option exn :=
  match s with
  | [] => ([], None)
  | ch1 :: rest =>
      match b16_value (u8 ch1) with
      | None => ([], Some (base16_decode_exception b16_invalid offset))
      | Some val1 =>
          match rest with
          | [] => ([], Some (base16_decode_exception b16_odd offset))
          | ch2 :: rest =>
              let offset := u64 (offset + 1) in
              match b16_value (u8 ch2) with
              | None => ([], Some (base16_decode_exception b16_invalid offset))
              | Some val2 =>
                  let '(out, r) := base16_decode_loop (u64 (offset + 1)) rest in
                  (Z.lor (Z.shiftl val1 4) val2 :: out, r)
              end
          end
      end
  end.

(** Source: include/cxxll/base16.hpp 56-60, base16_decode. *)
Definition base16_decode (s : bytes) : bytes * option exn := base16_decode_loop 0 s.

(** The overload for C strings: [mem] is the memory from [first] onwards, up
    to and including the terminating NUL.
    Source: include/cxxll/base16.hpp 96-133, base16_decode. *)
Fixpoint base16_decode_cstr_loop (offset : Z) (mem : bytes) : bytes * option exn :=
  match mem with
  | [] => ([], None)
  | ch1 :: rest =>
      if ch1 =? 0 then ([], None)
      else match b16_value (u8 ch1) with
      | None => ([], Some (base16_decode_exception b16_invalid offset))
      | Some val1 =>
          match rest with
          | [] => ([], Some (base16_decode_exception b16_odd offset))
          | ch2 :: rest =>
              if ch2 =? 0 then ([], Some (base16_decode_exception b16_odd offset))
              else
              let offset := u64 (offset + 1) in
              match b16_value (u8 ch2) with
              | None => ([], Some (base16_decode_exception b16_invalid offset))
              | Some val2 =>
                  let '(out, r) := base16_decode_cstr_loop (u64 (offset + 1)) rest in
                  (Z.lor (Z.shiftl val1 4) val2 :: out, r)
              end
          end
      end
  end.
(** Source: include/cxxll/base16.hpp 96-100, base16_decode. *)
Definition base16_decode_cstr (mem : bytes) : bytes * option exn := base16_decode_cstr_loop 0 mem.

(** Decoding as a value or an exception, as the callers use it. *)
Definition base16_decode_res (s : bytes) : res bytes :=
  match base16_decode s with
  | (out, None) => Ok out
  | (_, Some e) => Throw e
  end.

(** ** Lemmas *)

Definition b16_is_digit (c : Z) : bool := bool_decide (is_Some (b16_value c)).

(** Induction two digits at a time, the way the decoder consumes them. *)
Lemma pairs_ind {A} (P : list A → Prop) :
  P [] → (∀ a, P [a]) → (∀ a b l, P l → P (a :: b :: l)) → ∀ l, P l.
Proof.
  intros H0 H1 H2 l. enough (P l ∧ ∀ a, P (a :: l)) by tauto.
  induction l as [|b l [IH1 IH2]]; split; auto.
Qed.

Lemma u8_byte b : is_byte b → u8 b = b.
Proof. unfold u8, is_byte. intros. apply Z.mod_small. lia. Qed.
Lemma u64_small z : 0 <= z <= SIZE_MAX → u64 z = z.
Proof. unfold u64, SIZE_MAX. intros. apply Z.mod_small. lia. Qed.
#[export] Hint Rewrite u8_byte using assumption : symdb_rw.

Lemma b16_pair_roundtrip c :
  is_byte c →
  (b16_value (u8 (b16_digit (Z.shiftr c 4))), b16_value (u8 (b16_digit (Z.land c 15)))) =
  (Some (Z.shiftr c 4), Some (Z.land c 15)) ∧
  Z.lor (Z.shiftl (Z.shiftr c 4) 4) (Z.land c 15) = c ∧ u8 (Z.land c 255) = c.
Proof. intros Hc. byte_compute c Hc. Qed.

Lemma base16_decode_loop_encode k s :
  bytes_ok s → base16_decode_loop k (base16_encode s) = (s, None).
Proof.
  intros H. revert k. induction H as [|c s Hc _ IH]; intros k; [done|].
  destruct (b16_pair_roundtrip c Hc) as ([= H1 H2] & H3 & H4).
  cbn [base16_encode base16_decode_loop]. rewrite H4, H1, H2, IH, H3. done.
Qed.

(** Where decoding stops, in terms of the characters of the input alone. *)
Definition b16_outcome (k : Z) (s : bytes) (r : option exn) : Prop :=
  match r with
  | None => Forall (λ c, b16_is_digit c = true) s ∧ Z.even (zlen s) = true
  | Some (base16_decode_exception w o) =>
      ∃ pre c post, s = pre ++ c :: post ∧ o = k + zlen pre ∧
        Forall (λ c, b16_is_digit c = true) pre ∧
        (w = b16_invalid ∧ b16_is_digit c = false ∨
         w = b16_odd ∧ b16_is_digit c = true ∧ post = [] ∧ Z.even (zlen pre) = true)
  | Some _ => False
  end.

Lemma b16_outcome_pair k a b s r :
  b16_is_digit a = true → b16_is_digit b = true →
  b16_outcome (k + 2) s r → b16_outcome k (a :: b :: s) r.
Proof.
  intros Ha Hb. destruct r as [[]|]; cbn [b16_outcome]; try done.
  - intros (pre & c & post & -> & -> & Hpre & Hw).
    exists (a :: b :: pre), c, post. split_and!; [done|zl|auto|].
    destruct Hw as [?|(? & ? & ? & He)]; [by left|right].
    split_and!; auto. rewrite !zlen_cons, Z.add_assoc.
    change (1 + 1 + zlen pre) with (2 + zlen pre). by rewrite Z.even_add, He.
  - intros [Hs He]. split; [auto|]. rewrite !zlen_cons, Z.add_assoc.
    change (1 + 1 + zlen s) with (2 + zlen s). by rewrite Z.even_add, He.
Qed.

Lemma b16_is_digit_Some c v : b16_value c = Some v → b16_is_digit c = true.
Proof. intros H. apply bool_decide_eq_true. eauto. Qed.
Lemma b16_is_digit_None c : b16_value c = None → b16_is_digit c = false.
Proof. intros H. apply bool_decide_eq_false. rewrite H. by intros []. Qed.
#[export] Hint Resolve b16_is_digit_Some b16_is_digit_None : symdb.

Lemma base16_decode_loop_outcome s : bytes_ok s → ∀ k,
  0 <= k → k + zlen s <= SIZE_MAX → b16_outcome k s (base16_decode_loop k s).2.
Proof.
  induction s as [|a|a b s IH] using pairs_ind; intros Hs k Hk Hl; [done|..].
  - apply bytes_ok_cons in Hs as [Ha _]. cbn [base16_decode_loop].
    rewrite u8_byte by done.
    destruct (b16_value a) eqn:Ea; exists [], a, []; (split_and!; [done|zl|constructor|]).
    + right. eauto with symdb.
    + left. eauto with symdb.
  - apply bytes_ok_cons in Hs as [Ha [Hb Hs]%bytes_ok_cons]. zl.
    cbn [base16_decode_loop]. rewrite !u8_byte by done.
    destruct (b16_value a) eqn:Ea; cbn [snd].
    2:{ exists [], a, (b :: s). split_and!; [done|zl|constructor|left; eauto with symdb]. }
    rewrite (u64_small (k + 1)) by lia.
    destruct (b16_value b) eqn:Eb; cbn [snd].
    2:{ exists [a], b, s. split_and!; [done|zl|repeat constructor|left]; eauto with symdb. }
    specialize (IH Hs (k + 2)).
    rewrite (u64_small (k + 1 + 1)) by lia. replace (k + 1 + 1) with (k + 2) by lia.
    destruct (base16_decode_loop (k + 2) s) as [out r]. cbn [snd] in *.
    apply b16_outcome_pair; eauto with symdb. apply IH; lia.
Qed.

(** The lower-case form of a digit. *)
Definition b16_lower (c : Z) : Z := if (65 <=? c) && (c <=? 70) then c + 32 else c.

Lemma b16_value_range c v : is_byte c → b16_value c = Some v →
  0 <= v < 16 ∧ b16_digit v = b16_lower c.
Proof.
  intros Hc Hv.
  assert (from_option (λ v, (0 <=? v) && (v <? 16) && (b16_digit v =? b16_lower c)) true
    (b16_value c) = true) as Hg by (clear v Hv; byte_compute c Hc).
  rewrite Hv in Hg. simpl in Hg. lia.
Qed.

Lemma b16_join n : is_byte n →
  Z.lor (Z.shiftl (n / 16) 4) (n mod 16) = n ∧
  base16_encode [n] = [b16_digit (n / 16); b16_digit (n mod 16)].
Proof. intros Hn. byte_compute n Hn. Qed.

Lemma b16_reencode a b va vb :
  is_byte a → is_byte b → b16_value a = Some va → b16_value b = Some vb →
  base16_encode [Z.lor (Z.shiftl va 4) vb] = [b16_lower a; b16_lower b] ∧
  is_byte (Z.lor (Z.shiftl va 4) vb).
Proof.
  intros Ha Hb Hva Hvb.
  destruct (b16_value_range a va Ha Hva) as [Ra <-], (b16_value_range b vb Hb Hvb) as [Rb <-].
  assert (is_byte (16 * va + vb)) as Hn by (unfold is_byte; lia).
  destruct (b16_join _ Hn) as [H1 H2].
  replace ((16 * va + vb) / 16) with va in * by (apply Z.div_unique with vb; lia).
  replace ((16 * va + vb) mod 16) with vb in * by (apply Z.mod_unique with va; lia).
  rewrite H1. split; [done|]. done.
Qed.

Lemma base16_encode_app s t : base16_encode (s ++ t) = base16_encode s ++ base16_encode t.
Proof. induction s as [|c s IH]; simpl; [done|]. by rewrite IH. Qed.
Lemma zlen_base16_encode s : zlen (base16_encode s) = 2 * zlen s.
Proof. induction s as [|c s IH]; [done|]. cbn [base16_encode]. zl. Qed.

Lemma base16_decode_loop_reencode s : bytes_ok s → ∀ k out,
  base16_decode_loop k s = (out, None) →
  base16_encode out = b16_lower <$> s ∧ bytes_ok out.
Proof.
  induction s as [|a|a b s IH] using pairs_ind; intros Hs k out.
  - intros [= <-]. split; [done|constructor].
  - cbn [base16_decode_loop]. by destruct (b16_value _).
  - apply bytes_ok_cons in Hs as [Ha [Hb Hs]%bytes_ok_cons].
    cbn [base16_decode_loop]. rewrite !u8_byte by done.
    destruct (b16_value a) as [va|] eqn:Ea; [|done].
    destruct (b16_value b) as [vb|] eqn:Eb; [|done].
    destruct (base16_decode_loop _ s) as [o r] eqn:Er. intros [= <- ->].
    destruct (IH Hs _ _ Er) as [IH1 IH2]. destruct (b16_reencode a b va vb Ha Hb Ea Eb) as [H1 H2].
    split; [|by constructor].
    change (?x :: o) with ([x] ++ o). rewrite base16_encode_app, H1, IH1. done.
Qed.

Lemma base16_decode_cstr_loop_eq s : ∀ k, base16_decode_cstr_loop k s = base16_decode_loop k (until_nul s).
Proof.
  induction s as [|a|a b s IH] using pairs_ind; intros k; [done|..]; cbn.
  - destruct (a =? 0); [done|]. cbn. by destruct (b16_value (u8 a)).
  - destruct (a =? 0); [done|]. cbn. destruct (b16_value (u8 a)); [|done].
    destruct (b =? 0); [done|]. destruct (b16_value (u8 b)); [|done]. by rewrite IH.
Qed.

(** ** Properties *)

(** Decoding what [base16_encode] produced gives the bytes back: every
    byte string survives the round trip, with no exception. *)
Theorem base16_roundtrip (s : bytes) :
  bytes_ok s → base16_decode (base16_encode s) = (s, None).
Proof. apply base16_decode_loop_encode. Qed.

Example base16_roundtrip_witness :
  bytes_ok [47; 63; 255; 254] ∧
  base16_decode (base16_encode [47; 63; 255; 254]) = ([47; 63; 255; 254], None).
Proof.
  split; [by repeat constructor|]. apply base16_roundtrip. by repeat constructor.
Defined.

(** What the decoder does with arbitrary text: it accepts exactly the
    strings of an even number of hexadecimal digits, and then re-encoding the
    result gives the text in lower case; otherwise the exception carries the
    offset of the first character that is not a digit, or of the last digit
    when the number of digits is odd. *)
Theorem base16_decode_spec (s : bytes) :
  bytes_ok s → zlen s <= SIZE_MAX →
  let '(out, r) := base16_decode s in
  b16_outcome 0 s r ∧ (r = None → base16_encode out = b16_lower <$> s ∧ bytes_ok out).
Proof.
  intros Hs Hl. pose proof (base16_decode_loop_outcome s Hs 0).
  unfold base16_decode. destruct (base16_decode_loop 0 s) as [out r] eqn:E. split; [auto with lia|].
  intros ->. by apply (base16_decode_loop_reencode s Hs 0).
Qed.

Example base16_decode_spec_witness :
  base16_decode (str "2fX0") = ([47], Some (base16_decode_exception b16_invalid 2)) ∧
  b16_outcome 0 (str "2fX0") (Some (base16_decode_exception b16_invalid 2)).
Proof.
  split; [reflexivity|].
  refine (proj1 (base16_decode_spec (str "2fX0") _ _)); [by repeat constructor|done].
Defined.

(** The overload for C strings is the iterator overload on the text before
    the terminating NUL. *)
Theorem base16_decode_overloads_agree (mem : bytes) :
  base16_decode_cstr mem = base16_decode (until_nul mem).
Proof. apply base16_decode_cstr_loop_eq. Qed.
