(* ===== verification/StringRef.v ===== *)
(** * String references (include/cxxll/const_stringref.hpp,
    lib/cxxll/const_stringref.cpp)

    A reference is the object it points into, the offset of [start_] from the
    first byte of that object, and [size_].  Pointer differences are offset
    differences, which is what C++ defines for pointers into one object. *)

From S2P Require Import Prelude.

(** Source: include/cxxll/const_stringref.hpp 50-52, const_stringref. *)
Record stringref := StringRef { sr_obj : bytes; sr_start : Z; sr_size : Z }.

#[global] Instance stringref_eq_dec : EqDecision stringref.
Proof. solve_decision. Defined.

(** ** Construction *)

(** Source: include/cxxll/const_stringref.hpp 186-190, const_stringref(). *)
Definition sr_empty_ref : stringref := StringRef [0] 0 0.

(** [mem] is the memory from the pointer to the end of its object.
    Source: include/cxxll/const_stringref.hpp 192-202, const_stringref(char pointer). *)
Definition sr_of_cstr (mem : bytes) : stringref := StringRef mem 0 (zlen (until_nul mem)).

(** Source: include/cxxll/const_stringref.hpp 204-220, const_stringref(pointer, size_t). *)
Definition sr_of_range (mem : bytes) (len : Z) : stringref := StringRef mem 0 len.

(** Source: include/cxxll/const_stringref.hpp 222-254, const_stringref(const std::string &). *)
Definition sr_of_bytes (v : bytes) : stringref :=
  if negb (zlen v =? 0) then StringRef v 0 (zlen v) else StringRef [0] 0 0.

(** ** Access *)

(** Source: include/cxxll/const_stringref.hpp 256-266, str. *)
Definition sr_str (s : stringref) : bytes := ztake (sr_size s) (zdrop (sr_start s) (sr_obj s)).

(** Source: include/cxxll/const_stringref.hpp 281-291, empty. *)
Definition sr_is_empty (s : stringref) : bool := sr_size s =? 0.

(** Source: include/cxxll/const_stringref.hpp 170-176, check_index. *)
Definition sr_check_index (s : stringref) (index : Z) : res unit :=
  if sr_size s <=? index then Throw (bad_string_index (sr_size s) index) else Ok tt.

(** Source: include/cxxll/const_stringref.hpp 178-184, check_index_equal_ok. *)
Definition sr_check_index_equal_ok (s : stringref) (index : Z) : res unit :=
  if sr_size s <? index then Throw (bad_string_index (sr_size s) index) else Ok tt.

(** A load through [start_]; outside the object it is undefined behaviour,
    which no theorem relies on.
    Source: include/cxxll/const_stringref.hpp 293-304, at. *)
Definition sr_at (s : stringref) (index : Z) : res Z :=
  _ ← sr_check_index s index;
  Ok (default 0 (zget (sr_obj s) (sr_start s + index))).

(** Source: lib/cxxll/const_stringref.cpp 66-71, substr. *)
Definition sr_substr (s : stringref) (pos count : Z) : res stringref :=
  _ ← sr_check_index_equal_ok s pos;
  Ok (StringRef (sr_obj s) (sr_start s + pos) (Z.min count (sr_size s - pos))).

(** Source: include/cxxll/const_stringref.hpp 320-325, operator+. *)
Definition sr_plus (s : stringref) (index : Z) : res stringref :=
  _ ← sr_check_index_equal_ok s index;
  Ok (StringRef (sr_obj s) (sr_start s + index) (sr_size s - index)).

(** Source: include/cxxll/const_stringref.hpp 386-395, operator++. *)
Definition sr_incr (s : stringref) : res stringref :=
  if sr_size s =? 0 then Throw (bad_string_index 0 0)
  else Ok (StringRef (sr_obj s) (sr_start s + 1) (sr_size s - 1)).

(** The old value and the new value of the reference.
    Source: include/cxxll/const_stringref.hpp 397-403, operator++(int). *)
Definition sr_post_incr (s : stringref) : res (stringref * stringref) :=
  s' ← sr_incr s; Ok (s, s').

(** Source: include/cxxll/const_stringref.hpp 405-412, operator+=. *)
Definition sr_plus_eq (s : stringref) (index : Z) : res stringref :=
  _ ← sr_check_index_equal_ok s index;
  Ok (StringRef (sr_obj s) (sr_start s + index) (sr_size s - index)).

(** ** Comparison *)

(** The sign of [memcmp] on the first [n] bytes. *)
Definition memcmp (a b : bytes) (n : Z) : Z :=
  match bytes_cmp (ztake n a) (ztake n b) with Lt => -1 | Eq => 0 | Gt => 1 end.

(** Source: include/cxxll/const_stringref.hpp 327-337, operator==. *)
Definition sr_eq (l r : stringref) : bool :=
  (sr_size l =? sr_size r) && (memcmp (sr_str l) (sr_str r) (sr_size l) =? 0).

(** Source: lib/cxxll/const_stringref.cpp 37-52, cmp. *)
Definition sr_cmp (l r : stringref) : Z :=
  let ret := memcmp (sr_str l) (sr_str r) (Z.min (sr_size l) (sr_size r)) in
  if negb (ret =? 0) then ret
  else if sr_size l <? sr_size r then -1
  else if sr_size r <? sr_size l then 1
  else 0.

(** Source: lib/cxxll/const_stringref.cpp 54-58, less_than. *)
Definition sr_less_than (l r : stringref) : bool := sr_cmp l r <? 0.
(** Source: lib/cxxll/const_stringref.cpp 60-64, less_than_equal. *)
Definition sr_less_than_equal (l r : stringref) : bool := sr_cmp l r <=? 0.

(** ** Searching *)

(** [memchr]: the index of the first occurrence. *)
Fixpoint find_byte (ch : Z) (s : bytes) : option Z :=
  match s with
  | [] => None
  | c :: s => if c =? ch then Some 0 else Z.succ <$> find_byte ch s
  end.

(** Source: include/cxxll/const_stringref.hpp 363-367, nlen. *)
Definition sr_nlen (s : stringref) : Z := zlen (until_nul (sr_str s)).

(** Source: include/cxxll/const_stringref.hpp 369-378, chr. *)
Definition sr_chr (s : stringref) (ch : Z) : stringref :=
  match find_byte ch (sr_str s) with
  | Some i => StringRef (sr_obj s) (sr_start s + i) (sr_start s + sr_size s - (sr_start s + i))
  | None => sr_empty_ref
  end.

(** The copy made by [strndup], without its terminator.
    Source: lib/cxxll/const_stringref.cpp 73-81, ndup. *)
Definition sr_ndup (s : stringref) : bytes := until_nul (sr_str s).

(** Source: lib/cxxll/const_stringref.cpp 83-93, upto. *)
Definition sr_upto (s stop : stringref) : res stringref :=
  if sr_is_empty stop then Ok s
  else
    let end_ := u64 (sr_start stop - sr_start s) in
    _ ← sr_check_index_equal_ok s end_;
    Ok (StringRef (sr_obj s) (sr_start s) end_).

(** ** Well-formed references *)

Definition sr_wf (s : stringref) : Prop :=
  0 <= sr_start s ∧ 0 <= sr_size s ∧ sr_start s + sr_size s <= zlen (sr_obj s) ∧
  zlen (sr_obj s) <= SIZE_MAX.

Section wf.
Context (s : stringref) (Hwf : sr_wf s).

Lemma zlen_sr_str : zlen (sr_str s) = sr_size s.
Proof using Hwf.
  destruct Hwf as (H1 & H2 & H3 & H4). unfold sr_str.
  rewrite zlen_ztake, zlen_zdrop by lia. lia.
Qed.

Lemma sr_slice_str off n : 0 <= off → 0 <= n → off + n <= sr_size s →
  sr_str (StringRef (sr_obj s) (sr_start s + off) n) = ztake n (zdrop off (sr_str s)) ∧
  sr_wf (StringRef (sr_obj s) (sr_start s + off) n).
Proof using Hwf.
  destruct Hwf as (H1 & H2 & H3 & H4). intros. split.
  - unfold sr_str; cbn [sr_obj sr_start sr_size].
    rewrite zdrop_ztake by lia. rewrite ztake_ztake, zdrop_zdrop by lia.
    f_equal. lia.
  - split_and!; cbn [sr_obj sr_start sr_size]; lia.
Qed.
End wf.

Lemma sr_suffix_str s n : sr_wf s → 0 <= n <= sr_size s →
  sr_str (StringRef (sr_obj s) (sr_start s + n) (sr_size s - n)) = zdrop n (sr_str s) ∧
  sr_wf (StringRef (sr_obj s) (sr_start s + n) (sr_size s - n)).
Proof.
  intros Hwf Hn. destruct (sr_slice_str s Hwf n (sr_size s - n)) as [H1 H2]; [lia..|].
  split; [|done]. rewrite H1. apply ztake_all.
  rewrite zlen_zdrop by lia. rewrite zlen_sr_str by done. lia.
Qed.

Lemma sr_empty_ref_wf : sr_wf sr_empty_ref ∧ sr_str sr_empty_ref = [].
Proof. done. Qed.

Lemma zlen_until_nul s : zlen (until_nul s) <= zlen s.
Proof. induction s as [|c s IH]; simpl; [done|]. destruct (c =? 0); zl. Qed.
Lemma until_nul_take s : ztake (zlen (until_nul s)) s = until_nul s.
Proof.
  induction s as [|c s IH]; simpl; [done|]. destruct (c =? 0); [done|].
  unfold ztake in *. rewrite zlen_cons, Z2Nat.inj_add by (unfold zlen; lia).
  simpl. by rewrite IH.
Qed.

Lemma sr_of_cstr_ok mem : zlen mem <= SIZE_MAX →
  sr_wf (sr_of_cstr mem) ∧ sr_str (sr_of_cstr mem) = until_nul mem.
Proof.
  intros. pose proof (zlen_until_nul mem). split.
  - unfold sr_wf, sr_of_cstr; cbn. pose proof (zlen_nonneg (until_nul mem)). lia.
  - unfold sr_str, sr_of_cstr; cbn. apply until_nul_take.
Qed.
Lemma sr_of_bytes_ok v : zlen v <= SIZE_MAX → sr_wf (sr_of_bytes v) ∧ sr_str (sr_of_bytes v) = v.
Proof.
  intros. unfold sr_of_bytes. destruct (Z.eqb_spec (zlen v) 0) as [E|E]; simpl.
  - by rewrite (zlen_0_nil v).
  - split; [unfold sr_wf; cbn; pose proof (zlen_nonneg v); lia|].
    unfold sr_str; cbn. change (zdrop 0 v) with v. by apply ztake_all.
Qed.

Lemma find_byte_Some ch s i : find_byte ch s = Some i →
  0 <= i < zlen s ∧ Forall (λ c, c ≠ ch) (ztake i s) ∧ ∃ t, zdrop i s = ch :: t.
Proof.
  revert i. induction s as [|c s IH]; intros i; simpl; [done|].
  destruct (Z.eqb_spec c ch) as [->|Hc].
  - intros [= <-]. split_and!; [lia|zl|constructor|by exists s].
  - destruct (find_byte ch s) as [j|] eqn:E; simpl; [|done]. intros [= <-].
    destruct (IH j eq_refl) as (H1 & H2 & t & H3).
    assert (Z.to_nat (Z.succ j) = S (Z.to_nat j)) as Hj by lia.
    unfold ztake, zdrop in *. rewrite Hj. split_and!; [lia|zl| |by exists t].
    by constructor.
Qed.
Lemma find_byte_None ch s : find_byte ch s = None → Forall (λ c, c ≠ ch) s.
Proof.
  induction s as [|c s IH]; simpl; [done|]. destruct (Z.eqb_spec c ch); [done|].
  destruct (find_byte ch s); simpl; [done|]. auto.
Qed.

Lemma bytes_cmp_take a b :
  match bytes_cmp (ztake (Z.min (zlen a) (zlen b)) a) (ztake (Z.min (zlen a) (zlen b)) b) with
  | Eq => zlen a ?= zlen b
  | c => c
  end = bytes_cmp a b.
Proof.
  revert b. induction a as [|x a IH]; intros [|y b]; try done.
  assert (Z.to_nat (Z.min (zlen (x :: a)) (zlen (y :: b))) =
    S (Z.to_nat (Z.min (zlen a) (zlen b)))) as Hm by zl.
  unfold ztake in *. rewrite Hm. cbn [take bytes_cmp]. rewrite !zlen_cons.
  destruct (x ?= y) eqn:E; [|done..]. rewrite <- IH.
  destruct (bytes_cmp _ _); [|done..]. apply Z.add_compare_mono_l.
Qed.

Lemma sr_cmp_bytes_cmp l r : sr_wf l → sr_wf r →
  sr_cmp l r = match bytes_cmp (sr_str l) (sr_str r) with Lt => -1 | Eq => 0 | Gt => 1 end.
Proof.
  intros Hl Hr. unfold sr_cmp, memcmp.
  rewrite <- (bytes_cmp_take (sr_str l) (sr_str r)), !zlen_sr_str by done.
  destruct (bytes_cmp _ _); [|done..]. simpl.
  destruct (Z.compare_spec (sr_size l) (sr_size r)), (Z.ltb_spec (sr_size l) (sr_size r)),
    (Z.ltb_spec (sr_size r) (sr_size l)); lia.
Qed.

(** ** Properties *)

(** [substr] is the sub-range of the text it promises: for a position
    inside the string it returns at most [count] characters from there, cut
    short silently at the end, and it throws [bad_string_index] with the size
    and the position when the position is past the end. *)
Theorem sr_substr_spec (s : stringref) (pos count : Z) :
  sr_wf s → 0 <= pos → 0 <= count →
  match sr_substr s pos count with
  | Ok r => pos <= sr_size s ∧ sr_wf r ∧ sr_str r = ztake count (zdrop pos (sr_str s))
  | Throw e => sr_size s < pos ∧ e = bad_string_index (sr_size s) pos
  end.
Proof.
  intros Hwf Hp Hc. unfold sr_substr, sr_check_index_equal_ok.
  destruct (Z.ltb_spec (sr_size s) pos); cbn [mbind res_bind]; [done|].
  destruct (sr_slice_str s Hwf pos (Z.min count (sr_size s - pos))) as [H1 H2]; [lia..|].
  split_and!; [done|done|]. rewrite H1.
  assert (zlen (zdrop pos (sr_str s)) = sr_size s - pos) as Hz.
  { rewrite zlen_zdrop, zlen_sr_str by (done || lia). lia. }
  rewrite <- Hz, <- ztake_ztake by zl. f_equal. by apply ztake_all.
Qed.

Definition sr_test : stringref := sr_of_cstr (str "string7" ++ [0]).

Example sr_substr_spec_witness :
  sr_wf sr_test ∧
  match sr_substr sr_test 3 100 with
  | Ok r => 3 <= sr_size sr_test ∧ sr_wf r ∧ sr_str r = str "ing7"
  | Throw e => False
  end.
Proof. split; [done|]. exact (sr_substr_spec sr_test 3 100 ltac:(done) ltac:(lia) ltac:(lia)). Defined.

(** The comparison operators of string references are the lexicographic
    order on unsigned characters: [<] is that order (in particular it is
    irreflexive, transitive and total on the texts), [<=] is the negation of
    the converse, and [==] holds exactly for equal texts. *)
Theorem sr_order_lexicographic (l r : stringref) :
  sr_wf l → sr_wf r →
  sr_less_than l r = bytes_ltb (sr_str l) (sr_str r) ∧
  sr_less_than_equal l r = negb (bytes_ltb (sr_str r) (sr_str l)) ∧
  (sr_eq l r = true ↔ sr_str l = sr_str r).
Proof.
  intros Hl Hr. unfold sr_less_than, sr_less_than_equal, bytes_ltb.
  rewrite sr_cmp_bytes_cmp by done.
  rewrite (bytes_cmp_antisym (sr_str l) (sr_str r)).
  split; [by destruct (bytes_cmp _ _)|]. split; [by destruct (bytes_cmp _ _)|].
  rewrite <- bytes_cmp_eq. unfold sr_eq, memcmp.
  pose proof (zlen_sr_str l Hl) as El. pose proof (zlen_sr_str r Hr) as Er.
  destruct (Z.eqb_spec (sr_size l) (sr_size r)) as [E|E]; simpl.
  - rewrite !ztake_all by lia. by destruct (bytes_cmp _ _).
  - split; [done|]. intros H%bytes_cmp_eq. rewrite H in El. lia.
Qed.

Example sr_order_lexicographic_witness :
  sr_less_than sr_test (sr_of_cstr (str "string8" ++ [0])) = true ∧
  (sr_eq sr_test sr_test = true ↔ sr_str sr_test = sr_str sr_test).
Proof.
  split; [reflexivity|].
  refine (proj2 (proj2 (sr_order_lexicographic sr_test sr_test _ _))); done.
Defined.

(** Splitting at a character: [upto] of the reference that [chr] found is
    the text before the first occurrence, and the two parts are the whole text.
    This also holds when [chr] finds nothing and returns the empty reference
    that points elsewhere, because [upto] treats an empty stop as the end. *)
Theorem sr_chr_upto_split (s : stringref) (ch : Z) :
  sr_wf s →
  ∃ pre, sr_upto s (sr_chr s ch) = Ok pre ∧ sr_wf pre ∧
    sr_str pre ++ sr_str (sr_chr s ch) = sr_str s ∧
    Forall (λ c, c ≠ ch) (sr_str pre) ∧
    (sr_size (sr_chr s ch) = 0 ∨ head (sr_str (sr_chr s ch)) = Some ch).
Proof.
  intros Hwf. pose proof Hwf as (W1 & W2 & W3 & W4). unfold sr_chr, sr_upto.
  destruct (find_byte ch (sr_str s)) as [i|] eqn:E.
  - apply find_byte_Some in E as (Hi & Hne & t & Ht). rewrite zlen_sr_str in Hi by done.
    replace (sr_start s + sr_size s - (sr_start s + i)) with (sr_size s - i) by lia.
    unfold sr_is_empty; cbn [sr_size sr_start].
    destruct (Z.eqb_spec (sr_size s - i) 0); [lia|].
    replace (sr_start s + i - sr_start s) with i by lia.
    unfold u64. rewrite Z.mod_small by (unfold SIZE_MAX in *; lia).
    unfold sr_check_index_equal_ok. destruct (Z.ltb_spec (sr_size s) i); [lia|].
    cbn [mbind res_bind].
    destruct (sr_slice_str s Hwf 0 i) as [H1 H2]; [lia..|]. rewrite Z.add_0_r in *.
    destruct (sr_suffix_str s i Hwf) as [H3 _]; [lia|].
    eexists; split_and!; [done|done|..]; rewrite ?H1, ?H3.
    + change (zdrop 0 (sr_str s)) with (sr_str s). apply ztake_zdrop_id.
    + done.
    + right. by rewrite Ht.
  - apply find_byte_None in E. exists s. split_and!; auto. by rewrite app_nil_r.
Qed.

Example sr_chr_upto_split_witness :
  sr_chr sr_test 105 = StringRef (sr_obj sr_test) 3 4 ∧
  ∃ pre, sr_upto sr_test (sr_chr sr_test 105) = Ok pre ∧ sr_wf pre ∧
    sr_str pre ++ sr_str (sr_chr sr_test 105) = sr_str sr_test ∧
    Forall (λ c, c ≠ 105) (sr_str pre) ∧
    (sr_size (sr_chr sr_test 105) = 0 ∨ head (sr_str (sr_chr sr_test 105)) = Some 105).
Proof. split; [reflexivity|]. exact (sr_chr_upto_split sr_test 105 ltac:(done)). Defined.
