(* ===== verification/StringSupport.v ===== *)
(** * String helpers (lib/cxxll/string_support.cpp,
    include/cxxll/string_support.hpp) *)

From S2P Require Import Prelude.

(** ** Character classes *)

(** [char] is signed: bytes above 127 are negative and not white space.
    Source: include/cxxll/string_support.hpp 33-38, whitespace. *)
Definition whitespace (ch : Z) : bool := (0 <=? schar ch) && (schar ch <=? 32).

(** Source: include/cxxll/string_support.hpp 43-50, starts_with. *)
Definition starts_with (s pattern : bytes) : bool :=
  if zlen s <? zlen pattern then false
  else bool_decide (ztake (zlen pattern) s = pattern).
(** Whether the bytes occur, as [memmem] and [std::string::find] report. *)
Fixpoint memmem (haystack needle : bytes) : bool :=
  starts_with haystack needle || match haystack with [] => false | _ :: h => memmem h needle end.

(** Source: include/cxxll/string_support.hpp 52-59, ends_with. *)
Definition ends_with (s pattern : bytes) : bool :=
  if zlen s <? zlen pattern then false
  else bool_decide (zdrop (zlen s - zlen pattern) s = pattern).

(** ** Quoting *)

Definition hex_digit_char (n : Z) : Z := nth (Z.to_nat n) (str "0123456789abcdef") 0.

(** The characters that make [quote] restart and escape.
    Source: lib/cxxll/string_support.cpp 31-33, quote. *)
Definition quote_special (ch : Z) : bool :=
  (ch <=? 32) || (ch =? 92) || (ch =? 34) || (ch =? 39) || (127 <=? ch).

(** One character written to the stream; [std::hex], width 2 and fill '0'
    print two lower-case digits.
    Source: lib/cxxll/string_support.cpp 39-63, quote. *)
Definition quote_char (ch : Z) : bytes :=
  if ch =? 13 then str "\r"
  else if ch =? 10 then str "\n"
  else if ch =? 9 then str "\t"
  else if (ch =? 34) || (ch =? 39) || (ch =? 92) then [92; ch]
  else if (ch <? 32) || (127 <=? ch) then
    str "\x" ++ [hex_digit_char (Z.shiftr ch 4); hex_digit_char (Z.land ch 15)]
  else [ch].

(** Source: lib/cxxll/string_support.cpp 28-70, quote. *)
Definition quote (s : bytes) : bytes :=
  if existsb quote_special s then concat (quote_char <$> s) else s.

(** ** Stripping *)

(** Source: lib/cxxll/string_support.cpp 73-83, non_whitespace. *)
Fixpoint non_whitespace (s : bytes) : bytes :=
  match s with
  | [] => []
  | c :: t => if whitespace c then non_whitespace t else s
  end.

(** The scan from the end in [strip_inplace], on the reversed text: [None] when
    it reaches the beginning without finding a character to keep.
    Source: lib/cxxll/string_support.cpp 94-103, strip_inplace. *)
Fixpoint strip_scan_back (r : bytes) : option bytes :=
  match r with
  | [] => None
  | c :: t => if negb (whitespace c) then Some r else strip_scan_back t
  end.

(** Source: lib/cxxll/string_support.cpp 85-104, strip_inplace. *)
Definition strip_inplace (s : bytes) : bytes :=
  let s := non_whitespace s in
  match strip_scan_back (rev s) with
  | Some r => rev r
  | None => s
  end.

(** Source: lib/cxxll/string_support.cpp 129-135, strip. *)
Definition strip (s : bytes) : bytes := strip_inplace s.

(** ** Numbers *)

Definition ULLONG_MAX : Z := 18446744073709551615.

(** [isspace] of the C locale, used by [strtoull]. *)
Definition c_isspace (c : Z) : bool := (c =? 32) || ((9 <=? c) && (c <=? 13)).
Definition c_isdigit (c : Z) : bool := (48 <=? c) && (c <=? 57).

Fixpoint skip_isspace (s : bytes) : bytes :=
  match s with
  | [] => []
  | c :: t => if c_isspace c then skip_isspace t else s
  end.

(** The digits at the front of the text, with the value of the digits so far. *)
Fixpoint scan_digits (acc : Z) (s : bytes) : Z * bytes :=
  match s with
  | [] => (acc, [])
  | c :: t => if c_isdigit c then scan_digits (10 * acc + (c - 48)) t else (acc, s)
  end.

(** [strtoull (p, &endptr, 10)]: the value, the rest at [endptr], and whether
    [errno] was set.  [p] is a NUL-terminated string, so the memory after [p]
    is [s] followed by a NUL; no digits means [endptr = p] and no error. *)
Definition strtoull (s : bytes) : Z * bytes * bool :=
  let t := skip_isspace s in
  let '(neg, t) := match t with
    | c :: u => if c =? 43 then (false, u) else if c =? 45 then (true, u) else (false, t)
    | [] => (false, t)
    end in
  match t with
  | c :: _ =>
      if c_isdigit c then
        let '(v, rest) := scan_digits 0 t in
        if ULLONG_MAX <? v then (ULLONG_MAX, rest, true)
        else ((if neg : bool then u64 (- v) else v), rest, false)
      else (0, s, false)
  | [] => (0, s, false)
  end.

(** [None] is the result [false]; [value] is then left alone.
    Source: lib/cxxll/string_support.cpp 107-127, parse_unsigned_long_long. *)
Definition parse_unsigned_long_long (text : bytes) : option Z :=
  let first := non_whitespace text in
  let '(v, endptr, errno_set) := strtoull first in
  if (errno_set : bool) then None
  else match non_whitespace endptr with
  | [] => Some v
  | _ => None
  end.

(** ** Hashing *)

(** Source: lib/cxxll/string_support.cpp 137-148, fnv. *)
Fixpoint fnv_loop (hash : Z) (p : bytes) : Z :=
  match p with
  | [] => hash
  | c :: p => fnv_loop (u32 (Z.lxor hash c * 2654435769)) p
  end.

(** Source: lib/cxxll/string_support.cpp 150-160, fnv. *)
Definition fnv (s : bytes) : Z := fnv_loop 608135816 s.

(** ** Lemmas on the white space scans *)

Abbreviation all_ws := (Forall (λ c, whitespace c = true)).

Lemma non_whitespace_split s : ∃ l, s = l ++ non_whitespace s ∧ all_ws l.
Proof.
  induction s as [|c s (l & Hs & Hl)]; simpl; [by exists []|].
  destruct (whitespace c) eqn:E; [|by exists []].
  exists (c :: l). split; [simpl; congruence|by constructor].
Qed.
Lemma non_whitespace_head s c t : non_whitespace s = c :: t → whitespace c = false.
Proof.
  induction s as [|d s IH]; simpl; [done|]. destruct (whitespace d) eqn:E; [done|].
  by intros [= -> ->].
Qed.
Lemma non_whitespace_app l t : all_ws l → non_whitespace (l ++ t) = non_whitespace t.
Proof. induction 1 as [|x l Hx _ IH]; simpl; [done|]. by rewrite Hx. Qed.
Lemma non_whitespace_nil s : non_whitespace s = [] ↔ all_ws s.
Proof.
  split.
  - intros H. destruct (non_whitespace_split s) as (l & Hs & Hl). rewrite H, app_nil_r in Hs. congruence.
  - intros H. rewrite <- (app_nil_r s). by rewrite non_whitespace_app.
Qed.
Lemma non_whitespace_keep c t : whitespace c = false → non_whitespace (c :: t) = c :: t.
Proof. simpl. by intros ->. Qed.

(** The backward scan is the forward scan of the reversed text. *)
Lemma strip_scan_back_eq r :
  strip_scan_back r = match non_whitespace r with [] => None | t => Some t end.
Proof. induction r as [|c r IH]; simpl; [done|]. by destruct (whitespace c). Qed.

Definition ws_free_ends (s : bytes) : Prop :=
  ∀ c, head s = Some c ∨ last s = Some c → whitespace c = false.

Lemma last_rev_head {A} (l : list A) : last (rev l) = head l.
Proof. destruct l as [|x l]; simpl; [done|]. by rewrite last_snoc. Qed.
Lemma head_rev_last {A} (l : list A) : head (rev l) = last l.
Proof. rewrite <- (rev_involutive l) at 2. by rewrite last_rev_head. Qed.
Lemma all_ws_rev l : all_ws (rev l) ↔ all_ws l.
Proof. split; intros H%Forall_rev; [by rewrite rev_involutive in H|done]. Qed.

(** ** Lemmas on [strtoull] *)

Definition digit_value (ds : bytes) : Z := foldl (λ acc c, 10 * acc + (c - 48)) 0 ds.
Abbreviation all_digits := (Forall (λ c, c_isdigit c = true)).

Lemma scan_digits_app acc ds t : all_digits ds → (∀ c, head t = Some c → c_isdigit c = false) →
  scan_digits acc (ds ++ t) = (foldl (λ acc c, 10 * acc + (c - 48)) acc ds, t).
Proof.
  intros Hds Ht. revert acc. induction Hds as [|c ds Hc _ IH]; intros acc; simpl.
  - destruct t as [|c t]; simpl; [done|]. by rewrite (Ht c).
  - by rewrite Hc.
Qed.
Lemma scan_digits_split s : ∀ acc, ∃ ds t, s = ds ++ t ∧ all_digits ds ∧
  (∀ c, head t = Some c → c_isdigit c = false) ∧
  scan_digits acc s = (foldl (λ acc c, 10 * acc + (c - 48)) acc ds, t).
Proof.
  induction s as [|c s IH]; intros acc.
  - exists [], []. by split_and!; [|constructor|..].
  - simpl. destruct (c_isdigit c) eqn:E.
    + destruct (IH (10 * acc + (c - 48))) as (ds & t & -> & H1 & H2 & H3).
      exists (c :: ds), t. split_and!; [done|by constructor|done|done].
    + exists [], (c :: s). split_and!; [done|constructor| |done]. by intros ? [= <-].
Qed.
Lemma digit_not_ws c : c_isdigit c = true → whitespace c = false ∧ c_isspace c = false.
Proof. unfold c_isdigit, whitespace, c_isspace, schar. intros. destruct (c <? 128) eqn:?; lia. Qed.
Lemma isspace_whitespace c : c_isspace c = true → whitespace c = true.
Proof. unfold c_isdigit, whitespace, c_isspace, schar. intros. destruct (c <? 128) eqn:?; lia. Qed.
Lemma all_ws_not_digit t : all_ws t → ∀ c, head t = Some c → c_isdigit c = false.
Proof.
  intros Ht c Hc. destruct t as [|d t]; [done|]. injection Hc as ->. apply Forall_cons in Ht as [Hw _].
  destruct (c_isdigit c) eqn:E; [|done]. apply digit_not_ws in E as [E _]. congruence.
Qed.
Lemma skip_isspace_first s : skip_isspace (non_whitespace s) = non_whitespace s.
Proof.
  destruct (non_whitespace s) as [|c t] eqn:E; [done|]. apply non_whitespace_head in E. simpl.
  destruct (c_isspace c) eqn:E2; [|done]. apply isspace_whitespace in E2. congruence.
Qed.

(** An optional sign as [strtoull] reads it. *)
Definition sign_of (s : bytes) : Z := if decide (s = [45]) then -1 else 1.
Definition is_sign (s : bytes) : Prop := s = [] ∨ s = [43] ∨ s = [45].

(** The texts a number is read from: white space, an optional sign, digits,
    white space; or white space alone, which counts as zero. *)
Definition number_text (text : bytes) (v : Z) : Prop :=
  (∃ ws sgn ds ws', text = ws ++ sgn ++ ds ++ ws' ∧ all_ws ws ∧ all_ws ws' ∧ is_sign sgn ∧
     ds ≠ [] ∧ all_digits ds ∧ digit_value ds <= ULLONG_MAX ∧ v = u64 (sign_of sgn * digit_value ds)) ∨
  (all_ws text ∧ v = 0).

Lemma digit_value_nonneg ds : all_digits ds → ∀ acc, 0 <= acc →
  0 <= foldl (λ acc c, 10 * acc + (c - 48)) acc ds.
Proof.
  induction 1 as [|c ds Hc _ IH]; intros acc Hacc; simpl; [done|].
  apply IH. unfold c_isdigit in Hc. lia.
Qed.

Lemma strtoull_number sgn ds t : is_sign sgn → ds ≠ [] → all_digits ds →
  (∀ c, head t = Some c → c_isdigit c = false) →
  strtoull (sgn ++ ds ++ t) =
    if ULLONG_MAX <? digit_value ds then (ULLONG_MAX, t, true)
    else (u64 (sign_of sgn * digit_value ds), t, false).
Proof.
  intros Hs Hne Hds Ht. destruct ds as [|d ds]; [done|]. clear Hne.
  pose proof (digit_value_nonneg _ Hds 0 ltac:(lia)) as Hnn. fold (digit_value (d :: ds)) in Hnn.
  assert (c_isdigit d = true) as Hd by (by apply Forall_cons in Hds as [? _]).
  pose proof (scan_digits_app 0 (d :: ds) t Hds Ht) as Hscan. fold (digit_value (d :: ds)) in Hscan.
  assert (∀ v, 0 <= v → (ULLONG_MAX <? v) = false → u64 (1 * v) = v) as Hu.
  { intros v ? ?%Z.ltb_ge. unfold u64, ULLONG_MAX in *. rewrite Z.mul_1_l. apply Z.mod_small. lia. }
  unfold strtoull. destruct Hs as [->|[->| ->]]; cbn [app skip_isspace].
  - destruct (digit_not_ws d Hd) as [_ ->]. unfold c_isdigit in Hd.
    destruct (Z.eqb_spec d 43); [lia|]. destruct (Z.eqb_spec d 45); [lia|].
    fold (c_isdigit d). replace (c_isdigit d) with true by (symmetry; exact Hd).
    change (d :: ds ++ t) with ((d :: ds) ++ t). rewrite Hscan.
    destruct (ULLONG_MAX <? digit_value _) eqn:E; [done|]. by rewrite <- (Hu (digit_value (d :: ds))) at 1.
  - change (c_isspace 43) with false. cbn [Z.eqb Pos.eqb]. rewrite Hd.
    change (d :: ds ++ t) with ((d :: ds) ++ t). rewrite Hscan.
    destruct (ULLONG_MAX <? digit_value _) eqn:E; [done|]. by rewrite <- (Hu (digit_value (d :: ds))) at 1.
  - change (c_isspace 45) with false. cbn [Z.eqb Pos.eqb]. rewrite Hd.
    change (d :: ds ++ t) with ((d :: ds) ++ t). rewrite Hscan.
    destruct (ULLONG_MAX <? digit_value _) eqn:E; [done|].
    change (sign_of [45]) with (-1). by rewrite Z.mul_comm, <- Z.opp_eq_mul_m1.
Qed.

(** A text that is not blank starts with a character that is no white space. *)
Lemma strtoull_no_number s : (∀ c, head s = Some c → whitespace c = false) →
  (∃ sgn ds t, s = sgn ++ ds ++ t ∧ is_sign sgn ∧ ds ≠ [] ∧ all_digits ds ∧
     ∀ c, head t = Some c → c_isdigit c = false) ∨
  strtoull s = (0, s, false).
Proof.
  intros Hh. assert (skip_isspace s = s) as Hskip.
  { destruct s as [|c s]; simpl; [done|]. destruct (c_isspace c) eqn:E; [|done].
    apply isspace_whitespace in E. rewrite (Hh c) in E; done. }
  assert (∀ u, (∃ d u', u = d :: u' ∧ c_isdigit d = true) → ∃ ds t, u = ds ++ t ∧ ds ≠ [] ∧
    all_digits ds ∧ ∀ c, head t = Some c → c_isdigit c = false) as Hdig.
  { intros u (d & u' & -> & Hd). destruct (scan_digits_split (d :: u') 0) as (ds & t & E & H1 & H2 & _).
    exists ds, t. split_and!; auto. intros ->. simpl in E. rewrite <- E in H2.
    specialize (H2 d eq_refl). congruence. }
  unfold strtoull. rewrite Hskip. destruct s as [|c u]; [by right|].
  destruct (Z.eqb_spec c 43) as [->|N1]; [|destruct (Z.eqb_spec c 45) as [->|N2]].
  - destruct u as [|d u]; [by right|]. destruct (c_isdigit d) eqn:Hd; [left|by right].
    destruct (Hdig (d :: u)) as (ds & t & -> & H1 & H2 & H3); [eauto|].
    exists [43], ds, t. unfold is_sign. by split_and!; auto.
  - destruct u as [|d u]; [by right|]. destruct (c_isdigit d) eqn:Hd; [left|by right].
    destruct (Hdig (d :: u)) as (ds & t & -> & H1 & H2 & H3); [eauto|].
    exists [45], ds, t. unfold is_sign. by split_and!; auto.
  - destruct (c_isdigit c) eqn:Hd; [left|by right].
    destruct (Hdig (c :: u)) as (ds & t & -> & H1 & H2 & H3); [eauto|].
    exists [], ds, t. unfold is_sign. by split_and!; auto.
Qed.

Lemma number_text_parse text v : number_text text v → parse_unsigned_long_long text = Some v.
Proof.
  unfold parse_unsigned_long_long. intros [(ws & sgn & ds & ws' & -> & H1 & H2 & H3 & H4 & H5 & H6 & ->)|[H ->]].
  - rewrite non_whitespace_app by done.
    assert (non_whitespace (sgn ++ ds ++ ws') = sgn ++ ds ++ ws') as ->.
    { destruct ds as [|d ds]; [done|]. apply Forall_cons in H5 as [Hd _].
      destruct H3 as [->|[->| ->]]; [|reflexivity..]. by apply non_whitespace_keep, digit_not_ws. }
    rewrite (strtoull_number sgn ds ws' H3 H4 H5 (all_ws_not_digit ws' H2)).
    destruct (Z.ltb_spec ULLONG_MAX (digit_value ds)); [lia|].
    by rewrite (proj2 (non_whitespace_nil ws')).
  - by rewrite (proj2 (non_whitespace_nil text)).
Qed.

Lemma parse_number_text text v : parse_unsigned_long_long text = Some v → number_text text v.
Proof.
  unfold parse_unsigned_long_long. intros H.
  destruct (non_whitespace_split text) as (ws & Htext & Hws).
  destruct (strtoull_no_number (non_whitespace text)) as [(sgn & ds & t & E & H1 & H2 & H3 & H4)|E].
  - intros c Hc. destruct (non_whitespace text) as [|d u] eqn:E; [done|].
    injection Hc as ->. by eapply non_whitespace_head.
  - rewrite E in H, Htext. rewrite strtoull_number in H by done.
    destruct (Z.ltb_spec ULLONG_MAX (digit_value ds)); [done|].
    destruct (non_whitespace t) eqn:Et; [|done]. injection H as <-.
    left. exists ws, sgn, ds, t. split_and!; auto. by apply non_whitespace_nil.
  - rewrite E in H. destruct (non_whitespace (non_whitespace text)) eqn:En; [|done]. injection H as <-.
    right. split; [|done]. apply non_whitespace_nil in En. rewrite Htext. by apply Forall_app.
Qed.

(** ** Lemmas on quoting *)

(** The reader of the escape sequences [quote] writes. *)
Definition hex_char_value (c : Z) : Z := if c <? 58 then c - 48 else c - 87.
Fixpoint unquote (s : bytes) : bytes :=
  match s with
  | 92 :: 120 :: a :: b :: t => 16 * hex_char_value a + hex_char_value b :: unquote t
  | 92 :: 114 :: t => 13 :: unquote t
  | 92 :: 110 :: t => 10 :: unquote t
  | 92 :: 116 :: t => 9 :: unquote t
  | 92 :: c :: t => c :: unquote t
  | c :: t => c :: unquote t
  | [] => []
  end.

Lemma unquote_quote_char c t : is_byte c → unquote (quote_char c ++ t) = c :: unquote t.
Proof. intros Hc. byte_each c Hc ltac:(reflexivity). Qed.
Lemma quote_char_printable c : is_byte c → Forall (λ d, 32 <= d < 127) (quote_char c).
Proof. intros Hc. byte_compute c Hc. Qed.
Lemma quote_char_plain c : is_byte c → quote_special c = false → quote_char c = [c].
Proof.
  intros Hc. assert (quote_special c || bool_decide (quote_char c = [c]) = true) as H by byte_compute c Hc.
  intros E. rewrite E in H. by apply bool_decide_eq_true in H.
Qed.

(** The unescaped fast path agrees with the escaping one. *)
Lemma quote_concat s : bytes_ok s → quote s = concat (quote_char <$> s).
Proof.
  intros Hs. unfold quote. destruct (existsb quote_special s) eqn:E; [done|].
  induction Hs as [|c s Hc Hs IH]; simpl in *; [done|].
  apply orb_false_iff in E as [E1 E2]. rewrite quote_char_plain by done.
  simpl. f_equal. by apply IH.
Qed.

(** ** Properties *)

(** [quote] loses nothing and its output can be printed: reading the escape
    sequences back gives the original bytes, and every character of the output
    is printable ASCII, also on the fast path that returns the input as it is. *)
Theorem quote_roundtrip (s : bytes) :
  bytes_ok s → unquote (quote s) = s ∧ Forall (λ d, 32 <= d < 127) (quote s).
Proof.
  intros Hs. rewrite quote_concat by done. induction Hs as [|c s Hc Hs [IH1 IH2]]; [by repeat constructor|].
  rewrite fmap_cons. cbn [concat]. rewrite unquote_quote_char, IH1 by done. split; [done|].
  apply Forall_app. auto using quote_char_printable.
Qed.

Example quote_roundtrip_witness :
  quote [34; 10; 200; 65] = str "\" ++ [34] ++ str "\n\xc8A" ∧
  unquote (quote [34; 10; 200; 65]) = [34; 10; 200; 65] ∧
  Forall (λ d, 32 <= d < 127) (quote [34; 10; 200; 65]).
Proof. split; [reflexivity|]. apply quote_roundtrip. by repeat constructor. Defined.

(** [strip] removes exactly the white space at the two ends: the text is
    white space, the result, white space, and the result neither starts nor
    ends with white space. *)
Theorem strip_spec (s : bytes) :
  ∃ l r, s = l ++ strip s ++ r ∧ all_ws l ∧ all_ws r ∧ ws_free_ends (strip s).
Proof.
  unfold strip, strip_inplace. destruct (non_whitespace_split s) as (l & Hs & Hl).
  set (n := non_whitespace s) in *. rewrite strip_scan_back_eq.
  destruct (non_whitespace_split (rev n)) as (r & Hr & Hwr).
  assert (n = rev (non_whitespace (rev n)) ++ rev r) as Hn.
  { rewrite <- rev_app_distr, <- Hr. by rewrite rev_involutive. }
  destruct (non_whitespace (rev n)) as [|c t] eqn:E.
  - assert (n = []) as Hnil.
    { apply non_whitespace_nil in E. rewrite all_ws_rev in E. subst n.
      destruct (non_whitespace s) as [|d u] eqn:En; [done|].
      apply non_whitespace_head in En. apply Forall_cons in E as [? _]. congruence. }
    rewrite Hnil in *. exists l, []. split_and!; [done|done|constructor|]. by intros ? [?|?].
  - exists l, (rev r). split_and!; [by rewrite <- Hn|done|by apply all_ws_rev|].
    intros d [Hd|Hd].
    + rewrite head_rev_last in Hd.
      subst n. destruct (non_whitespace s) as [|e u] eqn:En; [by destruct r|].
      pose proof (non_whitespace_head _ _ _ En) as He.
      assert (head (rev (c :: t) ++ rev r) = Some e) as Hh by by rewrite <- Hn.
      rewrite <- head_rev_last in Hd. destruct (rev (c :: t)); [done|]. simpl in Hd, Hh. congruence.
    + rewrite last_rev_head in Hd. injection Hd as ->. by eapply non_whitespace_head.
Qed.

(** [parse_unsigned_long_long] accepts exactly white space, an optional
    sign, digits and white space, with the number in range, and returns that
    number modulo 2^64; everything else is rejected.  A blank text also counts
    as a number, and a minus sign wraps the value around. *)
Theorem parse_unsigned_long_long_spec (text : bytes) (v : Z) :
  parse_unsigned_long_long text = Some v ↔ number_text text v.
Proof. split; [apply parse_number_text|apply number_text_parse]. Qed.
