(* ===== verification/Utf8.v ===== *)
(** * UTF-8 validation and conversion (lib/cxxll/utf8.cpp)

    The validator walks over the text one character at a time.  The abstract
    specification is RFC 3629: a text is valid when it is the concatenation of
    the encodings of Unicode scalar values. *)

From S2P Require Import Prelude.

(** ** The implementation *)

(** [source[i]]; the caller has checked that the byte is there. *)
Definition source_at (source : bytes) (i : Z) : Z := default 0 (zget source i).

(** Source: lib/cxxll/utf8.cpp 175-197, pg_utf_mblen. *)
Definition pg_utf_mblen (s : Z) : Z :=
  if Z.land s 0x80 =? 0 then 1
  else if Z.land s 0xe0 =? 0xc0 then 2
  else if Z.land s 0xf0 =? 0xe0 then 3
  else if Z.land s 0xf8 =? 0xf0 then 4
  else 1.

Definition outside (lo hi a : Z) : bool := (a <? lo) || (hi <? a).

(** The fall-through cases of the switch, last case first.
    Source: lib/cxxll/utf8.cpp 153-159, pg_utf8_islegal. *)
Definition islegal_1 (source : bytes) : bool :=
  let a := source_at source 0 in
  if (0x80 <=? a) && (a <? 0xC2) then false
  else if 0xF4 <? a then false
  else true.

(** Source: lib/cxxll/utf8.cpp 127-152, pg_utf8_islegal. *)
Definition islegal_2 (source : bytes) : bool :=
  let a := source_at source 1 in
  let s := source_at source 0 in
  let bad :=
    if s =? 0xE0 then outside 0xA0 0xBF a
    else if s =? 0xED then outside 0x80 0x9F a
    else if s =? 0xF0 then outside 0x90 0xBF a
    else if s =? 0xF4 then outside 0x80 0x8F a
    else outside 0x80 0xBF a in
  if bad then false else islegal_1 source.

(** Source: lib/cxxll/utf8.cpp 122-126, pg_utf8_islegal. *)
Definition islegal_3 (source : bytes) : bool :=
  if outside 0x80 0xBF (source_at source 2) then false else islegal_2 source.

(** Source: lib/cxxll/utf8.cpp 117-121, pg_utf8_islegal. *)
Definition islegal_4 (source : bytes) : bool :=
  if outside 0x80 0xBF (source_at source 3) then false else islegal_3 source.

(** Source: lib/cxxll/utf8.cpp 107-162, pg_utf8_islegal. *)
Definition pg_utf8_islegal (source : bytes) (length : Z) : bool :=
  if length =? 4 then islegal_4 source
  else if length =? 3 then islegal_3 source
  else if length =? 2 then islegal_2 source
  else if length =? 1 then islegal_1 source
  else false.

(** Source: lib/cxxll/utf8.cpp 199-211, pg_utf8_verifier. *)
Definition pg_utf8_verifier (s : bytes) (len : Z) : Z :=
  let l := pg_utf_mblen (source_at s 0) in
  if len <? l then -1
  else if negb (pg_utf8_islegal s l) then -1
  else l.

(** The loop; each round consumes at least one byte, so the length of the text
    is enough fuel.
    Source: lib/cxxll/utf8.cpp 29-41, is_valid_utf8. *)
Fixpoint is_valid_utf8_loop (fuel : nat) (p : bytes) : bool :=
  match p, fuel with
  | [], _ => true
  | _, O => false
  | _, S fuel =>
      let remaining := if 16 <? zlen p then 16 else zlen p in
      let ret := pg_utf8_verifier p remaining in
      if ret <? 0 then false else is_valid_utf8_loop fuel (zdrop ret p)
  end.

(** Source: lib/cxxll/utf8.cpp 23-42, is_valid_utf8. *)
Definition is_valid_utf8 (str : bytes) : bool := is_valid_utf8_loop (length str) str.

(** Source: lib/cxxll/utf8.cpp 44-60, latin1_to_utf8. *)
Fixpoint latin1_to_utf8 (p : bytes) : bytes :=
  match p with
  | [] => []
  | c :: p =>
      if c <? 0x80 then c :: latin1_to_utf8 p
      else Z.lor 0xC0 (Z.shiftr c 6) :: Z.lor 0x80 (Z.land c 0x3F) :: latin1_to_utf8 p
  end.

(** ** RFC 3629 *)

Definition scalar_value (c : Z) : Prop := 0 <= c <= 0x10FFFF ∧ ¬ (0xD800 <= c <= 0xDFFF).

Definition utf8_encode (c : Z) : bytes :=
  if c <? 0x80 then [c]
  else if c <? 0x800 then [0xC0 + c / 64; 0x80 + c mod 64]
  else if c <? 0x10000 then [0xE0 + c / 4096; 0x80 + c / 64 mod 64; 0x80 + c mod 64]
  else [0xF0 + c / 262144; 0x80 + c / 4096 mod 64; 0x80 + c / 64 mod 64; 0x80 + c mod 64].

Definition utf8_text (s : bytes) : Prop :=
  ∃ cs, Forall scalar_value cs ∧ s = concat (utf8_encode <$> cs).

(** ** Lemmas *)

Lemma mblen_range b : is_byte b → pg_utf_mblen b =
  if (192 <=? b) && (b <? 224) then 2 else if (224 <=? b) && (b <? 240) then 3
  else if (240 <=? b) && (b <? 248) then 4 else 1.
Proof. intros Hb. byte_compute b Hb. Qed.

Local Ltac Zify.zify_post_hook ::= Z.to_euclidean_division_equations.

Lemma mblen_bounds b : 1 <= pg_utf_mblen b <= 4.
Proof. unfold pg_utf_mblen. repeat case_match; lia. Qed.

(** The bytes of the multi-byte forms determine the code point. *)
Lemma utf8_encode_2 a b : 0xC2 <= a < 0xE0 → 0x80 <= b <= 0xBF →
  let c := (a - 0xC0) * 64 + (b - 0x80) in
  scalar_value c ∧ utf8_encode c = [a; b].
Proof.
  intros Ha Hb c. unfold scalar_value, utf8_encode. split; [lia|].
  destruct (Z.ltb_spec c 0x80); [lia|]. destruct (Z.ltb_spec c 0x800); [|lia].
  f_equal; [lia|]. f_equal. lia.
Qed.
Lemma utf8_encode_3 a b d : 0xE0 <= a < 0xF0 → 0x80 <= b <= 0xBF → 0x80 <= d <= 0xBF →
  (a = 0xE0 → 0xA0 <= b) → (a = 0xED → b <= 0x9F) →
  let c := (a - 0xE0) * 4096 + (b - 0x80) * 64 + (d - 0x80) in
  scalar_value c ∧ utf8_encode c = [a; b; d].
Proof.
  intros Ha Hb Hd H1 H2 c. unfold scalar_value, utf8_encode. split; [lia|].
  destruct (Z.ltb_spec c 0x80); [lia|]. destruct (Z.ltb_spec c 0x800); [lia|].
  destruct (Z.ltb_spec c 0x10000); [|lia]. f_equal; [lia|]. f_equal; [lia|]. f_equal. lia.
Qed.
Lemma utf8_encode_4 a b d e : 0xF0 <= a <= 0xF4 → 0x80 <= b <= 0xBF → 0x80 <= d <= 0xBF →
  0x80 <= e <= 0xBF → (a = 0xF0 → 0x90 <= b) → (a = 0xF4 → b <= 0x8F) →
  let c := (a - 0xF0) * 262144 + (b - 0x80) * 4096 + (d - 0x80) * 64 + (e - 0x80) in
  scalar_value c ∧ utf8_encode c = [a; b; d; e].
Proof.
  intros Ha Hb Hd He H1 H2 c. unfold scalar_value, utf8_encode. split; [lia|].
  destruct (Z.ltb_spec c 0x80); [lia|]. destruct (Z.ltb_spec c 0x800); [lia|].
  destruct (Z.ltb_spec c 0x10000); [lia|].
  f_equal; [lia|]. f_equal; [lia|]. f_equal; [lia|]. f_equal. lia.
Qed.

Lemma outside_false lo hi a : outside lo hi a = false ↔ lo <= a <= hi.
Proof. unfold outside. lia. Qed.

Lemma islegal_1_iff a s : islegal_1 (a :: s) = true ↔ (a < 0x80 ∨ 0xC2 <= a <= 0xF4).
Proof. unfold islegal_1. change (source_at (a :: s) 0) with a. repeat case_match; lia. Qed.
Lemma islegal_2_iff a b s : islegal_2 (a :: b :: s) = true ↔
  (a < 0x80 ∨ 0xC2 <= a <= 0xF4) ∧ 0x80 <= b <= 0xBF ∧ (a = 0xE0 → 0xA0 <= b) ∧
  (a = 0xED → b <= 0x9F) ∧ (a = 0xF0 → 0x90 <= b) ∧ (a = 0xF4 → b <= 0x8F).
Proof.
  unfold islegal_2. change (source_at (a :: b :: s) 1) with b.
  change (source_at (a :: b :: s) 0) with a. unfold outside.
  rewrite <- (islegal_1_iff a (b :: s)). destruct (islegal_1 (a :: b :: s)); repeat case_match; lia.
Qed.
Lemma islegal_3_iff a b d s : islegal_3 (a :: b :: d :: s) = true ↔
  0x80 <= d <= 0xBF ∧ islegal_2 (a :: b :: d :: s) = true.
Proof.
  unfold islegal_3. change (source_at (a :: b :: d :: s) 2) with d. unfold outside.
  destruct (islegal_2 _); case_match; lia.
Qed.
Lemma islegal_4_iff a b d e s : islegal_4 (a :: b :: d :: e :: s) = true ↔
  0x80 <= e <= 0xBF ∧ islegal_3 (a :: b :: d :: e :: s) = true.
Proof.
  unfold islegal_4. change (source_at (a :: b :: d :: e :: s) 3) with e. unfold outside.
  destruct (islegal_3 _); case_match; lia.
Qed.

(** A legal sequence is the encoding of a scalar value. *)
Lemma islegal_sound a s : bytes_ok (a :: s) → pg_utf_mblen a <= zlen (a :: s) →
  pg_utf8_islegal (a :: s) (pg_utf_mblen a) = true →
  ∃ c t, scalar_value c ∧ a :: s = utf8_encode c ++ t ∧ zlen (utf8_encode c) = pg_utf_mblen a.
Proof.
  intros [Ha Hs]%bytes_ok_cons. rewrite mblen_range by done. unfold is_byte in Ha.
  destruct ((192 <=? a) && (a <? 224)) eqn:E2; [|destruct ((224 <=? a) && (a <? 240)) eqn:E3;
    [|destruct ((240 <=? a) && (a <? 248)) eqn:E4]]; cbn [pg_utf8_islegal Z.eqb Pos.eqb]; intros Hlen H.
  - destruct s as [|b s]; [zl|]. change (islegal_2 (a :: b :: s) = true) in H.
    apply islegal_2_iff in H. destruct (utf8_encode_2 a b) as [H1 H2]; [lia..|].
    eexists _, s. split; [exact H1|]. by rewrite H2.
  - destruct s as [|b [|d s]]; [zl..|]. change (islegal_3 (a :: b :: d :: s) = true) in H.
    rewrite islegal_3_iff, islegal_2_iff in H. destruct (utf8_encode_3 a b d) as [H1 H2]; [lia..|].
    eexists _, s. split; [exact H1|]. by rewrite H2.
  - destruct s as [|b [|d [|e s]]]; [zl..|]. change (islegal_4 (a :: b :: d :: e :: s) = true) in H.
    rewrite islegal_4_iff, islegal_3_iff, islegal_2_iff in H.
    destruct (utf8_encode_4 a b d e) as [H1 H2]; [lia..|].
    eexists _, s. split; [exact H1|]. by rewrite H2.
  - change (islegal_1 (a :: s) = true) in H. apply islegal_1_iff in H.
    exists a, s. unfold scalar_value, utf8_encode. rewrite (proj2 (Z.ltb_lt a 0x80)) by lia.
    split; [lia|done].
Qed.

(** The first byte of an encoding announces its length, and the encoding is legal. *)
Lemma encode_legal c t : scalar_value c → ∃ a u,
  utf8_encode c ++ t = a :: u ∧ zlen (utf8_encode c) = pg_utf_mblen a ∧
  pg_utf8_islegal (utf8_encode c ++ t) (pg_utf_mblen a) = true.
Proof.
  unfold scalar_value, utf8_encode. intros Hc.
  destruct (Z.ltb_spec c 0x80); [|destruct (Z.ltb_spec c 0x800); [|destruct (Z.ltb_spec c 0x10000)]];
    eexists _, _; (split; [reflexivity|]); rewrite mblen_range by (unfold is_byte; lia).
  - replace ((192 <=? c) && (c <? 224)) with false by lia.
    replace ((224 <=? c) && (c <? 240)) with false by lia.
    replace ((240 <=? c) && (c <? 248)) with false by lia.
    split; [done|]. apply islegal_1_iff. lia.
  - replace ((192 <=? 0xC0 + c / 64) && (0xC0 + c / 64 <? 224)) with true by lia.
    split; [done|]. apply islegal_2_iff. lia.
  - replace ((192 <=? 0xE0 + c / 4096) && (0xE0 + c / 4096 <? 224)) with false by lia.
    replace ((224 <=? 0xE0 + c / 4096) && (0xE0 + c / 4096 <? 240)) with true by lia.
    split; [done|]. apply islegal_3_iff. split; [lia|]. apply islegal_2_iff. lia.
  - replace ((192 <=? 0xF0 + c / 262144) && (0xF0 + c / 262144 <? 224)) with false by lia.
    replace ((224 <=? 0xF0 + c / 262144) && (0xF0 + c / 262144 <? 240)) with false by lia.
    replace ((240 <=? 0xF0 + c / 262144) && (0xF0 + c / 262144 <? 248)) with true by lia.
    split; [done|]. apply islegal_4_iff. split; [lia|]. apply islegal_3_iff.
    split; [lia|]. apply islegal_2_iff. lia.
Qed.
Lemma utf8_encode_len c : 1 <= zlen (utf8_encode c) <= 4.
Proof. unfold utf8_encode. repeat case_match; zl. Qed.

(** The cap of the length at 16 bytes changes nothing. *)
Lemma verifier_cap s : pg_utf8_verifier s (if 16 <? zlen s then 16 else zlen s) = pg_utf8_verifier s (zlen s).
Proof.
  destruct (Z.ltb_spec 16 (zlen s)); [|done]. unfold pg_utf8_verifier.
  pose proof (mblen_bounds (source_at s 0)).
  destruct (Z.ltb_spec 16 (pg_utf_mblen (source_at s 0))); [lia|].
  destruct (Z.ltb_spec (zlen s) (pg_utf_mblen (source_at s 0))); [lia|done].
Qed.

Lemma is_valid_utf8_step fuel a s : is_valid_utf8_loop (S fuel) (a :: s) =
  let ret := pg_utf8_verifier (a :: s) (zlen (a :: s)) in
  if ret <? 0 then false else is_valid_utf8_loop fuel (zdrop ret (a :: s)).
Proof. cbn [is_valid_utf8_loop]. by rewrite verifier_cap. Qed.

Lemma valid_encode fuel c t : scalar_value c → (length (utf8_encode c ++ t) <= S fuel)%nat →
  is_valid_utf8_loop (S fuel) (utf8_encode c ++ t) = is_valid_utf8_loop fuel t.
Proof.
  intros Hc Hlen. destruct (encode_legal c t Hc) as (a & u & E & E2 & E3).
  assert (pg_utf8_verifier (a :: u) (zlen (a :: u)) = zlen (utf8_encode c)) as Hv.
  { unfold pg_utf8_verifier. change (source_at (a :: u) 0) with a. rewrite <- E, E3, <- E2.
    rewrite zlen_app. pose proof (zlen_nonneg t). by destruct (Z.ltb_spec (zlen (utf8_encode c) + zlen t) (zlen (utf8_encode c))); [lia|]. }
  rewrite E, is_valid_utf8_step. cbn zeta. rewrite Hv. pose proof (utf8_encode_len c).
  destruct (Z.ltb_spec (zlen (utf8_encode c)) 0); [lia|]. by rewrite <- E, zdrop_app.
Qed.

Lemma utf8_text_app s t : utf8_text s → utf8_text t → utf8_text (s ++ t).
Proof.
  intros (cs & H1 & ->) (ds & H2 & ->). exists (cs ++ ds). split; [by apply Forall_app|].
  by rewrite fmap_app, concat_app.
Qed.
Lemma utf8_text_one c : scalar_value c → utf8_text (utf8_encode c).
Proof. intros Hc. exists [c]. split; [by constructor|]. symmetry. apply app_nil_r. Qed.

Lemma is_valid_sound fuel : ∀ s, bytes_ok s → is_valid_utf8_loop fuel s = true → utf8_text s.
Proof.
  induction fuel as [|fuel IH]; intros [|a s] Hs; try done; try (exists []; by split; [constructor|]).
  rewrite is_valid_utf8_step. cbn zeta. intros HV.
  destruct (Z.ltb_spec (pg_utf8_verifier (a :: s) (zlen (a :: s))) 0) as [|Hret]; [done|].
  revert HV Hret. unfold pg_utf8_verifier. change (source_at (a :: s) 0) with a.
  destruct (Z.ltb_spec (zlen (a :: s)) (pg_utf_mblen a)); [lia|].
  destruct (pg_utf8_islegal (a :: s) (pg_utf_mblen a)) eqn:E; [|simpl; lia]. cbn [negb]. intros HV _.
  destruct (islegal_sound a s Hs) as (c & t & Hc & Es & El); [done..|].
  rewrite <- El, Es, zdrop_app in HV. rewrite Es in Hs |- *. apply bytes_ok_app in Hs as [_ Ht].
  apply utf8_text_app; [by apply utf8_text_one|]. by apply IH.
Qed.
Lemma is_valid_complete fuel : ∀ cs, Forall scalar_value cs →
  (length (concat (utf8_encode <$> cs)) <= fuel)%nat →
  is_valid_utf8_loop fuel (concat (utf8_encode <$> cs)) = true.
Proof.
  induction fuel as [|fuel IH]; intros cs Hcs Hlen.
  { destruct (concat (utf8_encode <$> cs)); [done|simpl in Hlen; lia]. }
  destruct Hcs as [|c cs Hc Hcs]; [done|]. rewrite fmap_cons in *. cbn [concat] in *.
  rewrite valid_encode by done. apply IH; [done|].
  rewrite length_app in Hlen. pose proof (utf8_encode_len c). unfold zlen in *. lia.
Qed.

(** ** Properties *)

(** C40: [is_valid_utf8] decides RFC 3629: a byte string is accepted if and only
    if it is a concatenation of encodings of Unicode scalar values (no surrogates,
    no over-long forms, nothing above U+10FFFF, nothing truncated); the window
    of 16 bytes the loop uses makes no difference. *)
Theorem is_valid_utf8_spec (s : bytes) :
  bytes_ok s → is_valid_utf8 s = true ↔ utf8_text s.
Proof.
  intros Hs. split; [by apply is_valid_sound|]. intros (cs & Hcs & ->). by apply is_valid_complete.
Qed.

Example is_valid_utf8_spec_witness :
  (is_valid_utf8 (str "caf" ++ [0xC3; 0xA9]) = true ↔ utf8_text (str "caf" ++ [0xC3; 0xA9])) ∧
  is_valid_utf8 (str "caf" ++ [0xC3; 0xA9]) = true ∧ is_valid_utf8 (str "caf" ++ [0xE9]) = false.
Proof. split; [|by split]. apply is_valid_utf8_spec. by repeat constructor. Defined.

Lemma latin1_char c : is_byte c → latin1_to_utf8 [c] = utf8_encode c.
Proof.
  intros Hc. byte_compute c Hc.
Qed.
Lemma latin1_cons c s : latin1_to_utf8 (c :: s) = latin1_to_utf8 [c] ++ latin1_to_utf8 s.
Proof. simpl. by case_match. Qed.
Lemma latin1_concat s : bytes_ok s → latin1_to_utf8 s = concat (utf8_encode <$> s).
Proof.
  induction 1 as [|c s Hc _ IH]; [done|]. rewrite latin1_cons, latin1_char, IH by done. done.
Qed.
Lemma bytes_scalar s : bytes_ok s → Forall scalar_value s.
Proof. intros Hs. eapply Forall_impl; [exact Hs|]. unfold is_byte, scalar_value. intros. lia. Qed.
Lemma latin1_to_utf8_valid s : bytes_ok s → is_valid_utf8 (latin1_to_utf8 s) = true.
Proof.
  intros Hs. rewrite latin1_concat by done. apply is_valid_complete; [by apply bytes_scalar|done].
Qed.
