(* ===== verification/Binary.v ===== *)
(** * Machine-independent integers in byte vectors
    (include/cxxll/endian.hpp, include/cxxll/vector_extract.hpp,
    lib/cxxll/vector_extract.cpp) *)

From S2P Require Import Prelude.

(** ** Byte order *)

(** [__builtin_bswap32] and [__builtin_bswap64]. *)
Definition bswap32 (v : Z) : Z :=
  Z.lor (Z.lor (Z.shiftl (Z.land v 0xFF) 24) (Z.shiftl (Z.land v 0xFF00) 8))
    (Z.lor (Z.land (Z.shiftr v 8) 0xFF00) (Z.shiftr v 24)).
Definition bswap64 (v : Z) : Z :=
  Z.lor (Z.shiftl (bswap32 (Z.land v 0xFFFFFFFF)) 32) (bswap32 (Z.shiftr v 32)).

(** The byte order of the host, [__BYTE_ORDER__]; endian.hpp rejects any other. *)
Inductive byte_order := ORDER_LITTLE_ENDIAN | ORDER_BIG_ENDIAN.

(** Source: include/cxxll/endian.hpp 27-31, is_little_endian. *)
Definition is_little_endian (host : byte_order) : bool :=
  match host with ORDER_LITTLE_ENDIAN => true | ORDER_BIG_ENDIAN => false end.

(** Source: include/cxxll/endian.hpp 33-37, is_big_endian. *)
Definition is_big_endian (host : byte_order) : bool :=
  match host with ORDER_BIG_ENDIAN => true | ORDER_LITTLE_ENDIAN => false end.

(** Source: include/cxxll/endian.hpp 39-47, cpu_to_le_32. *)
Definition cpu_to_le_32 (host : byte_order) (val : Z) : Z :=
  if is_little_endian host then val else bswap32 val.

(** Source: include/cxxll/endian.hpp 49-57, cpu_to_le_64. *)
Definition cpu_to_le_64 (host : byte_order) (val : Z) : Z :=
  if is_little_endian host then val else bswap64 val.

(** Source: include/cxxll/endian.hpp 59-67, cpu_to_be_32. *)
Definition cpu_to_be_32 (host : byte_order) (val : Z) : Z :=
  if is_big_endian host then val else bswap32 val.

(** Source: include/cxxll/endian.hpp 69-77, cpu_to_be_64. *)
Definition cpu_to_be_64 (host : byte_order) (val : Z) : Z :=
  if is_big_endian host then val else bswap64 val.

(** Source: include/cxxll/endian.hpp 79-83, le_to_cpu_32. *)
Definition le_to_cpu_32 (host : byte_order) (val : Z) : Z := cpu_to_le_32 host val.

(** Source: include/cxxll/endian.hpp 85-89, le_to_cpu_64. *)
Definition le_to_cpu_64 (host : byte_order) (val : Z) : Z := cpu_to_le_64 host val.

(** Source: include/cxxll/endian.hpp 91-95, be_to_cpu_32. *)
Definition be_to_cpu_32 (host : byte_order) (val : Z) : Z := cpu_to_be_32 host val.

(** Source: include/cxxll/endian.hpp 97-101, be_to_cpu_64. *)
Definition be_to_cpu_64 (host : byte_order) (val : Z) : Z := cpu_to_be_64 host val.

(** ** Extraction from vectors *)

(** Source: lib/cxxll/vector_extract.cpp 24-34, extract. *)
Definition extract (vec : bytes) (offset length : Z) : res bytes :=
  let end_ := u64 (offset + length) in
  if (end_ <? offset) || (zlen vec <? end_) then Throw (out_of_range (str "cxxll::extract"))
  else Ok (ztake (end_ - offset) (zdrop offset vec)).

Definition vector_at : bytes → Z → res Z := vec_at (str "vector::_M_range_check").

(** Source: lib/cxxll/vector_extract.cpp 36-40, extract8. *)
Definition extract8 (vec : bytes) (offset : Z) : res Z := vector_at vec offset.

(** Source: lib/cxxll/vector_extract.cpp 42-50, big_endian::extract16. *)
Definition extract16 (vec : bytes) (off : Z) : res Z :=
  a ← vector_at vec off;
  b ← vector_at vec (off + 1);
  Ok (u16 (Z.shiftl a 8 + b)).

(** Source: lib/cxxll/vector_extract.cpp 52-62, big_endian::extract32. *)
Definition extract32 (vec : bytes) (off : Z) : res Z :=
  a ← vector_at vec off;
  b ← vector_at vec (off + 1);
  c ← vector_at vec (off + 2);
  d ← vector_at vec (off + 3);
  Ok (u32 (Z.shiftl a 24 + Z.shiftl b 16 + Z.shiftl c 8 + d)).

(** Source: lib/cxxll/vector_extract.cpp 64-71, big_endian::extract64. *)
Definition extract64 (vec : bytes) (offset : Z) : res Z :=
  a ← extract32 vec offset;
  b ← extract32 vec (offset + 4);
  Ok (Z.lor (Z.shiftl a 32) b).

(** ** Cursors

    The overloads that advance an offset leave the advanced offset behind even
    when a caller catches the exception, so a cursor computation returns the
    offset in both cases.  The vectors are far smaller than 2^64 bytes: an
    offset does not wrap. *)
Definition cursor (A : Type) : Type := Z → res A * Z.

#[global] Instance cursor_ret : MRet cursor := λ A x off, (Ok x, off).
#[global] Instance cursor_bind : MBind cursor := λ A B f m off,
  match m off with
  | (Ok a, off) => f a off
  | (Throw e, off) => (Throw e, off)
  end.
Definition cursor_throw {A} (e : exn) : cursor A := λ off, (Throw e, off).
Definition cursor_offset : cursor Z := λ off, (Ok off, off).
Definition cursor_skip (n : Z) : cursor unit := λ off, (Ok tt, off + n).

(** [target = read (offset); offset += n]. *)
Definition cursor_read (read : Z → res Z) (n : Z) : cursor Z := λ off,
  match read off with Ok v => (Ok v, off + n) | Throw e => (Throw e, off) end.

(** The offset is advanced before the bounds check.
    Source: include/cxxll/vector_extract.hpp 33-39, extract. *)
Definition next8 (vec : bytes) : cursor Z := λ off, (vector_at vec off, off + 1).

(** Source: include/cxxll/vector_extract.hpp 48-54, big_endian::extract. *)
Definition next16 (vec : bytes) : cursor Z := cursor_read (extract16 vec) 2.

(** Source: include/cxxll/vector_extract.hpp 56-62, big_endian::extract. *)
Definition next32 (vec : bytes) : cursor Z := cursor_read (extract32 vec) 4.

(** Source: include/cxxll/vector_extract.hpp 64-70, big_endian::extract. *)
Definition next64 (vec : bytes) : cursor Z := cursor_read (extract64 vec) 8.

(** ** Big-endian byte strings *)

(** The [n] bytes of [v], most significant first, and the number they denote. *)
Fixpoint be_bytes (n : nat) (v : Z) : bytes :=
  match n with
  | O => []
  | S n => v / 256 ^ Z.of_nat n mod 256 :: be_bytes n v
  end.
Definition be_value (s : bytes) : Z := foldl (λ acc b, 256 * acc + b) 0 s.

(** The bytes of an integer object in the memory of a host. *)
Definition memory_bytes (host : byte_order) (n : nat) (v : Z) : bytes :=
  if is_little_endian host then rev (be_bytes n v) else be_bytes n v.

Lemma be_bytes_length n v : length (be_bytes n v) = n.
Proof. induction n; simpl; congruence. Qed.
Lemma be_bytes_zlen n v : zlen (be_bytes n v) = Z.of_nat n.
Proof. unfold zlen. by rewrite be_bytes_length. Qed.
#[export] Hint Rewrite be_bytes_zlen : zlen.
Lemma be_bytes_ok n v : bytes_ok (be_bytes n v).
Proof.
  induction n; simpl; [constructor|]. constructor; [|done]. unfold is_byte. apply Z.mod_pos_bound. lia.
Qed.
#[export] Hint Resolve be_bytes_ok : symdb.

Lemma foldl_be acc s : foldl (λ acc b, 256 * acc + b) acc s = acc * 256 ^ zlen s + be_value s.
Proof.
  unfold be_value. revert acc. induction s as [|b s IH]; intros acc; [cbn; zl|]. cbn [foldl].
  rewrite IH, (IH (256 * 0 + b)), zlen_cons, Z.pow_add_r by (pose proof (zlen_nonneg s); lia). lia.
Qed.
Lemma be_value_cons b s : be_value (b :: s) = b * 256 ^ zlen s + be_value s.
Proof. unfold be_value at 1. cbn [foldl]. by rewrite foldl_be. Qed.
Lemma be_value_bound s : bytes_ok s → 0 <= be_value s < 256 ^ zlen s.
Proof.
  induction 1 as [|b s Hb _ IH]; [done|]. rewrite be_value_cons, zlen_cons, Z.pow_add_r by zl.
  unfold is_byte in Hb. nia.
Qed.
Lemma be_value_bytes n v : be_value (be_bytes n v) = v mod 256 ^ Z.of_nat n.
Proof.
  induction n as [|n IH]; [by rewrite Z.mod_1_r|]. cbn [be_bytes]. rewrite be_value_cons, IH.
  unfold zlen. rewrite be_bytes_length, Nat2Z.inj_succ, Z.pow_succ_r by lia.
  rewrite (Z.mul_comm 256), Z.rem_mul_r by lia. lia.
Qed.

(** The extractors read big-endian numbers. *)
Lemma vector_at_mid l x k : vector_at (l ++ x :: k) (zlen l) = Ok x.
Proof. unfold vector_at, vec_at. by rewrite zget_app_mid. Qed.

Lemma vector_at_app l k i : 0 <= i → vector_at (l ++ k) (zlen l + i) = vector_at k i.
Proof.
  intros Hi. unfold vector_at, vec_at. rewrite zget_app_r by lia. by replace (zlen l + i - zlen l) with i by lia.
Qed.
Lemma extract16_app l k i : 0 <= i → extract16 (l ++ k) (zlen l + i) = extract16 k i.
Proof. intros Hi. unfold extract16. by rewrite <- !Z.add_assoc, !vector_at_app by lia. Qed.
Lemma extract32_app l k i : 0 <= i → extract32 (l ++ k) (zlen l + i) = extract32 k i.
Proof. intros Hi. unfold extract32. by rewrite <- !Z.add_assoc, !vector_at_app by lia. Qed.

Lemma extract16_value a b k : is_byte a → is_byte b → extract16 (a :: b :: k) 0 = Ok (be_value [a; b]).
Proof.
  unfold is_byte. intros Ha Hb. change (extract16 (a :: b :: k) 0) with (@Ok Z (u16 (Z.shiftl a 8 + b))).
  unfold u16. f_equal. rewrite Z.shiftl_mul_pow2 by lia. cbn [be_value foldl].
  rewrite Z.mod_small by lia. unfold be_value. cbn [foldl]. lia.
Qed.
Lemma extract32_value a b c d k : is_byte a → is_byte b → is_byte c → is_byte d →
  extract32 (a :: b :: c :: d :: k) 0 = Ok (be_value [a; b; c; d]).
Proof.
  unfold is_byte. intros Ha Hb Hc Hd.
  change (extract32 (a :: b :: c :: d :: k) 0)
    with (@Ok Z (u32 (Z.shiftl a 24 + Z.shiftl b 16 + Z.shiftl c 8 + d))).
  unfold u32. f_equal. rewrite !Z.shiftl_mul_pow2 by lia.
  rewrite Z.mod_small by lia. unfold be_value. cbn [foldl]. lia.
Qed.

Lemma next8_mid l x k : next8 (l ++ x :: k) (zlen l) = (Ok x, zlen l + 1).
Proof. unfold next8. by rewrite vector_at_mid. Qed.
Lemma next16_mid l v k : 0 <= v < 65536 →
  next16 (l ++ be_bytes 2 v ++ k) (zlen l) = (Ok v, zlen l + 2).
Proof.
  intros Hv. unfold next16, cursor_read. rewrite <- (Z.add_0_r (zlen l)), extract16_app by lia.
  pose proof (be_bytes_ok 2 v) as Hb. cbn [be_bytes app] in *.
  apply bytes_ok_cons in Hb as [H1 Hb]. apply bytes_ok_cons in Hb as [H2 _].
  rewrite extract16_value by done. rewrite Z.add_0_r. do 2 f_equal.
  change (be_value (be_bytes 2 v) = v). rewrite be_value_bytes. by apply Z.mod_small.
Qed.
Lemma next32_mid l v k : 0 <= v < 4294967296 →
  next32 (l ++ be_bytes 4 v ++ k) (zlen l) = (Ok v, zlen l + 4).
Proof.
  intros Hv. unfold next32, cursor_read. rewrite <- (Z.add_0_r (zlen l)), extract32_app by lia.
  pose proof (be_bytes_ok 4 v) as Hb. cbn [be_bytes app] in *.
  apply bytes_ok_cons in Hb as [H1 Hb]. apply bytes_ok_cons in Hb as [H2 Hb].
  apply bytes_ok_cons in Hb as [H3 Hb]. apply bytes_ok_cons in Hb as [H4 _].
  rewrite extract32_value by done. rewrite Z.add_0_r. do 2 f_equal.
  change (be_value (be_bytes 4 v) = v). rewrite be_value_bytes. by apply Z.mod_small.
Qed.
Lemma extract_mid l s k : zlen (l ++ s ++ k) <= SIZE_MAX →
  extract (l ++ s ++ k) (zlen l) (zlen s) = Ok s.
Proof.
  intros Hmax. unfold extract. rewrite !zlen_app in *. pose proof (zlen_nonneg l).
  pose proof (zlen_nonneg s). pose proof (zlen_nonneg k).
  assert (u64 (zlen l + zlen s) = zlen l + zlen s) as ->.
  { unfold u64, SIZE_MAX in *. apply Z.mod_small. lia. }
  destruct (Z.ltb_spec (zlen l + zlen s) (zlen l)); [lia|].
  destruct (Z.ltb_spec (zlen l + (zlen s + zlen k)) (zlen l + zlen s)); [lia|]. cbn [orb].
  f_equal. replace (zlen l + zlen s - zlen l) with (zlen s) by lia.
  unfold ztake, zdrop. rewrite !to_nat_zlen, drop_app_length, take_app_length. done.
Qed.

(** [rest] is what is left of [vec] at offset [off]. *)
Definition at_offset (vec : bytes) (off : Z) (rest : bytes) : Prop :=
  ∃ l, vec = l ++ rest ∧ off = zlen l.
Lemma at_offset_start vec : at_offset vec 0 vec.
Proof. by exists []. Qed.
Lemma at_offset_app vec off s k : at_offset vec off (s ++ k) → at_offset vec (off + zlen s) k.
Proof. intros (l & -> & ->). exists (l ++ s). by rewrite <- app_assoc, zlen_app. Qed.
Lemma at_offset_nonneg vec off k : at_offset vec off k → 0 <= off.
Proof. intros (l & _ & ->). apply zlen_nonneg. Qed.
Lemma next16_at vec off v k : at_offset vec off (be_bytes 2 v ++ k) → 0 <= v < 65536 →
  next16 vec off = (Ok v, off + 2) ∧ at_offset vec (off + 2) k.
Proof.
  intros H Hv. split; [|apply (at_offset_app _ _ (be_bytes 2 v) _ H)].
  destruct H as (l & -> & ->). by apply next16_mid.
Qed.
Lemma next32_at vec off v k : at_offset vec off (be_bytes 4 v ++ k) → 0 <= v < 4294967296 →
  next32 vec off = (Ok v, off + 4) ∧ at_offset vec (off + 4) k.
Proof.
  intros H Hv. split; [|apply (at_offset_app _ _ (be_bytes 4 v) _ H)].
  destruct H as (l & -> & ->). by apply next32_mid.
Qed.
Lemma next8_at vec off x k : at_offset vec off (x :: k) →
  next8 vec off = (Ok x, off + 1) ∧ vector_at vec off = Ok x ∧ at_offset vec (off + 1) k.
Proof.
  intros H. assert (vector_at vec off = Ok x) as E.
  { destruct H as (l & -> & ->). apply vector_at_mid. }
  unfold next8. rewrite E. split_and!; [done..|apply (at_offset_app _ _ [x] _ H)].
Qed.
Lemma extract_at vec off s k : at_offset vec off (s ++ k) → zlen vec <= SIZE_MAX →
  extract vec off (zlen s) = Ok s.
Proof. intros (l & -> & ->). apply extract_mid. Qed.

(** The extractors throw nothing but [std::out_of_range]. *)
Definition only_out_of_range {A} (r : res A) : Prop :=
  match r with Ok _ => True | Throw (out_of_range _) => True | Throw _ => False end.
Lemma vector_at_oor s i : only_out_of_range (vector_at s i).
Proof. unfold vector_at, vec_at. by destruct (zget s i). Qed.
Lemma bind_oor {A B} (m : res A) (f : A → res B) :
  only_out_of_range m → (∀ a, only_out_of_range (f a)) → only_out_of_range (m ≫= f).
Proof. destruct m; simpl; auto. Qed.
Lemma extract16_oor s i : only_out_of_range (extract16 s i).
Proof. repeat (apply bind_oor; [apply vector_at_oor|intros]). done. Qed.
Lemma extract32_oor s i : only_out_of_range (extract32 s i).
Proof. repeat (apply bind_oor; [apply vector_at_oor|intros]). done. Qed.
#[export] Hint Resolve vector_at_oor extract16_oor extract32_oor : symdb.

(** An integer object whose memory is the bytes [p]. *)
Definition host_value (host : byte_order) (p : bytes) : Z :=
  if is_little_endian host then be_value (rev p) else be_value p.

Lemma memory_bytes_length host n v : zlen (memory_bytes host n v) = Z.of_nat n.
Proof. unfold memory_bytes, zlen. case_match; rewrite ?length_rev, be_bytes_length; done. Qed.
Lemma host_value_memory host n v : 0 <= v < 256 ^ Z.of_nat n → host_value host (memory_bytes host n v) = v.
Proof.
  intros Hv. unfold host_value, memory_bytes. destruct (is_little_endian host); rewrite ?rev_involutive, be_value_bytes;
    by apply Z.mod_small.
Qed.

(** Byte swapping reverses the bytes. *)
Lemma lor_shiftl_add x y k : 0 <= k → 0 <= y < 2 ^ k → Z.lor (Z.shiftl x k) y = x * 2 ^ k + y.
Proof.
  intros Hk Hy. rewrite <- Z.shiftl_mul_pow2 by lia.
  rewrite (Z.add_nocarry_lxor (Z.shiftl x k) y), Z.lxor_lor; [done|..];
    apply Z.bits_inj'; intros n Hn; rewrite Z.land_spec, Z.bits_0, Z.shiftl_spec by lia;
    (destruct (Z.ltb_spec n k); [by rewrite Z.testbit_neg_r by lia|]);
    rewrite <- (Z.mod_small y (2 ^ k)), Z.mod_pow2_bits_high by lia; apply andb_false_r.
Qed.
Lemma be_bytes_add n : ∀ m k r, (n <= m)%nat → be_bytes n (k * 256 ^ Z.of_nat m + r) = be_bytes n r.
Proof.
  induction n as [|n IH]; intros m k r Hm; [done|]. cbn [be_bytes]. rewrite IH by lia. f_equal.
  replace (Z.of_nat m) with (Z.of_nat (m - n - 1) + 1 + Z.of_nat n) by lia.
  rewrite !Z.pow_add_r, Z.pow_1_r, !Z.mul_assoc, Z.div_add_l by lia.
  rewrite Z.add_comm. apply Z.mod_add. lia.
Qed.
Lemma be_bytes_value s : bytes_ok s → be_bytes (length s) (be_value s) = s.
Proof.
  induction 1 as [|b s Hb Hs IH]; [done|]. rewrite be_value_cons. cbn [length be_bytes].
  unfold zlen. rewrite be_bytes_add, IH by done. f_equal.
  pose proof (be_value_bound s Hs) as Hv. unfold zlen in Hv.
  rewrite Z.div_add_l, Z.div_small, Z.add_0_r by lia. apply Z.mod_small. exact Hb.
Qed.
Lemma bytes_ok_rev s : bytes_ok s → bytes_ok (rev s).
Proof. apply Forall_rev. Qed.

Lemma byte_mask v k : 0 <= k → Z.land v (255 * 2 ^ k) = v / 2 ^ k mod 256 * 2 ^ k.
Proof.
  intros Hk. rewrite <- (Z.shiftl_mul_pow2 255), <- (Z.shiftl_mul_pow2 (_ mod _)) by done.
  apply Z.bits_inj'. intros n Hn. rewrite Z.land_spec, !Z.shiftl_spec by lia.
  destruct (Z.ltb_spec n k); [by rewrite !(Z.testbit_neg_r _ (n - k)), andb_false_r by lia|].
  change 255 with (Z.ones 8). change 256 with (2 ^ 8).
  rewrite <- (Z.land_ones (v / 2 ^ k)), Z.land_spec, <- Z.shiftr_div_pow2, Z.shiftr_spec by lia.
  by replace (n - k + k) with n by lia.
Qed.
Lemma bswap32_value v : 0 <= v < 2 ^ 32 → bswap32 v = be_value (rev (be_bytes 4 v)).
Proof.
  intros Hv. unfold bswap32. rewrite <- !Z.lor_assoc.
  change 0xFF with (255 * 2 ^ 0) at 1. change 0xFF00 with (255 * 2 ^ 8).
  rewrite !byte_mask, !Z.shiftr_div_pow2, Z.mul_1_r, Z.div_1_r by lia.
  rewrite !(Z.shiftl_mul_pow2 (_ * _)) by lia. rewrite <- Z.mul_assoc, <- Z.pow_add_r by lia.
  rewrite <- !(Z.shiftl_mul_pow2 (_ mod _)) by lia.
  assert (∀ x, 0 <= x mod 256 < 256) as Hmod by (intros; apply Z.mod_pos_bound; lia).
  pose proof (Hmod (v / 2 ^ 8)). pose proof (Hmod (v / 2 ^ 8 / 2 ^ 8)). pose proof (Hmod v).
  assert (0 <= v / 2 ^ 24 < 256) as H24.
  { split; [apply Z.div_pos; lia|apply Z.div_lt_upper_bound; lia]. }
  rewrite (lor_shiftl_add _ (v / 2 ^ 24)), (lor_shiftl_add (v / 2 ^ 8 mod 256)),
    (lor_shiftl_add (v mod 256)) by lia.
  cbn [be_bytes rev app]. unfold be_value. cbn [foldl].
  change (256 ^ Z.of_nat 3) with (2 ^ 24). change (256 ^ Z.of_nat 2) with (2 ^ 16).
  change (256 ^ Z.of_nat 1) with (2 ^ 8). change (256 ^ Z.of_nat 0) with 1.
  rewrite Z.div_1_r, (Z.mod_small (v / 2 ^ 24)), Z.div_div by lia. change (2 ^ 8 * 2 ^ 8) with (2 ^ 16). lia.
Qed.
Lemma be_bytes_8 v : be_bytes 8 v = be_bytes 4 (v / 2 ^ 32) ++ be_bytes 4 (v mod 2 ^ 32).
Proof.
  cbn [be_bytes app]. change (2 ^ 32) with (256 ^ 4).
  rewrite !Z.div_div by lia. rewrite <- !Z.pow_add_r by lia. do 4 (f_equal).
  pose proof (be_bytes_add 4 4 (v / 256 ^ 4) (v mod 256 ^ 4) ltac:(lia)) as H.
  rewrite (Z.mul_comm _ (256 ^ Z.of_nat 4)) in H. change (256 ^ Z.of_nat 4) with (256 ^ 4) in H.
  rewrite <- Z.div_mod in H by lia. cbn [be_bytes] in H. exact H.
Qed.
Lemma be_value_app s t : be_value (s ++ t) = be_value s * 256 ^ zlen t + be_value t.
Proof. unfold be_value at 1. rewrite foldl_app, foldl_be. done. Qed.
Lemma bswap64_value v : 0 <= v < 2 ^ 64 → bswap64 v = be_value (rev (be_bytes 8 v)).
Proof.
  intros Hv. unfold bswap64. change 0xFFFFFFFF with (Z.ones 32).
  rewrite Z.land_ones, Z.shiftr_div_pow2 by lia.
  assert (0 <= v mod 2 ^ 32 < 2 ^ 32) by (apply Z.mod_pos_bound; lia).
  assert (0 <= v / 2 ^ 32 < 2 ^ 32).
  { split; [apply Z.div_pos; lia|apply Z.div_lt_upper_bound; lia]. }
  rewrite !bswap32_value, be_bytes_8, rev_app_distr, be_value_app by lia.
  assert (∀ x, zlen (rev (be_bytes 4 x)) = 4) as Hl by reflexivity.
  rewrite Hl. change (256 ^ 4) with (2 ^ 32). apply lor_shiftl_add; [lia|].
  pose proof (be_value_bound (rev (be_bytes 4 (v / 2 ^ 32)))) as Hb. rewrite Hl in Hb. apply Hb.
  apply bytes_ok_rev, be_bytes_ok.
Qed.

(** Swapping by value: the swapped number has the reversed bytes, and swapping
    twice is the identity. *)
Lemma swap_bytes n v : 0 <= v < 256 ^ Z.of_nat n →
  be_bytes n (be_value (rev (be_bytes n v))) = rev (be_bytes n v) ∧
  0 <= be_value (rev (be_bytes n v)) < 256 ^ Z.of_nat n ∧
  be_value (rev (be_bytes n (be_value (rev (be_bytes n v))))) = v.
Proof.
  intros Hv. pose proof (bytes_ok_rev _ (be_bytes_ok n v)) as Hok.
  assert (length (rev (be_bytes n v)) = n) as Hl by (by rewrite length_rev, be_bytes_length).
  assert (be_bytes n (be_value (rev (be_bytes n v))) = rev (be_bytes n v)) as E.
  { rewrite <- Hl at 1. by apply be_bytes_value. }
  split_and!; [done|..].
  - apply be_value_bound in Hok. unfold zlen in Hok. rewrite Hl in Hok. lia.
  - apply be_value_bound in Hok. unfold zlen in Hok. rewrite Hl in Hok. lia.
  - rewrite E, rev_involutive, be_value_bytes. by apply Z.mod_small.
Qed.

(** ** Properties *)

(** The conversion functions give the wire format whatever the host: the
    object [cpu_to_be_32 v] (or [_64]) has the big-endian bytes of [v] in memory
    and [cpu_to_le] the little-endian bytes, and the way back returns [v]. *)
Theorem byte_order_wire (host : byte_order) (v w : Z) :
  0 <= v < 2 ^ 32 → 0 <= w < 2 ^ 64 →
  memory_bytes host 4 (cpu_to_be_32 host v) = be_bytes 4 v ∧
  memory_bytes host 8 (cpu_to_be_64 host w) = be_bytes 8 w ∧
  memory_bytes host 4 (cpu_to_le_32 host v) = rev (be_bytes 4 v) ∧
  memory_bytes host 8 (cpu_to_le_64 host w) = rev (be_bytes 8 w) ∧
  be_to_cpu_32 host (cpu_to_be_32 host v) = v ∧ be_to_cpu_64 host (cpu_to_be_64 host w) = w ∧
  le_to_cpu_32 host (cpu_to_le_32 host v) = v ∧ le_to_cpu_64 host (cpu_to_le_64 host w) = w.
Proof.
  intros Hv Hw. destruct (swap_bytes 4 v Hv) as (A1 & A2 & A3). destruct (swap_bytes 8 w Hw) as (B1 & B2 & B3).
  destruct host; cbv [memory_bytes cpu_to_be_32 cpu_to_be_64 cpu_to_le_32 cpu_to_le_64 be_to_cpu_32
    be_to_cpu_64 le_to_cpu_32 le_to_cpu_64 is_little_endian is_big_endian];
    rewrite ?(bswap32_value v), ?(bswap64_value w) by lia;
    rewrite ?bswap32_value, ?bswap64_value by (exact A2 || exact B2);
    rewrite ?A3, ?B3, ?A1, ?B1, ?rev_involutive; by split_and!.
Qed.

Example byte_order_wire_witness :
  cpu_to_be_32 ORDER_LITTLE_ENDIAN 0xCAFEBABE = 0xBEBAFECA ∧
  memory_bytes ORDER_LITTLE_ENDIAN 4 (cpu_to_be_32 ORDER_LITTLE_ENDIAN 0xCAFEBABE)
    = [0xCA; 0xFE; 0xBA; 0xBE].
Proof.
  split; [reflexivity|]. apply (byte_order_wire ORDER_LITTLE_ENDIAN 0xCAFEBABE 0); lia.
Defined.
