(* ===== verification/JavaClass.v ===== *)
(** * Java class files (lib/cxxll/java_class.cpp, include/cxxll/java_class.hpp)

    The parser of the constant pool and the class header, and the accessors
    that resolve names through the pool. *)

From S2P Require Import Prelude Binary.

(** ** State *)

(** Source: include/cxxll/java_class.hpp 26-37, java_class. *)
Record java_class := JavaClass {
  buffer : bytes;
  minor_version_ : Z;
  major_version_ : Z;
  constant_pool_offsets : list Z;
  access_flags_ : Z;
  this_class_ : Z;
  super_class_ : Z;
  interface_indexes : list Z
}.

(** Source: include/cxxll/java_class.hpp 62-74, CONSTANT_Class and the other tags. *)
Inductive constant_tag :=
| CONSTANT_Class | CONSTANT_Fieldref | CONSTANT_Methodref | CONSTANT_InterfaceMethodref
| CONSTANT_String | CONSTANT_Integer | CONSTANT_Float | CONSTANT_Long | CONSTANT_Double
| CONSTANT_NameAndType | CONSTANT_Utf8.

Definition tag_value (t : constant_tag) : Z :=
  match t with
  | CONSTANT_Class => 7 | CONSTANT_Fieldref => 9 | CONSTANT_Methodref => 10
  | CONSTANT_InterfaceMethodref => 11 | CONSTANT_String => 8 | CONSTANT_Integer => 3
  | CONSTANT_Float => 4 | CONSTANT_Long => 5 | CONSTANT_Double => 6
  | CONSTANT_NameAndType => 12 | CONSTANT_Utf8 => 1
  end.
Definition all_tags : list constant_tag :=
  [CONSTANT_Class; CONSTANT_Fieldref; CONSTANT_Methodref; CONSTANT_InterfaceMethodref;
   CONSTANT_String; CONSTANT_Integer; CONSTANT_Float; CONSTANT_Long; CONSTANT_Double;
   CONSTANT_NameAndType; CONSTANT_Utf8].
Definition tag_of (b : Z) : option constant_tag := List.find (λ t, tag_value t =? b) all_tags.

Definition CLASS_MAGIC : Z := 0xCAFEBABE.

(** ** Parsing *)

(** Source: lib/cxxll/java_class.cpp 24-37, java_class::has_signature. *)
Definition has_signature (vec : bytes) : res bool :=
  if zlen vec <? 32 then Ok false
  else fst ((magic ← next32 vec;
             minor ← next16 vec;
             major ← next16 vec;
             mret ((magic =? CLASS_MAGIC) && (major <? 100))) 0).

(** The operands after a tag: how far [offset] moves, and whether the entry
    takes two slots.
    Source: lib/cxxll/java_class.cpp 65-99, java_class::java_class. *)
Definition skip_constant (vec : bytes) (tag : Z) : cursor bool :=
  match tag_of tag with
  | Some CONSTANT_Class | Some CONSTANT_String => cursor_skip 2;; mret false
  | Some CONSTANT_Fieldref | Some CONSTANT_Float | Some CONSTANT_Integer
  | Some CONSTANT_InterfaceMethodref | Some CONSTANT_Methodref | Some CONSTANT_NameAndType =>
      cursor_skip 4;; mret false
  | Some CONSTANT_Long | Some CONSTANT_Double => cursor_skip 8;; mret true
  | Some CONSTANT_Utf8 => len ← next16 vec; cursor_skip len;; mret false
  | None => cursor_throw (java_class_exception (str "invalid constant pool tag " ++ dec tag))
  end.

(** The loop over the slots; [fuel] is the number of slots left.  A two-slot
    entry also pushes a zero and advances [i] once more.
    Source: lib/cxxll/java_class.cpp 61-101, java_class::java_class. *)
Fixpoint constant_pool_loop (fuel : nat) (vec : bytes) (i constant_pool_count : Z)
    (offsets : list Z) : cursor (list Z) :=
  match fuel with
  | O => mret offsets
  | S fuel =>
      if negb (i <? constant_pool_count) then mret offsets
      else
        offset ← cursor_offset;
        let offsets := offsets ++ [u32 offset] in
        tag ← next8 vec;
        two ← skip_constant vec tag;
        if (two : bool) then constant_pool_loop fuel vec (i + 2) constant_pool_count (offsets ++ [0])
        else constant_pool_loop fuel vec (i + 1) constant_pool_count offsets
  end.

(** Source: lib/cxxll/java_class.cpp 107-116, java_class::java_class. *)
Fixpoint interfaces_loop (n : nat) (vec : bytes) : cursor (list Z) :=
  match n with
  | O => mret []
  | S n => idx ← next16 vec; rest ← interfaces_loop n vec; mret (idx :: rest)
  end.

(** The body of the [try] block.
    Source: lib/cxxll/java_class.cpp 43-119, java_class::java_class. *)
Definition java_class_body (vec : bytes) : cursor java_class :=
  magic ← next32 vec;
  if negb (magic =? CLASS_MAGIC) then
    cursor_throw (java_class_exception (str "class file magic value not found"))
  else
  minor ← next16 vec;
  major ← next16 vec;
  constant_pool_count ← next16 vec;
  if constant_pool_count <? 2 then
    cursor_throw (java_class_exception (str "constant pool is empty"))
  else
  offsets ← constant_pool_loop (Z.to_nat (constant_pool_count - 1)) vec 1 constant_pool_count [];
  access ← next16 vec;
  this ← next16 vec;
  super ← next16 vec;
  interface_count ← next16 vec;
  indexes ← interfaces_loop (Z.to_nat interface_count) vec;
  mret (JavaClass vec minor major offsets access this super indexes).

(** The constructor: [std::out_of_range] from the vector turns into an exception
    that names the offset.
    Source: lib/cxxll/java_class.cpp 39-125, java_class::java_class. *)
Definition java_class_new (vec : bytes) : res java_class :=
  match java_class_body vec 0 with
  | (Ok c, _) => Ok c
  | (Throw (out_of_range _), offset) =>
      Throw (java_class_exception (str "index out of range at " ++ dec offset))
  | (Throw e, _) => Throw e
  end.

(** ** Accessors *)

Definition offsets_at (c : java_class) (i : Z) : res Z :=
  vec_at (str "vector::_M_range_check") (constant_pool_offsets c) i.

(** Source: lib/cxxll/java_class.cpp 163-180, java_class::utf8_string. *)
Definition utf8_string (c : java_class) (idx : Z) : res bytes :=
  if idx =? 0 then Throw (java_class_exception (str "zero constant pool index"))
  else
  offset ← offsets_at c (idx - 1);
  fst ((tag ← next8 (buffer c);
        if negb (tag =? tag_value CONSTANT_Utf8) then
          cursor_throw (java_class_exception (str "UTF-8 tag expected"))
        else
        len ← next16 (buffer c);
        ((λ offset, (extract (buffer c) offset len, offset)) : cursor bytes)) offset).

(** Source: lib/cxxll/java_class.cpp 146-161, java_class::class_name. *)
Definition class_name (c : java_class) (idx : Z) : res bytes :=
  if idx =? 0 then Throw (java_class_exception (str "zero constant pool index"))
  else
  offset ← offsets_at c (idx - 1);
  name_idx ← fst ((tag ← next8 (buffer c);
        if negb (tag =? tag_value CONSTANT_Class) then
          cursor_throw (java_class_exception (str "class tag expected"))
        else next16 (buffer c)) offset);
  utf8_string c name_idx.

(** Source: lib/cxxll/java_class.cpp 131-135, java_class::this_class. *)
Definition this_class (c : java_class) : res bytes := class_name c (this_class_ c).

(** Source: lib/cxxll/java_class.cpp 137-144, java_class::super_class. *)
Definition super_class (c : java_class) : res bytes :=
  if super_class_ c =? 0 then Ok [] else class_name c (super_class_ c).

(** Source: include/cxxll/java_class.hpp 104-108, java_class::access_flags. *)
Definition access_flags (c : java_class) : Z := access_flags_ c.

(** Source: lib/cxxll/java_class.cpp 182-186, java_class::interface_count. *)
Definition interface_count (c : java_class) : Z := zlen (interface_indexes c).

(** Source: lib/cxxll/java_class.cpp 188-192, java_class::interface. *)
Definition interface (c : java_class) (index : Z) : res bytes :=
  idx ← vec_at (str "vector::_M_range_check") (interface_indexes c) index;
  class_name c idx.

(** The loop of [class_references] over the slots.
    Source: lib/cxxll/java_class.cpp 198-207, java_class::class_references. *)
Fixpoint class_references_loop (c : java_class) (offsets : list Z) (acc : list bytes)
    : res (list bytes) :=
  match offsets with
  | [] => Ok acc
  | p :: offsets =>
      if p =? 0 then class_references_loop c offsets acc
      else
        tag ← vector_at (buffer c) p;
        if tag =? tag_value CONSTANT_Class then
          name_idx ← fst (next16 (buffer c) (u32 (p + 1)));
          name ← utf8_string c name_idx;
          class_references_loop c offsets (acc ++ [name])
        else class_references_loop c offsets acc
  end.

(** Source: lib/cxxll/java_class.cpp 194-209, java_class::class_references. *)
Definition class_references (c : java_class) : res (list bytes) :=
  class_references_loop c (constant_pool_offsets c) [].

(** ** Class files, abstractly *)

(** An entry of the constant pool; [PWord] stands for the entries with four
    bytes of operands, [PTwo] for the two that take two slots. *)
Inductive pool_entry :=
| PUtf8 (s : bytes)
| PClass (name_index : Z)
| PString (string_index : Z)
| PWord (t : constant_tag) (v : Z)
| PTwo (t : constant_tag) (v : Z).

Definition entry_bytes (e : pool_entry) : bytes :=
  match e with
  | PUtf8 s => tag_value CONSTANT_Utf8 :: be_bytes 2 (zlen s) ++ s
  | PClass i => tag_value CONSTANT_Class :: be_bytes 2 i
  | PString i => tag_value CONSTANT_String :: be_bytes 2 i
  | PWord t v => tag_value t :: be_bytes 4 v
  | PTwo t v => tag_value t :: be_bytes 8 v
  end.
Definition entry_slots (e : pool_entry) : Z := match e with PTwo _ _ => 2 | _ => 1 end.
Definition entry_ok (e : pool_entry) : Prop :=
  match e with
  | PUtf8 s => zlen s < 65536
  | PClass i | PString i => 0 <= i < 65536
  | PWord t _ => t ∈ [CONSTANT_Fieldref; CONSTANT_Float; CONSTANT_Integer;
                      CONSTANT_InterfaceMethodref; CONSTANT_Methodref; CONSTANT_NameAndType]
  | PTwo t _ => t ∈ [CONSTANT_Long; CONSTANT_Double]
  end.

Definition pool_bytes (es : list pool_entry) : bytes := concat (entry_bytes <$> es).
Fixpoint pool_slots (es : list pool_entry) : Z :=
  match es with [] => 0 | e :: es => entry_slots e + pool_slots es end.

(** The entry whose first slot is number [i], counting from zero. *)
Fixpoint pool_slot (es : list pool_entry) (i : Z) : option pool_entry :=
  match es with
  | [] => None
  | e :: es => if i =? 0 then Some e else if i <? entry_slots e then None
               else pool_slot es (i - entry_slots e)
  end.
(** The text of a [Utf8] entry and the name a [Class] entry refers to, by index. *)
Definition pool_text (es : list pool_entry) (idx : Z) : option bytes :=
  match pool_slot es (idx - 1) with Some (PUtf8 s) => Some s | _ => None end.
Definition pool_class (es : list pool_entry) (idx : Z) : option bytes :=
  match pool_slot es (idx - 1) with Some (PClass i) => pool_text es i | _ => None end.
(** The name indexes of the [Class] entries, in order. *)
Definition pool_class_entries (es : list pool_entry) : list Z :=
  omap (λ e, match e with PClass i => Some i | _ => None end) es.

Record class_file := ClassFile {
  cf_minor : Z; cf_major : Z; cf_pool : list pool_entry;
  cf_access : Z; cf_this : Z; cf_super : Z; cf_interfaces : list Z; cf_rest : bytes
}.
Definition is_u16 (z : Z) : Prop := 0 <= z < 65536.
Definition cf_head (cf : class_file) : bytes :=
  be_bytes 4 CLASS_MAGIC ++ be_bytes 2 (cf_minor cf) ++ be_bytes 2 (cf_major cf) ++
  be_bytes 2 (pool_slots (cf_pool cf) + 1).
Definition cf_tail (cf : class_file) : bytes :=
  be_bytes 2 (cf_access cf) ++ be_bytes 2 (cf_this cf) ++ be_bytes 2 (cf_super cf) ++
  be_bytes 2 (zlen (cf_interfaces cf)) ++ concat (be_bytes 2 <$> cf_interfaces cf) ++ cf_rest cf.
Definition class_bytes (cf : class_file) : bytes := cf_head cf ++ pool_bytes (cf_pool cf) ++ cf_tail cf.
Definition class_file_ok (cf : class_file) : Prop :=
  is_u16 (cf_minor cf) ∧ is_u16 (cf_major cf) ∧ Forall entry_ok (cf_pool cf) ∧
  1 <= pool_slots (cf_pool cf) < 65535 ∧ is_u16 (cf_access cf) ∧ is_u16 (cf_this cf) ∧
  is_u16 (cf_super cf) ∧ is_u16 (zlen (cf_interfaces cf)) ∧ Forall is_u16 (cf_interfaces cf) ∧
  zlen (class_bytes cf) < 2 ^ 32.

(** The offsets the parser is to find, from the position of the first entry. *)
Fixpoint pool_offsets (base : Z) (es : list pool_entry) : list Z :=
  match es with
  | [] => []
  | e :: es => (base :: if entry_slots e =? 2 then [0] else []) ++
               pool_offsets (base + zlen (entry_bytes e)) es
  end.

(** ** Lemmas *)

Lemma cursor_bind_ok {A B} (m : cursor A) (f : A → cursor B) off a off' :
  m off = (Ok a, off') → (m ≫= f) off = f a off'.
Proof. intros E. unfold mbind, cursor_bind. by rewrite E. Qed.

Lemma pool_slots_nonneg es : 0 <= pool_slots es.
Proof. induction es as [|e es]; simpl; [lia|]. destruct e; simpl; lia. Qed.
Lemma entry_slots_range e : 1 <= entry_slots e <= 2.
Proof. destruct e; simpl; lia. Qed.
Lemma pool_slots_app es fs : pool_slots (es ++ fs) = pool_slots es + pool_slots fs.
Proof. induction es as [|e es IH]; simpl; lia. Qed.
Lemma pool_bytes_cons e es : pool_bytes (e :: es) = entry_bytes e ++ pool_bytes es.
Proof. done. Qed.
Lemma pool_bytes_app es fs : pool_bytes (es ++ fs) = pool_bytes es ++ pool_bytes fs.
Proof. unfold pool_bytes. by rewrite fmap_app, concat_app. Qed.
Lemma pool_offsets_app base es fs : pool_offsets base (es ++ fs) =
  pool_offsets base es ++ pool_offsets (base + zlen (pool_bytes es)) fs.
Proof.
  revert base. induction es as [|e es IH]; intros base; [by rewrite Z.add_0_r|].
  cbn [app pool_offsets]. by rewrite IH, pool_bytes_cons, zlen_app, <- !app_assoc, Z.add_assoc.
Qed.
Lemma pool_offsets_length base es : zlen (pool_offsets base es) = pool_slots es.
Proof.
  revert base. induction es as [|e es IH]; intros base; [done|].
  cbn [pool_offsets pool_slots]. rewrite zlen_app, IH. by destruct e.
Qed.
Lemma pool_slot_split es : ∀ i e, pool_slot es i = Some e →
  ∃ pre post, es = pre ++ e :: post ∧ pool_slots pre = i.
Proof.
  induction es as [|d es IH]; intros i e; simpl; [done|].
  destruct (Z.eqb_spec i 0); [intros [= ->]; subst; by exists [], es|].
  destruct (Z.ltb_spec i (entry_slots d)); [done|]. intros (pre & post & -> & Hs)%IH.
  exists (d :: pre), post. simpl. split; [done|lia].
Qed.

(** Parsing one entry. *)
Lemma skip_constant_entry l e k : entry_ok e →
  (tag ← next8 (l ++ entry_bytes e ++ k); skip_constant (l ++ entry_bytes e ++ k) tag) (zlen l) =
  (Ok (entry_slots e =? 2), zlen l + zlen (entry_bytes e)).
Proof.
  intros He. destruct e as [s|i|i|t v|t v]; cbn [entry_bytes app] in *;
    rewrite (cursor_bind_ok _ _ _ _ _ (next8_mid _ _ _)); rewrite zlen_cons.
  - cbn [skip_constant tag_of all_tags List.find tag_value Z.eqb Pos.eqb].
    replace (zlen l + 1) with (zlen (l ++ [1])) by zl. simpl in He. pose proof (zlen_nonneg s).
    replace (l ++ 1 :: (be_bytes 2 (zlen s) ++ s) ++ k)
      with ((l ++ [1]) ++ be_bytes 2 (zlen s) ++ (s ++ k)) by (by rewrite <- !app_assoc).
    rewrite (cursor_bind_ok _ _ _ _ _ (next16_mid (l ++ [1]) (zlen s) (s ++ k) ltac:(lia))). cbn -[zlen].
    unfold mbind, cursor_bind, mret, cursor_ret, cursor_skip. f_equal.
    rewrite ?zlen_app, !zlen_cons, ?zlen_nil. lia.
  - rewrite be_bytes_zlen. cbn. apply (f_equal2 pair); [done|lia].
  - rewrite be_bytes_zlen. cbn. apply (f_equal2 pair); [done|lia].
  - rewrite be_bytes_zlen. simpl in He. rewrite !elem_of_cons, elem_of_nil in He.
    destruct He as [->|[->|[->|[->|[->|[->|[]]]]]]]; cbn; (apply (f_equal2 pair); [done|lia]).
  - rewrite be_bytes_zlen. simpl in He. rewrite !elem_of_cons, elem_of_nil in He.
    destruct He as [->|[->|[]]]; cbn; (apply (f_equal2 pair); [done|lia]).
Qed.

(** The loop over the pool finds the offsets of the entries. *)
Lemma constant_pool_loop_spec es : ∀ fuel l k i offs, Forall entry_ok es →
  pool_slots es <= Z.of_nat fuel → zlen (l ++ pool_bytes es ++ k) < 2 ^ 32 →
  constant_pool_loop fuel (l ++ pool_bytes es ++ k) i (i + pool_slots es) offs (zlen l) =
  (Ok (offs ++ pool_offsets (zlen l) es), zlen l + zlen (pool_bytes es)).
Proof.
  induction es as [|e es IH]; intros fuel l k i offs Hok Hfuel Hlen.
  { cbn [pool_slots pool_offsets]. change (pool_bytes []) with (@nil Z). change (zlen (@nil Z)) with 0.
    rewrite (app_nil_r offs), (Z.add_0_r i), (Z.add_0_r (zlen l)).
    destruct fuel; cbn [constant_pool_loop]; [done|]. by rewrite Z.ltb_irrefl. }
  apply Forall_cons in Hok as [He Hok]. cbn [pool_slots] in Hfuel |- *.
  pose proof (entry_slots_range e). pose proof (pool_slots_nonneg es).
  destruct fuel as [|fuel]; [lia|]. cbn [constant_pool_loop].
  destruct (Z.ltb_spec i (i + (entry_slots e + pool_slots es))); [|lia]. cbn [negb].
  rewrite pool_bytes_cons, <- app_assoc in Hlen |- *.
  assert (u32 (zlen l) = zlen l) as Hu.
  { apply Z.mod_small. rewrite zlen_app in Hlen. pose proof (zlen_nonneg l).
    pose proof (zlen_nonneg (entry_bytes e ++ pool_bytes es ++ k)). lia. }
  rewrite (cursor_bind_ok _ _ _ _ _ (eq_refl : cursor_offset (zlen l) = (Ok (zlen l), zlen l))), Hu.
  pose proof (skip_constant_entry l e (pool_bytes es ++ k) He) as Hskip.
  unfold mbind, cursor_bind in Hskip |- *.
  destruct (next8 (l ++ entry_bytes e ++ pool_bytes es ++ k) (zlen l)) as [[tag|ex] off']; [|done].
  rewrite Hskip. clear Hskip. rewrite app_assoc in Hlen |- *.
  specialize (IH fuel (l ++ entry_bytes e) k).
  rewrite !zlen_app in IH. rewrite zlen_app. cbn [pool_offsets].
  destruct (entry_slots e =? 2) eqn:Htwo; zbool.
  - replace (i + (entry_slots e + pool_slots es)) with (i + 2 + pool_slots es) by lia.
    rewrite IH; [|done|lia|rewrite !zlen_app in Hlen; lia]. rewrite <- !app_assoc, Z.add_assoc. done.
  - replace (i + (entry_slots e + pool_slots es)) with (i + 1 + pool_slots es) by lia.
    rewrite IH; [|done|lia|rewrite !zlen_app in Hlen; lia]. rewrite <- !app_assoc, Z.add_assoc. done.
Qed.

Lemma interfaces_loop_spec ids : ∀ l k, Forall is_u16 ids →
  interfaces_loop (length ids) (l ++ concat (be_bytes 2 <$> ids) ++ k) (zlen l) =
  (Ok ids, zlen l + zlen (concat (be_bytes 2 <$> ids))).
Proof.
  induction ids as [|i ids IH]; intros l k Hok; [simpl; by rewrite Z.add_0_r|].
  apply Forall_cons in Hok as [Hi Hok]. rewrite fmap_cons. cbn [concat length interfaces_loop].
  rewrite <- app_assoc. rewrite (cursor_bind_ok _ _ _ _ _ (next16_mid _ _ _ Hi)).
  specialize (IH (l ++ be_bytes 2 i) k Hok). rewrite <- app_assoc, zlen_app, be_bytes_zlen in IH.
  rewrite (cursor_bind_ok _ _ _ _ _ IH). rewrite zlen_app, be_bytes_zlen.
  unfold mret, cursor_ret. f_equal. lia.
Qed.

(** The parser on the bytes of a class file. *)
Lemma java_class_new_bytes cf : class_file_ok cf →
  java_class_new (class_bytes cf) = Ok (JavaClass (class_bytes cf) (cf_minor cf) (cf_major cf)
    (pool_offsets 10 (cf_pool cf)) (cf_access cf) (cf_this cf) (cf_super cf) (cf_interfaces cf)).
Proof.
  intros (H1 & H2 & H3 & H4 & H5 & H6 & H7 & H8 & H9 & H10). unfold java_class_new, java_class_body.
  set (vec := class_bytes cf) in *. assert (at_offset vec 0 (class_bytes cf)) as A by apply at_offset_start.
  unfold class_bytes, cf_head in A. rewrite <- !app_assoc in A.
  apply next32_at in A as [E A]; [|done]. rewrite (cursor_bind_ok _ _ _ _ _ E). clear E.
  rewrite Z.eqb_refl. cbn [negb].
  apply next16_at in A as [E A]; [|done]. rewrite (cursor_bind_ok _ _ _ _ _ E). clear E.
  apply next16_at in A as [E A]; [|done]. rewrite (cursor_bind_ok _ _ _ _ _ E). clear E.
  apply next16_at in A as [E A]; [|lia]. rewrite (cursor_bind_ok _ _ _ _ _ E). clear E.
  destruct (Z.ltb_spec (pool_slots (cf_pool cf) + 1) 2); [lia|].
  change (0 + 4 + 2 + 2 + 2) with 10 in *.
  assert (constant_pool_loop (Z.to_nat (pool_slots (cf_pool cf) + 1 - 1)) vec 1
    (pool_slots (cf_pool cf) + 1) [] 10 = (Ok (pool_offsets 10 (cf_pool cf)),
    10 + zlen (pool_bytes (cf_pool cf)))) as E.
  { destruct A as (l & Hvec & Hl). rewrite Hvec in H10 |- *. rewrite Hl, (Z.add_comm _ 1).
    by rewrite constant_pool_loop_spec by (done || lia). }
  rewrite (cursor_bind_ok _ _ _ _ _ E). clear E. apply at_offset_app in A.
  unfold cf_tail in A.
  apply next16_at in A as [E A]; [|done]. rewrite (cursor_bind_ok _ _ _ _ _ E). clear E.
  apply next16_at in A as [E A]; [|done]. rewrite (cursor_bind_ok _ _ _ _ _ E). clear E.
  apply next16_at in A as [E A]; [|done]. rewrite (cursor_bind_ok _ _ _ _ _ E). clear E.
  apply next16_at in A as [E A]; [|done]. rewrite (cursor_bind_ok _ _ _ _ _ E). clear E.
  destruct A as (l & Hvec & Hl). rewrite Hl, to_nat_zlen.
  pose proof (interfaces_loop_spec (cf_interfaces cf) l (cf_rest cf) H9) as E.
  rewrite <- Hvec in E. by rewrite (cursor_bind_ok _ _ _ _ _ E).
Qed.

(** Only [Class] entries start with the tag of a class. *)
Lemma entry_tag e : entry_ok e → ∃ tag u, entry_bytes e = tag :: u ∧
  (tag = tag_value CONSTANT_Class → ∃ i, e = PClass i).
Proof.
  destruct e as [s|i|i|t v|t v]; intros He; (eexists _, _; split; [reflexivity|]); try done; [eauto|..];
    simpl in He; rewrite !elem_of_cons, elem_of_nil in He.
  - by destruct He as [->|[->|[->|[->|[->|[->|[]]]]]]].
  - by destruct He as [->|[->|[]]].
Qed.

Section accessors.
Context (cf : class_file) (Hok : class_file_ok cf).
Let c := JavaClass (class_bytes cf) (cf_minor cf) (cf_major cf)
  (pool_offsets 10 (cf_pool cf)) (cf_access cf) (cf_this cf) (cf_super cf) (cf_interfaces cf).

(** An entry is found through the offset of its slot. *)
Lemma slot_offset pre e post : cf_pool cf = pre ++ e :: post →
  offsets_at c (pool_slots pre) = Ok (10 + zlen (pool_bytes pre)) ∧
  at_offset (class_bytes cf) (10 + zlen (pool_bytes pre))
    (entry_bytes e ++ pool_bytes post ++ cf_tail cf).
Proof.
  intros Hpool. split.
  - unfold offsets_at, vec_at. simpl. rewrite Hpool, pool_offsets_app, zget_app_r
      by (rewrite pool_offsets_length; lia).
    rewrite pool_offsets_length, Z.sub_diag. done.
  - exists (cf_head cf ++ pool_bytes pre). unfold class_bytes.
    rewrite Hpool, pool_bytes_app, pool_bytes_cons, <- !app_assoc. split; [done|].
    rewrite zlen_app. f_equal.
Qed.
Lemma slot_entry idx e : pool_slot (cf_pool cf) (idx - 1) = Some e → ∃ off k,
  (idx =? 0) = false ∧ entry_ok e ∧
  offsets_at c (idx - 1) = Ok off ∧ at_offset (buffer c) off (entry_bytes e ++ k).
Proof.
  intros (pre & post & Hpool & Hi)%pool_slot_split. destruct (slot_offset _ _ _ Hpool) as [A B].
  rewrite Hi in A. eexists _, _. split_and!; [| |done|done].
  - pose proof (pool_slots_nonneg pre). lia.
  - destruct Hok as (_ & _ & H & _). rewrite Hpool, Forall_app, Forall_cons in H. tauto.
Qed.

Lemma utf8_string_text idx s : pool_text (cf_pool cf) idx = Some s → utf8_string c idx = Ok s.
Proof.
  unfold pool_text. destruct (pool_slot _ _) as [[t| | | |]|] eqn:E; try done. intros [= ->].
  apply slot_entry in E as (off & k & Hz & Hs & Ho & A). simpl in Hs.
  unfold utf8_string. rewrite Hz, Ho. cbn [mbind res_bind]. cbn [entry_bytes app] in A.
  apply next8_at in A as (E & _ & A). rewrite (cursor_bind_ok _ _ _ _ _ E), Z.eqb_refl. cbn [negb].
  rewrite <- app_assoc in A. pose proof (zlen_nonneg s).
  apply next16_at in A as [E2 A]; [|lia]. rewrite (cursor_bind_ok _ _ _ _ _ E2). cbn [fst].
  apply (extract_at _ _ _ _ A). destruct Hok as (_ & _ & _ & _ & _ & _ & _ & _ & _ & Hl).
  simpl. unfold SIZE_MAX. lia.
Qed.
Lemma class_name_class idx s : pool_class (cf_pool cf) idx = Some s → class_name c idx = Ok s.
Proof.
  unfold pool_class. destruct (pool_slot _ _) as [[|i| | |]|] eqn:E; try done. intros Ht.
  apply slot_entry in E as (off & k & Hz & Hs & Ho & A). simpl in Hs.
  unfold class_name. rewrite Hz, Ho. cbn [mbind res_bind]. cbn [entry_bytes app] in A.
  apply next8_at in A as (E & _ & A). rewrite (cursor_bind_ok _ _ _ _ _ E), Z.eqb_refl. cbn [negb].
  apply next16_at in A as [E2 A]; [|done]. rewrite E2. by apply utf8_string_text.
Qed.

Lemma class_references_spec suf : ∀ pre acc names, cf_pool cf = pre ++ suf →
  mapM (pool_text (cf_pool cf)) (pool_class_entries suf) = Some names →
  class_references_loop c (pool_offsets (10 + zlen (pool_bytes pre)) suf) acc = Ok (acc ++ names).
Proof.
  induction suf as [|e suf IH]; intros pre acc names Hpool Hn.
  { injection Hn as <-. simpl. by rewrite app_nil_r. }
  destruct (slot_offset _ _ _ Hpool) as [_ A]. cbn [pool_offsets].
  assert (entry_ok e) as He.
  { destruct Hok as (_ & _ & H & _). rewrite Hpool, Forall_app, Forall_cons in H. tauto. }
  pose proof (zlen_nonneg (pool_bytes pre)).
  specialize (IH (pre ++ [e])). rewrite pool_bytes_app, zlen_app in IH.
  change (pool_bytes [e]) with (entry_bytes e ++ []) in IH. rewrite app_nil_r, Z.add_assoc, <- app_assoc in IH.
  destruct (entry_tag e He) as (tag & u & Ee & Htag). rewrite Ee in A. cbn [app] in A.
  apply next8_at in A as (_ & Et & A). simpl in Et.
  cbn [app class_references_loop]. rewrite (proj2 (Z.eqb_neq _ 0)) by lia. cbn [buffer c].
  rewrite Et. cbn [mbind res_bind].
  destruct Hok as (_ & _ & _ & _ & _ & _ & _ & _ & _ & Hmax).
  destruct (Z.eqb_spec tag (tag_value CONSTANT_Class)) as [Hc|Hc].
  - destruct e as [|i| | |]; try (by destruct (Htag Hc)). cbn [entry_slots Z.eqb Pos.eqb app].
    cbn [pool_class_entries omap list_omap] in Hn. fold (pool_class_entries suf) in Hn.
    apply mapM_Some in Hn. inversion Hn as [|? n ? ns Hi Hns]; subst. apply mapM_Some in Hns.
    assert (u = be_bytes 2 i) as -> by (by injection Ee as <-). simpl in He.
    assert (u32 (10 + zlen (pool_bytes pre) + 1) = 10 + zlen (pool_bytes pre) + 1) as ->.
    { apply Z.mod_small. destruct A as (l & Hv & Hl). rewrite Hv, zlen_app in Hmax.
      rewrite Hl in *. pose proof (zlen_nonneg (be_bytes 2 i ++ pool_bytes suf ++ cf_tail cf)). lia. }
    apply next16_at in A as [E2 _]; [|done]. rewrite E2. cbn [fst mbind res_bind].
    rewrite (utf8_string_text _ _ Hi). cbn [mbind res_bind].
    rewrite (IH _ ns) by done. by rewrite <- app_assoc.
  - replace (pool_class_entries (e :: suf)) with (pool_class_entries suf) in Hn.
    2: { destruct e; try done. injection Ee as <- _. done. }
    destruct (entry_slots e =? 2); cbn [app class_references_loop Z.eqb]; by apply IH.
Qed.
End accessors.

(** ** Errors *)

Definition parse_error (e : exn) : Prop :=
  match e with out_of_range _ | java_class_exception _ => True | _ => False end.

(** A cursor computation that moves forward and fails with a parse error only. *)
Definition parses {A} (m : cursor A) (Q : A → Prop) : Prop := ∀ off, 0 <= off →
  match m off with
  | (Ok a, off') => off <= off' ∧ Q a
  | (Throw e, _) => parse_error e
  end.

Lemma parses_bind {A B} (m : cursor A) (f : A → cursor B) P Q :
  parses m P → (∀ a, P a → parses (f a) Q) → parses (m ≫= f) Q.
Proof.
  intros Hm Hf off Hoff. specialize (Hm off Hoff). unfold mbind, cursor_bind.
  destruct (m off) as [[a|e] off'] eqn:E; [|done]. destruct Hm as [Hle Ha].
  specialize (Hf a Ha off' ltac:(lia)). destruct (f a off') as [[b|e] off'']; [|done].
  split; [lia|tauto].
Qed.
Lemma parses_ret {A} (x : A) (Q : A → Prop) : Q x → parses (mret x) Q.
Proof. intros H off Hoff. split; [lia|done]. Qed.
Lemma parses_throw {A} e (Q : A → Prop) : parse_error e → parses (cursor_throw e) Q.
Proof. intros H off Hoff. exact H. Qed.
Lemma parses_skip n : 0 <= n → parses (cursor_skip n) (λ _, True).
Proof. intros Hn off Hoff. split; [lia|done]. Qed.
Lemma parse_error_oor {A} (r : res A) : only_out_of_range r →
  match r with Ok _ => True | Throw e => parse_error e end.
Proof. destruct r as [|[]]; simpl; done. Qed.
Lemma parses_read read n (Q : Z → Prop) : 0 <= n → (∀ off, only_out_of_range (read off)) →
  (∀ off v, read off = Ok v → Q v) → parses (cursor_read read n) Q.
Proof.
  intros Hn Ho HQ off Hoff. unfold cursor_read. specialize (Ho off). apply parse_error_oor in Ho.
  destruct (read off) eqn:E; [|done]. split; [lia|eauto].
Qed.
Lemma parses_next8 vec : parses (next8 vec) (λ _, True).
Proof.
  intros off Hoff. unfold next8. pose proof (parse_error_oor _ (vector_at_oor vec off)) as H.
  destruct (vector_at vec off); [split; [lia|done]|done].
Qed.
Lemma parses_next16 vec : parses (next16 vec) is_u16.
Proof.
  apply parses_read; [lia|auto with symdb|]. intros off v H. unfold extract16 in H. res_inv.
  apply Z.mod_pos_bound. lia.
Qed.
Lemma parses_next32 vec : parses (next32 vec) (λ _, True).
Proof. apply parses_read; [lia|auto with symdb|done]. Qed.
#[local] Hint Resolve parses_next8 parses_next16 parses_next32 parses_ret parses_throw : symdb.

Lemma parses_skip_constant vec tag : parses (skip_constant vec tag) (λ _, True).
Proof.
  unfold skip_constant. destruct (tag_of tag) as [[]|];
    try (apply (parses_bind _ _ (λ _, True)); [apply parses_skip; lia|by auto with symdb]).
  - apply (parses_bind _ _ is_u16); [apply parses_next16|]. intros len Hlen.
    apply (parses_bind _ _ (λ _, True)); [apply parses_skip; unfold is_u16 in Hlen; lia|by auto with symdb].
  - by apply parses_throw.
Qed.

Abbreviation offsets_in vec := (Forall (λ p, 0 <= p < zlen vec)).

(** Every offset pushed is an offset of the vector: the tag was read from it. *)
Lemma parses_constant_pool fuel vec : ∀ i count offs, offsets_in vec offs →
  parses (constant_pool_loop fuel vec i count offs) (offsets_in vec).
Proof.
  induction fuel as [|fuel IH]; intros i count offs Hoffs; cbn [constant_pool_loop].
  { by apply parses_ret. }
  destruct (negb (i <? count)); [by apply parses_ret|].
  intros off Hoff. unfold mbind at 1, cursor_bind at 1, cursor_offset. unfold mbind at 1, cursor_bind at 1.
  unfold next8. pose proof (parse_error_oor _ (vector_at_oor vec off)) as He.
  destruct (vector_at vec off) as [tag|e] eqn:E; [|exact He].
  unfold vector_at, vec_at in E. destruct (zget vec off) eqn:Ez; [|done]. apply zget_Some in Ez.
  assert (offsets_in vec (offs ++ [u32 off])) as Hoffs'.
  { apply Forall_app. split; [done|]. constructor; [|constructor]. unfold u32.
    pose proof (Z.mod_pos_bound off 4294967296 ltac:(lia)). pose proof (Z.mod_le off 4294967296 ltac:(lia) ltac:(lia)). lia. }
  assert (parses (two ← skip_constant vec tag;
    if (two : bool) then constant_pool_loop fuel vec (i + 2) count ((offs ++ [u32 off]) ++ [0])
    else constant_pool_loop fuel vec (i + 1) count (offs ++ [u32 off])) (offsets_in vec)) as Hrest.
  { apply (parses_bind _ _ (λ _, True)); [apply parses_skip_constant|]. intros [] _; apply IH; [|done].
    apply Forall_app. split; [done|]. constructor; [lia|constructor]. }
  specialize (Hrest (off + 1) ltac:(lia)). case_match. case_match; [|done]. split; [lia|tauto].
Qed.
Lemma parses_interfaces n vec : parses (interfaces_loop n vec) (λ l, length l = n ∧ Forall is_u16 l).
Proof.
  induction n as [|n IH]; cbn [interfaces_loop]; [by apply parses_ret|].
  apply (parses_bind _ _ is_u16); [apply parses_next16|]. intros i Hi.
  apply (parses_bind _ _ _ _ IH). intros l [Hl Hf]. apply parses_ret. simpl. split; [lia|by constructor].
Qed.

(** The invariant of a parsed class. *)
Definition java_class_wf (vec : bytes) (c : java_class) : Prop :=
  buffer c = vec ∧ offsets_in vec (constant_pool_offsets c) ∧ is_u16 (access_flags_ c) ∧
  is_u16 (this_class_ c) ∧ is_u16 (super_class_ c) ∧ Forall is_u16 (interface_indexes c) ∧
  interface_count c < 65536.
Lemma parses_java_class vec : parses (java_class_body vec) (java_class_wf vec).
Proof.
  unfold java_class_body. apply (parses_bind _ _ _ _ (parses_next32 vec)). intros magic _.
  case_match; [by apply parses_throw|].
  do 3 (apply (parses_bind _ _ _ _ (parses_next16 vec)); intros ? ?).
  case_match; [by apply parses_throw|].
  eapply parses_bind; [apply parses_constant_pool; constructor|]. intros offs Hoffs.
  do 4 (apply (parses_bind _ _ _ _ (parses_next16 vec)); intros ? ?).
  eapply parses_bind; [apply parses_interfaces|]. intros l [Hl Hf]. apply parses_ret.
  unfold java_class_wf, interface_count. simpl. split_and!; try done.
  unfold is_u16, zlen in *. lia.
Qed.

(** ** Properties *)

(** C36: The parser reads back every class file: on the bytes of a class file
    (with any suffix for the parts the parser does not look at) it succeeds with
    the header fields, and the accessors resolve the class's own name, the super
    class, each interface and all the class references through the constant
    pool, two-slot entries included. *)
Theorem java_class_roundtrip (cf : class_file) :
  class_file_ok cf → ∃ c, java_class_new (class_bytes cf) = Ok c ∧
    minor_version_ c = cf_minor cf ∧ major_version_ c = cf_major cf ∧
    access_flags c = cf_access cf ∧ interface_count c = zlen (cf_interfaces cf) ∧
    (∀ s, pool_class (cf_pool cf) (cf_this cf) = Some s → this_class c = Ok s) ∧
    (∀ s, pool_class (cf_pool cf) (cf_super cf) = Some s → super_class c = Ok s) ∧
    (cf_super cf = 0 → super_class c = Ok []) ∧
    (∀ i idx s, zget (cf_interfaces cf) i = Some idx → pool_class (cf_pool cf) idx = Some s →
       interface c i = Ok s) ∧
    (∀ names, mapM (pool_text (cf_pool cf)) (pool_class_entries (cf_pool cf)) = Some names →
       class_references c = Ok names).
Proof.
  intros Hok. rewrite (java_class_new_bytes cf Hok). eexists. split; [reflexivity|].
  split_and!; try done.
  - intros s. by apply class_name_class.
  - intros s Hs. unfold super_class. simpl. destruct (Z.eqb_spec (cf_super cf) 0) as [Hz|Hz].
    + rewrite Hz in Hs. unfold pool_class in Hs. destruct (pool_slot _ _) eqn:E; [|done].
      apply (slot_entry cf Hok) in E as (? & ? & [=] & _).
    + by apply class_name_class.
  - intros Hz. unfold super_class. simpl. by rewrite Hz.
  - intros i idx s Hi Hs. unfold interface, vec_at. simpl. rewrite Hi. by apply class_name_class.
  - intros names Hn. apply (class_references_spec cf Hok (cf_pool cf) [] [] names); done.
Qed.

Definition sample_class : class_file :=
  ClassFile 0 50 [PTwo CONSTANT_Long 7; PClass 5; PUtf8 (str "x"); PUtf8 (str "a/B"); PClass 4] 33 3 6
    [6] [1; 2; 3].
Example java_class_roundtrip_witness :
  class_file_ok sample_class ∧ ∃ c, java_class_new (class_bytes sample_class) = Ok c ∧
    this_class c = Ok (str "a/B") ∧ class_references c = Ok [str "a/B"; str "x"].
Proof.
  assert (class_file_ok sample_class) as Hok.
  { unfold class_file_ok, is_u16, sample_class. split_and!; try done; repeat constructor; done. }
  split; [exact Hok|].
  destruct (java_class_roundtrip sample_class Hok) as (c & H1 & _ & _ & _ & _ & H2 & _ & _ & _ & H3).
  exists c. split; [exact H1|]. split; [exact (H2 _ eq_refl)|exact (H3 _ eq_refl)].
Defined.

(** On any input the constructor either fails with the parser's own exception,
    never with an index error from the vector, or it returns an object whose
    constant pool offsets all point into the vector and whose header fields fit
    16 bits. *)
Theorem java_class_new_total (vec : bytes) :
  match java_class_new vec with
  | Ok c => java_class_wf vec c
  | Throw e => ∃ what, e = java_class_exception what
  end.
Proof.
  unfold java_class_new. pose proof (parses_java_class vec 0 ltac:(lia)) as H.
  destruct (java_class_body vec 0) as [[c|e] off]; [tauto|]. destruct e; try done; eauto.
Qed.
