(* ===== verification/Cpio.v ===== *)
(** * cpio headers (lib/cxxll/cpio_reader.cpp, include/cxxll/cpio_reader.hpp)

    The "odc" (octal) and "newc" (hexadecimal) header formats.  A pointer into
    the buffer is the text that follows it, [NULL] is [None]. *)

From S2P Require Import Prelude Binary.

(** Source: include/cxxll/cpio_reader.hpp 28-43, cpio_entry. *)
Record cpio_entry := CpioEntry {
  devmajor : Z; devminor : Z; ino : Z; mode : Z; uid : Z; gid : Z; nlink : Z;
  rdevmajor : Z; rdevminor : Z; mtime : Z; namesize : Z; filesize : Z; check : Z
}.

(** ** Digits *)

(** Source: lib/cxxll/cpio_reader.cpp 27-34, octal_digit. *)
Definition octal_digit (ch : Z) : Z :=
  if (ch <? 48) || (55 <? ch) then -1 else ch - 48.

(** Source: lib/cxxll/cpio_reader.cpp 36-47, hex_digit. *)
Definition hex_digit (ch : Z) : Z :=
  if (48 <=? ch) && (ch <=? 57) then ch - 48
  else if (97 <=? ch) && (ch <=? 102) then ch - 97 + 10
  else if (65 <=? ch) && (ch <=? 70) then ch - 65 + 10
  else -1.

(** ** Fields *)

(** The two variables the readers share: the pointer and the error. *)
Record reader := Reader { rd_p : option bytes; rd_error : option bytes }.
Definition cpio_m (A : Type) : Type := reader → A * reader.
#[global] Instance cpio_ret : MRet cpio_m := λ A x r, (x, r).
#[global] Instance cpio_bind : MBind cpio_m := λ A B f m r, let '(a, r) := m r in f a r.

(** The loop over the digits; a [uint32_t] result drops the bits above 32.  The
    second component is the pointer behind the last digit, [None] after a
    character that is no digit; the result keeps what was stored before.
    Source: lib/cxxll/cpio_reader.cpp 57-66, read_octal. *)
Fixpoint read_octal_loop (n : nat) (result : Z) (p : bytes) : Z * option bytes :=
  match n with
  | O => (result, Some p)
  | S n =>
      match p with
      | [] => (result, None)
      | ch :: p =>
          let d := octal_digit ch in
          if d <? 0 then (result, None)
          else read_octal_loop n (Z.lor (u32 (Z.shiftl result 3)) d) p
      end
  end.

(** Source: lib/cxxll/cpio_reader.cpp 76-85, read_hex. *)
Fixpoint read_hex_loop (n : nat) (result : Z) (p : bytes) : Z * option bytes :=
  match n with
  | O => (result, Some p)
  | S n =>
      match p with
      | [] => (result, None)
      | ch :: p =>
          let d := hex_digit ch in
          if d <? 0 then (result, None)
          else read_hex_loop n (Z.lor (u32 (Z.shiftl result 4)) d) p
      end
  end.

(** [old] is the value of the field before the call, which stays when an earlier
    field was broken.
    Source: lib/cxxll/cpio_reader.cpp 49-67, read_octal. *)
Definition read_octal (N : nat) (where_ : bytes) (old : Z) : cpio_m Z := λ r,
  match rd_p r with
  | None => (old, r)
  | Some p =>
      match read_octal_loop N 0 p with
      | (v, Some p) => (v, Reader (Some p) (rd_error r))
      | (v, None) => (v, Reader None (Some where_))
      end
  end.

(** Source: lib/cxxll/cpio_reader.cpp 69-86, read_hex. *)
Definition read_hex (where_ : bytes) (old : Z) : cpio_m Z := λ r,
  match rd_p r with
  | None => (old, r)
  | Some p =>
      match read_hex_loop 8 0 p with
      | (v, Some p) => (v, Reader (Some p) (rd_error r))
      | (v, None) => (v, Reader None (Some where_))
      end
  end.

(** ** Headers *)

(** Source: lib/cxxll/cpio_reader.cpp 88-98, cpio_header_length. *)
Definition cpio_header_length (magic : bytes) : Z :=
  if bool_decide (ztake 6 magic = str "070707") then 70
  else if bool_decide (ztake 6 magic = str "070701") then 104
  else 0.

(** Source: lib/cxxll/cpio_reader.cpp 106-118, parse. *)
Definition parse_odc (e : cpio_entry) : cpio_m cpio_entry :=
  v_dev ← read_octal 6 (str "dev") (devmajor e);
  v_ino ← read_octal 6 (str "ino") (ino e);
  v_mode ← read_octal 6 (str "mode") (mode e);
  v_uid ← read_octal 6 (str "uid") (uid e);
  v_gid ← read_octal 6 (str "gid") (gid e);
  v_nlink ← read_octal 6 (str "nlink") (nlink e);
  v_rdev ← read_octal 6 (str "rdev") (rdevmajor e);
  v_mtime ← read_octal 11 (str "mtime") (mtime e);
  v_namesize ← read_octal 6 (str "namesize") (namesize e);
  v_filesize ← read_octal 11 (str "filesize") (filesize e);
  mret (CpioEntry v_dev 0 v_ino v_mode v_uid v_gid v_nlink v_rdev 0 v_mtime v_namesize v_filesize (check e)).

(** Source: lib/cxxll/cpio_reader.cpp 124-137, parse. *)
Definition parse_newc (e : cpio_entry) : cpio_m cpio_entry :=
  v_ino ← read_hex (str "ino") (ino e);
  v_mode ← read_hex (str "mode") (mode e);
  v_uid ← read_hex (str "uid") (uid e);
  v_gid ← read_hex (str "gid") (gid e);
  v_nlink ← read_hex (str "nlink") (nlink e);
  v_mtime ← read_hex (str "mtime") (mtime e);
  v_filesize ← read_hex (str "filesize") (filesize e);
  v_devmajor ← read_hex (str "devmajor") (devmajor e);
  v_devminor ← read_hex (str "devminor") (devminor e);
  v_rdevmajor ← read_hex (str "rdevmajor") (rdevmajor e);
  v_rdevminor ← read_hex (str "rdevminor") (rdevminor e);
  v_namesize ← read_hex (str "namesize") (namesize e);
  v_check ← read_hex (str "check") (check e);
  mret (CpioEntry v_devmajor v_devminor v_ino v_mode v_uid v_gid v_nlink v_rdevmajor v_rdevminor
    v_mtime v_namesize v_filesize v_check).

(** The result: the return value, the entry and [error].  The assertions compare
    the final pointer with the end of the header.
    Source: lib/cxxll/cpio_reader.cpp 101-147, parse. *)
Definition parse (buf : bytes) (len : Z) (e : cpio_entry) (error : option bytes)
    : res (bool * cpio_entry * option bytes) :=
  if len =? 70 then
    match parse_odc e (Reader (Some buf) error) with
    | (e, Reader (Some p) error) =>
        assert_ (zlen p =? zlen buf - 70);; Ok (true, e, error)
    | (e, Reader None error) => Ok (false, e, error)
    end
  else if len =? 104 then
    match parse_newc e (Reader (Some buf) error) with
    | (e, Reader (Some p) error) =>
        assert_ (zlen p =? zlen buf - 104);; Ok (true, e, error)
    | (e, Reader None error) => Ok (false, e, error)
    end
  else Ok (false, e, Some (str "magic")).

(** ** The formats, abstractly *)

(** A header is a sequence of named fields of fixed width; a field is valid when
    all its characters are digits. *)
Definition layout := list (bytes * nat).
Definition odc_layout : layout :=
  [(str "dev", 6); (str "ino", 6); (str "mode", 6); (str "uid", 6); (str "gid", 6); (str "nlink", 6);
   (str "rdev", 6); (str "mtime", 11); (str "namesize", 6); (str "filesize", 11)]%nat.
Definition newc_layout : layout :=
  (λ n, (str n, 8%nat)) <$> ["ino"; "mode"; "uid"; "gid"; "nlink"; "mtime"; "filesize"; "devmajor";
    "devminor"; "rdevmajor"; "rdevminor"; "namesize"; "check"]%string.

(** The values of the fields, or the name of the first broken one. *)
Definition digits_value (base : Z) (digit : Z → Z) (s : bytes) : Z :=
  foldl (λ acc c, base * acc + digit c) 0 s.
Fixpoint decode_fields (base : Z) (digit : Z → Z) (l : layout) (buf : bytes) : bytes + list Z :=
  match l with
  | [] => inr []
  | (name, n) :: l =>
      if forallb (λ c, 0 <=? digit c) (take n buf) then
        match decode_fields base digit l (drop n buf) with
        | inr vs => inr (digits_value base digit (take n buf) mod 2 ^ 32 :: vs)
        | inl name => inl name
        end
      else inl name
  end.
Definition odc_entry (e : cpio_entry) (vs : list Z) : option cpio_entry :=
  match vs with
  | [d; i; m; u; g; n; r; t; ns; fs] => Some (CpioEntry d 0 i m u g n r 0 t ns fs (check e))
  | _ => None
  end.
Definition newc_entry (vs : list Z) : option cpio_entry :=
  match vs with
  | [i; m; u; g; n; t; fs; d; dm; r; rm; ns; c] => Some (CpioEntry d dm i m u g n r rm t ns fs c)
  | _ => None
  end.

(** ** Lemmas *)

Lemma octal_digit_range c : -1 <= octal_digit c < 8.
Proof. unfold octal_digit. case_match; lia. Qed.
Lemma hex_digit_range c : -1 <= hex_digit c < 16.
Proof. unfold hex_digit. repeat case_match; lia. Qed.

(** The two loops are the same up to the base. *)
Fixpoint digit_loop (bits : Z) (digit : Z → Z) (n : nat) (result : Z) (p : bytes) : Z * option bytes :=
  match n with
  | O => (result, Some p)
  | S n =>
      match p with
      | [] => (result, None)
      | ch :: p =>
          if digit ch <? 0 then (result, None)
          else digit_loop bits digit n (Z.lor (u32 (Z.shiftl result bits)) (digit ch)) p
      end
  end.
Lemma read_octal_loop_eq n : ∀ r p, read_octal_loop n r p = digit_loop 3 octal_digit n r p.
Proof. induction n as [|n IH]; intros r [|c p]; simpl; try done. by rewrite IH. Qed.
Lemma read_hex_loop_eq n : ∀ r p, read_hex_loop n r p = digit_loop 4 hex_digit n r p.
Proof. induction n as [|n IH]; intros r [|c p]; simpl; try done. by rewrite IH. Qed.

(** One more digit, modulo 2^32. *)
Lemma push_digit bits r d : 0 <= bits <= 32 → 0 <= d < 2 ^ bits →
  Z.lor (u32 (Z.shiftl r bits)) d = (2 ^ bits * r + d) mod 2 ^ 32.
Proof.
  intros Hb Hd. unfold u32. change 4294967296 with (2 ^ 32).
  assert (2 ^ 32 = 2 ^ bits * 2 ^ (32 - bits)) as E by (rewrite <- Z.pow_add_r by lia; f_equal; lia).
  assert (0 < 2 ^ (32 - bits)) by (apply Z.pow_pos_nonneg; lia).
  rewrite Z.shiftl_mul_pow2, E, Z.mul_comm, Z.mul_mod_distr_l by lia.
  rewrite Z.mul_comm, <- Z.shiftl_mul_pow2, lor_shiftl_add by lia.
  apply Z.mod_unique with (r / 2 ^ (32 - bits)).
  - pose proof (Z.mod_pos_bound r (2 ^ (32 - bits)) ltac:(lia)). left. nia.
  - rewrite (Z.div_mod r (2 ^ (32 - bits))) at 1 by lia. lia.
Qed.
Lemma digits_value_mod base (digit : Z → Z) s a b : a mod 2 ^ 32 = b mod 2 ^ 32 →
  foldl (λ acc c, base * acc + digit c) a s mod 2 ^ 32 =
  foldl (λ acc c, base * acc + digit c) b s mod 2 ^ 32.
Proof.
  revert a b. induction s as [|c s IH]; intros a b H; simpl; [done|]. apply IH.
  rewrite <- (Z.add_mod_idemp_l (base * a)), <- (Z.mul_mod_idemp_r base a), H by lia.
  by rewrite Z.mul_mod_idemp_r, Z.add_mod_idemp_l by lia.
Qed.

Section loop.
Context (bits : Z) (digit : Z → Z) (Hbits : 0 <= bits <= 32).
Context (Hdigit : ∀ c, -1 <= digit c < 2 ^ bits).

Lemma digit_loop_spec n : ∀ r p, 0 <= r < 2 ^ 32 → (n <= length p)%nat →
  if forallb (λ c, 0 <=? digit c) (take n p) then
    digit_loop bits digit n r p =
      (foldl (λ acc c, 2 ^ bits * acc + digit c) r (take n p) mod 2 ^ 32, Some (drop n p))
  else ∃ v, digit_loop bits digit n r p = (v, None).
Proof.
  induction n as [|n IH]; intros r p Hr Hp.
  { cbn. rewrite Z.mod_small by done. by destruct p. }
  destruct p as [|c p]; [simpl in Hp; lia|]. cbn [take drop forallb digit_loop foldl].
  specialize (Hdigit c). destruct (Z.ltb_spec (digit c) 0).
  { rewrite (proj2 (Z.leb_gt 0 (digit c))) by lia. simpl. eauto. }
  rewrite (proj2 (Z.leb_le 0 (digit c))) by lia. cbn [andb]. rewrite push_digit by lia.
  specialize (IH ((2 ^ bits * r + digit c) mod 2 ^ 32) p
    (Z.mod_pos_bound _ (2 ^ 32) eq_refl) ltac:(simpl in Hp; lia)).
  destruct (forallb _ (take n p)); [|done]. rewrite IH. f_equal. apply digits_value_mod.
  apply Z.mod_mod. lia.
Qed.

Definition width (l : layout) : nat := list_sum (snd <$> l).

(** [f] decodes the fields of [l] and makes the result with [mk]; once the
    pointer is [NULL] it changes nothing. *)
Definition decodes (l : layout) (f : cpio_m cpio_entry) (mk : list Z → option cpio_entry) : Prop :=
  (∀ r, rd_p r = None → ∃ e, f r = (e, r)) ∧
  ∀ p err, (width l <= length p)%nat →
    match decode_fields (2 ^ bits) digit l p with
    | inl name => ∃ e, f (Reader (Some p) err) = (e, Reader None (Some name))
    | inr vs => ∃ e, mk vs = Some e ∧
        f (Reader (Some p) err) = (e, Reader (Some (drop (width l) p)) err)
    end.
Lemma decodes_nil e mk : mk [] = Some e → decodes [] (mret e) mk.
Proof. intros H. split; [by exists e|]. intros p err _. cbn. by exists e. Qed.

Definition read_field (n : nat) (where_ : bytes) (old : Z) : cpio_m Z := λ r,
  match rd_p r with
  | None => (old, r)
  | Some p =>
      match digit_loop bits digit n 0 p with
      | (v, Some p) => (v, Reader (Some p) (rd_error r))
      | (v, None) => (v, Reader None (Some where_))
      end
  end.
Lemma decodes_cons name n old l f mk (read : cpio_m Z) :
  (∀ r, read r = read_field n name old r) →
  (∀ v, decodes l (f v) (λ vs, mk (v :: vs))) →
  decodes ((name, n) :: l) (read ≫= f) mk.
Proof.
  intros Hread Hf. split.
  { intros r Hr. unfold mbind, cpio_bind. rewrite Hread. unfold read_field. rewrite Hr.
    by apply Hf. }
  change (width ((name, n) :: l)) with (n + width l)%nat. intros p err Hp. unfold mbind, cpio_bind. rewrite Hread. unfold read_field.
  cbn [rd_p rd_error decode_fields].
  pose proof (digit_loop_spec n 0 p ltac:(lia) ltac:(lia)) as H.
  destruct (forallb _ _).
  - rewrite H. fold (digits_value (2 ^ bits) digit (take n p)).
    set (v := digits_value _ _ _ mod _). destruct (Hf v) as [_ Hv].
    specialize (Hv (drop n p) err). rewrite length_drop in Hv. specialize (Hv ltac:(lia)).
    destruct (decode_fields _ _ l (drop n p)); [done|]. rewrite drop_drop in Hv. exact Hv.
  - destruct H as [v ->]. apply Hf. done.
Qed.
End loop.

Lemma parse_odc_decodes e : decodes 3 octal_digit odc_layout (parse_odc e) (odc_entry e).
Proof.
  unfold parse_odc, odc_layout.
  repeat (eapply decodes_cons; [lia|apply octal_digit_range|
    intros r; unfold read_octal, read_field; by destruct (rd_p r); rewrite ?read_octal_loop_eq|intros ?]).
  by apply decodes_nil.
Qed.
Lemma parse_newc_decodes e : decodes 4 hex_digit newc_layout (parse_newc e) newc_entry.
Proof.
  unfold parse_newc, newc_layout. cbn [fmap list_fmap].
  repeat (eapply decodes_cons; [lia|apply hex_digit_range|
    intros r; unfold read_hex, read_field; by destruct (rd_p r); rewrite ?read_hex_loop_eq|intros ?]).
  by apply decodes_nil.
Qed.

(** ** Properties *)

(** [parse] implements the two header formats: on a buffer of the length that
    [cpio_header_length] gives for the magic, it succeeds with the values of the
    fields (modulo 2^32) exactly when all the fields are made of digits, and
    otherwise returns false with [error] set to the name of the first broken
    field; the final assertions hold and any other length is a bad magic. *)
Theorem cpio_parse_spec (magic buf : bytes) (e : cpio_entry) (error : option bytes) :
  zlen buf = cpio_header_length magic →
  match cpio_header_length magic with
  | 0 => parse buf 0 e error = Ok (false, e, Some (str "magic"))
  | 70 => match decode_fields 8 octal_digit odc_layout buf with
      | inl name => ∃ e', parse buf 70 e error = Ok (false, e', Some name)
      | inr vs => ∃ e', odc_entry e vs = Some e' ∧ parse buf 70 e error = Ok (true, e', error)
      end
  | _ => cpio_header_length magic = 104 ∧
      match decode_fields 16 hex_digit newc_layout buf with
      | inl name => ∃ e', parse buf 104 e error = Ok (false, e', Some name)
      | inr vs => ∃ e', newc_entry vs = Some e' ∧ parse buf 104 e error = Ok (true, e', error)
      end
  end.
Proof.
  assert (cpio_header_length magic ∈ [70; 104; 0]) as H.
  { unfold cpio_header_length. repeat case_match; set_solver. }
  rewrite !elem_of_cons in H. destruct H as [H|[H|[H|[]%not_elem_of_nil]]]; rewrite H; intros Hlen.
  - destruct (parse_odc_decodes e) as [_ D]. specialize (D buf error ltac:(unfold zlen in Hlen; cbn; lia)).
    unfold parse. change (70 =? 70) with true. cbv iota.
    destruct (decode_fields _ _ _ _) as [name|vs]; [destruct D as [e' ->]; eauto|].
    destruct D as (e' & He' & ->). exists e'. split; [done|]. unfold assert_.
    change (width odc_layout) with 70%nat.
    assert (zlen (drop 70 buf) = zlen buf - 70) as -> by (unfold zlen in *; rewrite length_drop; lia).
    by rewrite Z.eqb_refl.
  - split; [done|]. destruct (parse_newc_decodes e) as [_ D].
    specialize (D buf error ltac:(unfold zlen in Hlen; cbn; lia)).
    unfold parse. change (104 =? 70) with false. change (104 =? 104) with true. cbv iota.
    destruct (decode_fields _ _ _ _) as [name|vs]; [destruct D as [e' ->]; eauto|].
    destruct D as (e' & He' & ->). exists e'. split; [done|]. unfold assert_.
    change (width newc_layout) with 104%nat.
    assert (zlen (drop 104 buf) = zlen buf - 104) as -> by (unfold zlen in *; rewrite length_drop; lia).
    by rewrite Z.eqb_refl.
  - done.
Qed.

Definition sample_newc : bytes := str "0000000b000081A4000000000000000000000001519dc7100000000c00000008000000020000000000000000000000080000000z".
Example cpio_parse_spec_witness :
  ∃ e', parse sample_newc 104 (CpioEntry 0 0 0 0 0 0 0 0 0 0 0 0 0) None = Ok (false, e', Some (str "check")).
Proof. exact (proj2 (cpio_parse_spec (str "070701") sample_newc (CpioEntry 0 0 0 0 0 0 0 0 0 0 0 0 0) None eq_refl)). Defined.
