(* ===== verification/SourceSink.v ===== *)
(** * Byte sources and sinks (source, sink, and their implementations)

    The abstract base classes are type classes: the operations, and a class with
    the contract the implementations promise.  Helper functions are proved
    against the contract, and each implementation is shown to satisfy it. *)

From S2P Require Import Prelude.

(** ** The interfaces *)

(** [read (buf, len)]: the bytes stored at the start of [buf] and the new state
    of the object, which is kept when an exception is thrown.
    Source: include/cxxll/source.hpp 25-31, source. *)
Class SourceOps (S : Type) := source_read : S → Z → res bytes * S.

(** Source: include/cxxll/sink.hpp 25-28, sink. *)
Class SinkOps (T : Type) := sink_write : T → bytes → res unit * T.

(** A source that does not fail delivers its remaining bytes in order, in pieces
    of the source's own choice; nothing only at the end of the stream. *)
Class Source (S : Type) `{SourceOps S} := {
  source_inv : S → Prop;
  remaining : S → bytes;
  source_read_spec s len : source_inv s → 0 < len →
    ∃ p s', source_read s len = (Ok p, s') ∧ remaining s = p ++ remaining s' ∧ zlen p <= len ∧
      (p = [] → remaining s = []) ∧ source_inv s'
}.

(** A sink that does not fail appends to what it has received. *)
Class Sink (T : Type) `{SinkOps T} := {
  received : T → bytes;
  sink_write_spec t buf : ∃ t', sink_write t buf = (Ok tt, t') ∧ received t' = received t ++ buf
}.

(** ** Helper functions *)

Section helpers.
Context {S T : Type} `{SourceOps S} `{SinkOps T}.

(** [None] when the fuel is used up.
    Source: lib/cxxll/source_sink.cpp 30-41, copy_source_to_sink. *)
Fixpoint copy_loop (fuel : nat) (src : S) (dst : T) (count : Z) : option (res Z * S * T) :=
  match fuel with
  | O => None
  | Datatypes.S fuel =>
      match source_read src 8192 with
      | (Throw e, src) => Some (Throw e, src, dst)
      | (Ok buf, src) =>
          if negb (zlen buf <=? 8192) then Some (Throw assertion_failure, src, dst)
          else if zlen buf =? 0 then Some (Ok count, src, dst)
          else
            match sink_write dst buf with
            | (Throw e, dst) => Some (Throw e, src, dst)
            | (Ok _, dst) => copy_loop fuel src dst (u64 (count + zlen buf))
            end
      end
  end.

(** Source: lib/cxxll/source_sink.cpp 27-42, copy_source_to_sink. *)
Definition copy_source_to_sink (fuel : nat) (src : S) (dst : T) : option (res Z * S * T) :=
  copy_loop fuel src dst 0.

(** [buf] is what has been read so far; each round reads at least one byte, so
    [count] rounds are enough.
    Source: lib/cxxll/source.cpp 31-38, read_exactly. *)
Fixpoint read_exactly_loop (fuel : nat) (src : S) (count : Z) (buf : bytes) : res bytes * S :=
  if count - zlen buf =? 0 then (Ok buf, src)
  else
    match fuel with
    | O => (Ok buf, src)
    | Datatypes.S fuel =>
        match source_read src (count - zlen buf) with
        | (Throw e, src) => (Throw e, src)
        | (Ok p, src) =>
            if zlen p =? 0 then (Throw eof_exception, src)
            else read_exactly_loop fuel src count (buf ++ p)
        end
    end.

(** Source: lib/cxxll/source.cpp 28-39, read_exactly. *)
Definition read_exactly (src : S) (count : Z) : res bytes * S :=
  read_exactly_loop (Z.to_nat count) src count [].
End helpers.

(** ** Sources in memory *)

(** The bytes from [p] to [end].
    Source: include/cxxll/memory_range_source.hpp 25-33, memory_range_source. *)
Record memory_range_source := MemoryRangeSource { mrs_rest : bytes }.

(** Source: lib/cxxll/memory_range_source.cpp 26-30, memory_range_source::memory_range_source. *)
Definition memory_range_source_new (start : bytes) (length : Z) : memory_range_source :=
  MemoryRangeSource (ztake length start).

(** Source: lib/cxxll/memory_range_source.cpp 36-43, memory_range_source::read. *)
#[export] Instance memory_range_source_read : SourceOps memory_range_source := λ s length,
  let to_copy := Z.min length (zlen (mrs_rest s)) in
  (Ok (ztake to_copy (mrs_rest s)), MemoryRangeSource (zdrop to_copy (mrs_rest s))).

(** Source: include/cxxll/string_source.hpp 28-36, string_source. *)
Record string_source := StringSource { ss_source : bytes; ss_position : Z }.

(** Source: lib/cxxll/string_source.cpp 25-28, string_source::string_source. *)
Definition string_source_new (src : bytes) : string_source := StringSource src 0.

(** Source: lib/cxxll/string_source.cpp 34-44, string_source::read. *)
#[export] Instance string_source_read : SourceOps string_source := λ s len,
  if zlen (ss_source s) <=? ss_position s then (Ok [], s)
  else
    let to_copy := Z.min len (zlen (ss_source s) - ss_position s) in
    (Ok (ztake to_copy (zdrop (ss_position s) (ss_source s))),
     StringSource (ss_source s) (ss_position s + to_copy)).

(** Source: include/cxxll/vector_source.hpp 28-36, vector_source. *)
Record vector_source := VectorSource { vs_source : bytes; vs_position : Z }.

(** Source: lib/cxxll/vector_source.cpp 25-28, vector_source::vector_source. *)
Definition vector_source_new (src : bytes) : vector_source := VectorSource src 0.

(** Source: lib/cxxll/vector_source.cpp 34-44, vector_source::read. *)
#[export] Instance vector_source_read : SourceOps vector_source := λ s len,
  if zlen (vs_source s) <=? vs_position s then (Ok [], s)
  else
    let to_copy := Z.min len (zlen (vs_source s) - vs_position s) in
    (Ok (ztake to_copy (zdrop (vs_position s) (vs_source s))),
     VectorSource (vs_source s) (vs_position s + to_copy)).

(** ** Sinks in memory *)

(** Source: include/cxxll/string_sink.hpp 27-32, string_sink. *)
Record string_sink := StringSink { string_sink_data : bytes }.
(** Source: lib/cxxll/string_sink.cpp 31-35, string_sink::write. *)
#[export] Instance string_sink_write : SinkOps string_sink := λ s buf,
  (Ok tt, StringSink (string_sink_data s ++ buf)).

(** Source: include/cxxll/vector_sink.hpp 27-32, vector_sink. *)
Record vector_sink := VectorSink { vector_sink_data : bytes }.
(** Source: lib/cxxll/vector_sink.cpp 31-35, vector_sink::write. *)
#[export] Instance vector_sink_write : SinkOps vector_sink := λ s buf,
  (Ok tt, VectorSink (vector_sink_data s ++ buf)).

(** The two sinks are different objects.
    Source: include/cxxll/tee_sink.hpp 27-33, tee_sink. *)
Record tee_sink (L R : Type) := TeeSink { left : L; right : R }.
Arguments TeeSink {L R}. Arguments left {L R}. Arguments right {L R}.
(** Source: lib/cxxll/tee_sink.cpp 32-37, tee_sink::write. *)
#[export] Instance tee_sink_write {L R} `{SinkOps L} `{SinkOps R} : SinkOps (tee_sink L R) := λ s buf,
  match sink_write (left s) buf with
  | (Throw e, l) => (Throw e, TeeSink l (right s))
  | (Ok _, l) =>
      let '(r, rr) := sink_write (right s) buf in (r, TeeSink l rr)
  end.

(** ** File descriptors

    The kernel is a state with the two system calls; a negative result comes
    with an error number. *)

Record kernel (K : Type) := Kernel {
  sys_read : K → Z → Z → (Z * bytes) * K;
  sys_write : K → Z → bytes → Z * K;
  sys_errno : K → Z
}.
Arguments sys_read {K}. Arguments sys_write {K}. Arguments sys_errno {K}.

Definition ENOSPC : Z := 28.

Section fd.
Context {K : Type} (os : kernel K).

(** Source: lib/cxxll/fd_source.cpp 41-49, fd_source::read. *)
Definition fd_source_read (raw : Z) (k : K) (len : Z) : res bytes * K :=
  let '((ret, buf), k) := sys_read os k raw len in
  if ret <? 0 then (Throw (os_exception (sys_errno os k)), k)
  else (Ok (ztake ret buf), k).

(** Every successful round writes at least one byte: the length of the buffer
    is enough fuel.
    Source: lib/cxxll/fd_sink.cpp 45-56, fd_sink::write. *)
Fixpoint fd_sink_write_loop (fuel : nat) (raw : Z) (k : K) (buf : bytes) : res unit * K :=
  match buf, fuel with
  | [], _ => (Ok tt, k)
  | _, O => (Ok tt, k)
  | _, Datatypes.S fuel =>
      let '(ret, k) := sys_write os k raw buf in
      if ret =? 0 then (Throw (os_exception ENOSPC), k)
      else if ret <? 0 then (Throw (os_exception (sys_errno os k)), k)
      else fd_sink_write_loop fuel raw k (zdrop ret buf)
  end.

(** Source: lib/cxxll/fd_sink.cpp 41-57, fd_sink::write. *)
Definition fd_sink_write (raw : Z) (k : K) (buf : bytes) : res unit * K :=
  fd_sink_write_loop (length buf) raw k buf.

(** [read_file]: the data read before an error stays in [target].
    Source: lib/cxxll/read_file.cpp 25-40, read_file. *)
Definition read_file (open_read_only : K → bytes → res Z * K) (fuel : nat) (path : bytes)
    (k : K) (target : bytes) : option (res unit * bytes * K) :=
  match open_read_only k path with
  | (Throw e, k) => Some (Throw e, target, k)
  | (Ok fd, k) =>
      let ops : SourceOps K := λ k len, fd_source_read fd k len in
      match @copy_source_to_sink K vector_sink ops _ fuel k (VectorSink target) with
      | None => None
      | Some (Throw e, k, sink) => Some (Throw e, vector_sink_data sink, k)
      | Some (Ok _, k, sink) => Some (Ok tt, vector_sink_data sink, k)
      end
  end.
End fd.

(** ** Lemmas *)

Lemma ztake_nil_inv {A} n (l : list A) : 0 < n → ztake n l = [] → l = [].
Proof. unfold ztake. intros Hn H. destruct l; [done|]. by destruct (Z.to_nat n) eqn:E; [lia|]. Qed.

(** The implementations satisfy the contracts. *)
#[export] Program Instance memory_range_source_ok : Source memory_range_source :=
  {| source_inv _ := True; remaining := mrs_rest |}.
Next Obligation.
  intros [rest] len _ Hlen. eexists _, _. split; [reflexivity|]. simpl. pose proof (zlen_nonneg rest).
  split_and!; [by rewrite ztake_zdrop_id|rewrite zlen_ztake_le; lia| |done].
  intros E. destruct rest as [|b rest]; [done|]. apply ztake_nil_inv in E; [done|].
  rewrite zlen_cons. pose proof (zlen_nonneg rest). lia.
Qed.

(** Reading from a position, which both array sources do. *)
Lemma position_read (src : bytes) pos len : 0 < len → pos < zlen src → 0 <= pos →
  let n := Z.min len (zlen src - pos) in
  zdrop pos src = ztake n (zdrop pos src) ++ zdrop (pos + n) src ∧
  zlen (ztake n (zdrop pos src)) <= len ∧ (ztake n (zdrop pos src) = [] → zdrop pos src = []) ∧
  0 <= pos + n.
Proof.
  intros Hlen Hp H0 n. split_and!; [| |intros E; apply ztake_nil_inv in E; [done|lia]|lia].
  - rewrite <- zdrop_zdrop by lia. by rewrite ztake_zdrop_id.
  - rewrite zlen_ztake_le; [lia|]. rewrite zlen_zdrop_le by lia. lia.
Qed.
#[export] Program Instance string_source_ok : Source string_source :=
  {| source_inv s := 0 <= ss_position s; remaining s := zdrop (ss_position s) (ss_source s) |}.
Next Obligation.
  intros [src pos] len; simpl; intros Hinv Hlen. unfold source_read, string_source_read. simpl.
  destruct (Z.leb_spec (zlen src) pos).
  - exists [], (StringSource src pos). simpl. rewrite zdrop_past, zlen_nil by done. split_and!; (done || lia).
  - eexists _, _. split; [reflexivity|]. by apply position_read.
Qed.
#[export] Program Instance vector_source_ok : Source vector_source :=
  {| source_inv s := 0 <= vs_position s; remaining s := zdrop (vs_position s) (vs_source s) |}.
Next Obligation.
  intros [src pos] len; simpl; intros Hinv Hlen. unfold source_read, vector_source_read. simpl.
  destruct (Z.leb_spec (zlen src) pos).
  - exists [], (VectorSource src pos). simpl. rewrite zdrop_past, zlen_nil by done. split_and!; (done || lia).
  - eexists _, _. split; [reflexivity|]. by apply position_read.
Qed.

#[export] Program Instance string_sink_ok : Sink string_sink := {| received := string_sink_data |}.
Next Obligation. intros t buf. by eexists. Qed.
#[export] Program Instance vector_sink_ok : Sink vector_sink := {| received := vector_sink_data |}.
Next Obligation. intros t buf. by eexists. Qed.
(** Both sides of a tee receive the same, so one of them describes it; that the
    other one agrees is [tee_sink_right]. *)
#[export] Program Instance tee_sink_ok {L R} `{Sink L} `{Sink R} : Sink (tee_sink L R) :=
  {| received t := received (left t) |}.
Next Obligation.
  intros L R oL sL oR sR [l r] buf. unfold sink_write, tee_sink_write. simpl.
  destruct (sink_write_spec l buf) as (l' & -> & Hl). destruct (sink_write_spec r buf) as (r' & -> & Hr).
  by eexists.
Qed.
Lemma tee_sink_right {L R} `{Sink L} `{Sink R} (t : tee_sink L R) buf :
  ∃ t', sink_write t buf = (Ok tt, t') ∧ received (right t') = received (right t) ++ buf.
Proof.
  destruct t as [l r]. unfold sink_write, tee_sink_write. simpl.
  destruct (sink_write_spec l buf) as (l' & -> & Hl). destruct (sink_write_spec r buf) as (r' & -> & Hr).
  by eexists.
Qed.

Section helper_specs.
Context {S T : Type} `{Source S} `{Sink T}.

Lemma copy_loop_spec fuel : ∀ (src : S) (dst : T) count, source_inv src → 0 <= count →
  count + zlen (remaining src) < 2 ^ 64 → zlen (remaining src) < Z.of_nat fuel →
  ∃ src' dst', copy_loop fuel src dst count = Some (Ok (count + zlen (remaining src)), src', dst') ∧
    remaining src' = [] ∧ received dst' = received dst ++ remaining src.
Proof.
  induction fuel as [|fuel IH]; intros src dst count Hinv Hc Hmax Hfuel; [pose proof (zlen_nonneg (remaining src)); lia|].
  destruct (source_read_spec src 8192 Hinv eq_refl) as (p & src' & E & Hr & Hlen & Hnil & Hinv').
  cbn [copy_loop]. rewrite E, (proj2 (Z.leb_le (zlen p) 8192)) by done. cbn [negb].
  destruct (Z.eqb_spec (zlen p) 0) as [Hp|Hp].
  - apply zlen_0_nil in Hp. subst p. specialize (Hnil eq_refl). rewrite Hnil in *.
    exists src', dst. split_and!; [by rewrite zlen_nil, Z.add_0_r|done|by rewrite app_nil_r].
  - destruct (sink_write_spec dst p) as (dst' & -> & Hd). pose proof (zlen_nonneg p).
    pose proof (zlen_nonneg (remaining src')). rewrite Hr, zlen_app in *.
    assert (u64 (count + zlen p) = count + zlen p) as ->.
    { apply Z.mod_small. lia. }
    destruct (IH src' dst' (count + zlen p)) as (src'' & dst'' & -> & H1' & H2'); [done|lia..|].
    exists src'', dst''. split_and!; [by rewrite Z.add_assoc|done|]. by rewrite H2', Hd, app_assoc.
Qed.

Lemma read_exactly_loop_spec fuel : ∀ (src : S) count buf, source_inv src →
  zlen buf <= count → count - zlen buf <= Z.of_nat fuel →
  match read_exactly_loop fuel src count buf with
  | (Ok r, src') => ∃ p, r = buf ++ p ∧ zlen r = count ∧ remaining src = p ++ remaining src' ∧ source_inv src'
  | (Throw e, src') => e = eof_exception ∧ remaining src' = [] ∧ zlen (buf ++ remaining src) < count
  end.
Proof.
  induction fuel as [|fuel IH]; intros src count buf Hinv Hle Hfuel; cbn [read_exactly_loop].
  { destruct (Z.eqb_spec (count - zlen buf) 0); [|lia]. exists []. rewrite app_nil_r. split_and!; [done|lia|done|done]. }
  destruct (Z.eqb_spec (count - zlen buf) 0).
  { exists []. rewrite app_nil_r. split_and!; [done|lia|done|done]. }
  destruct (source_read_spec src (count - zlen buf) Hinv ltac:(lia)) as (p & src' & -> & Hr & Hlen & Hnil & Hinv').
  destruct (Z.eqb_spec (zlen p) 0) as [Hp|Hp].
  - apply zlen_0_nil in Hp. subst p. rewrite Hnil in Hr |- * by done. rewrite app_nil_r.
    split_and!; [done|by destruct (remaining src')|lia].
  - pose proof (zlen_nonneg p). specialize (IH src' count (buf ++ p) Hinv').
    rewrite zlen_app in IH. specialize (IH ltac:(lia) ltac:(lia)).
    destruct (read_exactly_loop fuel src' count (buf ++ p)) as [[r|e] src''].
    + destruct IH as (q & -> & Hl & Hq & Hi). exists (p ++ q). rewrite !app_assoc. split_and!; [done|done| |done].
      by rewrite Hr, Hq, app_assoc.
    + rewrite Hr, app_assoc. done.
Qed.

(** Reading what is known to come next. *)
Lemma read_exactly_next (src : S) p rest : source_inv src → remaining src = p ++ rest →
  ∃ src', read_exactly src (zlen p) = (Ok p, src') ∧ remaining src' = rest ∧ source_inv src'.
Proof.
  intros Hinv Hr. unfold read_exactly.
  pose proof (read_exactly_loop_spec (Z.to_nat (zlen p)) src (zlen p) [] Hinv (zlen_nonneg p) ltac:(rewrite zlen_nil; lia)) as Hs.
  destruct (read_exactly_loop _ src (zlen p) []) as [[r|e] src'].
  - destruct Hs as (q & -> & Hl & Hq & Hi). cbn [app] in *. rewrite Hr in Hq. exists src'.
    apply app_inj_1 in Hq as [<- <-]; [done|]. unfold zlen in Hl. lia.
  - exfalso. destruct Hs as (_ & _ & Hl). cbn [app] in Hl. rewrite Hr, zlen_app in Hl. pose proof (zlen_nonneg rest). lia.
Qed.
End helper_specs.

(** ** Properties *)

(** Against the contracts of sources and sinks, [copy_source_to_sink]
    terminates and moves the whole rest of the stream: afterwards the source is
    at its end, the sink has received exactly the remaining bytes in order,
    however they were cut into reads, and their number is returned. *)
Theorem copy_source_to_sink_spec {S T : Type} `{Source S} `{Sink T} (src : S) (dst : T) (fuel : nat) :
  source_inv src → zlen (remaining src) < 2 ^ 64 → zlen (remaining src) < Z.of_nat fuel →
  ∃ src' dst', copy_source_to_sink fuel src dst = Some (Ok (zlen (remaining src)), src', dst') ∧
    remaining src' = [] ∧ received dst' = received dst ++ remaining src.
Proof. intros Hinv Hmax Hfuel. by apply (copy_loop_spec fuel src dst 0 Hinv). Qed.

Example copy_source_to_sink_spec_witness :
  ∃ src' dst', copy_source_to_sink 9 (string_source_new (str "abcdef"))
      (TeeSink (StringSink (str "x")) (VectorSink [])) = Some (Ok 6, src', dst') ∧
    remaining src' = [] ∧ received dst' = str "xabcdef".
Proof.
  exact (copy_source_to_sink_spec (string_source_new (str "abcdef"))
    (TeeSink (StringSink (str "x")) (VectorSink [])) 9 (Z.le_refl 0) eq_refl eq_refl).
Defined.

(** Against the contract of sources, [read_exactly] returns exactly the next
    [count] bytes however the source cuts them up, and it throws [eof_exception]
    exactly when fewer than [count] bytes remain. *)
Theorem read_exactly_spec {S : Type} `{Source S} (src : S) (count : Z) :
  source_inv src → 0 <= count →
  if count <=? zlen (remaining src) then
    ∃ src', read_exactly src count = (Ok (ztake count (remaining src)), src') ∧
      remaining src' = zdrop count (remaining src)
  else ∃ src', read_exactly src count = (Throw eof_exception, src') ∧ remaining src' = [].
Proof.
  intros Hinv Hc. unfold read_exactly.
  pose proof (read_exactly_loop_spec (Z.to_nat count) src count [] Hinv Hc ltac:(rewrite zlen_nil; lia)) as Hs.
  destruct (read_exactly_loop _ src count []) as [[r|e] src'].
  - destruct Hs as (p & -> & Hl & Hr & _). cbn [app] in *. rewrite Hr, zlen_app in *.
    pose proof (zlen_nonneg (remaining src')). destruct (Z.leb_spec count (zlen p + zlen (remaining src'))); [|lia].
    exists src'. rewrite <- Hl. unfold ztake, zdrop. rewrite to_nat_zlen, take_app_length, drop_app_length. done.
  - destruct Hs as (-> & Hr & Hl). cbn [app] in Hl.
    destruct (Z.leb_spec count (zlen (remaining src))); [lia|]. by exists src'.
Qed.

Example read_exactly_spec_witness :
  ∃ src', read_exactly (vector_source_new (str "abcdef")) 4 = (Ok (str "abcd"), src') ∧
    remaining src' = str "ef".
Proof. exact (read_exactly_spec (vector_source_new (str "abcdef")) 4 (Z.le_refl 0) ltac:(lia)). Defined.

(** What a file descriptor open for writing does: a successful [write] takes a
    prefix of the buffer, a failed one nothing. *)
Definition write_law {K} (os : kernel K) (raw : Z) (file : K → bytes) : Prop :=
  ∀ k buf ret k', sys_write os k raw buf = (ret, k') →
    ret <= zlen buf ∧ file k' = file k ++ ztake ret buf.

Lemma ztake_nonpos {A} n (l : list A) : n <= 0 → ztake n l = [].
Proof. intros H. unfold ztake. by replace (Z.to_nat n) with O by lia. Qed.

Lemma fd_sink_write_loop_spec {K} (os : kernel K) raw file fuel : write_law os raw file →
  ∀ k buf, (length buf <= fuel)%nat →
  match fd_sink_write_loop os fuel raw k buf with
  | (Ok _, k') => file k' = file k ++ buf
  | (Throw e, k') => (∃ p q, buf = p ++ q ∧ q ≠ [] ∧ file k' = file k ++ p) ∧
      (e = os_exception ENOSPC ∨ e = os_exception (sys_errno os k'))
  end.
Proof.
  intros Hlaw. induction fuel as [|fuel IH]; intros k [|b buf] Hlen; cbn [fd_sink_write_loop];
    try (by rewrite app_nil_r); [simpl in Hlen; lia|].
  destruct (sys_write os k raw (b :: buf)) as [ret k'] eqn:E. apply Hlaw in E as [Hret Hfile].
  destruct (Z.eqb_spec ret 0); [|destruct (Z.ltb_spec ret 0)].
  1,2: split; [|auto]; exists [], (b :: buf); rewrite ztake_nonpos in Hfile by lia; by split_and!.
  specialize (IH k' (zdrop ret (b :: buf))).
  destruct (fd_sink_write_loop os fuel raw k' (zdrop ret (b :: buf))) as [[u|e] k''].
  - rewrite IH, Hfile, <- app_assoc, ztake_zdrop_id; [done|]. unfold zdrop. rewrite length_drop.
    simpl in *. lia.
  - destruct IH as [(p & q & Hpq & Hq & Hf) He]; [unfold zdrop; rewrite length_drop; simpl in *; lia|].
    split; [|done]. exists (ztake ret (b :: buf) ++ p), q. rewrite <- app_assoc, <- Hpq, ztake_zdrop_id.
    split_and!; [done|done|]. by rewrite Hf, Hfile, app_assoc.
Qed.

(** [fd_sink::write] never loses data silently: when it returns, the whole
    buffer has been written in order, across any number of short writes; when it
    throws, it throws [os_exception] (with [ENOSPC] for a write of nothing) and
    a proper prefix of the buffer has been written. *)
Theorem fd_sink_write_spec {K} (os : kernel K) (raw : Z) (file : K → bytes) (k : K) (buf : bytes) :
  write_law os raw file →
  match fd_sink_write os raw k buf with
  | (Ok _, k') => file k' = file k ++ buf
  | (Throw e, k') => (∃ p q, buf = p ++ q ∧ q ≠ [] ∧ file k' = file k ++ p) ∧
      (e = os_exception ENOSPC ∨ e = os_exception (sys_errno os k'))
  end.
Proof. intros Hlaw. by apply fd_sink_write_loop_spec. Qed.

(** A kernel that writes two bytes at a time into a device of limited size. *)
Definition small_device : kernel (bytes * Z) :=
  Kernel _ (λ k _ _, ((0, []), k))
    (λ k _ buf, let n := Z.max 0 (Z.min (Z.min 2 (zlen buf)) (snd k)) in
       (n, (fst k ++ ztake n buf, snd k - n))) (λ _, 5).
Example fd_sink_write_spec_witness :
  fst (snd (fd_sink_write small_device 3 ([], 9) (str "abcde"))) = str "abcde" ∧
  fst (fd_sink_write small_device 3 ([], 3) (str "abcde")) = Throw (os_exception ENOSPC).
Proof.
  split; [|reflexivity].
  apply (fd_sink_write_spec small_device 3 fst ([], 9) (str "abcde")).
  intros k b ret k' [= <- <-]. split; [|done]. pose proof (zlen_nonneg b). lia.
Defined.
