(* ===== verification/Hash.v ===== *)
(** * Digests and checksums (lib/cxxll/hash.cpp, lib/cxxll/checksum.cpp)

    The digests themselves are computed by NSS, which is a parameter: a state of
    digest contexts with the calls the code makes. *)

From S2P Require Import Prelude Base16 SourceSink.

(** ** Hash types *)

(** Source: include/cxxll/hash.hpp 39-43, hash_sink::type. *)
Inductive hash_type := md5 | sha1 | sha256.
#[global] Instance hash_type_eq_dec : EqDecision hash_type.
Proof. solve_decision. Defined.

(** The digest length chosen in the constructor.
    Source: lib/cxxll/hash.cpp 45-60, hash_sink::impl::impl. *)
Definition digest_length (t : hash_type) : Z :=
  match t with md5 => 16 | sha1 => 20 | sha256 => 32 end.

(** Source: lib/cxxll/hash.cpp 115-128, hash_sink::from_string. *)
Definition from_string (s : bytes) : res hash_type :=
  if bool_decide (s = str "md5") then Ok md5
  else if bool_decide (s = str "sha1") || bool_decide (s = str "sha") then Ok sha1
  else if bool_decide (s = str "sha256") then Ok sha256
  else Throw (runtime_error (str "unknown hash type: " ++ s)).

(** Source: lib/cxxll/hash.cpp 130-143, hash_sink::to_string. *)
Definition to_string (h : hash_type) : bytes :=
  match h with md5 => str "md5" | sha1 => str "sha1" | sha256 => str "sha256" end.

(** ** The sink *)

(** [PK11_CreateDigestContext], [PK11_DigestBegin], [PK11_DigestOp] and
    [PK11_DigestFinal] (with the size of the output buffer); [None] is a failure. *)
Record nss (C : Type) := NSS {
  pk11_create : hash_type → option C;
  pk11_begin : C → option C;
  pk11_op : C → bytes → option C;
  pk11_final : C → Z → option bytes
}.
Arguments pk11_create {C}. Arguments pk11_begin {C}. Arguments pk11_op {C}. Arguments pk11_final {C}.

(** Source: lib/cxxll/hash.cpp 36-39, hash_sink::impl. *)
Record hash_sink (C : Type) := HashSink { hs_raw : C; hs_digest_length : Z; hs_octets : Z }.
Arguments HashSink {C}. Arguments hs_raw {C}. Arguments hs_digest_length {C}. Arguments hs_octets {C}.

(** ** Checksums *)

(** Source: include/cxxll/checksum.hpp 28-43, checksum. *)
Record checksum := Checksum { csum_value : bytes; csum_length : Z; csum_type : hash_type }.

Definition no_length : Z := 18446744073709551615.

(** Source: lib/cxxll/checksum.cpp 26-29, checksum::checksum. *)
Definition checksum_new : checksum := Checksum [] no_length sha256.

(** The new value of the object, or the exception; the fields are only assigned
    after both steps that can throw.  The arguments are C strings.
    Source: lib/cxxll/checksum.cpp 51-62, checksum::set_hexadecimal. *)
Definition set_hexadecimal (c : checksum) (typ : bytes) (len : Z) (checksum_ : bytes) : res unit * checksum :=
  match base16_decode_res (until_nul checksum_) with
  | Throw e => (Throw e, c)
  | Ok v =>
      match from_string (until_nul typ) with
      | Throw e => (Throw e, c)
      | Ok t => (Ok tt, Checksum v len t)
      end
  end.

Definition INT_MAX_half : Z := INT_MAX / 2.

Section sink.
Context {C : Type} (N : nss C).

(** Source: lib/cxxll/hash.cpp 41-79, hash_sink::hash_sink. *)
Definition hash_sink_new (t : hash_type) : res (hash_sink C) :=
  match pk11_create N t with
  | None => Throw (runtime_error (str "PK11_CreateDigestContext"))
  | Some c =>
      match pk11_begin N c with
      | None => Throw (runtime_error (str "PK11_DigestBegin"))
      | Some c => Ok (HashSink c (digest_length t) 0)
      end
  end.

(** NSS takes [int] lengths, so the data is cut up.  Each round consumes at
    least one byte: the length of the data is enough fuel.
    Source: lib/cxxll/hash.cpp 88-95, hash_sink::write. *)
Fixpoint hash_write_loop (fuel : nat) (h : hash_sink C) (buf : bytes) : res unit * hash_sink C :=
  match buf, fuel with
  | [], _ => (Ok tt, h)
  | _, O => (Ok tt, h)
  | _, S fuel =>
      let to_hash := Z.min (zlen buf) INT_MAX_half in
      match pk11_op N (hs_raw h) (ztake to_hash buf) with
      | None => (Throw (runtime_error (str "PK11_DigestOp")), h)
      | Some c =>
          hash_write_loop fuel (HashSink c (hs_digest_length h) (u64 (hs_octets h + to_hash)))
            (zdrop to_hash buf)
      end
  end.

(** Source: lib/cxxll/hash.cpp 85-96, hash_sink::write. *)
#[export] Instance hash_sink_write : SinkOps (hash_sink C) := λ h buf, hash_write_loop (length buf) h buf.

(** Source: lib/cxxll/hash.cpp 98-107, hash_sink::digest. *)
Definition hash_digest (h : hash_sink C) : res bytes :=
  match pk11_final N (hs_raw h) (hs_digest_length h) with
  | None => Throw (runtime_error (str "PK11_DigestFinal"))
  | Some d => assert_ (zlen d =? hs_digest_length h);; Ok d
  end.

(** Source: lib/cxxll/hash.cpp 109-113, hash_sink::octets. *)
Definition octets (h : hash_sink C) : Z := hs_octets h.

(** Source: lib/cxxll/hash.cpp 147-155, hash. *)
Definition hash (t : hash_type) (data : bytes) : res bytes :=
  sink ← hash_sink_new t;
  match sink_write sink data with
  | (Throw e, _) => Throw e
  | (Ok _, sink) => hash_digest sink
  end.

(** The loop over an open file; [None] when the fuel is used up.
    Source: lib/cxxll/hash.cpp 184-191, hash_file. *)
Fixpoint hash_file_loop {F} `{SourceOps F} (fuel : nat) (fd : F) (sink : hash_sink C)
    : option (res (hash_sink C)) :=
  match fuel with
  | O => None
  | S fuel =>
      match source_read fd 8192 with
      | (Throw e, _) => Some (Throw e)
      | (Ok buf, fd) =>
          if zlen buf =? 0 then Some (Ok sink)
          else
            match sink_write sink buf with
            | (Throw e, _) => Some (Throw e)
            | (Ok _, sink) => hash_file_loop fuel fd sink
            end
      end
  end.

(** [open] is the result of opening the file.
    Source: lib/cxxll/hash.cpp 158-175, hash_file. *)
Definition hash_file {F} `{SourceOps F} (fuel : nat) (t : hash_type) (open : res F) : option (res bytes) :=
  match hash_sink_new t, open with
  | Throw e, _ => Some (Throw e)
  | Ok _, Throw e => Some (Throw e)
  | Ok sink, Ok fd =>
      match hash_file_loop fuel fd sink with
      | None => None
      | Some r => Some (sink ← r; hash_digest sink)
      end
  end.

(** Source: lib/cxxll/hash.cpp 177-195, hash_file. *)
Definition hash_file_checksum {F} `{SourceOps F} (fuel : nat) (t : hash_type) (open : res F)
    : option (res checksum) :=
  match hash_sink_new t, open with
  | Throw e, _ => Some (Throw e)
  | Ok _, Throw e => Some (Throw e)
  | Ok sink, Ok fd =>
      match hash_file_loop fuel fd sink with
      | None => None
      | Some r => Some (sink ← r; d ← hash_digest sink; Ok (Checksum d (octets sink) t))
      end
  end.
End sink.

(** ** What NSS computes *)

(** The contexts of a working NSS compute the digest [H] of the bytes given to
    them so far, whatever the calls they came in. *)
Record nss_ok {C} (N : nss C) (H : hash_type → bytes → bytes) (absorbed : C → hash_type * bytes) : Prop := {
  nss_create t : ∃ c, pk11_create N t = Some c ∧ absorbed c = (t, []);
  nss_begin c : ∃ c', pk11_begin N c = Some c' ∧ absorbed c' = absorbed c;
  nss_op c s : ∃ c', pk11_op N c s = Some c' ∧ absorbed c' = ((absorbed c).1, (absorbed c).2 ++ s);
  nss_final c n : zlen (H (absorbed c).1 (absorbed c).2) <= n →
    pk11_final N c n = Some (H (absorbed c).1 (absorbed c).2);
  nss_length t s : zlen (H t s) = digest_length t
}.

Section specs.
Context {C : Type} (N : nss C) (H : hash_type → bytes → bytes) (absorbed : C → hash_type * bytes).
Context (Hnss : nss_ok N H absorbed).

(** What a sink holds after the bytes [s]. *)
Definition sink_holds (h : hash_sink C) (t : hash_type) (s : bytes) : Prop :=
  absorbed (hs_raw h) = (t, s) ∧ hs_digest_length h = digest_length t ∧ hs_octets h = u64 (zlen s).

Lemma hash_sink_new_holds t : ∃ h, hash_sink_new N t = Ok h ∧ sink_holds h t [].
Proof using Hnss.
  unfold hash_sink_new. destruct (nss_create N H absorbed Hnss t) as (c & -> & Hc).
  destruct (nss_begin N H absorbed Hnss c) as (c' & -> & Hc'). eexists. split; [done|].
  unfold sink_holds. simpl. by rewrite Hc', Hc.
Qed.
Lemma hash_write_loop_holds fuel : ∀ h t s buf, (length buf <= fuel)%nat → sink_holds h t s →
  ∃ h', hash_write_loop N fuel h buf = (Ok tt, h') ∧ sink_holds h' t (s ++ buf).
Proof using Hnss.
  induction fuel as [|fuel IH]; intros h t s buf Hlen (H1 & H2 & H3).
  { destruct buf; [|simpl in Hlen; lia]. exists h. rewrite app_nil_r. by split. }
  destruct buf as [|b buf]; [exists h; rewrite app_nil_r; by split|]. cbn [hash_write_loop].
  set (n := Z.min (zlen (b :: buf)) INT_MAX_half).
  assert (1 <= n <= zlen (b :: buf)) as Hn.
  { subst n. rewrite zlen_cons. pose proof (zlen_nonneg buf). change INT_MAX_half with 1073741823. lia. }
  destruct (nss_op N H absorbed Hnss (hs_raw h) (ztake n (b :: buf))) as (c & -> & Hc).
  edestruct (IH (HashSink c (hs_digest_length h) (u64 (hs_octets h + n))) t (s ++ ztake n (b :: buf))
    (zdrop n (b :: buf))) as (h' & -> & Hh').
  - unfold zdrop. rewrite length_drop. simpl in *. lia.
  - unfold sink_holds. simpl hs_raw. rewrite Hc, H1. split_and!; [done|done|]. simpl.
    rewrite H3, zlen_app, zlen_ztake_le by lia. unfold u64. by rewrite Z.add_mod_idemp_l.
  - exists h'. split; [done|]. by rewrite <- app_assoc, ztake_zdrop_id in Hh'.
Qed.
Lemma hash_digest_holds h t s : sink_holds h t s → hash_digest N h = Ok (H t s).
Proof using Hnss.
  intros (H1 & H2 & H3). unfold hash_digest. pose proof (nss_length N H absorbed Hnss t s) as Hl.
  rewrite (nss_final N H absorbed Hnss) by (rewrite H1, H2; simpl; lia). rewrite H1, H2. simpl.
  by rewrite Hl, Z.eqb_refl.
Qed.
Lemma hash_file_loop_holds {F} `{Source F} fuel : ∀ (fd : F) h t s,
  source_inv fd → zlen (remaining fd) < Z.of_nat fuel → sink_holds h t s →
  ∃ h', hash_file_loop N fuel fd h = Some (Ok h') ∧ sink_holds h' t (s ++ remaining fd).
Proof using Hnss.
  induction fuel as [|fuel IH]; intros fd h t s Hinv Hf Hh; [pose proof (zlen_nonneg (remaining fd)); lia|].
  cbn [hash_file_loop].
  destruct (source_read_spec fd 8192 Hinv eq_refl) as (p & fd' & -> & Hr & Hlen & Hnil & Hinv').
  destruct (Z.eqb_spec (zlen p) 0) as [Hp|Hp].
  - apply zlen_0_nil in Hp. rewrite (Hnil Hp), app_nil_r. by exists h.
  - destruct (hash_write_loop_holds (length p) h t s p) as (h' & Hw & Hh'); [done|done|].
    unfold sink_write, hash_sink_write. rewrite Hw. rewrite Hr, zlen_app in Hf. pose proof (zlen_nonneg p).
    destruct (IH fd' h' t (s ++ p)) as (h'' & -> & Hh''); [done|lia|done|].
    exists h''. rewrite Hr, app_assoc. done.
Qed.
End specs.

Lemma base16_encode_nonul v : bytes_ok v → Forall (λ c, c ≠ 0) (base16_encode v).
Proof.
  induction 1 as [|b v Hb _ IH]; [constructor|]. change (b :: v) with ([b] ++ v).
  rewrite base16_encode_app. apply Forall_app. split; [|done]. byte_compute b Hb.
Qed.
Lemma to_string_nonul t : Forall (λ c, c ≠ 0) (to_string t).
Proof. by destruct t; repeat constructor. Qed.

(** ** Properties *)

(** Hashing is independent of how the data arrives: with a working NSS, a
    file read through any source in any pieces gives the digest of its whole
    contents, the same as [hash] of the contents at once, and a checksum whose
    length is the number of bytes and whose type is the one asked for. *)
Theorem hash_file_spec {C F} (N : nss C) (H : hash_type → bytes → bytes)
    (absorbed : C → hash_type * bytes) `{Source F} (fd : F) (t : hash_type) (fuel : nat) :
  nss_ok N H absorbed → source_inv fd → zlen (remaining fd) < Z.of_nat fuel →
  hash_file N fuel t (Ok fd) = Some (Ok (H t (remaining fd))) ∧
  hash_file_checksum N fuel t (Ok fd) =
    Some (Ok (Checksum (H t (remaining fd)) (u64 (zlen (remaining fd))) t)) ∧
  hash N t (remaining fd) = Ok (H t (remaining fd)).
Proof.
  intros Hnss Hinv Hfuel. destruct (hash_sink_new_holds N H absorbed Hnss t) as (h & Hnew & Hh).
  destruct (hash_file_loop_holds N H absorbed Hnss fuel fd h t [] Hinv Hfuel Hh) as (h' & Hl & Hh').
  destruct (hash_write_loop_holds N H absorbed Hnss _ h t [] (remaining fd) (le_n _) Hh) as (h'' & Hw & Hh'').
  unfold hash_file, hash_file_checksum, hash, sink_write, hash_sink_write.
  rewrite Hnew, Hl. cbn [mbind res_bind]. rewrite Hw.
  rewrite !(hash_digest_holds N H absorbed Hnss _ t _ Hh'), (hash_digest_holds N H absorbed Hnss _ t _ Hh'').
  destruct Hh' as (_ & _ & Ho). unfold octets. rewrite Ho. done.
Qed.

(** A toy digest, to instantiate the interface: the sum of the bytes in the
    last position. *)
Definition toy_H (t : hash_type) (s : bytes) : bytes :=
  replicate (Z.to_nat (digest_length t - 1)) 0 ++ [foldl Z.add 0 s mod 256].
Definition toy_nss : nss (hash_type * bytes) :=
  NSS _ (λ t, Some (t, [])) Some (λ c s, Some (c.1, c.2 ++ s))
    (λ c n, if zlen (toy_H c.1 c.2) <=? n then Some (toy_H c.1 c.2) else None).
Example hash_file_spec_witness :
  hash_file toy_nss 5 md5 (Ok (string_source_new [1; 2; 3])) =
    Some (Ok [0; 0; 0; 0; 0; 0; 0; 0; 0; 0; 0; 0; 0; 0; 0; 6]).
Proof.
  refine (proj1 (hash_file_spec toy_nss toy_H id (string_source_new [1; 2; 3]) md5 5 _ _ _)); [|done|done].
  split.
  - intros t. by eexists.
  - intros c. by eexists.
  - intros c s. by eexists.
  - intros c n Hn. cbv [toy_nss pk11_final id] in *. by rewrite (proj2 (Z.leb_le _ _) Hn).
  - intros [] s; reflexivity.
Defined.

(** [set_hexadecimal] is atomic: it either assigns all three fields (the
    decoded bytes, the given length, the hash type by name) or throws and leaves
    the checksum as it was; it accepts what [base16_encode] prints. *)
Theorem set_hexadecimal_spec (c : checksum) (typ : bytes) (len : Z) (hex : bytes) :
  match set_hexadecimal c typ len hex with
  | (Ok _, c') => base16_decode_res (until_nul hex) = Ok (csum_value c') ∧ csum_length c' = len ∧
      from_string (until_nul typ) = Ok (csum_type c')
  | (Throw e, c') => c' = c ∧
      (base16_decode_res (until_nul hex) = Throw e ∨
       is_ok (base16_decode_res (until_nul hex)) = true ∧ from_string (until_nul typ) = Throw e)
  end ∧
  ∀ t v, bytes_ok v → set_hexadecimal c (to_string t) len (base16_encode v) = (Ok tt, Checksum v len t).
Proof.
  split.
  - unfold set_hexadecimal. destruct (base16_decode_res (until_nul hex)) as [v|e]; [|by auto].
    destruct (from_string (until_nul typ)); simpl; auto.
  - intros t v Hv. unfold set_hexadecimal. rewrite !until_nul_nonul by auto using base16_encode_nonul, to_string_nonul.
    unfold base16_decode_res, base16_decode. rewrite base16_decode_loop_encode by done. by destruct t.
Qed.

Example set_hexadecimal_spec_witness :
  set_hexadecimal checksum_new (str "sha") 3 (str "00ff") = (Ok tt, Checksum [0; 255] 3 sha1) ∧
  set_hexadecimal checksum_new (to_string md5) 9 (base16_encode [1; 2]) = (Ok tt, Checksum [1; 2] 9 md5).
Proof.
  split; [reflexivity|].
  apply (proj2 (set_hexadecimal_spec checksum_new [] 9 [])). by repeat constructor.
Defined.
