(* ===== verification/Posix.v ===== *)
(** * File descriptors and the file system
    (lib/cxxll/fd_handle.cpp, lib/cxxll/dir_handle.cpp, lib/cxxll/os)

    The system calls are parameters: a record of functions on the state of the
    kernel, with the C results (negative or [NULL] for an error, then [errno]).
    Of an [os_exception], only the error number is modelled. *)

From S2P Require Import Prelude.

(** ** System calls *)

Inductive file_kind := KindRegular | KindDirectory | KindSymlink | KindOther.
#[global] Instance file_kind_eq_dec : EqDecision file_kind.
Proof. solve_decision. Defined.
(** [struct stat64], as far as the program looks at it. *)
Record stat64 := Stat { st_mode : file_kind; st_size : Z }.

Record posix (K : Type) := Posix {
  px_errno : K → Z;
  px_open : bytes → Z → Z → K → Z * K;
  px_openat : Z → bytes → Z → Z → K → Z * K;
  px_close : Z → K → Z * K;
  px_mkostemp : bytes → Z → K → (Z * bytes) * K;
  px_dup : Z → K → Z * K;
  px_dupfd_cloexec : Z → K → Z * K;
  px_getfd : Z → K → Z * K;
  px_setfd : Z → Z → K → Z * K;
  px_fsync : Z → K → Z * K;
  px_read : Z → Z → K → (Z * bytes) * K;
  px_write : Z → bytes → K → Z * K;
  px_mkdirat : Z → bytes → Z → K → Z * K;
  px_unlinkat : Z → bytes → Z → K → Z * K;
  px_renameat : Z → bytes → Z → bytes → K → Z * K;
  px_fstatat : Z → bytes → K → option stat64 * K;
  px_stat : bytes → K → option stat64 * K;
  px_mkdtemp : bytes → K → option bytes * K;
  px_mkdir : bytes → Z → K → Z * K;
  px_rmdir : bytes → K → Z * K;
  px_access : bytes → Z → K → Z * K;
  px_getenv : bytes → K → option bytes;
  px_opendir : bytes → K → option Z * K;
  px_fdopendir : Z → K → option Z * K;
  px_readdir : Z → K → (option bytes * Z) * K;
  px_closedir : Z → K → Z * K;
  px_dirfd : Z → K → Z;
  px_getcwd : Z → K → option bytes * K;
  px_readlink : bytes → Z → K → (Z * bytes) * K;
  px_realpath : bytes → K → option bytes * K
}.
Arguments px_errno {K}. Arguments px_open {K}. Arguments px_openat {K}. Arguments px_close {K}.
Arguments px_mkostemp {K}. Arguments px_dup {K}. Arguments px_dupfd_cloexec {K}. Arguments px_getfd {K}. Arguments px_setfd {K}.
Arguments px_fsync {K}. Arguments px_read {K}. Arguments px_write {K}. Arguments px_mkdirat {K}.
Arguments px_unlinkat {K}. Arguments px_renameat {K}. Arguments px_fstatat {K}. Arguments px_stat {K}.
Arguments px_mkdtemp {K}. Arguments px_mkdir {K}. Arguments px_rmdir {K}. Arguments px_access {K}. Arguments px_getenv {K}.
Arguments px_opendir {K}. Arguments px_fdopendir {K}. Arguments px_readdir {K}. Arguments px_closedir {K}. Arguments px_dirfd {K}.
Arguments px_getcwd {K}. Arguments px_readlink {K}. Arguments px_realpath {K}.

Definition O_RDONLY : Z := 0.
Definition O_WRONLY : Z := 1.
Definition O_CREAT : Z := 64.
Definition O_TRUNC : Z := 512.
Definition O_DIRECTORY : Z := 65536.
Definition O_CLOEXEC : Z := 524288.
Definition FD_CLOEXEC : Z := 1.
Definition AT_REMOVEDIR : Z := 512.
Definition EEXIST : Z := 17.
Definition EISDIR : Z := 21.
Definition F_OK : Z := 0.
Definition X_OK : Z := 1.
Definition W_OK : Z := 2.
Definition R_OK : Z := 4.
Definition ERANGE : Z := 34.

Section posix.
Context {K : Type} (os : posix K).

(** A call with a negative result throws with [errno]. *)
Definition sys (call : K → Z * K) : sx K Z := λ k,
  let '(ret, k) := call k in
  if ret <? 0 then (Throw (os_exception (px_errno os k)), k) else (Ok ret, k).

(** ** fd_handle *)

(** The descriptor of the object and the kernel. *)
Definition fdh (A : Type) : Type := sx (Z * K) A.
Definition with_kernel {A} (m : sx K A) : fdh A := sx_on snd (λ k s, (s.1, k)) m.

(** Source: include/cxxll/fd_handle.hpp 108-112, fd_handle::fd_handle. *)
Definition fd_new : Z := -1.

(** Source: include/cxxll/fd_handle.hpp 120-126, fd_handle::swap. *)
Definition fd_swap (a b : Z) : Z * Z := (b, a).

(** Source: lib/cxxll/fd_handle.cpp 181-188, fd_handle::close_nothrow. *)
Definition fd_close_nothrow (s : Z * K) : Z * K :=
  if 0 <=? s.1 then (-1, (px_close os s.1 s.2).2) else s.

(** Source: lib/cxxll/fd_handle.cpp 34-37, fd_handle::~fd_handle. *)
Definition fd_destroy (s : Z * K) : K := (fd_close_nothrow s).2.

(** Source: lib/cxxll/fd_handle.cpp 39-50, fd_handle::reset. *)
Definition fd_reset (fd : Z) : fdh unit := λ '(raw, k),
  if 0 <=? raw then
    let '(ret, k) := px_close os raw k in
    if ret <? 0 then
      let err := px_errno os k in
      (Throw (os_exception err), (raw, if 0 <=? fd then (px_close os fd k).2 else k))
    else (Ok tt, (fd, k))
  else (Ok tt, (fd, k)).

(** The end of the functions that open a file: an error of [close] is ignored. *)
Definition fd_replace (ret : Z) : fdh unit := λ '(raw, k),
  (Ok tt, (ret, if 0 <=? raw then (px_close os raw k).2 else k)).

(** Without a mode, the argument is not read by the kernel.
    Source: lib/cxxll/fd_handle.cpp 52-76, fd_handle::open. *)
Definition fd_open (path : bytes) (flags mode : Z) : fdh unit :=
  ret ← with_kernel (sys (px_open os path flags mode));
  fd_replace ret.

(** Source: lib/cxxll/fd_handle.cpp 78-102, fd_handle::openat. *)
Definition fd_openat (fd : Z) (path : bytes) (flags mode : Z) : fdh unit :=
  ret ← with_kernel (sys (px_openat os fd path flags mode));
  fd_replace ret.

(** Source: lib/cxxll/fd_handle.cpp 104-108, fd_handle::open_read_only. *)
Definition fd_open_read_only (path : bytes) : fdh unit := fd_open path (Z.lor O_RDONLY O_CLOEXEC) 0.
(** Source: lib/cxxll/fd_handle.cpp 110-114, fd_handle::open_directory. *)
Definition fd_open_directory (path : bytes) : fdh unit :=
  fd_open path (Z.lor (Z.lor O_RDONLY O_DIRECTORY) O_CLOEXEC) 0.

(** [prefix] is a C string; the kernel fills in the template.
    Source: lib/cxxll/fd_handle.cpp 116-128, fd_handle::mkstemp. *)
Definition fd_mkstemp (prefix : bytes) : fdh bytes := λ '(raw, k),
  let '(newfd, name, k) := px_mkostemp os (prefix ++ str "XXXXXX") O_CLOEXEC k in
  if newfd <? 0 then (Throw (os_exception (px_errno os k)), (raw, k))
  else (fd_reset newfd;; mret name) (raw, k).

(** Source: lib/cxxll/fd_handle.cpp 130-138, fd_handle::dup. *)
Definition fd_dup (fd : Z) : fdh unit :=
  newfd ← with_kernel (sys (px_dupfd_cloexec os fd));
  fd_reset newfd.

(** Source: lib/cxxll/fd_handle.cpp 140-155, fd_handle::close_on_exec. *)
Definition fd_set_close_on_exec (flag : bool) : fdh unit := λ '(raw, k),
  let '(flags, k) := px_getfd os raw k in
  if flags =? -1 then (Throw (os_exception (px_errno os k)), (raw, k))
  else
    let flags := if flag then Z.lor flags FD_CLOEXEC else Z.land flags (Z.lnot FD_CLOEXEC) in
    let '(ret, k) := px_setfd os raw flags k in
    if ret =? -1 then (Throw (os_exception (px_errno os k)), (raw, k)) else (Ok tt, (raw, k)).

(** Source: lib/cxxll/fd_handle.cpp 157-165, fd_handle::close_on_exec. *)
Definition fd_close_on_exec : fdh bool := λ '(raw, k),
  let '(flags, k) := px_getfd os raw k in
  if flags =? -1 then (Throw (os_exception (px_errno os k)), (raw, k))
  else (Ok (negb (Z.land flags FD_CLOEXEC =? 0)), (raw, k)).

(** Source: lib/cxxll/fd_handle.cpp 167-179, fd_handle::close. *)
Definition fd_close : fdh unit := λ '(raw, k),
  if raw <? 0 then (Ok tt, (raw, k))
  else
    let '(ret, k) := px_close os raw k in
    if negb (ret =? 0) then (Throw (os_exception (px_errno os k)), (-1, k)) else (Ok tt, (-1, k)).

(** Source: include/cxxll/fd_handle.hpp 134-140, fd_handle::release. *)
Definition fd_release : fdh Z := λ '(raw, k), (Ok raw, (-1, k)).

(** Source: lib/cxxll/fd_handle.cpp 190-196, fd_handle::fsync. *)
Definition fd_fsync : fdh unit := λ '(raw, k),
  let '(r, k) := sys (px_fsync os raw) k in ((λ _, tt) <$> r, (raw, k)).

(** Source: lib/cxxll/fd_handle.cpp 198-206, fd_handle::read. *)
Definition fd_read (length : Z) : fdh bytes := λ '(raw, k),
  let '(ret, buf, k) := px_read os raw length k in
  if ret <? 0 then (Throw (os_exception (px_errno os k)), (raw, k)) else (Ok (ztake ret buf), (raw, k)).

(** Source: lib/cxxll/fd_handle.cpp 208-215, fd_handle::mkdirat. *)
Definition fd_mkdirat (pathname : bytes) (mode : Z) : fdh unit := λ '(raw, k),
  let '(r, k) := sys (px_mkdirat os raw pathname mode) k in ((λ _, tt) <$> r, (raw, k)).

(** Source: lib/cxxll/fd_handle.cpp 217-223, fd_handle::unlinkat. *)
Definition fd_unlinkat (pathname : bytes) (flags : Z) : fdh unit := λ '(raw, k),
  let '(r, k) := sys (px_unlinkat os raw pathname flags) k in ((λ _, tt) <$> r, (raw, k)).

(** Source: lib/cxxll/fd_handle.cpp 225-233, renameat. *)
Definition renameat (from : Z) (from_name : bytes) (to : Z) (to_name : bytes) : sx K unit :=
  sys (px_renameat os from from_name to to_name);; mret tt.

(** ** Directory streams *)

(** The [DIR *] of the object; NULL is [None]. *)
Definition dirh (A : Type) : Type := sx (option Z * K) A.

(** The constructor takes the descriptor over even when it fails.
    Source: lib/cxxll/dir_handle.cpp 27-38, dir_handle::dir_handle. *)
Definition dir_handle_fd (fd : Z) : sx K Z := λ k,
  match px_fdopendir os fd k with
  | (Some p, k) => (Ok p, k)
  | (None, k) => let e := os_exception (px_errno os k) in (Throw e, (px_close os fd k).2)
  end.

(** Source: lib/cxxll/dir_handle.cpp 40-46, dir_handle::dir_handle. *)
Definition dir_handle_path (path : bytes) : sx K Z := λ k,
  match px_opendir os path k with
  | (Some p, k) => (Ok p, k)
  | (None, k) => (Throw (os_exception (px_errno os k)), k)
  end.

(** Source: lib/cxxll/dir_handle.cpp 48-53, dir_handle::~dir_handle. *)
Definition dir_destroy (raw : option Z) (k : K) : K :=
  match raw with Some p => (px_closedir os p k).2 | None => k end.

(** Source: lib/cxxll/dir_handle.cpp 55-65, dir_handle::close. *)
Definition dir_close : dirh unit := λ '(raw, k),
  match raw with
  | None => (Ok tt, (None, k))
  | Some p =>
      let '(ret, k) := px_closedir os p k in
      if negb (ret =? 0) then (Throw (os_exception (px_errno os k)), (None, k)) else (Ok tt, (None, k))
  end.

(** Source: include/cxxll/dir_handle.hpp 66-72, dir_handle::release. *)
Definition dir_release : dirh (option Z) := λ '(raw, k), (Ok raw, (None, k)).

(** [readdir] with [errno] set to zero before.
    Source: lib/cxxll/dir_handle.cpp 81-91, dir_handle::readdir_all. *)
Definition dir_readdir_all (p : Z) : sx K (option bytes) := λ k,
  let '(result, err, k) := px_readdir os p k in
  match result with
  | None => if negb (err =? 0) then (Throw (os_exception err), k) else (Ok None, k)
  | Some name => (Ok (Some name), k)
  end.

(** Source: lib/cxxll/os/remove_directory_tree.cpp 123-125, remove_directory_tree. *)
Definition is_dot_entry (name : bytes) : bool :=
  bool_decide (name = str ".") || bool_decide (name = str "..").

(** The fuel bounds the number of entries skipped.
    Source: lib/cxxll/dir_handle.cpp 67-79, dir_handle::readdir. *)
Fixpoint dir_readdir (fuel : nat) (p : Z) (k : K) : option (res (option bytes) * K) :=
  match fuel with
  | O => None
  | S fuel =>
      match dir_readdir_all p k with
      | (Ok (Some name), k) => if is_dot_entry name then dir_readdir fuel p k else Some (Ok (Some name), k)
      | (r, k) => Some (r, k)
      end
  end.

(** ** Predicates on paths *)

(** Source: lib/cxxll/os/is_directory.cpp 25-33, is_directory. *)
Definition is_directory (path : bytes) (k : K) : bool * K :=
  match px_stat os path k with
  | (None, k) => (false, k)
  | (Some st, k) => (bool_decide (st_mode st = KindDirectory), k)
  end.

(** Source: lib/cxxll/os/is_executable.cpp 25-29, is_executable. *)
Definition is_executable (path : bytes) (k : K) : bool * K :=
  let '(ret, k) := px_access os path X_OK k in (ret =? 0, k).

(** Source: lib/cxxll/os/path_exists.cpp 25-29, path_exists. *)
Definition path_exists (path : bytes) (k : K) : bool * K :=
  let '(ret, k) := px_access os path F_OK k in (ret =? 0, k).

(** Source: lib/cxxll/os/home_directory.cpp 26-36, home_directory. *)
Definition home_directory : sx K bytes := λ k,
  let fail k := (Throw (runtime_error (str "could not determine HOME directory")), k) in
  match px_getenv os (str "HOME") k with
  | None => fail k
  | Some home => let '(d, k) := is_directory home k in if d then (Ok home, k) else fail k
  end.

(** Source: lib/cxxll/os/temporary_directory_path.cpp 26-35, temporary_directory_path. *)
Definition temporary_directory_path (k : K) : bytes * K :=
  match px_getenv os (str "TMPDIR") k with
  | None => (str "/tmp", k)
  | Some tmp =>
      let '(d, k) := is_directory tmp k in
      if d then
        let '(ret, k) := px_access os tmp (Z.lor (Z.lor R_OK W_OK) X_OK) k in
        (if ret =? 0 then tmp else str "/tmp", k)
      else (str "/tmp", k)
  end.

(** Source: lib/cxxll/os/make_temporary_directory.cpp 29-40, make_temporary_directory. *)
Definition make_temporary_directory (prefix : bytes) : sx K bytes := λ k,
  match px_mkdtemp os (prefix ++ str "XXXXXX") k with
  | (None, k) => (Throw (os_exception (px_errno os k)), k)
  | (Some ret, k) => (Ok ret, k)
  end.

(** Source: lib/cxxll/os/realpath.cpp 27-35, realpath. *)
Definition realpath (path : bytes) : sx K bytes := λ k,
  match px_realpath os path k with
  | (None, k) => (Throw (os_exception (px_errno os k)), k)
  | (Some p, k) => (Ok p, k)
  end.

(** ** make_directory_hierarchy *)

(** Source: lib/cxxll/os/make_directory_hierarchy.cpp 42-45, make_directory_hierarchy. *)
Fixpoint leading_slashes (p : bytes) : bytes * bytes :=
  match p with
  | c :: p' => if c =? 47 then let '(s, r) := leading_slashes p' in (c :: s, r) else ([], p)
  | [] => ([], [])
  end.
(** [strchr (p, '/')], or the end of the string.
    Source: lib/cxxll/os/make_directory_hierarchy.cpp 48-52, make_directory_hierarchy. *)
Fixpoint upto_slash (p : bytes) : bytes * bytes :=
  match p with
  | c :: p' => if c =? 47 then ([], p) else let '(s, r) := upto_slash p' in (c :: s, r)
  | [] => ([], [])
  end.

(** The component loop; the length of the path is enough fuel.
    Source: lib/cxxll/os/make_directory_hierarchy.cpp 46-62, make_directory_hierarchy. *)
Fixpoint hierarchy_loop (fuel : nat) (mode : Z) (s p : bytes) (k : K) : K :=
  match fuel, p with
  | S fuel, _ :: _ =>
      let '(comp, p) := upto_slash p in
      let k := (px_mkdir os (s ++ comp) mode k).2 in
      let '(slashes, p) := leading_slashes p in
      hierarchy_loop fuel mode (s ++ comp ++ slashes) p k
  | _, _ => k
  end.

(** Source: lib/cxxll/os/make_directory_hierarchy.cpp 29-65, make_directory_hierarchy. *)
Definition make_directory_hierarchy (path : bytes) (mode : Z) (k : K) : bool * K :=
  let '(ret, k) := px_mkdir os path mode k in
  if ret =? 0 then (true, k)
  else if px_errno os k =? EEXIST then is_directory path k
  else
    let '(s, p) := leading_slashes path in
    is_directory path (hierarchy_loop (length path) mode s p k).

(** ** Growing buffers *)

(** The buffer doubles from 8192 octets until its size wraps around: 51 rounds.
    Source: lib/cxxll/os/current_directory.cpp 41-55, current_directory. *)
Fixpoint getcwd_loop (fuel : nat) (size : Z) (k : K) : res bytes * K :=
  match fuel with
  | O => (Throw bad_alloc, k)
  | S fuel =>
      match px_getcwd os size k with
      | (Some ret, k) => (Ok ret, k)
      | (None, k) =>
          if negb (px_errno os k =? ERANGE) then (Throw (os_exception (px_errno os k)), k)
          else
            let new_size := u64 (2 * size) in
            if new_size <? size then (Throw bad_alloc, k) else getcwd_loop fuel new_size k
      end
  end.

(** Source: lib/cxxll/os/current_directory.cpp 31-59, current_directory. *)
Definition current_directory : sx K bytes := λ k,
  match px_getcwd os 4096 k with
  | (Some ret, k) => (Ok ret, k)
  | (None, k) =>
      if negb (px_errno os k =? ERANGE) then (Throw (os_exception (px_errno os k)), k)
      else getcwd_loop 52 8192 k
  end.

(** The first octets of the vector are overwritten; the whole vector is returned.
    Source: lib/cxxll/os/readlink.cpp 38-53, readlink. *)
Fixpoint readlink_loop (fuel : nat) (path : bytes) (vec : bytes) (k : K) : res bytes * K :=
  match fuel with
  | O => (Throw bad_alloc, k)
  | S fuel =>
      let '(ret, data, k) := px_readlink os path (zlen vec) k in
      let vec := ztake ret data ++ zdrop ret vec in
      if ret <? 0 then (Throw (os_exception (px_errno os k)), k)
      else if negb (ret =? zlen vec) then (Ok vec, k)
      else
        let new_size := u64 (2 * zlen vec) in
        if new_size <? zlen vec then (Throw bad_alloc, k)
        else readlink_loop fuel path (vec ++ replicate (Z.to_nat (new_size - zlen vec)) 0) k
  end.

(** Source: lib/cxxll/os/readlink.cpp 30-56, readlink. *)
Definition readlink (path : bytes) : sx K bytes := λ k,
  let '(ret, data, k) := px_readlink os path 4096 k in
  if ret <? 0 then (Throw (os_exception (px_errno os k)), k)
  else if ret =? 4096 then readlink_loop 52 path (replicate (Z.to_nat 8192) 0) k
  else (Ok (ztake ret data), k).

(** ** remove_directory_tree *)

(** Source: lib/cxxll/os/remove_directory_tree.cpp 49-57, DIR_stack::entry. *)
Record dir_entry := DirEntry { de_raw : option Z; de_name : bytes }.

(** The descriptor [fd], the stack (its top first) and the kernel. *)
Record rdt := Rdt { rdt_fd : Z; rdt_stack : list dir_entry; rdt_k : K }.

(** Source: lib/cxxll/os/remove_directory_tree.cpp 76-83, DIR_stack::pop. *)
Definition stack_pop (s : rdt) : rdt :=
  match rdt_stack s with
  | [] => s
  | e :: stack => Rdt (rdt_fd s) stack (dir_destroy (de_raw e) (rdt_k s))
  end.

(** The destructors of the stack and of [fd].
    Source: lib/cxxll/os/remove_directory_tree.cpp 37-42, DIR_stack::~DIR_stack. *)
Definition rdt_destroy (s : rdt) : K :=
  fd_destroy (rdt_fd s, foldl (λ k e, dir_destroy (de_raw e) k) (rdt_k s) (rdt_stack s)).

(** [stack.push (fdopendir (fd.get ()), name)], the check of the result and
    [fd.release ()].
    Source: lib/cxxll/os/remove_directory_tree.cpp 134-139, remove_directory_tree. *)
Definition push_directory (name : bytes) : sx rdt unit := λ s,
  let '(d, k) := px_fdopendir os (rdt_fd s) (rdt_k s) in
  let stack := DirEntry d name :: rdt_stack s in
  match d with
  | None => (Throw (os_exception (px_errno os k)), Rdt (rdt_fd s) stack k)
  | Some _ => (Ok tt, Rdt (-1) stack k)
  end.

(** The end of a directory.
    Source: lib/cxxll/os/remove_directory_tree.cpp 109-121, remove_directory_tree. *)
Definition leave_directory (name : bytes) : sx rdt unit := λ s,
  let s := stack_pop s in
  if bool_decide (name = []) then (Ok tt, s)
  else
    match rdt_stack s with
    | DirEntry (Some parent) _ :: _ =>
        let '(ret, k) := px_unlinkat os (px_dirfd os parent (rdt_k s)) name AT_REMOVEDIR (rdt_k s) in
        let s := Rdt (rdt_fd s) (rdt_stack s) k in
        (if negb (ret =? 0) then Throw (os_exception (px_errno os k)) else Ok tt, s)
    | _ => (Throw assertion_failure, s)
    end.

(** An entry of the directory: files are unlinked, a directory is entered.
    Source: lib/cxxll/os/remove_directory_tree.cpp 123-144, remove_directory_tree. *)
Definition remove_entry (p : Z) (name : bytes) : sx rdt unit := λ s,
  if is_dot_entry name then (Ok tt, s)
  else
    let dirpfd := px_dirfd os p (rdt_k s) in
    let '(ret, k) := px_unlinkat os dirpfd name 0 (rdt_k s) in
    if ret =? 0 then (Ok tt, Rdt (rdt_fd s) (rdt_stack s) k)
    else if px_errno os k =? EISDIR then
      let '(r, (fd, k)) :=
        fd_openat dirpfd name (Z.lor (Z.lor O_RDONLY O_DIRECTORY) O_CLOEXEC) 0 (rdt_fd s, k) in
      let s := Rdt fd (rdt_stack s) k in
      match r with Throw e => (Throw e, s) | Ok _ => push_directory name s end
    else (Throw (os_exception (px_errno os k)), Rdt (rdt_fd s) (rdt_stack s) k).

(** The fuel bounds the number of directory entries read.
    Source: lib/cxxll/os/remove_directory_tree.cpp 101-145, remove_directory_tree. *)
Fixpoint rdt_loop (fuel : nat) (s : rdt) : option (res unit * rdt) :=
  match fuel, rdt_stack s with
  | _, [] => Some (Ok tt, s)
  | O, _ => None
  | S fuel, DirEntry None _ :: _ => Some (Throw assertion_failure, s)
  | S fuel, DirEntry (Some p) name :: _ =>
      let '(e, err, k) := px_readdir os p (rdt_k s) in
      let s := Rdt (rdt_fd s) (rdt_stack s) k in
      let '(r, s) :=
        match e with
        | None => if negb (err =? 0) then (Throw (os_exception err), s) else leave_directory name s
        | Some entry => remove_entry p entry s
        end in
      match r with Throw e => Some (Throw e, s) | Ok _ => rdt_loop fuel s end
  end.

(** Source: lib/cxxll/os/remove_directory_tree.cpp 90-149, remove_directory_tree. *)
Definition remove_directory_tree (fuel : nat) (root : bytes) (k : K) : option (res unit * K) :=
  match fd_open root (Z.lor (Z.lor O_RDONLY O_DIRECTORY) O_CLOEXEC) 0 (fd_new, k) with
  | (Throw e, (fd, k)) => Some (Throw e, fd_destroy (fd, k))
  | (Ok _, (fd, k)) =>
      '(r, s) ← (match push_directory [] (Rdt fd [] k) with
                 | (Throw e, s) => Some (Throw e, s)
                 | (Ok _, s) => rdt_loop fuel s
                 end);
      match r with
      | Throw e => Some (Throw e, rdt_destroy s)
      | Ok _ =>
          let '(ret, k) := px_rmdir os root (rdt_k s) in
          let s := Rdt (rdt_fd s) (rdt_stack s) k in
          Some (if negb (ret =? 0) then Throw (os_exception (px_errno os k)) else Ok tt, rdt_destroy s)
      end
  end.

(** ** temporary_directory *)

(** Source: lib/cxxll/temporary_directory.cpp 24-28, temporary_directory::temporary_directory. *)
Definition temporary_directory_new : sx K bytes := λ k,
  let '(dir, k) := temporary_directory_path k in
  make_temporary_directory (dir ++ str "/tmp-") k.

(** Source: lib/cxxll/temporary_directory.cpp 35-44, temporary_directory::~temporary_directory. *)
Definition temporary_directory_destroy (fuel : nat) (path : bytes) (k : K) : option K :=
  if bool_decide (path = []) then Some k else snd <$> remove_directory_tree fuel path k.

(** The path is cleared in any case.
    Source: lib/cxxll/temporary_directory.cpp 46-56, temporary_directory::remove. *)
Definition temporary_directory_remove (fuel : nat) (path : bytes) (k : K) : option (res unit * (bytes * K)) :=
  '(r, k) ← remove_directory_tree fuel path k; Some (r, ([], k)).

(** Source: lib/cxxll/temporary_directory.cpp 58-65, temporary_directory::path. *)
Definition temporary_directory_path_of (path name : bytes) : bytes := path ++ [47] ++ name.
End posix.

(** ** What the kernel promises about descriptors *)

(** The open descriptors, and the descriptor inside each directory stream. *)
Class FdView (K : Type) := { fds : K → gset Z; dirs : K → gmap Z Z }.

Section fd_laws.
Context {K : Type} `{FdView K}.

(** Nothing was opened or closed. *)
Definition same_fds (k k' : K) : Prop := fds k' = fds k ∧ dirs k' = dirs k.

(** A call that returns a new descriptor or an error. *)
Definition opens {A} (ret : A → Z) (call : K → A * K) : Prop := ∀ k,
  dirs (call k).2 = dirs k ∧
  (ret (call k).1 < 0 ∧ fds (call k).2 = fds k ∨
   0 <= ret (call k).1 ∧ ret (call k).1 ∉ fds k ∧ fds (call k).2 = {[ret (call k).1]} ∪ fds k).

Definition keeps {A} (call : K → A * K) : Prop := ∀ k, same_fds k (call k).2.

(** On Linux, [close] frees the descriptor even when it reports an error. *)
Record fd_laws (os : posix K) : Prop := {
  law_open path flags mode : opens Datatypes.id (px_open os path flags mode);
  law_openat fd path flags mode : opens Datatypes.id (px_openat os fd path flags mode);
  law_mkostemp templ flags : opens fst (px_mkostemp os templ flags);
  law_dup fd : opens Datatypes.id (px_dup os fd);
  law_dupfd fd : opens Datatypes.id (px_dupfd_cloexec os fd);
  law_close fd k : fds (px_close os fd k).2 = fds k ∖ {[fd]} ∧ dirs (px_close os fd k).2 = dirs k;
  law_getfd fd : keeps (px_getfd os fd);
  law_setfd fd flags : keeps (px_setfd os fd flags);
  law_fsync fd : keeps (px_fsync os fd);
  law_read fd len : keeps (px_read os fd len);
  law_mkdirat fd path mode : keeps (px_mkdirat os fd path mode);
  law_unlinkat fd path flags : keeps (px_unlinkat os fd path flags);
  law_rmdir path : keeps (px_rmdir os path);
  law_readdir p : keeps (px_readdir os p);
  law_fdopendir fd k : let '(r, k') := px_fdopendir os fd k in
    fds k' = fds k ∧
    match r with
    | None => dirs k' = dirs k
    | Some p => dirs k !! p = None ∧ dirs k' = <[p := fd]> (dirs k)
    end;
  law_closedir p k fd : dirs k !! p = Some fd →
    fds (px_closedir os p k).2 = fds k ∖ {[fd]} ∧ dirs (px_closedir os p k).2 = delete p (dirs k)
}.

(** ** Ownership of one descriptor *)

Definition owned (raw : Z) : gset Z := if 0 <=? raw then {[raw]} else ∅.

(** The object owns [raw]; [frame] is everything else that is open. *)
Definition owns (frame : gset Z) (D : gmap Z Z) (s : Z * K) : Prop :=
  fds s.2 = frame ∪ owned s.1 ∧ owned s.1 ## frame ∧ dirs s.2 = D.

(** The member functions, with their arguments. *)
Inductive fd_op :=
| OpReset (fd : Z)
| OpOpen (path : bytes) (flags mode : Z)
| OpOpenat (fd : Z) (path : bytes) (flags mode : Z)
| OpMkstemp (path : bytes)
| OpDup (fd : Z)
| OpSetCloseOnExec (flag : bool)
| OpCloseOnExec
| OpClose
| OpCloseNothrow
| OpRelease
| OpFsync
| OpRead (length : Z)
| OpMkdirat (path : bytes) (mode : Z)
| OpUnlinkat (path : bytes) (flags : Z).

Definition ignore {S A} (m : sx S A) : sx S unit := λ s, let '(r, s) := m s in ((λ _, tt) <$> r, s).

Definition fd_run (os : posix K) (op : fd_op) : sx (Z * K) unit :=
  match op with
  | OpReset fd => fd_reset os fd
  | OpOpen path flags mode => fd_open os path flags mode
  | OpOpenat fd path flags mode => fd_openat os fd path flags mode
  | OpMkstemp path => ignore (fd_mkstemp os path)
  | OpDup fd => fd_dup os fd
  | OpSetCloseOnExec flag => fd_set_close_on_exec os flag
  | OpCloseOnExec => ignore (fd_close_on_exec os)
  | OpClose => fd_close os
  | OpCloseNothrow => λ s, (Ok tt, fd_close_nothrow os s)
  | OpRelease => ignore fd_release
  | OpFsync => fd_fsync os
  | OpRead length => ignore (fd_read os length)
  | OpMkdirat path mode => fd_mkdirat os path mode
  | OpUnlinkat path flags => fd_unlinkat os path flags
  end.

(** What the operation takes from the rest of the program, or gives to it. *)
Definition op_frame (op : fd_op) (s : Z * K) (frame : gset Z) : gset Z :=
  match op with
  | OpReset fd => frame ∖ owned fd
  | OpRelease => frame ∪ owned s.1
  | _ => frame
  end.

(** [reset] may be given a descriptor the caller owns. *)
Definition op_allowed (op : fd_op) (frame : gset Z) : Prop :=
  match op with OpReset fd => owned fd ⊆ frame | _ => True end.

(** The operations that end in [reset]. *)
Definition resets (op : fd_op) : bool :=
  match op with OpReset _ | OpMkstemp _ | OpDup _ => true | _ => false end.
End fd_laws.

(** ** A small kernel

    One directory of regular files and no errors, except that [close] of an unknown
    descriptor fails; [read] and [write] move at most 4 octets. It serves to run the
    definitions on concrete inputs. *)
Inductive fd_object := FdDirectory (description : Z) | FdFile (inode pos : Z).
Record small := Small {
  sm_fds : gmap Z fd_object;
  sm_dirs : gmap Z (Z * list bytes);
  sm_names : gmap bytes Z;
  sm_inodes : gmap Z bytes;
  (** The open file descriptions of the directory that were read to the end. *)
  sm_read : gset Z
}.

Definition above (s : gset Z) : Z := 1 + foldr Z.max (-1) (elements s).

(** [pwrite], for a position not past the end. *)
Definition overwrite (pos : Z) (buf content : bytes) : bytes :=
  ztake pos content ++ buf ++ zdrop (pos + zlen buf) content.

Definition small_fd (o : fd_object) (k : small) : Z * small :=
  let fd := above (dom (sm_fds k)) in
  (fd, Small (<[fd := o]> (sm_fds k)) (sm_dirs k) (sm_names k) (sm_inodes k) (sm_read k)).

Definition small_open (path : bytes) (flags : Z) (k : small) : Z * small :=
  if negb (Z.land flags O_DIRECTORY =? 0) then small_fd (FdDirectory (above (dom (sm_fds k)))) k
  else
    match sm_names k !! path with
    | Some i =>
        let inodes := if Z.land flags O_TRUNC =? 0 then sm_inodes k else <[i := []]> (sm_inodes k) in
        small_fd (FdFile i 0) (Small (sm_fds k) (sm_dirs k) (sm_names k) inodes (sm_read k))
    | None =>
        if Z.land flags O_CREAT =? 0 then (-1, k)
        else
          let i := above (dom (sm_inodes k)) in
          small_fd (FdFile i 0)
            (Small (sm_fds k) (sm_dirs k) (<[path := i]> (sm_names k)) (<[i := []]> (sm_inodes k)) (sm_read k))
    end.

Definition small_close (fd : Z) (k : small) : Z * small :=
  match sm_fds k !! fd with
  | None => (-1, k)
  | Some _ => (0, Small (delete fd (sm_fds k)) (sm_dirs k) (sm_names k) (sm_inodes k) (sm_read k))
  end.

Definition small_dup (fd : Z) (k : small) : Z * small :=
  match sm_fds k !! fd with None => (-1, k) | Some o => small_fd o k end.

Definition small_write (fd : Z) (buf : bytes) (k : small) : Z * small :=
  match sm_fds k !! fd with
  | Some (FdFile i pos) =>
      let buf := ztake 4 buf in
      let content := default [] (sm_inodes k !! i) in
      (zlen buf, Small (<[fd := FdFile i (pos + zlen buf)]> (sm_fds k)) (sm_dirs k) (sm_names k)
                   (<[i := overwrite pos buf content]> (sm_inodes k)) (sm_read k))
  | _ => (-1, k)
  end.

Definition small_read (fd len : Z) (k : small) : (Z * bytes) * small :=
  match sm_fds k !! fd with
  | Some (FdFile i pos) =>
      let data := ztake (Z.min 4 len) (zdrop pos (default [] (sm_inodes k !! i))) in
      ((zlen data, data), Small (<[fd := FdFile i (pos + zlen data)]> (sm_fds k)) (sm_dirs k) (sm_names k)
                   (sm_inodes k) (sm_read k))
  | _ => ((-1, []), k)
  end.

Definition small_rename (from to : bytes) (k : small) : Z * small :=
  match sm_names k !! from with
  | None => (-1, k)
  | Some i => (0, Small (sm_fds k) (sm_dirs k) (<[to := i]> (delete from (sm_names k))) (sm_inodes k) (sm_read k))
  end.

Definition small_unlink (path : bytes) (k : small) : Z * small :=
  match sm_names k !! path with
  | None => (-1, k)
  | Some _ => (0, Small (sm_fds k) (sm_dirs k) (delete path (sm_names k)) (sm_inodes k) (sm_read k))
  end.

Definition small_fdopendir (fd : Z) (k : small) : option Z * small :=
  match sm_fds k !! fd with
  | Some (FdDirectory o) =>
      let p := above (dom (sm_dirs k)) in
      let names := if decide (o ∈ sm_read k) then [] else str "." :: str ".." :: (map_to_list (sm_names k)).*1 in
      (Some p, Small (sm_fds k) (<[p := (fd, names)]> (sm_dirs k)) (sm_names k) (sm_inodes k)
                 ({[o]} ∪ sm_read k))
  | _ => (None, k)
  end.

Definition small_readdir (p : Z) (k : small) : (option bytes * Z) * small :=
  match sm_dirs k !! p with
  | Some (fd, n :: ns) => ((Some n, 0), Small (sm_fds k) (<[p := (fd, ns)]> (sm_dirs k)) (sm_names k) (sm_inodes k) (sm_read k))
  | _ => ((None, 0), k)
  end.

Definition small_closedir (p : Z) (k : small) : Z * small :=
  match sm_dirs k !! p with
  | Some (fd, _) => (0, Small (delete fd (sm_fds k)) (delete p (sm_dirs k)) (sm_names k) (sm_inodes k) (sm_read k))
  | None => (-1, k)
  end.

Definition small_stat (path : bytes) (k : small) : option stat64 * small :=
  ((λ i, Stat KindRegular (zlen (default [] (sm_inodes k !! i)))) <$> sm_names k !! path, k).

Definition small_kernel : posix small := {|
  px_errno _ := 9;
  px_open path flags _ := small_open path flags;
  px_openat _ path flags _ := small_open path flags;
  px_close := small_close;
  px_mkostemp templ _ k := let '(fd, k) := small_open templ O_CREAT k in ((fd, templ), k);
  px_dup := small_dup;
  px_dupfd_cloexec := small_dup;
  px_getfd _ k := (0, k);
  px_setfd _ _ k := (0, k);
  px_fsync _ k := (0, k);
  px_read := small_read;
  px_write := small_write;
  px_mkdirat _ _ _ k := (-1, k);
  px_unlinkat _ path _ := small_unlink path;
  px_renameat _ from _ to := small_rename from to;
  px_fstatat _ := small_stat;
  px_stat := small_stat;
  px_mkdtemp _ k := (None, k);
  px_mkdir _ _ k := (-1, k);
  px_rmdir _ k := (0, k);
  px_access path _ k := (if decide (is_Some (sm_names k !! path)) then 0 else -1, k);
  px_getenv _ _ := None;
  px_opendir _ k := (None, k);
  px_fdopendir := small_fdopendir;
  px_readdir := small_readdir;
  px_closedir := small_closedir;
  px_dirfd p k := default (-1) (fst <$> sm_dirs k !! p);
  px_getcwd size k := (if size <=? 20000 then None else Some (replicate (Z.to_nat 19999) 97), k);
  px_readlink _ size k := ((Z.min size 5000, ztake size (replicate (Z.to_nat 5000) 97)), k);
  px_realpath path k := (Some path, k)
|}.
#[global] Instance small_view : FdView small := {| fds k := dom (sm_fds k); dirs k := fst <$> sm_dirs k |}.

Lemma above_fresh s : 0 <= above s ∧ above s ∉ s.
Proof.
  assert (Hmax : ∀ l : list Z, -1 <= foldr Z.max (-1) l ∧ ∀ x, x ∈ l → x <= foldr Z.max (-1) l).
  { induction l as [|y l [IH1 IH2]]; simpl; [split; [lia|intros ? []%not_elem_of_nil]|].
    split; [lia|]. intros x [->|Hx]%elem_of_cons; [lia|]. specialize (IH2 x Hx). lia. }
  unfold above. destruct (Hmax (elements s)) as [H1 H2]. split; [lia|].
  intros Hin%elem_of_elements%H2. lia.
Qed.

Lemma small_fd_opens o k : dirs (small_fd o k).2 = dirs k ∧
  0 <= (small_fd o k).1 ∧ (small_fd o k).1 ∉ fds k ∧ fds (small_fd o k).2 = {[(small_fd o k).1]} ∪ fds k.
Proof.
  destruct (above_fresh (dom (sm_fds k))) as [H1 H2]. cbn. split_and!; auto. by rewrite dom_insert_L.
Qed.

Lemma small_open_opens path flags : opens Datatypes.id (small_open path flags).
Proof.
  intros k. unfold small_open.
  repeat first [case_match | case_if]; try (simpl; split; [done|left; split; [lia|done]]).
  all: match goal with |- context [small_fd ?o ?k'] =>
         destruct (small_fd_opens o k') as (?&?&?&?) end;
    split; [done|right; split_and!; done].
Qed.
Lemma small_dup_opens fd : opens Datatypes.id (small_dup fd).
Proof.
  intros k. unfold small_dup. case_match; [|simpl; split; [done|left; split; [lia|done]]].
  match goal with |- context [small_fd ?o ?k'] =>
    destruct (small_fd_opens o k') as (?&?&?&?) end.
  split; [done|right; split_and!; done].
Qed.

(** The small kernel keeps the promises. *)
Lemma small_fd_laws : fd_laws small_kernel.
Proof.
  split; cbn [small_kernel px_open px_openat px_mkostemp px_dup px_dupfd_cloexec px_close px_getfd px_setfd
    px_fsync px_read px_mkdirat px_unlinkat px_rmdir px_readdir px_fdopendir px_closedir]; intros.
  - apply small_open_opens.
  - apply small_open_opens.
  - intros k. pose proof (small_open_opens templ O_CREAT k) as Ho.
    destruct (small_open templ O_CREAT k). exact Ho.
  - apply small_dup_opens.
  - apply small_dup_opens.
  - unfold small_close. destruct (sm_fds k !! fd) eqn:E; cbn; split; try done.
    + apply dom_delete_L.
    + apply not_elem_of_dom in E. set_solver.
  - done.
  - done.
  - done.
  - intros k. unfold small_read, same_fds. destruct (sm_fds k !! fd) as [[|]|] eqn:E; cbn; try done.
    split; [|done]. rewrite dom_insert_L. assert (fd ∈ dom (sm_fds k)) by (apply elem_of_dom; eauto). set_solver.
  - done.
  - intros k. unfold small_unlink, same_fds. by destruct (sm_names k !! path).
  - done.
  - intros k. unfold small_readdir, same_fds. destruct (sm_dirs k !! p) as [[fd [|n ns]]|] eqn:E; cbn; try done.
    split; [done|]. rewrite fmap_insert. apply insert_id. by rewrite lookup_fmap, E.
  - unfold small_fdopendir. destruct (sm_fds k !! fd) as [[o|]|]; cbn; try done.
    split; [done|]. rewrite fmap_insert, lookup_fmap. split; [|done].
    destruct (above_fresh (dom (sm_dirs k))) as [_ Hf]. apply not_elem_of_dom in Hf. by rewrite Hf.
  - match goal with Hp : dirs _ !! _ = Some _ |- _ => cbn in Hp; rewrite lookup_fmap in Hp end.
    unfold small_closedir. destruct (sm_dirs k !! p) as [[fd' ns]|]; simplify_eq/=.
    split; [apply dom_delete_L|apply fmap_delete].
Qed.

(** ** Descriptors are closed exactly once *)

Section fd_theorems.
Context {K : Type} `{FdView K} (os : posix K) (Hlaws : fd_laws os).
Implicit Types (frame : gset Z) (D : gmap Z Z) (k : K).

Lemma owned_neg raw : raw < 0 → owned raw = ∅.
Proof. unfold owned. destruct (Z.leb_spec 0 raw); [lia|done]. Qed.
Lemma owned_nonneg raw : 0 <= raw → owned raw = {[raw]}.
Proof. unfold owned. destruct (Z.leb_spec 0 raw); [done|lia]. Qed.

(** Closing what is owned, as the code writes it: only when the descriptor is set. *)
Lemma close_owned frame D raw k k' : owns frame D (raw, k) →
  k' = (if 0 <=? raw then (px_close os raw k).2 else k) → fds k' = frame ∧ dirs k' = D.
Proof using Hlaws.
  intros (Hf & Hd & HD) ->. unfold owned in *. cbn in *. destruct (0 <=? raw).
  - destruct (law_close os Hlaws raw k) as [-> ->]. set_solver.
  - set_solver.
Qed.

Lemma destroy_owned frame D s : owns frame D s → fds (fd_destroy os s) = frame ∧ dirs (fd_destroy os s) = D.
Proof using Hlaws.
  destruct s as [raw k]. intros Ho. unfold fd_destroy, fd_close_nothrow. cbn.
  apply (close_owned frame D raw k _ Ho). by destruct (0 <=? raw).
Qed.

Lemma owns_same frame D raw k k' : owns frame D (raw, k) → same_fds k k' → owns frame D (raw, k').
Proof. unfold owns, same_fds. cbn. intros (-> & ? & <-) [-> ->]. done. Qed.

Lemma owns_none frame D k : fds k = frame → dirs k = D → owns frame D (-1, k).
Proof. intros <- <-. unfold owns, owned. cbn. set_solver. Qed.

(** The new descriptor beside the old one. *)
Lemma opens_owned {A} (ret : A → Z) (call : K → A * K) frame D raw k : opens ret call → owns frame D (raw, k) →
  (ret (call k).1 < 0 ∧ owns frame D (raw, (call k).2)) ∨
  (0 <= ret (call k).1 ∧ owns (frame ∪ owned raw) D (ret (call k).1, (call k).2)).
Proof.
  intros Ho (Hf & Hd & HD). destruct (Ho k) as [HD' [[Hr Hf'] | (Hr & Hn & Hf')]].
  - left. split; [done|]. apply (owns_same _ _ _ k); [done|]. done.
  - right. split; [done|]. unfold owns. cbn in *. rewrite (owned_nonneg (ret _)) by done.
    rewrite Hf', HD', Hf. split_and!; set_solver.
Qed.

(** The old descriptor is closed, whatever [close] says. *)
Lemma owns_swap frame D raw new k : owns (frame ∪ owned raw) D (new, k) → owned raw ## frame →
  owns frame D (new, if 0 <=? raw then (px_close os raw k).2 else k).
Proof using Hlaws.
  intros (Hf & Hd & HD) Hdis. unfold owns. cbn in *. destruct (Z.leb_spec 0 raw).
  - destruct (law_close os Hlaws raw k) as [-> ->]. rewrite Hf. rewrite (owned_nonneg raw) in * by done.
    set_solver.
  - rewrite (owned_neg raw) in * by done. set_solver.
Qed.

(** The two ways in which the functions that replace the descriptor end. *)
Lemma fd_reset_owns frame D raw fd k : owns (frame ∪ owned raw) D (fd, k) → owned raw ## frame →
  let '(r, s) := fd_reset os fd (raw, k) in
  (r = Ok tt ∧ owns frame D s) ∨
  (is_ok r = false ∧ 0 <= raw ∧ s.1 = raw ∧ raw ∉ fds s.2 ∧ fds s.2 = frame).
Proof using Hlaws.
  intros Ho Hdis. pose proof (owns_swap _ _ _ _ _ Ho Hdis) as Hs.
  unfold fd_reset. destruct (Z.leb_spec 0 raw); [|left; done].
  destruct (px_close os raw k) as [ret k'] eqn:E. cbn in Hs. destruct (ret <? 0); [|left; done].
  right. cbn. split_and!; try done.
  all: destruct (close_owned _ _ _ _ _ Hs eq_refl) as [-> _].
  { rewrite owned_nonneg in Hdis by done. set_solver. }
  done.
Qed.

Lemma fd_replace_owns frame D raw new k : owns (frame ∪ owned raw) D (new, k) → owned raw ## frame →
  owns frame D (fd_replace os new (raw, k)).2.
Proof using Hlaws. intros Ho Hd. exact (owns_swap _ _ _ _ _ Ho Hd). Qed.

Lemma sys_same (call : K → Z * K) k : keeps call → same_fds k (sys os call k).2.
Proof.
  intros Hk. specialize (Hk k). unfold sys. destruct (call k) as [ret k']. by destruct (ret <? 0).
Qed.

Lemma fd_open_owns (call : K → Z * K) frame D s : opens Datatypes.id call → owns frame D s →
  owns frame D ((ret ← with_kernel (sys os call); fd_replace os ret) s).2.
Proof using Hlaws.
  destruct s as [raw k]. intros Ho Hs. pose proof Hs as (_ & Hdis & _).
  unfold mbind, sx_bind, with_kernel, sx_on, sys. cbn [fst snd].
  destruct (opens_owned _ call _ _ raw k Ho Hs) as [[Hr H1] | [Hr H1]]; destruct (call k) as [ret k']; cbn in *.
  - destruct (Z.ltb_spec ret 0); [done|lia].
  - destruct (Z.ltb_spec ret 0); [lia|]. exact (fd_replace_owns _ _ _ _ _ H1 Hdis).
Qed.

(** The outcome of an operation: the object owns its descriptor, or [reset] failed
    and the object holds the number of a descriptor that is already closed. *)
Definition fd_outcome frame D (op : fd_op) (s : Z * K) (r : res unit) (s' : Z * K) : Prop :=
  owns (op_frame op s frame) D s' ∨
  (resets op = true ∧ is_ok r = false ∧ 0 <= s'.1 ∧ s'.1 ∉ fds s'.2 ∧ s'.1 = s.1 ∧
   fds s'.2 = op_frame op s frame).

(** The operations that open a file and then call [reset]. *)
Lemma opens_reset_outcome {A} (ret : A → Z) (call : K → A * K) frame D op raw k : opens ret call →
  resets op = true → op_frame op (raw, k) frame = frame → owns frame D (raw, k) →
  let '(a, k') := call k in
  (ret a < 0 → ∀ r, fd_outcome frame D op (raw, k) r (raw, k')) ∧
  (0 <= ret a → fd_outcome frame D op (raw, k) (fd_reset os (ret a) (raw, k')).1 (fd_reset os (ret a) (raw, k')).2).
Proof using Hlaws.
  intros Ho Hop Hfr Hs. pose proof Hs as (_ & Hdis & _). unfold fd_outcome. rewrite Hfr, Hop.
  destruct (opens_owned _ call _ _ raw k Ho Hs) as [[Hr H1] | [Hr H1]]; destruct (call k) as [a k']; cbn [fst snd] in *.
  - split; [intros _ r; by left|lia].
  - split; [lia|]. intros _. pose proof (fd_reset_owns _ _ _ _ _ H1 Hdis) as Hreset.
    destruct (fd_reset os (ret a) (raw, k')) as [r s']. cbn [fst snd].
    destruct Hreset as [[_ Hr1]|(Hr1&Hr2&Hr3&Hr4&Hr5)].
    { left. exact Hr1. }
    right. rewrite Hr3. done.
Qed.
End fd_theorems.

Section fd_traces.
Context {K : Type} `{FdView K} (os : posix K) (Hlaws : fd_laws os).
Implicit Types (frame : gset Z) (D : gmap Z Z) (k : K).

(** A system call on the descriptor that opens and closes nothing. *)
Lemma sys_owns (call : K → Z * K) frame D raw k : keeps call → owns frame D (raw, k) →
  owns frame D (let '(r, k) := sys os call k in ((λ _ : Z, tt) <$> r, (raw, k))).2.
Proof.
  intros Hk Ho. pose proof (sys_same os call k Hk) as Hs. destruct (sys os call k).
  exact (owns_same _ _ _ _ _ Ho Hs).
Qed.

Lemma fd_run_outcome frame D op s : op_allowed op frame → owns frame D s →
  fd_outcome frame D op s (fd_run os op s).1 (fd_run os op s).2.
Proof using Hlaws.
  destruct s as [raw k]. intros Hal Ho. pose proof Ho as (Hf & Hdis & HD).
  destruct op; cbn [fd_run].
  - assert (owns (frame ∖ owned fd ∪ owned raw) D (fd, k)) as H1.
    { unfold owns. cbn in *. rewrite Hf. split_and!; [|set_solver|done].
      apply set_eq. intros x. destruct (decide (x ∈ owned fd)); set_solver. }
    pose proof (fd_reset_owns os Hlaws _ _ _ _ _ H1 ltac:(set_solver)) as Hr.
    destruct (fd_reset os fd (raw, k)) as [r s']. unfold fd_outcome. cbn [op_frame resets fst snd].
    destruct Hr as [[_ Hr1]|(Hr1&Hr2&Hr3&Hr4&Hr5)]; [left; exact Hr1|right].
    rewrite Hr3. done.
  - left. exact (fd_open_owns os Hlaws _ _ _ _ (law_open os Hlaws _ _ _) Ho).
  - left. exact (fd_open_owns os Hlaws _ _ _ _ (law_openat os Hlaws _ _ _ _) Ho).
  - pose proof (opens_reset_outcome os Hlaws fst (px_mkostemp os (path ++ str "XXXXXX") O_CLOEXEC)
      _ _ (OpMkstemp path) raw k (law_mkostemp os Hlaws _ _) eq_refl eq_refl Ho) as Hm.
    unfold ignore, fd_mkstemp. destruct (px_mkostemp os _ _ k) as [[newfd name] k'] eqn:E.
    cbn [fst] in Hm. destruct (Z.ltb_spec newfd 0); [by apply Hm|].
    destruct Hm as [_ Hm]. specialize (Hm ltac:(done)). unfold mbind, sx_bind, mret, sx_ret.
    destruct (fd_reset os newfd (raw, k')) as [[[]|e] s']; exact Hm.
  - pose proof (opens_reset_outcome os Hlaws Datatypes.id (px_dupfd_cloexec os fd)
      _ _ (OpDup fd) raw k (law_dupfd os Hlaws _) eq_refl eq_refl Ho) as Hm.
    unfold fd_dup, mbind, sx_bind, with_kernel, sx_on, sys. cbn [fst snd].
    destruct (px_dupfd_cloexec os fd k) as [newfd k'] eqn:E.
    unfold Datatypes.id in Hm. destruct (Z.ltb_spec newfd 0); [by apply Hm|]. by apply Hm.
  - left. cbn [op_frame]. unfold fd_set_close_on_exec.
    pose proof (law_getfd os Hlaws raw k) as Hk. destruct (px_getfd os raw k) as [flags k'].
    pose proof (owns_same _ _ _ _ _ Ho Hk) as Ho'. destruct (flags =? -1); [exact Ho'|].
    match goal with |- context [px_setfd os raw ?f k'] =>
      pose proof (law_setfd os Hlaws raw f k') as Hk'; destruct (px_setfd os raw f k') as [ret k''] end.
    pose proof (owns_same _ _ _ _ _ Ho' Hk'). by destruct (ret =? -1).
  - left. cbn [op_frame]. unfold ignore, fd_close_on_exec.
    pose proof (law_getfd os Hlaws raw k) as Hk. destruct (px_getfd os raw k) as [flags k'].
    pose proof (owns_same _ _ _ _ _ Ho Hk). by destruct (flags =? -1).
  - left. cbn [op_frame]. unfold fd_close.
    pose proof (close_owned os Hlaws frame D raw k _ Ho eq_refl) as Hc.
    destruct (Z.ltb_spec raw 0); [done|]. destruct (Z.leb_spec 0 raw); [|lia].
    destruct (px_close os raw k) as [ret k']. destruct Hc.
    destruct (negb (ret =? 0)); by apply (owns_none os).
  - left. cbn [op_frame]. unfold fd_close_nothrow. cbn [fst snd].
    pose proof (close_owned os Hlaws frame D raw k _ Ho eq_refl) as Hc.
    destruct (Z.leb_spec 0 raw); [|done]. destruct Hc. by apply (owns_none os).
  - left. unfold ignore, fd_release, owns. cbn [fst snd op_frame]. rewrite (owned_neg (-1)) by lia.
    cbn in *. set_solver.
  - left. exact (sys_owns _ _ _ _ _ (law_fsync os Hlaws raw) Ho).
  - left. cbn [op_frame]. unfold ignore, fd_read.
    pose proof (law_read os Hlaws raw length k) as Hk. destruct (px_read os raw length k) as [[ret buf] k'].
    pose proof (owns_same _ _ _ _ _ Ho Hk). by destruct (ret <? 0).
  - left. exact (sys_owns _ _ _ _ _ (law_mkdirat os Hlaws raw _ _) Ho).
  - left. exact (sys_owns _ _ _ _ _ (law_unlinkat os Hlaws raw _ _) Ho).
Qed.

(** A run of the program that uses one object: calls of member functions, whose
    exceptions the caller handles, and whatever the rest of the program opens and
    closes for itself.  The run ends where [reset] fails to close the old descriptor. *)
Inductive fd_trace : gset Z → gmap Z Z → Z * K → Prop :=
| trace_new frame D k : fds k = frame → dirs k = D → fd_trace frame D (fd_new, k)
| trace_op frame D op s : fd_trace frame D s → op_allowed op frame →
    (resets op = true → is_ok (fd_run os op s).1 = true ∨ fds (fd_run os op s).2.2 = fds s.2) →
    fd_trace (op_frame op s frame) D (fd_run os op s).2
| trace_environment frame D frame' D' raw k k' : fd_trace frame D (raw, k) →
    fds k' = frame' ∪ owned raw → owned raw ## frame' → dirs k' = D' → fd_trace frame' D' (raw, k').

(** C28: While an [fd_handle] is used, whatever the system calls return and whatever
    exceptions are thrown, the object owns exactly one open descriptor or none: the
    open descriptors are the ones of the rest of the program and the one in the
    object, which nobody else owns, and its destructor leaves exactly the rest open.
    The one exception, which ends the run, is [reset] (and [dup] and [mkstemp],
    which use it) when closing the old descriptor fails: then the object keeps the
    number of a closed descriptor. *)
Theorem fd_handle_ownership frame D s : fd_trace frame D s →
  owns frame D s ∧ fds (fd_destroy os s) = frame ∧ dirs (fd_destroy os s) = D.
Proof using Hlaws.
  intros Ht. cut (owns frame D s); [intros Ho; split; [done|exact (destroy_owned os Hlaws _ _ _ Ho)]|].
  induction Ht as [frame D k Hf HD|frame D op s _ IH Hal Hok|frame D frame' D' raw k k' _ IH Hf Hd HD].
  - by apply (owns_none os).
  - destruct (fd_run_outcome _ _ _ _ Hal IH) as [Ho|(Hr & Hno & Hraw & Hn & Heq & Hfr)]; [done|].
    destruct (Hok Hr) as [Hyes|Hsame]; [congruence|].
    exfalso. apply Hn. rewrite Hsame, Heq. destruct IH as (-> & _). rewrite Heq in Hraw.
    rewrite (owned_nonneg s.1) by done. set_solver.
  - done.
Qed.

(** [reset] after a failing [close]: the destructor closes the same number again. *)
Lemma fd_reset_stale frame D raw fd k e s : owns frame D (raw, k) → owned fd ⊆ frame →
  fd_reset os fd (raw, k) = (Throw e, s) →
  s.1 = raw ∧ 0 <= raw ∧ raw ∉ fds s.2 ∧ fd_destroy os s = (px_close os raw s.2).2.
Proof using Hlaws.
  intros Ho Hfd Hr. pose proof (fd_run_outcome frame D (OpReset fd) _ Hfd Ho) as Hout.
  cbn [fd_run] in Hout. rewrite Hr in Hout. unfold fd_reset in Hr. 
  destruct Hout as [Hown|(_ & _ & H1 & H2 & H3 & _)].
  - exfalso. destruct Ho as (Hf & Hdis & _), Hown as (Hf' & Hdis' & _).
    destruct (Z.leb_spec 0 raw); [|done].
    pose proof (law_close os Hlaws raw k) as Hc. destruct (px_close os raw k) as [ret k'] eqn:E.
    destruct (ret <? 0); [|done]. injection Hr as _ <-. cbn [fst snd op_frame] in *.
    rewrite (owned_nonneg raw) in * by done.
    assert (raw ∉ fds k') as Hn by (destruct Hc as [-> _]; set_solver).
    destruct (Z.leb_spec 0 fd); [destruct (law_close os Hlaws fd k') as [Hc' _]; rewrite Hc' in Hf'|]; set_solver.
  - cbn [fst snd] in *. subst raw. split_and!; try done. unfold fd_destroy, fd_close_nothrow.
    destruct (Z.leb_spec 0 s.1); [done|lia].
Qed.
End fd_traces.

Lemma fd_handle_ownership_witness :
  let s := (fd_run small_kernel (OpOpen (str "f") O_CREAT 0) (fd_new, Small ∅ ∅ ∅ ∅ ∅)).2 in
  s.1 = 0 ∧ owns (∅ : gset Z) ∅ s ∧ fds (fd_destroy small_kernel s) = ∅ ∧ dirs (fd_destroy small_kernel s) = ∅.
Proof.
  split; [reflexivity|].
  apply (fd_handle_ownership small_kernel small_fd_laws ∅ ∅).
  refine (trace_op small_kernel ∅ ∅ (OpOpen (str "f") O_CREAT 0) (fd_new, _) _ I _).
  { apply trace_new; reflexivity. }
  discriminate.
Defined.

(** ** remove_directory_tree leaks no descriptor *)

Section rdt.
Context {K : Type} `{FdView K} (os : posix K) (Hlaws : fd_laws os).
Context (F : gset Z) (D : gmap Z Z).

(** The descriptors and streams of the stack on top of [F] and [D]. *)
Fixpoint stack_owns (stack : list dir_entry) (FS : gset Z) (DS : gmap Z Z) : Prop :=
  match stack with
  | [] => FS = F ∧ DS = D
  | DirEntry None _ :: stack => stack_owns stack FS DS
  | DirEntry (Some p) _ :: stack => ∃ fd FS0 DS0, stack_owns stack FS0 DS0 ∧ fd ∉ FS0 ∧ DS0 !! p = None ∧
      FS = {[fd]} ∪ FS0 ∧ DS = <[p := fd]> DS0
  end.

Definition rdt_ok (s : rdt) : Prop :=
  ∃ FS DS, stack_owns (rdt_stack s) FS DS ∧ owns FS DS (rdt_fd s, rdt_k s).

Lemma rdt_ok_same fd stack k k' : rdt_ok (Rdt fd stack k) → same_fds k k' → rdt_ok (Rdt fd stack k').
Proof. intros (FS & DS & Hst & Ho) Hs. exists FS, DS. split; [done|]. exact (owns_same _ _ _ _ _ Ho Hs). Qed.

Lemma dir_destroy_ok fd e stack k : rdt_ok (Rdt fd (e :: stack) k) →
  rdt_ok (Rdt fd stack (dir_destroy os (de_raw e) k)).
Proof using Hlaws.
  destruct e as [[p|] n]; [|done]. intros (FS & DS & (f & FS0 & DS0 & Hst & Hf & Hp & -> & ->) & (Hfd & Hdis & HD)).
  exists FS0, DS0. split; [done|]. cbn in *.
  destruct (law_closedir os Hlaws p k f) as [H1 H2]; [by rewrite HD, lookup_insert_eq|].
  unfold owns. cbn. rewrite H1, H2, Hfd, HD. split_and!; [set_solver|set_solver|by apply delete_insert_id].
Qed.

Lemma rdt_destroy_ok s : rdt_ok s → fds (rdt_destroy os s) = F ∧ dirs (rdt_destroy os s) = D.
Proof using Hlaws.
  destruct s as [fd stack k]. unfold rdt_destroy. cbn. revert k.
  induction stack as [|e stack IH]; intros k Hok; cbn; [|by apply IH, dir_destroy_ok].
  destruct Hok as (FS & DS & [-> ->] & Ho). exact (destroy_owned os Hlaws _ _ _ Ho).
Qed.

Lemma push_directory_ok name s : rdt_ok s → 0 <= rdt_fd s → rdt_ok (push_directory os name s).2.
Proof using Hlaws.
  destruct s as [fd stack k]. unfold push_directory. cbn. intros (FS & DS & Hst & (Hf & Hdis & HD)) Hnn.
  pose proof (law_fdopendir os Hlaws fd k) as Hl. destruct (px_fdopendir os fd k) as [[p|] k'].
  - destruct Hl as (Hf' & Hp & HD'). cbn in *. rewrite owned_nonneg in * by done.
    exists ({[fd]} ∪ FS), (<[p := fd]> DS). cbn. split.
    + exists fd, FS, DS. split_and!; try done; [set_solver|congruence].
    + unfold owns. cbn. split_and!; [set_solver|set_solver|congruence].
  - destruct Hl as [Hf' HD']. exists FS, DS. split; [done|]. apply (owns_same _ _ _ k); done.
Qed.

Lemma leave_directory_ok name s : rdt_ok s → rdt_ok (leave_directory os name s).2.
Proof using Hlaws.
  intros Hok. assert (Hpop : rdt_ok (stack_pop os s)).
  { destruct s as [fd [|e stack] k]; [done|]. by apply dir_destroy_ok. }
  unfold leave_directory. destruct (stack_pop os s) as [fd stack k]. cbn.
  case_bool_decide; [done|]. destruct stack as [|[[parent|] n] stack]; [done| |done].
  match goal with |- context [px_unlinkat os ?d ?n ?f k] =>
    pose proof (law_unlinkat os Hlaws d n f k) as Hu; destruct (px_unlinkat os d n f k) as [ret k'] end.
  exact (rdt_ok_same _ _ _ _ Hpop Hu).
Qed.

(** [open] and [openat] return with an open descriptor. *)
Lemma fd_open_nonneg (call : K → Z * K) s s' :
  (ret ← with_kernel (sys os call); fd_replace os ret) s = (Ok tt, s') → 0 <= s'.1.
Proof.
  destruct s as [raw k]. unfold mbind, sx_bind, with_kernel, sx_on, sys. cbn.
  destruct (call k) as [ret k']. destruct (Z.ltb_spec ret 0); [done|]. by intros [= <-].
Qed.

Lemma remove_entry_ok p name s : rdt_ok s → rdt_ok (remove_entry os p name s).2.
Proof using Hlaws.
  destruct s as [fd stack k]. intros Hok. unfold remove_entry. cbn [rdt_fd rdt_stack rdt_k].
  destruct (is_dot_entry name); [done|].
  pose proof (law_unlinkat os Hlaws (px_dirfd os p k) name 0 k) as Hu.
  destruct (px_unlinkat os _ name 0 k) as [ret k']. pose proof (rdt_ok_same _ _ _ _ Hok Hu) as Hok'.
  destruct (ret =? 0); [done|]. destruct (px_errno os k' =? EISDIR); [|done].
  destruct Hok' as (FS & DS & Hst & Ho).
  set (flags := Z.lor (Z.lor O_RDONLY O_DIRECTORY) O_CLOEXEC).
  assert (Ho' : owns FS DS (fd_openat os (px_dirfd os p k) name flags 0 (fd, k')).2)
    by exact (fd_open_owns os Hlaws _ _ _ _ (law_openat os Hlaws _ _ _ _) Ho).
  destruct (fd_openat os (px_dirfd os p k) name flags 0 (fd, k')) as [[[]|e] [fd' k'']] eqn:E.
  - apply push_directory_ok; [by exists FS, DS|]. exact (fd_open_nonneg _ _ _ E).
  - by exists FS, DS.
Qed.

(** One round of the loop. *)
Definition rdt_round (p : Z) (name : bytes) (s : rdt) : res unit * rdt :=
  let '(e, err, k) := px_readdir os p (rdt_k s) in
  let s := Rdt (rdt_fd s) (rdt_stack s) k in
  match e with
  | None => if negb (err =? 0) then (Throw (os_exception err), s) else leave_directory os name s
  | Some entry => remove_entry os p entry s
  end.

Lemma rdt_loop_S fuel fd p name stack k : rdt_loop os (S fuel) (Rdt fd (DirEntry (Some p) name :: stack) k) =
  match rdt_round p name (Rdt fd (DirEntry (Some p) name :: stack) k) with
  | (Throw e, s) => Some (Throw e, s) | (Ok _, s) => rdt_loop os fuel s end.
Proof. cbn. unfold rdt_round. cbn. destruct (px_readdir os p k) as [[[e|] err] k']; cbn; by repeat case_match. Qed.

Lemma rdt_round_ok p name s : rdt_ok s → rdt_ok (rdt_round p name s).2.
Proof using Hlaws.
  destruct s as [fd stack k]. intros Hok. unfold rdt_round. cbn.
  pose proof (law_readdir os Hlaws p k) as Hr. destruct (px_readdir os p k) as [[e err] k'].
  pose proof (rdt_ok_same _ _ _ _ Hok Hr) as Hok'.
  destruct e; [by apply remove_entry_ok|]. destruct (negb _); [done|]. by apply leave_directory_ok.
Qed.

Lemma rdt_loop_ok fuel s r s' : rdt_ok s → rdt_loop os fuel s = Some (r, s') → rdt_ok s'.
Proof using Hlaws.
  revert s. induction fuel as [|fuel IH]; intros [fd [|[[p|] name] stack] k] Hok.
  1-4: by intros [= <- <-].
  - rewrite rdt_loop_S. pose proof (rdt_round_ok p name _ Hok) as Hr.
    destruct (rdt_round p name _) as [[[]|e] s1]; [by apply IH|by intros [= <- <-]].
  - by intros [= <- <-].
Qed.
End rdt.

(** ** remove_directory_tree terminates *)

(** While nobody else adds entries, the number of entries that [readdir] can still
    return, in the open streams and in the directories that can still be opened,
    bounds the work. *)
Record quiet {K} (os : posix K) (entries : K → nat) : Prop := {
  quiet_readdir p k : let '(e, _, k') := px_readdir os p k in
    (match e with Some _ => S (entries k') | None => entries k' end <= entries k)%nat;
  quiet_open path flags mode k : (entries (px_open os path flags mode k).2 <= entries k)%nat;
  quiet_openat fd path flags mode k : (entries (px_openat os fd path flags mode k).2 <= entries k)%nat;
  quiet_unlinkat fd path flags k : (entries (px_unlinkat os fd path flags k).2 <= entries k)%nat;
  quiet_close fd k : (entries (px_close os fd k).2 <= entries k)%nat;
  quiet_fdopendir fd k : (entries (px_fdopendir os fd k).2 <= entries k)%nat;
  quiet_closedir p k : (entries (px_closedir os p k).2 <= entries k)%nat
}.

Section rdt_termination.
Context {K : Type} (os : posix K) (entries : K → nat) (Hq : quiet os entries).

Definition rdt_measure (s : rdt) : nat := 2 * entries (rdt_k s) + length (rdt_stack s).

Lemma fd_open_entries (call : K → Z * K) s : (∀ k, entries (call k).2 <= entries k)%nat →
  (entries ((ret ← with_kernel (sys os call); fd_replace os ret) s).2.2 <= entries s.2)%nat.
Proof using Hq.
  destruct s as [raw k]. intros Hc. specialize (Hc k). unfold mbind, sx_bind, with_kernel, sx_on, sys. cbn.
  destruct (call k) as [ret k']. cbn in *. destruct (ret <? 0); cbn; [done|].
  pose proof (quiet_close os entries Hq raw k'). destruct (0 <=? raw); [|done]. lia.
Qed.

Lemma leave_directory_measure name e stack fd k s' :
  leave_directory os name (Rdt fd (e :: stack) k) = (Ok tt, s') →
  (rdt_measure s' <= 2 * entries k + length stack)%nat.
Proof using Hq.
  unfold leave_directory, stack_pop. cbn [rdt_stack rdt_fd rdt_k]. set (k1 := dir_destroy os (de_raw e) k).
  assert (entries k1 <= entries k)%nat.
  { subst k1. unfold dir_destroy. destruct (de_raw e); [apply (quiet_closedir os entries Hq)|done]. }
  case_bool_decide; [intros [= <-]; unfold rdt_measure; cbn; lia|].
  destruct stack as [|[[parent|] n] stack]; [done| |done].
  pose proof (quiet_unlinkat os entries Hq (px_dirfd os parent k1) name AT_REMOVEDIR k1) as Hu.
  destruct (px_unlinkat os _ name _ k1) as [ret k2]. destruct (negb _); [done|]. intros [= <-].
  unfold rdt_measure. cbn in *. lia.
Qed.

Lemma remove_entry_measure p name s s' : remove_entry os p name s = (Ok tt, s') →
  (rdt_measure s' <= S (rdt_measure s))%nat.
Proof using Hq.
  destruct s as [fd stack k]. unfold remove_entry. cbn [rdt_fd rdt_stack rdt_k].
  destruct (is_dot_entry name); [intros [= <-]; lia|].
  pose proof (quiet_unlinkat os entries Hq (px_dirfd os p k) name 0 k) as Hu.
  destruct (px_unlinkat os _ name 0 k) as [ret k1]. cbn in Hu.
  destruct (ret =? 0); [intros [= <-]; unfold rdt_measure; cbn; lia|].
  destruct (px_errno os k1 =? EISDIR); [|done].
  set (flags := Z.lor (Z.lor O_RDONLY O_DIRECTORY) O_CLOEXEC).
  assert (Ho : (entries (fd_openat os (px_dirfd os p k) name flags 0 (fd, k1)).2.2 <= entries k1)%nat)
    by exact (fd_open_entries _ (fd, k1) (quiet_openat os entries Hq _ _ _ _)).
  destruct (fd_openat os _ name flags 0 (fd, k1)) as [[[]|e] [fd' k2]]; [|done].
  unfold push_directory. cbn [rdt_fd rdt_stack rdt_k fst snd] in *.
  pose proof (quiet_fdopendir os entries Hq fd' k2) as Hf. destruct (px_fdopendir os fd' k2) as [[d|] k3]; [|done].
  intros [= <-]. unfold rdt_measure. cbn in *. lia.
Qed.

Lemma rdt_loop_total fuel fd stack k : (rdt_measure (Rdt fd stack k) <= fuel)%nat →
  is_Some (rdt_loop os fuel (Rdt fd stack k)).
Proof using Hq.
  revert fd stack k. induction fuel as [|fuel IH]; intros fd [|[[p|] name] stack] k Hm;
    try (by eexists); [unfold rdt_measure in Hm; cbn in Hm; lia|unfold rdt_measure in Hm; cbn in Hm; lia|].
  rewrite rdt_loop_S. destruct (rdt_round os p name _) as [[[]|e] [fd' st' k']] eqn:E; [|by eexists].
  apply IH. unfold rdt_round in E. cbn [rdt_fd rdt_stack rdt_k] in E.
  pose proof (quiet_readdir os entries Hq p k) as Hr. destruct (px_readdir os p k) as [[[entry|] err] k1].
  - apply remove_entry_measure in E. unfold rdt_measure in *. cbn in *. lia.
  - destruct (negb _); [done|]. apply leave_directory_measure in E. unfold rdt_measure in *. cbn in *. lia.
Qed.
End rdt_termination.


(** A directory tree given by the answers of [readdir], an empty name for the end of
    a directory; names that begin with [d] are directories. *)
Record tape := Tape { tp_fds : gset Z; tp_dirs : gmap Z Z; tp_left : list bytes }.
#[global] Instance tape_view : FdView tape := {| fds := tp_fds; dirs := tp_dirs |}.

Definition tape_open (k : tape) : Z * tape :=
  let fd := above (tp_fds k) in (fd, Tape ({[fd]} ∪ tp_fds k) (tp_dirs k) (tp_left k)).
Definition tape_kernel : posix tape := {|
  px_errno _ := EISDIR;
  px_open _ _ _ := tape_open; px_openat _ _ _ _ := tape_open;
  px_close fd k := (0, Tape (tp_fds k ∖ {[fd]}) (tp_dirs k) (tp_left k));
  px_mkostemp _ _ k := ((-1, []), k); px_dup _ := tape_open; px_dupfd_cloexec _ := tape_open;
  px_getfd _ k := (0, k); px_setfd _ _ k := (0, k); px_fsync _ k := (0, k);
  px_read _ _ k := ((0, []), k); px_write _ _ k := (-1, k); px_mkdirat _ _ _ k := (0, k);
  px_unlinkat _ name flags k := (if (flags =? 0) && bool_decide (take 1 name = str "d") then -1 else 0, k);
  px_renameat _ _ _ _ k := (0, k); px_fstatat _ _ k := (None, k); px_stat _ k := (None, k);
  px_mkdtemp _ k := (None, k); px_mkdir _ _ k := (0, k); px_rmdir _ k := (0, k);
  px_access _ _ k := (0, k); px_getenv _ _ := None; px_opendir _ k := (None, k);
  px_fdopendir fd k :=
    let p := above (dom (tp_dirs k)) in (Some p, Tape (tp_fds k) (<[p := fd]> (tp_dirs k)) (tp_left k));
  px_readdir _ k :=
    match tp_left k with
    | [] => ((None, 0), k)
    | [] :: rest => ((None, 0), Tape (tp_fds k) (tp_dirs k) rest)
    | name :: rest => ((Some name, 0), Tape (tp_fds k) (tp_dirs k) rest)
    end;
  px_closedir p k :=
    (0, Tape (match tp_dirs k !! p with Some fd => tp_fds k ∖ {[fd]} | None => tp_fds k end)
         (delete p (tp_dirs k)) (tp_left k));
  px_dirfd p k := default (-1) (tp_dirs k !! p);
  px_getcwd _ k := (None, k); px_readlink _ _ k := ((-1, []), k); px_realpath _ k := (None, k)
|}.

Lemma tape_laws : fd_laws tape_kernel.
Proof.
  assert (Ho : opens Datatypes.id tape_open).
  { intros k. split; [done|]. right. destruct (above_fresh (tp_fds k)). done. }
  split; try (intros; done).
  - intros templ flags k. by split; [|left].
  - intros p k. cbn. by destruct (tp_left k) as [|[|]].
  - intros fd k. cbn. destruct (above_fresh (dom (tp_dirs k))) as [_ Hn]. split_and!; try done.
    by apply not_elem_of_dom.
  - intros p k fd. cbn. by intros ->.
Qed.
Lemma tape_quiet : quiet tape_kernel (λ k, length (tp_left k)).
Proof.
  split; try (intros; cbn; lia).
  intros p k. cbn. destruct (tp_left k) as [|[|c n] l] eqn:E; cbn; rewrite ?E; cbn; lia.
Qed.

Definition tape_start : tape :=
  Tape {[0; 1; 2]} ∅ [str "a"; str "."; str "d1"; str "b"; str "d2"; []; str "c"; []; str "e"; []].

