(* ===== verification/OsException.v ===== *)
(** * Errors of the operating system
    (lib/cxxll/os_exception.cpp, lib/cxxll/os_exception_function.cpp,
    lib/cxxll/os_exception_defaults.cpp, lib/cxxll/os/error_string.cpp)

    The exception object with its fields, and the text it makes of them.  Elsewhere in
    the development an [os_exception] is its error number; this file has the whole
    object, for the places where its text goes into the database.  The table of error
    constants is generated by the build and is a parameter, like [dladdr] and what the
    kernel says about a descriptor. *)

From S2P Require Import Prelude Base16 StringSupport.

(** ** Numbers in base 16 *)

Fixpoint hex_loop (fuel : nat) (z : Z) (acc : bytes) : bytes :=
  let acc := b16_digit (z mod 16) :: acc in
  match fuel with
  | O => acc
  | S fuel => if z / 16 =? 0 then acc else hex_loop fuel (z / 16) acc
  end.
(** [%llx], without leading zeros: 16 digits for 64 bits. *)
Definition hex (z : Z) : bytes := hex_loop 15 (u64 z) [].

(** ** Error numbers *)

Section Errors.
(** The constants of [errno.h], in the order of the generated file. *)
Context (error_constants : list (Z * bytes)).

(** Source: lib/cxxll/os/error_string.cpp 26-33, error_string_or_null. *)
Definition error_string_or_null (code : Z) : option bytes :=
  match List.find (λ c, code =? c.1) error_constants with Some (_, name) => Some name | None => None end.
(** Source: lib/cxxll/os/error_string.cpp 35-45, error_string. *)
Definition error_string (code : Z) : bytes :=
  match error_string_or_null code with
  | Some errstr => errstr
  | None => str "ERROR(" ++ dec code ++ str ")"
  end.

(** ** The object *)

(** [what_] is a cache of the text.
    Source: include/cxxll/os_exception.hpp 25-40, os_exception. *)
Record os_error := OsError {
  message_ : bytes; path_ : bytes; path2_ : bytes; function_name_ : bytes; function_ : Z;
  offset_ : Z; length_ : Z; count_ : Z; fd_ : Z; error_code_ : Z; bad_alloc_ : bool;
  offset_set_ : bool; length_set_ : bool; count_set_ : bool
}.
(** Source: lib/cxxll/os_exception.cpp 41-54, os_exception::init. *)
Definition os_error_new (code : Z) : os_error := OsError [] [] [] [] 0 0 0 0 (-1) code false false false false.

(** Source: lib/cxxll/os_exception.cpp 82-92, os_exception::message. *)
Definition set_message (s : bytes) (e : os_error) : os_error :=
  OsError s (path_ e) (path2_ e) (function_name_ e) (function_ e) (offset_ e) (length_ e) (count_ e) (fd_ e)
    (error_code_ e) (bad_alloc_ e) (offset_set_ e) (length_set_ e) (count_set_ e).
(** Source: lib/cxxll/os_exception.cpp 94-104, os_exception::path. *)
Definition set_path (s : bytes) (e : os_error) : os_error :=
  OsError (message_ e) s (path2_ e) (function_name_ e) (function_ e) (offset_ e) (length_ e) (count_ e) (fd_ e)
    (error_code_ e) (bad_alloc_ e) (offset_set_ e) (length_set_ e) (count_set_ e).
(** Source: lib/cxxll/os_exception.cpp 106-116, os_exception::path2. *)
Definition set_path2 (s : bytes) (e : os_error) : os_error :=
  OsError (message_ e) (path_ e) s (function_name_ e) (function_ e) (offset_ e) (length_ e) (count_ e) (fd_ e)
    (error_code_ e) (bad_alloc_ e) (offset_set_ e) (length_set_ e) (count_set_ e).
(** Source: lib/cxxll/os_exception.cpp 118-128, os_exception::function_name. *)
Definition set_function_name (s : bytes) (e : os_error) : os_error :=
  OsError (message_ e) (path_ e) (path2_ e) s (function_ e) (offset_ e) (length_ e) (count_ e) (fd_ e)
    (error_code_ e) (bad_alloc_ e) (offset_set_ e) (length_set_ e) (count_set_ e).
(** Source: include/cxxll/os_exception.hpp 144-150, os_exception::offset. *)
Definition set_offset (n : Z) (e : os_error) : os_error :=
  OsError (message_ e) (path_ e) (path2_ e) (function_name_ e) (function_ e) n (length_ e) (count_ e) (fd_ e)
    (error_code_ e) (bad_alloc_ e) true (length_set_ e) (count_set_ e).
(** Source: include/cxxll/os_exception.hpp 158-164, os_exception::length. *)
Definition set_length (n : Z) (e : os_error) : os_error :=
  OsError (message_ e) (path_ e) (path2_ e) (function_name_ e) (function_ e) (offset_ e) n (count_ e) (fd_ e)
    (error_code_ e) (bad_alloc_ e) (offset_set_ e) true (count_set_ e).
(** Source: include/cxxll/os_exception.hpp 172-178, os_exception::count. *)
Definition set_count (n : Z) (e : os_error) : os_error :=
  OsError (message_ e) (path_ e) (path2_ e) (function_name_ e) (function_ e) (offset_ e) (length_ e) n (fd_ e)
    (error_code_ e) (bad_alloc_ e) (offset_set_ e) (length_set_ e) true.
(** Source: include/cxxll/os_exception.hpp 186-191, os_exception::fd. *)
Definition set_fd (d : Z) (e : os_error) : os_error :=
  OsError (message_ e) (path_ e) (path2_ e) (function_name_ e) (function_ e) (offset_ e) (length_ e) (count_ e) d
    (error_code_ e) (bad_alloc_ e) (offset_set_ e) (length_set_ e) (count_set_ e).

(** ** Function names *)

(** What [dladdr] finds; the name of the symbol may be missing. *)
Record dl_info := DlInfo { dli_fname : option bytes; dli_fbase : Z; dli_sname : option bytes; dli_saddr : Z }.
Context (dladdr : Z → option dl_info).

(** Source: lib/cxxll/os_exception_function.cpp 32-44, relative_address. *)
Definition relative_address (base p : Z) : bytes :=
  if base =? p then []
  else if base <? p then str "+" ++ hex (p - base) else str "-" ++ hex (base - p).

(** [%p] has the prefix [0x].
    Source: lib/cxxll/os_exception_function.cpp 47-73, os_exception::function. *)
Definition set_function (addr : Z) (e : os_error) : os_error :=
  let e := OsError (message_ e) (path_ e) (path2_ e) (function_name_ e) addr (offset_ e) (length_ e) (count_ e) (fd_ e)
    (error_code_ e) (bad_alloc_ e) (offset_set_ e) (length_set_ e) (count_set_ e) in
  match dladdr addr with
  | Some (DlInfo (Some fname) fbase sname saddr) =>
      let symbol := match sname with Some s => s ++ relative_address saddr addr | None => [] end in
      set_function_name (symbol ++ str "[" ++ fname ++ relative_address fbase addr ++ str "]") e
  | _ => set_function_name (str "[0x" ++ hex addr ++ str "]") e
  end.

(** ** Defaults *)

(** [readlink] of the entry in [/proc], [lseek64 (fd, 0, SEEK_CUR)] and the size that
    [fstat64] reports.
    Source: lib/cxxll/os_exception_defaults.cpp 40-65, os_exception::defaults. *)
Definition defaults (proc_path : Z → option bytes) (lseek64 fstat64_size : Z → option Z) (e : os_error) : os_error :=
  let e := if bool_decide (path_ e = []) && (0 <=? fd_ e) then
             match proc_path (fd_ e) with Some p => set_path p e | None => e end else e in
  let e := if negb (offset_set_ e) && (0 <=? fd_ e) then
             match lseek64 (fd_ e) with Some o => set_offset o e | None => e end else e in
  if negb (length_set_ e) && (0 <=? fd_ e) then
    match fstat64_size (fd_ e) with Some n => set_length n e | None => e end
  else e.

(** ** The text *)

(** Source: lib/cxxll/os_exception.cpp 131-140, maybe_quote. *)
Definition maybe_quote (s : bytes) : bytes :=
  let quoted := quote s in
  if zlen s <? zlen quoted then [34] ++ quoted ++ [34] else s.

(** The stream and the flag [first].
    Source: lib/cxxll/os_exception.cpp 142-151, field. *)
Definition field (name : string) (x : bytes * bool) : bytes * bool :=
  let '(s, first) := x in ((if first then s else s ++ str " ") ++ str name ++ str "=", false).
Definition put (text : bytes) (x : bytes * bool) : bytes * bool := (x.1 ++ text, x.2).
(** Source: lib/cxxll/os_exception.cpp 153-161, string_field. *)
Definition string_field (name : string) (value : bytes) (x : bytes * bool) : bytes * bool :=
  if bool_decide (value = []) then x else put (maybe_quote value) (field name x).
(** Source: lib/cxxll/os_exception.cpp 163-171, numeric_field. *)
Definition numeric_field (name : string) (present : bool) (value : Z) (x : bytes * bool) : bytes * bool :=
  if present then put (dec value) (field name x) else x.

(** Source: lib/cxxll/os_exception.cpp 174-218, os_exception::what. *)
Definition what (e : os_error) : bytes :=
  let x := ([], true) in
  let x := string_field "message" (message_ e) x in
  let x := string_field "function" (function_name_ e) x in
  let x := if negb (error_code_ e =? 0) then put (maybe_quote (error_string (error_code_ e))) (field "error" x) else x in
  let x := if 0 <=? fd_ e then put (dec (fd_ e)) (field "fd" x) else x in
  let x := if bool_decide (path_ e = []) then x else put (maybe_quote (path_ e)) (field "path" x) in
  let x := if bool_decide (path2_ e = []) then x else put (maybe_quote (path2_ e)) (field "path2" x) in
  let x := numeric_field "offset" (offset_set_ e) (offset_ e) x in
  let x := numeric_field "length" (length_set_ e) (length_ e) x in
  let x := numeric_field "count" (count_set_ e) (count_ e) x in
  let '(s, first) := x in
  let s := if bad_alloc_ e then
             if first then s ++ str "no information due to allocation error" else s ++ str " incomplete"
           else s in
  if first then s ++ str "os_exception" else s.

(** ** The fields of the text *)

(** The fields that are set, with their values, in the order of the text. *)
Definition fields (e : os_error) : list (string * bytes) :=
  let text (name : string) (s : bytes) := if bool_decide (s = []) then [] else [(name, maybe_quote s)] in
  let number (name : string) (present : bool) (n : Z) := if present then [(name, dec n)] else [] in
  text "message"%string (message_ e) ++ text "function"%string (function_name_ e)
    ++ (if error_code_ e =? 0 then [] else [("error"%string, maybe_quote (error_string (error_code_ e)))])
    ++ number "fd"%string (0 <=? fd_ e) (fd_ e) ++ text "path"%string (path_ e) ++ text "path2"%string (path2_ e)
    ++ number "offset"%string (offset_set_ e) (offset_ e) ++ number "length"%string (length_set_ e) (length_ e)
    ++ number "count"%string (count_set_ e) (count_ e).
Fixpoint join (sep : bytes) (l : list bytes) : bytes :=
  match l with [] => [] | [x] => x | x :: l => x ++ sep ++ join sep l end.
Definition field_text (f : string * bytes) : bytes := str f.1 ++ str "=" ++ f.2.

(** The stream after the fields [l]. *)
Definition streamed (l : list (string * bytes)) : bytes * bool :=
  (join (str " ") (field_text <$> l), match l with [] => true | _ => false end).
Lemma join_snoc sep l x : l ≠ [] → join sep (l ++ [x]) = join sep l ++ sep ++ x.
Proof.
  induction l as [|y [|z l] IH]; intros Hl; [done|done|]. cbn [join app] in *. rewrite IH by done. by rewrite <- !app_assoc.
Qed.
Lemma streamed_field l name text : put text (field name (streamed l)) = streamed (l ++ [(name, text)]).
Proof.
  destruct l as [|f l]; [by unfold streamed, put, field, field_text; simpl; rewrite <- app_assoc|].
  unfold streamed, field, put. cbn [fst snd].
  rewrite fmap_app. change (field_text <$> [(name, text)]) with [field_text (name, text)].
  rewrite join_snoc by done. unfold field_text at 3. cbn [fst snd].
  f_equal. by rewrite <- !app_assoc.
Qed.
Lemma streamed_text l name s : string_field name s (streamed l) =
  streamed (l ++ if bool_decide (s = []) then [] else [(name, maybe_quote s)]).
Proof. unfold string_field. case_bool_decide; [by rewrite app_nil_r|]. apply streamed_field. Qed.
Lemma streamed_number l name b n : numeric_field name b n (streamed l) = streamed (l ++ if b then [(name, dec n)] else []).
Proof. unfold numeric_field. destruct b; [apply streamed_field|by rewrite app_nil_r]. Qed.

(** The text lists the fields that are set in a fixed order, with single spaces between
    them, and is never empty. *)
Theorem what_fields (e : os_error) :
  what e = match fields e with
           | [] => (if bad_alloc_ e then str "no information due to allocation error" else []) ++ str "os_exception"
           | l => join (str " ") (field_text <$> l) ++ if bad_alloc_ e then str " incomplete" else []
           end.
Proof.
  unfold what. change ([], true) with (streamed []). rewrite !streamed_text. cbn [app].
  set (l1 := _ ++ _ : list (string * bytes)).
  assert (He : ∀ l, (if negb (error_code_ e =? 0) then put (maybe_quote (error_string (error_code_ e))) (field "error" (streamed l))
    else streamed l) = streamed (l ++ if error_code_ e =? 0 then [] else [("error"%string, maybe_quote (error_string (error_code_ e)))])).
  { intros l. destruct (error_code_ e =? 0); cbn [negb]; [by rewrite app_nil_r|apply streamed_field]. }
  rewrite He. 
  assert (Hfd : ∀ l, (if 0 <=? fd_ e then put (dec (fd_ e)) (field "fd" (streamed l)) else streamed l)
    = streamed (l ++ if 0 <=? fd_ e then [("fd"%string, dec (fd_ e))] else [])).
  { intros l. destruct (0 <=? fd_ e); [apply streamed_field|by rewrite app_nil_r]. }
  rewrite Hfd.
  change (λ x : bytes * bool, x) with (@Datatypes.id (bytes * bool)).
  assert (Hp : ∀ name s l, (if bool_decide (s = []) then streamed l else put (maybe_quote s) (field name (streamed l)))
    = streamed (l ++ if bool_decide (s = []) then [] else [(name, maybe_quote s)])) by (intros; apply streamed_text).
  rewrite !Hp, !streamed_number. subst l1. rewrite <- !app_assoc.
  match goal with |- context [streamed ?l] => change l with (fields e) end.
  unfold streamed. destruct (fields e) as [|f l]; destruct (bad_alloc_ e); cbn [app]; rewrite ?app_nil_r; done.
Qed.
End Errors.

Example what_sample :
  what [(2, str "ENOENT")] (set_length 8192 (set_path (str "/tmp/a b") (set_message (str "no file") (os_error_new 2)))) =
  str "message=no file error=ENOENT path=/tmp/a b length=8192".
Proof. vm_compute. reflexivity. Qed.
