(* ===== verification/FileCache.v ===== *)
(** * The cache of RPM files and its expiration
    (lib/cxxll/file_cache.cpp, lib/symboldb/expire.cpp)

    The system calls are the parameters of [Posix], the digests come from NSS as in
    [Hash]. The theorems are relative to a view of the kernel as a small file
    system: one cache directory, its files, the open descriptors. *)

From S2P Require Import Prelude Base16 StringSupport SourceSink Hash Posix.

(** ** file_cache *)

(** Source: lib/cxxll/file_cache.cpp 39-42, file_cache::impl. *)
Record file_cache := FileCache { fc_root : bytes; fc_dirfd : Z; fc_do_fsync : bool }.

(** The sink of one file; [raw] of the [fd_sink] is a copy of the descriptor.
    Source: lib/cxxll/file_cache.cpp 105-114, file_cache::add_sink::add_impl. *)
Record add_impl (C : Type) := AddImpl {
  ai_csum : checksum;
  ai_hex : bytes;
  ai_temp_file : bytes;
  ai_handle : Z;
  ai_sink_raw : Z;
  ai_hash : hash_sink C;
  ai_length : Z
}.
Arguments AddImpl {C}. Arguments ai_csum {C}. Arguments ai_hex {C}. Arguments ai_temp_file {C}.
Arguments ai_handle {C}. Arguments ai_sink_raw {C}. Arguments ai_hash {C}. Arguments ai_length {C}.

Section file_cache.
Context {K C : Type} (os : posix K) (N : nss C).

(** [root.at (root.size () - 1)] is in range.
    Source: lib/cxxll/file_cache.cpp 46-48, file_cache::impl::impl. *)
Definition with_slash (root : bytes) : bytes :=
  if (0 <? zlen root) && negb (bool_decide (last root = Some 47)) then root ++ [47] else root.

(** Source: lib/cxxll/file_cache.cpp 43-56, file_cache::file_cache. *)
Definition file_cache_new (path : bytes) : sx K file_cache := λ k,
  match fd_open os path (Z.lor (Z.lor O_RDONLY O_DIRECTORY) O_CLOEXEC) 0 (fd_new, k) with
  | (Ok _, (fd, k)) => (Ok (FileCache (with_slash path) fd true), k)
  | (Throw e, s) => (Throw e, fd_destroy os s)
  end.

(** Source: lib/cxxll/file_cache.cpp 62-76, file_cache::lookup_path. *)
Definition lookup_path (c : file_cache) (csum : checksum) (k : K) : option bytes * K :=
  let hex := base16_encode (csum_value csum) in
  match px_fstatat os (fc_dirfd c) hex k with
  | (Some st, k) =>
      (if ((csum_length csum =? no_length) || (csum_length csum =? u64 (st_size st)))
          && bool_decide (st_mode st = KindRegular)
       then Some (fc_root c ++ hex) else None, k)
  | (None, k) => (None, k)
  end.

(** The loop over the directory; a name that is not hexadecimal is skipped.
    Source: lib/cxxll/file_cache.cpp 86-96, file_cache::digests. *)
Fixpoint digests_loop (fuel : nat) (dir : Z) (k : K) (digests : list bytes) : option (res (list bytes) * K) :=
  match fuel with
  | O => None
  | S fuel =>
      match dir_readdir os fuel dir k with
      | None => None
      | Some (Throw e, k) => Some (Throw e, k)
      | Some (Ok None, k) => Some (Ok digests, k)
      | Some (Ok (Some name), k) =>
          match base16_decode_res name with
          | Throw _ => digests_loop fuel dir k digests
          | Ok decoded => digests_loop fuel dir k (digests ++ [decoded])
          end
      end
  end.

(** Source: lib/cxxll/file_cache.cpp 78-97, file_cache::digests. *)
Definition digests (fuel : nat) (c : file_cache) (k : K) : option (res (list bytes) * K) :=
  let '(fd_copy, k) := px_dup os (fc_dirfd c) k in
  if fd_copy <? 0 then Some (Throw (os_exception (px_errno os k)), k)
  else
    match dir_handle_fd os fd_copy k with
    | (Throw e, k) => Some (Throw e, k)
    | (Ok dir, k) =>
        '(r, k) ← digests_loop fuel dir k [];
        Some (r, dir_destroy os (Some dir) k)
    end.

(** Source: lib/cxxll/file_cache.cpp 99-103, file_cache::enable_fsync. *)
Definition enable_fsync (on : bool) (c : file_cache) : file_cache := FileCache (fc_root c) (fc_dirfd c) on.

(** The body unlinks the temporary file and ignores errors, then the descriptor is
    closed with the members.
    Source: lib/cxxll/file_cache.cpp 122-132, file_cache::add_sink::add_impl::~add_impl. *)
Definition add_impl_destroy (c : file_cache) (a : add_impl C) (k : K) : K :=
  let k := if bool_decide (ai_temp_file a = []) then k
           else (fd_unlinkat os (ai_temp_file a) 0 (fc_dirfd c, k)).2.2 in
  fd_destroy os (ai_handle a, k).

(** Source: lib/cxxll/file_cache.cpp 135-145, file_cache::add_sink::add_sink. *)
Definition add_sink_new (c : file_cache) (csum : checksum) : sx K (add_impl C) := λ k,
  match hash_sink_new N (csum_type csum) with
  | Throw e => (Throw e, k)
  | Ok hash =>
      let hex := base16_encode (csum_value csum) in
      let temp_file := hex ++ str ".tmp" in
      let flags := Z.lor (Z.lor (Z.lor O_WRONLY O_CREAT) O_TRUNC) O_CLOEXEC in
      let '(r, (fd, k)) := fd_openat os (fc_dirfd c) temp_file flags 438 (fd_new, k) in
      let a := AddImpl csum hex temp_file fd fd hash 0 in
      match r with
      | Ok _ => (Ok a, k)
      | Throw e => (Throw e, add_impl_destroy c a k)
      end
  end.

(** The [fd_sink] writes through the kernel. *)
Definition posix_kernel : kernel K :=
  Kernel _ (λ k fd len, px_read os fd len k) (λ k fd buf, px_write os fd buf k) (px_errno os).
#[local] Instance cache_fd_sink_write : SinkOps (Z * K) := λ s buf,
  let '(r, k) := fd_sink_write posix_kernel s.1 s.2 buf in (r, (s.1, k)).

(** Source: lib/cxxll/file_cache.cpp 151-156, file_cache::add_sink::write. *)
Definition add_sink_write (buf : bytes) : sx (add_impl C * K) unit := λ '(a, k),
  let hash_write := hash_sink_write N in
  let '(r, tee) := sink_write (TeeSink (ai_sink_raw a, k) (ai_hash a)) buf in
  let k := (left tee).2 in
  let length := match r with Ok _ => u64 (ai_length a + zlen buf) | Throw _ => ai_length a end in
  (r, (AddImpl (ai_csum a) (ai_hex a) (ai_temp_file a) (ai_handle a) (ai_sink_raw a) (right tee) length, k)).

(** Source: lib/cxxll/file_cache.cpp 158-181, file_cache::add_sink::finish. *)
Definition add_sink_finish (c : file_cache) : sx (add_impl C * K) bytes := λ '(a, k),
  if negb (csum_length (ai_csum a) =? no_length) && negb (csum_length (ai_csum a) =? ai_length a)
  then (Throw (checksum_mismatch (str "length")), (a, k))
  else
    match hash_digest N (ai_hash a) with
    | Throw e => (Throw e, (a, k))
    | Ok digest =>
        if negb (bool_decide (digest = csum_value (ai_csum a)))
        then (Throw (checksum_mismatch (str "digest")), (a, k))
        else
          let '(r, (fd, k)) := (if fc_do_fsync c then fd_fsync os else mret tt) (ai_handle a, k) in
          match r with
          | Throw e => (Throw e, (a, k))
          | Ok _ =>
              let '(r, (fd, k)) := fd_close os (fd, k) in
              let a := AddImpl (ai_csum a) (ai_hex a) (ai_temp_file a) fd (ai_sink_raw a) (ai_hash a) (ai_length a) in
              match r with
              | Throw e => (Throw e, (a, k))
              | Ok _ =>
                  match renameat os (fc_dirfd c) (ai_temp_file a) (fc_dirfd c) (ai_hex a) k with
                  | (Throw e, k) => (Throw e, (a, k))
                  | (Ok _, k) =>
                      (Ok (fc_root c ++ ai_hex a),
                       (AddImpl (ai_csum a) (ai_hex a) [] fd (ai_sink_raw a) (ai_hash a) (ai_length a), k))
                  end
              end
          end
    end.

(** How the sink is used: constructed, written to, finished; an exception on the
    way and the end of the scope run the destructor. *)
Fixpoint add_sink_writes (bufs : list bytes) : sx (add_impl C * K) unit :=
  match bufs with
  | [] => mret tt
  | buf :: bufs => add_sink_write buf;; add_sink_writes bufs
  end.
Definition add_session (c : file_cache) (csum : checksum) (bufs : list bytes) : sx K bytes := λ k,
  match add_sink_new c csum k with
  | (Throw e, k) => (Throw e, k)
  | (Ok a, k) =>
      let '(r, (a, k)) := (add_sink_writes bufs;; add_sink_finish c) (a, k) in
      (r, add_impl_destroy c a k)
  end.

(** Source: lib/cxxll/file_cache.cpp 184-191, file_cache::add. *)
Definition file_cache_add (c : file_cache) (csum : checksum) (data : bytes) : sx K bytes :=
  add_session c csum [data].

(** ** expire *)

(** [std::set_difference] on two sorted ranges of byte vectors; the sum of the lengths
    is enough fuel. *)
Fixpoint set_difference (fuel : nat) (a b : list bytes) : list bytes :=
  match fuel, a, b with
  | S fuel, x :: a', y :: b' =>
      if bytes_ltb x y then x :: set_difference fuel a' b
      else if bytes_ltb y x then set_difference fuel a b'
      else set_difference fuel a' b'
  | _, _, _ => a
  end.

Definition bytes_le (a b : bytes) : Prop := bytes_ltb b a = false.
#[local] Instance bytes_le_dec : RelDecision bytes_le.
Proof. intros a b. unfold bytes_le. apply _. Defined.

(** The removal of the files; the first error ends the loop.
    Source: lib/symboldb/expire.cpp 71-74, expire. *)
Fixpoint unlink_digests (result : list bytes) (dir : Z) (k : K) : res unit * K :=
  match result with
  | [] => (Ok tt, k)
  | p :: result =>
      match fd_unlinkat os (base16_encode p) 0 (dir, k) with
      | (Throw e, (_, k)) => (Throw e, k)
      | (Ok _, (_, k)) => unlink_digests result dir k
      end
  end.

(** The part after the digests of the referenced packages have arrived; [path] is
    [opt.rpm_cache_path ()].
    Source: lib/symboldb/expire.cpp 62-75, expire. *)
Definition expire_files (path : bytes) (fcdigests dbdigests : list bytes) (k : K) : res unit * K :=
  let fcdigests := merge_sort bytes_le fcdigests in
  let result := set_difference (length fcdigests + length dbdigests) fcdigests dbdigests in
  match fd_open_directory os path (fd_new, k) with
  | (Throw e, s) => (Throw e, fd_destroy os s)
  | (Ok _, (dir, k)) =>
      let '(r, k) := unlink_digests result dir k in
      (r, fd_destroy os (dir, k))
  end.

(** The destructor of the last reference to the cache. *)
Definition file_cache_destroy (c : file_cache) (k : K) : K := fd_destroy os (fc_dirfd c, k).
End file_cache.

(** ** Options (lib/symboldb/options.cpp) *)

(** Source: include/symboldb/options.hpp 33-35, symboldb_options. *)
Inductive output_level := standard | verbose | quiet.
#[global] Instance output_level_eq_dec : EqDecision output_level.
Proof. solve_decision. Defined.

(** Source: include/symboldb/options.hpp 30-51, symboldb_options. *)
Record symboldb_options := Options {
  exclude_names_ : list bytes;
  output : output_level;
  set_name : bytes;
  cache_path : bytes;
  download_threads : Z;
  no_net : bool;
  ignore_download_errors : bool;
  randomize : bool;
  transient_rpms : bool
}.

(** Source: lib/symboldb/options.cpp 26-31, symboldb_options::symboldb_options. *)
Definition symboldb_options_new : symboldb_options := Options [] standard [] [] 3 false false false false.

(** Source: include/symboldb/download.hpp 31-36, download_options. *)
Inductive cache_mode := no_cache | check_cache | always_cache | only_cache.
#[global] Instance cache_mode_eq_dec : EqDecision cache_mode.
Proof. solve_decision. Defined.

(** [regcomp] is [Some message] for an expression that does not compile.
    Source: lib/symboldb/options.cpp 37-47, symboldb_options::add_exclude_name. *)
Definition add_exclude_name (regcomp : bytes → option bytes) (opt : symboldb_options) (pattern : bytes)
    : res symboldb_options :=
  match regcomp pattern with
  | Some what =>
      Throw (usage_error (str "invalid --exclude-name regexp " ++ [34] ++ quote pattern ++ [34] ++ str ": " ++ what))
  | None => Ok (Options (exclude_names_ opt ++ [pattern]) (output opt) (set_name opt) (cache_path opt)
                  (download_threads opt) (no_net opt) (ignore_download_errors opt) (randomize opt)
                  (transient_rpms opt))
  end.

(** The alternatives, separated.
    Source: lib/symboldb/options.cpp 54-65, symboldb_options::exclude_name. *)
Fixpoint exclude_alternatives (first : bool) (names : list bytes) : bytes :=
  match names with
  | [] => []
  | p :: names => (if first then [] else str "|") ++ str "(" ++ p ++ str ")" ++ exclude_alternatives false names
  end.
(** The text of the regular expression.
    Source: lib/symboldb/options.cpp 49-68, symboldb_options::exclude_name. *)
Definition exclude_name (opt : symboldb_options) : bytes :=
  str "^(" ++ exclude_alternatives true (exclude_names_ opt) ++ str ")$".

(** Source: lib/symboldb/options.cpp 70-74, symboldb_options::exclude_name_present. *)
Definition exclude_name_present (opt : symboldb_options) : bool := negb (bool_decide (exclude_names_ opt = [])).

(** Source: lib/symboldb/options.cpp 76-84, symboldb_options::download. *)
Definition opt_download (opt : symboldb_options) : cache_mode :=
  if no_net opt then only_cache else check_cache.
(** Source: lib/symboldb/options.cpp 86-98, symboldb_options::download_always_cache. *)
Definition opt_download_always_cache (opt : symboldb_options) : cache_mode :=
  if no_net opt then only_cache else always_cache.

Section options.
Context {K C : Type} (os : posix K).

(** Source: lib/symboldb/options.cpp 100-112, symboldb_options::rpm_cache_path. *)
Definition rpm_cache_path (opt : symboldb_options) : sx K bytes :=
  path ← (if bool_decide (cache_path opt = [])
          then home ← home_directory os; mret (home ++ str "/.cache/symboldb")
          else mret (cache_path opt));
  mret (path ++ str "/rpms").

(** Source: lib/symboldb/options.cpp 114-124, symboldb_options::rpm_cache. *)
Definition rpm_cache (opt : symboldb_options) : sx K file_cache :=
  fcache_path ← rpm_cache_path opt;
  ok ← (λ k, let '(b, k) := make_directory_hierarchy os fcache_path 448 k in (Ok b, k));
  if negb ok then
    path ← rpm_cache_path opt;
    sx_throw (usage_error (str "could not create cache directory: " ++ path))
  else
    c ← file_cache_new os fcache_path;
    mret (enable_fsync (negb (transient_rpms opt)) c).

(** What [expire] needs from the database. *)
Record expire_db (D : Type) := ExpireDb {
  db_expire_url_cache : sx D unit;
  db_expire_packages : sx D unit;
  db_expire_file_contents : sx D unit;
  db_expire_java_classes : sx D unit;
  db_referenced_package_digests : sx D (list bytes)
}.
Arguments db_expire_url_cache {D}. Arguments db_expire_packages {D}. Arguments db_expire_file_contents {D}.
Arguments db_expire_java_classes {D}. Arguments db_referenced_package_digests {D}.

(** The kernel, the database and what was written to [stderr]. *)
Record expire_state (D : Type) := ExpireState { es_k : K; es_db : D; es_log : list bytes }.
Arguments ExpireState {D}. Arguments es_k {D}. Arguments es_db {D}. Arguments es_log {D}.

Section expire.
Context {D : Type} (db : expire_db D).
Definition on_db {A} (m : sx D A) : sx (expire_state D) A := sx_on es_db (λ d s, ExpireState (es_k s) d (es_log s)) m.
Definition on_k {A} (m : sx K A) : sx (expire_state D) A := sx_on es_k (λ k s, ExpireState k (es_db s) (es_log s)) m.
Definition info (opt : symboldb_options) (msg : string) : sx (expire_state D) unit :=
  if bool_decide (output opt = quiet) then mret tt
  else sx_modify (λ s, ExpireState (es_k s) (es_db s) (es_log s ++ [str msg ++ [10]])).

(** [None] when the fuel of the directory loop is used up.
    Source: lib/symboldb/expire.cpp 57-75, expire. *)
Definition expire_rpms (fuel : nat) (opt : symboldb_options) (s : expire_state D)
    : option (res unit * expire_state D) :=
  match on_k (rpm_cache opt) s with
  | (Throw e, s) => Some (Throw e, s)
  | (Ok fcache, s) =>
      let finish r s := Some (r : res unit, ExpireState (file_cache_destroy os fcache (es_k s)) (es_db s) (es_log s)) in
      match digests os fuel fcache (es_k s) with
      | None => None
      | Some (Throw e, k) => finish (Throw e) (ExpireState k (es_db s) (es_log s))
      | Some (Ok fcdigests, k) =>
          let '(r, s) :=
            (dbdigests ← on_db (db_referenced_package_digests db);
             path ← on_k (rpm_cache_path opt);
             on_k (expire_files os path fcdigests dbdigests)) (ExpireState k (es_db s) (es_log s)) in
          finish r s
      end
  end.

(** Source: lib/symboldb/expire.cpp 31-76, expire. *)
Definition expire (fuel : nat) (opt : symboldb_options) (s : expire_state D) : option (res unit * expire_state D) :=
  let '(r, s) :=
    (info opt "info: expiring URL cache";;
     on_db (db_expire_url_cache db);;
     info opt "info: expiring unreferenced packages";;
     on_db (db_expire_packages db);;
     info opt "info: expiring file contents";;
     on_db (db_expire_file_contents db);;
     info opt "info: expiring java classes";;
     on_db (db_expire_java_classes db);;
     info opt "info: expiring unused RPMs") s in
  match r with
  | Throw e => Some (Throw e, s)
  | Ok _ => expire_rpms fuel opt s
  end.
End expire.
End options.

(** ** The file system behind the cache *)

(** What the state of the kernel says about the cache directory, its files and the
    open descriptors; the view is the state of the small kernel of [Posix]. *)
Class FsView (K : Type) := fs_view : K → small.

Definition set_fds (v : small) (f : gmap Z fd_object) : small :=
  Small f (sm_dirs v) (sm_names v) (sm_inodes v) (sm_read v).
Definition set_names (v : small) (names : gmap bytes Z) : small :=
  Small (sm_fds v) (sm_dirs v) names (sm_inodes v) (sm_read v).
Definition set_inodes (v : small) (inodes : gmap Z bytes) : small :=
  Small (sm_fds v) (sm_dirs v) (sm_names v) inodes (sm_read v).

Section fs_laws.
Context {K : Type} `{FsView K} (os : posix K).

(** A call that fails leaves the file system alone; one that succeeds does [P]. *)
Definition fails_or {A} (ret : A → Z) (call : K → A * K) (k : K) (P : Z → small → Prop) : Prop :=
  ret (call k).1 < 0 ∧ fs_view (call k).2 = fs_view k ∨
  0 <= ret (call k).1 ∧ P (ret (call k).1) (fs_view (call k).2).

Definition is_dir (k : K) (d : Z) : Prop := ∃ o, sm_fds (fs_view k) !! d = Some (FdDirectory o).

(** Errors may happen at any time, and [write] may be short.  [close] always frees
    the descriptor.  Nobody else uses the directory during a call. *)
Record fs_laws : Prop := {
  fs_create d name k : is_dir k d →
    fails_or Datatypes.id (px_openat os d name (Z.lor (Z.lor (Z.lor O_WRONLY O_CREAT) O_TRUNC) O_CLOEXEC) 438) k (λ ret v',
      let v := fs_view k in
      sm_fds v !! ret = None ∧
      ∃ i, (sm_names v !! name = Some i ∨ sm_names v !! name = None ∧ sm_inodes v !! i = None) ∧
        v' = Small (<[ret := FdFile i 0]> (sm_fds v)) (sm_dirs v) (<[name := i]> (sm_names v))
               (<[i := []]> (sm_inodes v)) (sm_read v));
  fs_write fd i pos buf k : sm_fds (fs_view k) !! fd = Some (FdFile i pos) →
    fails_or Datatypes.id (px_write os fd buf) k (λ ret v',
      let v := fs_view k in
      ret <= zlen buf ∧
      v' = set_inodes (set_fds v (<[fd := FdFile i (pos + ret)]> (sm_fds v)))
             (<[i := overwrite pos (ztake ret buf) (default [] (sm_inodes v !! i))]> (sm_inodes v)));
  fs_fsync fd k : fs_view (px_fsync os fd k).2 = fs_view k;
  fs_close fd k : fs_view (px_close os fd k).2 = set_fds (fs_view k) (delete fd (sm_fds (fs_view k)));
  fs_rename d from to k : is_dir k d →
    fails_or Datatypes.id (px_renameat os d from d to) k (λ _ v',
      let v := fs_view k in
      ∃ i, sm_names v !! from = Some i ∧ v' = set_names v (<[to := i]> (delete from (sm_names v))));
  fs_unlink d name k : is_dir k d →
    fails_or Datatypes.id (px_unlinkat os d name 0) k (λ _ v',
      v' = set_names (fs_view k) (delete name (sm_names (fs_view k))));
  fs_open_directory path k :
    fails_or Datatypes.id (px_open os path (Z.lor (Z.lor O_RDONLY O_DIRECTORY) O_CLOEXEC) 0) k (λ ret v',
      sm_fds (fs_view k) !! ret = None ∧
      ∃ o, v' = set_fds (fs_view k) (<[ret := FdDirectory o]> (sm_fds (fs_view k))))
}.
End fs_laws.
#[global] Instance small_fs_view : FsView small := λ k, k.

Lemma small_fd_fails_or o k : 0 <= (small_fd o k).1 ∧ sm_fds k !! (small_fd o k).1 = None ∧
  (small_fd o k).2 = set_fds k (<[(small_fd o k).1 := o]> (sm_fds k)).
Proof.
  destruct (above_fresh (dom (sm_fds k))) as [H1 H2]. split; [done|]. split; [|done]. by apply not_elem_of_dom.
Qed.

Lemma small_fs_laws : fs_laws small_kernel.
Proof.
  split; unfold fails_or, fs_view, small_fs_view; cbn [small_kernel px_openat px_write px_fsync px_close px_renameat px_unlinkat px_open].
  - intros d name k _. right. unfold small_open.
    change (negb (Z.land _ O_DIRECTORY =? 0)) with false.
    change (Z.land _ O_TRUNC =? 0) with false. change (Z.land _ O_CREAT =? 0) with false. cbv iota beta.
    destruct (sm_names k !! name) as [i|] eqn:E.
    + set (k1 := Small _ _ _ _ _). destruct (small_fd_fails_or (FdFile i 0) k1) as (H1 & H2 & H3).
      split; [done|]. split; [done|]. exists i. split; [by left|]. rewrite H3. cbn.
      by rewrite (insert_id (sm_names k)).
    + set (i := above _). set (k1 := Small _ _ _ _ _).
      destruct (small_fd_fails_or (FdFile i 0) k1) as (H1 & H2 & H3).
      split; [done|]. split; [done|]. exists i. split; [|by rewrite H3]. right. split; [done|].
      apply not_elem_of_dom. apply (above_fresh (dom (sm_inodes k))).
  - intros fd i pos buf k Hfd. right. unfold small_write. rewrite Hfd. cbn.
    pose proof (zlen_nonneg buf). unfold Datatypes.id.
    assert (zlen (ztake 4 buf) = Z.min 4 (zlen buf)) as Hl by (rewrite zlen_ztake; lia).
    split; [lia|]. split; [lia|]. unfold set_inodes, set_fds. cbn.
    assert (ztake (zlen (ztake 4 buf)) buf = ztake 4 buf) as ->; [|done].
    rewrite Hl. destruct (Z.leb_spec 4 (zlen buf)).
    + by rewrite Z.min_l by lia.
    + rewrite Z.min_r by lia. by rewrite !ztake_all by lia.
  - done.
  - intros fd k. unfold small_close. destruct (sm_fds k !! fd) eqn:E; [done|].
    cbn. destruct k. unfold set_fds. cbn in *. by rewrite delete_id.
  - intros d from to k _. unfold small_rename. destruct (sm_names k !! from) as [i|] eqn:E; cbn.
    + right. split; [done|]. by exists i.
    + left. split; [lia|done].
  - intros d name k _. unfold small_unlink. destruct (sm_names k !! name) as [i|] eqn:E; cbn.
    + right. by split.
    + left. split; [lia|done].
  - intros path k. right. unfold small_open. cbn -[small_fd above].
    destruct (small_fd_fails_or (FdDirectory (above (dom (sm_fds k)))) k) as (H1 & H2 & H3).
    split; [done|]. split; [done|]. by exists (above (dom (sm_fds k))).
Qed.

(** ** Adding a file *)

Section add.
Context {K C : Type} `{FV : FsView K} (os : posix K) (N : nss C) (Hfs : fs_laws os).
Context (H : hash_type → bytes → bytes) (absorbed : C → hash_type * bytes) (Hnss : nss_ok N H absorbed).

Definition cached (v : small) (name : bytes) : option bytes := sm_names v !! name ≫= λ i, sm_inodes v !! i.

(** The cache is content-addressed: a file whose name is the hexadecimal form of
    something as long as a digest has this digest. *)
Record cache_ok (v : small) : Prop := {
  cok_inj n m i : sm_names v !! n = Some i → sm_names v !! m = Some i → n = m;
  cok_dom n i : sm_names v !! n = Some i → is_Some (sm_inodes v !! i);
  cok_digest t d c : bytes_ok d → zlen d = digest_length t → cached v (base16_encode d) = Some c → H t c = d
}.

(** The state in which the descriptor [fd] writes the file [i] at its end. *)
Definition writing (v : small) (tmp : bytes) (fd i : Z) (content : bytes) : small :=
  Small (<[fd := FdFile i (zlen content)]> (sm_fds v)) (sm_dirs v) (<[tmp := i]> (sm_names v))
    (<[i := content]> (sm_inodes v)) (sm_read v).

Lemma overwrite_end buf content : overwrite (zlen content) buf content = content ++ buf.
Proof.
  unfold overwrite. rewrite ztake_all by lia. rewrite zdrop_past; [by rewrite app_nil_r|].
  pose proof (zlen_nonneg buf). lia.
Qed.

Lemma write_appends v tmp fd i content buf k : fs_view k = writing v tmp fd i content →
  fails_or Datatypes.id (px_write os fd buf) k (λ ret v', ret <= zlen buf ∧ v' = writing v tmp fd i (content ++ ztake ret buf)).
Proof using Hfs.
  intros Hv. assert (Hfd : sm_fds (fs_view k) !! fd = Some (FdFile i (zlen content)))
    by (rewrite Hv; apply lookup_insert_eq).
  destruct (fs_write os Hfs fd i _ buf k Hfd) as [?|(Hret & Hle & Hv')]; [by left|right].
  split; [done|]. split; [done|]. unfold Datatypes.id in *. rewrite Hv', Hv. unfold writing, set_inodes, set_fds. cbn.
  rewrite lookup_insert_eq. cbn. rewrite overwrite_end, !insert_insert_eq, zlen_app, zlen_ztake_le by lia. done.
Qed.

Lemma sink_write_appends fuel v tmp fd i buf : ∀ content k, (length buf <= fuel)%nat →
  fs_view k = writing v tmp fd i content →
  match fd_sink_write_loop (posix_kernel os) fuel fd k buf with
  | (Ok _, k') => fs_view k' = writing v tmp fd i (content ++ buf)
  | (Throw _, k') => ∃ c, fs_view k' = writing v tmp fd i c
  end.
Proof using Hfs.
  revert buf. induction fuel as [|fuel IH]; intros [|b buf] content k Hlen Hv; cbn [fd_sink_write_loop];
    try (by rewrite app_nil_r); [simpl in Hlen; lia|].
  cbn [posix_kernel sys_write]. pose proof (write_appends _ _ _ _ _ (b :: buf) _ Hv) as Hw.
  unfold fails_or, Datatypes.id in Hw. destruct (px_write os fd (b :: buf) k) as [ret k']. cbn [fst snd] in Hw.
  destruct Hw as [[Hret Hw]|(Hret & Hle & Hw)].
  - destruct (Z.eqb_spec ret 0); [lia|]. destruct (Z.ltb_spec ret 0); [|lia]. exists content. congruence.
  - destruct (Z.eqb_spec ret 0); [eauto|]. destruct (Z.ltb_spec ret 0); [lia|].
    specialize (IH (zdrop ret (b :: buf)) _ k' ltac:(unfold zdrop; rewrite length_drop; simpl in *; lia) Hw).
    rewrite <- app_assoc, ztake_zdrop_id in IH. done.
Qed.

(** The sink in use: all of [content] is in the file and in the digest. *)
Definition sink_state (csum : checksum) (tmp : bytes) (fd : Z) (content : bytes) (a : add_impl C) : Prop :=
  ai_csum a = csum ∧ ai_hex a = base16_encode (csum_value csum) ∧ ai_temp_file a = tmp ∧
  ai_handle a = fd ∧ ai_sink_raw a = fd ∧ sink_holds absorbed (ai_hash a) (csum_type csum) content ∧
  ai_length a = u64 (zlen content).

Lemma add_sink_write_step v csum tmp fd i content buf a k :
  sink_state csum tmp fd content a → fs_view k = writing v tmp fd i content →
  match add_sink_write os N buf (a, k) with
  | (Ok _, (a', k')) => sink_state csum tmp fd (content ++ buf) a' ∧ fs_view k' = writing v tmp fd i (content ++ buf)
  | (Throw _, (a', k')) => ai_temp_file a' = tmp ∧ ai_handle a' = fd ∧ ∃ c, fs_view k' = writing v tmp fd i c
  end.
Proof using Hfs Hnss.
  intros (H1 & H2 & H3 & H4 & H5 & H6 & H7) Hv.
  unfold add_sink_write, sink_write, tee_sink_write, sink_write, cache_fd_sink_write, fd_sink_write. cbn [left fst snd].
  pose proof (sink_write_appends (length buf) v tmp fd i buf content k (le_n _) Hv) as Hw. rewrite H5.
  destruct (fd_sink_write_loop (posix_kernel os) (length buf) fd k buf) as [[[]|e] k']; [|done].
  destruct (hash_write_loop_holds N H absorbed Hnss (length buf) (ai_hash a) _ _ buf (le_n _) H6) as (h' & Hh & Hh').
  unfold hash_sink_write. cbn [left right]. rewrite Hh. cbn. split; [|done].
  unfold sink_state. cbn. split_and!; try done. rewrite H7, zlen_app. unfold u64. by rewrite Z.add_mod_idemp_l.
Qed.

Lemma add_sink_writes_spec v csum tmp fd i bufs : ∀ content a k,
  sink_state csum tmp fd content a → fs_view k = writing v tmp fd i content →
  match add_sink_writes os N bufs (a, k) with
  | (Ok _, (a', k')) => sink_state csum tmp fd (content ++ concat bufs) a' ∧
      fs_view k' = writing v tmp fd i (content ++ concat bufs)
  | (Throw _, (a', k')) => ai_temp_file a' = tmp ∧ ai_handle a' = fd ∧ ∃ c, fs_view k' = writing v tmp fd i c
  end.
Proof using Hfs Hnss.
  induction bufs as [|buf bufs IH]; intros content a k Ha Hv; cbn [add_sink_writes concat].
  { rewrite app_nil_r. done. }
  unfold mbind, sx_bind. pose proof (add_sink_write_step v csum tmp fd i content buf a k Ha Hv) as Hs.
  destruct (add_sink_write os N buf (a, k)) as [[[]|e] [a' k']]; [|done].
  destruct Hs as [Ha' Hv']. specialize (IH _ _ _ Ha' Hv'). by rewrite <- app_assoc in IH.
Qed.

(** ** The end of the sink *)

(** The file is abandoned: its name may stay when [unlinkat] fails. *)
Definition aborted (v : small) (tmp : bytes) (i : Z) (v' : small) : Prop :=
  ∃ c, sm_fds v' = sm_fds v ∧ sm_inodes v' = <[i := c]> (sm_inodes v) ∧
    (sm_names v' = <[tmp := i]> (sm_names v) ∨ sm_names v' = delete tmp (<[tmp := i]> (sm_names v))).

Lemma fd_destroy_view fd k : 
  fs_view (fd_destroy os (fd, k)) = if 0 <=? fd then set_fds (fs_view k) (delete fd (sm_fds (fs_view k))) else fs_view k.
Proof using Hfs.
  unfold fd_destroy, fd_close_nothrow. cbn. destruct (0 <=? fd); [|done]. apply (fs_close os Hfs).
Qed.

Lemma unlink_view d name k : is_dir k d →
  let '(r, (d', k')) := fd_unlinkat os name 0 (d, k) in
  d' = d ∧ (r = Ok tt ∧ fs_view k' = set_names (fs_view k) (delete name (sm_names (fs_view k))) ∨
            is_ok r = false ∧ fs_view k' = fs_view k).
Proof using Hfs.
  intros Hd. unfold fd_unlinkat, sys. pose proof (fs_unlink os Hfs d name k Hd) as Hu.
  unfold fails_or, Datatypes.id in Hu. destruct (px_unlinkat os d name 0 k) as [ret k']. cbn in Hu.
  destruct Hu as [[Hr Hu]|[Hr Hu]]; destruct (Z.ltb_spec ret 0); try lia; cbn; split; auto.
Qed.

Lemma destroy_aborts c (a : add_impl C) v tmp fd i content k : is_Some (last tmp) → ai_temp_file a = tmp →
  (∃ o, sm_fds v !! fc_dirfd c = Some (FdDirectory o)) → sm_fds v !! fd = None → 0 <= fd →
  (ai_handle a = fd ∧ fs_view k = writing v tmp fd i content ∨
   ai_handle a = -1 ∧ fs_view k = set_fds (writing v tmp fd i content) (sm_fds v)) →
  aborted v tmp i (fs_view (add_impl_destroy os c a k)).
Proof using Hfs.
  intros Hne Ht [o Ho] Hfd Hnn Hst. unfold add_impl_destroy. rewrite Ht.
  rewrite bool_decide_eq_false_2 by (intros ->; by destruct Hne).
  assert (Hdir : is_dir k (fc_dirfd c)).
  { exists o. destruct Hst as [[_ ->]|[_ ->]]; [|done]. cbn. by rewrite lookup_insert_ne by congruence. }
  pose proof (unlink_view _ tmp k Hdir) as Hu.
  destruct (fd_unlinkat os tmp 0 (fc_dirfd c, k)) as [r [d' k1]]. destruct Hu as [_ Hu]. cbn [snd].
  rewrite fd_destroy_view. exists content.
  destruct Hst as [[-> Hv]|[-> Hv]].
  - destruct (Z.leb_spec 0 fd); [|lia].
    destruct Hu as [[_ ->]|[_ ->]]; rewrite Hv; cbn; rewrite delete_insert_id by done; auto.
  - cbn [Z.leb Z.compare]. destruct Hu as [[_ ->]|[_ ->]]; rewrite Hv; cbn; auto.
Qed.

(** The file is published under its digest. *)
Definition published (v : small) (tmp hex : bytes) (i : Z) (content : bytes) (v' : small) : Prop :=
  sm_fds v' = sm_fds v ∧ sm_inodes v' = <[i := content]> (sm_inodes v) ∧
  sm_names v' = <[hex := i]> (delete tmp (<[tmp := i]> (sm_names v))).

Lemma finish_spec c v csum tmp fd i content a k :
  is_Some (last tmp) → (∃ o, sm_fds v !! fc_dirfd c = Some (FdDirectory o)) → sm_fds v !! fd = None → 0 <= fd →
  sink_state csum tmp fd content a → fs_view k = writing v tmp fd i content →
  match add_sink_finish os N c (a, k) with
  | (Ok path, (a', k')) =>
      path = fc_root c ++ base16_encode (csum_value csum) ∧
      H (csum_type csum) content = csum_value csum ∧
      (csum_length csum = no_length ∨ csum_length csum = u64 (zlen content)) ∧
      published v tmp (base16_encode (csum_value csum)) i content (fs_view (add_impl_destroy os c a' k'))
  | (Throw _, (a', k')) => aborted v tmp i (fs_view (add_impl_destroy os c a' k'))
  end.
Proof using Hfs Hnss.
  intros Hne Hdir Hfd Hnn (H1 & H2 & H3 & H4 & H5 & H6 & H7) Hv. unfold add_sink_finish.
  assert (Habort : aborted v tmp i (fs_view (add_impl_destroy os c a k)))
    by (eapply (destroy_aborts c a v tmp fd i content); eauto).
  rewrite H1, H7. destruct (negb _ && negb _) eqn:Elen; [done|].
  rewrite (hash_digest_holds N H absorbed Hnss _ _ _ H6). case_bool_decide as Hdig; [|done]. cbn [negb].
  destruct ((if fc_do_fsync c then fd_fsync os else mret tt) (ai_handle a, k)) as [r [fd1 k1]] eqn:Ef.
  assert (Hk1 : fd1 = fd ∧ fs_view k1 = fs_view k).
  { rewrite <- H4. destruct (fc_do_fsync c); [|by injection Ef as <- <- <-]. revert Ef. unfold fd_fsync, sys.
    pose proof (fs_fsync os Hfs (ai_handle a) k) as Hs. destruct (px_fsync os (ai_handle a) k) as [ret k2].
    destruct (ret <? 0); intros [= <- <- <-]; done. }
  destruct Hk1 as [-> Hk1]. rewrite Hv in Hk1.
  destruct r as [[]|e]; [|by eapply (destroy_aborts c a v tmp fd i content); eauto].
  unfold fd_close. destruct (Z.ltb_spec fd 0); [lia|].
  pose proof (fs_close os Hfs fd k1) as Hc. destruct (px_close os fd k1) as [ret k2]. cbn in Hc.
  assert (Hk2 : fs_view k2 = set_fds (writing v tmp fd i content) (sm_fds v)).
  { rewrite Hc, Hk1. unfold set_fds, writing. cbn. by rewrite delete_insert_id. }
  destruct (negb (ret =? 0)); [eapply (destroy_aborts c _ v tmp fd i content); cbn; eauto|].
  assert (Hd2 : is_dir k2 (fc_dirfd c)) by (destruct Hdir as [o Ho]; exists o; by rewrite Hk2).
  rewrite H2, H3. unfold renameat, mbind, sx_bind, sys.
  pose proof (fs_rename os Hfs (fc_dirfd c) tmp (base16_encode (csum_value csum)) k2 Hd2) as Hr.
  unfold fails_or, Datatypes.id in Hr. destruct (px_renameat os _ _ _ _ k2) as [ret' k3]. cbn in Hr.
  destruct Hr as [[Hret Hr]|(Hret & j & Hj & Hr)]; destruct (Z.ltb_spec ret' 0); try lia.
  { eapply (destroy_aborts c _ v tmp fd i content); cbn; eauto. right. split; [done|congruence]. }
  cbn. split_and!; [done|done| |].
  { apply andb_false_iff in Elen as [E|E]; apply negb_false_iff, Z.eqb_eq in E; auto. }
  unfold add_impl_destroy. cbn. rewrite Hk2 in Hj. cbn in Hj. rewrite lookup_insert_eq in Hj.
  injection Hj as <-. rewrite Hr, Hk2. unfold published. cbn. done.
Qed.
End add.

(** ** The invariant of the cache *)

Lemma b16_digit_not_dot n : b16_digit n ≠ 46.
Proof.
  unfold b16_digit. destruct (nth_in_or_default (Z.to_nat n) b16_digits 0) as [Hin| ->]; [|done].
  assert (Forall (λ c, c ≠ 46) b16_digits) as Hall by (repeat constructor; done).
  rewrite Forall_forall in Hall. apply Hall. by apply list_elem_of_In.
Qed.
Lemma base16_encode_no_dot d : 46 ∉ base16_encode d.
Proof.
  induction d as [|c d IH]; cbn [base16_encode]; [by apply not_elem_of_nil|].
  rewrite !not_elem_of_cons. split_and!; [|  |done]; apply not_eq_sym, b16_digit_not_dot.
Qed.
Lemma base16_encode_not_temp d e : base16_encode d ≠ base16_encode e ++ str ".tmp".
Proof.
  intros Heq. apply (base16_encode_no_dot d). rewrite Heq. apply elem_of_app. right. apply elem_of_cons. by left.
Qed.
Lemma base16_encode_inj d e : bytes_ok d → bytes_ok e → base16_encode d = base16_encode e → d = e.
Proof.
  intros Hd He Heq. pose proof (base16_decode_loop_encode 0 d Hd) as H1.
  rewrite Heq, base16_decode_loop_encode in H1 by done. by injection H1.
Qed.
Lemma digest_length_inj t t' : digest_length t = digest_length t' → t = t'.
Proof. by destruct t, t'. Qed.

Section invariant.
Context (H : hash_type → bytes → bytes) (Hlen : ∀ t s, zlen (H t s) = digest_length t).
Implicit Types (v : small) (tmp hex : bytes) (i : Z).

(** The temporary file: one that was there, or a new one. *)
Definition temp_inode v tmp i : Prop :=
  sm_names v !! tmp = Some i ∨ sm_names v !! tmp = None ∧ sm_inodes v !! i = None.

Lemma temp_inode_other v tmp i n : cache_ok H v → temp_inode v tmp i → sm_names v !! n = Some i → n = tmp.
Proof.
  intros Hok [Ht|[_ Hi]] Hn; [exact (cok_inj H v Hok _ _ _ Hn Ht)|].
  destruct (cok_dom H v Hok _ _ Hn) as [c Hc]. congruence.
Qed.

(** The names and files other than the temporary one stay. *)
Lemma temp_frame v v' tmp i c n : cache_ok H v → temp_inode v tmp i →
  sm_inodes v' = <[i := c]> (sm_inodes v) → n ≠ tmp → sm_names v' !! n = sm_names v !! n →
  cached v' n = cached v n.
Proof.
  intros Hok Ht Hi Hn Hnames. unfold cached. rewrite Hnames, Hi. destruct (sm_names v !! n) as [j|] eqn:E; [|done].
  cbn. rewrite lookup_insert_ne; [done|]. intros <-. exact (Hn (temp_inode_other _ _ _ _ Hok Ht E)).
Qed.

(** A change of names that keeps the invariant: the other names stay, the temporary
    name is bound to the file or gone, and at most one name [pub] is bound to it. *)
Lemma cache_ok_change v v' tmp pub i c :
  cache_ok H v → temp_inode v tmp i → sm_inodes v' = <[i := c]> (sm_inodes v) →
  (∀ n, n ≠ tmp → Some n ≠ pub → sm_names v' !! n = sm_names v !! n) →
  (∀ n, n = tmp ∨ Some n = pub → ∀ j, sm_names v' !! n = Some j → j = i) →
  (∀ n, Some n = pub → n ≠ tmp → sm_names v' !! tmp = None) →
  (∀ d, tmp ≠ base16_encode d) →
  (∀ d t, bytes_ok d → Some (base16_encode d) = pub → zlen d = digest_length t → H t c = d) →
  cache_ok H v'.
Proof.
  intros Hok Ht Hi Hother Hnew Htmp Hdot Hpub.
  assert (Hcases : ∀ n j, sm_names v' !! n = Some j →
    (n ≠ tmp ∧ Some n ≠ pub ∧ sm_names v !! n = Some j ∧ j ≠ i) ∨ ((n = tmp ∨ Some n = pub) ∧ j = i)).
  { intros n j Hn. destruct (decide (n = tmp)) as [->|H1]; [right; eauto|].
    destruct (decide (Some n = pub)) as [H2|H2]; [right; eauto|left].
    rewrite Hother in Hn by done. split_and!; try done. intros ->.
    exact (H1 (temp_inode_other _ _ _ _ Hok Ht Hn)). }
  split.
  - intros n m j Hn Hm.
    destruct (Hcases n j Hn) as [(?&?&Hn'&?)|[Hn' ->]], (Hcases m _ Hm) as [(?&?&Hm'&?)|[Hm' ?]]; try done.
    + exact (cok_inj H v Hok _ _ _ Hn' Hm').
    + destruct Hn' as [->|Hn'], Hm' as [->|Hm']; [done| | |congruence].
      * destruct (decide (m = tmp)) as [->|Hne]; [done|]. rewrite (Htmp m) in Hn by done. done.
      * destruct (decide (n = tmp)) as [->|Hne]; [done|]. rewrite (Htmp n) in Hm by done. done.
  - intros n j Hn. rewrite Hi. destruct (Hcases n j Hn) as [(_&_&Hn'&Hj)|[_ ->]].
    + rewrite lookup_insert_ne by done. exact (cok_dom H v Hok _ _ Hn').
    + rewrite lookup_insert_eq. by eexists.
  - intros t d x Hd Hl Hx. destruct (decide (Some (base16_encode d) = pub)) as [Hp|Hp].
    + unfold cached in Hx. destruct (sm_names v' !! base16_encode d) as [j|] eqn:E; [|done]. cbn in Hx.
      rewrite (Hnew _ (or_intror Hp) j E), Hi, lookup_insert_eq in Hx. injection Hx as <-. by apply Hpub.
    + rewrite (temp_frame v v' tmp i c) in Hx; try done.
      * exact (cok_digest H v Hok t d x Hd Hl Hx).
      * apply Hother; [|done]. intros Heq. by apply (Hdot d).
Qed.

Lemma aborted_ok v v' tmp i : (∀ d, tmp ≠ base16_encode d) → cache_ok H v → temp_inode v tmp i →
  aborted v tmp i v' → cache_ok H v' ∧ ∀ n, n ≠ tmp → cached v' n = cached v n.
Proof.
  intros Hdot Hok Ht (c & Hf & Hi & Hn).
  assert (Hother : ∀ n, n ≠ tmp → sm_names v' !! n = sm_names v !! n).
  { intros n Hne. destruct Hn as [->| ->]; rewrite ?lookup_delete_ne, lookup_insert_ne by congruence; done. }
  split; [|intros n Hne; apply (temp_frame v v' tmp i c); auto].
  apply (cache_ok_change v v' tmp None i c); try done; [auto|].
  intros n [->|[=]] j. destruct Hn as [->| ->]; [rewrite lookup_insert_eq; congruence|by rewrite lookup_delete_eq].
Qed.

Lemma published_ok v v' tmp d i c : bytes_ok d → (∀ e, tmp ≠ base16_encode e) → cache_ok H v →
  temp_inode v tmp i → (∃ t, H t c = d) → published v tmp (base16_encode d) i c v' →
  cache_ok H v' ∧ cached v' (base16_encode d) = Some c ∧
  ∀ n, n ≠ tmp → n ≠ base16_encode d → cached v' n = cached v n.
Proof using Hlen.
  intros Hd Hdot Hok Ht [t Hc] (Hf & Hi & Hn). pose proof (Hdot d) as Hne.
  assert (Hother : ∀ n, n ≠ tmp → n ≠ base16_encode d → sm_names v' !! n = sm_names v !! n).
  { intros n H1 H2. rewrite Hn, lookup_insert_ne, lookup_delete_ne, lookup_insert_ne by congruence. done. }
  split; [|split].
  - apply (cache_ok_change v v' tmp (Some (base16_encode d)) i c); try done.
    + intros n H1 H2. apply Hother; congruence.
    + intros n [->|[= ->]] j; rewrite Hn; [|rewrite lookup_insert_eq; congruence].
      by rewrite lookup_insert_ne, lookup_delete_eq by congruence.
    + intros n [= ->] _. by rewrite Hn, lookup_insert_ne, lookup_delete_eq by congruence.
    + intros e t' He [= Heq] Hl. apply base16_encode_inj in Heq as ->; [|done..].
      rewrite <- Hc, Hlen in Hl. apply digest_length_inj in Hl as <-. done.
  - unfold cached. rewrite Hn, lookup_insert_eq. cbn. by rewrite Hi, lookup_insert_eq.
  - intros n H1 H2. apply (temp_frame v v' tmp i c); auto.
Qed.

Lemma unlinked_ok v tmp : (∀ d, tmp ≠ base16_encode d) → cache_ok H v →
  cache_ok H (set_names v (delete tmp (sm_names v))) ∧
  ∀ n, n ≠ tmp → cached (set_names v (delete tmp (sm_names v))) n = cached v n.
Proof.
  intros Hdot Hok. destruct (sm_names v !! tmp) as [i|] eqn:E.
  - destruct (cok_dom H v Hok _ _ E) as [c Hc].
    apply (aborted_ok v _ tmp i); [done|done|by left|]. exists c. cbn.
    rewrite (insert_id (sm_inodes v)), (insert_id (sm_names v)) by done. auto.
  - rewrite delete_id by done. by destruct v.
Qed.
End invariant.


(** ** What expire removes *)

#[local] Existing Instance bytes_le_dec.
#[local] Instance bytes_le_trans : Transitive bytes_le.
Proof.
  intros a b c. unfold bytes_le, bytes_ltb. rewrite (bytes_cmp_antisym a b), (bytes_cmp_antisym b c), (bytes_cmp_antisym a c).
  destruct (bytes_cmp a b) eqn:E1, (bytes_cmp b c) eqn:E2, (bytes_cmp a c) eqn:E3; simpl; try done; intros _ _.
  all: rewrite ?bytes_cmp_eq in *; subst; rewrite ?bytes_cmp_refl in *; try done; try congruence.
  by rewrite (bytes_cmp_lt_trans _ _ _ E1 E2) in E3.
Qed.
#[local] Instance bytes_le_total : Total bytes_le.
Proof.
  intros a b. unfold bytes_le, bytes_ltb. rewrite (bytes_cmp_antisym a b).
  destruct (bytes_cmp a b); simpl; auto.
Qed.
Lemma bytes_le_lt a b c : bytes_ltb a b = true → bytes_le b c → a ≠ c.
Proof. unfold bytes_le. intros H1 H2 ->. congruence. Qed.

(** On sorted ranges, without duplicates in the first. *)
Lemma set_difference_spec fuel : ∀ a b, (length a + length b <= fuel)%nat →
  StronglySorted bytes_le a → StronglySorted bytes_le b → NoDup a →
  ∀ x, x ∈ set_difference fuel a b ↔ x ∈ a ∧ x ∉ b.
Proof.
  induction fuel as [|fuel IH]; intros [|x a] [|y b] Hlen Ha Hb Hnd z;
    try (simpl in Hlen; lia); cbn [set_difference];
    try (split; [intros Hz; split; [done|apply not_elem_of_nil]|by intros [? _]]);
    try (split; [by intros ?%elem_of_nil|by intros [?%elem_of_nil _]]).
  inversion_clear Ha as [|?? Ha' Hxa]. inversion_clear Hb as [|?? Hb' Hyb]. inversion_clear Hnd as [|?? Hx Hnd'].
  rewrite Forall_forall in Hxa, Hyb. simpl in Hlen.
  destruct (bytes_ltb x y) eqn:E1; [|destruct (bytes_ltb y x) eqn:E2].
  - assert (x ∉ y :: b) as Hxb.
    { intros [->|Hin]%elem_of_cons; [by rewrite bytes_ltb_irrefl in E1|].
      exact (bytes_le_lt _ _ _ E1 (Hyb _ Hin) eq_refl). }
    assert (StronglySorted bytes_le (y :: b)) by (constructor; [done|by apply Forall_forall]).
    rewrite !(elem_of_cons _ z x), IH by (simpl; done || lia).
    split; [intros [->|[? ?]]; auto|intros [[->|?] ?]; auto].
  - assert (y ∉ x :: a) as Hya.
    { intros [->|Hin]%elem_of_cons; [by rewrite bytes_ltb_irrefl in E2|].
      exact (bytes_le_lt _ _ _ E2 (Hxa _ Hin) eq_refl). }
    assert (StronglySorted bytes_le (x :: a)) by (constructor; [done|by apply Forall_forall]).
    assert (NoDup (x :: a)) by by constructor.
    rewrite IH by (simpl; done || lia). rewrite (elem_of_cons b).
    split; [|tauto]. intros [Hz Hzb]. split; [done|]. intros [->|?]; done.
  - pose proof (bytes_ltb_total _ _ E1 E2) as ->. rewrite IH by (done || lia). rewrite !elem_of_cons.
    split; [|tauto]. intros [Hz Hzb]. split; [by right|]. intros [->|?]; done.
Qed.

Section expire_spec.
Context {K : Type} `{FV : FsView K} (os : posix K) (Hfs : fs_laws os).

Lemma unlink_digests_spec result dir : ∀ k, is_dir k dir →
  let '(r, k') := unlink_digests os result dir k in
  ∃ names, fs_view k' = set_names (fs_view k) names ∧
  (∀ n, names !! n = sm_names (fs_view k) !! n ∨ names !! n = None ∧ n ∈ base16_encode <$> result) ∧
  (r = Ok tt → ∀ n, n ∈ base16_encode <$> result → names !! n = None).
Proof using Hfs.
  induction result as [|p result IH]; intros k Hdir; cbn [unlink_digests].
  { exists (sm_names (fs_view k)). split; [by destruct (fs_view k)|]. split; [by left|by intros _ n ?%elem_of_nil]. }
  pose proof (unlink_view os Hfs dir (base16_encode p) k Hdir) as Hu.
  destruct (fd_unlinkat os (base16_encode p) 0 (dir, k)) as [[[]|e] [d' k1]]; destruct Hu as [_ Hu].
  - destruct Hu as [[_ Hv]|[? _]]; [|done].
    assert (Hdir1 : is_dir k1 dir) by (unfold is_dir; by rewrite Hv).
    specialize (IH k1 Hdir1). destruct (unlink_digests os result dir k1) as [r k'].
    destruct IH as (names & H1 & H2 & H3). exists names. split; [by rewrite H1, Hv|]. rewrite fmap_cons.
    rewrite Hv in H2. cbn in H2.
    assert (Hp : names !! base16_encode p = None).
    { destruct (H2 (base16_encode p)) as [->|[-> _]]; [apply lookup_delete_eq|done]. }
    split.
    + intros n. destruct (decide (n = base16_encode p)) as [->|Hn]; [right; split; [done|by left]|].
      destruct (H2 n) as [->|[? ?]]; [left; by rewrite lookup_delete_ne|right; split; [done|by right]].
    + intros Hr n [->|Hn]%elem_of_cons; [done|by apply H3].
  - destruct Hu as [[? _]|[_ Hv]]; [done|]. exists (sm_names (fs_view k)).
    split; [rewrite Hv; by destruct (fs_view k)|]. split; [by left|done].
Qed.

Lemma open_directory_view path k :
  let '(r, (d, k')) := fd_open_directory os path (fd_new, k) in
  match r with
  | Ok _ => 0 <= d ∧ sm_fds (fs_view k) !! d = None ∧
      ∃ o, fs_view k' = set_fds (fs_view k) (<[d := FdDirectory o]> (sm_fds (fs_view k)))
  | Throw _ => d = fd_new ∧ fs_view k' = fs_view k
  end.
Proof using Hfs.
  unfold fd_open_directory, fd_open, mbind, sx_bind, with_kernel, sx_on, sys. cbn [fst snd].
  pose proof (fs_open_directory os Hfs path k) as Ho. unfold fails_or, Datatypes.id in Ho.
  destruct (px_open os path _ 0 k) as [ret k']. cbn [fst snd] in Ho.
  destruct Ho as [[Hr Ho]|(Hr & Hn & o & Ho)]; destruct (Z.ltb_spec ret 0); try lia; cbn; [done|].
  split_and!; [done|done|by exists o].
Qed.
End expire_spec.


(** ** Concrete runs *)

(** A cache directory open as descriptor 3. *)
Definition empty_cache : small := Small {[3 := FdDirectory 0]} ∅ ∅ ∅ ∅.
Definition sample_cache : file_cache := FileCache (str "/cache/") 3 true.
Definition sample_data : bytes := str "hello, world".
Definition sample_sum : checksum := Checksum (toy_H md5 sample_data) 12 md5.

Lemma toy_nss_ok : nss_ok toy_nss toy_H Datatypes.id.
Proof.
  split.
  - intros t. by eexists.
  - intros c. by eexists.
  - intros c s. by eexists.
  - intros c n Hn. cbv [toy_nss pk11_final Datatypes.id] in *. by rewrite (proj2 (Z.leb_le _ _) Hn).
  - intros [] s; reflexivity.
Qed.
Lemma empty_cache_ok : cache_ok toy_H empty_cache.
Proof. by split. Qed.

Lemma toy_H_bytes t s : bytes_ok (toy_H t s).
Proof.
  unfold toy_H. apply Forall_app. split; [apply Forall_replicate; by split|].
  constructor; [|constructor]. unfold is_byte. apply Z.mod_pos_bound. lia.
Qed.


(** Two sinks for the same digest share the temporary file: the second one truncates
    what the first has written, which is then published. *)
Definition interleaved (k : small) : res (bytes * option bytes) :=
  let new := add_sink_new small_kernel toy_nss sample_cache sample_sum in
  match new k with
  | (Throw e, _) => Throw e
  | (Ok a1, k) =>
      let '(_, (a1, k)) := add_sink_write small_kernel toy_nss sample_data (a1, k) in
      let '(_, k) := new k in
      match add_sink_finish small_kernel toy_nss sample_cache (a1, k) with
      | (Throw e, _) => Throw e
      | (Ok path, (_, k)) => Ok (path, cached k (base16_encode (csum_value sample_sum)))
      end
  end.
Example add_sinks_interleaved :
  interleaved empty_cache = Ok (str "/cache/00000000000000000000000000000088", Some []).
Proof. vm_compute. reflexivity. Qed.

(** The duplicate of the descriptor shares its position: the directory is listed once. *)
Definition listed_twice : small → option (res (list bytes) * res (list bytes)) := λ k,
  '(r1, k) ← digests small_kernel 9 sample_cache k;
  '(r2, _) ← digests small_kernel 9 sample_cache k;
  Some (r1, r2).
Example digests_second_time :
  listed_twice (Small {[3 := FdDirectory 0]} ∅ {[str "0a" := 0; str "x" := 0; str "0b" := 0]} {[0 := []]} ∅)
  = Some (Ok [[11]; [10]], Ok []).
Proof. vm_compute. reflexivity. Qed.

(** A name in upper case decodes to the same digest, but another name is unlinked: the
    referenced file goes, the other one stays. *)
Example expire_upper_case :
  let k := Small ∅ ∅ {[str "0A" := 0; str "0a" := 1]} {[0 := []; 1 := []]} ∅ in
  let '(r, k') := expire_files small_kernel (str "/cache") [[10]; [10]] [[10]] k in
  r = Ok tt ∧ sm_names k' = {[str "0A" := 0]}.
Proof. vm_compute. split; reflexivity. Qed.

