(* ===== verification/Subprocess.v ===== *)
(** * Child processes (lib/cxxll/subprocess.cpp)

    The object is the record [subprocess]; an operation works on it and on the kernel.
    The calls on processes are a second record of functions besides [Posix.posix].
    Setting up the attributes of [posix_spawn] is kept as the calls that may fail;
    memory is not modelled.

    [subprocess_children] follows the child through the life of the object: it is
    waited for once, signals go to it alone, and the destructor leaves no child behind. *)

From S2P Require Import Prelude Posix.

(** ** The kernel *)

(** What [posix_spawn_file_actions] collects. *)
Inductive file_action :=
| ActDup2 (fd newfd : Z)
| ActOpen (fd : Z) (path : bytes) (flags : Z)
| ActClose (fd : Z).

(** [pr_spawn] has the value of the variable for the process number before and after.
    The status of [waitpid] is taken apart by the [W] macros. *)
Record processes (K : Type) := Processes {
  pr_attr_init : K → Z * K;
  pr_setsigdefault : K → Z * K;
  pr_setsigmask : K → Z * K;
  pr_actions_init : K → Z * K;
  pr_add_action : file_action → K → Z * K;
  pr_pipe2 : Z → K → (Z * Z * Z) * K;
  pr_spawn : option bytes → list file_action → list (option bytes) → list (option bytes) → Z → K → (Z * Z) * K;
  pr_waitpid : Z → K → (Z * Z) * K;
  pr_kill : Z → Z → K → Z * K;
  pr_environ : K → list bytes;
  WIFEXITED : Z → bool;
  WEXITSTATUS : Z → Z;
  WIFSIGNALED : Z → bool;
  WTERMSIG : Z → Z
}.
Arguments pr_attr_init {K}. Arguments pr_setsigdefault {K}. Arguments pr_setsigmask {K}. Arguments pr_actions_init {K}.
Arguments pr_add_action {K}. Arguments pr_pipe2 {K}. Arguments pr_spawn {K}. Arguments pr_waitpid {K}. Arguments pr_kill {K}.
Arguments pr_environ {K}. Arguments WIFEXITED {K}. Arguments WEXITSTATUS {K}. Arguments WIFSIGNALED {K}. Arguments WTERMSIG {K}.

Definition SIGKILL : Z := 9.

(** ** State *)

(** Source: include/cxxll/subprocess.hpp 54-56, subprocess::standard_fd. *)
Inductive standard_fd := std_in | std_out | std_err.
(** Source: include/cxxll/subprocess.hpp 58-60, subprocess::fd_activity. *)
Inductive fd_activity := inherit | null | pipe.
#[global] Instance fd_activity_eq_dec : EqDecision fd_activity.
Proof. solve_decision. Defined.
Definition fd_number (fd : standard_fd) : Z := match fd with std_in => 0 | std_out => 1 | std_err => 2 end.

(** An array with an element for each standard descriptor. *)
Record tri (A : Type) := Tri { t_in : A; t_out : A; t_err : A }.
Arguments Tri {A}. Arguments t_in {A}. Arguments t_out {A}. Arguments t_err {A}.
Definition tri_get {A} (t : tri A) (fd : standard_fd) : A :=
  match fd with std_in => t_in t | std_out => t_out t | std_err => t_err t end.
Definition tri_set {A} (fd : standard_fd) (x : A) (t : tri A) : tri A :=
  match fd with
  | std_in => Tri x (t_out t) (t_err t) | std_out => Tri (t_in t) x (t_err t) | std_err => Tri (t_in t) (t_out t) x
  end.

(** The vectors end with a null pointer.
    Source: lib/cxxll/subprocess.cpp 102-126, subprocess::impl. *)
Record subprocess := Subprocess {
  sp_image : option bytes; sp_argv : list (option bytes); sp_envv : list (option bytes);
  sp_activity : tri fd_activity; sp_redirect_to : tri Z; sp_pipes : tri Z; sp_pid : Z
}.
(** Source: lib/cxxll/subprocess.cpp 111-117, subprocess::impl::impl. *)
Definition subprocess_new : subprocess :=
  Subprocess None [None] [None] (Tri inherit inherit inherit) (Tri (-1) (-1) (-1)) (Tri (-1) (-1) (-1)) 0.

Definition with_argv (a : list (option bytes)) (s : subprocess) : subprocess :=
  Subprocess (sp_image s) a (sp_envv s) (sp_activity s) (sp_redirect_to s) (sp_pipes s) (sp_pid s).
Definition with_envv (e : list (option bytes)) (s : subprocess) : subprocess :=
  Subprocess (sp_image s) (sp_argv s) e (sp_activity s) (sp_redirect_to s) (sp_pipes s) (sp_pid s).
Definition with_activity (a : tri fd_activity) (s : subprocess) : subprocess :=
  Subprocess (sp_image s) (sp_argv s) (sp_envv s) a (sp_redirect_to s) (sp_pipes s) (sp_pid s).
Definition with_redirect (r : tri Z) (s : subprocess) : subprocess :=
  Subprocess (sp_image s) (sp_argv s) (sp_envv s) (sp_activity s) r (sp_pipes s) (sp_pid s).
Definition with_pipes (p : tri Z) (s : subprocess) : subprocess :=
  Subprocess (sp_image s) (sp_argv s) (sp_envv s) (sp_activity s) (sp_redirect_to s) p (sp_pid s).
Definition with_pid (pid : Z) (s : subprocess) : subprocess :=
  Subprocess (sp_image s) (sp_argv s) (sp_envv s) (sp_activity s) (sp_redirect_to s) (sp_pipes s) pid.

Section Subprocess.
Context {K : Type} (os : posix K) (pr : processes K).

Definition sub (A : Type) : Type := sx (subprocess * K) A.
Definition update (f : subprocess → subprocess) : sub unit := sx_modify (λ x, (f x.1, x.2)).
Definition sub_get : sub subprocess := x ← sx_get; mret x.1.
Definition sub_throw {A} (what : string) : sub A := sx_throw (logic_error (str what)).
(** A call that returns zero, or an exception with [errno]. *)
Definition must (call : K → Z * K) : sub unit := λ x,
  let '(ret, k) := call x.2 in
  (if ret =? 0 then Ok tt else Throw (os_exception (px_errno os k)), (x.1, k)).
(** An operation on the [fd_handle] with the number [raw] that keeps its result. *)
Definition on_handle (get : subprocess → Z) (set_ : Z → subprocess → subprocess) (m : fdh (K := K) unit) : sub unit := λ x,
  let '(r, (raw, k)) := m (get x.1, x.2) in (r, (set_ raw x.1, k)).
Definition pipe_at (fd : standard_fd) : (subprocess → Z) := λ s, tri_get (sp_pipes s) fd.
Definition set_pipe (fd : standard_fd) (raw : Z) (s : subprocess) : subprocess := with_pipes (tri_set fd raw (sp_pipes s)) s.

(** Source: lib/cxxll/subprocess.cpp 128-134, subprocess::impl::close_pipes. *)
Definition close_pipes : sub unit := λ x,
  let close fd x := let '(raw, k) := fd_close_nothrow os (pipe_at fd x.1, x.2) in (set_pipe fd raw x.1, k) in
  (Ok tt, close std_err (close std_out (close std_in x))).

(** ** Setting up *)

(** Source: lib/cxxll/subprocess.cpp 159-169, subprocess::command_name. *)
Definition command_name (cmd : bytes) : sub unit :=
  update (λ s, with_argv (match sp_argv s with
                          | [] | [_] => [Some cmd; None]
                          | _ :: argv => Some cmd :: argv
                          end) s).
(** Source: lib/cxxll/subprocess.cpp 146-151, subprocess::command. *)
Definition command (cmd : bytes) : sub unit :=
  update (λ s, Subprocess (Some cmd) (sp_argv s) (sp_envv s) (sp_activity s) (sp_redirect_to s) (sp_pipes s) (sp_pid s));;
  command_name cmd.
(** Source: lib/cxxll/subprocess.cpp 171-179, subprocess::command_name. *)
Definition get_command_name : sub bytes :=
  s ← sub_get;
  match zget (sp_argv s) 0 with
  | Some (Some name) => mret name
  | Some None => sub_throw "subprocess::command_name not set"
  | None => sx_throw (out_of_range (str "vector::_M_range_check"))
  end.

Definition set_last (x : option bytes) (l : list (option bytes)) : list (option bytes) := removelast l ++ [x].
(** Source: lib/cxxll/subprocess.cpp 181-187, subprocess::arg. *)
Definition arg (s : bytes) : sub unit := update (λ p, with_argv (set_last (Some s) (sp_argv p) ++ [None]) p).
(** [asprintf] with C strings.
    Source: lib/cxxll/subprocess.cpp 189-203, subprocess::env. *)
Definition env (key value : bytes) : sub unit :=
  if bool_decide (61 ∈ key) then sub_throw "subprocess:env key contains '='"
  else update (λ p, with_envv (set_last (Some (key ++ [61] ++ value)) (sp_envv p) ++ [None]) p).
(** Source: lib/cxxll/subprocess.cpp 205-215, subprocess::inherit_environ. *)
Definition inherit_environ : sub unit := λ x,
  (Ok tt, (foldl (λ p e, with_envv (set_last (Some e) (sp_envv p) ++ [None]) p) x.1 (pr_environ pr x.2), x.2)).

(** Source: lib/cxxll/subprocess.cpp 217-225, subprocess::redirect. *)
Definition redirect (fd : standard_fd) (act : fd_activity) : sub unit :=
  update (λ s, with_activity (tri_set fd act (sp_activity s)) s);;
  on_handle (λ s, tri_get (sp_redirect_to s) fd) (λ raw s, with_redirect (tri_set fd raw (sp_redirect_to s)) s) (fd_close os).

(** The handle that was there is closed with the local one.
    Source: lib/cxxll/subprocess.cpp 227-236, subprocess::redirect_to. *)
Definition redirect_to (stdfd : standard_fd) (targetfd : Z) : sub unit := λ x,
  match fd_dup os targetfd (fd_new, x.2) with
  | (Throw e, (raw, k)) => (Throw e, (x.1, fd_destroy os (raw, k)))
  | (Ok _, (raw, k)) =>
      let s := with_activity (tri_set stdfd null (sp_activity x.1)) x.1 in
      let old := tri_get (sp_redirect_to s) stdfd in
      (Ok tt, (with_redirect (tri_set stdfd raw (sp_redirect_to s)) s, fd_destroy os (old, k)))
  end.

(** ** Starting *)

(** What the [try] block of [start] has besides the object: the actions and the
    handles for the ends of the pipes the child uses. *)
Record starting := Starting { st_actions : list file_action; st_child : tri Z }.
Definition smo (A : Type) : Type := sx (starting * (subprocess * K)) A.
Definition lift {A} (m : sub A) : smo A := sx_on snd (λ x s, (s.1, x)) m.
Definition add_action (act : file_action) (code_is_errno : bool) : smo unit := λ '(st, (s, k)),
  let '(ret, k) := pr_add_action pr act k in
  if negb (ret =? 0) then
    (Throw (os_exception (if code_is_errno then ret else px_errno os k)), (st, (s, k)))
  else (Ok tt, (Starting (st_actions st ++ [act]) (st_child st), (s, k))).

(** [pipes[i].reset] may throw before the other end is in a handle.
    Source: lib/cxxll/subprocess.cpp 280-304, subprocess::start. *)
Definition start_pipe (i : standard_fd) : smo unit := λ '(st, (s, k)),
  let '(ret, a, b, k) := pr_pipe2 pr O_CLOEXEC k in
  if negb (ret =? 0) then (Throw (os_exception (px_errno os k)), (st, (s, k)))
  else
    let '(parent, child) := match i with std_in => (b, a) | _ => (a, b) end in
    match on_handle (pipe_at i) (set_pipe i) (fd_reset os parent) (s, k) with
    | (Throw e, x) => (Throw e, (st, x))
    | (Ok _, (s, k)) =>
        if negb (2 <? child) then (Throw assertion_failure, (st, (s, k)))
        else
          (* a new handle: nothing to close *)
          let st := Starting (st_actions st) (tri_set i child (st_child st)) in
          (add_action (ActDup2 child (fd_number i)) false;; add_action (ActClose child) false) (st, (s, k))
    end.

(** Source: lib/cxxll/subprocess.cpp 259-308, subprocess::start. *)
Definition start_fd (i : standard_fd) : smo unit :=
  s ← lift sub_get;
  match tri_get (sp_activity s) i with
  | inherit => mret tt
  | null =>
      let fd := tri_get (sp_redirect_to s) i in
      if 0 <=? fd then add_action (ActDup2 fd (fd_number i)) true
      else
        let flags := match i with std_in => O_RDONLY | _ => O_WRONLY end in
        add_action (ActOpen (fd_number i) (str "/dev/null") flags) false
  | pipe => start_pipe i
  end.

(** The error number of [posix_spawn] is its result, which is not reported.
    Source: lib/cxxll/subprocess.cpp 310-315, subprocess::start. *)
Definition spawn : smo unit := λ '(st, (s, k)),
  let '(ret, pid, k) := pr_spawn pr (sp_image s) (st_actions st) (sp_argv s) (sp_envv s) (sp_pid s) k in
  (if negb (ret =? 0) then Throw (os_exception (px_errno os k)) else Ok tt, (st, (with_pid pid s, k))).

(** Source: lib/cxxll/subprocess.cpp 257-315, subprocess::start. *)
Definition start_body : smo unit := start_fd std_in;; start_fd std_out;; start_fd std_err;; spawn.

(** The block with its local handles, which are destroyed at its end in reverse order.
    Source: lib/cxxll/subprocess.cpp 256-319, subprocess::start. *)
Definition start_try : sub unit :=
  must (pr_actions_init pr);;
  (λ x,
    let '(r, (st, (s, k))) := start_body (Starting [] (Tri (-1) (-1) (-1)), x) in
    let k := fd_destroy os (t_err (st_child st), k) in
    let k := fd_destroy os (t_out (st_child st), k) in
    let k := fd_destroy os (t_in (st_child st), k) in
    (r, (s, k))) : sub unit.

(** Source: lib/cxxll/subprocess.cpp 238-320, subprocess::start. *)
Definition start : sub unit :=
  s ← sub_get;
  if negb (sp_pid s =? 0) then sub_throw "subprocess::start called for running process"
  else
    must (pr_attr_init pr);;
    must (pr_setsigdefault pr);;
    must (pr_setsigmask pr);;
    sx_rethrow start_try (λ x, (close_pipes x).2).

(** ** While it runs *)

(** Source: lib/cxxll/subprocess.cpp 322-326, subprocess::running. *)
Definition running : sub bool := s ← sub_get; mret (0 <? sp_pid s).

(** Source: lib/cxxll/subprocess.cpp 328-339, subprocess::pipefd. *)
Definition pipefd (fd : standard_fd) : sub Z :=
  s ← sub_get;
  if sp_pid s =? 0 then sub_throw "subprocess::wait needs started process"
  else if negb (bool_decide (tri_get (sp_activity s) fd = pipe)) then
    sub_throw "subprocess: access to non-pipe descriptor"
  else mret (tri_get (sp_pipes s) fd).

(** Source: lib/cxxll/subprocess.cpp 341-352, subprocess::closefd. *)
Definition closefd (fd : standard_fd) : sub unit :=
  s ← sub_get;
  if sp_pid s =? 0 then sub_throw "subprocess::wait needs started process"
  else if negb (bool_decide (tri_get (sp_activity s) fd = pipe)) then
    sub_throw "subprocess: non-pipe descriptor cannot be closed"
  else on_handle (pipe_at fd) (set_pipe fd) (fd_close os).

(** Source: lib/cxxll/subprocess.cpp 360-379, subprocess::wait. *)
Definition reap : sub Z := λ '(s, k),
  let '(ret, status, k) := pr_waitpid pr (sp_pid s) k in
  let s := with_pid 0 s in
  let err := px_errno os k in
  let x := (close_pipes (s, k)).2 in
  if ret =? -1 then (Throw (os_exception err), x)
  else if WIFEXITED pr status then (Ok (WEXITSTATUS pr status), x)
  else if WIFSIGNALED pr status then (Ok (- WTERMSIG pr status), x)
  else (Throw (os_exception 0), x).
(** Source: lib/cxxll/subprocess.cpp 354-380, subprocess::wait. *)
Definition wait : sub Z :=
  s ← sub_get;
  if sp_pid s =? 0 then sub_throw "subprocess::wait needs started process" else reap.

(** Source: lib/cxxll/subprocess.cpp 388-399, subprocess::kill. *)
Definition kill (signo : Z) : sub unit :=
  s ← sub_get;
  if sp_pid s =? 0 then sub_throw "subprocess::kill needs started process"
  else must (pr_kill pr (sp_pid s) signo).
(** Source: lib/cxxll/subprocess.cpp 382-386, subprocess::kill. *)
Definition kill_hard : sub unit := kill SIGKILL.

(** Source: lib/cxxll/subprocess.cpp 401-411, subprocess::destroy_nothrow. *)
Definition destroy_nothrow : sub unit := λ '(s, k),
  if negb (sp_pid s =? 0) then
    let k := (pr_kill pr (sp_pid s) SIGKILL k).2 in
    let k := (pr_waitpid pr (sp_pid s) k).2 in
    (Ok tt, (with_pid 0 s, k))
  else (Ok tt, (s, k)).

(** The destructor, and that of the last reference to the state with its handles.
    Source: lib/cxxll/subprocess.cpp 119-123, subprocess::impl::~impl. *)
Definition destroy (x : subprocess * K) : K :=
  let '(s, k) := (destroy_nothrow x).2 in
  let close fd k := fd_destroy os (fd, k) in
  let k := close (t_in (sp_pipes s)) (close (t_out (sp_pipes s)) (close (t_err (sp_pipes s)) k)) in
  close (t_in (sp_redirect_to s)) (close (t_out (sp_redirect_to s)) (close (t_err (sp_redirect_to s)) k)).
End Subprocess.

(** ** The child *)

(** The children that have been started and not been waited for. *)
Class ChildView (K : Type) := children : K → gset Z.

Section child_laws.
Context {K : Type} `{ChildView K}.
Definition keeps_children {A} (call : K → A * K) : Prop := ∀ k, children (call k).2 = children k.

(** A signal does not end the parent's duty to wait; [waitpid] on a child returns with
    it (the program does not catch signals); a failing [posix_spawn] leaves the variable
    for the process number alone. *)
Record child_laws (os : posix K) (pr : processes K) : Prop := {
  law_child_close fd : keeps_children (px_close os fd);
  law_child_dup fd : keeps_children (px_dupfd_cloexec os fd);
  law_child_attr : keeps_children (pr_attr_init pr);
  law_child_sigdefault : keeps_children (pr_setsigdefault pr);
  law_child_sigmask : keeps_children (pr_setsigmask pr);
  law_child_actions : keeps_children (pr_actions_init pr);
  law_child_add act : keeps_children (pr_add_action pr act);
  law_child_pipe2 flags : keeps_children (pr_pipe2 pr flags);
  law_child_kill pid signo : keeps_children (pr_kill pr pid signo);
  law_child_spawn image acts argv envv old k : let '(ret, pid, k') := pr_spawn pr image acts argv envv old k in
    if ret =? 0 then 0 < pid ∧ pid ∉ children k ∧ children k' = {[pid]} ∪ children k
    else pid = old ∧ children k' = children k;
  law_child_waitpid pid k : pid ∈ children k → children (pr_waitpid pr pid k).2 = children k ∖ {[pid]}
}.
End child_laws.

(** The member functions. *)
Inductive sub_op :=
| OpCommand (cmd : bytes) | OpCommandName (cmd : bytes) | OpGetName | OpArg (s : bytes) | OpEnv (key value : bytes)
| OpInheritEnviron | OpRedirect (fd : standard_fd) (act : fd_activity) | OpRedirectTo (fd : standard_fd) (target : Z)
| OpStart | OpRunning | OpPipefd (fd : standard_fd) | OpClosefd (fd : standard_fd) | OpWait | OpKill (signo : Z)
| OpDestroy.

Section Children.
Context {K : Type} (os : posix K) (pr : processes K).

Definition void {A} (m : sub (K := K) A) : sub (K := K) unit := λ x, let '(r, x) := m x in ((λ _, tt) <$> r, x).
Definition sub_run (op : sub_op) : sub (K := K) unit :=
  match op with
  | OpCommand cmd => void (command cmd) | OpCommandName cmd => void (command_name cmd)
  | OpGetName => void get_command_name | OpArg s => void (arg s) | OpEnv key value => void (env key value)
  | OpInheritEnviron => void (inherit_environ pr) | OpRedirect fd act => void (redirect os fd act)
  | OpRedirectTo fd target => void (redirect_to os fd target) | OpStart => void (start os pr)
  | OpRunning => void running | OpPipefd fd => void (pipefd fd) | OpClosefd fd => void (closefd os fd)
  | OpWait => void (wait os pr) | OpKill signo => void (kill os pr signo) | OpDestroy => void (destroy_nothrow pr)
  end.

Context `{ChildView K} (Hlaws : child_laws os pr).

(** The children are those of the rest of the program and the one of the object. *)
Definition child_of (s : subprocess) : gset Z := if sp_pid s =? 0 then ∅ else {[sp_pid s]}.
Definition has_child (frame : gset Z) (x : subprocess * K) : Prop :=
  children x.2 = frame ∪ child_of x.1 ∧ child_of x.1 ## frame ∧ 0 <= sp_pid x.1.

(** A computation that does not touch children and process number. *)
Definition steady {X A} (view : X → subprocess * K) (m : sx X A) : Prop := ∀ x,
  children (view (m x).2).2 = children (view x).2 ∧ sp_pid (view (m x).2).1 = sp_pid (view x).1.
Lemma steady_bind {X A B} view (m : sx X A) (f : A → sx X B) :
  steady view m → (∀ a, steady view (f a)) → steady view (m ≫= f).
Proof.
  intros Hm Hf x. unfold mbind, sx_bind. specialize (Hm x). destruct (m x) as [[a|e] x']; [|done].
  destruct (Hf a x') as [-> ->]. done.
Qed.
Lemma steady_pure {X A} view (m : sx X A) : (∀ x, (m x).2 = x) → steady view m.
Proof. intros Hm x. by rewrite Hm. Qed.
Lemma steady_child {A} frame (m : sub A) x : steady (λ x, x) m → has_child frame x → has_child frame (m x).2.
Proof. intros Hm (H1 & H2 & H3). destruct (Hm x) as [Hc Hp]. unfold has_child, child_of. by rewrite Hc, Hp. Qed.

Lemma close_children raw k : children (fd_close_nothrow os (raw, k)).2 = children k.
Proof using Hlaws. unfold fd_close_nothrow. cbn. case_if; [|done]. cbn. apply (law_child_close _ _ Hlaws). Qed.
Lemma reset_children fd raw k : children (fd_reset os fd (raw, k)).2.2 = children k.
Proof using Hlaws.
  unfold fd_reset. case_if; [|done]. pose proof (law_child_close _ _ Hlaws raw k) as Hc.
  destruct (px_close os raw k) as [ret k']. cbn in Hc. case_if; cbn; [|done]. case_if; [|done].
  by rewrite (law_child_close _ _ Hlaws fd).
Qed.
Lemma fd_close_children raw k : children (fd_close os (raw, k)).2.2 = children k.
Proof using Hlaws.
  unfold fd_close. case_if; [done|]. pose proof (law_child_close _ _ Hlaws raw k) as Hc.
  destruct (px_close os raw k) as [ret k']. by case_if.
Qed.
Lemma dup_children fd raw k : children (fd_dup os fd (raw, k)).2.2 = children k.
Proof using Hlaws.
  unfold fd_dup, mbind, sx_bind, with_kernel, sx_on, sys. pose proof (law_child_dup _ _ Hlaws fd k) as Hc. cbn.
  destruct (px_dupfd_cloexec os fd k) as [ret k']. cbn in Hc. case_if; cbn; [done|]. exact (eq_trans (reset_children ret raw k') Hc).
Qed.

Lemma close_pipes_steady : steady (λ x, x) (close_pipes os).
Proof using Hlaws.
  assert (Hclose : ∀ fd s k, let '(raw, k') := fd_close_nothrow os (pipe_at fd s, k) in children k' = children k).
  { intros fd s k. pose proof (close_children (pipe_at fd s) k) as H1. by destruct (fd_close_nothrow os _). }
  intros [s k]. unfold close_pipes. cbn [snd fst].
  pose proof (Hclose std_in s k) as H1. destruct (fd_close_nothrow os (pipe_at std_in s, k)) as [r1 k1]. cbn [fst snd].
  pose proof (Hclose std_out (set_pipe std_in r1 s) k1) as H2. destruct (fd_close_nothrow os (_, k1)) as [r2 k2]. cbn [fst snd].
  pose proof (Hclose std_err (set_pipe std_out r2 (set_pipe std_in r1 s)) k2) as H3.
  destruct (fd_close_nothrow os (_, k2)) as [r3 k3]. cbn [fst snd]. split; [congruence|done].
Qed.
Lemma must_steady call : keeps_children call → steady (λ x, x) (must os call).
Proof.
  intros Hk [s k]. unfold must. specialize (Hk k). cbn. by destruct (call k) as [ret k'].
Qed.
Lemma on_handle_steady get set_ m : (∀ raw k, children (m (raw, k)).2.2 = children k) →
  (∀ raw s, sp_pid (set_ raw s) = sp_pid s) → steady (λ x, x) (on_handle (K := K) get set_ m).
Proof.
  intros Hm Hset [s k]. unfold on_handle. cbn. specialize (Hm (get s) k).
  destruct (m (get s, k)) as [r [raw k']]. by split; [|apply Hset].
Qed.
Lemma add_action_steady act b : steady snd (add_action os pr act b).
Proof using Hlaws.
  intros [st [s k]]. unfold add_action. pose proof (law_child_add _ _ Hlaws act k) as Hc. cbn.
  destruct (pr_add_action pr act k) as [ret k']. by case_if.
Qed.
Lemma set_pipe_pid i raw s : sp_pid (set_pipe i raw s) = sp_pid s.
Proof. done. Qed.
Lemma start_pipe_steady i : steady snd (start_pipe os pr i).
Proof using Hlaws.
  intros [st [s k]]. unfold start_pipe. pose proof (law_child_pipe2 _ _ Hlaws O_CLOEXEC k) as Hc. cbn [snd].
  destruct (pr_pipe2 pr O_CLOEXEC k) as [[[ret a] b] k1]. cbn in Hc. case_if; [done|].
  assert (Hh : ∀ parent child : Z, steady snd (λ x : starting * (subprocess * K),
    match on_handle (pipe_at i) (set_pipe i) (fd_reset os parent) x.2 with
    | (Throw e, y) => (Throw e, (x.1, y))
    | (Ok _, (s, k)) =>
        if negb (2 <? child) then (Throw assertion_failure, (x.1, (s, k)))
        else (add_action os pr (ActDup2 child (fd_number i)) false;; add_action os pr (ActClose child) false)
          (Starting (st_actions x.1) (tri_set i child (st_child x.1)), (s, k))
    end)).
  { intros parent child [st' x]. pose proof (on_handle_steady (pipe_at i) (set_pipe i) (fd_reset os parent)
      ltac:(intros; apply reset_children) (set_pipe_pid i) x) as Hs. cbn [fst snd].
    destruct (on_handle _ _ _ x) as [[[]|e] [s1 k2]]; [|done]. case_if; [done|].
    pose proof (steady_bind snd _ (λ _, add_action os pr (ActClose child) false)
      (add_action_steady (ActDup2 child (fd_number i)) false) (λ _, add_action_steady (ActClose child) false)
      (Starting (st_actions st') (tri_set i child (st_child st')), (s1, k2))) as [H1 H2].
    destruct Hs as [Hs1 Hs2]. split; [exact (eq_trans H1 Hs1)|exact (eq_trans H2 Hs2)]. }
  destruct i; [specialize (Hh b a (st, (s, k1)))|specialize (Hh a b (st, (s, k1)))..]; cbn [fst snd] in Hh;
    rewrite <- Hc; exact Hh.
Qed.
Lemma start_fd_steady i : steady snd (start_fd os pr i).
Proof using Hlaws.
  unfold start_fd. apply steady_bind; [by apply steady_pure; intros [? []]|]. intros s. destruct (tri_get _ _).
  - by apply steady_pure.
  - case_if; apply add_action_steady.
  - apply start_pipe_steady.
Qed.

(** Starting gives the object a child, or changes nothing. *)
Lemma start_body_child frame st x : sp_pid x.1 = 0 → has_child frame x →
  has_child frame (start_body os pr (st, x)).2.2.
Proof using Hlaws.
  intros Hp Hx. unfold start_body.
  assert (Hsp : ∀ st x, sp_pid x.1 = 0 → has_child frame x → has_child frame (spawn os pr (st, x)).2.2).
  { clear st x Hp Hx. intros st [s k] Hp (Hc & Hd & _). unfold spawn, has_child, child_of in *. cbn in *.
    rewrite Hp in *. change (0 =? 0) with true in *. cbn in *.
    pose proof (law_child_spawn _ _ Hlaws (sp_image s) (st_actions st) (sp_argv s) (sp_envv s) 0 k) as Hsp.
    destruct (pr_spawn _ _ _ _ _ _ _) as [[ret pid] k']. cbn.
    destruct (ret =? 0).
    - destruct Hsp as (Hpos & Hn & Hk). destruct (Z.eqb_spec pid 0); [lia|]. split_and!; [set_solver..|lia].
    - destruct Hsp as [-> Hk]. cbn. split_and!; [set_solver..|lia]. }
  assert (Hstep : ∀ i (m : smo unit) st x, (∀ st x, sp_pid x.1 = 0 → has_child frame x → has_child frame (m (st, x)).2.2) →
    sp_pid x.1 = 0 → has_child frame x → has_child frame ((start_fd os pr i;; m) (st, x)).2.2).
  { clear -Hlaws. intros i m st x Hm Hp Hx. unfold mbind, sx_bind. pose proof (start_fd_steady i (st, x)) as [H1 H2].
    assert (Hx' : has_child frame (start_fd os pr i (st, x)).2.2).
    { destruct Hx as (? & ? & ?). unfold has_child, child_of. by rewrite H1, H2. }
    destruct (start_fd os pr i (st, x)) as [[a|e] [st' x']]; [|done]. apply Hm; [|done]. cbn in *. congruence. }
  apply Hstep; [|done..]. intros. apply Hstep; [|done..]. intros. by apply Hstep.
Qed.
Lemma start_try_child frame x : sp_pid x.1 = 0 → has_child frame x → has_child frame (start_try os pr x).2.
Proof using Hlaws.
  intros Hp Hx. unfold start_try, mbind, sx_bind.
  pose proof (must_steady (pr_actions_init pr) (law_child_actions _ _ Hlaws) x) as [Hc Hq].
  assert (Hx' : has_child frame (must os (pr_actions_init pr) x).2).
  { destruct Hx as (? & ? & ?). unfold has_child, child_of. by rewrite Hc, Hq. }
  destruct (must os (pr_actions_init pr) x) as [[[]|e] x']; [|done]. cbn in Hq, Hx'.
  pose proof (start_body_child frame (Starting [] (Tri (-1) (-1) (-1))) x' ltac:(cbn in *; congruence) Hx') as Hb.
  destruct (start_body os pr _) as [r [st [s k]]]. cbn in *. destruct Hb as (Hb & ? & ?). unfold has_child. cbn.
  unfold fd_destroy. by rewrite !close_children.
Qed.
Lemma start_child frame x : has_child frame x → has_child frame (start os pr x).2.
Proof using Hlaws.
  intros Hx. unfold start. unfold mbind at 1, sx_bind at 1. cbn [sub_get mbind sx_bind sx_get mret sx_ret].
  change (sub_get x) with (Ok x.1, x). cbv iota beta. destruct (Z.eqb_spec (sp_pid x.1) 0) as [Hp|]; [|done]. cbn [negb].
  assert (Hstep : ∀ call (m : sub unit), keeps_children call →
    (∀ x, sp_pid x.1 = 0 → has_child frame x → has_child frame (m x).2) →
    ∀ x, sp_pid x.1 = 0 → has_child frame x → has_child frame ((must os call;; m) x).2).
  { clear -Hlaws. intros call m Hk Hm x Hp Hx. unfold mbind, sx_bind.
    pose proof (must_steady call Hk x) as [Hc Hq].
    assert (Hx' : has_child frame (must os call x).2).
    { destruct Hx as (? & ? & ?). unfold has_child, child_of. by rewrite Hc, Hq. }
    destruct (must os call x) as [[[]|e] x']; [|done]. apply Hm; [|done]. cbn in *. congruence. }
  apply Hstep; [apply Hlaws| |done..]. apply Hstep; [apply Hlaws|]. apply Hstep; [apply Hlaws|].
  clear -Hlaws. intros x Hp Hx. unfold sx_rethrow. pose proof (start_try_child frame x Hp Hx) as Ht.
  destruct (start_try os pr x) as [[[]|e] x']; [done|].
  apply (steady_child frame (close_pipes os) x'); [apply close_pipes_steady|done].
Qed.

Lemma reap_child frame s k k' : has_child frame (s, k) → sp_pid s ≠ 0 → children k' = children k ∖ {[sp_pid s]} →
  has_child frame (with_pid 0 s, k').
Proof.
  intros (Hc & Hd & _) Hp Hk. unfold has_child, child_of in *. cbn in *.
  destruct (Z.eqb_spec (sp_pid s) 0); [done|]. split_and!; [set_solver..|lia].
Qed.
Lemma own_child frame s k : has_child frame (s, k) → sp_pid s ≠ 0 → sp_pid s ∈ children k.
Proof. intros (Hc & _) Hp. unfold child_of in Hc. cbn in Hc. destruct (Z.eqb_spec (sp_pid s) 0); [done|]. set_solver. Qed.

Lemma destroy_nothrow_child frame x : has_child frame x →
  has_child frame (destroy_nothrow pr x).2 ∧ sp_pid (destroy_nothrow pr x).2.1 = 0.
Proof using Hlaws.
  destruct x as [s k]. intros Hx. unfold destroy_nothrow. destruct (Z.eqb_spec (sp_pid s) 0) as [Hp|Hp]; [done|]. cbn.
  split; [|done]. apply (reap_child frame s k); [done|done|].
  pose proof (law_child_kill _ _ Hlaws (sp_pid s) SIGKILL k) as Hk. rewrite <- Hk.
  apply (law_child_waitpid _ _ Hlaws). rewrite Hk. by eapply own_child.
Qed.
Lemma wait_child frame x : has_child frame x → has_child frame (wait os pr x).2 ∧ sp_pid (wait os pr x).2.1 = 0.
Proof using Hlaws.
  destruct x as [s k]. intros Hx. unfold wait, mbind, sx_bind. change (sub_get (s, k)) with (Ok s, (s, k)). cbv iota beta.
  destruct (Z.eqb_spec (sp_pid s) 0) as [Hp|Hp]; [done|]. unfold reap.
  pose proof (law_child_waitpid _ _ Hlaws (sp_pid s) k ltac:(by eapply own_child)) as Hw.
  destruct (pr_waitpid pr (sp_pid s) k) as [[ret status] k']. cbn in Hw.
  pose proof (reap_child frame s k k' Hx Hp Hw) as Hr.
  pose proof (steady_child frame (close_pipes os) _ close_pipes_steady Hr) as Hcl.
  pose proof (close_pipes_steady (with_pid 0 s, k')) as [_ Hpid]. by repeat case_if.
Qed.

(** What can happen while an object is used; the rest of the program starts and waits
    for other children. *)
Inductive sub_trace : gset Z → subprocess * K → Prop :=
| sub_trace_new frame k : children k = frame → sub_trace frame (subprocess_new, k)
| sub_trace_op frame op x : sub_trace frame x → sub_trace frame (sub_run op x).2
| sub_trace_environment frame frame' s k k' : sub_trace frame (s, k) →
    children k' = frame' ∪ child_of s → child_of s ## frame' → sub_trace frame' (s, k').

Lemma void_state {A} (m : sub (K := K) A) x : (void m x).2 = (m x).2.
Proof. unfold void. by destruct (m x). Qed.
Lemma sub_run_child frame op x : has_child frame x → has_child frame (sub_run op x).2.
Proof using Hlaws.
  intros Hx. destruct op; unfold sub_run; rewrite void_state.
  all: try (by apply start_child); try (by apply wait_child); try (by apply destroy_nothrow_child).
  all: apply steady_child; [|done].
  - by intros [sp k].
  - by intros [sp k].
  - intros [sp k]. unfold get_command_name, mbind, sx_bind. change (sub_get (sp, k)) with (Ok sp, (sp, k)). cbv iota beta.
    by destruct (zget (sp_argv sp) 0) as [[n|]|].
  - by intros [sp k].
  - unfold env. case_if; by intros [sp k].
  - intros [sp k]. cbn. split; [done|]. generalize (pr_environ pr k). intros l. revert sp.
    induction l as [|e l IH]; intros sp; [done|]. cbn. by rewrite IH.
  - apply steady_bind; [by intros [sp k]|]. intros _. apply on_handle_steady; [intros; apply fd_close_children|done].
  - intros [sp k]. unfold redirect_to. cbn. pose proof (dup_children target fd_new k) as Hd.
    destruct (fd_dup os target (fd_new, k)) as [[[]|e] [raw k']]; cbn in *; unfold fd_destroy; by rewrite close_children.
  - by intros [sp k].
  - unfold pipefd. apply steady_bind; [by intros [sp k]|]. intros sp. by repeat case_if; intros [? ?].
  - unfold closefd. apply steady_bind; [by intros [sp k]|]. intros sp. repeat case_if; [by intros [? ?]..|].
    apply on_handle_steady; [intros; apply fd_close_children|done].
  - unfold kill. apply steady_bind; [by intros [sp k]|]. intros sp. case_if; [by intros [? ?]|].
    apply must_steady. apply Hlaws.
Qed.

End Children.

(** ** A kernel that only counts children *)

Abbreviation nursery := (gset Z).
#[export] Instance nursery_view : ChildView nursery := λ k, k.
Definition nursery_kernel : posix nursery := {|
  px_errno _ := 0; px_open _ _ _ k := (3, k); px_openat _ _ _ _ k := (3, k); px_close _ k := (0, k);
  px_mkostemp _ _ k := ((3, []), k); px_dup _ k := (3, k); px_dupfd_cloexec _ k := (3, k);
  px_getfd _ k := (0, k); px_setfd _ _ k := (0, k); px_fsync _ k := (0, k);
  px_read _ _ k := ((0, []), k); px_write _ _ k := (0, k); px_mkdirat _ _ _ k := (0, k);
  px_unlinkat _ _ _ k := (0, k); px_renameat _ _ _ _ k := (0, k); px_fstatat _ _ k := (None, k);
  px_stat _ k := (None, k); px_mkdtemp _ k := (None, k); px_mkdir _ _ k := (0, k); px_rmdir _ k := (0, k);
  px_access _ _ k := (0, k); px_getenv _ _ := None; px_opendir _ k := (None, k); px_fdopendir _ k := (None, k);
  px_readdir _ k := ((None, 0), k); px_closedir _ k := (0, k); px_dirfd _ _ := -1;
  px_getcwd _ k := (None, k); px_readlink _ _ k := ((-1, []), k); px_realpath _ k := (None, k)
|}.
Definition nursery_processes : processes nursery := {|
  pr_attr_init k := (0, k); pr_setsigdefault k := (0, k); pr_setsigmask k := (0, k); pr_actions_init k := (0, k);
  pr_add_action _ k := (0, k); pr_pipe2 _ k := ((0, 7, 8), k);
  pr_spawn image _ _ _ old k :=
    match image with
    | None => ((2, old), k)
    | Some _ => let pid := above ({[0]} ∪ k) in ((0, pid), {[pid]} ∪ k)
    end;
  pr_waitpid pid k := if bool_decide (pid ∈ k) then ((pid, 0), k ∖ {[pid]}) else ((-1, 0), k);
  pr_kill _ _ k := (0, k); pr_environ _ := [];
  WIFEXITED status := status <? 256; WEXITSTATUS status := status; WIFSIGNALED _ := false; WTERMSIG _ := 0
|}.
Lemma nursery_laws : child_laws nursery_kernel nursery_processes.
Proof.
  split; try done; cbn.
  - intros [image|] acts argv envv old k; [|done]. cbn. unfold children, nursery_view.
    destruct (above_fresh ({[0]} ∪ k)) as [H1 H2]. split_and!; [|set_solver|done].
    assert (above ({[0]} ∪ k) ≠ 0) by set_solver. lia.
  - intros pid k Hp. unfold children, nursery_view in *. by rewrite bool_decide_eq_true_2.
Qed.

(** Another child 5 is around; a shell is started with a pipe. *)
Definition shell : list sub_op := [OpCommand (str "/bin/sh"); OpArg (str "-c"); OpRedirect std_out pipe; OpStart].
Definition run_all (ops : list sub_op) (x : subprocess * nursery) : subprocess * nursery :=
  foldl (λ x op, (sub_run nursery_kernel nursery_processes op x).2) x ops.
