(* ===== verification/FileHandle.v ===== *)
(** * Files of the C library, and lines (lib/cxxll/file_handle.cpp, lib/cxxll/read_lines.cpp,
    lib/cxxll/os/ticks.cpp)

    [file_handle] owns a [FILE]; [getline] reads a line with its line feed; [read_lines]
    reads all lines of a file and insists on the last line feed.  The C library is a
    parameter; the buffer of a [line] is its contents.  The clock is here, too.

    [read_lines_spec]: the lines, put together again, are the file. *)

From S2P Require Import Prelude.

(** [errno] after the last call, and the calls: [getline] is the line or -1, with [errno]
    after it. *)
Record stdio (K : Type) := Stdio {
  io_errno : K → Z;
  io_fopen : bytes → bytes → K → option Z * K;
  io_fclose : Z → K → Z * K;
  io_getline : Z → K → option bytes * Z * K;
  io_ferror : Z → K → bool
}.
Arguments io_errno {K}. Arguments io_fopen {K}. Arguments io_fclose {K}. Arguments io_getline {K}. Arguments io_ferror {K}.
Definition EINVAL : Z := 22.

Section FileHandle.
Context {K : Type} (io : stdio K).

(** The handle is its pointer and the state of the system.  [newptr] is not owned when the
    constructor throws; it is null then.
    Source: lib/cxxll/file_handle.cpp 26-32, file_handle::file_handle. *)
Definition fh_take (newptr : option Z) : sx K (option Z) := λ k,
  match newptr with None => (Throw (os_exception (io_errno io k)), k) | Some fp => (Ok (Some fp), k) end.
(** Source: lib/cxxll/file_handle.cpp 34-40, file_handle::file_handle. *)
Definition fh_open (path flags : bytes) : sx K Z := λ k,
  match io_fopen io path flags k with
  | (None, k) => (Throw (os_exception (io_errno io k)), k)
  | (Some fp, k) => (Ok fp, k)
  end.
(** Source: lib/cxxll/file_handle.cpp 42-47, file_handle::~file_handle. *)
Definition fh_destroy (raw : option Z) (k : K) : K := match raw with Some fp => (io_fclose io fp k).2 | None => k end.
(** Source: lib/cxxll/file_handle.cpp 49-59, file_handle::close. *)
Definition fh_close : sx (option Z * K) unit := λ '(raw, k),
  match raw with
  | None => (Ok tt, (None, k))
  | Some ptr =>
      let '(ret, k) := io_fclose io ptr k in
      if negb (ret =? 0) then (Throw (os_exception (io_errno io k)), (None, k)) else (Ok tt, (None, k))
  end.
(** Source: lib/cxxll/file_handle.cpp 61-74, file_handle::reset. *)
Definition fh_reset (newptr : option Z) : sx (option Z * K) unit := λ '(raw, k),
  match newptr with
  | None => (Throw (os_exception (io_errno io k)), (raw, k))
  | Some new =>
      match fh_close (raw, k) with
      | (Throw e, (raw, k)) => (Throw e, (raw, (io_fclose io new k).2))
      | (Ok _, (_, k)) => (Ok tt, (Some new, k))
      end
  end.
(** Source: include/cxxll/file_handle.hpp 88-94, file_handle::release. *)
Definition fh_release (raw : option Z) : option Z * option Z := (raw, None).

(** [None] at the end of the file, when the line is left empty.
    Source: lib/cxxll/file_handle.cpp 76-95, file_handle::getline. *)
Definition fh_getline (raw : Z) : sx K (option bytes) := λ k,
  let '(ret, err, k) := io_getline io raw k in
  match ret with
  | None => if (err =? 0) || negb (io_ferror io raw k) then (Ok None, k) else (Throw (os_exception err), k)
  | Some l => (Ok (Some l), k)
  end.
(** Source: lib/cxxll/file_handle.cpp 109-120, file_handle::line::strip_nl. *)
Definition strip_nl (l : bytes) : bool * bytes :=
  if zlen l =? 0 then (false, l)
  else if bool_decide (zget l (zlen l - 1) = Some 10) then (true, ztake (zlen l - 1) l)
  else (false, l).

(** Source: lib/cxxll/read_lines.cpp 33-39, read_lines. *)
Fixpoint read_lines_loop (fuel : nat) (fh : Z) (result : list bytes) (k : K) : option (res unit * list bytes * K) :=
  match fuel with
  | O => None
  | S fuel =>
      match fh_getline fh k with
      | (Throw e, k) => Some (Throw e, result, k)
      | (Ok None, k) => Some (Ok tt, result, k)
      | (Ok (Some l), k) =>
          let '(ok, l) := strip_nl l in
          if negb ok then Some (Throw (os_exception EINVAL), result, k)
          else read_lines_loop fuel fh (result ++ [l]) k
      end
  end.
(** What was read stays in [result] when an exception is thrown.
    Source: lib/cxxll/read_lines.cpp 28-40, read_lines. *)
Definition read_lines (fuel : nat) (path : bytes) (result : list bytes) (k : K) : option (res unit * list bytes * K) :=
  match fh_open path (str "r") k with
  | (Throw e, k) => Some (Throw e, result, k)
  | (Ok fh, k) =>
      '(r, result, k) ← read_lines_loop fuel fh result k;
      Some (r, result, fh_destroy (Some fh) k)
  end.

(** ** Lines *)

(** What [getline] of the C library promises: the next line with its line feed, or what is
    left at the end of the file, which is not empty; and -1 at the end, or with the error
    flag and [errno] set. *)
Record stdio_laws (rest : Z → K → bytes) : Prop := {
  sl_getline fp k l err k' : io_getline io fp k = (Some l, err, k') →
    rest fp k = l ++ rest fp k' ∧
    ((∃ body, l = body ++ [10] ∧ 10 ∉ body) ∨ (l ≠ [] ∧ 10 ∉ l ∧ rest fp k' = []));
  sl_end fp k err k' : io_getline io fp k = (None, err, k') → rest fp k = [] ∨ (err ≠ 0 ∧ io_ferror io fp k' = true)
}.
Context (rest : Z → K → bytes) (Hio : stdio_laws rest).

Definition with_feed (l : bytes) : bytes := l ++ [10].
Lemma strip_nl_feed body : strip_nl (body ++ [10]) = (true, body).
Proof using.
  clear. unfold strip_nl. rewrite zlen_app. change (zlen [10]) with 1. pose proof (zlen_nonneg body).
  destruct (Z.eqb_spec (zlen body + 1) 0); [lia|]. replace (zlen body + 1 - 1) with (zlen body) by lia.
  rewrite zget_app_mid, bool_decide_eq_true_2 by done. f_equal. unfold ztake. rewrite take_app_le by (unfold zlen; lia).
  apply take_ge. unfold zlen. lia.
Qed.
Lemma strip_nl_none l : 10 ∉ l → strip_nl l = (false, l).
Proof using.
  clear. intros Hl. unfold strip_nl. destruct (zlen l =? 0); [done|]. case_bool_decide as Hz; [|done].
  exfalso. apply Hl. unfold zget in Hz. destruct (_ <? 0); [done|]. by eapply list_elem_of_lookup_2.
Qed.

Lemma read_lines_loop_spec fuel : ∀ fh result k, zlen (rest fh k) < Z.of_nat fuel →
  ∃ r new k', read_lines_loop fuel fh result k = Some (r, result ++ new, k') ∧ Forall (λ l, 10 ∉ l) new ∧
  match r with
  | Ok _ => rest fh k = concat (with_feed <$> new)
  | Throw e => (e = os_exception EINVAL ∧ ∃ l, l ≠ [] ∧ 10 ∉ l ∧ rest fh k = concat (with_feed <$> new) ++ l) ∨
      (∃ errno, e = os_exception errno ∧ errno ≠ 0 ∧ ∃ more, rest fh k = concat (with_feed <$> new) ++ more)
  end.
Proof using Hio.
  induction fuel as [|fuel IH]; intros fh result k Hf; [pose proof (zlen_nonneg (rest fh k)); lia|].
  cbn [read_lines_loop]. unfold fh_getline. destruct (io_getline io fh k) as [[[l|] err] k'] eqn:E.
  - destruct (sl_getline _ Hio _ _ _ _ _ E) as [Hr [(body & -> & Hb)|(Hne & Hl & Hend)]].
    + rewrite strip_nl_feed. cbn [negb]. rewrite Hr, !zlen_app in Hf. change (zlen [10]) with 1 in Hf.
      pose proof (zlen_nonneg body).
      destruct (IH fh (result ++ [body]) k' ltac:(lia)) as (r & new & k'' & -> & Hn & Hs).
      exists r, (body :: new), k''. rewrite <- app_assoc. split; [done|]. split; [by constructor|].
      rewrite Hr. cbn [fmap list_fmap concat]. destruct r as [[]|e]; [by rewrite Hs|].
      destruct Hs as [(-> & l & ? & ? & Hs)|(errno & -> & ? & more & Hs)]; [left|right].
      * split; [done|]. exists l. by rewrite Hs, app_assoc.
      * exists errno. split; [done|]. split; [done|]. exists more. by rewrite Hs, app_assoc.
    + rewrite (strip_nl_none _ Hl). cbn [negb]. exists (Throw (os_exception EINVAL)), [], k'. rewrite app_nil_r.
      split; [done|]. split; [constructor|]. left. split; [done|]. exists l. by rewrite Hr, Hend, app_nil_r.
  - destruct (sl_end _ Hio _ _ _ _ E) as [Hr|[He Hf2]].
    + destruct ((err =? 0) || negb (io_ferror io fh k')) eqn:Ec; eexists _, [], k'; rewrite app_nil_r;
        (split; [reflexivity|]); (split; [constructor|]); [done|]. right. exists err. split; [done|].
      apply orb_false_iff in Ec as [Ec%Z.eqb_neq _]. split; [done|]. by exists (rest fh k).
    + rewrite Hf2. destruct (Z.eqb_spec err 0); [done|]. cbn [orb negb]. eexists _, [], k'. rewrite app_nil_r.
      split; [reflexivity|]. split; [constructor|]. right. exists err. split; [done|]. split; [done|]. by exists (rest fh k).
Qed.

(** Reading the lines of a file that was opened, with more fuel than it has octets: the
    file is closed, and on success the lines that were appended contain no line feed and
    make up the file, each with one behind it; if the text behind the last line feed is not
    empty, [EINVAL] is thrown, with all complete lines appended; another error is one that
    the C library has reported. *)
Theorem read_lines_spec path result k fh k0 fuel : io_fopen io path (str "r") k = (Some fh, k0) →
  zlen (rest fh k0) < Z.of_nat fuel →
  ∃ r new k1, read_lines fuel path result k = Some (r, result ++ new, (io_fclose io fh k1).2) ∧ Forall (λ l, 10 ∉ l) new ∧
  match r with
  | Ok _ => rest fh k0 = concat (with_feed <$> new)
  | Throw e => (e = os_exception EINVAL ∧ ∃ l, l ≠ [] ∧ 10 ∉ l ∧ rest fh k0 = concat (with_feed <$> new) ++ l) ∨
      (∃ errno, e = os_exception errno ∧ errno ≠ 0 ∧ ∃ more, rest fh k0 = concat (with_feed <$> new) ++ more)
  end.
Proof using Hio.
  intros Ho Hf. unfold read_lines, fh_open. rewrite Ho.
  destruct (read_lines_loop_spec fuel fh result k0 Hf) as (r & new & k1 & -> & Hn & Hs). by exists r, new, k1.
Qed.
End FileHandle.

(** ** The clock *)

(** The difference of two readings of the clock; the result is [sec + ns * 1e-9].
    Source: lib/cxxll/os/ticks.cpp 71-78, ticks. *)
Definition ticks_since (base current : Z * Z) : Z * Z :=
  let sec := current.1 - base.1 in
  let ns := current.2 - base.2 in
  if ns <? 0 then (sec - 1, ns + 1000000000) else (sec, ns).
(** [clock_gettime] is [None] with [errno] set when it fails; the clock that is used.
    Source: lib/cxxll/os/ticks.cpp 33-50, timespec_init::timespec_init. *)
Definition timespec_init (clock_gettime : Z → option (Z * Z)) (errno : Z → Z) : res (Z * (Z * Z)) :=
  let CLOCK_MONOTONIC := 1 in let CLOCK_MONOTONIC_RAW := 4 in let ENOSYS := 38 in
  match clock_gettime CLOCK_MONOTONIC_RAW with
  | Some time => Ok (CLOCK_MONOTONIC_RAW, time)
  | None =>
      if errno CLOCK_MONOTONIC_RAW =? ENOSYS then
        match clock_gettime CLOCK_MONOTONIC with
        | Some time => Ok (CLOCK_MONOTONIC, time)
        | None => Throw (os_exception (errno CLOCK_MONOTONIC))
        end
      else Throw (os_exception (errno CLOCK_MONOTONIC_RAW))
  end.
(** The difference in nanoseconds, normalised. *)
Lemma ticks_since_exact base current : 0 <= base.2 < 1000000000 → 0 <= current.2 < 1000000000 →
  let '(sec, ns) := ticks_since base current in
  0 <= ns < 1000000000 ∧ sec * 1000000000 + ns = (current.1 - base.1) * 1000000000 + (current.2 - base.2).
Proof. unfold ticks_since. destruct (Z.ltb_spec (current.2 - base.2) 0); lia. Qed.

(** ** A concrete file *)

(** The state is what is left of the only file, descriptor 1. *)
Fixpoint first_line (s : bytes) : bytes * bytes :=
  match s with
  | [] => ([], [])
  | c :: s => if c =? 10 then ([c], s) else let '(l, r) := first_line s in (c :: l, r)
  end.
Definition text_file (data : bytes) : stdio bytes := {|
  io_errno _ := 2; io_fopen _ _ _ := (Some 1, data); io_fclose _ k := (0, k);
  io_getline _ k := match k with [] => (None, 0, []) | _ => let '(l, r) := first_line k in (Some l, 0, r) end;
  io_ferror _ _ := false
|}.
Lemma first_line_spec s : s ≠ [] → s = (first_line s).1 ++ (first_line s).2 ∧
  ((∃ body, (first_line s).1 = body ++ [10] ∧ 10 ∉ body) ∨ ((first_line s).1 ≠ [] ∧ 10 ∉ (first_line s).1 ∧ (first_line s).2 = [])).
Proof.
  induction s as [|c s IH]; [done|]. intros _. cbn. destruct (Z.eqb_spec c 10) as [->|Hc].
  { split; [done|]. left. exists []. split; [done|apply not_elem_of_nil]. }
  destruct (first_line s) as [l r] eqn:E. cbn [fst snd] in *. destruct s as [|d s].
  { injection E as <- <-. split; [done|]. right. split; [done|]. split; [|done]. rewrite list_elem_of_singleton. congruence. }
  destruct (IH ltac:(done)) as [Hs Hl]. split; [cbn; by rewrite <- Hs|]. destruct Hl as [(body & -> & Hb)|(Hne & Hl & ->)].
  - left. exists (c :: body). split; [done|]. apply not_elem_of_cons. by split; [congruence|].
  - right. split; [done|]. split; [|done]. apply not_elem_of_cons. by split; [congruence|].
Qed.
Lemma text_file_laws data : stdio_laws (text_file data) (λ _ k, k).
Proof.
  split.
  - intros fp k l err k' E. cbn in E. destruct k as [|c k]; [done|]. pose proof (first_line_spec (c :: k) ltac:(done)) as Hs.
    destruct (first_line (c :: k)) as [l' r']. injection E as <- <- <-. exact Hs.
  - intros fp k err k' E. cbn in E. destruct k as [|c k]; [by left|]. by destruct (first_line (c :: k)).
Qed.
Definition sample_text : bytes := str "one" ++ [10; 10] ++ str "three" ++ [10].
Lemma read_lines_spec_witness :
  read_lines (text_file sample_text) 20 (str "f") [] [] = Some (Ok tt, [str "one"; []; str "three"], []) ∧
  read_lines (text_file (sample_text ++ str "4")) 20 (str "f") [] [] =
    Some (Throw (os_exception EINVAL), [str "one"; []; str "three"], []) ∧
  ∃ new, sample_text = concat (with_feed <$> new) ∧ Forall (λ l, 10 ∉ l) new.
Proof.
  split; [vm_compute; reflexivity|]. split; [vm_compute; reflexivity|].
  destruct (read_lines_spec (text_file sample_text) (λ _ k, k) (text_file_laws _) (str "f") [] [] 1 sample_text 20 eq_refl eq_refl)
    as (r & new & k1 & Hr & Hn & Hs).
  assert (r = Ok tt) as -> by (vm_compute in Hr; by injection Hr as <-). by exists new.
Defined.
