(* ===== verification/PythonAnalyzer.v ===== *)
(** * Python programs (lib/cxxll/python_analyzer.cpp)

    The analyzer sends a program to a Python interpreter through a pipe and reads what
    was found in it.  The script the interpreter runs is not C++ code: it is a parameter,
    and so is what comes out of the pipe.  The encoding, the two interpreters with their
    processes, and the choice between their verdicts are the program's.

    [python_protocol] is the round trip of the encoding, for any source and sink that
    keep their contracts; [python_verdict] says whose result is reported. *)

From S2P Require Import Prelude SourceSink Binary Posix FileCache Subprocess.

(** ** The encoding *)

(** Source: lib/cxxll/python_analyzer.cpp 63-70, interpreter::result. *)
Record result := Result {
  error_ : bytes; error_line_ : Z; imports_ : list bytes; attributes_ : list bytes; functions_ : list bytes;
  classes_ : list bytes
}.
Definition result_new : result := Result [] 0 [] [] [] [].

Section Encoding.
Context (host : byte_order).

(** The length is cut to 32 bits.
    Source: lib/cxxll/python_analyzer.cpp 107-118, interpreter::send_string. *)
Definition send_string {T} `{SinkOps T} (s : bytes) : sx T unit := λ sink,
  match sink_write sink (memory_bytes host 4 (cpu_to_be_32 host (u32 (zlen s)))) with
  | (Throw e, sink) => (Throw e, sink)
  | (Ok _, sink) => sink_write sink s
  end.

Section Reading.
Context {S : Type} `{SourceOps S}.

(** Source: lib/cxxll/python_analyzer.cpp 120-129, interpreter::read_number. *)
Definition read_number : sx S Z := λ src,
  let '(buf, src) := read_exactly src 4 in ((λ buf, be_to_cpu_32 host (host_value host buf)) <$> buf, src).

(** Every piece has at least one byte: the size is enough fuel.
    Source: lib/cxxll/python_analyzer.cpp 137-142, interpreter::read_string. *)
Fixpoint read_string_loop (fuel : nat) (size : Z) (result : bytes) : sx S bytes :=
  if 0 <? size then
    match fuel with
    | O => mret result
    | Datatypes.S fuel =>
        let to_read := Z.min 4096 size in
        buf ← (λ src, read_exactly src to_read) : sx S bytes;
        read_string_loop fuel (size - to_read) (result ++ buf)
    end
  else mret result.
(** Source: lib/cxxll/python_analyzer.cpp 131-144, interpreter::read_string. *)
Definition read_string : sx S bytes := size ← read_number; read_string_loop (Z.to_nat size) size [].

(** The vector keeps what has been read when an element cannot be.
    Source: lib/cxxll/python_analyzer.cpp 150-152, interpreter::read_array. *)
Fixpoint read_array_loop (count : nat) (res : list bytes) : sx S (list bytes) :=
  match count with
  | O => mret res
  | Datatypes.S count => s ← read_string; read_array_loop count (res ++ [s])
  end.
(** Source: lib/cxxll/python_analyzer.cpp 146-153, interpreter::read_array. *)
Definition read_array : sx S (list bytes) := count ← read_number; read_array_loop (Z.to_nat count) [].

(** The answer; an exception leaves the object of the last answer in part, which is not
    looked at again.
    Source: lib/cxxll/python_analyzer.cpp 98-103, interpreter::parse. *)
Definition read_result : sx S result :=
  error ← read_string;
  line ← read_number;
  imports ← read_array;
  attributes ← read_array;
  functions ← read_array;
  classes ← read_array;
  mret (Result error line imports attributes functions classes).
End Reading.
End Encoding.

(** ** Interpreters *)

(** Source: lib/cxxll/python_analyzer.cpp 61-71, interpreter. *)
Record interpreter := Interpreter { process_ : subprocess; result_ : result; version_ : Z }.

(** [active_] is a pointer to one of the interpreters.
    Source: lib/cxxll/python_analyzer.cpp 156-165, python_analyzer::impl. *)
Inductive which := Python2 | Python3.
#[global] Instance which_eq_dec : EqDecision which.
Proof. solve_decision. Defined.
Record python_analyzer := PythonAnalyzer {
  python2_ : option interpreter; python3_ : option interpreter; active_ : option which
}.
(** Source: lib/cxxll/python_analyzer.cpp 167-170, python_analyzer::impl::impl. *)
Definition python_analyzer_new : python_analyzer := PythonAnalyzer None None None.

Section Analyzer.
Context (host : byte_order) {K : Type} (os : posix K) (pr : processes K) (PYTHON_SCRIPT : bytes).
Definition py (A : Type) : Type := sx (python_analyzer * K) A.

(** A constructor that fails destroys the process object.
    Source: lib/cxxll/python_analyzer.cpp 81-91, interpreter::interpreter. *)
Definition interpreter_new (python_path : bytes) (version : Z) : sx K interpreter := λ k,
  match
    (command python_path;; arg (str "-c");; arg PYTHON_SCRIPT;;
     redirect os std_in pipe;; redirect os std_out pipe;; start os pr) (subprocess_new, k)
  with
  | (Throw e, x) => (Throw e, destroy os pr x)
  | (Ok _, (process, k)) => (Ok (Interpreter process result_new version), k)
  end.

(** Source: lib/cxxll/python_analyzer.cpp 93-105, interpreter::parse. *)
Definition interpreter_parse (source : bytes) : sx (interpreter * K) bool := λ '(it, k),
  match pipefd (K := K) std_in (process_ it, k), pipefd (K := K) std_out (process_ it, k) with
  | (Ok in_, _), (Ok out, _) =>
      match @send_string host K (λ k buf, fd_sink_write (posix_kernel os) in_ k buf) source k with
      | (Throw e, k) => (Throw e, (it, k))
      | (Ok _, k) =>
          match @read_result host K (λ k len, fd_source_read (posix_kernel os) out k len) k with
          | (Throw e, k) => (Throw e, (it, k))
          | (Ok r, k) => (Ok (error_line_ r =? 0), (Interpreter (process_ it) r (version_ it), k))
          end
      end
  | (Throw e, _), _ => (Throw e, (it, k))
  | _, (Throw e, _) => (Throw e, (it, k))
  end.

Definition get_interpreter (w : which) (a : python_analyzer) : option interpreter :=
  match w with Python2 => python2_ a | Python3 => python3_ a end.
Definition set_interpreter (w : which) (it : interpreter) (a : python_analyzer) : python_analyzer :=
  match w with
  | Python2 => PythonAnalyzer (Some it) (python3_ a) (active_ a)
  | Python3 => PythonAnalyzer (python2_ a) (Some it) (active_ a)
  end.
Definition set_active (w : option which) : py unit := sx_modify (λ x, (PythonAnalyzer (python2_ x.1) (python3_ x.1) w, x.2)).

(** The old object is destroyed once the new one is there.
    Source: lib/cxxll/python_analyzer.cpp 172-179, python_analyzer::impl::maybe_start. *)
Definition maybe_start (w : which) (path : bytes) (version : Z) : py unit := λ '(a, k),
  let old := get_interpreter w a in
  if match old with Some it => 0 <? sp_pid (process_ it) | None => false end then (Ok tt, (a, k))
  else
    match interpreter_new path version k with
    | (Throw e, k) => (Throw e, (a, k))
    | (Ok it, k) =>
        (Ok tt, (set_interpreter w it a,
                 match old with Some o => destroy os pr (process_ o, k) | None => k end))
    end.

(** The functions and classes of the last answer stay.
    Source: lib/cxxll/python_analyzer.cpp 181-195, python_analyzer::impl::bad_string. *)
Definition bad_string (source : bytes) : py bool := λ '(a, k),
  if bool_decide (0 ∈ source) then
    match python2_ a with
    | None => (Throw fatal_signal, (a, k))
    | Some it =>
        let line := 1 + zlen (List.filter (λ c, c =? 10) (until_nul source)) in
        let r := Result (str "source code contains NUL character") (u32 line) [] []
                   (functions_ (result_ it)) (classes_ (result_ it)) in
        (Ok true, (PythonAnalyzer (Some (Interpreter (process_ it) r (version_ it))) (python3_ a) (Some Python2), k))
    end
  else (Ok false, (a, k)).

(** [pythonN_->parse (source)].
    Source: lib/cxxll/python_analyzer.cpp 214-222, python_analyzer::parse. *)
Definition parse_with (w : which) (source : bytes) : py bool := λ '(a, k),
  match get_interpreter w a with
  | None => (Throw fatal_signal, (a, k))
  | Some it => let '(r, (it, k)) := interpreter_parse source (it, k) in (r, (set_interpreter w it a, k))
  end.
Definition line_of (w : which) (a : python_analyzer) : Z :=
  match get_interpreter w a with Some it => error_line_ (result_ it) | None => 0 end.

(** Source: lib/cxxll/python_analyzer.cpp 206-231, python_analyzer::parse. *)
Definition parse (source : bytes) : py bool :=
  set_active None;;
  maybe_start Python2 (str "/usr/bin/python") 2;;
  bad ← bad_string source;
  if bad : bool then mret false
  else
    ok ← parse_with Python2 source;
    if ok : bool then set_active (Some Python2);; mret true
    else
      maybe_start Python3 (str "/usr/bin/python3") 3;;
      ok ← parse_with Python3 source;
      if ok : bool then set_active (Some Python3);; mret true
      else
        x ← sx_get;
        set_active (Some (if line_of Python2 x.1 <? line_of Python3 x.1 then Python3 else Python2));;
        mret false.

(** The objects go with the analyzer.
    Source: lib/cxxll/python_analyzer.cpp 202-204, python_analyzer::~python_analyzer. *)
Definition python_analyzer_destroy (x : python_analyzer * K) : K :=
  let drop it k := match it with Some it => destroy os pr (process_ it, k) | None => k end in
  drop (python2_ x.1) (drop (python3_ x.1) x.2).
End Analyzer.

(** ** Accessors *)

(** The interpreter [active_] points to. *)
Definition active (a : python_analyzer) : option interpreter := w ← active_ a; get_interpreter w a.
Definition of_active {A} (f : result → A) (d : A) (a : python_analyzer) : A :=
  match active a with Some it => f (result_ it) | None => d end.

(** Source: lib/cxxll/python_analyzer.cpp 233-237, python_analyzer::good. *)
Definition good (a : python_analyzer) : bool := match active a with Some it => error_line_ (result_ it) =? 0 | None => false end.
(** Source: lib/cxxll/python_analyzer.cpp 239-246, python_analyzer::version. *)
Definition version (a : python_analyzer) : Z := match active a with Some it => version_ it | None => 0 end.
(** Source: lib/cxxll/python_analyzer.cpp 248-256, python_analyzer::imports. *)
Definition imports : python_analyzer → list bytes := of_active imports_ [].
(** Source: lib/cxxll/python_analyzer.cpp 258-266, python_analyzer::attributes. *)
Definition attributes : python_analyzer → list bytes := of_active attributes_ [].
(** Source: lib/cxxll/python_analyzer.cpp 268-276, python_analyzer::functions. *)
Definition functions : python_analyzer → list bytes := of_active functions_ [].
(** Source: lib/cxxll/python_analyzer.cpp 278-286, python_analyzer::classes. *)
Definition classes : python_analyzer → list bytes := of_active classes_ [].
(** Source: lib/cxxll/python_analyzer.cpp 288-296, python_analyzer::error_message. *)
Definition error_message : python_analyzer → bytes := of_active error_ [].
(** Source: lib/cxxll/python_analyzer.cpp 298-305, python_analyzer::error_line. *)
Definition error_line : python_analyzer → Z := of_active error_line_ 0.

(** ** The encoding, as the comment in the source describes it *)

Definition enc_number (n : Z) : bytes := be_bytes 4 n.
Definition enc_string (s : bytes) : bytes := enc_number (zlen s) ++ s.
Definition enc_array (l : list bytes) : bytes := enc_number (zlen l) ++ concat (enc_string <$> l).
Definition enc_result (r : result) : bytes :=
  enc_string (error_ r) ++ enc_number (error_line_ r) ++ enc_array (imports_ r) ++ enc_array (attributes_ r)
    ++ enc_array (functions_ r) ++ enc_array (classes_ r).
Definition short {A} (l : list A) : Prop := zlen l < 2 ^ 32.
Record result_ok (r : result) : Prop := {
  ok_error : short (error_ r); ok_line : 0 <= error_line_ r < 2 ^ 32;
  ok_arrays : Forall (λ l : list bytes, short l ∧ Forall short l) [imports_ r; attributes_ r; functions_ r; classes_ r]
}.

Section Protocol.
Context (host : byte_order) {S : Type} `{Source S}.

Lemma cpu_to_be_32_bound v : 0 <= v < 2 ^ 32 → 0 <= cpu_to_be_32 host v < 2 ^ 32.
Proof.
  intros Hv. unfold cpu_to_be_32. destruct host; simpl; [|lia]. rewrite bswap32_value by done.
  destruct (swap_bytes 4 v Hv) as (_ & Hb & _). exact Hb.
Qed.

(** [m] reads the encoding [e] of [a] from whatever source has it next. *)
Definition reads {A} (m : sx S A) (e : bytes) (a : A) : Prop := ∀ src rest, source_inv src → remaining src = e ++ rest →
  ∃ src', m src = (Ok a, src') ∧ remaining src' = rest ∧ source_inv src'.
Lemma reads_bind {A B} (m : sx S A) (f : A → sx S B) e e' a b : reads m e a → reads (f a) e' b → reads (m ≫= f) (e ++ e') b.
Proof.
  intros Hm Hf src rest Hi Hr. rewrite <- app_assoc in Hr. destruct (Hm src _ Hi Hr) as (src1 & E & Hr1 & Hi1).
  rewrite (sx_bind_run _ _ _ _ _ E). by apply Hf.
Qed.
Lemma reads_ret {A} (a : A) : reads (mret a) [] a.
Proof. intros src rest Hi Hr. by exists src. Qed.
Lemma reads_bind_ret {A B} (m : sx S A) (f : A → sx S B) e a b : reads m e a → reads (f a) [] b → reads (m ≫= f) e b.
Proof. intros Hm Hf. rewrite <- (app_nil_r e). by eapply reads_bind. Qed.

Lemma reads_exactly p : reads (λ src, read_exactly src (zlen p)) p p.
Proof. intros src rest Hi Hr. by apply read_exactly_next. Qed.
Lemma reads_number n : 0 <= n < 2 ^ 32 → reads (read_number host) (enc_number n) n.
Proof.
  intros Hn src rest Hi Hr. unfold read_number.
  destruct (reads_exactly (enc_number n) src rest Hi Hr) as (src' & E & Hr' & Hi').
  change (zlen (enc_number n)) with 4 in E. rewrite E. exists src'. split_and!; [|done..].
  destruct (byte_order_wire host n 0 Hn ltac:(lia)) as (Hbe & _ & _ & _ & Hback & _).
  unfold enc_number. rewrite <- Hbe. cbn [fmap res_fmap]. f_equal. f_equal.
  rewrite host_value_memory; [done|]. by apply cpu_to_be_32_bound.
Qed.
Lemma reads_string_loop fuel : ∀ s acc, zlen s <= Z.of_nat fuel → reads (read_string_loop fuel (zlen s) acc) s (acc ++ s).
Proof.
  induction fuel as [|fuel IH]; intros s acc Hf; destruct (decide (s = [])) as [->|Hs].
  - rewrite app_nil_r. apply reads_ret.
  - destruct s; [done|]. unfold zlen in Hf. simpl in Hf. lia.
  - rewrite app_nil_r. apply reads_ret.
  - assert (0 < zlen s) by (destruct s; [done|rewrite zlen_cons; pose proof (zlen_nonneg s); lia]).
    cbn [read_string_loop]. rewrite (proj2 (Z.ltb_lt _ _)) by done. set (n := Z.min 4096 (zlen s)).
    assert (Hn : zlen (ztake n s) = n) by (apply zlen_ztake_le; lia).
    cut (reads (buf ← (λ src, read_exactly src n) : sx S bytes; read_string_loop fuel (zlen s - n) (acc ++ buf))
           (ztake n s ++ zdrop n s) ((acc ++ ztake n s) ++ zdrop n s)).
    { by rewrite <- app_assoc, ztake_zdrop_id. }
    eapply reads_bind.
    + pose proof (reads_exactly (ztake n s)) as Hx. rewrite Hn in Hx. exact Hx.
    + replace (zlen s - n) with (zlen (zdrop n s)) by (rewrite zlen_zdrop_le; lia).
      apply IH. rewrite zlen_zdrop_le; lia.
Qed.
Lemma reads_string s : short s → reads (read_string host) (enc_string s) s.
Proof.
  intros Hs. eapply reads_bind; [apply reads_number; unfold short in Hs; pose proof (zlen_nonneg s); lia|].
  apply (reads_string_loop _ s []). pose proof (zlen_nonneg s). lia.
Qed.
Lemma reads_array_loop l : ∀ acc, Forall short l → reads (read_array_loop host (length l) acc) (concat (enc_string <$> l)) (acc ++ l).
Proof.
  induction l as [|s l IH]; intros acc Hl; cbn [length read_array_loop fmap list_fmap concat].
  - rewrite app_nil_r. apply reads_ret.
  - apply Forall_cons in Hl as [Hs Hl]. eapply reads_bind; [by apply reads_string|].
    replace (acc ++ s :: l) with ((acc ++ [s]) ++ l) by (by rewrite <- app_assoc). by apply IH.
Qed.
Lemma reads_array l : short l ∧ Forall short l → reads (read_array host) (enc_array l) l.
Proof.
  intros [Hs Hl]. eapply reads_bind; [apply reads_number; unfold short in Hs; pose proof (zlen_nonneg l); lia|].
  rewrite to_nat_zlen. by apply (reads_array_loop l []).
Qed.
Lemma reads_result r : result_ok r → reads (read_result host) (enc_result r) r.
Proof.
  intros [He Hl Ha]. rewrite !Forall_cons in Ha. destruct Ha as (H1 & H2 & H3 & H4 & _). unfold read_result, enc_result.
  eapply reads_bind; [by apply reads_string|]. eapply reads_bind; [by apply reads_number|].
  do 3 (eapply reads_bind; [by apply reads_array|]). eapply reads_bind_ret; [by apply reads_array|].
  destruct r. apply reads_ret.
Qed.
End Protocol.

(** C7: The protocol between the analyzer and the interpreter, on any host: a program of
    less than 2^32 octets goes out as its length, most significant octet first, and its
    text, and an interpreter that writes the encoding of an answer (in whatever pieces
    they arrive) is understood: exactly its error, line, imports, attributes, functions
    and classes are read, and nothing behind them. *)
Theorem python_protocol (host : byte_order) {S T : Type} `{Source S} `{Sink T} :
  (∀ (sink : T) s, short s → ∃ sink', send_string host s sink = (Ok tt, sink') ∧
    received sink' = received sink ++ enc_string s) ∧
  (∀ (src : S) r rest, source_inv src → result_ok r → remaining src = enc_result r ++ rest →
    ∃ src', read_result host src = (Ok r, src') ∧ remaining src' = rest).
Proof.
  split.
  - intros sink s Hs. unfold short in Hs. pose proof (zlen_nonneg s). unfold send_string.
    replace (u32 (zlen s)) with (zlen s) by (unfold u32; rewrite Z.mod_small; lia).
    rewrite (proj1 (byte_order_wire host (zlen s) 0 ltac:(lia) ltac:(lia))).
    destruct (sink_write_spec sink (be_bytes 4 (zlen s))) as (sink1 & -> & Hr1).
    destruct (sink_write_spec sink1 s) as (sink2 & -> & Hr2). exists sink2. split; [done|].
    by rewrite Hr2, Hr1, <- app_assoc.
  - intros src r rest Hi Hok Hr. destruct (reads_result host r Hok src rest Hi Hr) as (src' & ? & ? & _). by exists src'.
Qed.

Definition sample_result : result := Result [] 0 [str "os"; str "sys.path"] [] [str "main"] [].
Lemma python_protocol_witness :
  (∃ sink, send_string ORDER_LITTLE_ENDIAN (str "import os") (StringSink []) = (Ok tt, sink) ∧
    string_sink_data sink = [0; 0; 0; 9] ++ str "import os") ∧
  ∃ src, read_result ORDER_LITTLE_ENDIAN (string_source_new (enc_result sample_result ++ [7])) = (Ok sample_result, src) ∧
    zdrop (ss_position src) (ss_source src) = [7].
Proof.
  destruct (@python_protocol ORDER_LITTLE_ENDIAN string_source string_sink _ _ _ _) as [Hs Hr]. split.
  - exact (Hs (StringSink []) (str "import os") eq_refl).
  - apply (Hr (string_source_new (enc_result sample_result ++ [7])) sample_result [7]); [done| |reflexivity].
    split; [done|done|]. repeat constructor.
Defined.

(** ** The verdict *)

(** The functions and classes of a program with a NUL character are those of the last
    program: [bad_string] does not clear them. *)
Example stale_functions :
  let it := Interpreter subprocess_new sample_result 2 in
  let '(r, (a, _)) := bad_string (K := unit) (str "x" ++ [0]) (PythonAnalyzer (Some it) None None, tt) in
  r = Ok true ∧ good a = false ∧ imports a = [] ∧ functions a = [str "main"].
Proof. vm_compute. done. Qed.

Section Verdict.
Context (host : byte_order) {K : Type} (os : posix K) (pr : processes K) (PYTHON_SCRIPT : bytes).

Lemma parse_with_Ok w source a k b a' k' : parse_with host os w source (a, k) = (Ok b, (a', k')) →
  b = (line_of w a' =? 0) ∧ active_ a' = active_ a ∧ is_Some (get_interpreter w a') ∧
  ∀ w', w' ≠ w → get_interpreter w' a' = get_interpreter w' a.
Proof.
  unfold parse_with. destruct (get_interpreter w a) as [it|] eqn:Hg; [|done].
  destruct (interpreter_parse host os source (it, k)) as [r [it' k1]] eqn:Hp. intros [= -> <- <-].
  assert (Hb : b = (error_line_ (result_ it') =? 0)).
  { unfold interpreter_parse in Hp. destruct (pipefd (K := K) std_in _) as [[in_|e] ?]; [|done].
    destruct (pipefd (K := K) std_out _) as [[out|e] ?]; [|done].
    destruct (send_string host source k) as [[[]|e] k2]; [|done].
    destruct (read_result host k2) as [[x|e] k3]; [|done]. by injection Hp as <- <- <-. }
  destruct w; cbn; (split_and!; [done|done|by eexists|]); intros [] ?; done.
Qed.
Lemma maybe_start_Ok w path v a k u a' k' : maybe_start os pr PYTHON_SCRIPT w path v (a, k) = (Ok u, (a', k')) →
  active_ a' = active_ a ∧ ∀ w', w' ≠ w → get_interpreter w' a' = get_interpreter w' a.
Proof.
  unfold maybe_start. destruct (match get_interpreter w a with Some _ => _ | None => _ end); [by intros [= _ <- _]|].
  destruct (interpreter_new os pr PYTHON_SCRIPT path v k) as [[it|e] k1]; [|done]. intros [= _ <- _].
  by destruct w; (split; [done|]); intros [] ?.
Qed.

(** Whatever the analyzer was used for before: when [parse] returns, the object is
    [good] exactly if it returned true; and when it returned false, either the program
    has a NUL character, whose line is reported, or both interpreters rejected it and
    the error reported is the one that comes later in the program. *)
Theorem python_verdict source a k b a' k' : zlen source < 2 ^ 32 - 1 →
  parse host os pr PYTHON_SCRIPT source (a, k) = (Ok b, (a', k')) →
  good a' = b ∧
  (b = false → 0 ∈ source ∧ error_line a' = 1 + zlen (List.filter (λ c, c =? 10) (until_nul source)) ∨
    error_line a' = Z.max (line_of Python2 a') (line_of Python3 a') ∧ 0 ≠ line_of Python2 a' ∧ 0 ≠ line_of Python3 a').
Proof.
  intros Hlen Hp. unfold parse, mbind, sx_bind in Hp. cbn [set_active sx_modify fst snd] in Hp.
  change (set_active None (a, k)) with (@Ok unit tt, (PythonAnalyzer (python2_ a) (python3_ a) None, k)) in Hp. cbv iota beta in Hp.
  destruct (maybe_start _ _ _ Python2 _ _ _) as [[u|e] [a1 k1]]; [|done]. clear u.
  unfold bad_string at 1 in Hp. case_bool_decide as Hnul.
  { destruct (python2_ a1) as [it|]; [|done]. injection Hp as <- <- <-.
    set (l := List.filter _ _). assert (Hl : 0 <= zlen l < zlen source + 1).
    { pose proof (zlen_nonneg l). split; [done|]. unfold l, zlen.
      pose proof (filter_length_le (λ c, c =? 10) (until_nul source)).
      assert (length (until_nul source) <= length source)%nat.
      { clear. induction source as [|c s IH]; simpl; [lia|]. case_if; simpl; lia. }
      lia. }
    assert (Hu : u32 (1 + zlen l) = 1 + zlen l) by (unfold u32; rewrite Z.mod_small; lia).
    unfold good, error_line, of_active, active. cbn. rewrite Hu. split; [apply Z.eqb_neq; lia|]. intros _. by left. }
  destruct (parse_with host os Python2 source (a1, k1)) as [[b2|e] [a2 k2]] eqn:E2; [|done].
  apply parse_with_Ok in E2 as (Hb2 & _ & [it2 Hi2] & _). destruct b2.
  { cbn in Hp. injection Hp as <- <- <-. unfold good, active. cbn. unfold line_of in Hb2. rewrite Hi2 in Hb2.
    cbn in Hi2. rewrite Hi2. by rewrite <- Hb2; split. }
  destruct (maybe_start _ _ _ Python3 _ _ (a2, k2)) as [[u|e] [a3 k3]] eqn:E3; [|done].
  apply maybe_start_Ok in E3 as [_ Hkeep]. specialize (Hkeep Python2 ltac:(done)).
  destruct (parse_with host os Python3 source (a3, k3)) as [[b3|e] [a4 k4]] eqn:E4; [|done].
  apply parse_with_Ok in E4 as (Hb3 & _ & [it3 Hi3] & Hkeep'). specialize (Hkeep' Python2 ltac:(done)).
  assert (H24 : get_interpreter Python2 a4 = Some it2) by congruence.
  unfold line_of in Hb2, Hb3. rewrite Hi2 in Hb2. rewrite Hi3 in Hb3.
  destruct b3.
  { cbn in Hp. injection Hp as <- <- <-. unfold good, active. cbn. cbn in Hi3. rewrite Hi3. by rewrite <- Hb3; split. }
  cbn in Hp. injection Hp as <- <- <-. unfold good, error_line, of_active, active, line_of. cbn in *. rewrite H24, Hi3.
  symmetry in Hb2, Hb3. zbool. destruct (Z.ltb_spec (error_line_ (result_ it2)) (error_line_ (result_ it3))); cbn; rewrite ?H24, ?Hi3.
  - split; [by apply Z.eqb_neq|]. intros _. right. lia.
  - split; [by apply Z.eqb_neq|]. intros _. right. lia.
Qed.
End Verdict.

Lemma python_verdict_witness :
  let x := (parse ORDER_LITTLE_ENDIAN nursery_kernel nursery_processes [] (str "a" ++ [10; 0]) (python_analyzer_new, ∅)).2 in
  good x.1 = false ∧ error_line x.1 = 2.
Proof.
  intros x.
  assert (Hp : parse ORDER_LITTLE_ENDIAN nursery_kernel nursery_processes [] (str "a" ++ [10; 0]) (python_analyzer_new, ∅)
    = (Ok false, (x.1, x.2))) by (vm_compute; reflexivity).
  destruct (python_verdict ORDER_LITTLE_ENDIAN nursery_kernel nursery_processes [] (str "a" ++ [10; 0])
    python_analyzer_new ∅ false x.1 x.2 eq_refl Hp) as [Hg Hb]. split; [exact Hg|].
  destruct (Hb eq_refl) as [[_ He]|(_ & _ & He)]; [exact He|]. exfalso. apply He. vm_compute. reflexivity.
Defined.
