(* ===== verification/PgSplit.v ===== *)
(** * Splitting SQL scripts and encoding arrays (lib/cxxll/pg_split_statement.cpp,
    lib/cxxll/pg_encode_array.cpp)

    [pg_split_statement] works on string references and is modelled on them; a
    second definition on the remaining text is equal to it and carries the
    proofs. *)

From S2P Require Import Prelude StringRef.

(** ** The implementation *)

(** The local variables [sql], [last] and [in_statement], and [result]. *)
Record split_state := SplitState {
  sp_sql : stringref; sp_last : stringref; sp_in_statement : bool; sp_result : list bytes
}.

Definition sp_raise {A} (what : bytes) : res A := Throw (runtime_error what).

(** Source: lib/cxxll/pg_split_statement.cpp 52-60, pg_split_statement. *)
Fixpoint quote_loop (fuel : nat) (sql : stringref) : res stringref :=
  if sr_is_empty sql then Ok sql
  else
    match fuel with
    | O => Ok sql
    | S fuel =>
        c ← sr_at sql 0;
        if c =? 39 then
          sql ← sr_incr sql;
          if sr_is_empty sql then Ok sql
          else
            c ← sr_at sql 0;
            if negb (c =? 39) then Ok sql
            else sql ← sr_incr sql; quote_loop fuel sql
        else sql ← sr_incr sql; quote_loop fuel sql
    end.

(** Source: lib/cxxll/pg_split_statement.cpp 72-82, pg_split_statement. *)
Fixpoint dollar_loop (fuel : nat) (sql : stringref) : res stringref :=
  if sr_is_empty sql then Ok sql
  else
    match fuel with
    | O => Ok sql
    | S fuel =>
        c ← sr_at sql 0;
        if c =? 36 then
          sql ← sr_incr sql;
          if sr_is_empty sql then dollar_loop fuel sql
          else
            c ← sr_at sql 0;
            if c =? 36 then sr_incr sql else dollar_loop fuel sql
        else sql ← sr_incr sql; dollar_loop fuel sql
    end.

(** Is the next character there, and is it [c]? *)
Definition next_is (sql : stringref) (c : Z) : res bool :=
  if sr_is_empty sql then Ok false else x ← sr_at sql 0; Ok (x =? c).

(** [pop_back] of an empty statement text.
    Source: lib/cxxll/pg_split_statement.cpp 92-95, pg_split_statement. *)
Definition push_statement (result : list bytes) (text : bytes) : list bytes :=
  match text with [] => result | _ => result ++ [text] end.

(** One round of the loop; [None] is [return].  The comparison with a blank is
    on the signed character.
    Source: lib/cxxll/pg_split_statement.cpp 32-104, pg_split_statement. *)
Definition split_step (fuel : nat) (s : split_state) : res (option split_state) :=
  let '(SplitState sql last in_statement result) := s in
  ch ← sr_at sql 0;
  sql ← sr_incr sql;
  if ch =? 45 then
    comment ← next_is sql 45;
    if (comment : bool) then
      rest ← sr_plus sql 1;
      let sql := sr_chr rest 10 in
      if sr_is_empty sql then Ok None
      else
        sql ← sr_incr sql;
        Ok (Some (SplitState sql (if in_statement then last else sql) in_statement result))
    else Ok (Some (SplitState sql last in_statement result))
  else if ch =? 39 then
    if negb in_statement then sp_raise (str "string at start of SQL statement")
    else
      sql ← quote_loop fuel sql;
      if sr_is_empty sql then sp_raise (str "unterminated string in SQL statement")
      else Ok (Some (SplitState sql last in_statement result))
  else if ch =? 36 then
    if negb in_statement then sp_raise (str "$ at start of SQL statement")
    else
      dollar ← next_is sql 36;
      if (dollar : bool) then
        sql ← sr_incr sql;
        sql ← dollar_loop fuel sql;
        if sr_is_empty sql then sp_raise (str "unterminated $$ string in SQL statement")
        else Ok (Some (SplitState sql last in_statement result))
      else Ok (Some (SplitState sql last in_statement result))
  else if ch =? 59 then
    if negb in_statement then sp_raise (str "empty SQL statement")
    else
      text ← sr_upto last sql;
      Ok (Some (SplitState sql sql false (push_statement result (sr_str text))))
  else
    let in_statement := in_statement || (32 <? schar ch) in
    Ok (Some (SplitState sql (if in_statement then last else sql) in_statement result)).

(** The loop and the final check; [result] is an output parameter, so it is also
    what the caller sees after an exception.  The length of the text is enough
    fuel for this loop and the inner ones.
    Source: lib/cxxll/pg_split_statement.cpp 31-108, pg_split_statement. *)
Fixpoint split_loop (fuel : nat) (s : split_state) : res unit * list bytes :=
  if sr_is_empty (sp_sql s) then
    if negb (sr_is_empty (sp_last s)) then
      (sp_raise (str "unterminated final SQL statement"), sp_result s)
    else (Ok tt, sp_result s)
  else
    match fuel with
    | O => (Ok tt, sp_result s)
    | S fuel' =>
        match split_step fuel s with
        | Throw e => (Throw e, sp_result s)
        | Ok None => (Ok tt, sp_result s)
        | Ok (Some s) => split_loop fuel' s
        end
    end.

(** [sqlptr] is a C string; [mem] is the memory it points to.
    Source: lib/cxxll/pg_split_statement.cpp 25-109, pg_split_statement. *)
Definition pg_split_statement (mem : bytes) (result : list bytes) : res unit * list bytes :=
  let sql := sr_of_cstr mem in
  split_loop (Z.to_nat (sr_size sql)) (SplitState sql sql false result).

(** Source: lib/cxxll/pg_encode_array.cpp 32-45, pg_encode_array. *)
Fixpoint encode_element (q : bytes) : res bytes :=
  match q with
  | [] => Ok []
  | ch :: q =>
      if ch =? 0 then Throw (pg_exception (str "NUL character in pg_encode_array"))
      else
        rest ← encode_element q;
        Ok ((if (ch =? 34) || (ch =? 92) then [92; ch] else [ch]) ++ rest)
  end.

(** Source: lib/cxxll/pg_encode_array.cpp 26-47, pg_encode_array. *)
Fixpoint encode_elements (result : bytes) (p : list bytes) : res bytes :=
  match p with
  | [] => Ok result
  | e :: p =>
      let result := if 1 <? zlen result then result ++ [44] else result in
      body ← encode_element e;
      encode_elements (result ++ [34] ++ body ++ [34]) p
  end.

(** Source: lib/cxxll/pg_encode_array.cpp 22-50, pg_encode_array. *)
Definition pg_encode_array (in_ : list bytes) : res bytes :=
  result ← encode_elements [123] in_;
  Ok (result ++ [125]).

(** ** The same on the text that is left *)

Fixpoint t_quote (t : bytes) : bytes :=
  match t with
  | [] => []
  | c :: t' =>
      if c =? 39 then
        match t' with
        | [] => []
        | d :: t'' => if d =? 39 then t_quote t'' else t'
        end
      else t_quote t'
  end.
Fixpoint t_dollar (t : bytes) : bytes :=
  match t with
  | [] => []
  | c :: t' =>
      if c =? 36 then
        match t' with
        | [] => []
        | d :: t'' => if d =? 36 then t'' else t_dollar t'
        end
      else t_dollar t'
  end.
Fixpoint t_after_newline (t : bytes) : option bytes :=
  match t with
  | [] => None
  | c :: t => if c =? 10 then Some t else t_after_newline t
  end.

(** One round on the text: the rest, or [None] to return. *)
Definition t_step (t last : bytes) (ins : bool) (result : list bytes)
    : res (option (bytes * bytes * bool * list bytes)) :=
  match t with
  | [] => Ok None
  | ch :: t =>
      if ch =? 45 then
        match t with
        | d :: u =>
            if d =? 45 then
              match t_after_newline u with
              | None => Ok None
              | Some v => Ok (Some (v, if ins then last else v, ins, result))
              end
            else Ok (Some (t, last, ins, result))
        | [] => Ok (Some (t, last, ins, result))
        end
      else if ch =? 39 then
        if negb ins then sp_raise (str "string at start of SQL statement")
        else match t_quote t with
             | [] => sp_raise (str "unterminated string in SQL statement")
             | u => Ok (Some (u, last, ins, result))
             end
      else if ch =? 36 then
        if negb ins then sp_raise (str "$ at start of SQL statement")
        else match t with
             | d :: u =>
                 if d =? 36 then
                   match t_dollar u with
                   | [] => sp_raise (str "unterminated $$ string in SQL statement")
                   | v => Ok (Some (v, last, ins, result))
                   end
                 else Ok (Some (t, last, ins, result))
             | [] => Ok (Some (t, last, ins, result))
             end
      else if ch =? 59 then
        if negb ins then sp_raise (str "empty SQL statement")
        else Ok (Some (t, t, false, push_statement result (ztake (zlen last - zlen t) last)))
      else
        let ins := ins || (32 <? schar ch) in
        Ok (Some (t, if ins then last else t, ins, result))
  end.
Fixpoint t_loop (fuel : nat) (t last : bytes) (ins : bool) (result : list bytes) : res unit * list bytes :=
  match t, fuel with
  | [], _ => (match last with [] => Ok tt | _ => sp_raise (str "unterminated final SQL statement") end, result)
  | _, O => (Ok tt, result)
  | _, S fuel =>
      match t_step t last ins result with
      | Throw e => (Throw e, result)
      | Ok None => (Ok tt, result)
      | Ok (Some (t, last, ins, result)) => t_loop fuel t last ins result
      end
  end.

(** ** The two agree *)

Lemma until_nul_prefix mem : ∃ z, mem = until_nul mem ++ z.
Proof.
  induction mem as [|c m [z IH]]; simpl; [by exists []|]. destruct (c =? 0); [by eexists|].
  exists z. simpl. by rewrite <- IH.
Qed.

Section refs.
Context (mem : bytes).
Let txt := until_nul mem.
Context (Hmax : zlen txt <= SIZE_MAX).

(** The reference to the suffix [u] of the text. *)
Definition ref (u : bytes) : stringref := StringRef mem (zlen txt - zlen u) (zlen u).
Definition suffix_of (u : bytes) : Prop := ∃ p, txt = p ++ u.

Lemma suffix_cons c u : suffix_of (c :: u) → suffix_of u.
Proof. intros [p Hp]. exists (p ++ [c]). by rewrite <- app_assoc. Qed.
Lemma suffix_app v u : suffix_of (v ++ u) → suffix_of u.
Proof. intros [p Hp]. exists (p ++ v). by rewrite <- app_assoc. Qed.
Lemma suffix_len u : suffix_of u → 0 <= zlen u <= zlen txt.
Proof. intros [p ->]. rewrite zlen_app. pose proof (zlen_nonneg p). pose proof (zlen_nonneg u). lia. Qed.
Lemma ref_empty u : sr_is_empty (ref u) = match u with [] => true | _ => false end.
Proof. destruct u; [done|]. unfold sr_is_empty, ref. cbn [sr_size]. rewrite zlen_cons. pose proof (zlen_nonneg u). lia. Qed.
Lemma ref_str u : suffix_of u → sr_str (ref u) = u.
Proof.
  intros [p Hp]. destruct (until_nul_prefix mem) as [z Hz]. unfold sr_str, ref. cbn [sr_size sr_start sr_obj].
  fold txt in Hz. rewrite Hz, Hp, zlen_app, <- app_assoc.
  replace (zlen p + zlen u - zlen u) with (zlen p) by lia. by rewrite zdrop_app, ztake_app.
Qed.
Lemma ref_at c u : suffix_of (c :: u) → sr_at (ref (c :: u)) 0 = Ok c.
Proof.
  intros [p Hp]. destruct (until_nul_prefix mem) as [z Hz]. fold txt in Hz.
  unfold sr_at, sr_check_index, ref. cbn [sr_size sr_start sr_obj]. rewrite zlen_cons.
  pose proof (zlen_nonneg u). destruct (Z.leb_spec (1 + zlen u) 0); [lia|]. cbn [mbind res_bind].
  rewrite Hz, Hp, zlen_app, <- app_assoc, zlen_cons. cbn [app].
  replace (zlen p + (1 + zlen u) - (1 + zlen u) + 0) with (zlen p) by lia. by rewrite zget_app_mid.
Qed.
Lemma ref_incr c u : sr_incr (ref (c :: u)) = Ok (ref u).
Proof.
  unfold sr_incr, ref. cbn [sr_size sr_start sr_obj]. rewrite zlen_cons. pose proof (zlen_nonneg u).
  destruct (Z.eqb_spec (1 + zlen u) 0); [lia|]. do 2 f_equal; lia.
Qed.
Lemma ref_plus c u : sr_plus (ref (c :: u)) 1 = Ok (ref u).
Proof.
  unfold sr_plus, sr_check_index_equal_ok, ref. cbn [sr_size sr_start sr_obj]. rewrite zlen_cons.
  pose proof (zlen_nonneg u). destruct (Z.ltb_spec (1 + zlen u) 1); [lia|]. cbn. do 2 f_equal; lia.
Qed.
Lemma find_newline u : match t_after_newline u with
  | None => find_byte 10 u = None
  | Some v => ∃ i, find_byte 10 u = Some i ∧ zlen u - i = 1 + zlen v ∧ ∃ p, u = p ++ 10 :: v
  end.
Proof.
  induction u as [|c u IH]; simpl; [done|]. destruct (Z.eqb_spec c 10) as [->|].
  - exists 0. rewrite zlen_cons. split_and!; [done|lia|by exists []].
  - destruct (t_after_newline u); [|by rewrite IH]. destruct IH as (i & -> & Hi & p & ->).
    exists (Z.succ i). rewrite zlen_cons. split_and!; [done|lia|by exists (c :: p)].
Qed.
Lemma ref_chr u : suffix_of u → sr_chr (ref u) 10 =
  match t_after_newline u with None => sr_empty_ref | Some v => ref (10 :: v) end.
Proof.
  intros Hu. pose proof (find_newline u) as H. unfold sr_chr. rewrite ref_str by done.
  destruct (t_after_newline u) as [v|]; [|by rewrite H]. destruct H as (i & -> & Hi & _).
  unfold ref. cbn [sr_size sr_start sr_obj]. rewrite zlen_cons. f_equal; lia.
Qed.
Lemma ref_upto last t : suffix_of last → suffix_of t → zlen t <= zlen last →
  ∃ r, sr_upto (ref last) (ref t) = Ok r ∧ sr_str r = ztake (zlen last - zlen t) last.
Proof.
  intros Hl Ht Hle. unfold sr_upto. rewrite ref_empty. destruct t as [|c t].
  - eexists. split; [done|]. rewrite ref_str, ztake_all by (done || rewrite zlen_nil; lia). done.
  - apply suffix_len in Hl as Hl'. apply suffix_len in Ht as Ht'. unfold ref.
    cbn [sr_size sr_start sr_obj].
    assert (u64 (zlen txt - zlen (c :: t) - (zlen txt - zlen last)) = zlen last - zlen (c :: t)) as ->.
    { unfold u64. rewrite Z.mod_small; unfold SIZE_MAX in *; lia. }
    unfold sr_check_index_equal_ok. cbn [sr_size]. destruct (Z.ltb_spec (zlen last) (zlen last - zlen (c :: t))); [lia|].
    eexists. split; [done|]. pose proof (ref_str last Hl) as E. unfold sr_str, ref in *. cbn [sr_size sr_start sr_obj] in *.
    transitivity (ztake (zlen last - zlen (c :: t)) (ztake (zlen last) (zdrop (zlen txt - zlen last) mem))).
    + rewrite ztake_ztake by lia. f_equal. lia.
    + by rewrite E.
Qed.

Lemma ref_next_is u c : suffix_of u →
  next_is (ref u) c = Ok match u with [] => false | x :: _ => x =? c end.
Proof. intros Hu. unfold next_is. rewrite ref_empty. destruct u; [done|]. by rewrite ref_at. Qed.

(** The inner loops. *)
Lemma ref_quote fuel : ∀ u, suffix_of u → (length u <= fuel)%nat →
  quote_loop fuel (ref u) = Ok (ref (t_quote u)) ∧ suffix_of (t_quote u).
Proof.
  induction fuel as [|fuel IH]; intros [|c u] Hu Hf; cbn [quote_loop]; rewrite ?ref_empty;
    try done; [simpl in Hf; lia|]. rewrite ref_at by done. cbn [mbind res_bind]. rewrite ref_incr.
  apply suffix_cons in Hu as Hu'. simpl in Hf. cbn [mbind res_bind]. destruct (Z.eqb_spec c 39) as [->|Hc].
  - rewrite ref_empty. destruct u as [|d u]; [done|]. rewrite ref_at, ref_incr by done. cbn [mbind res_bind t_quote].
    apply suffix_cons in Hu' as Hu''. simpl in Hf. change (39 =? 39) with true. cbv iota.
    destruct (Z.eqb_spec d 39); cbn [negb]; [|done]. apply IH; [done|lia].
  - cbn [t_quote]. rewrite (proj2 (Z.eqb_neq c 39)) by done. apply IH; [done|lia].
Qed.
Lemma ref_dollar fuel : ∀ u, suffix_of u → (length u <= fuel)%nat →
  dollar_loop fuel (ref u) = Ok (ref (t_dollar u)) ∧ suffix_of (t_dollar u).
Proof.
  induction fuel as [|fuel IH]; intros [|c u] Hu Hf; cbn [dollar_loop]; rewrite ?ref_empty;
    try done; [simpl in Hf; lia|]. rewrite ref_at by done. cbn [mbind res_bind]. rewrite ref_incr.
  apply suffix_cons in Hu as Hu'. simpl in Hf. cbn [mbind res_bind]. destruct (Z.eqb_spec c 36) as [->|Hc].
  - rewrite ref_empty. destruct u as [|d u]; [apply (IH [] Hu'); simpl; lia|].
    rewrite ref_at by done. cbn [mbind res_bind]. simpl in Hf.
    change (t_dollar (36 :: d :: u)) with (if d =? 36 then u else t_dollar (d :: u)).
    destruct (Z.eqb_spec d 36) as [->|Hd]; [rewrite ref_incr; split; [done|by apply suffix_cons in Hu']|].
    apply IH; [done|simpl; lia].
  - cbn [t_dollar]. rewrite (proj2 (Z.eqb_neq c 36)) by done. apply IH; [done|lia].
Qed.

(** One round on references is one round on the text. *)
Definition as_state (s : bytes * bytes * bool * list bytes) : split_state :=
  let '(t, last, ins, result) := s in SplitState (ref t) (ref last) ins result.
Definition as_outcome (r : res (option (bytes * bytes * bool * list bytes))) : res (option split_state) :=
  match r with
  | Ok (Some s) => Ok (Some (as_state s))
  | Ok None => Ok None
  | Throw e => Throw e
  end.
Definition t_inv (t last : bytes) : Prop := suffix_of t ∧ suffix_of last ∧ zlen t <= zlen last.

Lemma suffix_le (c : Z) u : zlen u <= zlen (c :: u).
Proof. rewrite zlen_cons. lia. Qed.
Lemma t_quote_le u : zlen (t_quote u) <= zlen u.
Proof.
  induction u as [u IH] using (induction_ltof1 _ (@length Z)). unfold ltof in IH.
  destruct u as [|c u]; [done|]. cbn [t_quote]. rewrite zlen_cons.
  pose proof (IH u ltac:(simpl; lia)). destruct (c =? 39); [|lia].
  destruct u as [|d u]; [rewrite zlen_nil; lia|]. destruct (d =? 39); [|lia].
  pose proof (IH u ltac:(simpl; lia)). rewrite zlen_cons. lia.
Qed.
Lemma t_dollar_le u : zlen (t_dollar u) <= zlen u.
Proof.
  induction u as [|c u IH]; [done|]. cbn [t_dollar]. rewrite zlen_cons.
  destruct (c =? 36); [|lia]. destruct u as [|d u]; [rewrite zlen_nil; lia|].
  destruct (d =? 36); [|lia]. rewrite zlen_cons. lia.
Qed.

(** The rest after a step is shorter, and [last] still starts before it. *)
Ltac step_done := split; [reflexivity|intros ? ? ? ? [= <- <- <- <-]; repeat (case_match || split); (done || lia)].

Lemma step_refines fuel t last ins result : t_inv t last → t ≠ [] → (length t <= fuel)%nat →
  split_step fuel (SplitState (ref t) (ref last) ins result) =
    as_outcome (t_step t last ins result) ∧
  (∀ t' last' ins' result', t_step t last ins result = Ok (Some (t', last', ins', result')) →
     t_inv t' last' ∧ zlen t' < zlen t).
Proof.
  intros (Ht & Hl & Hle) Hne Hfuel. destruct t as [|ch t]; [done|]. clear Hne. simpl in Hfuel.
  apply suffix_cons in Ht as Ht'. pose proof (suffix_le ch t) as Hcl.
  assert (zlen t < zlen (ch :: t)) as Hlt by (rewrite zlen_cons; lia). unfold t_inv.
  unfold split_step, t_step. rewrite ref_at, ref_incr by done. cbn [mbind res_bind].
  destruct (ch =? 45); [|destruct (ch =? 39); [|destruct (ch =? 36); [|destruct (ch =? 59)]]].
  - rewrite ref_next_is by done. cbn [mbind res_bind]. destruct t as [|d u]; [step_done|].
    destruct (d =? 45); [|step_done]. rewrite ref_plus. cbn [mbind res_bind].
    apply suffix_cons in Ht' as Hu. rewrite ref_chr by done. pose proof (find_newline u) as Hn.
    destruct (t_after_newline u) as [v|]; [|done]. rewrite ref_empty, ref_incr. cbn [mbind res_bind].
    destruct Hn as (i & _ & _ & p & ->). apply suffix_app, suffix_cons in Hu.
    rewrite !zlen_cons, zlen_app, zlen_cons in *. pose proof (zlen_nonneg p).
    destruct ins; step_done.
  - destruct ins; [|done]. cbn [negb]. destruct (ref_quote fuel t Ht' ltac:(lia)) as [-> Hq].
    cbn [mbind res_bind]. rewrite ref_empty. pose proof (t_quote_le t).
    destruct (t_quote t) as [|d u]; [done|step_done].
  - destruct ins; [|done]. cbn [negb]. rewrite ref_next_is by done. cbn [mbind res_bind].
    destruct t as [|d u]; [step_done|]. destruct (d =? 36); [|step_done].
    rewrite ref_incr. cbn [mbind res_bind]. apply suffix_cons in Ht' as Hu.
    simpl in Hfuel. destruct (ref_dollar fuel u Hu ltac:(lia)) as [-> Hq]. cbn [mbind res_bind].
    rewrite ref_empty. pose proof (t_dollar_le u). rewrite !zlen_cons in *.
    destruct (t_dollar u) as [|e v]; [done|step_done].
  - destruct ins; [|done]. cbn [negb].
    destruct (ref_upto last t Hl Ht' ltac:(lia)) as (r & -> & Hr). cbn [mbind res_bind].
    rewrite Hr. step_done.
  - destruct (ins || (32 <? schar ch)); step_done.
Qed.

Lemma split_loop_refines fuel : ∀ t last ins result, t_inv t last → (length t <= fuel)%nat →
  split_loop fuel (SplitState (ref t) (ref last) ins result) = t_loop fuel t last ins result.
Proof.
  induction fuel as [|fuel IH]; intros t last ins result Hinv Hf.
  - destruct t; [|simpl in Hf; lia]. cbn [split_loop t_loop sp_sql sp_last sp_result].
    rewrite !ref_empty. by destruct last.
  - destruct t as [|c t]; cbn [split_loop t_loop sp_sql sp_last sp_result]; rewrite !ref_empty; [by destruct last|].
    destruct (step_refines (S fuel) (c :: t) last ins result Hinv) as [E Hnext]; [done|done|].
    rewrite E. destruct (t_step (c :: t) last ins result) as [[[[[t' last'] ins'] result']|]|e]; try done.
    cbn [as_outcome as_state].
    destruct (Hnext t' last' ins' result' eq_refl) as [Hinv' Hlt]. apply IH; [done|].
    unfold zlen in Hlt. simpl in *. lia.
Qed.
End refs.

(** The text is split as the model on texts splits it. *)
Lemma pg_split_statement_text mem result : zlen (until_nul mem) <= SIZE_MAX →
  pg_split_statement mem result =
    t_loop (length (until_nul mem)) (until_nul mem) (until_nul mem) false result.
Proof.
  intros Hmax. unfold pg_split_statement.
  assert (sr_of_cstr mem = ref mem (until_nul mem)) as ->.
  { unfold sr_of_cstr, ref. f_equal. lia. }
  unfold ref at 1. cbn [sr_size]. rewrite to_nat_zlen. apply split_loop_refines; [done| |done].
  split_and!; [by exists []|by exists []|lia].
Qed.

(** ** Scripts, abstractly *)

Definition plain (c : Z) : Prop := c ≠ 45 ∧ c ≠ 39 ∧ c ≠ 36 ∧ c ≠ 59.
Definition blank (c : Z) : Prop := plain c ∧ schar c <= 32.

(** A string literal doubles its quotes; a dollar-quoted body has no [$$]. *)
Definition double_quotes (s : bytes) : bytes := concat ((λ c, if c =? 39 then [39; 39] else [c]) <$> s).
Fixpoint has_dollars (s : bytes) : bool :=
  match s with
  | c :: t => ((c =? 36) && match t with d :: _ => d =? 36 | [] => false end) || has_dollars t
  | [] => false
  end.

(** [statement t rest]: [t] is the text of a statement from somewhere inside, up
    to and including its semicolon, followed by [rest]. *)
Inductive statement : bytes → bytes → Prop :=
| st_end rest : statement (59 :: rest) rest
| st_char c t rest : plain c → statement t rest → statement (c :: t) rest
| st_minus t rest : head t ≠ Some 45 → statement t rest → statement (45 :: t) rest
| st_comment s t rest : 10 ∉ s → statement t rest → statement (45 :: 45 :: s ++ 10 :: t) rest
| st_dollar t rest : head t ≠ Some 36 → statement t rest → statement (36 :: t) rest
| st_dollar_quoted s t rest : has_dollars (s ++ [36]) = false → statement t rest →
    statement (36 :: 36 :: s ++ 36 :: 36 :: t) rest
| st_string s t rest : head t ≠ Some 39 → statement t rest →
    statement (39 :: double_quotes s ++ 39 :: t) rest.

(** White space and comments in front of [rest]. *)
Inductive separator : bytes → bytes → Prop :=
| sep_none rest : separator rest rest
| sep_blank c t rest : blank c → separator t rest → separator (c :: t) rest
| sep_comment s t rest : 10 ∉ s → separator t rest → separator (45 :: 45 :: s ++ 10 :: t) rest.

(** A script and its statements. *)
Inductive script : bytes → list bytes → Prop :=
| script_end t : separator t [] → script t []
| script_last_comment t s : 10 ∉ s → separator t (45 :: 45 :: s) → script t []
| script_statement t c s rest stmts : plain c → 32 < schar c → separator t ((c :: s) ++ rest) →
    statement (s ++ rest) rest → script rest stmts → script t ((c :: s) :: stmts).

(** ** Lemmas *)

Definition runs (t last : bytes) (ins : bool) (result : list bytes) (out : res unit * list bytes) : Prop :=
  ∀ fuel, (length t <= fuel)%nat → t_loop fuel t last ins result = out.
Lemma runs_step t last ins result t' last' ins' result' out :
  t_step t last ins result = Ok (Some (t', last', ins', result')) → (length t' < length t)%nat →
  runs t' last' ins' result' out → runs t last ins result out.
Proof.
  intros E Hl H fuel Hf. destruct t as [|c t]; [done|]. destruct fuel as [|fuel]; [simpl in Hf; lia|].
  cbn [t_loop]. rewrite E. apply H. simpl in *. lia.
Qed.
Lemma after_newline s t : 10 ∉ s → t_after_newline (s ++ 10 :: t) = Some t.
Proof.
  induction s as [|c s IH]; intros H; [done|]. cbn [app t_after_newline]. apply not_elem_of_cons in H as [Hc H].
  rewrite (proj2 (Z.eqb_neq c 10)) by congruence. by apply IH.
Qed.
Lemma no_newline s : 10 ∉ s → t_after_newline s = None.
Proof.
  induction s as [|c s IH]; intros H; [done|]. cbn [t_after_newline]. apply not_elem_of_cons in H as [Hc H].
  rewrite (proj2 (Z.eqb_neq c 10)) by congruence. by apply IH.
Qed.
Lemma t_quote_string s t : head t ≠ Some 39 → t ≠ [] → t_quote (double_quotes s ++ 39 :: t) = t.
Proof.
  intros Hh Ht. induction s as [|c s IH].
  - cbn. destruct t as [|d t]; [done|]. rewrite (proj2 (Z.eqb_neq d 39)); [done|]. by intros ->.
  - unfold double_quotes. rewrite fmap_cons. cbn [concat]. rewrite <- app_assoc.
    fold (double_quotes s). destruct (Z.eqb_spec c 39) as [->|Hc]; cbn [app t_quote].
    + exact IH.
    + by rewrite (proj2 (Z.eqb_neq c 39)).
Qed.
Lemma t_dollar_string s t : has_dollars (s ++ [36]) = false → t_dollar (s ++ 36 :: 36 :: t) = t.
Proof.
  induction s as [|c s IH]; intros H; [done|]. cbn [app has_dollars t_dollar] in *.
  apply orb_false_iff in H as [H1 H2]. specialize (IH H2). destruct (Z.eqb_spec c 36) as [->|]; [|done].
  destruct s as [|d s]; [done|]. cbn [app] in *. change ((d =? 36) = false) in H1. by rewrite H1.
Qed.
Lemma plain_step c t last ins result : plain c → t_step (c :: t) last ins result =
  Ok (Some (t, if ins || (32 <? schar c) then last else t, ins || (32 <? schar c), result)).
Proof.
  intros (H1 & H2 & H3 & H4). unfold t_step.
  by rewrite (proj2 (Z.eqb_neq _ _) H1), (proj2 (Z.eqb_neq _ _) H2), (proj2 (Z.eqb_neq _ _) H3), (proj2 (Z.eqb_neq _ _) H4).
Qed.
Lemma comment_step s t last ins result : 10 ∉ s → t_step (45 :: 45 :: s ++ 10 :: t) last ins result =
  Ok (Some (t, if ins then last else t, ins, result)).
Proof. intros H. cbn -[Z.add]. by rewrite after_newline. Qed.
Lemma statement_nonempty t rest : statement t rest → t ≠ [].
Proof. by destruct 1. Qed.
Lemma length_double_quotes s : (length s <= length (double_quotes s))%nat.
Proof.
  induction s as [|c s IH]; [done|]. unfold double_quotes. rewrite fmap_cons. cbn [concat].
  fold (double_quotes s). rewrite length_app. destruct (c =? 39); simpl; lia.
Qed.

Lemma statement_runs t rest : statement t rest → ∀ last result out,
  runs rest rest false (push_statement result (ztake (zlen last - zlen rest) last)) out →
  runs t last true result out.
Proof.
  induction 1 as [rest|c t rest Hc Hs IH|t rest Hh Hs IH|s t rest Hn Hs IH|t rest Hh Hs IH
    |s t rest Hd Hs IH|s t rest Hh Hs IH]; intros last result out Hr.
  - eapply runs_step; [reflexivity|simpl; lia|exact Hr].
  - eapply runs_step; [by apply plain_step|simpl; lia|by apply IH].
  - apply (runs_step _ _ _ _ t last true result); [|simpl; lia|by apply IH]. destruct t as [|d t]; [done|]. cbn -[Z.add].
    rewrite (proj2 (Z.eqb_neq d 45)); [done|]. by intros ->.
  - eapply runs_step; [by apply comment_step|simpl; rewrite length_app; simpl; lia|by apply IH].
  - apply (runs_step _ _ _ _ t last true result); [|simpl; lia|by apply IH]. destruct t as [|d t]; [done|]. cbn -[Z.add].
    rewrite (proj2 (Z.eqb_neq d 36)); [done|]. by intros ->.
  - apply (runs_step _ _ _ _ t last true result); [|simpl; rewrite length_app; simpl; lia|by apply IH]. cbn -[Z.add].
    rewrite t_dollar_string by done. apply statement_nonempty in Hs. by destruct t.
  - apply (runs_step _ _ _ _ t last true result); [|simpl; rewrite length_app; simpl; lia|by apply IH]. apply statement_nonempty in Hs.
    cbn -[Z.add double_quotes t_quote]. rewrite t_quote_string by done. by destruct t.
Qed.
Lemma separator_runs t rest : separator t rest → ∀ result out,
  runs rest rest false result out → runs t t false result out.
Proof.
  induction 1 as [|c t rest [Hp Hc] Hs IH|s t rest Hn Hs IH]; intros result out Hr; [done|..].
  - eapply runs_step; [by apply plain_step|simpl; lia|]. cbn [orb].
    rewrite (proj2 (Z.ltb_ge 32 (schar c))) by done. by apply IH.
  - eapply runs_step; [by apply comment_step|simpl; rewrite length_app; simpl; lia|by apply IH].
Qed.
Lemma script_runs t stmts : script t stmts → ∀ result, runs t t false result (Ok tt, result ++ stmts).
Proof.
  induction 1 as [t Hs|t s Hn Hs|t c s rest stmts Hp Hc Hsep Hst _ IH]; intros result.
  - apply (separator_runs _ _ Hs). intros fuel _. rewrite app_nil_r. by destruct fuel.
  - apply (separator_runs _ _ Hs). intros [|fuel] Hf; [simpl in Hf; lia|]. cbn -[Z.add].
    by rewrite no_newline, app_nil_r.
  - apply (separator_runs _ _ Hsep). apply (runs_step _ _ _ _ (s ++ rest) ((c :: s) ++ rest) true result).
    { cbn [app]. rewrite plain_step, (proj2 (Z.ltb_lt 32 (schar c))) by done. done. }
    { simpl. lia. }
    apply (statement_runs _ _ Hst).
    replace (zlen ((c :: s) ++ rest) - zlen rest) with (zlen (c :: s)) by (rewrite zlen_app; lia).
    rewrite ztake_app. cbn [push_statement]. rewrite (cons_middle _ result stmts), app_assoc. apply IH.
Qed.

(** What the loop returns for any text. *)
Definition split_output (result : list bytes) (out : res unit * list bytes) : Prop :=
  (∃ stmts, out.2 = result ++ stmts ∧ Forall (λ s, last s = Some 59) stmts) ∧
  match out.1 with Ok _ => True | Throw (runtime_error _) => True | Throw _ => False end.

Lemma t_quote_suffix u : ∃ p, u = p ++ t_quote u.
Proof.
  induction u as [u IH] using (induction_ltof1 _ (@length Z)). unfold ltof in IH.
  destruct u as [|c u]; [by exists []|]. cbn [t_quote].
  destruct (IH u ltac:(simpl; lia)) as [p Hp]. destruct (c =? 39); [|exists (c :: p); simpl; by rewrite <- Hp].
  destruct u as [|d u]; [by exists [c]|]. destruct (d =? 39); [|by exists [c]].
  destruct (IH u ltac:(simpl; lia)) as [q Hq]. exists (c :: d :: q). simpl. by rewrite <- Hq.
Qed.
Lemma t_dollar_suffix u : ∃ p, u = p ++ t_dollar u.
Proof.
  induction u as [|c u [p IH]]; [by exists []|]. cbn [t_dollar].
  destruct (c =? 36); [|exists (c :: p); simpl; by rewrite <- IH]. destruct u as [|d u]; [by exists [c]|].
  destruct (d =? 36); [by exists [c; d]|]. exists (c :: p). cbn [app]. by rewrite <- IH.
Qed.
Lemma t_after_newline_suffix u v : t_after_newline u = Some v → ∃ p, u = p ++ v.
Proof. intros E. pose proof (find_newline u) as H. rewrite E in H. destruct H as (_ & _ & _ & p & ->).
  exists (p ++ [10]). by rewrite <- app_assoc. Qed.

(** A round moves on in the text, and adds at most one statement, which ends in
    a semicolon. *)
Lemma t_step_output t last ins result : (∃ p, last = p ++ t) →
  match t_step t last ins result with
  | Ok (Some (t', last', ins', result')) => (∃ p, last' = p ++ t') ∧
      ∃ stmts, result' = result ++ stmts ∧ Forall (λ s, list.last s = Some 59) stmts
  | Ok None => True
  | Throw e => ∃ what, e = runtime_error what
  end.
Proof.
  intros [p ->]. destruct t as [|ch t]; [done|]. unfold t_step.
  assert (∀ q u : bytes, t = q ++ u → ∃ p', p ++ ch :: t = p' ++ u) as Hsuf.
  { intros q u ->. exists (p ++ ch :: q). by rewrite <- app_assoc. }
  assert (∃ p' : bytes, p ++ ch :: t = p' ++ t) as Ht by by apply (Hsuf []).
  assert (∃ stmts, result = result ++ stmts ∧ Forall (λ s, list.last s = Some 59) stmts) as Hres.
  { exists []. by rewrite app_nil_r. }
  assert (∀ u : bytes, ∃ q, u = q ++ u) as Hnil by (intros u; by exists []).
  destruct (ch =? 45); [|destruct (ch =? 39); [|destruct (ch =? 36); [|destruct (Z.eqb_spec ch 59) as [->|]]]].
  - destruct t as [|d u]; [done|]. destruct (d =? 45); [|done].
    destruct (t_after_newline u) as [v|] eqn:E; [|done]. apply t_after_newline_suffix in E as [q ->].
    split; [|done]. destruct ins; [|done]. by apply (Hsuf (d :: q)).
  - destruct ins; [|by eexists]. cbn [negb]. destruct (t_quote_suffix t) as [q Hq].
    destruct (t_quote t); [by eexists|]. split; [by apply (Hsuf q)|done].
  - destruct ins; [|by eexists]. cbn [negb]. destruct t as [|d u]; [done|]. destruct (d =? 36); [|done].
    destruct (t_dollar_suffix u) as [q Hq]. destruct (t_dollar u); [by eexists|].
    split; [|done]. apply (Hsuf (d :: q)). by rewrite Hq at 1.
  - destruct ins; [|by eexists]. cbn [negb]. split; [done|].
    assert (ztake (zlen (p ++ 59 :: t) - zlen t) (p ++ 59 :: t) = p ++ [59]) as ->.
    { rewrite (cons_middle 59 p t), app_assoc, zlen_app. replace (_ + _ - _) with (zlen (p ++ [59])) by lia.
      apply ztake_app. }
    exists [p ++ [59]]. unfold push_statement. destruct (p ++ [59]) eqn:E; [by destruct p|].
    rewrite <- E. split; [done|]. repeat constructor. apply last_snoc.
  - split; [|done]. destruct (ins || (32 <? schar ch)); done.
Qed.
Lemma t_loop_output fuel : ∀ t last ins result, (∃ p, last = p ++ t) →
  split_output result (t_loop fuel t last ins result).
Proof.
  unfold split_output.
  assert (∀ result : list bytes, ∃ stmts, result = result ++ stmts ∧ Forall (λ s, list.last s = Some 59) stmts) as Hnil.
  { intros result. exists []. by rewrite app_nil_r. }
  induction fuel as [|fuel IH]; intros [|c t] last ins result Hl; try (split; [apply Hnil|by destruct last]).
  cbn [t_loop]. pose proof (t_step_output (c :: t) last ins result Hl) as Hs.
  destruct (t_step (c :: t) last ins result) as [[[[[t' last'] ins'] result']|]|e]; [|by split|].
  - destruct Hs as (Hl' & new & -> & Hnew). destruct (IH t' last' ins' (result ++ new) Hl') as ((stmts & -> & Hst) & Hr).
    split; [|done]. exists (new ++ stmts). rewrite app_assoc. split; [done|by apply Forall_app].
  - destruct Hs as [what ->]. by split.
Qed.

(** The reader of array literals, as PostgreSQL documents them. *)
Fixpoint read_element (s : bytes) : option (bytes * bytes) :=
  match s with
  | [] => None
  | c :: t =>
      if c =? 34 then Some ([], t)
      else if c =? 92 then
        match t with
        | [] => None
        | d :: t => '(e, rest) ← read_element t; Some (d :: e, rest)
        end
      else '(e, rest) ← read_element t; Some (c :: e, rest)
  end.
Fixpoint read_elements (fuel : nat) (s : bytes) : option (list bytes) :=
  match fuel, s with
  | S fuel, 34 :: s =>
      '(e, rest) ← read_element s;
      match rest with
      | [125] => Some [e]
      | 44 :: rest => es ← read_elements fuel rest; Some (e :: es)
      | _ => None
      end
  | _, _ => None
  end.
Definition read_array (s : bytes) : option (list bytes) :=
  match s with
  | [123; 125] => Some []
  | 123 :: s => read_elements (length s) s
  | _ => None
  end.
Definition quote_element (c : Z) : bytes := if (c =? 34) || (c =? 92) then [92; c] else [c].
Lemma encode_element_ok e : 0 ∉ e → encode_element e = Ok (concat (quote_element <$> e)).
Proof.
  induction e as [|c e IH]; intros H; [done|]. apply not_elem_of_cons in H as [Hc H].
  cbn [encode_element]. rewrite (proj2 (Z.eqb_neq c 0)), (IH H) by congruence. done.
Qed.
Lemma encode_element_nul e : 0 ∈ e →
  encode_element e = Throw (pg_exception (str "NUL character in pg_encode_array")).
Proof.
  induction e as [|c e IH]; intros H; [by apply not_elem_of_nil in H|]. cbn [encode_element].
  destruct (Z.eqb_spec c 0); [done|]. apply elem_of_cons in H as [?|H]; [congruence|]. by rewrite IH.
Qed.
Lemma read_element_quoted e rest :
  read_element (concat (quote_element <$> e) ++ 34 :: rest) = Some (e, rest).
Proof.
  induction e as [|c e IH]; [done|]. rewrite fmap_cons. cbn [concat]. rewrite <- app_assoc.
  unfold quote_element at 1. destruct (Z.eqb_spec c 34) as [->|H1]; [cbn [orb app]|
    destruct (Z.eqb_spec c 92) as [->|H2]; cbn [orb app]].
  - cbn [read_element Z.eqb Pos.eqb]. by rewrite IH.
  - cbn [read_element Z.eqb Pos.eqb]. by rewrite IH.
  - cbn [read_element]. rewrite (proj2 (Z.eqb_neq c 34)), (proj2 (Z.eqb_neq c 92)) by done. by rewrite IH.
Qed.

Definition quoted (e : bytes) : bytes := concat (quote_element <$> e).
Definition tail_text (p : list bytes) : bytes := concat ((λ e, 44 :: 34 :: quoted e ++ [34]) <$> p).
Lemma encode_tail p : Forall (λ e, 0 ∉ e) p → ∀ result, 1 < zlen result →
  encode_elements result p = Ok (result ++ tail_text p).
Proof.
  induction 1 as [|e p He _ IH]; intros result Hr; [by rewrite app_nil_r|]. cbn [encode_elements].
  rewrite (proj2 (Z.ltb_lt 1 (zlen result))), encode_element_ok by done. cbn [mbind res_bind].
  rewrite IH; [|rewrite !zlen_app; pose proof (zlen_nonneg (quoted e)); unfold quoted in *; zl].
  f_equal. unfold tail_text. rewrite fmap_cons. cbn [concat app]. rewrite <- !app_assoc. cbn [app]. by rewrite <- !app_assoc.
Qed.
Lemma encode_nul p : ∀ result, Exists (λ e, 0 ∈ e) p →
  encode_elements result p = Throw (pg_exception (str "NUL character in pg_encode_array")).
Proof.
  induction p as [|e p IH]; intros result H; [by inversion H|]. cbn [encode_elements].
  destruct (decide (0 ∈ e)) as [He|He]; [by rewrite encode_element_nul|].
  rewrite encode_element_ok by done. cbn [mbind res_bind]. apply Exists_cons in H as [?|H]; [done|]. by apply IH.
Qed.
Lemma read_elements_text p : ∀ e fuel, (length p < fuel)%nat →
  read_elements fuel (34 :: quoted e ++ 34 :: tail_text p ++ [125]) = Some (e :: p).
Proof.
  induction p as [|d p IH]; intros e [|fuel] Hf; try (simpl in Hf; lia).
  - cbn [read_elements]. unfold quoted. by rewrite read_element_quoted.
  - cbn [read_elements]. unfold quoted. rewrite read_element_quoted. cbn [mbind option_bind].
    unfold tail_text. rewrite fmap_cons. cbn [concat app]. fold (tail_text p). rewrite <- !app_assoc. cbn [app].
    rewrite IH by (simpl in Hf; lia). done.
Qed.
Lemma tail_text_length p : (length p <= length (tail_text p))%nat.
Proof.
  induction p as [|e p IH]; [done|]. unfold tail_text. rewrite fmap_cons. cbn [concat]. fold (tail_text p).
  rewrite length_app. simpl. lia.
Qed.

(** ** Properties *)

(** C35: On every well-formed script the function returns exactly its statements, in
    order, each from its first character to its semicolon, appended to the
    result: white space and comments between statements are dropped, and
    semicolons in comments, string literals (with doubled quotes) and
    dollar-quoted strings do not end a statement. *)
Theorem pg_split_statement_spec (text junk : bytes) (stmts result : list bytes) :
  script text stmts → 0 ∉ text → zlen text <= SIZE_MAX →
  pg_split_statement (text ++ 0 :: junk) result = (Ok tt, result ++ stmts).
Proof.
  intros Hs H0 Hmax. assert (until_nul (text ++ 0 :: junk) = text) as E.
  { apply until_nul_app_nul, Forall_forall. intros x Hx ->. done. }
  rewrite pg_split_statement_text by (by rewrite E). rewrite E. by apply script_runs.
Qed.

Definition sample_script : bytes :=
  [10] ++ str "-- c;" ++ [10] ++ str "SELECT 'a'';b', $$;$$; X -1;" ++ [10].
Example pg_split_statement_spec_witness :
  pg_split_statement (sample_script ++ [0]) [] = (Ok tt, [str "SELECT 'a'';b', $$;$$;"; str "X -1;"]).
Proof.
  apply (pg_split_statement_spec sample_script [] [str "SELECT 'a'';b', $$;$$;"; str "X -1;"] []); [|by apply (bool_decide_unpack (0 ∉ sample_script))|done].
  apply (script_statement sample_script 83 (str "ELECT 'a'';b', $$;$$;") (str " X -1;" ++ [10])); [done|done| | |].
  - apply sep_blank; [done|]. apply (sep_comment (str " c;")); [by apply (bool_decide_unpack (10 ∉ str " c;"))|]. apply sep_none.
  - do 6 (apply st_char; [done|]). apply (st_string (str "a';b")); [done|].
    do 2 (apply st_char; [done|]). apply (st_dollar_quoted (str ";")); [done|]. apply st_end.
  - apply (script_statement _ 88 (str " -1;") [10]); [done|done| | |].
    + apply sep_blank; [done|]. apply sep_none.
    + apply st_char; [done|]. apply st_minus; [done|]. apply st_char; [done|]. apply st_end.
    + apply script_end. apply sep_blank; [done|]. apply sep_none.
Defined.

(** On any text whatever, the function only adds texts that end in a semicolon
    to the result, and the only exception is [std::runtime_error]: the index
    checks of the string references never fail. *)
Theorem pg_split_statement_total (mem : bytes) (result : list bytes) :
  zlen (until_nul mem) <= SIZE_MAX → split_output result (pg_split_statement mem result).
Proof.
  intros Hmax. rewrite pg_split_statement_text by done. apply t_loop_output. by exists [].
Qed.

Example pg_split_statement_total_witness :
  pg_split_statement (str "A;B '") [] = (Throw (runtime_error (str "unterminated string in SQL statement")), [str "A;"]) ∧
  split_output [] (pg_split_statement (str "A;B '") []).
Proof. split; [reflexivity|]. apply pg_split_statement_total. done. Defined.

(** [pg_encode_array] produces an array literal that reads back as the same
    elements, whatever bytes they are made of, except that a NUL byte in any
    element is reported as an exception. *)
Theorem pg_encode_array_roundtrip (in_ : list bytes) :
  if decide (Exists (λ e, 0 ∈ e) in_)
  then pg_encode_array in_ = Throw (pg_exception (str "NUL character in pg_encode_array"))
  else ∃ s, pg_encode_array in_ = Ok s ∧ read_array s = Some in_.
Proof.
  unfold pg_encode_array. destruct (decide _) as [H|H]; [by rewrite encode_nul|].
  apply not_Exists_Forall in H; [|intros e; destruct (decide (0 ∈ e)); [by left|by right]].
  destruct H as [|e p He Hp]; [by eexists|]. cbn [encode_elements].
  change (1 <? zlen [123]) with false. cbv iota. rewrite encode_element_ok by done. cbn [mbind res_bind].
  fold (quoted e). rewrite encode_tail; [|done|rewrite !zlen_app; pose proof (zlen_nonneg (quoted e)); zl].
  cbn [mbind res_bind]. eexists. split; [done|]. cbn [app]. rewrite <- !app_assoc. cbn [app].
  cbn [read_array]. apply read_elements_text. simpl. rewrite length_app. simpl. rewrite length_app.
  pose proof (tail_text_length p). lia.
Qed.
