(* ===== verification/PgPrivate.v ===== *)
(** * Parameters and results of PostgreSQL queries (include/cxxll/pg_private.hpp,
    lib/cxxll/pg_private.cpp)

    The marshalling of C++ values into binary query parameters and back from
    result columns.  A [PGresult] is a parameter: the accessor functions of libpq
    applied to it.  [host] is the byte order of the machine. *)

From S2P Require Import Prelude Binary StringSupport.

(** ** Types *)

(** The specializations of [dispatch] for values.
    Source: include/cxxll/pg_private.hpp 40-126, dispatch. *)
Inductive pg_type := pg_bool | pg_short | pg_int | pg_long_long | pg_cstring | pg_string | pg_bytea.

(** Source: include/cxxll/pg_private.hpp 41-121, dispatch::oid. *)
Definition oid (t : pg_type) : Z :=
  match t with
  | pg_bool => 16 | pg_short => 21 | pg_int => 23 | pg_long_long => 20
  | pg_cstring => 25 | pg_string => 25 | pg_bytea => 17
  end.

(** Source: include/cxxll/pg_private.hpp 44-116, dispatch::storage. *)
Definition storage (t : pg_type) : Z :=
  match t with
  | pg_bool => 1 | pg_short => 2 | pg_int => 4 | pg_long_long => 8
  | pg_cstring => 0 | pg_string => 0 | pg_bytea => 0
  end.

(** ** Parameters *)

(** Source: lib/cxxll/pg_private.cpp 47-54, length_check. *)
Definition length_check (len : Z) : res Z :=
  if INT_MAX <=? len then Throw (pg_exception (str "argument string length exceeds maximum"))
  else Ok len.

(** The pointer that [store] returns: the bytes from there on.
    Source: include/cxxll/pg_private.hpp 140-145, dispatch::store. *)
Definition store_bool (val : bool) : bytes := [if val then 1 else 0].

(** Source: include/cxxll/pg_private.hpp 147-153, dispatch::store. *)
Definition store_short (val : Z) : bytes := [u8 (Z.shiftr val 8); u8 val].

(** Source: include/cxxll/pg_private.hpp 155-161, dispatch::store. *)
Definition store_int (host : byte_order) (val : Z) : bytes :=
  memory_bytes host 4 (cpu_to_be_32 host (u32 val)).

(** Source: include/cxxll/pg_private.hpp 163-169, dispatch::store. *)
Definition store_long_long (host : byte_order) (val : Z) : bytes :=
  memory_bytes host 8 (cpu_to_be_64 host (u64 val)).

(** A null pointer is [None]; [known] is [__builtin_constant_p (length)].
    Source: include/cxxll/pg_private.hpp 171-182, dispatch::length. *)
Definition length_cstring (known : bool) (s : option bytes) : res Z :=
  let length := match s with None => 0 | Some mem => zlen (until_nul mem) end in
  if known then Ok (to_signed 32 length) else length_check length.

(** Source: include/cxxll/pg_private.hpp 184-188, dispatch::store. *)
Definition store_cstring (s : option bytes) : option bytes := s.

(** Source: include/cxxll/pg_private.hpp 190-194, dispatch::store. *)
Definition store_string (s : bytes) : bytes := s.

(** Source: lib/cxxll/pg_private.cpp 230-234, dispatch::length. *)
Definition length_string (s : bytes) : res Z := length_check (zlen s).

(** An empty vector must not become a null pointer: the result is never one.
    Source: lib/cxxll/pg_private.cpp 237-248, dispatch::store. *)
Definition store_bytea (vec : bytes) : option bytes :=
  if zlen vec =? 0 then Some [] else Some vec.

(** Source: lib/cxxll/pg_private.cpp 250-255, dispatch::length. *)
Definition length_bytea (vec : bytes) : res Z := length_check (zlen vec).

(** The specialization for pointers, for any [store] and [length] of the target.
    Source: include/cxxll/pg_private.hpp 199-217, dispatch::length and dispatch::store. *)
Definition length_pointer {T} (length : T → res Z) (ptr : option T) : res Z :=
  match ptr with Some v => length v | None => Ok 0 end.
(** Source: include/cxxll/pg_private.hpp 209-217, dispatch::store. *)
Definition store_pointer {T} (store : T → bytes) (ptr : option T) : option bytes :=
  match ptr with Some v => Some (store v) | None => None end.

(** ** Results *)

(** The accessors of libpq for one result; [PQgetvalue] points to memory with a
    terminating NUL after the value. *)
Record pgresult := PGresult {
  PQfformat : Z → Z;
  PQftype : Z → Z;
  PQgetlength : Z → Z → Z;
  PQgetisnull : Z → Z → bool;
  PQgetvalue : Z → Z → bytes
}.

(** Source: lib/cxxll/pg_private.cpp 56-69, is_binary. *)
Definition is_binary (r : pgresult) (col : Z) : res bool :=
  if PQfformat r col =? 0 then Ok false
  else if PQfformat r col =? 1 then Ok true
  else Throw (pg_exception (str "invalid format type")).

(** Source: lib/cxxll/pg_private.cpp 71-81, throw_mismatch_exception. *)
Definition throw_mismatch_exception {A} (msg : bytes) (row col : Z) : res A :=
  Throw (pg_exception (msg ++ str " column " ++ dec col ++ str " of row " ++ dec row)).

(** The byte at [p[i]]. *)
Definition byte_at (p : bytes) (i : Z) : Z := default 0 (zget p i).

(** Source: lib/cxxll/pg_private.cpp 83-119, dispatch::load. *)
Definition load_bool (r : pgresult) (row col : Z) : res bool :=
  binary ← is_binary r col;
  if (binary : bool) && (negb (PQftype r col =? oid pg_bool) || negb (PQgetlength r row col =? storage pg_bool))
  then Throw (pg_exception (str "format mismatch for boolean column"))
  else if PQgetisnull r row col then
    throw_mismatch_exception (str "NULL value in non-null boolean") row col
  else
    let ptr := PQgetvalue r row col in
    if (binary : bool) then
      if byte_at ptr 0 =? 0 then Ok false
      else if byte_at ptr 0 =? 1 then Ok true
      else Throw (pg_exception (str "invalid binary value in boolean column"))
    else
      if byte_at ptr 0 =? 102 then Ok false
      else if byte_at ptr 0 =? 116 then Ok true
      else Throw (pg_exception (str "invalid value in boolean column")).

Definition LLONG_MAX : Z := 9223372036854775807.
Definition LLONG_MIN : Z := -9223372036854775808.

(** [strtoll (p, &endptr, 10)] on a C string: the value and whether [errno] was
    set.  Without digits the value is zero and [errno] stays clear. *)
Definition strtoll (s : bytes) : Z * bool :=
  let t := skip_isspace s in
  let '(neg, t) := match t with
    | c :: u => if c =? 43 then (false, u) else if c =? 45 then (true, u) else (false, t)
    | [] => (false, t)
    end in
  let '(v, _) := scan_digits 0 t in
  if (neg : bool) then (if v <=? - LLONG_MIN then (- v, false) else (LLONG_MIN, true))
  else (if v <=? LLONG_MAX then (v, false) else (LLONG_MAX, true)).

(** The template, for an integer type of [size] bytes with type [t].
    Source: lib/cxxll/pg_private.cpp 122-163, load_integer. *)
Definition load_integer (host : byte_order) (t : pg_type) (size : Z) (r : pgresult) (row col : Z) : res Z :=
  binary ← is_binary r col;
  if (binary : bool) && (negb (PQftype r col =? oid t) || negb (PQgetlength r row col =? storage t))
  then throw_mismatch_exception (str "format mismatch for integer") row col
  else if PQgetisnull r row col then
    throw_mismatch_exception (str "NULL value in non-null integer") row col
  else
    let ptr := PQgetvalue r row col in
    if (binary : bool) then
      if size =? 2 then Ok (to_signed 16 (Z.lor (Z.shiftl (byte_at ptr 0) 8) (byte_at ptr 1)))
      else if size =? 4 then
        Ok (to_signed 32 (be_to_cpu_32 host (host_value host (ztake (storage t) ptr))))
      else
        Ok (to_signed 64 (be_to_cpu_64 host (host_value host (ztake (storage t) ptr))))
    else
      let '(llval, errno) := strtoll (until_nul ptr) in
      if ((llval =? 0) && errno) || negb (to_signed (8 * size) llval =? llval) then
        Throw (pg_exception (str "conversion failure for INT" ++ [48 + size] ++ str " column: " ++ [34]
          ++ quote (until_nul ptr) ++ [34]))
      else Ok llval.

(** Source: lib/cxxll/pg_private.cpp 165-170, dispatch::load. *)
Definition load_short (host : byte_order) : pgresult → Z → Z → res Z := load_integer host pg_short 2.
(** Source: lib/cxxll/pg_private.cpp 172-176, dispatch::load. *)
Definition load_int (host : byte_order) : pgresult → Z → Z → res Z := load_integer host pg_int 4.
(** Source: lib/cxxll/pg_private.cpp 178-183, dispatch::load. *)
Definition load_long_long (host : byte_order) : pgresult → Z → Z → res Z := load_integer host pg_long_long 8.

(** [PQunescapeBytea] is libpq's; [None] is its failure to allocate memory.
    Source: lib/cxxll/pg_private.cpp 185-214, load_text. *)
Definition load_text (PQunescapeBytea : bytes → option bytes) (r : pgresult) (row col : Z) : res bytes :=
  binary ← is_binary r col;
  let colid := PQftype r col in
  let bytea := colid =? oid pg_bytea in
  if (binary : bool) && (negb (colid =? oid pg_string) && negb bytea) then
    Throw (pg_exception (str "format mismatch for string column"))
  else
    let ptr := PQgetvalue r row col in
    if (binary : bool) || negb bytea then Ok (ztake (PQgetlength r row col) ptr)
    else
      match PQunescapeBytea (until_nul ptr) with
      | None => Throw bad_alloc
      | Some blob => Ok blob
      end.

(** ** Lemmas *)

(** Two's complement. *)
Lemma to_signed_u w z : 0 < w → - 2 ^ (w - 1) <= z < 2 ^ (w - 1) → to_signed w (z mod 2 ^ w) = z.
Proof.
  intros Hw Hz. unfold to_signed. rewrite Z.mod_mod by (apply Z.pow_nonzero; lia).
  assert (2 ^ w = 2 * 2 ^ (w - 1)) as E by (rewrite <- Z.pow_succ_r by lia; f_equal; lia).
  rewrite E. destruct (Z.ltb_spec z 0).
  - rewrite <- (Z.mod_unique_pos z (2 * 2 ^ (w - 1)) (-1) (z + 2 * 2 ^ (w - 1))) by lia.
    destruct (Z.ltb_spec (z + 2 * 2 ^ (w - 1)) (2 ^ (w - 1))); lia.
  - rewrite Z.mod_small by lia. destruct (Z.ltb_spec z (2 ^ (w - 1))); lia.
Qed.
Lemma to_signed_fits w z : 0 < w →
  (to_signed w z =? z) = ((- 2 ^ (w - 1) <=? z) && (z <? 2 ^ (w - 1))).
Proof.
  intros Hw. assert (2 ^ w = 2 * 2 ^ (w - 1)) as E by (rewrite <- Z.pow_succ_r by lia; f_equal; lia).
  destruct (decide (- 2 ^ (w - 1) <= z < 2 ^ (w - 1))) as [H|H].
  - assert (to_signed w z = z) as ->.
    { rewrite <- (to_signed_u w z Hw H) at 2. unfold to_signed. rewrite Z.mod_mod by (apply Z.pow_nonzero; lia). done. }
    lia.
  - assert (to_signed w z ≠ z); [|lia]. unfold to_signed.
    pose proof (Z.mod_pos_bound z (2 ^ w) ltac:(lia)). destruct (Z.ltb_spec (z mod 2 ^ w) (2 ^ (w - 1))); lia.
Qed.


Lemma store_short_value val z : -32768 <= val < 32768 →
  to_signed 16 (Z.lor (Z.shiftl (byte_at (store_short val ++ z) 0) 8) (byte_at (store_short val ++ z) 1)) = val.
Proof.
  intros Hv. change (byte_at (store_short val ++ z) 0) with (u8 (Z.shiftr val 8)).
  change (byte_at (store_short val ++ z) 1) with (u8 val). unfold u8.
  rewrite lor_shiftl_add, Z.shiftr_div_pow2 by (pose proof (Z.mod_pos_bound val 256); lia).
  rewrite Z.mul_comm. change (2 ^ 8) with 256. rewrite Z.add_comm, <- Z.rem_mul_r by lia.
  by apply (to_signed_u 16).
Qed.

Lemma be_to_cpu_to_be host v w : 0 <= v < 2 ^ 32 → 0 <= w < 2 ^ 64 →
  be_to_cpu_32 host (cpu_to_be_32 host v) = v ∧ 0 <= cpu_to_be_32 host v < 2 ^ 32 ∧
  be_to_cpu_64 host (cpu_to_be_64 host w) = w ∧ 0 <= cpu_to_be_64 host w < 2 ^ 64.
Proof.
  intros Hv Hw. destruct (swap_bytes 4 v Hv) as (A1 & A2 & A3). destruct (swap_bytes 8 w Hw) as (B1 & B2 & B3).
  destruct host; cbv [be_to_cpu_32 be_to_cpu_64 cpu_to_be_32 cpu_to_be_64 is_big_endian]; [|done].
  rewrite (bswap32_value v), (bswap64_value w) by lia.
  rewrite bswap32_value, bswap64_value by (exact A2 || exact B2). exact (conj A3 (conj A2 (conj B3 B2))).
Qed.

(** A column that holds the bytes [s], in binary (1) or text (0) format. *)
Definition column_holds (r : pgresult) (row col format type : Z) (s : bytes) : Prop :=
  PQfformat r col = format ∧ PQftype r col = type ∧ PQgetlength r row col = zlen s ∧
  PQgetisnull r row col = false ∧ PQgetvalue r row col = s ++ [0].

Lemma load_integer_binary host t size r row col s : column_holds r row col 1 (oid t) s → zlen s = storage t →
  load_integer host t size r row col =
    if size =? 2 then Ok (to_signed 16 (Z.lor (Z.shiftl (byte_at (s ++ [0]) 0) 8) (byte_at (s ++ [0]) 1)))
    else if size =? 4 then Ok (to_signed 32 (be_to_cpu_32 host (host_value host s)))
    else Ok (to_signed 64 (be_to_cpu_64 host (host_value host s))).
Proof.
  intros (H1 & H2 & H3 & H4 & H5) Hs. unfold load_integer, is_binary. rewrite H1, H2, H3, H4, H5, Hs.
  cbn [Z.eqb Pos.eqb mbind res_bind]. rewrite !Z.eqb_refl. cbn [negb orb andb].
  by rewrite <- Hs, ztake_app.
Qed.

(** The number [strtoll] reads from a sign and digits. *)
Definition clamp_long_long (v : Z) : Z := Z.max LLONG_MIN (Z.min LLONG_MAX v).
Lemma strtoll_number sgn ds t : is_sign sgn → ds ≠ [] → all_digits ds →
  (∀ c, head t = Some c → c_isdigit c = false) →
  let v := sign_of sgn * digit_value ds in
  strtoll (sgn ++ ds ++ t) = (clamp_long_long v, negb ((LLONG_MIN <=? v) && (v <=? LLONG_MAX))).
Proof.
  intros Hs Hne Hds Ht. destruct ds as [|d ds]; [done|]. clear Hne.
  pose proof (digit_value_nonneg _ Hds 0 ltac:(lia)) as Hnn. fold (digit_value (d :: ds)) in Hnn.
  assert (c_isdigit d = true) as Hd by (by apply Forall_cons in Hds as [? _]).
  pose proof (scan_digits_app 0 (d :: ds) t Hds Ht) as Hscan. fold (digit_value (d :: ds)) in Hscan.
  assert (skip_isspace (sgn ++ (d :: ds) ++ t) = sgn ++ (d :: ds) ++ t) as Hskip.
  { destruct Hs as [->|[->| ->]]; [|done..]. cbn [app skip_isspace]. by destruct (digit_not_ws d Hd) as [_ ->]. }
  unfold strtoll. rewrite Hskip. set (v := digit_value (d :: ds)) in *. unfold clamp_long_long.
  change LLONG_MIN with (-9223372036854775808). change LLONG_MAX with 9223372036854775807.
  destruct Hs as [->|[->| ->]]; cbn [app].
  - unfold c_isdigit in Hd. destruct (Z.eqb_spec d 43); [lia|]. destruct (Z.eqb_spec d 45); [lia|].
    cbn [app] in Hscan. rewrite Hscan. change (sign_of []) with 1. case_match; f_equal; lia.
  - cbn [app Z.eqb Pos.eqb] in *. rewrite Hscan. change (sign_of [43]) with 1. case_match; f_equal; lia.
  - cbn [app Z.eqb Pos.eqb] in *. rewrite Hscan. change (sign_of [45]) with (-1). case_match; f_equal; lia.
Qed.

(** The values of an integer type of [size] bytes. *)
Definition fits (size v : Z) : bool := (- 2 ^ (8 * size - 1) <=? v) && (v <? 2 ^ (8 * size - 1)).

Lemma clamp_fits size v : size = 2 ∨ size = 4 ∨ size = 8 →
  (clamp_long_long v =? 0) && negb ((LLONG_MIN <=? v) && (v <=? LLONG_MAX)) = false ∧
  (fits size v = true → clamp_long_long v = v) ∧
  fits size (clamp_long_long v) = (fits size v || (size =? 8)).
Proof.
  intros Hsize. unfold clamp_long_long, fits. change LLONG_MIN with (-9223372036854775808).
  change LLONG_MAX with 9223372036854775807. destruct Hsize as [->|[->| ->]]; cbn [Z.eqb Pos.eqb].
  - change (2 ^ (8 * 2 - 1)) with 32768. lia.
  - change (2 ^ (8 * 4 - 1)) with 2147483648. lia.
  - change (2 ^ (8 * 8 - 1)) with 9223372036854775808. lia.
Qed.

Lemma nonul_digits sgn ds t : is_sign sgn → all_digits ds → 0 ∉ t → until_nul ((sgn ++ ds ++ t) ++ [0]) = sgn ++ ds ++ t.
Proof.
  intros Hs Hd Ht. apply until_nul_app_nul. rewrite !Forall_app. split_and!.
  - destruct Hs as [->|[->| ->]]; by repeat constructor.
  - eapply Forall_impl; [exact Hd|]. intros c Hc ->. done.
  - apply Forall_forall. intros c Hc ->. done.
Qed.

(** A column that holds what [store] wrote is read back. *)
Lemma load_store_bool r row col b : column_holds r row col 1 (oid pg_bool) (store_bool b) → load_bool r row col = Ok b.
Proof. intros (H1 & H2 & H3 & H4 & H5). unfold load_bool, is_binary. rewrite H1, H2, H3, H4, H5. by destruct b. Qed.
Lemma load_store_short host r row col v : -2 ^ 15 <= v < 2 ^ 15 →
  column_holds r row col 1 (oid pg_short) (store_short v) → load_short host r row col = Ok v.
Proof.
  intros Hv H. unfold load_short. rewrite (load_integer_binary _ _ _ _ _ _ _ H) by done.
  cbn [Z.eqb Pos.eqb]. by rewrite store_short_value.
Qed.
Lemma load_store_int host r row col v : -2 ^ 31 <= v < 2 ^ 31 →
  column_holds r row col 1 (oid pg_int) (store_int host v) → load_int host r row col = Ok v.
Proof.
  intros Hv H. unfold load_int, store_int in *.
  rewrite (load_integer_binary _ _ _ _ _ _ _ H) by apply memory_bytes_length.
  destruct (be_to_cpu_to_be host (u32 v) 0) as (E & Hr & _); [apply Z.mod_pos_bound; lia|lia|].
  cbn [Z.eqb Pos.eqb]. rewrite host_value_memory, E by exact Hr. f_equal. by apply (to_signed_u 32).
Qed.
Lemma load_store_long_long host r row col v : -2 ^ 63 <= v < 2 ^ 63 →
  column_holds r row col 1 (oid pg_long_long) (store_long_long host v) → load_long_long host r row col = Ok v.
Proof.
  intros Hv H. unfold load_long_long, store_long_long in *.
  rewrite (load_integer_binary _ _ _ _ _ _ _ H) by apply memory_bytes_length.
  destruct (be_to_cpu_to_be host 0 (u64 v)) as (_ & _ & E & Hr); [lia|apply Z.mod_pos_bound; lia|].
  cbn [Z.eqb Pos.eqb]. rewrite host_value_memory, E by exact Hr. f_equal. by apply (to_signed_u 64).
Qed.
Lemma load_binary_text unescape r row col type s : type = oid pg_string ∨ type = oid pg_bytea →
  column_holds r row col 1 type s → load_text unescape r row col = Ok s.
Proof.
  intros Ht (H1 & H2 & H3 & H4 & H5). unfold load_text, is_binary. rewrite H1, H2, H3, H5.
  destruct Ht as [->| ->]; cbn -[ztake zlen app]; by rewrite ztake_app.
Qed.
Lemma store_bytea_value v : store_bytea v = Some v.
Proof. unfold store_bytea. destruct (Z.eqb_spec (zlen v) 0) as [Hz|]; [|done]. by rewrite (zlen_0_nil v Hz). Qed.

(** ** Properties *)

(** Binary values survive the trip through the database: what [store] puts
    into a parameter of a type, on a host of either byte order, is read back by
    [load] from a binary column of that type as the same value, for booleans, the
    three integer types over their whole range, text and byte strings. *)
Theorem pg_binary_roundtrip (host : byte_order) (PQunescapeBytea : bytes → option bytes)
    (r : pgresult) (row col : Z) :
  (∀ b, column_holds r row col 1 (oid pg_bool) (store_bool b) → load_bool r row col = Ok b) ∧
  (∀ v, -2 ^ 15 <= v < 2 ^ 15 → column_holds r row col 1 (oid pg_short) (store_short v) →
     load_short host r row col = Ok v) ∧
  (∀ v, -2 ^ 31 <= v < 2 ^ 31 → column_holds r row col 1 (oid pg_int) (store_int host v) →
     load_int host r row col = Ok v) ∧
  (∀ v, -2 ^ 63 <= v < 2 ^ 63 → column_holds r row col 1 (oid pg_long_long) (store_long_long host v) →
     load_long_long host r row col = Ok v) ∧
  (∀ s, column_holds r row col 1 (oid pg_string) (store_string s) → load_text PQunescapeBytea r row col = Ok s) ∧
  (∀ v s, store_bytea v = Some s → column_holds r row col 1 (oid pg_bytea) s →
     load_text PQunescapeBytea r row col = Ok v).
Proof.
  split_and!; intros *; eauto using load_store_bool, load_store_short, load_store_int, load_store_long_long.
  - apply load_binary_text. by left.
  - rewrite store_bytea_value. intros [= <-]. apply load_binary_text. by right.
Qed.

Definition sample_result (s : bytes) (type format : Z) : pgresult :=
  PGresult (λ _, format) (λ _, type) (λ _ _, zlen s) (λ _ _, false) (λ _ _, s ++ [0]).
Example pg_binary_roundtrip_witness :
  store_int ORDER_LITTLE_ENDIAN (-2) = [255; 255; 255; 254] ∧
  load_int ORDER_LITTLE_ENDIAN (sample_result [255; 255; 255; 254] 23 1) 0 0 = Ok (-2).
Proof.
  split; [reflexivity|].
  apply (proj1 (proj2 (proj2 (pg_binary_roundtrip ORDER_LITTLE_ENDIAN (λ _, None)
    (sample_result [255; 255; 255; 254] 23 1) 0 0)))); [done|by split_and!].
Defined.

(** Reading an integer in text form: a number (white space aside, a sign and
    digits) in the range of the C++ type is read exactly; a number out of range
    is reported for the 16-bit and 32-bit types, and for the 64-bit type it is
    silently clamped to the nearest representable value. *)
Theorem load_integer_text (host : byte_order) (t : pg_type) (size : Z) (r : pgresult) (row col type : Z)
    (sgn ds rest : bytes) :
  column_holds r row col 0 type (sgn ++ ds ++ rest) → size = 2 ∨ size = 4 ∨ size = 8 →
  is_sign sgn → ds ≠ [] → all_digits ds → 0 ∉ rest → (∀ c, head rest = Some c → c_isdigit c = false) →
  let v := sign_of sgn * digit_value ds in
  if fits size v then load_integer host t size r row col = Ok v
  else if size =? 8 then load_integer host t size r row col = Ok (clamp_long_long v)
  else ∃ msg, load_integer host t size r row col = Throw (pg_exception msg).
Proof.
  intros (H1 & H2 & H3 & H4 & H5) Hsize Hs Hne Hds H0 Hr v. unfold load_integer, is_binary.
  rewrite H1, H4, H5. cbn [Z.eqb mbind res_bind andb].
  rewrite nonul_digits, strtoll_number by done. fold v. rewrite to_signed_fits by lia.
  fold (fits size (clamp_long_long v)). destruct (clamp_fits size v Hsize) as (-> & Hv & ->). cbn [orb].
  destruct (fits size v); [by rewrite Hv|]. destruct (size =? 8); [done|by eexists].
Qed.

Example load_integer_text_witness :
  load_integer ORDER_LITTLE_ENDIAN pg_long_long 8 (sample_result (str "-99999999999999999999 ") 20 0) 0 0
    = Ok LLONG_MIN.
Proof.
  refine (load_integer_text ORDER_LITTLE_ENDIAN pg_long_long 8 (sample_result (str "-99999999999999999999 ") 20 0) 0 0 20
    (str "-") (str "99999999999999999999") (str " ") _ _ _ _ _ _ _);
    [by split_and!|auto|by right; right|done|by repeat constructor|
     by apply (bool_decide_unpack (0 ∉ str " "))|by intros c [= <-]].
Defined.

(** A value is only returned when the column matches: the format code is valid,
    the value is not NULL, a binary column has the type and the width of the C++
    type, and the value is in the range of the type. *)
Theorem load_integer_checked (host : byte_order) (t : pg_type) (size : Z) (r : pgresult) (row col v : Z) :
  load_integer host t size r row col = Ok v → size = 2 ∨ size = 4 ∨ size = 8 →
  (PQfformat r col = 0 ∨ PQfformat r col = 1 ∧ PQftype r col = oid t ∧ PQgetlength r row col = storage t) ∧
  PQgetisnull r row col = false ∧ fits size v = true.
Proof.
  unfold load_integer, is_binary. intros H Hsize.
  assert (∀ w z, w = 8 * size → fits size (to_signed w z) = true) as Hfits.
  { intros w z ->. unfold fits, to_signed. pose proof (Z.mod_pos_bound z (2 ^ (8 * size)) ltac:(lia)).
    assert (2 ^ (8 * size) = 2 * 2 ^ (8 * size - 1)) as E by (rewrite <- Z.pow_succ_r by lia; f_equal; lia).
    destruct (Z.ltb_spec (z mod 2 ^ (8 * size)) (2 ^ (8 * size - 1))); lia. }
  destruct (Z.eqb_spec (PQfformat r col) 0) as [Hf|Hf]; [|destruct (Z.eqb_spec (PQfformat r col) 1) as [Hf1|Hf1]; [|done]];
    cbn [mbind res_bind andb] in H.
  - destruct (PQgetisnull r row col); [done|]. split_and!; [by left|done|].
    destruct (strtoll _) as [llval err]. destruct ((_ && _) || negb _) eqn:E; [done|]. injection H as ->.
    apply orb_false_iff in E as [_ E]. rewrite to_signed_fits in E by lia. by apply negb_false_iff in E.
  - destruct (Z.eqb_spec (PQftype r col) (oid t)), (Z.eqb_spec (PQgetlength r row col) (storage t)); try done.
    cbn [negb orb] in H. destruct (PQgetisnull r row col); [done|]. split_and!; [by right|done|].
    destruct Hsize as [->|[->| ->]]; injection H as <-; by apply Hfits.
Qed.

Example load_integer_checked_witness :
  PQgetisnull (sample_result (str "7") 23 0) 0 0 = false ∧ fits 4 7 = true.
Proof.
  refine (proj2 (load_integer_checked ORDER_LITTLE_ENDIAN pg_int 4 (sample_result (str "7") 23 0) 0 0 7 _ _));
    [reflexivity|auto].
Defined.
