(* ===== verification/PgQuery.v ===== *)
(** * Queries (include/cxxll/pg_query.hpp, pg_response.hpp, pg_private.hpp,
    lib/cxxll/pgresult_handle.cpp, pgconn_handle.cpp, pg_exception.cpp)

    The client library of PostgreSQL, libpq, is a parameter: a record of its
    functions over a state [C] that stands for the connections, the server behind
    them and the memory of the library.  A [PGresult] is an immutable object
    ([query_result]); that it must be freed exactly once is expressed by the view
    [live] of the library state and the laws [libpq_laws].

    A function of the program that talks to the database is a computation over
    [pgst C]: the state of libpq, the connection and the [pgresult_handle] of the
    innermost scope.  [with_res] is the scope of a local variable
    [pgresult_handle res]: it starts out empty and its destructor runs however the
    scope is left.

    The overloads of [pg_query] and [pg_response], one for each number of
    arguments, are modelled one by one; [query_overloads] and [response_overloads]
    show that each is the instance of one definition on lists. *)

From S2P Require Import Prelude Binary StringSupport StringRef PgPrivate.

(** ** libpq *)

(** A query result: its identity as an allocated object, the status, the number
    of rows, the accessors of [PgPrivate.pgresult], the error message and the
    error fields ([None] is a null pointer). *)
Record query_result := QueryResult {
  r_ptr : Z;
  r_status : Z;
  r_ntuples : Z;
  r_data : pgresult;
  r_message : bytes;
  r_field : Z → option bytes
}.

(** The functions of libpq.  A null pointer is [None]; [PQgetCopyData] returns the
    buffer together with its result. *)
Class libpq (C : Type) := Libpq {
  PQconnectdb : bytes → C → option Z * C;
  PQconnectdbParams : list bytes → list (option bytes) → C → option Z * C;
  PQfinish : option Z → C → C;
  PQstatus : Z → C → Z;
  PQtransactionStatus : option Z → C → Z;
  PQerrorMessage : Z → C → bytes;
  PQexec : option Z → bytes → C → option query_result * C;
  PQexecParams : option Z → bytes → Z → option (list Z) → option (list (option bytes)) →
    option (list Z) → option (list Z) → Z → C → option query_result * C;
  PQgetResult : option Z → C → option query_result * C;
  PQclear : option query_result → C → C;
  PQputCopyData : option Z → bytes → C → Z * C;
  PQputCopyEnd : option Z → option bytes → C → Z * C;
  PQgetCopyData : option Z → C → Z * bytes * C
}.

(** The byte order, and whether the compiler knows the length of a C string. *)
Class machine := Machine { host : byte_order; constant_length : bool }.

(** [ConnStatusType], [ExecStatusType] and [PGTransactionStatusType]. *)
Definition CONNECTION_OK : Z := 0.
Definition PGRES_EMPTY_QUERY : Z := 0.
Definition PGRES_COMMAND_OK : Z := 1.
Definition PGRES_TUPLES_OK : Z := 2.
Definition PGRES_BAD_RESPONSE : Z := 5.
Definition PGRES_NONFATAL_ERROR : Z := 6.
Definition PGRES_FATAL_ERROR : Z := 7.
Definition PQTRANS_IDLE : Z := 0.
Definition PQTRANS_INTRANS : Z := 2.

(** The error fields of a result ([PG_DIAG_*] of the header: a character each). *)
Definition PG_DIAG_SEVERITY : Z := 83.
Definition PG_DIAG_SQLSTATE : Z := 67.
Definition PG_DIAG_MESSAGE_PRIMARY : Z := 77.
Definition PG_DIAG_MESSAGE_DETAIL : Z := 68.
Definition PG_DIAG_MESSAGE_HINT : Z := 72.
Definition PG_DIAG_STATEMENT_POSITION : Z := 80.
Definition PG_DIAG_INTERNAL_POSITION : Z := 112.
Definition PG_DIAG_INTERNAL_QUERY : Z := 113.
Definition PG_DIAG_CONTEXT : Z := 87.
Definition PG_DIAG_SOURCE_FILE : Z := 70.
Definition PG_DIAG_SOURCE_LINE : Z := 76.
Definition PG_DIAG_SOURCE_FUNCTION : Z := 82.

(** ** Exceptions *)

(** Source: include/cxxll/pg_exception.hpp 30-64, pg_exception. *)
Record pg_error := PgError {
  message_ : bytes;
  status_ : Z;
  severity_ : bytes;
  sqlstate_ : bytes;
  primary_ : bytes;
  detail_ : bytes;
  hint_ : bytes;
  internal_query_ : bytes;
  context_ : bytes;
  source_file_ : bytes;
  source_function_ : bytes;
  statement_position_ : Z;
  internal_position_ : Z;
  source_line_ : Z
}.

(** [sscanf (p, %d, &field)]: no digits leave the field alone.  A value that is
    not an [int] is undefined in C; glibc clamps to [long] and truncates. *)
Definition sscanf_d (p : bytes) (field : Z) : Z :=
  let t := skip_isspace p in
  let u := match t with c :: u => if (c =? 43) || (c =? 45) then u else t | [] => t end in
  match u with
  | c :: _ => if c_isdigit c then to_signed 32 (fst (strtoll p)) else field
  | [] => field
  end.

(** Source: lib/cxxll/pg_exception.cpp 27-34, set_field_string. *)
Definition set_field_string (res : query_result) (field : bytes) (code : Z) : bytes :=
  match r_field res code with Some p => p | None => field end.
(** Source: lib/cxxll/pg_exception.cpp 36-43, set_field_int. *)
Definition set_field_int (res : query_result) (field : Z) (code : Z) : Z :=
  match r_field res code with Some p => sscanf_d p field | None => field end.

(** The constructors from a C string and from a [std::string].
    Source: lib/cxxll/pg_exception.cpp 46-62, pg_exception::pg_exception. *)
Definition pg_exception_message (message : bytes) : pg_error :=
  PgError message PGRES_FATAL_ERROR (str "FATAL") (str "58000") [] [] [] [] [] [] [] (-1) (-1) (-1).

(** [PQerrorMessage] is only called on a connection.
    Source: lib/cxxll/pg_exception.cpp 64-75, pg_exception::pg_exception. *)
Definition pg_exception_conn (conn : option bytes) : pg_error :=
  let message := match conn with None => str "out of memory" | Some m => m end in
  PgError message PGRES_FATAL_ERROR (str "FATAL") (str "58000") [] [] [] [] [] [] [] (-1) (-1) (-1).

(** Source: lib/cxxll/pg_exception.cpp 77-101, pg_exception::pg_exception. *)
Definition pg_exception_result (res : option query_result) : pg_error :=
  match res with
  | None => PgError (str "out of memory") PGRES_FATAL_ERROR (str "FATAL") (str "53200")
              [] [] [] [] [] [] [] (-1) (-1) (-1)
  | Some res => {|
      status_ := r_status res;
      message_ := r_message res;
      severity_ := set_field_string res [] PG_DIAG_SEVERITY;
      sqlstate_ := set_field_string res [] PG_DIAG_SQLSTATE;
      primary_ := set_field_string res [] PG_DIAG_MESSAGE_PRIMARY;
      detail_ := set_field_string res [] PG_DIAG_MESSAGE_DETAIL;
      hint_ := set_field_string res [] PG_DIAG_MESSAGE_HINT;
      internal_query_ := set_field_string res [] PG_DIAG_INTERNAL_QUERY;
      context_ := set_field_string res [] PG_DIAG_SOURCE_FILE;
      source_file_ := set_field_string res [] PG_DIAG_SOURCE_FILE;
      source_function_ := set_field_string res [] PG_DIAG_SOURCE_FUNCTION;
      statement_position_ := set_field_int res (-1) PG_DIAG_STATEMENT_POSITION;
      internal_position_ := set_field_int res (-1) PG_DIAG_INTERNAL_POSITION;
      source_line_ := set_field_int res (-1) PG_DIAG_SOURCE_LINE
    |}
  end.

(** What a handler sees: the C string of the message.
    Source: lib/cxxll/pg_exception.cpp 107-111, pg_exception::what. *)
Definition what (e : pg_error) : bytes := until_nul (message_ e).

(** The exception object on its way. *)
Definition throw_pg (e : pg_error) : exn := pg_exception (what e).

(** The loop of [dump1], which writes a line of the message in each round; the
    output is what it returns.
    Source: lib/cxxll/pg_exception.cpp 118-131, dump1. *)
Fixpoint dump1_loop (fuel : nat) (prefix infix1 infix2 : bytes) (first : bool) (message : stringref)
    : res bytes :=
  match fuel with
  | O => Ok []
  | Datatypes.S fuel =>
      if sr_is_empty message then Ok []
      else
        let nl := sr_chr message 10 in
        line ← sr_upto message nl;
        message ← (if sr_is_empty nl then Ok nl else sr_incr nl);
        out ← dump1_loop fuel prefix infix1 infix2 false message;
        Ok (prefix ++ (if first then infix1 else infix2) ++ sr_str line ++ [10] ++ out)
  end.
(** Source: lib/cxxll/pg_exception.cpp 114-131, dump1. *)
Definition dump1 (prefix infix1 infix2 message : bytes) : res bytes :=
  dump1_loop (Datatypes.S (length message)) prefix infix1 infix2 true (sr_of_bytes message).

(** What is written to the stream; [PQresStatus] names a status.
    Source: lib/cxxll/pg_exception.cpp 134-161, dump. *)
Definition dump (PQresStatus : Z → bytes) (prefix : bytes) (e : pg_error) : res bytes :=
  m1 ← dump1 prefix [] (str "  ") (message_ e);
  m2 ← dump1 prefix (str "  message: ") (str "message2: ") (primary_ e);
  m3 ← dump1 prefix (str "  detail: ") (str "detail: ") (detail_ e);
  m4 ← dump1 prefix (str "  hint: ") (str "hint: ") (detail_ e);
  m5 ← dump1 prefix (str "  internal: ") (str "internal: ") (internal_query_ e);
  m6 ← (if bool_decide (context_ e = source_file_ e) then Ok []
        else dump1 prefix (str "  context: ") (str "context: ") (context_ e));
  Ok (m1
    ++ prefix ++ str "  status=" ++ PQresStatus (status_ e) ++ str " severity=" ++ until_nul (severity_ e)
    ++ str " sqlstate=" ++ until_nul (sqlstate_ e)
    ++ (if 0 <=? statement_position_ e then str " position=" ++ dec (statement_position_ e) ++ [10] else [10])
    ++ m2 ++ m3 ++ m4 ++ m5
    ++ (if 0 <=? internal_position_ e
        then prefix ++ str "  internal position: " ++ dec (internal_position_ e) ++ [10] else [])
    ++ m6
    ++ (if negb (zlen (source_file_ e) =? 0) && (0 <=? source_line_ e)
        then prefix ++ str "  location: " ++ until_nul (source_file_ e) ++ [58] ++ dec (source_line_ e)
          ++ (if zlen (source_function_ e) =? 0 then [] else [32]) ++ until_nul (source_function_ e) ++ [10]
        else [])).

(** ** Handles *)

(** The state of a function that talks to the database: libpq, the raw pointer
    of the [pgconn_handle] and that of the [pgresult_handle] in scope.
    Source: include/cxxll/pgresult_handle.hpp 27-31, pgresult_handle. *)
Record pgst (C : Type) := PgSt { server : C; conn : option Z; raw : option query_result }.
Arguments PgSt {C}. Arguments server {C}. Arguments conn {C}. Arguments raw {C}.

Section Handles.
Context {C : Type} `{L : libpq C}.

Definition pg := sx (pgst C).
Definition set_server (c : C) (s : pgst C) : pgst C := PgSt c (conn s) (raw s).
Definition set_raw (r : option query_result) (s : pgst C) : pgst C := PgSt (server s) (conn s) r.
Definition set_conn (c : option Z) (s : pgst C) : pgst C := PgSt (server s) c (raw s).
(** A call of libpq with the connection. *)
Definition call {A} (f : option Z → C → A * C) : pg A := λ s,
  let '(a, c) := f (conn s) (server s) in (Ok a, set_server c s).
Definition clear (r : option query_result) : pg unit := λ s, (Ok tt, set_server (PQclear r (server s)) s).

(** *** pgresult_handle *)

(** A status that the switch does not list is accepted.
    Source: lib/cxxll/pgresult_handle.cpp 26-49, do_check. *)
Definition result_do_check (raw : option query_result) : res unit :=
  match raw with
  | None => Throw (throw_pg (pg_exception_result None))
  | Some r =>
      if (r_status r =? PGRES_BAD_RESPONSE) || (r_status r =? PGRES_NONFATAL_ERROR)
         || (r_status r =? PGRES_FATAL_ERROR)
      then Throw (throw_pg (pg_exception_result (Some r)))
      else Ok tt
  end.

(** Source: include/cxxll/pgresult_handle.hpp 133-137, pgresult_handle::pgresult_handle. *)
Definition result_new : pg unit := sx_modify (set_raw None).
(** The constructor with a result.
    Source: lib/cxxll/pgresult_handle.cpp 51-60, pgresult_handle::pgresult_handle. *)
Definition result_new_from (newraw : option query_result) : pg unit :=
  sx_rethrow (sx_res (result_do_check newraw)) (λ s, snd (clear newraw s));;
  sx_modify (set_raw newraw).
(** Source: include/cxxll/pgresult_handle.hpp 139-143, pgresult_handle::~pgresult_handle. *)
Definition result_destroy : pg unit := s ← sx_get; clear (raw s).
(** Source: lib/cxxll/pgresult_handle.cpp 62-66, pgresult_handle::check. *)
Definition result_check : pg unit := s ← sx_get; sx_res (result_do_check (raw s)).
(** Source: lib/cxxll/pgresult_handle.cpp 68-79, pgresult_handle::reset. *)
Definition result_reset (newraw : option query_result) : pg unit :=
  sx_rethrow (sx_res (result_do_check newraw)) (λ s, snd (clear newraw s));;
  (s ← sx_get; clear (raw s));;
  sx_modify (set_raw newraw).
(** Source: include/cxxll/pgresult_handle.hpp 145-149, pgresult_handle::get. *)
Definition result_get : pg (option query_result) := s ← sx_get; mret (raw s).
(** Source: include/cxxll/pgresult_handle.hpp 151-157, pgresult_handle::release. *)
Definition result_release : pg (option query_result) :=
  s ← sx_get; let c := raw s in sx_modify (set_raw None);; mret c.
(** Source: include/cxxll/pgresult_handle.hpp 159-164, pgresult_handle::close. *)
Definition result_close : pg unit := (s ← sx_get; clear (raw s));; sx_modify (set_raw None).

(** The accessors of libpq on a null pointer: no rows, no error.
    Source: include/cxxll/pgresult_handle.hpp 166-170, pgresult_handle::ntuples. *)
Definition ntuples : pg Z :=
  r ← result_get; mret (match r with Some r => r_ntuples r | None => 0 end).
(** The object the accessor functions of libpq are applied to. *)
Definition no_result : pgresult := PGresult (λ _, 0) (λ _, 0) (λ _ _, 0) (λ _ _, true) (λ _ _, []).
Definition data : pg pgresult :=
  r ← result_get; mret (match r with Some r => r_data r | None => no_result end).
(** Source: include/cxxll/pgresult_handle.hpp 172-176, pgresult_handle::getvalue. *)
Definition getvalue (row column : Z) : pg bytes := d ← data; mret (PQgetvalue d row column).
(** Source: include/cxxll/pgresult_handle.hpp 178-182, pgresult_handle::getlength. *)
Definition getlength (row column : Z) : pg Z := d ← data; mret (PQgetlength d row column).
(** Source: include/cxxll/pgresult_handle.hpp 184-188, pgresult_handle::getisnull. *)
Definition getisnull (row column : Z) : pg bool := d ← data; mret (PQgetisnull d row column).
(** Source: include/cxxll/pgresult_handle.hpp 190-194, pgresult_handle::resultStatus. *)
Definition resultStatus : pg Z :=
  r ← result_get; mret (match r with Some r => r_status r | None => PGRES_FATAL_ERROR end).

(** Source: lib/cxxll/pgresult_handle.cpp 81-85, pgresult_handle::getresult. *)
Definition getresult : pg unit := r ← call PQgetResult; result_reset r.
(** Source: lib/cxxll/pgresult_handle.cpp 87-92, pgresult_handle::exec. *)
Definition exec (command : bytes) : pg unit :=
  newraw ← call (λ c, PQexec c command); result_reset newraw.
(** Source: lib/cxxll/pgresult_handle.cpp 94-108, pgresult_handle::execParamsCustom. *)
Definition execParamsCustom (command : bytes) (nParams : Z) (paramTypes : option (list Z))
    (paramValues : option (list (option bytes))) (paramLengths paramFormats : option (list Z))
    (resultFormat : Z) : pg unit :=
  newraw ← call (λ c, PQexecParams c command nParams paramTypes paramValues paramLengths paramFormats resultFormat);
  result_reset newraw.
(** Source: lib/cxxll/pgresult_handle.cpp 110-114, pgresult_handle::execBinary. *)
Definition execBinary (command : bytes) : pg unit := execParamsCustom command 0 None None None None 1.

(** The templates that take arrays.
    Source: include/cxxll/pgresult_handle.hpp 196-206, pgresult_handle::execTypedParams. *)
Definition execTypedParams (command : bytes) (types : list Z) (values : list (option bytes))
    (lengths formats : list Z) : pg unit :=
  execParamsCustom command (zlen types) (Some types) (Some values) (Some lengths) (Some formats) 0.
(** Source: include/cxxll/pgresult_handle.hpp 208-218, pgresult_handle::execTypedParamsBinary. *)
Definition execTypedParamsBinary (command : bytes) (types : list Z) (values : list (option bytes))
    (lengths formats : list Z) : pg unit :=
  execParamsCustom command (zlen types) (Some types) (Some values) (Some lengths) (Some formats) 1.
(** Source: include/cxxll/pgresult_handle.hpp 220-225, pgresult_handle::execParams. *)
Definition execParams (command : bytes) (values : list (option bytes)) : pg unit :=
  execParamsCustom command (zlen values) None (Some values) None None 0.
(** Source: include/cxxll/pgresult_handle.hpp 227-232, pgresult_handle::execParamsBinary. *)
Definition execParamsBinary (command : bytes) (values : list (option bytes)) : pg unit :=
  execParamsCustom command (zlen values) None (Some values) None None 1.

(** The scope of a local variable [pgresult_handle res]. *)
Definition with_res {A} (m : pg A) : pg A := λ s,
  let outer := raw s in
  let '(a, s) := (result_new;; m) s in
  (a, set_raw outer (snd (result_destroy s))).

(** *** pgconn_handle *)

(** Source: lib/cxxll/pgconn_handle.cpp 28-34, do_check. *)
Definition conn_do_check (raw : option Z) (c : C) : res unit :=
  match raw with
  | None => Throw (throw_pg (pg_exception_conn None))
  | Some p => if PQstatus p c =? CONNECTION_OK then Ok tt
              else Throw (throw_pg (pg_exception_conn (Some (PQerrorMessage p c))))
  end.
(** [throw pg_exception (raw)] for the connection of the handle. *)
Definition throw_conn {A} : pg A := s ← sx_get;
  sx_throw (throw_pg (pg_exception_conn (option_map (λ p, PQerrorMessage p (server s)) (conn s)))).

(** Source: lib/cxxll/pgconn_handle.cpp 36-40, pgconn_handle::pgconn_handle. *)
Definition conn_new_from (c : option Z) : pg unit :=
  (s ← sx_get; sx_res (conn_do_check c (server s)));; sx_modify (set_conn c).
(** Source: include/cxxll/pgconn_handle.hpp 109-114, pgconn_handle::close. *)
Definition conn_close : pg unit :=
  sx_modify (λ s, set_server (PQfinish (conn s) (server s)) s);; sx_modify (set_conn None).
(** Source: include/cxxll/pgconn_handle.hpp 89-93, pgconn_handle::~pgconn_handle. *)
Definition conn_destroy : pg unit := sx_modify (λ s, set_server (PQfinish (conn s) (server s)) s).
(** Source: include/cxxll/pgconn_handle.hpp 101-107, pgconn_handle::release. *)
Definition conn_release : pg (option Z) :=
  s ← sx_get; let c := conn s in sx_modify (set_conn None);; mret c.
(** Source: lib/cxxll/pgconn_handle.cpp 42-48, pgconn_handle::reset. *)
Definition conn_reset (c : option Z) : pg unit :=
  (s ← sx_get; sx_res (conn_do_check c (server s)));; conn_close;; sx_modify (set_conn c).
(** Source: include/cxxll/pgconn_handle.hpp 116-120, pgconn_handle::transactionStatus. *)
Definition transactionStatus : pg Z := s ← sx_get; mret (PQtransactionStatus (conn s) (server s)).

(** The fuel bounds the number of rounds: each takes at least a byte.
    Source: lib/cxxll/pgconn_handle.cpp 50-62, pgconn_handle::putCopyData. *)
Fixpoint putCopyData_loop (fuel : nat) (p : bytes) (len : Z) : pg unit :=
  match fuel with
  | O => mret tt
  | Datatypes.S fuel =>
      if len =? 0 then mret tt
      else
        let to_copy := Z.min len INT_MAX in
        result ← call (λ c, PQputCopyData c (ztake to_copy p));
        if result <? 0 then throw_conn
        else putCopyData_loop fuel (zdrop to_copy p) (len - to_copy)
  end.
(** Source: lib/cxxll/pgconn_handle.cpp 50-62, pgconn_handle::putCopyData. *)
Definition putCopyData (p : bytes) : pg unit := putCopyData_loop (Datatypes.S (length p)) p (zlen p).
(** Source: lib/cxxll/pgconn_handle.cpp 70-77, pgconn_handle::putCopyEndError. *)
Definition putCopyEndError (errormsg : option bytes) : pg unit :=
  result ← call (λ c, PQputCopyEnd c errormsg);
  if result <? 0 then throw_conn else mret tt.
(** Source: lib/cxxll/pgconn_handle.cpp 64-68, pgconn_handle::putCopyEnd. *)
Definition putCopyEnd : pg unit := putCopyEndError None.

(** The row and whether there is one.
    Source: lib/cxxll/pgconn_handle.cpp 79-100, pgconn_handle::getCopyData. *)
Definition getCopyData : pg (bytes * bool) :=
  ret ← call (λ c s, let '(n, buffer, s) := PQgetCopyData c s in ((n, buffer), s));
  let '(n, buffer) := ret in
  if n =? 0 then sx_throw (pg_exception (str "unexpected async result from PQgetCopyData"))
  else if n =? -1 then with_res getresult;; mret ([], false)
  else if n =? -2 then throw_conn
  else mret (ztake n buffer, true).

End Handles.
#[global] Arguments pg C : clear implicits.

(** ** Parameters of any type *)

(** A value of one of the types of [dispatch]; a null [const char] pointer is
    [None]. *)
Inductive pg_value :=
| v_bool (b : bool)
| v_short (z : Z)
| v_int (z : Z)
| v_long_long (z : Z)
| v_cstring (s : option bytes)
| v_string (s : bytes)
| v_bytea (s : bytes).

(** An argument of [pg_query]: a value, or a pointer to one, possibly null. *)
Inductive pg_arg :=
| by_value (v : pg_value)
| by_pointer (t : pg_type) (p : option pg_value).

Definition value_type (v : pg_value) : pg_type :=
  match v with
  | v_bool _ => pg_bool | v_short _ => pg_short | v_int _ => pg_int | v_long_long _ => pg_long_long
  | v_cstring _ => pg_cstring | v_string _ => pg_string | v_bytea _ => pg_bytea
  end.

Section Arguments_.
Context `{M : machine}.

(** The selection of [dispatch] for a value. *)
Definition value_store (v : pg_value) : option bytes :=
  match v with
  | v_bool b => Some (store_bool b)
  | v_short z => Some (store_short z)
  | v_int z => Some (store_int host z)
  | v_long_long z => Some (store_long_long host z)
  | v_cstring s => store_cstring s
  | v_string s => Some (store_string s)
  | v_bytea s => store_bytea s
  end.
Definition value_length (v : pg_value) : res Z :=
  match v with
  | v_cstring s => length_cstring constant_length s
  | v_string s => length_string s
  | v_bytea s => length_bytea s
  | v => Ok (storage (value_type v))
  end.

(** The members of [dispatch] for the type of the argument.
    Source: include/cxxll/pg_private.hpp 128-135, dispatch. *)
Definition arg_oid (a : pg_arg) : Z :=
  match a with by_value v => oid (value_type v) | by_pointer t _ => oid t end.
(** Source: include/cxxll/pg_private.hpp 209-217, dispatch::store. *)
Definition arg_store (a : pg_arg) : option bytes :=
  match a with
  | by_value v => value_store v
  | by_pointer _ (Some v) => value_store v
  | by_pointer _ None => None
  end.
Definition arg_length_ (a : pg_arg) : res Z :=
  match a with by_value v => value_length v | by_pointer _ p => length_pointer value_length p end.

(** ** Queries *)

Context {C : Type} `{L : libpq C}.
Local Abbreviation pg := (pg C).

Definition arg_length (a : pg_arg) : pg Z := sx_res (arg_length_ a).

(** Source: include/cxxll/pg_query.hpp 29-48, pg_private::pg_query. *)
Definition private_pg_query_1 (fmt : Z) (sql : bytes) (t1 : pg_arg) : pg unit :=
  let paramTypes := [arg_oid t1] in
  let paramValues := [arg_store t1] in
  l1 ← arg_length t1;
  let paramLengths := [l1] in
  let paramFormats := [1] in
  execParamsCustom sql 1 (Some paramTypes) (Some paramValues) (Some paramLengths) (Some paramFormats) fmt.

(** Source: include/cxxll/pg_query.hpp 50-74, pg_private::pg_query. *)
Definition private_pg_query_2 (fmt : Z) (sql : bytes) (t1 t2 : pg_arg) : pg unit :=
  let paramTypes := [arg_oid t1; arg_oid t2] in
  let paramValues := [arg_store t1; arg_store t2] in
  l1 ← arg_length t1; l2 ← arg_length t2;
  let paramLengths := [l1; l2] in
  let paramFormats := [1; 1] in
  execParamsCustom sql 2 (Some paramTypes) (Some paramValues) (Some paramLengths) (Some paramFormats) fmt.

(** Source: include/cxxll/pg_query.hpp 76-106, pg_private::pg_query. *)
Definition private_pg_query_3 (fmt : Z) (sql : bytes) (t1 t2 t3 : pg_arg) : pg unit :=
  let paramTypes := [arg_oid t1; arg_oid t2; arg_oid t3] in
  let paramValues := [arg_store t1; arg_store t2; arg_store t3] in
  l1 ← arg_length t1; l2 ← arg_length t2; l3 ← arg_length t3;
  let paramLengths := [l1; l2; l3] in
  let paramFormats := [1; 1; 1] in
  execParamsCustom sql 3 (Some paramTypes) (Some paramValues) (Some paramLengths) (Some paramFormats) fmt.

(** Source: include/cxxll/pg_query.hpp 108-143, pg_private::pg_query. *)
Definition private_pg_query_4 (fmt : Z) (sql : bytes) (t1 t2 t3 t4 : pg_arg) : pg unit :=
  let paramTypes := [arg_oid t1; arg_oid t2; arg_oid t3; arg_oid t4] in
  let paramValues := [arg_store t1; arg_store t2; arg_store t3; arg_store t4] in
  l1 ← arg_length t1; l2 ← arg_length t2; l3 ← arg_length t3; l4 ← arg_length t4;
  let paramLengths := [l1; l2; l3; l4] in
  let paramFormats := [1; 1; 1; 1] in
  execParamsCustom sql 4 (Some paramTypes) (Some paramValues) (Some paramLengths) (Some paramFormats) fmt.

(** Source: include/cxxll/pg_query.hpp 145-186, pg_private::pg_query. *)
Definition private_pg_query_5 (fmt : Z) (sql : bytes) (t1 t2 t3 t4 t5 : pg_arg) : pg unit :=
  let paramTypes := [arg_oid t1; arg_oid t2; arg_oid t3; arg_oid t4; arg_oid t5] in
  let paramValues := [arg_store t1; arg_store t2; arg_store t3; arg_store t4; arg_store t5] in
  l1 ← arg_length t1; l2 ← arg_length t2; l3 ← arg_length t3; l4 ← arg_length t4; l5 ← arg_length t5;
  let paramLengths := [l1; l2; l3; l4; l5] in
  let paramFormats := [1; 1; 1; 1; 1] in
  execParamsCustom sql 5 (Some paramTypes) (Some paramValues) (Some paramLengths) (Some paramFormats) fmt.

(** Source: include/cxxll/pg_query.hpp 188-235, pg_private::pg_query. *)
Definition private_pg_query_6 (fmt : Z) (sql : bytes) (t1 t2 t3 t4 t5 t6 : pg_arg) : pg unit :=
  let paramTypes := [arg_oid t1; arg_oid t2; arg_oid t3; arg_oid t4; arg_oid t5; arg_oid t6] in
  let paramValues := [arg_store t1; arg_store t2; arg_store t3; arg_store t4; arg_store t5;
    arg_store t6] in
  l1 ← arg_length t1; l2 ← arg_length t2; l3 ← arg_length t3; l4 ← arg_length t4; l5 ← arg_length t5;
  l6 ← arg_length t6;
  let paramLengths := [l1; l2; l3; l4; l5; l6] in
  let paramFormats := [1; 1; 1; 1; 1; 1] in
  execParamsCustom sql 6 (Some paramTypes) (Some paramValues) (Some paramLengths) (Some paramFormats) fmt.

(** Source: include/cxxll/pg_query.hpp 237-290, pg_private::pg_query. *)
Definition private_pg_query_7 (fmt : Z) (sql : bytes) (t1 t2 t3 t4 t5 t6 t7 : pg_arg) : pg unit :=
  let paramTypes := [arg_oid t1; arg_oid t2; arg_oid t3; arg_oid t4; arg_oid t5; arg_oid t6;
    arg_oid t7] in
  let paramValues := [arg_store t1; arg_store t2; arg_store t3; arg_store t4; arg_store t5;
    arg_store t6; arg_store t7] in
  l1 ← arg_length t1; l2 ← arg_length t2; l3 ← arg_length t3; l4 ← arg_length t4; l5 ← arg_length t5;
  l6 ← arg_length t6; l7 ← arg_length t7;
  let paramLengths := [l1; l2; l3; l4; l5; l6; l7] in
  let paramFormats := [1; 1; 1; 1; 1; 1; 1] in
  execParamsCustom sql 7 (Some paramTypes) (Some paramValues) (Some paramLengths) (Some paramFormats) fmt.

(** Source: include/cxxll/pg_query.hpp 292-350, pg_private::pg_query. *)
Definition private_pg_query_8 (fmt : Z) (sql : bytes) (t1 t2 t3 t4 t5 t6 t7 t8 : pg_arg) : pg unit :=
  let paramTypes := [arg_oid t1; arg_oid t2; arg_oid t3; arg_oid t4; arg_oid t5; arg_oid t6; arg_oid t7;
    arg_oid t8] in
  let paramValues := [arg_store t1; arg_store t2; arg_store t3; arg_store t4; arg_store t5;
    arg_store t6; arg_store t7; arg_store t8] in
  l1 ← arg_length t1; l2 ← arg_length t2; l3 ← arg_length t3; l4 ← arg_length t4; l5 ← arg_length t5;
  l6 ← arg_length t6; l7 ← arg_length t7; l8 ← arg_length t8;
  let paramLengths := [l1; l2; l3; l4; l5; l6; l7; l8] in
  let paramFormats := [1; 1; 1; 1; 1; 1; 1; 1] in
  execParamsCustom sql 8 (Some paramTypes) (Some paramValues) (Some paramLengths) (Some paramFormats) fmt.

(** Source: include/cxxll/pg_query.hpp 352-416, pg_private::pg_query. *)
Definition private_pg_query_9 (fmt : Z) (sql : bytes) (t1 t2 t3 t4 t5 t6 t7 t8 t9 : pg_arg) : pg unit :=
  let paramTypes := [arg_oid t1; arg_oid t2; arg_oid t3; arg_oid t4; arg_oid t5; arg_oid t6; arg_oid t7;
    arg_oid t8; arg_oid t9] in
  let paramValues := [arg_store t1; arg_store t2; arg_store t3; arg_store t4; arg_store t5;
    arg_store t6; arg_store t7; arg_store t8; arg_store t9] in
  l1 ← arg_length t1; l2 ← arg_length t2; l3 ← arg_length t3; l4 ← arg_length t4; l5 ← arg_length t5;
  l6 ← arg_length t6; l7 ← arg_length t7; l8 ← arg_length t8; l9 ← arg_length t9;
  let paramLengths := [l1; l2; l3; l4; l5; l6; l7; l8; l9] in
  let paramFormats := [1; 1; 1; 1; 1; 1; 1; 1; 1] in
  execParamsCustom sql 9 (Some paramTypes) (Some paramValues) (Some paramLengths) (Some paramFormats) fmt.

(** Source: include/cxxll/pg_query.hpp 418-487, pg_private::pg_query. *)
Definition private_pg_query_10 (fmt : Z) (sql : bytes) (t1 t2 t3 t4 t5 t6 t7 t8 t9 t10 : pg_arg) : pg unit :=
  let paramTypes := [arg_oid t1; arg_oid t2; arg_oid t3; arg_oid t4; arg_oid t5; arg_oid t6; arg_oid t7;
    arg_oid t8; arg_oid t9; arg_oid t10] in
  let paramValues := [arg_store t1; arg_store t2; arg_store t3; arg_store t4; arg_store t5;
    arg_store t6; arg_store t7; arg_store t8; arg_store t9; arg_store t10] in
  l1 ← arg_length t1; l2 ← arg_length t2; l3 ← arg_length t3; l4 ← arg_length t4; l5 ← arg_length t5;
  l6 ← arg_length t6; l7 ← arg_length t7; l8 ← arg_length t8; l9 ← arg_length t9; l10 ← arg_length t10;
  let paramLengths := [l1; l2; l3; l4; l5; l6; l7; l8; l9; l10] in
  let paramFormats := [1; 1; 1; 1; 1; 1; 1; 1; 1; 1] in
  execParamsCustom sql 10 (Some paramTypes) (Some paramValues) (Some paramLengths) (Some paramFormats) fmt.

(** Source: include/cxxll/pg_query.hpp 489-564, pg_private::pg_query. *)
Definition private_pg_query_11 (fmt : Z) (sql : bytes) (t1 t2 t3 t4 t5 t6 t7 t8 t9 t10 t11 : pg_arg) : pg unit :=
  let paramTypes := [arg_oid t1; arg_oid t2; arg_oid t3; arg_oid t4; arg_oid t5; arg_oid t6; arg_oid t7;
    arg_oid t8; arg_oid t9; arg_oid t10; arg_oid t11] in
  let paramValues := [arg_store t1; arg_store t2; arg_store t3; arg_store t4; arg_store t5;
    arg_store t6; arg_store t7; arg_store t8; arg_store t9; arg_store t10; arg_store t11] in
  l1 ← arg_length t1; l2 ← arg_length t2; l3 ← arg_length t3; l4 ← arg_length t4; l5 ← arg_length t5;
  l6 ← arg_length t6; l7 ← arg_length t7; l8 ← arg_length t8; l9 ← arg_length t9; l10 ← arg_length t10;
  l11 ← arg_length t11;
  let paramLengths := [l1; l2; l3; l4; l5; l6; l7; l8; l9; l10; l11] in
  let paramFormats := [1; 1; 1; 1; 1; 1; 1; 1; 1; 1; 1] in
  execParamsCustom sql 11 (Some paramTypes) (Some paramValues) (Some paramLengths) (Some paramFormats) fmt.

(** Source: include/cxxll/pg_query.hpp 566-646, pg_private::pg_query. *)
Definition private_pg_query_12 (fmt : Z) (sql : bytes) (t1 t2 t3 t4 t5 t6 t7 t8 t9 t10 t11 t12 : pg_arg) : pg unit :=
  let paramTypes := [arg_oid t1; arg_oid t2; arg_oid t3; arg_oid t4; arg_oid t5; arg_oid t6; arg_oid t7;
    arg_oid t8; arg_oid t9; arg_oid t10; arg_oid t11; arg_oid t12] in
  let paramValues := [arg_store t1; arg_store t2; arg_store t3; arg_store t4; arg_store t5;
    arg_store t6; arg_store t7; arg_store t8; arg_store t9; arg_store t10; arg_store t11;
    arg_store t12] in
  l1 ← arg_length t1; l2 ← arg_length t2; l3 ← arg_length t3; l4 ← arg_length t4; l5 ← arg_length t5;
  l6 ← arg_length t6; l7 ← arg_length t7; l8 ← arg_length t8; l9 ← arg_length t9; l10 ← arg_length t10;
  l11 ← arg_length t11; l12 ← arg_length t12;
  let paramLengths := [l1; l2; l3; l4; l5; l6; l7; l8; l9; l10; l11; l12] in
  let paramFormats := [1; 1; 1; 1; 1; 1; 1; 1; 1; 1; 1; 1] in
  execParamsCustom sql 12 (Some paramTypes) (Some paramValues) (Some paramLengths) (Some paramFormats) fmt.

(** Source: include/cxxll/pg_query.hpp 648-735, pg_private::pg_query. *)
Definition private_pg_query_13 (fmt : Z) (sql : bytes) (t1 t2 t3 t4 t5 t6 t7 t8 t9 t10 t11 t12 t13 : pg_arg) : pg unit :=
  let paramTypes := [arg_oid t1; arg_oid t2; arg_oid t3; arg_oid t4; arg_oid t5; arg_oid t6; arg_oid t7;
    arg_oid t8; arg_oid t9; arg_oid t10; arg_oid t11; arg_oid t12; arg_oid t13] in
  let paramValues := [arg_store t1; arg_store t2; arg_store t3; arg_store t4; arg_store t5;
    arg_store t6; arg_store t7; arg_store t8; arg_store t9; arg_store t10; arg_store t11; arg_store t12;
    arg_store t13] in
  l1 ← arg_length t1; l2 ← arg_length t2; l3 ← arg_length t3; l4 ← arg_length t4; l5 ← arg_length t5;
  l6 ← arg_length t6; l7 ← arg_length t7; l8 ← arg_length t8; l9 ← arg_length t9; l10 ← arg_length t10;
  l11 ← arg_length t11; l12 ← arg_length t12; l13 ← arg_length t13;
  let paramLengths := [l1; l2; l3; l4; l5; l6; l7; l8; l9; l10; l11; l12; l13] in
  let paramFormats := [1; 1; 1; 1; 1; 1; 1; 1; 1; 1; 1; 1; 1] in
  execParamsCustom sql 13 (Some paramTypes) (Some paramValues) (Some paramLengths) (Some paramFormats) fmt.

(** Source: include/cxxll/pg_query.hpp 737-829, pg_private::pg_query. *)
Definition private_pg_query_14 (fmt : Z) (sql : bytes) (t1 t2 t3 t4 t5 t6 t7 t8 t9 t10 t11 t12 t13 t14 : pg_arg) : pg unit :=
  let paramTypes := [arg_oid t1; arg_oid t2; arg_oid t3; arg_oid t4; arg_oid t5; arg_oid t6; arg_oid t7;
    arg_oid t8; arg_oid t9; arg_oid t10; arg_oid t11; arg_oid t12; arg_oid t13; arg_oid t14] in
  let paramValues := [arg_store t1; arg_store t2; arg_store t3; arg_store t4; arg_store t5;
    arg_store t6; arg_store t7; arg_store t8; arg_store t9; arg_store t10; arg_store t11; arg_store t12;
    arg_store t13; arg_store t14] in
  l1 ← arg_length t1; l2 ← arg_length t2; l3 ← arg_length t3; l4 ← arg_length t4; l5 ← arg_length t5;
  l6 ← arg_length t6; l7 ← arg_length t7; l8 ← arg_length t8; l9 ← arg_length t9; l10 ← arg_length t10;
  l11 ← arg_length t11; l12 ← arg_length t12; l13 ← arg_length t13; l14 ← arg_length t14;
  let paramLengths := [l1; l2; l3; l4; l5; l6; l7; l8; l9; l10; l11; l12; l13; l14] in
  let paramFormats := [1; 1; 1; 1; 1; 1; 1; 1; 1; 1; 1; 1; 1; 1] in
  execParamsCustom sql 14 (Some paramTypes) (Some paramValues) (Some paramLengths) (Some paramFormats) fmt.

(** Source: include/cxxll/pg_query.hpp 831-929, pg_private::pg_query. *)
Definition private_pg_query_15 (fmt : Z) (sql : bytes) (t1 t2 t3 t4 t5 t6 t7 t8 t9 t10 t11 t12 t13 t14 t15 : pg_arg) : pg unit :=
  let paramTypes := [arg_oid t1; arg_oid t2; arg_oid t3; arg_oid t4; arg_oid t5; arg_oid t6; arg_oid t7;
    arg_oid t8; arg_oid t9; arg_oid t10; arg_oid t11; arg_oid t12; arg_oid t13; arg_oid t14;
    arg_oid t15] in
  let paramValues := [arg_store t1; arg_store t2; arg_store t3; arg_store t4; arg_store t5;
    arg_store t6; arg_store t7; arg_store t8; arg_store t9; arg_store t10; arg_store t11; arg_store t12;
    arg_store t13; arg_store t14; arg_store t15] in
  l1 ← arg_length t1; l2 ← arg_length t2; l3 ← arg_length t3; l4 ← arg_length t4; l5 ← arg_length t5;
  l6 ← arg_length t6; l7 ← arg_length t7; l8 ← arg_length t8; l9 ← arg_length t9; l10 ← arg_length t10;
  l11 ← arg_length t11; l12 ← arg_length t12; l13 ← arg_length t13; l14 ← arg_length t14;
  l15 ← arg_length t15;
  let paramLengths := [l1; l2; l3; l4; l5; l6; l7; l8; l9; l10; l11; l12; l13; l14; l15] in
  let paramFormats := [1; 1; 1; 1; 1; 1; 1; 1; 1; 1; 1; 1; 1; 1; 1] in
  execParamsCustom sql 15 (Some paramTypes) (Some paramValues) (Some paramLengths) (Some paramFormats) fmt.

(** Source: include/cxxll/pg_query.hpp 933-938, pg_query. *)
Definition pg_query_1 (sql : bytes) (t1 : pg_arg) : pg unit :=
  private_pg_query_1 0 sql t1.
(** Source: include/cxxll/pg_query.hpp 940-946, pg_query_binary. *)
Definition pg_query_binary_1 (sql : bytes) (t1 : pg_arg) : pg unit :=
  private_pg_query_1 1 sql t1.

(** Source: include/cxxll/pg_query.hpp 948-953, pg_query. *)
Definition pg_query_2 (sql : bytes) (t1 t2 : pg_arg) : pg unit :=
  private_pg_query_2 0 sql t1 t2.
(** Source: include/cxxll/pg_query.hpp 955-961, pg_query_binary. *)
Definition pg_query_binary_2 (sql : bytes) (t1 t2 : pg_arg) : pg unit :=
  private_pg_query_2 1 sql t1 t2.

(** Source: include/cxxll/pg_query.hpp 963-968, pg_query. *)
Definition pg_query_3 (sql : bytes) (t1 t2 t3 : pg_arg) : pg unit :=
  private_pg_query_3 0 sql t1 t2 t3.
(** Source: include/cxxll/pg_query.hpp 970-976, pg_query_binary. *)
Definition pg_query_binary_3 (sql : bytes) (t1 t2 t3 : pg_arg) : pg unit :=
  private_pg_query_3 1 sql t1 t2 t3.

(** Source: include/cxxll/pg_query.hpp 978-984, pg_query. *)
Definition pg_query_4 (sql : bytes) (t1 t2 t3 t4 : pg_arg) : pg unit :=
  private_pg_query_4 0 sql t1 t2 t3 t4.
(** Source: include/cxxll/pg_query.hpp 986-993, pg_query_binary. *)
Definition pg_query_binary_4 (sql : bytes) (t1 t2 t3 t4 : pg_arg) : pg unit :=
  private_pg_query_4 1 sql t1 t2 t3 t4.

(** Source: include/cxxll/pg_query.hpp 995-1002, pg_query. *)
Definition pg_query_5 (sql : bytes) (t1 t2 t3 t4 t5 : pg_arg) : pg unit :=
  private_pg_query_5 0 sql t1 t2 t3 t4 t5.
(** Source: include/cxxll/pg_query.hpp 1004-1012, pg_query_binary. *)
Definition pg_query_binary_5 (sql : bytes) (t1 t2 t3 t4 t5 : pg_arg) : pg unit :=
  private_pg_query_5 1 sql t1 t2 t3 t4 t5.

(** Source: include/cxxll/pg_query.hpp 1014-1022, pg_query. *)
Definition pg_query_6 (sql : bytes) (t1 t2 t3 t4 t5 t6 : pg_arg) : pg unit :=
  private_pg_query_6 0 sql t1 t2 t3 t4 t5 t6.
(** Source: include/cxxll/pg_query.hpp 1024-1032, pg_query_binary. *)
Definition pg_query_binary_6 (sql : bytes) (t1 t2 t3 t4 t5 t6 : pg_arg) : pg unit :=
  private_pg_query_6 1 sql t1 t2 t3 t4 t5 t6.

(** Source: include/cxxll/pg_query.hpp 1034-1042, pg_query. *)
Definition pg_query_7 (sql : bytes) (t1 t2 t3 t4 t5 t6 t7 : pg_arg) : pg unit :=
  private_pg_query_7 0 sql t1 t2 t3 t4 t5 t6 t7.
(** Source: include/cxxll/pg_query.hpp 1044-1052, pg_query_binary. *)
Definition pg_query_binary_7 (sql : bytes) (t1 t2 t3 t4 t5 t6 t7 : pg_arg) : pg unit :=
  private_pg_query_7 1 sql t1 t2 t3 t4 t5 t6 t7.

(** Source: include/cxxll/pg_query.hpp 1054-1062, pg_query. *)
Definition pg_query_8 (sql : bytes) (t1 t2 t3 t4 t5 t6 t7 t8 : pg_arg) : pg unit :=
  private_pg_query_8 0 sql t1 t2 t3 t4 t5 t6 t7 t8.
(** Source: include/cxxll/pg_query.hpp 1064-1072, pg_query_binary. *)
Definition pg_query_binary_8 (sql : bytes) (t1 t2 t3 t4 t5 t6 t7 t8 : pg_arg) : pg unit :=
  private_pg_query_8 1 sql t1 t2 t3 t4 t5 t6 t7 t8.

(** Source: include/cxxll/pg_query.hpp 1074-1083, pg_query. *)
Definition pg_query_9 (sql : bytes) (t1 t2 t3 t4 t5 t6 t7 t8 t9 : pg_arg) : pg unit :=
  private_pg_query_9 0 sql t1 t2 t3 t4 t5 t6 t7 t8 t9.
(** Source: include/cxxll/pg_query.hpp 1085-1094, pg_query_binary. *)
Definition pg_query_binary_9 (sql : bytes) (t1 t2 t3 t4 t5 t6 t7 t8 t9 : pg_arg) : pg unit :=
  private_pg_query_9 1 sql t1 t2 t3 t4 t5 t6 t7 t8 t9.

(** Source: include/cxxll/pg_query.hpp 1096-1105, pg_query. *)
Definition pg_query_10 (sql : bytes) (t1 t2 t3 t4 t5 t6 t7 t8 t9 t10 : pg_arg) : pg unit :=
  private_pg_query_10 0 sql t1 t2 t3 t4 t5 t6 t7 t8 t9 t10.
(** Source: include/cxxll/pg_query.hpp 1107-1116, pg_query_binary. *)
Definition pg_query_binary_10 (sql : bytes) (t1 t2 t3 t4 t5 t6 t7 t8 t9 t10 : pg_arg) : pg unit :=
  private_pg_query_10 1 sql t1 t2 t3 t4 t5 t6 t7 t8 t9 t10.

(** Source: include/cxxll/pg_query.hpp 1118-1127, pg_query. *)
Definition pg_query_11 (sql : bytes) (t1 t2 t3 t4 t5 t6 t7 t8 t9 t10 t11 : pg_arg) : pg unit :=
  private_pg_query_11 0 sql t1 t2 t3 t4 t5 t6 t7 t8 t9 t10 t11.
(** Source: include/cxxll/pg_query.hpp 1129-1138, pg_query_binary. *)
Definition pg_query_binary_11 (sql : bytes) (t1 t2 t3 t4 t5 t6 t7 t8 t9 t10 t11 : pg_arg) : pg unit :=
  private_pg_query_11 1 sql t1 t2 t3 t4 t5 t6 t7 t8 t9 t10 t11.

(** Source: include/cxxll/pg_query.hpp 1140-1151, pg_query. *)
Definition pg_query_12 (sql : bytes) (t1 t2 t3 t4 t5 t6 t7 t8 t9 t10 t11 t12 : pg_arg) : pg unit :=
  private_pg_query_12 0 sql t1 t2 t3 t4 t5 t6 t7 t8 t9 t10 t11 t12.
(** Source: include/cxxll/pg_query.hpp 1153-1164, pg_query_binary. *)
Definition pg_query_binary_12 (sql : bytes) (t1 t2 t3 t4 t5 t6 t7 t8 t9 t10 t11 t12 : pg_arg) : pg unit :=
  private_pg_query_12 1 sql t1 t2 t3 t4 t5 t6 t7 t8 t9 t10 t11 t12.

(** Source: include/cxxll/pg_query.hpp 1166-1179, pg_query. *)
Definition pg_query_13 (sql : bytes) (t1 t2 t3 t4 t5 t6 t7 t8 t9 t10 t11 t12 t13 : pg_arg) : pg unit :=
  private_pg_query_13 0 sql t1 t2 t3 t4 t5 t6 t7 t8 t9 t10 t11 t12 t13.
(** Source: include/cxxll/pg_query.hpp 1181-1194, pg_query_binary. *)
Definition pg_query_binary_13 (sql : bytes) (t1 t2 t3 t4 t5 t6 t7 t8 t9 t10 t11 t12 t13 : pg_arg) : pg unit :=
  private_pg_query_13 1 sql t1 t2 t3 t4 t5 t6 t7 t8 t9 t10 t11 t12 t13.

(** Source: include/cxxll/pg_query.hpp 1196-1209, pg_query. *)
Definition pg_query_14 (sql : bytes) (t1 t2 t3 t4 t5 t6 t7 t8 t9 t10 t11 t12 t13 t14 : pg_arg) : pg unit :=
  private_pg_query_14 0 sql t1 t2 t3 t4 t5 t6 t7 t8 t9 t10 t11 t12 t13 t14.
(** Source: include/cxxll/pg_query.hpp 1211-1224, pg_query_binary. *)
Definition pg_query_binary_14 (sql : bytes) (t1 t2 t3 t4 t5 t6 t7 t8 t9 t10 t11 t12 t13 t14 : pg_arg) : pg unit :=
  private_pg_query_14 1 sql t1 t2 t3 t4 t5 t6 t7 t8 t9 t10 t11 t12 t13 t14.

(** Source: include/cxxll/pg_query.hpp 1226-1239, pg_query. *)
Definition pg_query_15 (sql : bytes) (t1 t2 t3 t4 t5 t6 t7 t8 t9 t10 t11 t12 t13 t14 t15 : pg_arg) : pg unit :=
  private_pg_query_15 0 sql t1 t2 t3 t4 t5 t6 t7 t8 t9 t10 t11 t12 t13 t14 t15.
(** Source: include/cxxll/pg_query.hpp 1241-1254, pg_query_binary. *)
Definition pg_query_binary_15 (sql : bytes) (t1 t2 t3 t4 t5 t6 t7 t8 t9 t10 t11 t12 t13 t14 t15 : pg_arg) : pg unit :=
  private_pg_query_15 1 sql t1 t2 t3 t4 t5 t6 t7 t8 t9 t10 t11 t12 t13 t14 t15.

(** ** Responses *)

(** The selection of [load] for a type. *)
Definition loader (A : Type) : Type := pgresult → Z → Z → res A.

(** [load] into an object that a setter replaces in the state. *)
Definition load_into {A S} (l : loader A) (r : pgresult) (row col : Z) (set : A → S → S) : sx S unit :=
  v ← sx_res (l r row col); sx_modify (set v).

(** Source: include/cxxll/pg_response.hpp 26-31, pg_response. *)
Definition pg_response_1 {A1} (l1 : loader A1) (r : pgresult) (row : Z)
    : sx A1 unit :=
  load_into l1 r row 0 (λ v _, v).

(** Source: include/cxxll/pg_response.hpp 33-39, pg_response. *)
Definition pg_response_2 {A1 A2} (l1 : loader A1) (l2 : loader A2) (r : pgresult) (row : Z)
    : sx (A1 * A2) unit :=
  load_into l1 r row 0 (λ v '(_, t2), (v, t2));;
  load_into l2 r row 1 (λ v '(t1, _), (t1, v)).

(** Source: include/cxxll/pg_response.hpp 41-48, pg_response. *)
Definition pg_response_3 {A1 A2 A3} (l1 : loader A1) (l2 : loader A2)
    (l3 : loader A3) (r : pgresult) (row : Z)
    : sx (A1 * A2 * A3) unit :=
  load_into l1 r row 0 (λ v '(_, t2, t3), (v, t2, t3));;
  load_into l2 r row 1 (λ v '(t1, _, t3), (t1, v, t3));;
  load_into l3 r row 2 (λ v '(t1, t2, _), (t1, t2, v)).

(** Source: include/cxxll/pg_response.hpp 50-58, pg_response. *)
Definition pg_response_4 {A1 A2 A3 A4} (l1 : loader A1) (l2 : loader A2) (l3 : loader A3)
    (l4 : loader A4) (r : pgresult) (row : Z)
    : sx (A1 * A2 * A3 * A4) unit :=
  load_into l1 r row 0 (λ v '(_, t2, t3, t4), (v, t2, t3, t4));;
  load_into l2 r row 1 (λ v '(t1, _, t3, t4), (t1, v, t3, t4));;
  load_into l3 r row 2 (λ v '(t1, t2, _, t4), (t1, t2, v, t4));;
  load_into l4 r row 3 (λ v '(t1, t2, t3, _), (t1, t2, t3, v)).

(** Source: include/cxxll/pg_response.hpp 60-70, pg_response. *)
Definition pg_response_5 {A1 A2 A3 A4 A5} (l1 : loader A1) (l2 : loader A2) (l3 : loader A3)
    (l4 : loader A4) (l5 : loader A5) (r : pgresult) (row : Z)
    : sx (A1 * A2 * A3 * A4 * A5) unit :=
  load_into l1 r row 0 (λ v '(_, t2, t3, t4, t5), (v, t2, t3, t4, t5));;
  load_into l2 r row 1 (λ v '(t1, _, t3, t4, t5), (t1, v, t3, t4, t5));;
  load_into l3 r row 2 (λ v '(t1, t2, _, t4, t5), (t1, t2, v, t4, t5));;
  load_into l4 r row 3 (λ v '(t1, t2, t3, _, t5), (t1, t2, t3, v, t5));;
  load_into l5 r row 4 (λ v '(t1, t2, t3, t4, _), (t1, t2, t3, t4, v)).

(** Source: include/cxxll/pg_response.hpp 72-84, pg_response. *)
Definition pg_response_6 {A1 A2 A3 A4 A5 A6} (l1 : loader A1) (l2 : loader A2) (l3 : loader A3)
    (l4 : loader A4) (l5 : loader A5) (l6 : loader A6) (r : pgresult) (row : Z)
    : sx (A1 * A2 * A3 * A4 * A5 * A6) unit :=
  load_into l1 r row 0 (λ v '(_, t2, t3, t4, t5, t6), (v, t2, t3, t4, t5, t6));;
  load_into l2 r row 1 (λ v '(t1, _, t3, t4, t5, t6), (t1, v, t3, t4, t5, t6));;
  load_into l3 r row 2 (λ v '(t1, t2, _, t4, t5, t6), (t1, t2, v, t4, t5, t6));;
  load_into l4 r row 3 (λ v '(t1, t2, t3, _, t5, t6), (t1, t2, t3, v, t5, t6));;
  load_into l5 r row 4 (λ v '(t1, t2, t3, t4, _, t6), (t1, t2, t3, t4, v, t6));;
  load_into l6 r row 5 (λ v '(t1, t2, t3, t4, t5, _), (t1, t2, t3, t4, t5, v)).

(** Source: include/cxxll/pg_response.hpp 86-99, pg_response. *)
Definition pg_response_7 {A1 A2 A3 A4 A5 A6 A7} (l1 : loader A1) (l2 : loader A2) (l3 : loader A3)
    (l4 : loader A4) (l5 : loader A5) (l6 : loader A6) (l7 : loader A7) (r : pgresult) (row : Z)
    : sx (A1 * A2 * A3 * A4 * A5 * A6 * A7) unit :=
  load_into l1 r row 0 (λ v '(_, t2, t3, t4, t5, t6, t7), (v, t2, t3, t4, t5, t6, t7));;
  load_into l2 r row 1 (λ v '(t1, _, t3, t4, t5, t6, t7), (t1, v, t3, t4, t5, t6, t7));;
  load_into l3 r row 2 (λ v '(t1, t2, _, t4, t5, t6, t7), (t1, t2, v, t4, t5, t6, t7));;
  load_into l4 r row 3 (λ v '(t1, t2, t3, _, t5, t6, t7), (t1, t2, t3, v, t5, t6, t7));;
  load_into l5 r row 4 (λ v '(t1, t2, t3, t4, _, t6, t7), (t1, t2, t3, t4, v, t6, t7));;
  load_into l6 r row 5 (λ v '(t1, t2, t3, t4, t5, _, t7), (t1, t2, t3, t4, t5, v, t7));;
  load_into l7 r row 6 (λ v '(t1, t2, t3, t4, t5, t6, _), (t1, t2, t3, t4, t5, t6, v)).

(** Source: include/cxxll/pg_response.hpp 101-115, pg_response. *)
Definition pg_response_8 {A1 A2 A3 A4 A5 A6 A7 A8} (l1 : loader A1) (l2 : loader A2) (l3 : loader A3)
    (l4 : loader A4) (l5 : loader A5) (l6 : loader A6) (l7 : loader A7)
    (l8 : loader A8) (r : pgresult) (row : Z)
    : sx (A1 * A2 * A3 * A4 * A5 * A6 * A7 * A8) unit :=
  load_into l1 r row 0 (λ v '(_, t2, t3, t4, t5, t6, t7, t8), (v, t2, t3, t4, t5, t6, t7, t8));;
  load_into l2 r row 1 (λ v '(t1, _, t3, t4, t5, t6, t7, t8), (t1, v, t3, t4, t5, t6, t7, t8));;
  load_into l3 r row 2 (λ v '(t1, t2, _, t4, t5, t6, t7, t8), (t1, t2, v, t4, t5, t6, t7, t8));;
  load_into l4 r row 3 (λ v '(t1, t2, t3, _, t5, t6, t7, t8), (t1, t2, t3, v, t5, t6, t7, t8));;
  load_into l5 r row 4 (λ v '(t1, t2, t3, t4, _, t6, t7, t8), (t1, t2, t3, t4, v, t6, t7, t8));;
  load_into l6 r row 5 (λ v '(t1, t2, t3, t4, t5, _, t7, t8), (t1, t2, t3, t4, t5, v, t7, t8));;
  load_into l7 r row 6 (λ v '(t1, t2, t3, t4, t5, t6, _, t8), (t1, t2, t3, t4, t5, t6, v, t8));;
  load_into l8 r row 7 (λ v '(t1, t2, t3, t4, t5, t6, t7, _), (t1, t2, t3, t4, t5, t6, t7, v)).

(** Source: include/cxxll/pg_response.hpp 117-132, pg_response. *)
Definition pg_response_9 {A1 A2 A3 A4 A5 A6 A7 A8 A9} (l1 : loader A1) (l2 : loader A2) (l3 : loader A3)
    (l4 : loader A4) (l5 : loader A5) (l6 : loader A6) (l7 : loader A7) (l8 : loader A8)
    (l9 : loader A9) (r : pgresult) (row : Z)
    : sx (A1 * A2 * A3 * A4 * A5 * A6 * A7 * A8 * A9) unit :=
  load_into l1 r row 0 (λ v '(_, t2, t3, t4, t5, t6, t7, t8, t9), (v, t2, t3, t4, t5, t6, t7, t8, t9));;
  load_into l2 r row 1 (λ v '(t1, _, t3, t4, t5, t6, t7, t8, t9), (t1, v, t3, t4, t5, t6, t7, t8, t9));;
  load_into l3 r row 2 (λ v '(t1, t2, _, t4, t5, t6, t7, t8, t9), (t1, t2, v, t4, t5, t6, t7, t8, t9));;
  load_into l4 r row 3 (λ v '(t1, t2, t3, _, t5, t6, t7, t8, t9), (t1, t2, t3, v, t5, t6, t7, t8, t9));;
  load_into l5 r row 4 (λ v '(t1, t2, t3, t4, _, t6, t7, t8, t9), (t1, t2, t3, t4, v, t6, t7, t8, t9));;
  load_into l6 r row 5 (λ v '(t1, t2, t3, t4, t5, _, t7, t8, t9), (t1, t2, t3, t4, t5, v, t7, t8, t9));;
  load_into l7 r row 6 (λ v '(t1, t2, t3, t4, t5, t6, _, t8, t9), (t1, t2, t3, t4, t5, t6, v, t8, t9));;
  load_into l8 r row 7 (λ v '(t1, t2, t3, t4, t5, t6, t7, _, t9), (t1, t2, t3, t4, t5, t6, t7, v, t9));;
  load_into l9 r row 8 (λ v '(t1, t2, t3, t4, t5, t6, t7, t8, _), (t1, t2, t3, t4, t5, t6, t7, t8, v)).

(** Source: include/cxxll/pg_response.hpp 134-150, pg_response. *)
Definition pg_response_10 {A1 A2 A3 A4 A5 A6 A7 A8 A9 A10} (l1 : loader A1) (l2 : loader A2)
    (l3 : loader A3) (l4 : loader A4) (l5 : loader A5) (l6 : loader A6) (l7 : loader A7)
    (l8 : loader A8) (l9 : loader A9) (l10 : loader A10) (r : pgresult) (row : Z)
    : sx (A1 * A2 * A3 * A4 * A5 * A6 * A7 * A8 * A9 * A10) unit :=
  load_into l1 r row 0 (λ v '(_, t2, t3, t4, t5, t6, t7, t8, t9, t10), (v, t2, t3, t4, t5, t6, t7, t8, t9, t10));;
  load_into l2 r row 1 (λ v '(t1, _, t3, t4, t5, t6, t7, t8, t9, t10), (t1, v, t3, t4, t5, t6, t7, t8, t9, t10));;
  load_into l3 r row 2 (λ v '(t1, t2, _, t4, t5, t6, t7, t8, t9, t10), (t1, t2, v, t4, t5, t6, t7, t8, t9, t10));;
  load_into l4 r row 3 (λ v '(t1, t2, t3, _, t5, t6, t7, t8, t9, t10), (t1, t2, t3, v, t5, t6, t7, t8, t9, t10));;
  load_into l5 r row 4 (λ v '(t1, t2, t3, t4, _, t6, t7, t8, t9, t10), (t1, t2, t3, t4, v, t6, t7, t8, t9, t10));;
  load_into l6 r row 5 (λ v '(t1, t2, t3, t4, t5, _, t7, t8, t9, t10), (t1, t2, t3, t4, t5, v, t7, t8, t9, t10));;
  load_into l7 r row 6 (λ v '(t1, t2, t3, t4, t5, t6, _, t8, t9, t10), (t1, t2, t3, t4, t5, t6, v, t8, t9, t10));;
  load_into l8 r row 7 (λ v '(t1, t2, t3, t4, t5, t6, t7, _, t9, t10), (t1, t2, t3, t4, t5, t6, t7, v, t9, t10));;
  load_into l9 r row 8 (λ v '(t1, t2, t3, t4, t5, t6, t7, t8, _, t10), (t1, t2, t3, t4, t5, t6, t7, t8, v, t10));;
  load_into l10 r row 9 (λ v '(t1, t2, t3, t4, t5, t6, t7, t8, t9, _), (t1, t2, t3, t4, t5, t6, t7, t8, t9, v)).

(** [pg_response (res, row, ...)] on local variables: their values afterwards. *)
Definition response {A} (f : pgresult → Z → sx A unit) (row : Z) (init : A) : pg A :=
  r ← data;
  match f r row init with
  | (Ok _, a) => mret a
  | (Throw e, _) => sx_throw e
  end.

End Arguments_.

(** ** Reference definitions *)

Section Reference.
Context `{M : machine} {C : Type} `{L : libpq C}.

(** The lengths, in order, up to the first that is not representable. *)
Fixpoint arg_lengths (args : list pg_arg) : res (list Z) :=
  match args with
  | [] => Ok []
  | a :: args => l ← arg_length_ a; ls ← arg_lengths args; Ok (l :: ls)
  end.

(** A query with any number of parameters. *)
Definition pg_query_list (fmt : Z) (sql : bytes) (args : list pg_arg) : pg C unit :=
  lengths ← sx_res (arg_lengths args);
  execParamsCustom sql (zlen args) (Some (map arg_oid args)) (Some (map arg_store args)) (Some lengths)
    (Some (map (λ _, 1) args)) fmt.

End Reference.

(** ** Overloads *)

Section Overloads.
Context `{M : machine} {C : Type} `{L : libpq C}.

(** The lengths are computed one after the other, as the overloads do. *)
Fixpoint with_lengths (args : list pg_arg) (k : list Z → pg C unit) : pg C unit :=
  match args with
  | [] => k []
  | a :: args => l ← arg_length a; with_lengths args (λ ls, k (l :: ls))
  end.
Lemma with_lengths_spec args k s :
  with_lengths args k s = (lengths ← sx_res (arg_lengths args); k lengths) s.
Proof.
  revert k. induction args as [|a args IH]; intros k; [done|].
  cbn. unfold arg_length, mbind, sx_bind, sx_res in *. destruct (arg_length_ a); [|done].
  rewrite IH. cbn. by destruct (arg_lengths args).
Qed.
Lemma with_lengths_query fmt sql args s :
  with_lengths args (λ lengths, execParamsCustom sql (zlen args) (Some (map arg_oid args))
    (Some (map arg_store args)) (Some lengths) (Some (map (λ _, 1) args)) fmt) s
  = pg_query_list fmt sql args s.
Proof. apply with_lengths_spec. Qed.

Lemma private_pg_query_1_list fmt sql t1 s :
  private_pg_query_1 fmt sql t1 s = pg_query_list fmt sql [t1] s.
Proof. exact (with_lengths_query fmt sql [t1] s). Qed.
Lemma private_pg_query_2_list fmt sql t1 t2 s :
  private_pg_query_2 fmt sql t1 t2 s = pg_query_list fmt sql [t1; t2] s.
Proof. exact (with_lengths_query fmt sql [t1; t2] s). Qed.
Lemma private_pg_query_3_list fmt sql t1 t2 t3 s :
  private_pg_query_3 fmt sql t1 t2 t3 s = pg_query_list fmt sql [t1; t2; t3] s.
Proof. exact (with_lengths_query fmt sql [t1; t2; t3] s). Qed.
Lemma private_pg_query_4_list fmt sql t1 t2 t3 t4 s :
  private_pg_query_4 fmt sql t1 t2 t3 t4 s = pg_query_list fmt sql [t1; t2; t3; t4] s.
Proof. exact (with_lengths_query fmt sql [t1; t2; t3; t4] s). Qed.
Lemma private_pg_query_5_list fmt sql t1 t2 t3 t4 t5 s :
  private_pg_query_5 fmt sql t1 t2 t3 t4 t5 s = pg_query_list fmt sql [t1; t2; t3; t4; t5] s.
Proof. exact (with_lengths_query fmt sql [t1; t2; t3; t4; t5] s). Qed.
Lemma private_pg_query_6_list fmt sql t1 t2 t3 t4 t5 t6 s :
  private_pg_query_6 fmt sql t1 t2 t3 t4 t5 t6 s = pg_query_list fmt sql [t1; t2; t3; t4; t5; t6] s.
Proof. exact (with_lengths_query fmt sql [t1; t2; t3; t4; t5; t6] s). Qed.
Lemma private_pg_query_7_list fmt sql t1 t2 t3 t4 t5 t6 t7 s :
  private_pg_query_7 fmt sql t1 t2 t3 t4 t5 t6 t7 s
    = pg_query_list fmt sql [t1; t2; t3; t4; t5; t6; t7] s.
Proof. exact (with_lengths_query fmt sql [t1; t2; t3; t4; t5; t6; t7] s). Qed.
Lemma private_pg_query_8_list fmt sql t1 t2 t3 t4 t5 t6 t7 t8 s :
  private_pg_query_8 fmt sql t1 t2 t3 t4 t5 t6 t7 t8 s
    = pg_query_list fmt sql [t1; t2; t3; t4; t5; t6; t7; t8] s.
Proof. exact (with_lengths_query fmt sql [t1; t2; t3; t4; t5; t6; t7; t8] s). Qed.
Lemma private_pg_query_9_list fmt sql t1 t2 t3 t4 t5 t6 t7 t8 t9 s :
  private_pg_query_9 fmt sql t1 t2 t3 t4 t5 t6 t7 t8 t9 s
    = pg_query_list fmt sql [t1; t2; t3; t4; t5; t6; t7; t8; t9] s.
Proof. exact (with_lengths_query fmt sql [t1; t2; t3; t4; t5; t6; t7; t8; t9] s). Qed.
Lemma private_pg_query_10_list fmt sql t1 t2 t3 t4 t5 t6 t7 t8 t9 t10 s :
  private_pg_query_10 fmt sql t1 t2 t3 t4 t5 t6 t7 t8 t9 t10 s
    = pg_query_list fmt sql [t1; t2; t3; t4; t5; t6; t7; t8; t9; t10] s.
Proof. exact (with_lengths_query fmt sql [t1; t2; t3; t4; t5; t6; t7; t8; t9; t10] s). Qed.
Lemma private_pg_query_11_list fmt sql t1 t2 t3 t4 t5 t6 t7 t8 t9 t10 t11 s :
  private_pg_query_11 fmt sql t1 t2 t3 t4 t5 t6 t7 t8 t9 t10 t11 s
    = pg_query_list fmt sql [t1; t2; t3; t4; t5; t6; t7; t8; t9; t10; t11] s.
Proof. exact (with_lengths_query fmt sql [t1; t2; t3; t4; t5; t6; t7; t8; t9; t10; t11] s). Qed.
Lemma private_pg_query_12_list fmt sql t1 t2 t3 t4 t5 t6 t7 t8 t9 t10 t11 t12 s :
  private_pg_query_12 fmt sql t1 t2 t3 t4 t5 t6 t7 t8 t9 t10 t11 t12 s
    = pg_query_list fmt sql [t1; t2; t3; t4; t5; t6; t7; t8; t9; t10; t11; t12] s.
Proof. exact (with_lengths_query fmt sql [t1; t2; t3; t4; t5; t6; t7; t8; t9; t10; t11; t12] s). Qed.
Lemma private_pg_query_13_list fmt sql t1 t2 t3 t4 t5 t6 t7 t8 t9 t10 t11 t12 t13 s :
  private_pg_query_13 fmt sql t1 t2 t3 t4 t5 t6 t7 t8 t9 t10 t11 t12 t13 s
    = pg_query_list fmt sql [t1; t2; t3; t4; t5; t6; t7; t8; t9; t10; t11; t12; t13] s.
Proof. exact (with_lengths_query fmt sql [t1; t2; t3; t4; t5; t6; t7; t8; t9; t10; t11; t12; t13] s). Qed.
Lemma private_pg_query_14_list fmt sql t1 t2 t3 t4 t5 t6 t7 t8 t9 t10 t11 t12 t13 t14 s :
  private_pg_query_14 fmt sql t1 t2 t3 t4 t5 t6 t7 t8 t9 t10 t11 t12 t13 t14 s
    = pg_query_list fmt sql [t1; t2; t3; t4; t5; t6; t7; t8; t9; t10; t11; t12; t13; t14] s.
Proof. exact (with_lengths_query fmt sql [t1; t2; t3; t4; t5; t6; t7; t8; t9; t10; t11; t12; t13; t14] s). Qed.
Lemma private_pg_query_15_list fmt sql t1 t2 t3 t4 t5 t6 t7 t8 t9 t10 t11 t12 t13 t14 t15 s :
  private_pg_query_15 fmt sql t1 t2 t3 t4 t5 t6 t7 t8 t9 t10 t11 t12 t13 t14 t15 s
    = pg_query_list fmt sql [t1; t2; t3; t4; t5; t6; t7; t8; t9; t10; t11; t12; t13; t14; t15] s.
Proof. exact (with_lengths_query fmt sql [t1; t2; t3; t4; t5; t6; t7; t8; t9; t10; t11; t12; t13; t14; t15] s). Qed.

End Overloads.

(** ** Ownership of results *)

(** The results that have been allocated and not freed. *)
Class LiveView (C : Type) := live : C → gset Z.

Section Ownership.
Context {C : Type} `{V : LiveView C} `{L : libpq C}.

Definition result_ids (r : option query_result) : gset Z :=
  match r with Some r => {[r_ptr r]} | None => ∅ end.

Definition allocates (f : C → option query_result * C) : Prop := ∀ c,
  live (f c).2 = live c ∪ result_ids (f c).1 ∧ result_ids (f c).1 ## live c.

(** A function that returns a result allocates it; nothing is known about freeing
    one that is not allocated. *)
Record libpq_laws : Prop := {
  law_exec conn sql : allocates (PQexec conn sql);
  law_exec_params conn sql n types values lengths formats fmt :
    allocates (PQexecParams conn sql n types values lengths formats fmt);
  law_get_result conn : allocates (PQgetResult conn);
  law_clear_null c : live (PQclear None c) = live c;
  law_clear r c : r_ptr r ∈ live c → live (PQclear (Some r) c) = live c ∖ {[r_ptr r]};
  law_put_data conn p c : live (PQputCopyData conn p c).2 = live c;
  law_put_end conn p c : live (PQputCopyEnd conn p c).2 = live c;
  law_get_data conn c : live (PQgetCopyData conn c).2 = live c;
  law_finish conn c : live (PQfinish conn c) = live c;
  law_connect s c : live (PQconnectdb s c).2 = live c;
  law_connect_params k v c : live (PQconnectdbParams k v c).2 = live c
}.

(** What is allocated is the result of the handle in scope and [frame]. *)
Definition owns_result (frame : gset Z) (s : pgst C) : Prop :=
  live (server s) = frame ∪ result_ids (raw s) ∧ result_ids (raw s) ## frame.

(** The computation loses no result and frees none twice, whether it returns or
    throws. *)
Definition balanced {A} (m : pg C A) : Prop := ∀ frame s, owns_result frame s → owns_result frame (m s).2.

Lemma balanced_ret {A} (a : A) : balanced (mret a).
Proof. intros frame s Hs. exact Hs. Qed.
Lemma balanced_bind {A B} (m : pg C A) (f : A → pg C B) : balanced m → (∀ a, balanced (f a)) → balanced (m ≫= f).
Proof.
  intros Hm Hf frame s Hs. specialize (Hm frame s Hs). unfold mbind, sx_bind.
  destruct (m s) as [[a|e] s']; [by apply Hf|done].
Qed.
Lemma balanced_res {A} (r : res A) : balanced (sx_res r).
Proof. intros frame s Hs. exact Hs. Qed.
Lemma balanced_throw {A} e : balanced (sx_throw e : pg C A).
Proof. intros frame s Hs. exact Hs. Qed.
Lemma balanced_get : balanced sx_get.
Proof. intros frame s Hs. exact Hs. Qed.
Lemma balanced_ext {A} (m m' : pg C A) : (∀ s, m' s = m s) → balanced m → balanced m'.
Proof. intros E Hm frame s Hs. rewrite E. by apply Hm. Qed.
Lemma balanced_if {A} (b : bool) (m m' : pg C A) : balanced m → balanced m' → balanced (if b then m else m').
Proof. by destruct b. Qed.
Lemma balanced_call {A} (f : option Z → C → A * C) :
  (∀ conn c, live (f conn c).2 = live c) → balanced (call f).
Proof.
  intros Hf frame s [H1 H2]. unfold call. specialize (Hf (conn s) (server s)).
  destruct (f (conn s) (server s)) as [a c]. split; [|done]. cbn in *. by rewrite Hf.
Qed.
Lemma balanced_fold {A} {B : Type} (f : B → pg C A) (l : list B) (k : pg C A) :
  (∀ b, balanced (f b)) → balanced k → balanced (foldr (λ b m, f b;; m) k l).
Proof. intros Hf Hk. induction l as [|b l IH]; [done|]. cbn. by apply balanced_bind. Qed.
End Ownership.
Arguments libpq_laws C {V L}.

Create HintDb pgdb discriminated.
#[export] Hint Constants Opaque : pgdb.
#[export] Hint Transparent pg sx : pgdb.
#[export] Hint Resolve @balanced_ret @balanced_bind @balanced_res @balanced_throw @balanced_get @balanced_if : pgdb.

Section Ownership_of_handles.
Context {C : Type} `{V : LiveView C} `{L : libpq C} (Hlaws : libpq_laws C).
#[local] Set Default Proof Using "Type*".

(** Freeing a result that is held besides the handle and the frame. *)
Lemma clear_extra frame r s : live (server s) = (frame ∪ result_ids (raw s)) ∪ result_ids r →
  result_ids r ## frame ∪ result_ids (raw s) → result_ids (raw s) ## frame →
  owns_result frame (clear r s).2.
Proof.
  intros H1 H2 H3. split; [|done]. cbn. destruct r as [r|]; cbn in *.
  - rewrite (law_clear Hlaws), H1 by (rewrite H1; set_solver). set_solver.
  - rewrite (law_clear_null Hlaws), H1. set_solver.
Qed.

(** [reset] takes over a result that was just allocated. *)
Lemma reset_balanced (f : option Z → C → option query_result * C) :
  (∀ conn, allocates (f conn)) → balanced (r ← call f; result_reset r).
Proof.
  intros Hf frame s [H1 H2]. specialize (Hf (conn s) (server s)) as [H3 H4].
  unfold call, mbind, sx_bind. destruct (f (conn s) (server s)) as [r c]. cbn [fst snd] in *.
  rewrite H1 in H3, H4. unfold result_reset, mbind, sx_bind, sx_rethrow, sx_res.
  destruct (result_do_check r) as [[]|e] eqn:E; [|by apply (clear_extra frame r (set_server c s))].
  cbn. split; cbn; [|set_solver].
  destruct (raw s) as [r0|]; cbn in *.
  - rewrite (law_clear Hlaws), H3 by (rewrite H3; set_solver). set_solver.
  - rewrite (law_clear_null Hlaws), H3. set_solver.
Qed.

Lemma getresult_balanced : balanced getresult.
Proof. apply reset_balanced. intros. apply (law_get_result Hlaws). Qed.
Lemma exec_balanced command : balanced (exec command).
Proof. apply (reset_balanced (λ c, PQexec c command)). intros. apply (law_exec Hlaws). Qed.
Lemma execParamsCustom_balanced command n types values lengths formats fmt :
  balanced (execParamsCustom command n types values lengths formats fmt).
Proof.
  apply (reset_balanced (λ c, PQexecParams c command n types values lengths formats fmt)).
  intros. apply (law_exec_params Hlaws).
Qed.
Lemma pg_query_list_balanced `{M : machine} fmt sql args : balanced (pg_query_list fmt sql args).
Proof. apply balanced_bind; [apply balanced_res|]. intros. apply execParamsCustom_balanced. Qed.

Lemma result_close_balanced : balanced result_close.
Proof.
  intros frame s [H1 H2]. unfold result_close, mbind, sx_bind, clear, sx_get, sx_modify.
  split; cbn; [|set_solver]. destruct (raw s) as [r|]; cbn in *.
  - rewrite (law_clear Hlaws), H1 by (rewrite H1; set_solver). set_solver.
  - rewrite (law_clear_null Hlaws), H1. set_solver.
Qed.

(** The destructor frees the result of a scope; the outer one is as it was. *)
Lemma with_res_balanced {A} (m : pg C A) : balanced m → balanced (with_res m).
Proof.
  intros Hm frame s [H1 H2]. unfold with_res.
  change ((result_new;; m) s) with (m (set_raw None s)).
  specialize (Hm (frame ∪ result_ids (raw s)) (set_raw None s)).
  destruct (m (set_raw None s)) as [a s']. destruct Hm as [H3 H4]; [split; cbn; [by rewrite H1, (right_id_L ∅ (∪))|set_solver]|].
  cbn in H3, H4. unfold result_destroy, mbind, sx_bind, clear, sx_get.
  split; cbn; [|done]. destruct (raw s') as [r|]; cbn in *.
  - rewrite (law_clear Hlaws), H3 by (rewrite H3; set_solver). set_solver.
  - rewrite (law_clear_null Hlaws), H3. set_solver.
Qed.

Lemma throw_conn_balanced {A} : balanced (throw_conn : pg C A).
Proof. intros frame s Hs. exact Hs. Qed.
Lemma transactionStatus_balanced : balanced transactionStatus.
Proof. intros frame s Hs. exact Hs. Qed.
Lemma data_balanced : balanced (data : pg C pgresult).
Proof. intros frame s Hs. exact Hs. Qed.
Lemma ntuples_balanced : balanced (ntuples : pg C Z).
Proof. intros frame s Hs. exact Hs. Qed.
Lemma response_balanced {A} (f : pgresult → Z → sx A unit) row init : balanced (response f row init : pg C A).
Proof. apply balanced_bind; [apply data_balanced|]. intros r. destruct (f r row init) as [[] ?]; [apply balanced_ret|apply balanced_throw]. Qed.

Lemma putCopyData_balanced p : balanced (putCopyData p).
Proof.
  unfold putCopyData. generalize (zlen p) as len. intros len. revert p len.
  enough (∀ fuel p len, balanced (putCopyData_loop fuel p len)) by auto.
  induction fuel as [|fuel IH]; intros p len; [apply balanced_ret|]. cbn. apply balanced_if; [apply balanced_ret|].
  apply balanced_bind; [apply balanced_call; intros; apply (law_put_data Hlaws)|].
  intros result. apply balanced_if; [apply throw_conn_balanced|apply IH].
Qed.
Lemma putCopyEndError_balanced e : balanced (putCopyEndError e).
Proof.
  apply balanced_bind; [apply balanced_call; intros; apply (law_put_end Hlaws)|].
  intros result. apply balanced_if; [apply throw_conn_balanced|apply balanced_ret].
Qed.
Lemma getCopyData_balanced : balanced getCopyData.
Proof.
  apply balanced_bind.
  { apply balanced_call. intros conn c. rewrite <- (law_get_data Hlaws conn c). by destruct (PQgetCopyData conn c) as [[]]. }
  intros [n buffer]. repeat apply balanced_if; auto using throw_conn_balanced with pgdb.
  apply balanced_bind; [apply with_res_balanced, getresult_balanced|]. intros. apply balanced_ret.
Qed.
Lemma conn_reset_balanced c : balanced (conn_reset c).
Proof.
  intros frame s [H1 H2]. unfold conn_reset, conn_close, mbind, sx_bind, sx_get, sx_modify, sx_res.
  destruct (conn_do_check c (server s)); [|done]. split; [|done]. cbn. by rewrite (law_finish Hlaws).
Qed.
End Ownership_of_handles.

(** ** Properties *)

Section Query_properties.
Context `{M : machine} {C : Type} `{L : libpq C}.

(** The thirty overloads of [pg_query] and [pg_query_binary] are instances of
    one definition: each sends the object identifiers, the stored values, the
    lengths and the formats of exactly its arguments, in their order, with their
    number, and asks for text or binary results; the first argument whose length is
    not representable raises its exception and nothing is sent. *)
Theorem query_overloads sql (s : pgst C) :
  (∀ t1, pg_query_1 sql t1 s = pg_query_list 0 sql [t1] s ∧
    pg_query_binary_1 sql t1 s = pg_query_list 1 sql [t1] s) ∧
  (∀ t1 t2, pg_query_2 sql t1 t2 s = pg_query_list 0 sql [t1; t2] s ∧
    pg_query_binary_2 sql t1 t2 s = pg_query_list 1 sql [t1; t2] s) ∧
  (∀ t1 t2 t3, pg_query_3 sql t1 t2 t3 s = pg_query_list 0 sql [t1; t2; t3] s ∧
    pg_query_binary_3 sql t1 t2 t3 s = pg_query_list 1 sql [t1; t2; t3] s) ∧
  (∀ t1 t2 t3 t4, pg_query_4 sql t1 t2 t3 t4 s = pg_query_list 0 sql [t1; t2; t3; t4] s ∧
    pg_query_binary_4 sql t1 t2 t3 t4 s = pg_query_list 1 sql [t1; t2; t3; t4] s) ∧
  (∀ t1 t2 t3 t4 t5, pg_query_5 sql t1 t2 t3 t4 t5 s = pg_query_list 0 sql [t1; t2; t3; t4; t5] s ∧
    pg_query_binary_5 sql t1 t2 t3 t4 t5 s = pg_query_list 1 sql [t1; t2; t3; t4; t5] s) ∧
  (∀ t1 t2 t3 t4 t5 t6, pg_query_6 sql t1 t2 t3 t4 t5 t6 s = pg_query_list 0 sql [t1; t2; t3; t4; t5; t6] s ∧
    pg_query_binary_6 sql t1 t2 t3 t4 t5 t6 s = pg_query_list 1 sql [t1; t2; t3; t4; t5; t6] s) ∧
  (∀ t1 t2 t3 t4 t5 t6 t7, pg_query_7 sql t1 t2 t3 t4 t5 t6 t7 s = pg_query_list 0 sql [t1; t2; t3; t4; t5; t6; t7] s ∧
    pg_query_binary_7 sql t1 t2 t3 t4 t5 t6 t7 s = pg_query_list 1 sql [t1; t2; t3; t4; t5; t6; t7] s) ∧
  (∀ t1 t2 t3 t4 t5 t6 t7 t8, pg_query_8 sql t1 t2 t3 t4 t5 t6 t7 t8 s = pg_query_list 0 sql [t1; t2; t3; t4; t5; t6; t7; t8] s ∧
    pg_query_binary_8 sql t1 t2 t3 t4 t5 t6 t7 t8 s = pg_query_list 1 sql [t1; t2; t3; t4; t5; t6; t7; t8] s) ∧
  (∀ t1 t2 t3 t4 t5 t6 t7 t8 t9,
    pg_query_9 sql t1 t2 t3 t4 t5 t6 t7 t8 t9 s
    = pg_query_list 0 sql [t1; t2; t3; t4; t5; t6; t7; t8; t9] s ∧
    pg_query_binary_9 sql t1 t2 t3 t4 t5 t6 t7 t8 t9 s
    = pg_query_list 1 sql [t1; t2; t3; t4; t5; t6; t7; t8; t9] s) ∧
  (∀ t1 t2 t3 t4 t5 t6 t7 t8 t9 t10,
    pg_query_10 sql t1 t2 t3 t4 t5 t6 t7 t8 t9 t10 s
    = pg_query_list 0 sql [t1; t2; t3; t4; t5; t6; t7; t8; t9; t10] s ∧
    pg_query_binary_10 sql t1 t2 t3 t4 t5 t6 t7 t8 t9 t10 s
    = pg_query_list 1 sql [t1; t2; t3; t4; t5; t6; t7; t8; t9; t10] s) ∧
  (∀ t1 t2 t3 t4 t5 t6 t7 t8 t9 t10 t11,
    pg_query_11 sql t1 t2 t3 t4 t5 t6 t7 t8 t9 t10 t11 s
    = pg_query_list 0 sql [t1; t2; t3; t4; t5; t6; t7; t8; t9; t10; t11] s ∧
    pg_query_binary_11 sql t1 t2 t3 t4 t5 t6 t7 t8 t9 t10 t11 s
    = pg_query_list 1 sql [t1; t2; t3; t4; t5; t6; t7; t8; t9; t10; t11] s) ∧
  (∀ t1 t2 t3 t4 t5 t6 t7 t8 t9 t10 t11 t12,
    pg_query_12 sql t1 t2 t3 t4 t5 t6 t7 t8 t9 t10 t11 t12 s
    = pg_query_list 0 sql [t1; t2; t3; t4; t5; t6; t7; t8; t9; t10; t11; t12] s ∧
    pg_query_binary_12 sql t1 t2 t3 t4 t5 t6 t7 t8 t9 t10 t11 t12 s
    = pg_query_list 1 sql [t1; t2; t3; t4; t5; t6; t7; t8; t9; t10; t11; t12] s) ∧
  (∀ t1 t2 t3 t4 t5 t6 t7 t8 t9 t10 t11 t12 t13,
    pg_query_13 sql t1 t2 t3 t4 t5 t6 t7 t8 t9 t10 t11 t12 t13 s
    = pg_query_list 0 sql [t1; t2; t3; t4; t5; t6; t7; t8; t9; t10; t11; t12; t13] s ∧
    pg_query_binary_13 sql t1 t2 t3 t4 t5 t6 t7 t8 t9 t10 t11 t12 t13 s
    = pg_query_list 1 sql [t1; t2; t3; t4; t5; t6; t7; t8; t9; t10; t11; t12; t13] s) ∧
  (∀ t1 t2 t3 t4 t5 t6 t7 t8 t9 t10 t11 t12 t13 t14,
    pg_query_14 sql t1 t2 t3 t4 t5 t6 t7 t8 t9 t10 t11 t12 t13 t14 s
    = pg_query_list 0 sql [t1; t2; t3; t4; t5; t6; t7; t8; t9; t10; t11; t12; t13; t14] s ∧
    pg_query_binary_14 sql t1 t2 t3 t4 t5 t6 t7 t8 t9 t10 t11 t12 t13 t14 s
    = pg_query_list 1 sql [t1; t2; t3; t4; t5; t6; t7; t8; t9; t10; t11; t12; t13; t14] s) ∧
  (∀ t1 t2 t3 t4 t5 t6 t7 t8 t9 t10 t11 t12 t13 t14 t15,
    pg_query_15 sql t1 t2 t3 t4 t5 t6 t7 t8 t9 t10 t11 t12 t13 t14 t15 s
    = pg_query_list 0 sql [t1; t2; t3; t4; t5; t6; t7; t8; t9; t10; t11; t12; t13; t14; t15] s ∧
    pg_query_binary_15 sql t1 t2 t3 t4 t5 t6 t7 t8 t9 t10 t11 t12 t13 t14 t15 s
    = pg_query_list 1 sql [t1; t2; t3; t4; t5; t6; t7; t8; t9; t10; t11; t12; t13; t14; t15] s).
Proof.
  repeat match goal with |- _ ∧ (∀ _, _) => split | |- _ ∧ (_ ∧ _) => split end.
  - intros; split; apply private_pg_query_1_list.
  - intros; split; apply private_pg_query_2_list.
  - intros; split; apply private_pg_query_3_list.
  - intros; split; apply private_pg_query_4_list.
  - intros; split; apply private_pg_query_5_list.
  - intros; split; apply private_pg_query_6_list.
  - intros; split; apply private_pg_query_7_list.
  - intros; split; apply private_pg_query_8_list.
  - intros; split; apply private_pg_query_9_list.
  - intros; split; apply private_pg_query_10_list.
  - intros; split; apply private_pg_query_11_list.
  - intros; split; apply private_pg_query_12_list.
  - intros; split; apply private_pg_query_13_list.
  - intros; split; apply private_pg_query_14_list.
  - intros; split; apply private_pg_query_15_list.
Qed.

(** A parameter as the server gets it: its type, value, length and format.  The
    bytes of a value are those at its pointer, up to its length. *)
Definition parameter_is (a : pg_arg) (type : Z) (value : option bytes) (len fmt : Z) : Prop :=
  fmt = 1 ∧ type = arg_oid a ∧
  match value with
  | None => a = by_value (v_cstring None) ∨ (∃ t, a = by_pointer t None) ∨
            (∃ t, a = by_pointer t (Some (v_cstring None)))
  | Some mem =>
      0 <= len <= zlen mem ∧ len < INT_MAX ∧
      ∃ v, (a = by_value v ∨ ∃ t, a = by_pointer t (Some v)) ∧
      ∀ r row col unescape, column_holds r row col 1 type (ztake len mem) →
        match v with
        | v_bool b => load_bool r row col = Ok b
        | v_short z => load_short host r row col = Ok z
        | v_int z => load_int host r row col = Ok z
        | v_long_long z => load_long_long host r row col = Ok z
        | v_cstring s => ∃ s', s = Some s' ∧ load_text unescape r row col = Ok (until_nul s')
        | v_string s | v_bytea s => load_text unescape r row col = Ok s
        end
  end.

(** The values are in the range of their types, a pointer points to a value of
    its type, and a string whose length the compiler knows is not a huge one. *)
Definition value_wf (v : pg_value) : Prop :=
  match v with
  | v_short z => -2 ^ 15 <= z < 2 ^ 15
  | v_int z => -2 ^ 31 <= z < 2 ^ 31
  | v_long_long z => -2 ^ 63 <= z < 2 ^ 63
  | v_cstring (Some s) => constant_length = true → zlen (until_nul s) < INT_MAX
  | _ => True
  end.
Definition arg_wf (a : pg_arg) : Prop :=
  match a with
  | by_value v => value_wf v
  | by_pointer t (Some v) => value_wf v ∧ value_type v = t
  | by_pointer _ None => True
  end.

Lemma length_check_Ok n l : length_check n = Ok l → l = n ∧ n < INT_MAX.
Proof. unfold length_check. destruct (Z.leb_spec INT_MAX n); [done|]. by intros [= <-]. Qed.

Lemma value_length_bounds v l mem : value_wf v → value_length v = Ok l → value_store v = Some mem →
  0 <= l <= zlen mem ∧ l < INT_MAX ∧
  ztake l mem = match v with v_cstring (Some s) => until_nul s | _ => mem end.
Proof.
  assert (∀ n l' (m : bytes), length_check n = Ok l' → n = zlen m → 0 <= l' <= zlen m ∧ l' < INT_MAX ∧ ztake l' m = m) as Hlen.
  { intros n l' m [-> ?]%length_check_Ok ->. pose proof (zlen_nonneg m). split_and!; try lia. by apply ztake_all. }
  destruct v as [b|z|z|z|[s|]|s|s]; cbn [value_length value_store value_wf value_type storage]; intros Hwf Hl Hm; try done.
  1-4: injection Hl as <-; injection Hm as <-; unfold store_int, store_long_long;
    (split_and!; [try done|try done; by rewrite memory_bytes_length|done|apply ztake_all; try done; by rewrite memory_bytes_length]).
  - injection Hm as <-. pose proof (until_nul_take s) as H1. pose proof (zlen_until_nul s) as H2. pose proof (zlen_nonneg (until_nul s)).
    unfold length_cstring in Hl. destruct constant_length.
    + specialize (Hwf eq_refl). change INT_MAX with 2147483647 in *. injection Hl as <-.
      assert (to_signed 32 (zlen (until_nul s)) = zlen (until_nul s)) as ->; [|auto with lia].
      apply Z.eqb_eq. rewrite to_signed_fits by lia. cbn. lia.
    + apply length_check_Ok in Hl as [-> ?]. auto with lia.
  - injection Hm as <-. by eapply Hlen.
  - rewrite store_bytea_value in Hm. injection Hm as <-. by eapply Hlen.
Qed.

Lemma value_loads v mem l type : value_wf v → value_store v = Some mem → value_length v = Ok l →
  type = oid (value_type v) → ∀ r row col unescape, column_holds r row col 1 type (ztake l mem) →
  match v with
  | v_bool b => load_bool r row col = Ok b
  | v_short z => load_short host r row col = Ok z
  | v_int z => load_int host r row col = Ok z
  | v_long_long z => load_long_long host r row col = Ok z
  | v_cstring s => ∃ s', s = Some s' ∧ load_text unescape r row col = Ok (until_nul s')
  | v_string s | v_bytea s => load_text unescape r row col = Ok s
  end.
Proof.
  intros Hwf Hm Hl -> r row col unescape.
  destruct (value_length_bounds v l mem Hwf Hl Hm) as (_ & _ & ->).
  destruct v as [b|z|z|z|[s|]|s|s]; cbn in *; try (injection Hm as <-); intros Hc.
  - by apply load_store_bool.
  - by apply load_store_short.
  - by apply load_store_int.
  - by apply load_store_long_long.
  - exists s. split; [done|]. eapply load_binary_text; [by left|exact Hc].
  - done.
  - eapply load_binary_text; [by left|exact Hc].
  - rewrite store_bytea_value in Hm. injection Hm as <-. eapply load_binary_text; [by right|exact Hc].
Qed.

Lemma value_store_null v : value_store v = None → v = v_cstring None.
Proof. destruct v as [b|z|z|z|[s|]|s|s]; cbn; try done. by rewrite store_bytea_value. Qed.

Lemma arg_parameter a l : arg_wf a → arg_length_ a = Ok l → parameter_is a (arg_oid a) (arg_store a) l 1.
Proof.
  intros Hwf Hl. do 2 (split; [done|]). destruct a as [v|t [v|]]; cbn [arg_wf arg_length_ length_pointer arg_store] in *.
  - destruct (value_store v) as [mem|] eqn:Hm; [|left; by rewrite (value_store_null v Hm)].
    destruct (value_length_bounds v l mem Hwf Hl Hm) as (H1 & H2 & _). do 2 (split; [done|]).
    exists v. split; [by left|]. by eapply value_loads.
  - destruct Hwf as [Hwf Ht].
    destruct (value_store v) as [mem|] eqn:Hm; [|right; right; exists t; by rewrite (value_store_null v Hm)].
    destruct (value_length_bounds v l mem Hwf Hl Hm) as (H1 & H2 & _). do 2 (split; [done|]).
    exists v. split; [right; by exists t|]. eapply value_loads; try done. cbn. by rewrite Ht.
  - right. left. by exists t.
Qed.

(** The parameters of a call, each described by [parameter_is]. *)
Inductive parameters_are : list pg_arg → list Z → list (option bytes) → list Z → list Z → Prop :=
| parameters_nil : parameters_are [] [] [] [] []
| parameters_cons a args ty types v values l lengths f formats :
    parameter_is a ty v l f → parameters_are args types values lengths formats →
    parameters_are (a :: args) (ty :: types) (v :: values) (l :: lengths) (f :: formats).

Lemma args_parameters args ls : Forall arg_wf args → arg_lengths args = Ok ls →
  parameters_are args (map arg_oid args) (map arg_store args) ls (map (λ _, 1) args).
Proof.
  intros Hwf. revert ls. induction Hwf as [|a args Ha _ IH]; intros ls H; cbn in H.
  - injection H as <-. constructor.
  - destruct (arg_length_ a) as [l|] eqn:Hl; [|done]. cbn in H.
    destruct (arg_lengths args) as [ls'|]; [|done]. injection H as <-.
    constructor; [by apply arg_parameter|by apply IH].
Qed.

End Query_properties.

(** ** Responses with any number of columns *)

Section Response_properties.

(** The values that are read, in order, up to the first that cannot be; the
    others keep what they were. *)
Fixpoint response_list {A} (r : pgresult) (row col : Z) (loaders : list (loader A)) (values : list A)
    : res unit * list A :=
  match loaders, values with
  | l :: loaders, v :: values =>
      match l r row col with
      | Ok x => let '(e, values) := response_list r row (col + 1) loaders values in (e, x :: values)
      | Throw e => (Throw e, v :: values)
      end
  | _, _ => (Ok tt, values)
  end.

Ltac response_tac :=
  unfold load_into, mbind, sx_bind, sx_res, sx_modify; cbn [response_list]; cbv [Z.add Pos.add Pos.succ Pos.add_carry].
Ltac response_load x := destruct x; cbv beta iota; [|reflexivity].

(** The ten overloads of [pg_response] read the columns of a row from the first
    one on, in the order of their arguments, each with the [load] of the
    argument's type; at the first column that cannot be read the exception is that
    column's, the arguments before it have their new values and the others are
    untouched. *)
Theorem response_overloads {A : Type} (r : pgresult) (row : Z) :
  (∀ (l1 : loader A) (x1 : A),
    (let '(e, y1) := pg_response_1 l1 r row x1 in (e, [y1]))
    = response_list r row 0 [l1] [x1]) ∧
  (∀ (l1 l2 : loader A) (x1 x2 : A),
    (let '(e, (y1, y2)) := pg_response_2 l1 l2 r row (x1, x2) in (e, [y1; y2]))
    = response_list r row 0 [l1; l2] [x1; x2]) ∧
  (∀ (l1 l2 l3 : loader A) (x1 x2 x3 : A),
    (let '(e, (y1, y2, y3)) := pg_response_3 l1 l2 l3 r row (x1, x2, x3) in (e, [y1; y2; y3]))
    = response_list r row 0 [l1; l2; l3] [x1; x2; x3]) ∧
  (∀ (l1 l2 l3 l4 : loader A) (x1 x2 x3 x4 : A),
    (let '(e, (y1, y2, y3, y4)) := pg_response_4 l1 l2 l3 l4 r row (x1, x2, x3, x4) in (e, [y1; y2; y3; y4]))
    = response_list r row 0 [l1; l2; l3; l4] [x1; x2; x3; x4]) ∧
  (∀ (l1 l2 l3 l4 l5 : loader A) (x1 x2 x3 x4 x5 : A),
    (let '(e, (y1, y2, y3, y4, y5)) :=
       pg_response_5 l1 l2 l3 l4 l5 r row (x1, x2, x3, x4, x5)
     in (e, [y1; y2; y3; y4; y5]))
    = response_list r row 0 [l1; l2; l3; l4; l5] [x1; x2; x3; x4; x5]) ∧
  (∀ (l1 l2 l3 l4 l5 l6 : loader A) (x1 x2 x3 x4 x5 x6 : A),
    (let '(e, (y1, y2, y3, y4, y5, y6)) :=
       pg_response_6 l1 l2 l3 l4 l5 l6 r row (x1, x2, x3, x4, x5, x6)
     in (e, [y1; y2; y3; y4; y5; y6]))
    = response_list r row 0 [l1; l2; l3; l4; l5; l6] [x1; x2; x3; x4; x5; x6]) ∧
  (∀ (l1 l2 l3 l4 l5 l6 l7 : loader A) (x1 x2 x3 x4 x5 x6 x7 : A),
    (let '(e, (y1, y2, y3, y4, y5, y6, y7)) :=
       pg_response_7 l1 l2 l3 l4 l5 l6 l7 r row (x1, x2, x3, x4, x5, x6, x7)
     in (e, [y1; y2; y3; y4; y5; y6; y7]))
    = response_list r row 0 [l1; l2; l3; l4; l5; l6; l7] [x1; x2; x3; x4; x5; x6; x7]) ∧
  (∀ (l1 l2 l3 l4 l5 l6 l7 l8 : loader A) (x1 x2 x3 x4 x5 x6 x7 x8 : A),
    (let '(e, (y1, y2, y3, y4, y5, y6, y7, y8)) :=
       pg_response_8 l1 l2 l3 l4 l5 l6 l7 l8 r row (x1, x2, x3, x4, x5, x6, x7, x8)
     in (e, [y1; y2; y3; y4; y5; y6; y7; y8]))
    = response_list r row 0 [l1; l2; l3; l4; l5; l6; l7; l8] [x1; x2; x3; x4; x5; x6; x7; x8]) ∧
  (∀ (l1 l2 l3 l4 l5 l6 l7 l8 l9 : loader A) (x1 x2 x3 x4 x5 x6 x7 x8 x9 : A),
    (let '(e, (y1, y2, y3, y4, y5, y6, y7, y8, y9)) :=
       pg_response_9 l1 l2 l3 l4 l5 l6 l7 l8 l9 r row (x1, x2, x3, x4, x5, x6, x7, x8, x9)
     in (e, [y1; y2; y3; y4; y5; y6; y7; y8; y9]))
    = response_list r row 0 [l1; l2; l3; l4; l5; l6; l7; l8; l9] [x1; x2; x3; x4; x5; x6; x7; x8; x9]) ∧
  (∀ (l1 l2 l3 l4 l5 l6 l7 l8 l9 l10 : loader A) (x1 x2 x3 x4 x5 x6 x7 x8 x9 x10 : A),
    (let '(e, (y1, y2, y3, y4, y5, y6, y7, y8, y9, y10)) :=
       pg_response_10 l1 l2 l3 l4 l5 l6 l7 l8 l9 l10 r row (x1, x2, x3, x4, x5, x6, x7, x8, x9, x10)
     in (e, [y1; y2; y3; y4; y5; y6; y7; y8; y9; y10]))
    = response_list r row 0 [l1; l2; l3; l4; l5; l6; l7; l8; l9; l10] [x1; x2; x3; x4; x5; x6; x7; x8; x9; x10]).
Proof.
  repeat match goal with |- _ ∧ _ => split end; intros.
  - unfold pg_response_1. response_tac.
    response_load (l1 r row 0). done.
  - unfold pg_response_2. response_tac.
    response_load (l1 r row 0). response_load (l2 r row 1). done.
  - unfold pg_response_3. response_tac.
    response_load (l1 r row 0). response_load (l2 r row 1). response_load (l3 r row 2). done.
  - unfold pg_response_4. response_tac.
    response_load (l1 r row 0). response_load (l2 r row 1). response_load (l3 r row 2).
    response_load (l4 r row 3). done.
  - unfold pg_response_5. response_tac.
    response_load (l1 r row 0). response_load (l2 r row 1). response_load (l3 r row 2).
    response_load (l4 r row 3). response_load (l5 r row 4). done.
  - unfold pg_response_6. response_tac.
    response_load (l1 r row 0). response_load (l2 r row 1). response_load (l3 r row 2).
    response_load (l4 r row 3). response_load (l5 r row 4). response_load (l6 r row 5). done.
  - unfold pg_response_7. response_tac.
    response_load (l1 r row 0). response_load (l2 r row 1). response_load (l3 r row 2).
    response_load (l4 r row 3). response_load (l5 r row 4). response_load (l6 r row 5).
    response_load (l7 r row 6). done.
  - unfold pg_response_8. response_tac.
    response_load (l1 r row 0). response_load (l2 r row 1). response_load (l3 r row 2).
    response_load (l4 r row 3). response_load (l5 r row 4). response_load (l6 r row 5).
    response_load (l7 r row 6). response_load (l8 r row 7). done.
  - unfold pg_response_9. response_tac.
    response_load (l1 r row 0). response_load (l2 r row 1). response_load (l3 r row 2).
    response_load (l4 r row 3). response_load (l5 r row 4). response_load (l6 r row 5).
    response_load (l7 r row 6). response_load (l8 r row 7). response_load (l9 r row 8). done.
  - unfold pg_response_10. response_tac.
    response_load (l1 r row 0). response_load (l2 r row 1). response_load (l3 r row 2).
    response_load (l4 r row 3). response_load (l5 r row 4). response_load (l6 r row 5).
    response_load (l7 r row 6). response_load (l8 r row 7). response_load (l9 r row 8).
    response_load (l10 r row 9). done.
Qed.
End Response_properties.

(** ** A scripted server

    The replies are given in advance, whatever the statements are; statements and
    parameters are recorded. *)
Record tape := Tape {
  tp_log : list (bytes * list (option bytes));
  tp_replies : list (option query_result);
  tp_copied : list bytes;
  tp_live : gset Z;
  tp_transaction : Z
}.

(** A result table: the format and the types of the columns, and the rows. *)
Definition table (fmt : Z) (types : list Z) (rows : list (list bytes)) : query_result :=
  QueryResult 0 PGRES_TUPLES_OK (zlen rows)
    (let cell row col := cells ← zget rows row; zget cells col in
     PGresult (λ _, fmt) (λ col, default 0 (zget types col))
       (λ row col, match cell row col with Some v => zlen v | None => 0 end)
       (λ row col, match cell row col with Some _ => false | None => true end)
       (λ row col, match cell row col with Some v => v ++ [0] | None => [] end)) [] (λ _, None).
Definition command_ok : query_result := QueryResult 0 PGRES_COMMAND_OK 0 no_result [] (λ _, None).
Definition failure (message : bytes) : query_result :=
  QueryResult 0 PGRES_FATAL_ERROR 0 no_result message (λ _, None).

Definition tape_answer (sql : bytes) (values : option (list (option bytes))) (t : tape)
    : option query_result * tape :=
  let log := tp_log t ++ [(sql, default [] values)] in
  match tp_replies t with
  | Some r :: replies =>
      let ptr := fresh (tp_live t) in
      (Some (QueryResult ptr (r_status r) (r_ntuples r) (r_data r) (r_message r) (r_field r)),
       Tape log replies (tp_copied t) ({[ptr]} ∪ tp_live t) (tp_transaction t))
  | _ :: replies => (None, Tape log replies (tp_copied t) (tp_live t) (tp_transaction t))
  | [] => (None, Tape log [] (tp_copied t) (tp_live t) (tp_transaction t))
  end.
Definition set_live (l : gset Z) (t : tape) : tape :=
  Tape (tp_log t) (tp_replies t) (tp_copied t) l (tp_transaction t).

#[global] Instance tape_libpq : libpq tape := {|
  PQconnectdb _ t := (Some 1, t);
  PQconnectdbParams _ _ t := (Some 1, t);
  PQfinish _ t := t;
  PQstatus _ _ := CONNECTION_OK;
  PQtransactionStatus _ t := tp_transaction t;
  PQerrorMessage _ _ := str "error";
  PQexec _ sql t := tape_answer sql None t;
  PQexecParams _ sql _ _ values _ _ _ t := tape_answer sql values t;
  PQgetResult _ t := tape_answer [] None t;
  PQclear r t := match r with Some r => set_live (tp_live t ∖ {[r_ptr r]}) t | None => t end;
  PQputCopyData _ p t := (1, Tape (tp_log t) (tp_replies t) (tp_copied t ++ [p]) (tp_live t) (tp_transaction t));
  PQputCopyEnd _ _ t := (1, t);
  PQgetCopyData _ t := (-1, [], t)
|}.
#[global] Instance tape_live : LiveView tape := tp_live.
Definition x86_64 : machine := Machine ORDER_LITTLE_ENDIAN false.

Lemma tape_answer_allocates sql values : allocates (tape_answer sql values).
Proof.
  intros t. unfold live, tape_live, tape_answer. pose proof (is_fresh (tp_live t)) as Hf.
  destruct (tp_replies t) as [|[r|] ?]; cbn; set_solver.
Qed.
Lemma tape_libpq_laws : libpq_laws tape.
Proof. split; intros; try apply tape_answer_allocates; done. Qed.

Definition start (replies : list (option query_result)) : pgst tape :=
  PgSt (Tape [] replies [] ∅ PQTRANS_INTRANS) (Some 1) None.

(** One parameter of each type, a null pointer and a null C string. *)
Definition sample_args : list pg_arg :=
  [by_value (v_bool true); by_value (v_short (-2)); by_pointer pg_int (Some (v_int 258)); by_pointer pg_bytea None;
   by_value (v_cstring (Some (str "abc" ++ [0]))); by_value (v_cstring None); by_value (v_bytea []);
   by_value (v_long_long 1)].

(** ** Messages *)

(** The lines of a text; a line feed ends a line. *)
Inductive is_lines : bytes → list bytes → Prop :=
| lines_nil : is_lines [] []
| lines_last l : l ≠ [] → Forall (λ c, c ≠ 10) l → is_lines l [l]
| lines_cons l m ls : Forall (λ c, c ≠ 10) l → is_lines m ls → is_lines (l ++ 10 :: m) (l :: ls).

Fixpoint render (prefix infix1 infix2 : bytes) (first : bool) (ls : list bytes) : bytes :=
  match ls with
  | [] => []
  | l :: ls => prefix ++ (if first then infix1 else infix2) ++ l ++ [10] ++ render prefix infix1 infix2 false ls
  end.

(** [dump1] always terminates, and writes each line of the message, and its
    prefixes, once and in order. *)
Lemma dump1_lines prefix infix1 infix2 m : zlen m <= SIZE_MAX →
  ∃ ls, is_lines m ls ∧ dump1 prefix infix1 infix2 m = Ok (render prefix infix1 infix2 true ls).
Proof.
  intros Hm. destruct (sr_of_bytes_ok m Hm) as [Hwf Hstr].
  enough (∀ fuel r first, sr_wf r → (length (sr_str r) < fuel)%nat → ∃ ls, is_lines (sr_str r) ls ∧
    dump1_loop fuel prefix infix1 infix2 first r = Ok (render prefix infix1 infix2 first ls)) as H.
  { destruct (H (Datatypes.S (length m)) (sr_of_bytes m) true Hwf) as (ls & H1 & H2); [rewrite Hstr; lia|].
    rewrite Hstr in H1. by exists ls. }
  clear m Hm Hwf Hstr. induction fuel as [|fuel IH]; intros r first Hwf Hf; [lia|].
  cbn [dump1_loop]. pose proof (zlen_sr_str r Hwf) as Hlen. unfold sr_is_empty at 1.
  destruct (Z.eqb_spec (sr_size r) 0) as [Hz|Hz].
  { exists []. split; [|done]. rewrite (zlen_0_nil (sr_str r)) by lia. constructor. }
  destruct (sr_chr_upto_split r 10 Hwf) as (pre & Hpre & Hwf' & Happ & Hno & Hnl). rewrite Hpre.
  cbn [mbind res_bind]. assert (sr_wf (sr_chr r 10)) as Hcwf.
  { unfold sr_chr. destruct (find_byte 10 (sr_str r)) as [i|] eqn:E; [|apply sr_empty_ref_wf].
    apply find_byte_Some in E as (Hi & _). destruct (sr_suffix_str r i Hwf) as [_ H]; [lia|].
    by replace (sr_start r + sr_size r - (sr_start r + i)) with (sr_size r - i) by lia. }
  pose proof (zlen_sr_str _ Hcwf) as Hclen. unfold sr_is_empty, sr_incr.
  destruct (Z.eqb_spec (sr_size (sr_chr r 10)) 0) as [Hc|Hc].
  - cbn [mbind res_bind]. rewrite (zlen_0_nil (sr_str (sr_chr r 10))), app_nil_r in Happ by lia.
    destruct fuel as [|fuel]; [destruct (sr_str r); [done|cbn in Hf; lia]|].
    cbn [dump1_loop]. unfold sr_is_empty. rewrite Hc. cbn [Z.eqb mbind res_bind].
    exists [sr_str pre]. split; [|done]. rewrite <- Happ. constructor; [|done].
    intros E. rewrite <- Happ, E in Hlen. change (zlen []) with 0 in Hlen. lia.
  - destruct Hnl as [|Hnl]; [lia|]. cbn [mbind res_bind].
    destruct (sr_suffix_str (sr_chr r 10) 1 Hcwf) as [Hs Hswf]; [pose proof Hcwf as (_ & ? & _); lia|].
    destruct (sr_str (sr_chr r 10)) as [|c rest] eqn:Ec; [done|]. injection Hnl as ->.
    change (zdrop 1 (10 :: rest)) with rest in Hs.
    destruct (IH _ false Hswf) as (ls & Hls & ->).
    { rewrite Hs. rewrite <- Happ, length_app in Hf. cbn in Hf. lia. }
    rewrite Hs in Hls. exists (sr_str pre :: ls). cbn [mbind res_bind]. split; [|done]. rewrite <- Happ. by constructor.
Qed.

(** ** COPY *)

(** The state after a sequence of calls of [PQputCopyData] that all succeed. *)
Section Copy.
Context {C : Type} `{L : libpq C}.

Fixpoint put_chunks (chunks : list bytes) (conn : option Z) (c : C) : option C :=
  match chunks with
  | [] => Some c
  | p :: chunks =>
      let '(result, c) := PQputCopyData conn p c in
      if result <? 0 then None else put_chunks chunks conn c
  end.

(** [putCopyData] passes the whole buffer on: it is cut into pieces that are not
    empty and whose lengths are [int]s, these follow each other in the order of the
    buffer, and [putCopyData] returns exactly if libpq accepts all of them; if libpq
    refuses one, the error message of the connection is raised and nothing more is
    sent. *)
Theorem putCopyData_spec (p : bytes) (s : pgst C) : ∃ chunks,
  concat chunks = p ∧ Forall (λ q, 0 < zlen q <= INT_MAX) chunks ∧
  match put_chunks chunks (conn s) (server s) with
  | Some c => putCopyData p s = (Ok tt, set_server c s)
  | None => ∃ sent q unsent c c' n,
      chunks = sent ++ q :: unsent ∧ put_chunks sent (conn s) (server s) = Some c ∧
      PQputCopyData (conn s) q c = (n, c') ∧ n < 0 ∧
      putCopyData p s = throw_conn (set_server c' s)
  end.
Proof.
  unfold putCopyData. assert (length p < Datatypes.S (length p))%nat as Hf by lia. revert Hf.
  generalize (Datatypes.S (length p)) as fuel. intros fuel. revert p s.
  induction fuel as [|fuel IH]; intros p s Hf; [lia|]. cbn [putCopyData_loop].
  destruct (Z.eqb_spec (zlen p) 0) as [Hz|Hz].
  { exists []. apply zlen_0_nil in Hz. subst p. split_and!; [done|constructor|]. by destruct s. }
  set (n := Z.min (zlen p) INT_MAX). pose proof (zlen_nonneg p).
  assert (0 < n <= zlen p ∧ n <= INT_MAX) as Hn by (subst n; unfold INT_MAX; lia).
  unfold mbind, sx_bind, call.
  destruct (PQputCopyData (conn s) (ztake n p) (server s)) as [result c] eqn:Hput.
  assert (zlen (ztake n p) = n) as Hlen by (apply zlen_ztake_le; lia).
  assert (zlen (zdrop n p) = zlen p - n) as Hlen' by (apply zlen_zdrop_le; lia).
  destruct (IH (zdrop n p) (set_server c s)) as (chunks & H1 & H2 & H3); [unfold zlen in *; lia|].
  exists (ztake n p :: chunks).
  split; [cbn; by rewrite H1, ztake_zdrop_id|]. split; [constructor; [lia|done]|].
  cbn [put_chunks]. rewrite Hput. destruct (Z.ltb_spec result 0).
  - exists [], (ztake n p), chunks, (server s), c, result. by split_and!.
  - rewrite Hlen' in H3. cbn [server conn set_server] in H3.
    destruct (put_chunks chunks (conn s) c) as [c'|]; [exact H3|].
    destruct H3 as (sent & q & unsent & d & d' & m & -> & H4 & H5 & H6 & H7).
    exists (ztake n p :: sent), q, unsent, d, d', m. split_and!; try done.
    cbn [put_chunks]. rewrite Hput. by destruct (Z.ltb_spec result 0); [lia|].
Qed.

(** A connection that reports an error is not taken over, and not freed either. *)
Lemma conn_reset_refused p (s : pgst C) : PQstatus p (server s) ≠ CONNECTION_OK →
  conn_reset (Some p) s = (Throw (throw_pg (pg_exception_conn (Some (PQerrorMessage p (server s))))), s).
Proof.
  intros Hp. unfold conn_reset, mbind, sx_bind, sx_get, sx_res, conn_do_check.
  by destruct (Z.eqb_spec (PQstatus p (server s)) CONNECTION_OK).
Qed.
End Copy.

Example put_three : let '(e, s) := putCopyData (str "abc") (start []) in (e, tp_copied (server s)) = (Ok tt, [str "abc"]).
Proof. reflexivity. Qed.

(** An error of the server: the message is raised, the result it came with is freed
    and the handle keeps what it had. *)
Example exec_fails :
  let '(e, s) := (exec (str "SELECT 1");; exec (str "SELEKT 2")) (start [Some command_ok; Some (failure (str "no"))]) in
  (e, r_status <$> raw s, elements (tp_live (server s)), length (tp_log (server s)))
  = (Throw (pg_exception (str "no")), Some PGRES_COMMAND_OK, [0], 2%nat).
Proof. vm_compute. reflexivity. Qed.

(** The hint that is printed is the detail. *)
Example dump_hint :
  dump (λ _, str "PGRES_FATAL_ERROR") (str "# ") (PgError (str "m" ++ [10] ++ str "n") 7 (str "ERROR") (str "42601") []
    (str "the detail") (str "the hint") [] [] [] [] (-1) (-1) (-1))
  = Ok (str "# m" ++ [10] ++ str "#   n" ++ [10] ++
        str "#   status=PGRES_FATAL_ERROR severity=ERROR sqlstate=42601" ++ [10] ++
        str "#   detail: the detail" ++ [10] ++ str "#   hint: the detail" ++ [10]).
Proof. vm_compute. reflexivity. Qed.
