(* ===== verification/Threads.v ===== *)
(** * Threads (lib/cxxll/task.cpp, include/cxxll/mutex.hpp, include/cxxll/cond.hpp)

    The handles of POSIX threads: a mutex with its scoped lock, a condition variable and a
    thread that runs a function.  The calls are a parameter; a mutex or a condition variable
    is its address, a thread its number.  Queue.v and DownloadRepo.v take a critical section
    for a step of its own; [with_lock_spec] is what that rests on: the mutex is held in the
    section and on no way out of it.

    [task_thread] follows the thread of a [task]: it is joined or detached once. *)

From S2P Require Import Prelude.

(** The functions of [pthread.h]; [R] is the type of what a thread runs. *)
Record pthreads (K R : Type) := Pthreads {
  pt_mutex_init : Z → K → Z * K;
  pt_mutex_destroy : Z → K → Z * K;
  pt_mutex_lock : Z → K → Z * K;
  pt_mutex_unlock : Z → K → Z * K;
  pt_cond_init : Z → K → Z * K;
  pt_cond_destroy : Z → K → Z * K;
  pt_cond_wait : Z → Z → K → Z * K;
  pt_cond_signal : Z → K → Z * K;
  pt_cond_broadcast : Z → K → Z * K;
  pt_create : R → K → Z * Z * K;
  pt_detach : Z → K → Z * K;
  pt_join : Z → K → Z * K
}.
Arguments pt_mutex_init {K R}. Arguments pt_mutex_destroy {K R}. Arguments pt_mutex_lock {K R}. Arguments pt_mutex_unlock {K R}.
Arguments pt_cond_init {K R}. Arguments pt_cond_destroy {K R}. Arguments pt_cond_wait {K R}. Arguments pt_cond_signal {K R}.
Arguments pt_cond_broadcast {K R}. Arguments pt_create {K R}. Arguments pt_detach {K R}. Arguments pt_join {K R}.

(** The number of the thread is only set once it runs.
    Source: lib/cxxll/task.cpp 26-29, task::impl. *)
Record task := Task { tk_thread : Z; tk_terminated : bool }.

Section Threads.
Context {K R : Type} (pt : pthreads K R).

(** A call whose result is an error number. *)
Definition checked (call : K → Z * K) : sx K unit := λ k,
  let '(ret, k) := call k in (if negb (ret =? 0) then Throw (os_exception ret) else Ok tt, k).

(** ** Mutexes *)

(** Source: include/cxxll/mutex.hpp 55-62, mutex::mutex. *)
Definition mutex_new (m : Z) : sx K unit := checked (pt_mutex_init pt m).
(** Source: include/cxxll/mutex.hpp 64-68, mutex::~mutex. *)
Definition mutex_destroy (m : Z) (k : K) : K := (pt_mutex_destroy pt m k).2.
(** Source: include/cxxll/mutex.hpp 76-83, mutex::lock. *)
Definition lock (m : Z) : sx K unit := checked (pt_mutex_lock pt m).
(** Source: include/cxxll/mutex.hpp 85-89, mutex::unlock. *)
Definition unlock (m : Z) (k : K) : K := (pt_mutex_unlock pt m k).2.
(** The scope of a [mutex::locker].
    Source: include/cxxll/mutex.hpp 91-102, mutex::locker. *)
Definition with_lock {A} (m : Z) (body : sx K A) : sx K A := λ k,
  match lock m k with
  | (Throw e, k) => (Throw e, k)
  | (Ok _, k) => let '(r, k) := body k in (r, unlock m k)
  end.

(** ** Condition variables *)

(** Source: include/cxxll/cond.hpp 56-63, cond::cond. *)
Definition cond_new (c : Z) : sx K unit := checked (pt_cond_init pt c).
(** Source: include/cxxll/cond.hpp 65-69, cond::~cond. *)
Definition cond_destroy (c : Z) (k : K) : K := (pt_cond_destroy pt c k).2.
(** Source: include/cxxll/cond.hpp 83-90, cond::wait. *)
Definition cond_wait (c m : Z) : sx K unit := checked (pt_cond_wait pt c m).
(** Source: include/cxxll/cond.hpp 92-99, cond::signal. *)
Definition cond_signal (c : Z) : sx K unit := checked (pt_cond_signal pt c).
(** Source: include/cxxll/cond.hpp 101-108, cond::broadcast. *)
Definition cond_broadcast (c : Z) : sx K unit := checked (pt_cond_broadcast pt c).

(** ** Tasks *)

(** Source: lib/cxxll/task.cpp 31-39, task::impl::impl. *)
Definition task_new (f : R) : sx K task := λ k,
  let '(ret, thread, k) := pt_create pt f k in
  (if negb (ret =? 0) then Throw (os_exception ret) else Ok (Task thread false), k).
(** Source: lib/cxxll/task.cpp 41-46, task::impl::~impl. *)
Definition task_destroy (t : task) (k : K) : K := if negb (tk_terminated t) then (pt_detach pt (tk_thread t) k).2 else k.
(** Source: lib/cxxll/task.cpp 65-76, task::wait. *)
Definition task_wait : sx (task * K) unit := λ '(t, k),
  if tk_terminated t then (Ok tt, (t, k))
  else
    let '(ret, k) := pt_join pt (tk_thread t) k in
    (if negb (ret =? 0) then Throw (os_exception ret) else Ok tt, (Task (tk_thread t) true, k)).
End Threads.

(** ** What the calls promise *)

(** The mutexes the caller holds, and the threads that were neither joined nor detached. *)
Class ThreadView (K : Type) := ThreadsOf { held : K → gset Z; joinable : K → gset Z }.

Section thread_laws.
Context {K R : Type} `{ThreadView K}.
Record thread_laws (pt : pthreads K R) : Prop := {
  law_lock m k : let '(ret, k') := pt_mutex_lock pt m k in
    held k' = (if ret =? 0 then {[m]} ∪ held k else held k) ∧ (ret = 0 → m ∉ held k) ∧ joinable k' = joinable k;
  law_unlock m k : m ∈ held k → held (pt_mutex_unlock pt m k).2 = held k ∖ {[m]};
  law_cond_wait c m k : m ∈ held k → held (pt_cond_wait pt c m k).2 = held k;
  law_create f k : let '(ret, thread, k') := pt_create pt f k in
    if ret =? 0 then joinable k' = {[thread]} ∪ joinable k ∧ thread ∉ joinable k else joinable k' = joinable k;
  law_join thread k : thread ∈ joinable k →
    (pt_join pt thread k).1 = 0 ∧ joinable (pt_join pt thread k).2 = joinable k ∖ {[thread]};
  law_detach thread k : thread ∈ joinable k → joinable (pt_detach pt thread k).2 = joinable k ∖ {[thread]}
}.
End thread_laws.

Section thread_facts.
Context {K R : Type} `{ThreadView K} (pt : pthreads K R) (Hlaws : thread_laws pt).

(** A section that holds its own mutexes throughout: it leaves the set of mutexes as it
    was, whether it returns or throws. *)
Definition holds {A} (P : gset Z → Prop) (m : sx K A) : Prop := ∀ k, P (held k) → held (m k).2 = held k.

Lemma cond_wait_holds c m : holds (λ s, m ∈ s) (cond_wait pt c m).
Proof using Hlaws.
  intros k Hm. unfold cond_wait, checked. pose proof (law_cond_wait _ Hlaws c m k Hm) as Hw.
  by destruct (pt_cond_wait pt c m k).
Qed.
Lemma holds_bind {A B} P (m : sx K A) (f : A → sx K B) : holds P m → (∀ a, holds P (f a)) → holds P (m ≫= f).
Proof using.
  intros Hm Hf k Hk. unfold mbind, sx_bind. specialize (Hm k Hk). destruct (m k) as [[a|e] k'] eqn:E; [|done].
  cbn [snd] in Hm. rewrite <- Hm. apply Hf. by rewrite Hm.
Qed.

(** The body runs with the mutex and with those that were held before, or not at all;
    behind the scope the mutexes are those from before. *)
Lemma with_lock_spec {A} m (body : sx K A) k :
  holds (λ s, m ∈ s) body →
  held (with_lock pt m body k).2 = held k ∧
  ((∃ e k', with_lock pt m body k = (Throw e, k')) ∨
   ∃ k1, held k1 = {[m]} ∪ held k ∧ m ∉ held k ∧
         with_lock pt m body k = ((body k1).1, unlock pt m (body k1).2)).
Proof using Hlaws.
  intros Hb. unfold with_lock, lock, checked. pose proof (law_lock _ Hlaws m k) as Hl.
  destruct (pt_mutex_lock pt m k) as [ret k1]. destruct (Z.eqb_spec ret 0) as [->|Hr]; cbn [negb].
  - destruct Hl as (Hh & Hn & _). specialize (Hn eq_refl). specialize (Hb k1 ltac:(set_solver)).
    destruct (body k1) as [r k2] eqn:E. cbn [fst snd] in *. split.
    + unfold unlock. rewrite (law_unlock _ Hlaws) by set_solver. rewrite Hb, Hh. set_solver.
    + right. exists k1. rewrite E. done.
  - destruct Hl as (Hh & _). cbn. split; [done|]. left. eauto.
Qed.

(** *** The thread of a task *)

(** A task while its thread is joined and other threads come and go. *)
Inductive task_trace : gset Z → task → K → Prop :=
| tt_new f k t k' frame : frame = joinable k → task_new pt f k = (Ok t, k') → task_trace frame t k'
| tt_wait frame t k : task_trace frame t k → task_trace frame (task_wait pt (t, k)).2.1 (task_wait pt (t, k)).2.2
| tt_others frame frame' t k k' : task_trace frame t k →
    joinable k' = (joinable k ∖ frame) ∪ frame' → tk_thread t ∉ frame' → task_trace frame' t k'.

Definition own (t : task) : gset Z := if tk_terminated t then ∅ else {[tk_thread t]}.
Definition has_thread (frame : gset Z) (t : task) (k : K) : Prop := joinable k = own t ∪ frame ∧ own t ## frame.
Lemma task_wait_thread frame t k : has_thread frame t k →
  (task_wait pt (t, k)).1 = Ok tt ∧ tk_terminated (task_wait pt (t, k)).2.1 = true ∧
  joinable (task_wait pt (t, k)).2.2 = frame.
Proof using Hlaws.
  unfold has_thread, own, task_wait. intros [Hj Hd]. destruct t as [thread []]; cbn in *; [split_and!; [done..|set_solver]|].
  destruct (law_join _ Hlaws thread k ltac:(set_solver)) as [Hr Hk].
  destruct (pt_join pt thread k) as [ret k']. cbn in *. subst ret. cbn. split_and!; [done..|set_solver].
Qed.

(** Waiting succeeds and may be repeated; afterwards, and after the destructor, the threads
    that are left are those of others. *)
Lemma task_thread frame t k : task_trace frame t k →
  let '(r, (t', k')) := task_wait pt (t, k) in
  r = Ok tt ∧ joinable k' = frame ∧ task_destroy pt t' k' = k' ∧ joinable (task_destroy pt t k) = frame.
Proof using Hlaws.
  intros Ht. assert (Hx : has_thread frame t k).
  { induction Ht as [f k t k' frame -> Hn|frame t k _ IH|frame frame' t k k' _ IH Hk Hf].
    - unfold task_new in Hn. pose proof (law_create _ Hlaws f k) as Hc. destruct (pt_create pt f k) as [[ret thread] k1].
      destruct (ret =? 0); simplify_eq/=. destruct Hc. unfold has_thread, own. cbn. set_solver.
    - destruct (task_wait_thread frame t k IH) as (_ & Hw & Hj). unfold has_thread, own. rewrite Hw, Hj. set_solver.
    - destruct IH as [Hj Hd]. unfold has_thread in *. rewrite Hk, Hj. unfold own in *. destruct (tk_terminated t); set_solver. }
  destruct (task_wait_thread frame t k Hx) as (Hr & Hw & Hj). destruct (task_wait pt (t, k)) as [r [t' k']]. cbn in *.
  split_and!; [done..| |].
  - unfold task_destroy. by rewrite Hw.
  - destruct Hx as [Hj' Hd]. unfold task_destroy, own in *. destruct (tk_terminated t); cbn; [set_solver|].
    rewrite (law_detach _ Hlaws) by set_solver. set_solver.
Qed.
End thread_facts.

(** *** Calls that only count *)

(** The mutexes held and the threads that are joinable. *)
Definition counting : Type := gset Z * gset Z.
#[export] Instance counting_view : ThreadView counting := ThreadsOf _ fst snd.
Definition counting_calls : pthreads counting unit := {|
  pt_mutex_init _ k := (0, k); pt_mutex_destroy _ k := (0, k);
  pt_mutex_lock m k := if bool_decide (m ∈ k.1) then (35, k) else (0, ({[m]} ∪ k.1, k.2));
  pt_mutex_unlock m k := (0, (k.1 ∖ {[m]}, k.2));
  pt_cond_init _ k := (0, k); pt_cond_destroy _ k := (0, k); pt_cond_wait _ _ k := (0, k);
  pt_cond_signal _ k := (0, k); pt_cond_broadcast _ k := (0, k);
  pt_create _ k := (0, fresh k.2, (k.1, {[fresh k.2]} ∪ k.2));
  pt_detach thread k := (0, (k.1, k.2 ∖ {[thread]}));
  pt_join thread k := if bool_decide (thread ∈ k.2) then (0, (k.1, k.2 ∖ {[thread]})) else (3, k)
|}.
Lemma counting_laws : thread_laws counting_calls.
Proof.
  split; cbn; try done.
  - intros m [h j]. cbn. case_bool_decide; cbn; done.
  - intros _ [h j]. cbn. split; [done|apply is_fresh].
  - intros thread [h j] Hin. cbn in *. rewrite bool_decide_eq_true_2 by done. done.
Qed.

(** Mutex 1 is held; a section of mutex 2 fails, and an attempt to take mutex 1 again. *)
Lemma with_lock_spec_witness :
  let m := with_lock counting_calls 2 (sx_throw assertion_failure : sx counting unit) in
  held (m ({[1]}, ∅)).2 = {[1]}.
Proof. exact (proj1 (with_lock_spec counting_calls counting_laws 2 (sx_throw assertion_failure) ({[1]}, ∅) (λ _ _, eq_refl))). Defined.
Lemma task_thread_witness :
  let k : counting := (∅, {[fresh (∅ : gset Z)]} ∪ ∅) in
  joinable (task_destroy counting_calls (Task (fresh (∅ : gset Z)) false) k) = ∅.
Proof.
  refine (proj2 (proj2 (proj2 (task_thread counting_calls counting_laws ∅ _ (∅, {[fresh (∅ : gset Z)]} ∪ ∅)
            (tt_new counting_calls tt (∅, ∅) _ _ ∅ eq_refl eq_refl))))).
Defined.
