(* ===== verification/Queue.v ===== *)
(** * The bounded ordered queue (include/cxxll/bounded_ordered_queue.hpp)

    The state that the mutex protects, the critical sections of the operations as
    functions on it, and the interleavings of threads that run them as a step
    relation.  A critical section is one atomic step, up to the place where it
    gives up the mutex in [cond::wait].  A waiting thread can be woken by a
    signal, by a broadcast, or for no reason at all; it then competes for the
    mutex again and retests its condition. *)

From S2P Require Import Prelude.

Section queue.
Context {Key Value : Type} (lt : Key → Key → bool).

(** ** The protected state *)

(** The [multimap] is the list of its elements in iteration order.
    Source: include/cxxll/bounded_ordered_queue.hpp 35-42, bounded_ordered_queue. *)
Record queue := Queue { q_map : list (Key * Value); q_capacity : Z; q_producers : Z }.

(** [std::multimap::insert]: behind the elements whose key is not greater. *)
Fixpoint map_insert (key : Key) (value : Value) (m : list (Key * Value)) : list (Key * Value) :=
  match m with
  | [] => [(key, value)]
  | e :: m' => if lt key e.1 then (key, value) :: m else e :: map_insert key value m'
  end.

(** Source: include/cxxll/bounded_ordered_queue.hpp 179-186, bounded_ordered_queue::check. *)
Definition check (capacity : Z) : res unit :=
  if capacity =? 0 then Throw (logic_error (str "bounded_ordered_queue capacity must not be zero"))
  else Ok tt.

(** Source: include/cxxll/bounded_ordered_queue.hpp 83-89, bounded_ordered_queue::bounded_ordered_queue. *)
Definition queue_new2 (capacity producers : Z) : res queue :=
  check capacity;; Ok (Queue [] capacity producers).

(** Source: include/cxxll/bounded_ordered_queue.hpp 76-81, bounded_ordered_queue::bounded_ordered_queue. *)
Definition queue_new (capacity : Z) : res queue := check capacity;; Ok (Queue [] capacity 1).

(** The counter is incremented before the test, so it has wrapped around when
    the exception is thrown.
    Source: include/cxxll/bounded_ordered_queue.hpp 96-104, bounded_ordered_queue::add_producer. *)
Definition add_producer (q : queue) : res unit * queue :=
  let q := Queue (q_map q) (q_capacity q) (u32 (q_producers q + 1)) in
  if q_producers q =? 0 then (Throw (runtime_error (str "too many producers")), q) else (Ok tt, q).

(** The second component tells whether the readers are woken by a broadcast.
    Source: include/cxxll/bounded_ordered_queue.hpp 106-117, bounded_ordered_queue::remove_producer. *)
Definition remove_producer (q : queue) : res bool * queue :=
  if q_producers q =? 0 then (Throw queue_without_producers, q)
  else
    let q := Queue (q_map q) (q_capacity q) (q_producers q - 1) in
    (Ok (q_producers q =? 0), q).

(** Source: include/cxxll/bounded_ordered_queue.hpp 119-124, bounded_ordered_queue::producers. *)
Definition producers (q : queue) : Z := q_producers q.

(** Source: include/cxxll/bounded_ordered_queue.hpp 172-177, bounded_ordered_queue::size_estimate. *)
Definition size_estimate (q : queue) : Z := zlen (q_map q).

(** From the loop of [push] on: wait, or insert and signal the readers.
    Source: include/cxxll/bounded_ordered_queue.hpp 134-138, bounded_ordered_queue::push. *)
Definition push_retry (key : Key) (value : Value) (q : queue) : option queue :=
  if q_capacity q <=? zlen (q_map q) then None
  else Some (Queue (map_insert key value (q_map q)) (q_capacity q) (q_producers q)).

(** Source: include/cxxll/bounded_ordered_queue.hpp 126-139, bounded_ordered_queue::push. *)
Definition push (key : Key) (value : Value) (q : queue) : res (option queue) :=
  if q_producers q =? 0 then
    Throw (logic_error (str "bounded_ordered_queue push without producers"))
  else Ok (push_retry key value q).

(** How a critical section of [pop] ends: in [wait], with [false], or with an
    element, after which the writers are signalled. *)
Inductive pop_outcome :=
| PopWait
| PopFalse
| PopElement (e : Key * Value) (q : queue).

(** Source: include/cxxll/bounded_ordered_queue.hpp 141-159, bounded_ordered_queue::pop. *)
Definition pop (q : queue) : pop_outcome :=
  match q_map q with
  | [] => if 0 <? q_producers q then PopWait else PopFalse
  | e :: m => PopElement e (Queue m (q_capacity q) (q_producers q))
  end.

(** The overload that throws instead of returning [false]; [None] is waiting.
    Source: include/cxxll/bounded_ordered_queue.hpp 161-169, bounded_ordered_queue::pop. *)
Definition pop_or_throw (q : queue) : option (res (Key * Value) * queue) :=
  match pop q with
  | PopWait => None
  | PopFalse => Some (Throw queue_without_producers, q)
  | PopElement e q => Some (Ok e, q)
  end.

(** ** Threads *)

(** Where a thread is: outside of the queue, waiting for [writer_] inside of
    [push] or for [reader_] inside of [pop], or woken from there. *)
Inductive thread :=
| Idle
| PushWaiting (key : Key) (value : Value)
| PushWoken (key : Key) (value : Value)
| PopWaiting
| PopWoken.

Record system := System { sys_queue : queue; sys_threads : list thread }.

(** What happened, for the statements about executions. *)
Inductive event :=
| Pushed (key : Key) (value : Value)
| Popped (e : Key * Value)
| PopReturnedFalse
| ProducersChanged
| Raised (e : exn)
| Quiet.

(** [cond::signal] wakes a waiting thread if there is one; [cond::broadcast] all. *)
Inductive signal_readers : list thread → list thread → Prop :=
| signal_no_reader l : PopWaiting ∉ l → signal_readers l l
| signal_reader l1 l2 : signal_readers (l1 ++ PopWaiting :: l2) (l1 ++ PopWoken :: l2).
Inductive signal_writers : list thread → list thread → Prop :=
| signal_no_writer l : (∀ k v, PushWaiting k v ∉ l) → signal_writers l l
| signal_writer k v l1 l2 : signal_writers (l1 ++ PushWaiting k v :: l2) (l1 ++ PushWoken k v :: l2).
Definition broadcast_readers (l : list thread) : list thread :=
  (λ t, match t with PopWaiting => PopWoken | t => t end) <$> l.

(** One step of one thread. *)
Inductive step : system → event → system → Prop :=
| step_push_error q l key value e :
    Idle ∈ l → push key value q = Throw e →
    step (System q l) (Raised e) (System q l)
| step_push_wait q l1 l2 key value :
    push key value q = Ok None →
    step (System q (l1 ++ Idle :: l2)) Quiet (System q (l1 ++ PushWaiting key value :: l2))
| step_push q q' l l' key value :
    Idle ∈ l → push key value q = Ok (Some q') → signal_readers l l' →
    step (System q l) (Pushed key value) (System q' l')
| step_push_again q l1 l2 key value :
    push_retry key value q = None →
    step (System q (l1 ++ PushWoken key value :: l2)) Quiet
         (System q (l1 ++ PushWaiting key value :: l2))
| step_push_woken q q' l1 l2 l' key value :
    push_retry key value q = Some q' → signal_readers (l1 ++ Idle :: l2) l' →
    step (System q (l1 ++ PushWoken key value :: l2)) (Pushed key value) (System q' l')
| step_pop_wait q l1 t l2 :
    t = Idle ∨ t = PopWoken → pop q = PopWait →
    step (System q (l1 ++ t :: l2)) Quiet (System q (l1 ++ PopWaiting :: l2))
| step_pop_false q l1 t l2 :
    t = Idle ∨ t = PopWoken → pop q = PopFalse →
    step (System q (l1 ++ t :: l2)) PopReturnedFalse (System q (l1 ++ Idle :: l2))
| step_pop q q' l1 t l2 l' e :
    t = Idle ∨ t = PopWoken → pop q = PopElement e q' → signal_writers (l1 ++ Idle :: l2) l' →
    step (System q (l1 ++ t :: l2)) (Popped e) (System q' l')
| step_add_producer q q' l :
    Idle ∈ l → add_producer q = (Ok tt, q') →
    step (System q l) ProducersChanged (System q' l)
| step_add_producer_error q q' l e :
    Idle ∈ l → add_producer q = (Throw e, q') →
    step (System q l) (Raised e) (System q' l)
| step_remove_producer q q' l broadcast :
    Idle ∈ l → remove_producer q = (Ok broadcast, q') →
    step (System q l) ProducersChanged
         (System q' (if (broadcast : bool) then broadcast_readers l else l))
| step_remove_producer_error q q' l e :
    Idle ∈ l → remove_producer q = (Throw e, q') →
    step (System q l) (Raised e) (System q' l)
| step_spurious_reader q l1 l2 :
    step (System q (l1 ++ PopWaiting :: l2)) Quiet (System q (l1 ++ PopWoken :: l2))
| step_spurious_writer q l1 l2 key value :
    step (System q (l1 ++ PushWaiting key value :: l2)) Quiet
         (System q (l1 ++ PushWoken key value :: l2)).

(** The systems reached from the start, with the events so far. *)
Inductive reachable (init : system) : list event → system → Prop :=
| reach_init : reachable init [] init
| reach_step tr s ev s' : reachable init tr s → step s ev s' → reachable init (tr ++ [ev]) s'.

(** A new queue and threads that have not called it yet. *)
Definition start (capacity producers : Z) (n : nat) : system :=
  System (Queue [] capacity producers) (replicate n Idle).

(** ** Histories *)

Definition pushed (tr : list event) : list (Key * Value) :=
  omap (λ ev, match ev with Pushed k v => Some (k, v) | _ => None end) tr.
Definition popped (tr : list event) : list (Key * Value) :=
  omap (λ ev, match ev with Popped e => Some e | _ => None end) tr.

(** [e] comes no later than [f] in the order of the keys. *)
Definition key_le (e f : Key * Value) : Prop := lt f.1 e.1 = false.

(** Threads by where they are. *)
Definition is_pop_waiting (t : thread) : bool := match t with PopWaiting => true | _ => false end.
Definition is_pop_woken (t : thread) : bool := match t with PopWoken => true | _ => false end.
Definition is_push_waiting (t : thread) : bool := match t with PushWaiting _ _ => true | _ => false end.
Definition is_push_woken (t : thread) : bool := match t with PushWoken _ _ => true | _ => false end.
Fixpoint count (p : thread → bool) (l : list thread) : Z :=
  match l with [] => 0 | t :: l => (if p t then 1 else 0) + count p l end.

(** ** Lemmas *)

Section ordered.
Context (lt_asym : ∀ a b, lt a b = true → lt b a = false).
Context (lt_neg_trans : ∀ a b c, lt a b = false → lt b c = false → lt a c = false).

Lemma map_insert_sorted k v m : StronglySorted key_le m → StronglySorted key_le (map_insert k v m).
Proof using lt_asym lt_neg_trans.
  induction 1 as [|e m Hm IH He]; simpl; [by repeat constructor|].
  destruct (lt k e.1) eqn:E.
  - constructor; [by constructor|]. constructor; [by apply lt_asym|].
    eapply Forall_impl; [exact He|]. intros f Hf. unfold key_le in *. simpl. eapply lt_neg_trans; [exact Hf|by apply lt_asym].
  - constructor; [done|]. clear IH. induction He as [|f m Hf Hfm IHm]; simpl; [by repeat constructor|].
    apply StronglySorted_inv in Hm as [Hm _]. destruct (lt k f.1); constructor; auto.
Qed.
End ordered.

Lemma map_insert_perm k v m : map_insert k v m ≡ₚ (k, v) :: m.
Proof.
  induction m as [|e m IH]; simpl; [done|]. destruct (lt k e.1); [done|]. rewrite IH. by constructor.
Qed.
Lemma map_insert_len k v m : zlen (map_insert k v m) = 1 + zlen m.
Proof. unfold zlen. rewrite (Permutation_length (map_insert_perm k v m)). simpl. lia. Qed.

Lemma count_app p l k : count p (l ++ k) = count p l + count p k.
Proof. induction l as [|t l IH]; simpl; lia. Qed.
Lemma count_nonneg p l : 0 <= count p l.
Proof. induction l as [|t l IH]; simpl; [lia|]. destruct (p t); lia. Qed.
Lemma count_0 p l : count p l = 0 → ∀ t, t ∈ l → p t = false.
Proof.
  induction l as [|x l IH]; simpl; intros H t Ht; [by apply not_elem_of_nil in Ht|].
  pose proof (count_nonneg p l). apply elem_of_cons in Ht as [->|Ht].
  - destruct (p x); [lia|done].
  - apply IH; [destruct (p x); lia|done].
Qed.
Lemma count_pos p t l : t ∈ l → p t = true → 0 < count p l.
Proof.
  induction 1 as [x l|x y l _ IH]; simpl; intros Hp; [rewrite Hp; pose proof (count_nonneg p l); lia|].
  specialize (IH Hp). destruct (p y); lia.
Qed.
Lemma count_replicate p n : p Idle = false → count p (replicate n Idle) = 0.
Proof. intros H. induction n; simpl; [done|]. rewrite H. lia. Qed.

(** What the wake-ups do to the numbers of threads. *)
Lemma signal_readers_count l l' : signal_readers l l' →
  count is_push_waiting l' = count is_push_waiting l ∧ count is_push_woken l' = count is_push_woken l ∧
  ((count is_pop_waiting l = 0 ∧ l' = l) ∨
   (count is_pop_waiting l' = count is_pop_waiting l - 1 ∧ count is_pop_woken l' = count is_pop_woken l + 1)).
Proof.
  destruct 1 as [l Hl|l1 l2]; [|rewrite !count_app; simpl; split_and!; [lia..|right; lia]].
  split_and!; [done..|]. left. split; [|done]. clear -Hl. induction l as [|t l IH]; [done|].
  apply not_elem_of_cons in Hl as [H1 H2]. simpl. rewrite (IH H2). by destruct t.
Qed.
Lemma signal_writers_count l l' : signal_writers l l' →
  count is_pop_waiting l' = count is_pop_waiting l ∧ count is_pop_woken l' = count is_pop_woken l ∧
  ((count is_push_waiting l = 0 ∧ l' = l) ∨
   (count is_push_waiting l' = count is_push_waiting l - 1 ∧ count is_push_woken l' = count is_push_woken l + 1)).
Proof.
  destruct 1 as [l Hl|k v l1 l2]; [|rewrite !count_app; simpl; split_and!; [lia..|right; lia]].
  split_and!; [done..|]. left. split; [|done]. clear -Hl. induction l as [|t l IH]; [done|].
  simpl. rewrite IH.
  - destruct t; try done. by destruct (Hl key value); left.
  - intros k v Hin. apply (Hl k v). by right.
Qed.
Lemma broadcast_count l : count is_pop_waiting (broadcast_readers l) = 0 ∧
  count is_push_waiting (broadcast_readers l) = count is_push_waiting l ∧
  count is_push_woken (broadcast_readers l) = count is_push_woken l.
Proof. induction l as [|t l (H1 & H2 & H3)]; [done|]. destruct t; simpl in *; lia. Qed.

(** ** Invariants *)

(** The data: capacity, order, and conservation of the elements. *)
Definition data_inv (capacity : Z) (tr : list event) (s : system) : Prop :=
  let q := sys_queue s in
  q_capacity q = capacity ∧ zlen (q_map q) <= capacity ∧ StronglySorted key_le (q_map q) ∧
  pushed tr ≡ₚ popped tr ++ q_map q.

(** The wake-ups: there are at least as many woken readers as elements, and at
    least as many woken writers as free places, while others still wait. *)
Definition wake_inv (s : system) : Prop :=
  let q := sys_queue s in let l := sys_threads s in
  0 <= q_producers q ∧
  (0 < count is_pop_waiting l → 0 < q_producers q ∧ zlen (q_map q) <= count is_pop_woken l) ∧
  (0 < count is_push_waiting l → q_capacity q - zlen (q_map q) <= count is_push_woken l).

Lemma omap_snoc {A B} (f : A → option B) l x :
  omap f (l ++ [x]) = omap f l ++ match f x with Some y => [y] | None => [] end.
Proof. rewrite omap_app. simpl. by destruct (f x). Qed.
Lemma pushed_snoc tr ev : pushed (tr ++ [ev]) =
  pushed tr ++ match ev with Pushed k v => [(k, v)] | _ => [] end.
Proof. unfold pushed. rewrite omap_snoc. by destruct ev. Qed.
Lemma popped_snoc tr ev : popped (tr ++ [ev]) =
  popped tr ++ match ev with Popped e => [e] | _ => [] end.
Proof. unfold popped. rewrite omap_snoc. by destruct ev. Qed.

Lemma push_retry_Some k v q q' : push_retry k v q = Some q' →
  q' = Queue (map_insert k v (q_map q)) (q_capacity q) (q_producers q) ∧ zlen (q_map q) < q_capacity q.
Proof. unfold push_retry. destruct (Z.leb_spec (q_capacity q) (zlen (q_map q))); [done|]. by intros [= <-]. Qed.
Lemma push_retry_None k v q : push_retry k v q = None → q_capacity q <= zlen (q_map q).
Proof. unfold push_retry. by destruct (Z.leb_spec (q_capacity q) (zlen (q_map q))). Qed.
Lemma push_Ok k v q r : push k v q = Ok r → q_producers q ≠ 0 ∧ push_retry k v q = r.
Proof. unfold push. destruct (Z.eqb_spec (q_producers q) 0); [done|]. by intros [= <-]. Qed.
Lemma pop_inv q : match pop q with
  | PopWait => q_map q = [] ∧ 0 < q_producers q
  | PopFalse => q_map q = [] ∧ q_producers q <= 0
  | PopElement e q' => q_map q = e :: q_map q' ∧ q' = Queue (q_map q') (q_capacity q) (q_producers q)
  end.
Proof. unfold pop. destruct (q_map q); [|done]. by destruct (Z.ltb_spec 0 (q_producers q)). Qed.

(** Every step preserves the invariants. *)
Definition too_many_producers : event := Raised (runtime_error (str "too many producers")).

Section preservation.
Context (lt_asym : ∀ a b, lt a b = true → lt b a = false).
Context (lt_neg_trans : ∀ a b c, lt a b = false → lt b c = false → lt a c = false).

Lemma push_data capacity tr q l l' k v q' : data_inv capacity tr (System q l) →
  push_retry k v q = Some q' → data_inv capacity (tr ++ [Pushed k v]) (System q' l').
Proof using lt_asym lt_neg_trans.
  intros (H1 & H2 & H3 & H4) [-> Hc]%push_retry_Some. cbn [sys_queue] in *. unfold data_inv. cbn [sys_queue q_map q_capacity].
  rewrite map_insert_len, pushed_snoc, popped_snoc. split_and!; [done|lia|by apply map_insert_sorted|].
  rewrite H4, map_insert_perm, app_nil_r, <- app_assoc. f_equiv. symmetry. apply Permutation_cons_append.
Qed.
Lemma data_quiet capacity tr q q' l l' ev : data_inv capacity tr (System q l) →
  q_map q' = q_map q → q_capacity q' = q_capacity q → (∀ k v, ev ≠ Pushed k v) → (∀ e, ev ≠ Popped e) →
  data_inv capacity (tr ++ [ev]) (System q' l').
Proof.
  intros (H1 & H2 & H3 & H4) E1 E2 H5 H6. unfold data_inv in *. cbn [sys_queue] in *.
  rewrite pushed_snoc, popped_snoc, E1, E2. destruct ev; try done; rewrite ?app_nil_r; try done.
  - by destruct (H5 key value).
  - by destruct (H6 e).
Qed.
Lemma add_producer_eq q r q' : add_producer q = (r, q') → q_map q' = q_map q ∧ q_capacity q' = q_capacity q.
Proof. unfold add_producer. simpl. by destruct (_ =? 0); intros [= <- <-]. Qed.
Lemma remove_producer_eq q r q' : remove_producer q = (r, q') → q_map q' = q_map q ∧ q_capacity q' = q_capacity q.
Proof. unfold remove_producer. by destruct (q_producers q =? 0); intros [= <- <-]. Qed.

Lemma step_data capacity tr s ev s' : data_inv capacity tr s → step s ev s' →
  data_inv capacity (tr ++ [ev]) s'.
Proof using lt_asym lt_neg_trans.
  intros Hinv Hstep.
  destruct Hstep as [q l k v e _ _|q l1 l2 k v _|q q' l l' k v _ Hp _|q l1 l2 k v _|q q' l1 l2 l' k v Hp _
    |q l1 t l2 _ _|q l1 t l2 _ _|q q' l1 t l2 l' e _ Hp _|q q' l _ Hp|q q' l e _ Hp|q q' l b _ Hp|q q' l e _ Hp|q l1 l2|q l1 l2 k v];
    try (by apply (data_quiet _ _ _ _ _ _ _ Hinv)).
  - apply push_Ok in Hp as [_ Hp]. by eapply push_data.
  - by eapply push_data.
  - pose proof (pop_inv q) as H. rewrite Hp in H. destruct H as [Hm Hq].
    destruct Hinv as (H1 & H2 & H3 & H4). unfold data_inv. cbn [sys_queue] in *.
    rewrite Hm in *. rewrite Hq, pushed_snoc, popped_snoc. cbn [q_map q_capacity].
    rewrite zlen_cons in H2. split_and!; [done|lia|by apply StronglySorted_inv in H3 as [? _]|].
    by rewrite app_nil_r, H4, <- app_assoc.
  - apply add_producer_eq in Hp as [? ?]. by apply (data_quiet _ _ _ _ _ _ _ Hinv).
  - apply add_producer_eq in Hp as [? ?]. by apply (data_quiet _ _ _ _ _ _ _ Hinv).
  - apply remove_producer_eq in Hp as [? ?]. by apply (data_quiet _ _ _ _ _ _ _ Hinv).
  - apply remove_producer_eq in Hp as [? ?]. by apply (data_quiet _ _ _ _ _ _ _ Hinv).
Qed.
Lemma reachable_data capacity producers n tr s : 0 <= capacity →
  reachable (start capacity producers n) tr s → data_inv capacity tr s.
Proof using lt_asym lt_neg_trans.
  intros Hc. induction 1 as [|tr s ev s' _ IH Hs]; [|by eapply step_data].
  split_and!; [done|done|constructor|done].
Qed.
End preservation.

(** A push leaves one element more and signals the readers; a pop leaves one
    place more and signals the writers. *)
Lemma push_wake q q' l l' k v : push_retry k v q = Some q' → signal_readers l l' →
  0 <= q_producers q →
  (0 < count is_pop_waiting l → 0 < q_producers q ∧ zlen (q_map q) <= count is_pop_woken l) →
  (0 < count is_push_waiting l → q_capacity q - zlen (q_map q) - 1 <= count is_push_woken l) →
  wake_inv (System q' l').
Proof.
  intros [-> Hc]%push_retry_Some (Hw1 & Hw2 & Hs)%signal_readers_count H0 Hr Hw. unfold wake_inv.
  cbn [sys_queue sys_threads q_map q_capacity q_producers]. rewrite map_insert_len, Hw1, Hw2.
  pose proof (count_nonneg is_pop_waiting l').
  destruct Hs as [[Hs ->]|[Hs1 Hs2]]; split_and!; lia.
Qed.
Lemma pop_wake q q' l l' e : pop q = PopElement e q' → signal_writers l l' →
  0 <= q_producers q →
  (0 < count is_pop_waiting l → 0 < q_producers q ∧ zlen (q_map q) - 1 <= count is_pop_woken l) →
  (0 < count is_push_waiting l → q_capacity q - zlen (q_map q) <= count is_push_woken l) →
  wake_inv (System q' l').
Proof.
  intros Hp (Hw1 & Hw2 & Hs)%signal_writers_count H0 Hr Hw. pose proof (pop_inv q) as H. rewrite Hp in H.
  destruct H as [Hm Hq]. unfold wake_inv. cbn [sys_queue sys_threads]. rewrite Hm, zlen_cons in *.
  rewrite Hq. cbn [q_map q_capacity q_producers]. rewrite Hw1, Hw2.
  pose proof (count_nonneg is_push_waiting l'). destruct Hs as [[Hs ->]|[Hs1 Hs2]]; split_and!; lia.
Qed.

Lemma step_wake s ev s' : wake_inv s → ev ≠ too_many_producers → step s ev s' → wake_inv s'.
Proof.
  intros (H0 & Hr & Hw) Hev Hstep.
  destruct Hstep as [q l k v e _ _|q l1 l2 k v Hp|q q' l l' k v _ Hp Hs|q l1 l2 k v Hp|q q' l1 l2 l' k v Hp Hs
    |q l1 t l2 Ht Hp|q l1 t l2 Ht Hp|q q' l1 t l2 l' e Ht Hp Hs|q q' l _ Hp|q q' l e _ Hp|q q' l b _ Hp|q q' l e _ Hp|q l1 l2|q l1 l2 k v];
    cbn [sys_queue sys_threads] in *.
  - by split_and!.
  - apply push_Ok in Hp as [_ Hp%push_retry_None]. unfold wake_inv. cbn [sys_queue sys_threads].
    rewrite !count_app in *. simpl in *. pose proof (count_nonneg is_push_woken l1).
    pose proof (count_nonneg is_push_woken l2). split_and!; lia.
  - apply push_Ok in Hp as [_ Hp]. apply (push_wake _ _ _ _ _ _ Hp Hs); lia.
  - apply push_retry_None in Hp. unfold wake_inv. cbn [sys_queue sys_threads].
    rewrite !count_app in *. simpl in *. pose proof (count_nonneg is_push_woken l1).
    pose proof (count_nonneg is_push_woken l2). split_and!; lia.
  - apply (push_wake _ _ _ _ _ _ Hp Hs); [lia|..]; rewrite !count_app in *; simpl in *; lia.
  - pose proof (pop_inv q) as H. rewrite Hp in H. destruct H as [Hm Hpr]. unfold wake_inv.
    cbn [sys_queue sys_threads]. assert (zlen (q_map q) = 0) as Hz by by rewrite Hm. rewrite !count_app in *. simpl in *.
    pose proof (count_nonneg is_pop_woken l1). pose proof (count_nonneg is_pop_woken l2).
    destruct Ht as [->| ->]; simpl in *; split_and!; lia.
  - pose proof (pop_inv q) as H. rewrite Hp in H. destruct H as [Hm Hpr]. unfold wake_inv.
    cbn [sys_queue sys_threads]. assert (zlen (q_map q) = 0) as Hz by by rewrite Hm. rewrite !count_app in *. simpl in *.
    destruct Ht as [->| ->]; simpl in *; split_and!; lia.
  - apply (pop_wake _ _ _ _ _ Hp Hs); [lia|..]; rewrite !count_app in *; destruct Ht as [->| ->]; simpl in *; lia.
  - unfold add_producer in Hp. cbn [q_producers] in Hp.
    destruct (Z.eqb_spec (u32 (q_producers q + 1)) 0); [done|]. injection Hp as <-. unfold wake_inv.
    cbn [sys_queue sys_threads q_map q_capacity q_producers].
    pose proof (Z.mod_pos_bound (q_producers q + 1) 4294967296 ltac:(lia)). unfold u32 in *. split_and!; lia.
  - unfold add_producer in Hp. destruct (q_producers _ =? 0); [|done]. by injection Hp as <- <-.
  - unfold remove_producer in Hp. destruct (Z.eqb_spec (q_producers q) 0); [done|]. injection Hp as <- <-.
    unfold wake_inv. cbn [sys_queue sys_threads q_map q_capacity q_producers] in *.
    destruct (Z.eqb_spec (q_producers q - 1) 0); [|split_and!; lia].
    destruct (broadcast_count l) as (-> & -> & ->). split_and!; lia.
  - unfold remove_producer in Hp. destruct (q_producers q =? 0); [|done]. injection Hp as _ <-. by split_and!.
  - unfold wake_inv. cbn [sys_queue sys_threads]. rewrite !count_app in *. simpl in *. split_and!; lia.
  - unfold wake_inv. cbn [sys_queue sys_threads]. rewrite !count_app in *. simpl in *. split_and!; lia.
Qed.
Lemma reachable_wake capacity producers n tr s : 0 <= producers →
  reachable (start capacity producers n) tr s → too_many_producers ∉ tr → wake_inv s.
Proof.
  intros Hp. induction 1 as [|tr s ev s' _ IH Hs]; intros Htr.
  - unfold wake_inv, start. simpl. rewrite (count_replicate is_pop_waiting n eq_refl), (count_replicate is_push_waiting n eq_refl). split_and!; lia.
  - rewrite not_elem_of_app, list_elem_of_singleton in Htr. destruct Htr as [Htr Hev].
    by apply (step_wake s ev s' (IH Htr)); [congruence|].
Qed.
End queue.

(** ** Properties *)

(** C37: In every interleaving of pushes, pops and producer changes the queue never
    holds more than its capacity, no element is lost, duplicated or invented (what
    was pushed is what was popped together with what is in the queue), its
    elements are in key order, and an element that is popped has the smallest key. *)
Theorem queue_safety {Key Value} (lt : Key → Key → bool) (capacity producers : Z) (n : nat)
    (tr : list event) (s : system) :
  (∀ a b, lt a b = true → lt b a = false) →
  (∀ a b c, lt a b = false → lt b c = false → lt a c = false) →
  0 < capacity → reachable lt (start (Key:=Key) (Value:=Value) capacity producers n) tr s →
  zlen (q_map (sys_queue s)) <= capacity ∧ StronglySorted (key_le lt) (q_map (sys_queue s)) ∧
  pushed tr ≡ₚ popped tr ++ q_map (sys_queue s) ∧
  ∀ e s', step lt s (Popped e) s' → Forall (key_le lt e) (q_map (sys_queue s')).
Proof.
  intros Hasym Hneg Hc Hr.
  destruct (reachable_data lt Hasym Hneg capacity producers n tr s ltac:(lia) Hr) as (H1 & H2 & H3 & H4).
  split_and!; [done..|]. intros e s' Hstep.
  inversion Hstep as [| | | | | | |q q' l1 t l2 l' e' Ht Hp Hs| | | | | |]; subst.
  pose proof (pop_inv q) as H. rewrite Hp in H. destruct H as [Hm _]. cbn [sys_queue] in *.
  rewrite Hm in H3. by apply StronglySorted_inv in H3 as [_ H3].
Qed.

(** C31: No wake-up is lost: as long as the number of producers does not overflow,
    a reader only sleeps while there are producers and every element in the queue
    has a woken reader to take it, and a writer only sleeps while every free place
    has a woken writer.  So when nobody is woken, readers sleep only on an empty
    queue and writers only on a full one, and never both at once. *)
Theorem queue_no_lost_wakeup {Key Value} (lt : Key → Key → bool) (capacity producers : Z) (n : nat)
    (tr : list event) (s : system) :
  (∀ a b, lt a b = true → lt b a = false) →
  (∀ a b c, lt a b = false → lt b c = false → lt a c = false) →
  0 < capacity → 0 <= producers → reachable lt (start (Key:=Key) (Value:=Value) capacity producers n) tr s →
  too_many_producers ∉ tr →
  let q := sys_queue s in let l := sys_threads s in
  (PopWaiting ∈ l → 0 < q_producers q ∧ zlen (q_map q) <= count is_pop_woken l) ∧
  ((∃ k v, PushWaiting k v ∈ l) → capacity - zlen (q_map q) <= count is_push_woken l) ∧
  (count is_pop_woken l = 0 → count is_push_woken l = 0 →
     (PopWaiting ∈ l → q_map q = []) ∧ ((∃ k v, PushWaiting k v ∈ l) → zlen (q_map q) = capacity) ∧
     ¬ (PopWaiting ∈ l ∧ ∃ k v, PushWaiting k v ∈ l)).
Proof.
  intros Hasym Hneg Hc Hp Hr Htr q l.
  destruct (reachable_data lt Hasym Hneg capacity producers n tr s ltac:(lia) Hr) as (H1 & H2 & _).
  destruct (reachable_wake lt capacity producers n tr s Hp Hr Htr) as (_ & Hread & Hwrite).
  fold q in H1, H2, Hread, Hwrite. fold l in Hread, Hwrite. rewrite H1 in Hwrite.
  assert (PopWaiting ∈ l → 0 < q_producers q ∧ zlen (q_map q) <= count is_pop_woken l) as A.
  { intros Hin. apply Hread. by eapply count_pos. }
  assert ((∃ k v, PushWaiting k v ∈ l) → capacity - zlen (q_map q) <= count is_push_woken l) as B.
  { intros (k & v & Hin). apply Hwrite. by eapply count_pos. }
  split_and!; [done|done|]. intros Hr0 Hw0. pose proof (zlen_nonneg (q_map q)).
  split_and!; [intros Hin; apply zlen_0_nil|..].
  - destruct (A Hin). lia.
  - intros Hin. specialize (B Hin). lia.
  - intros [Hin1 Hin2]. specialize (A Hin1). specialize (B Hin2). lia.
Qed.

(** A reader that has to wait, and two elements pushed out of order. *)
Definition sample_trace : list (@event Z Z) := [Quiet; Pushed 5 7; Pushed 3 8].
Definition sample_system : @system Z Z := System (Queue [(3, 8); (5, 7)] 2 1) [PopWoken; Idle].
Lemma sample_reachable : reachable Z.ltb (start 2 1 2) sample_trace sample_system.
Proof.
  apply (reach_step _ _ [Quiet; Pushed 5 7] (System (Queue [(5, 7)] 2 1) [PopWoken; Idle]) (Pushed 3 8)).
  - apply (reach_step _ _ [Quiet] (System (Queue [] 2 1) [PopWaiting; Idle]) (Pushed 5 7)).
    + apply (reach_step _ _ [] (start 2 1 2) Quiet); [apply reach_init|].
      apply (step_pop_wait Z.ltb (Queue [] 2 1) [] Idle [Idle]); [by left|done].
    + apply step_push; [set_solver|done|]. apply (signal_reader [] [Idle]).
  - apply step_push; [set_solver|done|]. apply signal_no_reader. set_solver.
Qed.
Lemma ltb_asym a b : Z.ltb a b = true → Z.ltb b a = false.
Proof. lia. Qed.
Lemma ltb_neg_trans a b c : Z.ltb a b = false → Z.ltb b c = false → Z.ltb a c = false.
Proof. lia. Qed.

Example queue_safety_witness :
  StronglySorted (key_le Z.ltb) [(3, 8); (5, 7)] ∧ pushed sample_trace ≡ₚ [(3, 8); (5, 7)].
Proof.
  destruct (queue_safety Z.ltb 2 1 2 sample_trace sample_system ltb_asym ltb_neg_trans eq_refl sample_reachable)
    as (_ & H2 & H3 & _).
  by split.
Defined.
Definition waiting_system : @system Z Z := System (Queue [] 2 1) [PopWaiting; Idle].
Lemma waiting_reachable : reachable Z.ltb (start 2 1 2) [Quiet] waiting_system.
Proof.
  apply (reach_step _ _ [] (start 2 1 2) Quiet); [apply reach_init|].
  apply (step_pop_wait Z.ltb (Queue [] 2 1) [] Idle [Idle]); [by left|done].
Qed.
Example queue_no_lost_wakeup_witness :
  0 < q_producers (sys_queue waiting_system) ∧
  zlen (q_map (sys_queue waiting_system)) <= count is_pop_woken (sys_threads waiting_system).
Proof.
  refine (proj1 (queue_no_lost_wakeup Z.ltb 2 1 2 [Quiet] waiting_system ltb_asym ltb_neg_trans eq_refl
    Z.le_0_1 waiting_reachable _) _); [|by left].
  intros Hin. apply list_elem_of_singleton in Hin. discriminate Hin.
Defined.
