(* ===== verification/SortedMap.v ===== *)
(** * Ordered maps with string keys

    [std::map<std::string, A>] as the list of its elements in iteration order.
    Several components use such maps and depend on the order of iteration. *)

From S2P Require Import Prelude.

Definition smap (A : Type) : Type := list (bytes * A).

Fixpoint sm_find {A} (k : bytes) (m : smap A) : option A :=
  match m with
  | [] => None
  | (k', v) :: m => if bool_decide (k = k') then Some v else sm_find k m
  end.

(** [map[k] = v]: replaces the value of an existing key. *)
Fixpoint sm_set {A} (k : bytes) (v : A) (m : smap A) : smap A :=
  match m with
  | [] => [(k, v)]
  | (k', v') :: m' =>
      match bytes_cmp k k' with
      | Lt => (k, v) :: m
      | Eq => (k, v) :: m'
      | Gt => (k', v') :: sm_set k v m'
      end
  end.

(** [map.insert (std::make_pair (k, v))]: keeps an existing value. *)
Definition sm_insert {A} (k : bytes) (v : A) (m : smap A) : smap A :=
  match sm_find k m with Some _ => m | None => sm_set k v m end.

Definition sm_keys {A} (m : smap A) : list bytes := fst <$> m.
Definition sm_sorted {A} (m : smap A) : Prop :=
  StronglySorted (λ a b, bytes_ltb a b = true) (sm_keys m).

Lemma sm_find_set {A} k k' (v : A) m :
  sm_find k (sm_set k' v m) = if bool_decide (k = k') then Some v else sm_find k m.
Proof.
  induction m as [|[j w] m IH]; simpl; [done|].
  destruct (bytes_cmp k' j) eqn:E; simpl.
  - apply bytes_cmp_eq in E as ->. by destruct (bool_decide (k = j)).
  - done.
  - rewrite IH. destruct (bool_decide_reflect (k = j)) as [->|]; [|done].
    destruct (bool_decide_reflect (j = k')) as [->|]; [|done]. by rewrite bytes_cmp_refl in E.
Qed.
Lemma sm_find_insert {A} k k' (v : A) m : sm_find k (sm_insert k' v m) =
  match sm_find k m with Some w => Some w | None => if bool_decide (k = k') then Some v else None end.
Proof.
  unfold sm_insert. destruct (sm_find k' m) eqn:E.
  - destruct (sm_find k m) eqn:E2; [done|]. destruct (bool_decide_reflect (k = k')) as [->|]; congruence.
  - rewrite sm_find_set. destruct (bool_decide_reflect (k = k')) as [->|]; [by rewrite E|by destruct (sm_find k m)].
Qed.

Lemma sm_keys_set {A} k (v : A) m x : x ∈ sm_keys (sm_set k v m) ↔ x = k ∨ x ∈ sm_keys m.
Proof.
  unfold sm_keys. induction m as [|[j w] m IH]; [simpl; rewrite list_elem_of_singleton, elem_of_nil; tauto|].
  cbn [sm_set]. destruct (bytes_cmp k j) eqn:E; rewrite !fmap_cons, !elem_of_cons; cbn [fst].
  - apply bytes_cmp_eq in E as ->. tauto.
  - tauto.
  - rewrite IH. tauto.
Qed.
Lemma sm_set_sorted {A} k (v : A) m : sm_sorted m → sm_sorted (sm_set k v m).
Proof.
  unfold sm_sorted. induction m as [|[j w] m IH]; simpl; intros Hs; [by repeat constructor|].
  apply StronglySorted_inv in Hs as [Hs Hj]. destruct (bytes_cmp k j) eqn:E; simpl.
  - apply bytes_cmp_eq in E as ->. by constructor.
  - constructor; [by constructor|]. assert (bytes_ltb k j = true) as Hlt by (unfold bytes_ltb; by rewrite E).
    constructor; [done|]. eapply Forall_impl; [exact Hj|]. intros x Hx. by eapply bytes_ltb_trans.
  - constructor; [by apply IH|]. apply Forall_forall. intros x Hx. apply sm_keys_set in Hx as [->|Hx].
    + unfold bytes_ltb. by rewrite bytes_cmp_antisym, E.
    + rewrite Forall_forall in Hj. by apply Hj.
Qed.
Lemma sm_insert_sorted {A} k (v : A) m : sm_sorted m → sm_sorted (sm_insert k v m).
Proof. unfold sm_insert. destruct (sm_find k m); [done|]. apply sm_set_sorted. Qed.
Lemma sm_find_elem {A} (m : smap A) k v : sm_sorted m → (k, v) ∈ m ↔ sm_find k m = Some v.
Proof.
  unfold sm_sorted. induction m as [|[j w] m IH]; simpl; intros Hs; [by rewrite elem_of_nil|].
  apply StronglySorted_inv in Hs as [Hs Hj]. rewrite elem_of_cons, (IH Hs).
  destruct (bool_decide_reflect (k = j)) as [->|Hne]; [|naive_solver].
  split; [|naive_solver]. intros [[= ->]|H]; [done|]. apply (IH Hs) in H.
  rewrite Forall_forall in Hj. specialize (Hj j). rewrite bytes_ltb_irrefl in Hj.
  assert (false = true) as [=]. apply Hj. apply list_elem_of_fmap. by exists (j, v).
Qed.
Lemma sm_find_keys {A} (m : smap A) k : is_Some (sm_find k m) ↔ k ∈ sm_keys m.
Proof.
  induction m as [|[j w] m IH]; simpl; [rewrite elem_of_nil; by split; [intros []|]|].
  rewrite elem_of_cons. fold (sm_keys m). rewrite <- IH. destruct (bool_decide_reflect (k = j)); naive_solver.
Qed.
