(* ===== verification/RpmInfo.v ===== *)
(** * Information about packages (rpm_evr, rpm_file_info, rpm_package_info,
    rpm_dependency, rpm_script, package_set_consolidator) *)

From S2P Require Import Prelude Utf8 Hash SortedMap.

(** ** Records *)

(** Source: include/cxxll/rpm_file_info.hpp 30-43, rpm_file_info. *)
Record rpm_file_info := RpmFileInfo {
  fi_name : bytes; fi_user : bytes; fi_group : bytes; fi_capabilities : bytes; fi_linkto : bytes;
  fi_digest : checksum; fi_mode : Z; fi_mtime : Z; fi_ino : Z; fi_flags : Z; fi_normalized : bool
}.

(** Source: lib/cxxll/rpm_file_info.cpp 28-31, rpm_file_info::rpm_file_info. *)
Definition rpm_file_info_new : rpm_file_info :=
  RpmFileInfo [] [] [] [] [] checksum_new 0 0 0 0 false.

(** [S_ISDIR] and [S_ISLNK] of POSIX, [RPMFILE_GHOST] of librpm. *)
Definition S_IFMT : Z := 61440.
Definition S_IFDIR : Z := 16384.
Definition S_IFLNK : Z := 40960.
Definition RPMFILE_GHOST : Z := 64.

(** Source: lib/cxxll/rpm_file_info.cpp 37-41, rpm_file_info::is_directory. *)
Definition is_directory (f : rpm_file_info) : bool := Z.land (fi_mode f) S_IFMT =? S_IFDIR.
(** Source: lib/cxxll/rpm_file_info.cpp 43-47, rpm_file_info::is_symlink. *)
Definition is_symlink (f : rpm_file_info) : bool := Z.land (fi_mode f) S_IFMT =? S_IFLNK.
(** Source: lib/cxxll/rpm_file_info.cpp 58-62, rpm_file_info::ghost. *)
Definition ghost (f : rpm_file_info) : bool := negb (Z.land (fi_flags f) RPMFILE_GHOST =? 0).

(** Source: lib/cxxll/rpm_file_info.cpp 49-56, rpm_file_info::normalize_name. *)
Definition normalize_name (f : rpm_file_info) : rpm_file_info :=
  if negb (fi_normalized f) && negb (is_valid_utf8 (fi_name f)) then
    RpmFileInfo (latin1_to_utf8 (fi_name f)) (fi_user f) (fi_group f) (fi_capabilities f) (fi_linkto f)
      (fi_digest f) (fi_mode f) (fi_mtime f) (fi_ino f) (fi_flags f) true
  else f.

Inductive package_kind := kind_binary | kind_source.

(** Source: include/cxxll/rpm_package_info.hpp 26-41, rpm_package_info. *)
Record rpm_package_info := RpmPackageInfo {
  pi_name : bytes; pi_version : bytes; pi_release : bytes; pi_arch : bytes; pi_source_rpm : bytes;
  pi_hash : bytes; pi_build_host : bytes; pi_summary : bytes; pi_description : bytes;
  pi_license : bytes; pi_group : bytes; pi_build_time : Z; pi_epoch : Z; pi_kind : package_kind;
  pi_normalized : bool
}.

(** Source: lib/cxxll/rpm_package_info.cpp 24-27, rpm_package_info::rpm_package_info. *)
Definition rpm_package_info_new : rpm_package_info :=
  RpmPackageInfo [] [] [] [] [] [] [] [] [] [] [] 0 (-1) kind_binary false.

(** Source: lib/cxxll/rpm_package_info.cpp 33-40, rpm_package_info::normalize. *)
Definition normalize (p : rpm_package_info) : rpm_package_info :=
  if negb (is_valid_utf8 (pi_license p)) then
    RpmPackageInfo (pi_name p) (pi_version p) (pi_release p) (pi_arch p) (pi_source_rpm p) (pi_hash p)
      (pi_build_host p) (pi_summary p) (pi_description p) (latin1_to_utf8 (pi_license p)) (pi_group p)
      (pi_build_time p) (pi_epoch p) (pi_kind p) true
  else p.

(** Source: include/cxxll/rpm_dependency.hpp 26-31, rpm_dependency::kind_type. *)
Inductive dependency_kind := dep_require | dep_provide | dep_conflict | dep_obsolete.

(** Source: include/cxxll/rpm_dependency.hpp 35-38, rpm_dependency. *)
Record rpm_dependency := RpmDependency {
  dep_capability : bytes; dep_version : bytes; dep_kind : dependency_kind; dep_flags : Z
}.

(** Source: lib/cxxll/rpm_dependency.cpp 42-45, rpm_dependency::rpm_dependency. *)
Definition rpm_dependency_new (k : dependency_kind) : rpm_dependency := RpmDependency [] [] k 0.

(** Source: lib/cxxll/rpm_dependency.cpp 26-40, rpm_dependency::to_string. *)
Definition dependency_to_string (k : dependency_kind) : bytes :=
  match k with
  | dep_require => str "require" | dep_provide => str "provide"
  | dep_conflict => str "conflict" | dep_obsolete => str "obsolete"
  end.

(** Source: include/cxxll/rpm_script.hpp 27-35, rpm_script::kind. *)
Inductive script_kind := pretrans | prein | postin | preun | postun | posttrans | verify.

(** Source: lib/cxxll/rpm_script.cpp 26-46, rpm_script::to_string. *)
Definition script_to_string (k : script_kind) : bytes :=
  match k with
  | pretrans => str "pretrans" | prein => str "prein" | postin => str "postin" | preun => str "preun"
  | postun => str "postun" | posttrans => str "posttrans" | verify => str "verify"
  end.

(** Source: include/cxxll/rpm_script.hpp 43-46, rpm_script. *)
Record rpm_script := RpmScript {
  sc_script : bytes; sc_prog : list bytes; sc_type : script_kind; sc_present : bool
}.
(** Source: lib/cxxll/rpm_script.cpp 48-51, rpm_script::rpm_script. *)
Definition rpm_script_new (k : script_kind) : rpm_script := RpmScript [] [] k false.

(** Source: include/cxxll/rpm_trigger.hpp 29-35, rpm_trigger::condition. *)
Record trigger_condition := TriggerCondition { tc_name : bytes; tc_version : bytes; tc_flags : Z }.
(** Source: include/cxxll/rpm_trigger.hpp 37-39, rpm_trigger. *)
Record rpm_trigger := RpmTrigger {
  tr_script : bytes; tr_prog : bytes; tr_conditions : list trigger_condition
}.
(** The arguments are C strings.
    Source: lib/cxxll/rpm_trigger.cpp 38-41, rpm_trigger::rpm_trigger. *)
Definition rpm_trigger_new (scr prg : bytes) : rpm_trigger :=
  RpmTrigger (until_nul scr) (until_nul prg) [].

(** ** Versions *)

(** Source: include/cxxll/rpm_evr.hpp 26-29, rpm_evr. *)
Record rpm_evr := RpmEvr { evr_epoch : bytes; evr_version : bytes; evr_release : bytes }.

Section evr.
(** [rpmvercmp] of librpm, on C strings. *)
Context (rpmvercmp : bytes → bytes → Z).

(** Source: lib/cxxll/rpm_evr.cpp 33-48, rpm_evr::operator. *)
Definition evr_lt (a b : rpm_evr) : bool :=
  if bool_decide (evr_epoch a = evr_epoch b) then
    let ret := rpmvercmp (until_nul (evr_version a)) (until_nul (evr_version b)) in
    if negb (ret =? 0) then ret <? 0
    else rpmvercmp (until_nul (evr_release a)) (until_nul (evr_release b)) <? 0
  else if negb (zlen (evr_epoch a) =? zlen (evr_epoch b)) then
    zlen (evr_epoch a) <? zlen (evr_epoch b)
  else bytes_ltb (evr_epoch a) (evr_epoch b).

(** ** The consolidator *)

Context {T : Type}.

(** Source: include/cxxll/package_set_consolidator.hpp 41-49, package_set_consolidator::value. *)
Record value := Value { v_version : rpm_evr; v_data : T }.

(** Source: include/cxxll/package_set_consolidator.hpp 51-53, package_set_consolidator::arch_map. *)
Definition arch_map : Type := smap (smap value).

(** The assignment of the [int] epoch to a string keeps one character of it.
    Source: include/cxxll/package_set_consolidator.hpp 77-80, package_set_consolidator::add. *)
Definition info_evr (info : rpm_package_info) : rpm_evr :=
  RpmEvr [u8 (pi_epoch info)] (pi_version info) (pi_release info).

(** Source: include/cxxll/package_set_consolidator.hpp 73-93, package_set_consolidator::add. *)
Definition add (map : arch_map) (info : rpm_package_info) (v : T) : arch_map :=
  let evr := info_evr info in
  let nmap := default [] (sm_find (pi_arch info) map) in
  let nmap :=
    match sm_find (pi_name info) nmap with
    | None => sm_set (pi_name info) (Value evr v) nmap
    | Some p => if evr_lt (v_version p) evr then sm_set (pi_name info) (Value evr v) nmap else nmap
    end in
  sm_set (pi_arch info) nmap map.

(** Source: include/cxxll/package_set_consolidator.hpp 95-109, package_set_consolidator::values. *)
Definition values (map : arch_map) : list T :=
  concat (List.map (λ archp : bytes * smap value, List.map (λ namep : bytes * value, v_data namep.2) archp.2) map).

(** ** What is consolidated *)

(** A run: packages added one after the other. *)
Definition consolidate (adds : list (rpm_package_info * T)) : arch_map :=
  foldl (λ m x, add m x.1 x.2) [] adds.
Definition find2 (map : arch_map) (arch name : bytes) : option value :=
  nmap ← sm_find arch map; sm_find name nmap.
Definition has_key (arch name : bytes) (x : rpm_package_info * T) : Prop :=
  pi_arch x.1 = arch ∧ pi_name x.1 = name.
#[global] Instance has_key_dec arch name x : Decision (has_key arch name x).
Proof. unfold has_key. apply _. Defined.

(** [val] is the first of the packages with the largest version for the key. *)
Definition first_largest (adds : list (rpm_package_info * T)) (arch name : bytes) (val : value) : Prop :=
  ∃ pre info d post, adds = pre ++ (info, d) :: post ∧ has_key arch name (info, d) ∧
    val = Value (info_evr info) d ∧
    (∀ x, x ∈ pre → has_key arch name x → evr_lt (info_evr x.1) (info_evr info) = true) ∧
    (∀ x, x ∈ post → has_key arch name x → evr_lt (info_evr info) (info_evr x.1) = false).

(** [rpmvercmp] compares: it is antisymmetric and transitive. *)
Record vercmp_ok : Prop := {
  vc_antisym a b : Z.sgn (rpmvercmp b a) = - Z.sgn (rpmvercmp a b);
  vc_trans a b c : rpmvercmp a b <= 0 → rpmvercmp b c <= 0 → rpmvercmp a c <= 0
}.

(** ** Lemmas *)

(** The order on epochs: by length, then by bytes. *)
Definition epoch_lt (a b : bytes) : bool :=
  if negb (zlen a =? zlen b) then zlen a <? zlen b else bytes_ltb a b.
Lemma bytes_ltb_asym a b : bytes_ltb a b = true → bytes_ltb b a = false.
Proof. unfold bytes_ltb. rewrite (bytes_cmp_antisym a b). by destruct (bytes_cmp a b). Qed.
Lemma epoch_lt_asym a b : epoch_lt a b = true → epoch_lt b a = false.
Proof.
  unfold epoch_lt. destruct (Z.eqb_spec (zlen a) (zlen b)), (Z.eqb_spec (zlen b) (zlen a)); simpl; try lia.
  apply bytes_ltb_asym.
Qed.
Lemma epoch_lt_trans a b c : epoch_lt a b = true → epoch_lt b c = true → epoch_lt a c = true.
Proof.
  unfold epoch_lt. destruct (Z.eqb_spec (zlen a) (zlen b)), (Z.eqb_spec (zlen b) (zlen c)),
    (Z.eqb_spec (zlen a) (zlen c)); simpl; try lia. apply bytes_ltb_trans.
Qed.
Lemma epoch_lt_total a b : epoch_lt a b = false → epoch_lt b a = false → a = b.
Proof.
  unfold epoch_lt. destruct (Z.eqb_spec (zlen a) (zlen b)), (Z.eqb_spec (zlen b) (zlen a)); simpl; try lia.
  apply bytes_ltb_total.
Qed.
Lemma evr_lt_epoch a b : evr_epoch a ≠ evr_epoch b → evr_lt a b = epoch_lt (evr_epoch a) (evr_epoch b).
Proof. intros H. unfold evr_lt, epoch_lt. by rewrite bool_decide_eq_false_2. Qed.

Section order.
Context (Hvc : vercmp_ok).
Lemma vercmp_neg a b : (rpmvercmp a b < 0 ↔ 0 < rpmvercmp b a) ∧ (rpmvercmp a b = 0 ↔ rpmvercmp b a = 0).
Proof using Hvc. pose proof (vc_antisym Hvc a b). lia. Qed.

(** The sign of a comparison, and how signs compose. *)
Lemma vercmp_ge_trans a b c : 0 <= rpmvercmp a b → 0 <= rpmvercmp b c →
  0 <= rpmvercmp a c ∧ (0 < rpmvercmp a b ∨ 0 < rpmvercmp b c → 0 < rpmvercmp a c).
Proof using Hvc.
  intros H1 H2. pose proof (vercmp_neg a b) as Nab. pose proof (vercmp_neg b c) as Nbc.
  pose proof (vercmp_neg a c) as Nac.
  assert (rpmvercmp c a <= 0) as Hca by (apply (vc_trans Hvc c b a); lia).
  split; [lia|]. intros Hs. destruct (decide (rpmvercmp a c = 0)) as [Hz|]; [|lia].
  assert (rpmvercmp a b <= 0) by (apply (vc_trans Hvc a c b); lia).
  assert (rpmvercmp b c <= 0) by (apply (vc_trans Hvc b a c); lia). lia.
Qed.
Lemma evr_lt_same a b : evr_epoch a = evr_epoch b →
  evr_lt a b = let v := rpmvercmp (until_nul (evr_version a)) (until_nul (evr_version b)) in
    (v <? 0) || (v =? 0) && (rpmvercmp (until_nul (evr_release a)) (until_nul (evr_release b)) <? 0).
Proof.
  intros E. unfold evr_lt. rewrite bool_decide_eq_true_2 by done. cbn zeta.
  destruct (Z.eqb_spec (rpmvercmp (until_nul (evr_version a)) (until_nul (evr_version b))) 0) as [->|]; simpl; [done|].
  by rewrite orb_false_r.
Qed.
Lemma evr_lt_asym a b : evr_lt a b = true → evr_lt b a = false.
Proof using Hvc.
  destruct (decide (evr_epoch a = evr_epoch b)) as [E|E].
  - rewrite !evr_lt_same by done. cbn zeta.
    pose proof (vercmp_neg (until_nul (evr_version a)) (until_nul (evr_version b))).
    pose proof (vercmp_neg (until_nul (evr_release a)) (until_nul (evr_release b))). lia.
  - rewrite !evr_lt_epoch by congruence. apply epoch_lt_asym.
Qed.
Lemma evr_lt_neg_trans a b c : evr_lt a b = false → evr_lt b c = false → evr_lt a c = false.
Proof using Hvc.
  destruct (decide (evr_epoch a = evr_epoch b)) as [E|E], (decide (evr_epoch b = evr_epoch c)) as [F|F].
  - rewrite !evr_lt_same by congruence. cbn zeta. rewrite !orb_false_iff, !andb_false_iff. intros [H1 H2] [H3 H4].
    pose proof (vercmp_ge_trans (until_nul (evr_version a)) (until_nul (evr_version b)) (until_nul (evr_version c))).
    pose proof (vercmp_ge_trans (until_nul (evr_release a)) (until_nul (evr_release b)) (until_nul (evr_release c))).
    zbool. split; lia.
  - rewrite (evr_lt_epoch b c), (evr_lt_epoch a c), E by congruence. done.
  - rewrite (evr_lt_epoch a b), (evr_lt_epoch a c), F by congruence. done.
  - rewrite (evr_lt_epoch a b), (evr_lt_epoch b c) by done. intros H1 H2.
    assert (epoch_lt (evr_epoch b) (evr_epoch a) = true) as H3.
    { destruct (epoch_lt (evr_epoch b) (evr_epoch a)) eqn:H; [done|]. by destruct E; apply epoch_lt_total. }
    assert (epoch_lt (evr_epoch c) (evr_epoch b) = true) as H4.
    { destruct (epoch_lt (evr_epoch c) (evr_epoch b)) eqn:H; [done|]. by destruct F; apply epoch_lt_total. }
    pose proof (epoch_lt_trans _ _ _ H4 H3) as H5. rewrite evr_lt_epoch; [by apply epoch_lt_asym|].
    intros Eq. rewrite Eq in H5. rewrite (epoch_lt_asym _ _ H5) in H5. done.
Qed.
End order.

Lemma find2_default map arch name : find2 map arch name = sm_find name (default [] (sm_find arch map)).
Proof. unfold find2. by destruct (sm_find arch map). Qed.
Lemma find2_add map info v arch name : find2 (add map info v) arch name =
  if decide (has_key arch name (info, v)) then
    match find2 map arch name with
    | Some p => if evr_lt (v_version p) (info_evr info) then Some (Value (info_evr info) v) else Some p
    | None => Some (Value (info_evr info) v)
    end
  else find2 map arch name.
Proof.
  rewrite !find2_default. unfold add, has_key. cbn [fst]. rewrite sm_find_set.
  destruct (bool_decide_reflect (arch = pi_arch info)) as [->|Ha].
  - cbn [default from_option id]. set (nm := default [] _). destruct (decide _) as [[_ <-]|Hn].
    + destruct (sm_find (pi_name info) nm) as [p|] eqn:E; [|by rewrite sm_find_set, bool_decide_eq_true_2].
      destruct (evr_lt (v_version p) (info_evr info)); [by rewrite sm_find_set, bool_decide_eq_true_2|done].
    + assert (name ≠ pi_name info) as Hne by (intros ->; by apply Hn).
      destruct (sm_find (pi_name info) nm) as [p|] eqn:E; [|by rewrite sm_find_set, bool_decide_eq_false_2].
      destruct (evr_lt (v_version p) (info_evr info)); [by rewrite sm_find_set, bool_decide_eq_false_2|done].
  - destruct (decide _) as [[? _]|]; [congruence|done].
Qed.

(** The maps stay sorted, at both levels. *)
Definition map_sorted (map : arch_map) : Prop := sm_sorted map ∧ ∀ a n, sm_find a map = Some n → sm_sorted n.
Lemma add_sorted map info v : map_sorted map → map_sorted (add map info v).
Proof.
  intros [H1 H2]. split; [by apply sm_set_sorted|]. intros a n. unfold add. rewrite sm_find_set.
  destruct (bool_decide_reflect (a = pi_arch info)) as [->|]; [|apply H2].
  assert (sm_sorted (default [] (sm_find (pi_arch info) map))) as Hn.
  { destruct (sm_find (pi_arch info) map) eqn:E; [by eapply H2|constructor]. }
  intros [= <-]. repeat case_match; try done; by apply sm_set_sorted.
Qed.
Lemma consolidate_snoc adds x : consolidate (adds ++ [x]) = add (consolidate adds) x.1 x.2.
Proof. unfold consolidate. by rewrite foldl_app. Qed.
Lemma consolidate_sorted adds : map_sorted (consolidate adds).
Proof.
  induction adds as [|x adds IH] using rev_ind; [by split; [constructor|]|].
  rewrite consolidate_snoc. by apply add_sorted.
Qed.

Lemma consolidate_best (Hvc : vercmp_ok) adds arch name :
  match find2 (consolidate adds) arch name with
  | Some val => first_largest adds arch name val
  | None => ∀ x, x ∈ adds → ¬ has_key arch name x
  end.
Proof.
  induction adds as [|[info v] adds IH] using rev_ind; [by intros x Hx%elem_of_nil|].
  rewrite consolidate_snoc, find2_add. cbn [fst snd].
  destruct (find2 (consolidate adds) arch name) as [val|] eqn:E.
  - destruct IH as (pre & i & d & post & -> & Hk & -> & Hpre & Hpost). cbn [v_version].
    destruct (decide _) as [Hkey|Hkey]; [destruct (evr_lt (info_evr i) (info_evr info)) eqn:Hlt|].
    + exists (pre ++ (i, d) :: post), info, v, []. split_and!; [done|done|done| |by intros x Hx%elem_of_nil].
      intros x Hx Hxk. rewrite elem_of_app, elem_of_cons in Hx.
      assert (evr_lt (info_evr i) (info_evr x.1) = false) as Hix.
      { destruct Hx as [Hx|[->|Hx]].
        - apply (evr_lt_asym Hvc). by apply Hpre.
        - cbn [fst]. destruct (evr_lt (info_evr i) (info_evr i)) eqn:Hii; [|done]. by rewrite (evr_lt_asym Hvc _ _ Hii) in Hii.
        - by apply Hpost. }
      destruct (evr_lt (info_evr x.1) (info_evr info)) eqn:Hxi; [done|].
      by rewrite (evr_lt_neg_trans Hvc _ _ _ Hix Hxi) in Hlt.
    + exists pre, i, d, (post ++ [(info, v)]). rewrite <- app_assoc. split_and!; [done..|].
      intros x Hx Hxk. apply elem_of_app in Hx as [Hx|Hx%list_elem_of_singleton]; [by apply Hpost|by subst x].
    + exists pre, i, d, (post ++ [(info, v)]). rewrite <- app_assoc. split_and!; [done..|].
      intros x Hx Hxk. apply elem_of_app in Hx as [Hx|Hx%list_elem_of_singleton]; [by apply Hpost|by subst x].
  - destruct (decide _) as [Hkey|Hkey].
    + exists adds, info, v, []. split_and!; [done|done|done| |by intros x Hx%elem_of_nil].
      intros x Hx Hxk. by destruct (IH x Hx).
    + intros x Hx Hxk. apply elem_of_app in Hx as [Hx|Hx%list_elem_of_singleton]; [by apply (IH x)|by subst x].
Qed.

(** The entries of the map in the order of [values]. *)
Definition entries (map : arch_map) : list (bytes * bytes * value) :=
  concat (List.map (λ archp : bytes * smap value, List.map (λ namep : bytes * value, (archp.1, namep.1, namep.2)) archp.2) map).
Lemma values_entries map : values map = List.map (λ e, v_data e.2) (entries map).
Proof.
  unfold values, entries. induction map as [|[a n] map IH]; [done|]. cbn [List.map concat]. rewrite map_app, IH.
  f_equal. cbn [snd]. by rewrite map_map.
Qed.
Lemma elem_entries map arch name val : map_sorted map →
  (arch, name, val) ∈ entries map ↔ find2 map arch name = Some val.
Proof.
  intros [H1 H2]. unfold entries, find2. rewrite list_elem_of_In, in_concat. split.
  - intros (l & (archp & <- & Ha)%in_map_iff & ([n w] & [= <- <- <-] & Hn)%in_map_iff).
    destruct archp as [a nm]. apply list_elem_of_In in Ha, Hn. cbn [fst snd] in *.
    apply (sm_find_elem _ _ _ H1) in Ha. rewrite Ha. cbn [mbind option_bind].
    by apply (sm_find_elem _ _ _ (H2 _ _ Ha)).
  - destruct (sm_find arch map) as [nm|] eqn:Ha; [|done]. cbn [mbind option_bind]. intros Hn.
    eexists. split; [apply in_map_iff; exists (arch, nm); split; [reflexivity|]|].
    + apply list_elem_of_In. by apply (sm_find_elem _ _ _ H1).
    + apply in_map_iff. exists (name, val). split; [done|]. apply list_elem_of_In.
      by apply (sm_find_elem _ _ _ (H2 _ _ Ha)).
Qed.
End evr.

(** The keys of [entries] are different from each other. *)
Lemma sorted_keys_nodup {A} (m : smap A) : sm_sorted m → NoDup (sm_keys m).
Proof.
  unfold sm_sorted. induction 1 as [|k ks _ IH Hk]; constructor; [|done].
  intros Hin. rewrite Forall_forall in Hk. specialize (Hk k Hin). by rewrite bytes_ltb_irrefl in Hk.
Qed.
Lemma entries_nodup {T} (map : @arch_map T) : map_sorted map → NoDup (List.map fst (entries map)).
Proof.
  intros [H1 H2]. apply sorted_keys_nodup in H1 as Hnd.
  assert (∀ a n, (a, n) ∈ map → sm_sorted n) as Hs.
  { intros a n Hin. apply (H2 a). by apply sm_find_elem. }
  clear H1 H2. unfold entries. induction map as [|[a n] map IH]; cbn [List.map concat]; [constructor|].
  apply NoDup_cons in Hnd as [Ha Hnd]. rewrite map_app, map_map. cbn [fst snd]. apply NoDup_app. split_and!.
  - assert (sm_sorted n) as Hn by (apply (Hs a); left). apply sorted_keys_nodup in Hn. clear -Hn.
    induction n as [|[k v] n IH]; simpl in *; [constructor|]. apply NoDup_cons in Hn as [Hk Hn].
    constructor; [|by apply IH]. rewrite list_elem_of_In, in_map_iff. intros ([k' v'] & [= ->] & Hin).
    apply Hk. apply list_elem_of_fmap. exists (k, v'). split; [done|]. by apply list_elem_of_In.
  - intros [a' n'] Hin1 Hin2. apply list_elem_of_In, in_map_iff in Hin1 as (p & [= <- <-] & _).
    apply list_elem_of_In, in_map_iff in Hin2 as ([[a2 n2] v2] & [= -> ->] & Hin2).
    apply in_concat in Hin2 as (l & (archp & <- & Hl)%in_map_iff & (q & [= Ha2 _ _] & _)%in_map_iff).
    apply Ha. apply list_elem_of_fmap. exists archp. split; [done|]. by apply list_elem_of_In.
  - apply IH; [done|]. intros a' n' Hin. apply (Hs a'). by right.
Qed.

(** ** Properties *)

(** The consolidator keeps exactly one package for each pair of architecture
    and name that was added, namely the first of those with the largest
    version, and [values] returns these packages and nothing else, one for each
    pair.  ([rpmvercmp] is assumed to be antisymmetric and transitive.) *)
Theorem consolidator_spec {T} (rpmvercmp : bytes → bytes → Z) (adds : list (rpm_package_info * T)) :
  vercmp_ok rpmvercmp →
  let map := consolidate rpmvercmp adds in
  values map = List.map (λ e, v_data e.2) (entries map) ∧
  NoDup (List.map fst (entries map)) ∧
  (∀ arch name val, (arch, name, val) ∈ entries map → first_largest rpmvercmp adds arch name val) ∧
  (∀ x, x ∈ adds → ∃ val, (pi_arch x.1, pi_name x.1, val) ∈ entries map).
Proof.
  intros Hvc map. pose proof (consolidate_sorted rpmvercmp adds) as Hs. fold map in Hs.
  split_and!; [apply values_entries|by apply entries_nodup|..].
  - intros arch name val Hin. apply elem_entries in Hin; [|done].
    pose proof (consolidate_best rpmvercmp Hvc adds arch name) as H. fold map in H. by rewrite Hin in H.
  - intros x Hx. pose proof (consolidate_best rpmvercmp Hvc adds (pi_arch x.1) (pi_name x.1)) as H. fold map in H.
    destruct (find2 map (pi_arch x.1) (pi_name x.1)) as [val|] eqn:E; [|by destruct (H x Hx)].
    exists val. by apply elem_entries.
Qed.

(** A comparison for the examples: by length. *)
Definition length_vercmp (a b : bytes) : Z := zlen a - zlen b.
Lemma length_vercmp_ok : vercmp_ok length_vercmp.
Proof. split; unfold length_vercmp; lia. Qed.
Definition package (name version : bytes) (epoch : Z) : rpm_package_info :=
  RpmPackageInfo name version [] (str "noarch") [] [] [] [] [] [] [] 0 epoch kind_binary false.
Definition sample_adds : list (rpm_package_info * Z) :=
  [(package (str "b") (str "1") (-1), 1); (package (str "a") (str "1") (-1), 2);
   (package (str "b") (str "11") (-1), 3); (package (str "b") (str "22") (-1), 4)].
Example consolidator_spec_witness :
  values (consolidate length_vercmp sample_adds) = [2; 3] ∧
  NoDup (List.map fst (entries (consolidate length_vercmp sample_adds))).
Proof. split; [reflexivity|]. apply (consolidator_spec length_vercmp sample_adds length_vercmp_ok). Defined.

(** The epoch is kept modulo 256, so that a larger epoch can count as older. *)
Lemma consolidator_epoch_wraps rpmvercmp version :
  evr_lt rpmvercmp (info_evr (package (str "a") version 256)) (info_evr (package (str "a") version 1)) = true.
Proof. reflexivity. Qed.

(** [normalize_name] makes every file name valid UTF-8: a valid name is left
    alone, and any other is taken for Latin-1 and re-encoded, code point by code
    point, with the flag set so that it is not encoded twice; all the other
    fields stay as they are. *)
Theorem normalize_name_spec (f : rpm_file_info) :
  bytes_ok (fi_name f) → fi_normalized f = false →
  is_valid_utf8 (fi_name (normalize_name f)) = true ∧
  normalize_name (normalize_name f) = normalize_name f ∧
  (if is_valid_utf8 (fi_name f) then normalize_name f = f
   else fi_name (normalize_name f) = concat (utf8_encode <$> fi_name f) ∧ fi_normalized (normalize_name f) = true) ∧
  fi_digest (normalize_name f) = fi_digest f ∧ fi_mode (normalize_name f) = fi_mode f ∧
  fi_flags (normalize_name f) = fi_flags f ∧ fi_ino (normalize_name f) = fi_ino f.
Proof.
  intros Hok Hn. unfold normalize_name. rewrite Hn. cbn [negb andb].
  destruct (is_valid_utf8 (fi_name f)) eqn:E; cbn [negb].
  - rewrite Hn, E. by split_and!.
  - cbn. split_and!; try done; [by apply latin1_to_utf8_valid|by apply latin1_concat].
Qed.

Definition latin1_file : rpm_file_info :=
  RpmFileInfo (str "caf" ++ [233]) [] [] [] [] checksum_new 33188 0 0 0 false.
Example normalize_name_spec_witness :
  fi_name (normalize_name latin1_file) = str "caf" ++ [195; 169] ∧
  is_valid_utf8 (fi_name (normalize_name latin1_file)) = true.
Proof.
  split; [reflexivity|]. apply normalize_name_spec; [|done]. by repeat constructor.
Defined.
