(* ===== verification/RpmParser.v ===== *)
(** * RPM packages (lib/cxxll/rpm_parser.cpp, lib/cxxll/rpmfi_handle.cpp)

    librpm is a parameter: what the header of the package contains, as [headerGet]
    and the [rpmfi] functions deliver it, and the decompressed payload as the answers
    of [Fread].  The walk over the cpio archive, the matching of its entries with
    the files of the header, the hard links and the ghost files are the program's. *)

From S2P Require Import Prelude Base16 SortedMap Hash RpmInfo Cpio.

(** ** What librpm delivers *)

Inductive rpm_tag :=
| TAG_NEVRA | TAG_NAME | TAG_VERSION | TAG_RELEASE | TAG_ARCH | TAG_SHA1HEADER | TAG_BUILDHOST
| TAG_SUMMARY | TAG_DESCRIPTION | TAG_LICENSE | TAG_GROUP | TAG_SOURCERPM | TAG_EPOCH | TAG_BUILDTIME
| TAG_REQUIRENAME | TAG_REQUIREFLAGS | TAG_REQUIREVERSION
| TAG_PROVIDENAME | TAG_PROVIDEFLAGS | TAG_PROVIDEVERSION
| TAG_OBSOLETENAME | TAG_OBSOLETEFLAGS | TAG_OBSOLETEVERSION
| TAG_CONFLICTNAME | TAG_CONFLICTFLAGS | TAG_CONFLICTVERSION
| TAG_PRETRANS | TAG_PRETRANSPROG | TAG_PREIN | TAG_PREINPROG | TAG_POSTIN | TAG_POSTINPROG
| TAG_PREUN | TAG_PREUNPROG | TAG_POSTUN | TAG_POSTUNPROG | TAG_POSTTRANS | TAG_POSTTRANSPROG
| TAG_VERIFYSCRIPT | TAG_VERIFYSCRIPTPROG
| TAG_TRIGGERSCRIPTS | TAG_TRIGGERSCRIPTPROG | TAG_TRIGGERINDEX | TAG_TRIGGERNAME | TAG_TRIGGERVERSION
| TAG_TRIGGERFLAGS | TAG_PAYLOADCOMPRESSOR.

(** The contents of an [rpmtd] after [headerGet]. *)
Inductive tag_data := TdStrings (l : list bytes) | TdUint32 (l : list Z).

Definition RPMLOG_DEFAULT : Z := 1.
(** Two messages of librpm are not printed.
    Source: lib/cxxll/rpm_parser.cpp 48-63, log_callback. *)
Definition log_callback (message : bytes) : Z :=
  let suppress1 := str "Macro %__isa_name has empty body" ++ [10] in
  let suppress2 := str "Macro %__isa_bits has empty body" ++ [10] in
  if bool_decide (message = suppress1) || bool_decide (message = suppress2) then 0 else RPMLOG_DEFAULT.

(** [rpmtdGetString], [rpmtdGetUint32] on fresh data; [NULL] is [None].  The iterators
    [rpmtdNextString] and [rpmtdNextUint32] walk the lists. *)
Definition td_get_string (td : tag_data) : option bytes :=
  match td with TdStrings (s :: _) => Some s | _ => None end.
Definition td_get_uint32 (td : tag_data) : option Z :=
  match td with TdUint32 (v :: _) => Some v | _ => None end.
Definition td_strings (td : tag_data) : list bytes := match td with TdStrings l => l | TdUint32 _ => [] end.
Definition td_uint32s (td : tag_data) : list Z := match td with TdUint32 l => l | TdStrings _ => [] end.

(** One file of an [rpmfi]: the results of the [rpmfiF] functions at its index. *)
Record rpmfi_file := RpmfiFile {
  ff_FN : bytes; ff_FUser : bytes; ff_FGroup : bytes; ff_FCaps : bytes; ff_FMode : Z; ff_FMtime : Z;
  ff_FInode : Z; ff_FFlags : Z; ff_FLink : bytes; ff_FDigest_algo : Z; ff_FDigest : bytes; ff_FSize : Z;
  ff_FNlink : Z
}.

(** [headerGetString] returns [NULL] for a missing tag; [rpmfiNew] may fail. *)
Record rpm_header := RpmHeader {
  headerGet : rpm_tag → option tag_data;
  headerIsSource : Z;
  header_files : option (list rpmfi_file)
}.

(** [Fread (buf, n, 1, fd)] with the octets stored at the start of the buffer, the
    error state of the descriptor, and [Fdopen]: [NULL], another or the same handle. *)
Inductive fdopen_result := FdopenNull | FdopenOther | FdopenSame.
Record rpmio (S : Type) := RpmIO {
  io_Fread : Z → S → (Z * bytes) * S;
  io_Ferror : S → bool;
  io_Fstrerror : S → bytes;
  io_Fdopen : bytes → S → fdopen_result * S
}.
Arguments io_Fread {S}. Arguments io_Ferror {S}. Arguments io_Fstrerror {S}. Arguments io_Fdopen {S}.

(** [rpmReadPackageFile]. *)
Inductive rpmRC := RPMRC_OK | RPMRC_NOTFOUND | RPMRC_FAIL | RPMRC_NOTTRUSTED | RPMRC_NOKEY.

(** ** State *)

(** Source: lib/cxxll/rpm_parser.cpp 114-122, rpm_parser::impl::findex. *)
Record findex := Findex { fx_ : Z; seen_ : bool }.

(** The [rpmfi] is its files and its position.
    Source: include/cxxll/rpmfi_handle.hpp 27-28, rpmfi_handle. *)
Record rpmfi_handle := RpmfiHandle { fi_files : list rpmfi_file; fi_FX : Z }.

(** [ghost_files] is an iterator: the rest of the map from there.
    Source: lib/cxxll/rpm_parser.cpp 83-130, rpm_parser::impl. *)
Record rpm_impl := RpmImpl {
  rp_header : rpm_header;
  rp_dependencies : list rpm_dependency;
  rp_payload_is_open : bool;
  rp_reached_ghosts : bool;
  rp_nevra : tag_data;
  rp_pkg : rpm_package_info;
  rp_fi : rpmfi_handle;
  rp_files : smap findex;
  rp_ghost_files : smap findex;
  rp_hardlinks : list (Z * Z)
}.

(** Source: include/cxxll/rpm_file_entry.hpp 28-34, rpm_file_entry. *)
Record rpm_file_entry := RpmFileEntry { fe_infos : list rpm_file_info; fe_contents : bytes }.

(** ** The header *)

Definition quoted (a name b : string) : bytes := str a ++ str name ++ str b.

(** Source: lib/cxxll/rpm_parser.cpp 139-151, get_string. *)
Definition get_string (h : rpm_header) (name : string) (tag : rpm_tag) : res bytes :=
  match headerGet h tag ≫= td_get_string with
  | Some s => Ok s
  | None => Throw (rpm_parser_exception (quoted "could not get RPM " name " header"))
  end.

(** Source: lib/cxxll/rpm_parser.cpp 153-164, get_unsigned. *)
Definition get_unsigned (h : rpm_header) (name : string) (tag : rpm_tag) : res Z :=
  match headerGet h tag ≫= td_get_uint32 with
  | Some v => Ok v
  | None => Throw (rpm_parser_exception (quoted "could not get " name " header"))
  end.

(** [pkg.source_rpm = NULL] does not return.
    Source: lib/cxxll/rpm_parser.cpp 166-222, rpm_parser::impl::get_header. *)
Definition get_header (h : rpm_header) : res (tag_data * rpm_package_info) :=
  match headerGet h TAG_NEVRA with
  | None => Throw (rpm_parser_exception (str "could not get NEVRA header from RPM package"))
  | Some nevra =>
      kind ← (if headerIsSource h =? 0 then Ok kind_binary
              else if headerIsSource h =? 1 then Ok kind_source
              else Throw (rpm_parser_exception (str "package is neither a source nor a binary package")));
      name ← get_string h "NAME" TAG_NAME;
      version ← get_string h "VERSION" TAG_VERSION;
      release ← get_string h "RELEASE" TAG_RELEASE;
      arch ← get_string h "ARCH" TAG_ARCH;
      hash ← get_string h "SHA1HEADER" TAG_SHA1HEADER;
      build_host ← get_string h "BUILDHOST" TAG_BUILDHOST;
      summary ← get_string h "SUMMARY" TAG_SUMMARY;
      description ← get_string h "DESCRIPTION" TAG_DESCRIPTION;
      license ← get_string h "LICENSE" TAG_LICENSE;
      group ← get_string h "GROUP" TAG_GROUP;
      source_rpm ← (match headerGet h TAG_SOURCERPM with
                    | None => Ok []
                    | Some td => match td_get_string td with Some s => Ok s | None => Throw abort_called end
                    end);
      epoch ← (match headerGet h TAG_EPOCH with
               | None => Ok (-1)
               | Some td =>
                   match td_get_uint32 td with
                   | None => Throw (rpm_parser_exception (str "could not get EPOCH header"))
                   | Some p => if INT_MAX <? p then Throw (rpm_parser_exception (str "RPM epoch out of range")) else Ok p
                   end
               end);
      build_time ← get_unsigned h "BUILDTIME" TAG_BUILDTIME;
      Ok (nevra, normalize (RpmPackageInfo name version release arch source_rpm hash build_host summary description
                              license group build_time epoch kind false))
  end.

(** The loop over the three arrays.
    Source: lib/cxxll/rpm_parser.cpp 343-364, get_deps. *)
Fixpoint deps_loop (kind : dependency_kind) (flagsname versionname : string) (names : list bytes) (flags : list Z)
    (versions : list bytes) : res (list rpm_dependency) :=
  match names with
  | [] => Ok []
  | name :: names =>
      match flags, versions with
      | [], _ => Throw (rpm_parser_exception (quoted "missing entries in " flagsname " header"))
      | _, [] => Throw (rpm_parser_exception (quoted "missing entries in " versionname " header"))
      | flag :: flags, version :: versions =>
          deps ← deps_loop kind flagsname versionname names flags versions;
          Ok (RpmDependency name version kind (to_signed 32 flag) :: deps)
      end
  end.

(** The dependencies of one kind; on an exception the object is not constructed.
    Source: lib/cxxll/rpm_parser.cpp 317-365, get_deps. *)
Definition get_deps (h : rpm_header) (kind : dependency_kind) (optional : bool)
    (nametag : rpm_tag) (namename : string) (flagstag : rpm_tag) (flagsname : string)
    (versiontag : rpm_tag) (versionname : string) : res (list rpm_dependency) :=
  let missing name := Throw (rpm_parser_exception (quoted "could not get " name " header")) in
  match headerGet h nametag with
  | None => if optional then Ok [] else missing namename
  | Some names =>
      match headerGet h flagstag with
      | None => missing flagsname
      | Some flags =>
          match headerGet h versiontag with
          | None => missing versionname
          | Some versions => deps_loop kind flagsname versionname (td_strings names) (td_uint32s flags) (td_strings versions)
          end
      end
  end.

(** Source: lib/cxxll/rpm_parser.cpp 367-386, rpm_parser::impl::get_dependencies. *)
Definition get_dependencies (h : rpm_header) : res (list rpm_dependency) :=
  requires ← get_deps h dep_require false TAG_REQUIRENAME "REQUIRENAME" TAG_REQUIREFLAGS "REQUIREFLAGS"
               TAG_REQUIREVERSION "REQUIREVERSION";
  provides ← get_deps h dep_provide true TAG_PROVIDENAME "PROVIDENAME" TAG_PROVIDEFLAGS "PROVIDEFLAGS"
               TAG_PROVIDEVERSION "PROVIDEVERSION";
  obsoletes ← get_deps h dep_obsolete true TAG_OBSOLETENAME "OBSOLETENAME" TAG_OBSOLETEFLAGS "OBSOLETEFLAGS"
               TAG_OBSOLETEVERSION "OBSOLETEVERSION";
  conflicts ← get_deps h dep_conflict true TAG_CONFLICTNAME "CONFLICTNAME" TAG_CONFLICTFLAGS "CONFLICTFLAGS"
               TAG_CONFLICTVERSION "CONFLICTVERSION";
  Ok (requires ++ provides ++ obsoletes ++ conflicts).

(** Source: lib/cxxll/rpm_parser.cpp 469-473, rpm_parser::nevra. *)
Definition nevra (p : rpm_impl) : option bytes := td_get_string (rp_nevra p).

(** Source: lib/cxxll/rpm_parser.cpp 487-513, get_script. *)
Definition get_script (h : rpm_header) (result : list rpm_script) (type : script_kind)
    (scriptlettag progtag : rpm_tag) : list rpm_script :=
  let script := rpm_script_new type in
  let script := match headerGet h scriptlettag ≫= td_get_string with
                | Some s => RpmScript s [] type true
                | None => script
                end in
  let prog := match headerGet h progtag with Some td => td_strings td | None => [] end in
  let script := RpmScript (sc_script script) prog type (sc_present script) in
  if sc_present script || negb (bool_decide (sc_prog script = [])) then result ++ [script] else result.

(** Source: lib/cxxll/rpm_parser.cpp 515-532, rpm_parser::scripts. *)
Definition scripts (h : rpm_header) (result : list rpm_script) : list rpm_script :=
  let result := get_script h result pretrans TAG_PRETRANS TAG_PRETRANSPROG in
  let result := get_script h result prein TAG_PREIN TAG_PREINPROG in
  let result := get_script h result postin TAG_POSTIN TAG_POSTINPROG in
  let result := get_script h result preun TAG_PREUN TAG_PREUNPROG in
  let result := get_script h result postun TAG_POSTUN TAG_POSTUNPROG in
  let result := get_script h result posttrans TAG_POSTTRANS TAG_POSTTRANSPROG in
  get_script h result verify TAG_VERIFYSCRIPT TAG_VERIFYSCRIPTPROG.

Definition too_short (name : string) {A} : res A := Throw (rpm_parser_exception (quoted "" name " array too short")).

(** Source: lib/cxxll/rpm_parser.cpp 552-558, rpm_parser::triggers. *)
Fixpoint trigger_scripts (scripts progs : list bytes) : res (list rpm_trigger) :=
  match scripts, progs with
  | [], _ => Ok []
  | _, [] => too_short "TRIGGERSCRIPTPROG"
  | script :: scripts, prog :: progs =>
      rest ← trigger_scripts scripts progs; Ok (rpm_trigger_new script prog :: rest)
  end.

(** Source: lib/cxxll/rpm_parser.cpp 580-595, rpm_parser::triggers. *)
Fixpoint trigger_conditions (result : list rpm_trigger) (indexes : list Z) (names versions : list bytes)
    (flags : list Z) : res (list rpm_trigger) :=
  match indexes with
  | [] => Ok result
  | idx :: indexes =>
      match names, versions, flags with
      | [], _, _ => too_short "TRIGGERNAME"
      | _, [], _ => too_short "TRIGGERVERSION"
      | _, _, [] => too_short "TRIGGERFLAGS"
      | name :: names, version :: versions, flag :: flags =>
          t ← vec_at (str "vector::_M_range_check") result idx;
          let t := RpmTrigger (tr_script t) (tr_prog t)
                     (tr_conditions t ++ [TriggerCondition name version (to_signed 32 flag)]) in
          trigger_conditions (<[Z.to_nat idx := t]> result) indexes names versions flags
      end
  end.

(** The vector is filled as far as the code gets; only the result of a normal return
    is modelled.
    Source: lib/cxxll/rpm_parser.cpp 534-597, rpm_parser::triggers. *)
Definition triggers (h : rpm_header) : res (list rpm_trigger) :=
  let missing (name : string) := Throw (rpm_parser_exception (quoted "missing " name " header")) in
  match headerGet h TAG_TRIGGERSCRIPTS with
  | None => Ok []
  | Some scripts =>
      match headerGet h TAG_TRIGGERSCRIPTPROG with
      | None => missing "TRIGGERSCRIPTPROG"%string
      | Some progs =>
          result ← trigger_scripts (td_strings scripts) (td_strings progs);
          match headerGet h TAG_TRIGGERINDEX with
          | None => Ok result
          | Some indexes =>
              match headerGet h TAG_TRIGGERNAME, headerGet h TAG_TRIGGERVERSION, headerGet h TAG_TRIGGERFLAGS with
              | None, _, _ => missing "TRIGGERNAME"%string
              | _, None, _ => missing "TRIGGERVERSION"%string
              | _, _, None => missing "TRIGGERFLAGS"%string
              | Some names, Some versions, Some flags =>
                  trigger_conditions result (td_uint32s indexes) (td_strings names) (td_strings versions)
                    (td_uint32s flags)
              end
          end
      end
  end.

(** ** The payload *)

Section payload.
Context {S : Type} (io : rpmio S).
(** The contents of an array on the stack before it is written to, and of the memory
    behind the end of a vector. *)
Context (uninitialized : Z → bytes) (behind : bytes).

(** The parser, the entry of the caller and the file. *)
Record rpm_state := RpmState { rs_p : rpm_impl; rs_file : rpm_file_entry; rs_io : S }.
Definition rpm_m : Type → Type := sx rpm_state.

Definition set_io (s : S) : rpm_m unit := sx_modify (λ st, RpmState (rs_p st) (rs_file st) s).
Definition set_p (p : rpm_impl) : rpm_m unit := sx_modify (λ st, RpmState p (rs_file st) (rs_io st)).
Definition set_file (f : rpm_file_entry) : rpm_m unit := sx_modify (λ st, RpmState (rs_p st) f (rs_io st)).
Definition get_p : rpm_m rpm_impl := st ← sx_get; mret (rs_p st).
Definition get_file : rpm_m rpm_file_entry := st ← sx_get; mret (rs_file st).
Definition rpm_throw {A} (what : bytes) : rpm_m A := sx_throw (rpm_parser_exception what).

Definition with_fi (p : rpm_impl) (fi : rpmfi_handle) : rpm_impl :=
  RpmImpl (rp_header p) (rp_dependencies p) (rp_payload_is_open p) (rp_reached_ghosts p) (rp_nevra p) (rp_pkg p)
    fi (rp_files p) (rp_ghost_files p) (rp_hardlinks p).
Definition with_files (p : rpm_impl) (files : smap findex) : rpm_impl :=
  RpmImpl (rp_header p) (rp_dependencies p) (rp_payload_is_open p) (rp_reached_ghosts p) (rp_nevra p) (rp_pkg p)
    (rp_fi p) files (rp_ghost_files p) (rp_hardlinks p).
Definition with_ghosts (p : rpm_impl) (reached : bool) (ghosts : smap findex) : rpm_impl :=
  RpmImpl (rp_header p) (rp_dependencies p) (rp_payload_is_open p) reached (rp_nevra p) (rp_pkg p)
    (rp_fi p) (rp_files p) ghosts (rp_hardlinks p).

Definition REG : Z := 32768.

(** [rpmfiWhatis (mode) == REG].
    Source: lib/cxxll/rpm_parser.cpp 226-235, hardlink_ino. *)
Definition hardlink_ino (f : rpmfi_file) : Z :=
  if (1 <? ff_FNlink f) && (Z.land (ff_FMode f) S_IFMT =? REG) && negb (ff_FSize f =? 0)
     && (Z.land (ff_FFlags f) RPMFILE_GHOST =? 0)
  then ff_FInode f else 0.

(** The walk over the files: the names with their indexes, and the hard links in the
    order of insertion.
    Source: lib/cxxll/rpm_parser.cpp 241-248, rpm_parser::impl::get_files_from_header. *)
Fixpoint files_loop (fx : Z) (l : list rpmfi_file) (files : smap findex) (hardlinks : list (Z * Z))
    : smap findex * list (Z * Z) :=
  match l with
  | [] => (files, hardlinks)
  | f :: l =>
      let ino := hardlink_ino f in
      files_loop (fx + 1) l (sm_set (ff_FN f) (Findex fx false) files)
        (if 0 <? ino then hardlinks ++ [(ino, fx)] else hardlinks)
  end.

(** [rpmfiNext] leaves the position behind the last file.
    Source: lib/cxxll/rpm_parser.cpp 237-249, rpm_parser::impl::get_files_from_header. *)
Definition get_files_from_header (p : rpm_impl) : res rpm_impl :=
  match header_files (rp_header p) with
  | None => Throw (rpm_parser_exception (str "rpmfiNew failed"))
  | Some l =>
      let '(files, hardlinks) := files_loop 0 l (rp_files p) (rp_hardlinks p) in
      Ok (RpmImpl (rp_header p) (rp_dependencies p) (rp_payload_is_open p) (rp_reached_ghosts p) (rp_nevra p)
            (rp_pkg p) (RpmfiHandle l (-1)) files (rp_ghost_files p) hardlinks)
  end.

(** [rpmfiSetFX] ignores an index out of range.
    Source: lib/cxxll/rpm_parser.cpp 251-259, rpm_parser::impl::seek_fi. *)
Definition seek_fi (fx : Z) : rpm_m unit :=
  p ← get_p;
  let l := fi_files (rp_fi p) in
  let new := if (0 <=? fx) && (fx <? zlen l) then fx else fi_FX (rp_fi p) in
  set_p (with_fi p (RpmfiHandle l new));;
  if negb (new =? to_signed 32 fx) then rpm_throw (str "rpmfiSetFX") else mret tt.

(** The file at the position of the [rpmfi]. *)
Definition fi_current : rpm_m rpmfi_file :=
  p ← get_p;
  match zget (fi_files (rp_fi p)) (fi_FX (rp_fi p)) with
  | Some f => mret f
  | None => rpm_throw (str "rpmfi")
  end.

Definition empty_digest : string := "e3b0c44298fc1c149afbf4c8996fb92427ae41e4649b934ca495991b7852b855".

(** [PGPHASHALGO_MD5], [SHA1], [SHA256]. *)
Definition rpm_hash_type (algo : Z) : res hash_type :=
  if algo =? 1 then Ok md5 else if algo =? 2 then Ok sha1 else if algo =? 8 then Ok sha256
  else Throw (rpm_parser_exception (str "unknown file digest algorithm " ++ dec algo)).

(** All fields are assigned; after an exception the partly assigned [info] is not
    modelled.
    Source: lib/cxxll/rpm_parser.cpp 261-315, get_file_info. *)
Definition get_file_info (f : rpmfi_file) (info : rpm_file_info) : res rpm_file_info :=
  let is_ghost := negb (Z.land (ff_FFlags f) RPMFILE_GHOST =? 0) in
  let linkto := if Z.land (ff_FMode f) S_IFMT =? S_IFLNK then ff_FLink f else [] in
  digest ← (if is_ghost then
              let '(r, d) := set_hexadecimal (fi_digest info) (str "sha256") 0 (str empty_digest) in r;; Ok d
            else
              t ← rpm_hash_type (ff_FDigest_algo f);
              Ok (Checksum (ff_FDigest f) (ff_FSize f) t));
  Ok (RpmFileInfo (ff_FN f) (ff_FUser f) (ff_FGroup f) (ff_FCaps f) linkto digest (ff_FMode f) (ff_FMtime f)
        (if is_ghost then 0 else ff_FInode f) (ff_FFlags f) false).

(** Source: lib/cxxll/rpm_parser.cpp 388-411, rpm_parser::impl::open_payload. *)
Definition open_payload : rpm_m unit :=
  p ← get_p;
  p ← sx_res (get_files_from_header p);
  set_p (RpmImpl (rp_header p) (rp_dependencies p) true (rp_reached_ghosts p) (rp_nevra p) (rp_pkg p) (rp_fi p)
           (rp_files p) (rp_ghost_files p) (rp_hardlinks p));;
  let flags := str "r." ++ default (str "gzip") (headerGet (rp_header p) TAG_PAYLOADCOMPRESSOR ≫= td_get_string) in
  st ← sx_get;
  let '(r, s) := io_Fdopen io flags (rs_io st) in
  set_io s;;
  match r with
  | FdopenNull => sx_throw (runtime_error (str "could not allocate compression handle"))
  | FdopenOther => sx_throw (logic_error (str "handle changed unexpectedly"))
  | FdopenSame => if io_Ferror io s then rpm_throw (io_Fstrerror io s) else mret tt
  end.

(** One [Fread] and its checks: the octets overwrite the start of the buffer.  A
    short read is not noticed.
    Source: lib/cxxll/rpm_parser.cpp 616-622, rpm_parser::read_file. *)
Definition fread (buf : bytes) (eof : string) (where_ : string) : rpm_m bytes :=
  st ← sx_get;
  let '((ret, data), s) := io_Fread io (zlen buf) (rs_io st) in
  set_io s;;
  if ret =? 0 then rpm_throw (str eof)
  else if ret <? 0 then rpm_throw (io_Fstrerror io s ++ str where_)
  else mret (ztake ret data ++ zdrop ret buf).

(** At most three octets.
    Source: lib/cxxll/rpm_parser.cpp 704-715, rpm_parser::read_file. *)
Fixpoint padding (n : nat) (pos : Z) (eof where_ : string) : rpm_m unit :=
  match n with
  | O => mret tt
  | Datatypes.S n =>
      if pos mod 4 =? 0 then mret tt
      else fread (uninitialized 1) eof where_;; padding n (u32 (pos + 1)) eof where_
  end.

(** The loop moves on in the map when it returns.
    Source: lib/cxxll/rpm_parser.cpp 413-433, rpm_parser::impl::read_file_ghost. *)
Fixpoint read_file_ghost (ghost_files : smap findex) : rpm_m bool :=
  p ← get_p;
  set_p (with_ghosts p (rp_reached_ghosts p) ghost_files);;
  match ghost_files with
  | [] => mret false
  | (name, ix) :: rest =>
      if negb (seen_ ix) then
        file ← get_file;
        let info := default rpm_file_info_new (head (fe_infos file)) in
        set_file (RpmFileEntry [info] (fe_contents file));;
        seek_fi (fx_ ix);;
        f ← fi_current;
        info ← sx_res (get_file_info f info);
        set_file (RpmFileEntry [info] (fe_contents file));;
        if negb (ghost info) then rpm_throw (str "missing non-ghost file: " ++ name)
        else
          set_file (RpmFileEntry [info] []);;
          p ← get_p;
          set_p (with_ghosts p (rp_reached_ghosts p) rest);;
          mret true
      else read_file_ghost rest
  end.

(** [resize (n)]: the old elements stay. *)
Definition vec_resize {A} (n : Z) (x : A) (l : list A) : list A :=
  ztake n l ++ replicate (Z.to_nat (n - zlen l)) x.

(** The magic, the header and the name of the next entry of the archive; of the array
    of 128 octets, only the first ones are used.
    Source: lib/cxxll/rpm_parser.cpp 614-674, rpm_parser::read_file. *)
Definition read_cpio_header : rpm_m (cpio_entry * bytes) :=
  cpio_magic ← fread (uninitialized 6) "end of stream in cpio file header" " (in cpio header)";
  let cpio_len := cpio_header_length cpio_magic in
  if cpio_len =? 0 then rpm_throw (str "unknown cpio version")
  else
    cpio_header ← fread (uninitialized cpio_len) "end of stream in cpio file header" " (in cpio header)";
    '(ok, header, error) ← sx_res (parse cpio_header cpio_len (CpioEntry 0 0 0 0 0 0 0 0 0 0 0 0 0) None);
    if negb ok then rpm_throw (str "malformed cpio header field: " ++ default [] error)
    else if namesize header =? 0 then rpm_throw (str "empty file name in cpio header")
    else
      name ← fread (replicate (Z.to_nat (namesize header)) 0) "end of stream in cpio file name" " (in cpio file name)";
      padding 3 (u32 (6 + cpio_len + zlen name)) "failed to read padding after name" " (in cpio file name padding)";;
      mret (header, name).

(** The name as the lookup sees it: without the dot of a leading [./], up to the
    terminator, which may be missing in the archive.
    Source: lib/cxxll/rpm_parser.cpp 685-689, rpm_parser::read_file. *)
Definition name_normalized (name : bytes) : bytes :=
  let start := if (2 <=? zlen name) && bool_decide (ztake 2 name = str "./") then 1 else 0 in
  until_nul (zdrop start name ++ behind).
Definition name_text (name : bytes) : bytes := until_nul (name ++ behind).

(** Source: lib/cxxll/rpm_parser.cpp 691-715, rpm_parser::read_file. *)
Definition read_contents (header : cpio_entry) : rpm_m unit :=
  file ← get_file;
  let contents := vec_resize (filesize header) 0 (fe_contents file) in
  set_file (RpmFileEntry (fe_infos file) contents);;
  (if 0 <? filesize header then
     contents ← fread contents "end of stream in cpio file contents" " (in cpio file contents)";
     set_file (RpmFileEntry (fe_infos file) contents)
   else mret tt);;
  padding 3 (filesize header) "failed to read padding after cpio contents" " (in cpio file contents padding)".

(** The links of an inode in the order of insertion.
    Source: lib/cxxll/rpm_parser.cpp 728-730, rpm_parser::read_file. *)
Definition equal_range (ino : Z) (hardlinks : list (Z * Z)) : list Z :=
  snd <$> filter (λ l, l.1 = ino) hardlinks.

(** Source: lib/cxxll/rpm_parser.cpp 757-771, rpm_parser::read_file. *)
Fixpoint hardlink_loop (i : Z) (links : list Z) : rpm_m unit :=
  match links with
  | [] => mret tt
  | q :: links =>
      seek_fi q;;
      file ← get_file;
      old ← sx_res (vec_at (str "vector::_M_range_check") (fe_infos file) i);
      f ← fi_current;
      info ← sx_res (get_file_info f old);
      set_file (RpmFileEntry (<[Z.to_nat i := info]> (fe_infos file)) (fe_contents file));;
      sx_res (assert_ (negb (ghost info)));;
      p ← get_p;
      match sm_find (fi_name info) (rp_files p) with
      | None => sx_throw abort_called
      | Some ix =>
          if seen_ ix then rpm_throw (str "duplicate file in CPIO archive: " ++ fi_name info)
          else
            set_p (with_files p (sm_set (fi_name info) (Findex (fx_ ix) true) (rp_files p)));;
            hardlink_loop (i + 1) links
      end
  end.

(** The end iterator is not dereferenced: every name of the [rpmfi] is in the map.
    The second comparison of the code can not fail after the first one.
    Source: lib/cxxll/rpm_parser.cpp 783-794, rpm_parser::read_file. *)
Fixpoint check_digests (ref : bytes) (infos : list rpm_file_info) : res unit :=
  match infos with
  | [] => Ok tt
  | q :: infos =>
      if negb (bool_decide (csum_value (fi_digest q) = ref))
      then Throw (rpm_parser_exception (str "hard link size mismatch: " ++ fi_name q))
      else check_digests ref infos
  end.

(** A file that is not hard-linked.
    Source: lib/cxxll/rpm_parser.cpp 731-746, rpm_parser::read_file. *)
Definition single_file (key name : bytes) (ix : findex) : rpm_m (option bool) :=
  if seen_ ix then rpm_throw (str "duplicate file in CPIO archive: " ++ name_text name)
  else
    file ← get_file;
    let old := default rpm_file_info_new (head (fe_infos file)) in
    set_file (RpmFileEntry [old] (fe_contents file));;
    f ← fi_current;
    info ← sx_res (get_file_info f old);
    set_file (RpmFileEntry [info] (if ghost info then [] else fe_contents file));;
    p ← get_p;
    set_p (with_files p (sm_set key (Findex (fx_ ix) true) (rp_files p)));;
    mret (Some true).

(** A member of a group of hard links; [None] to go on with the next entry.
    Source: lib/cxxll/rpm_parser.cpp 747-804, rpm_parser::read_file. *)
Definition linked_file (key name : bytes) (links : list Z) : rpm_m (option bool) :=
  f ← fi_current;
  file ← get_file;
  let current_is_ghost := negb (Z.land (ff_FFlags f) RPMFILE_GHOST =? 0) in
  if ff_FSize f =? zlen (fe_contents file) then
    set_file (RpmFileEntry (vec_resize (zlen links) rpm_file_info_new (fe_infos file)) (fe_contents file));;
    hardlink_loop 0 links;;
    p ← get_p;
    let seen := match sm_find key (rp_files p) with Some ix => seen_ ix | None => false end in
    if negb seen && negb current_is_ghost
    then rpm_throw (str "file not found in hard link group:" ++ name_text name)
    else
      file ← get_file;
      match fe_infos file with
      | [] => sx_throw abort_called
      | info :: infos => sx_res (check_digests (csum_value (fi_digest info)) infos);; mret (Some true)
      end
  else if bool_decide (fe_contents file = []) then mret None
  else rpm_throw (str "hard link size does not match header: " ++ name_text name).

(** [strlen (trailer) + 1 == name.size ()] and the comparison without the terminator.
    Source: lib/cxxll/rpm_parser.cpp 677-679, rpm_parser::read_file. *)
Definition is_trailer (name : bytes) : bool := (zlen name =? 11) && bool_decide (ztake 10 name = str "TRAILER!!!").

(** One entry of the archive; [None] to go on with the next one.
    Source: lib/cxxll/rpm_parser.cpp 610-805, rpm_parser::read_file. *)
Definition read_file_step : rpm_m (option bool) :=
  p ← get_p;
  if rp_reached_ghosts p then b ← read_file_ghost (rp_ghost_files p); mret (Some b)
  else
    '(header, name) ← read_cpio_header;
    if is_trailer name then
      p ← get_p;
      set_p (with_ghosts p true (rp_files p));;
      b ← read_file_ghost (rp_files p); mret (Some b)
    else
      read_contents header;;
      p ← get_p;
      let key := name_normalized name in
      match sm_find key (rp_files p) with
      | None => rpm_throw (str "cpio file not found in RPM header: " ++ name_text name)
      | Some ix =>
          seek_fi (fx_ ix);;
          f ← fi_current;
          match equal_range (ff_FInode f) (rp_hardlinks p) with
          | [] => single_file key name ix
          | links => linked_file key name links
          end
      end.

(** The fuel bounds the number of entries skipped; [None] when it is used up.
    Source: lib/cxxll/rpm_parser.cpp 606-806, rpm_parser::read_file. *)
Fixpoint read_file_loop (fuel : nat) (st : rpm_state) : option (res bool * rpm_state) :=
  match fuel with
  | O => None
  | Datatypes.S fuel =>
      match read_file_step st with
      | (Throw e, st) => Some (Throw e, st)
      | (Ok (Some b), st) => Some (Ok b, st)
      | (Ok None, st) => read_file_loop fuel st
      end
  end.

(** Source: lib/cxxll/rpm_parser.cpp 599-604, rpm_parser::read_file. *)
Definition read_file (fuel : nat) (st : rpm_state) : option (res bool * rpm_state) :=
  match (if rp_payload_is_open (rs_p st) then mret tt else open_payload) st with
  | (Throw e, st) => Some (Throw e, st)
  | (Ok _, st) => read_file_loop fuel st
  end.

(** [rc] is the result of [rpmReadPackageFile] on the opened file.
    Source: lib/cxxll/rpm_parser.cpp 435-463, rpm_parser::rpm_parser. *)
Definition rpm_parser_new (fd : S) (rc : rpmRC) (header : rpm_header) : res rpm_impl :=
  if io_Ferror io fd then Throw (rpm_parser_exception (io_Fstrerror io fd))
  else
    match rc with
    | RPMRC_OK | RPMRC_NOKEY | RPMRC_NOTTRUSTED =>
        '(nevra, pkg) ← get_header header;
        deps ← get_dependencies header;
        Ok (RpmImpl header deps false false nevra pkg (RpmfiHandle [] (-1)) [] [] [])
    | RPMRC_NOTFOUND => Throw (rpm_parser_exception (str "not an RPM package"))
    | RPMRC_FAIL => Throw (rpm_parser_exception (str "error reading header from RPM package"))
    end.
End payload.

(** ** Every file is reported once *)

Section once.
Context {S : Type} (io : rpmio S) (uninitialized : Z → bytes) (behind : bytes) (l : list rpmfi_file).
Implicit Types (st : rpm_state (S := S)) (p : rpm_impl).

(** The maps describe the files of the header. *)
Record files_ok p : Prop := {
  fok_fi : fi_files (rp_fi p) = l;
  fok_sorted : sm_sorted (rp_files p);
  fok_fx n ix : sm_find n (rp_files p) = Some ix → ∃ f, zget l (fx_ ix) = Some f ∧ ff_FN f = n;
  fok_all f : f ∈ l → ff_FN f ∈ sm_keys (rp_files p);
  fok_links ino fx : (ino, fx) ∈ rp_hardlinks p → ∃ f, zget l fx = Some f;
  fok_open : rp_payload_is_open p = true
}.

(** The names handed out so far: the ones marked, and the ghosts before the iterator. *)
Definition seen_names p (n : bytes) : Prop := ∃ ix, sm_find n (rp_files p) = Some ix ∧ seen_ ix = true.
Definition reported_ok p (reported : list bytes) : Prop :=
  NoDup reported ∧
  if rp_reached_ghosts p then
    ∃ pre, rp_files p = pre ++ rp_ghost_files p ∧ ∀ n, n ∈ reported ↔ seen_names p n ∨ n ∈ sm_keys pre
  else ∀ n, n ∈ reported ↔ seen_names p n.

Lemma seek_fi_Ok fx f st u st' : zget (fi_files (rp_fi (rs_p st))) fx = Some f →
  seek_fi fx st = (Ok u, st') →
  st' = RpmState (with_fi (rs_p st) (RpmfiHandle (fi_files (rp_fi (rs_p st))) fx)) (rs_file st) (rs_io st).
Proof.
  intros Hf Hs. apply zget_Some in Hf. unfold seek_fi, get_p, set_p in Hs. sx_inv. cbn in *.
  destruct (Z.leb_spec 0 fx); [|lia]. destruct (Z.ltb_spec fx (zlen (fi_files (rp_fi (rs_p st))))); [|lia].
  cbn in *. destruct (negb _); [done|]. sx_inv. done.
Qed.
Lemma fi_current_Ok st f st' : fi_current st = (Ok f, st') →
  st' = st ∧ zget (fi_files (rp_fi (rs_p st))) (fi_FX (rp_fi (rs_p st))) = Some f.
Proof.
  intros H. unfold fi_current, get_p in H. sx_inv.
  destruct (zget _ _) eqn:E; [|done]. sx_inv. done.
Qed.
Lemma get_file_info_name f old info : get_file_info f old = Ok info → fi_name info = ff_FN f.
Proof.
  unfold get_file_info. intros H.
  match type of H with (mbind _ ?m) = _ => destruct m; [|done] end. by injection H as <-.
Qed.

Lemma files_ok_fi p fi : files_ok p → fi_files fi = l → files_ok (with_fi p fi).
Proof. intros [] ?. by split. Qed.
Lemma files_ok_ghosts p b g : files_ok p → files_ok (with_ghosts p b g).
Proof. intros []. by split. Qed.

(** Marking a file as seen. *)
Lemma mark_ok p n ix : files_ok p → sm_find n (rp_files p) = Some ix →
  files_ok (with_files p (sm_set n (Findex (fx_ ix) true) (rp_files p))).
Proof.
  intros [H1 H2 H3 H4 H5 H6] Hn. split; cbn; try done.
  - by apply sm_set_sorted.
  - intros m jx. rewrite sm_find_set. case_bool_decide as Hm; [|apply H3].
    intros [= <-]. subst m. cbn. by apply H3.
  - intros f Hf. apply sm_keys_set. right. by apply H4.
Qed.
Lemma mark_seen p n ix m : sm_find n (rp_files p) = Some ix →
  seen_names (with_files p (sm_set n (Findex (fx_ ix) true) (rp_files p))) m ↔ seen_names p m ∨ m = n.
Proof.
  intros Hn. unfold seen_names. cbn. rewrite sm_find_set. case_bool_decide as Hm.
  - subst m. split; [auto|]. intros _. by eexists.
  - split; [intros (x & ? & ?); left; by exists x|]. intros [?|?]; done.
Qed.

(** ** Ghosts *)

Lemma read_file_ghost_ok ghosts : ∀ pre reported st b st',
  files_ok (rs_p st) → rp_reached_ghosts (rs_p st) = true → rp_files (rs_p st) = pre ++ ghosts → NoDup reported →
  (∀ n, n ∈ reported ↔ seen_names (rs_p st) n ∨ n ∈ sm_keys pre) →
  read_file_ghost ghosts st = (Ok b, st') →
  files_ok (rs_p st') ∧ rp_reached_ghosts (rs_p st') = true ∧
  if b then reported_ok (rs_p st') (reported ++ (fi_name <$> fe_infos (rs_file st')))
  else ∀ n, n ∈ sm_keys (rp_files (rs_p st')) → n ∈ reported.
Proof.
  induction ghosts as [|[name ix] rest IH]; intros pre reported st b st' Hok Hre Hsplit Hnd Hrep Hrun;
    cbn [read_file_ghost] in Hrun; unfold get_p, set_p, get_file, set_file in Hrun; sx_inv; cbn in *.
  - split; [by apply files_ok_ghosts|]. split; [done|]. intros n Hn. apply Hrep. right.
    by rewrite app_nil_r in Hsplit; rewrite Hsplit in Hn.
  - assert (Hfind : sm_find name (rp_files (rs_p st)) = Some ix).
    { apply sm_find_elem; [exact (fok_sorted _ Hok)|]. rewrite Hsplit. apply elem_of_app. right. by left. }
    destruct (seen_ ix) eqn:Eseen; cbn in Hrun.
    + eapply (IH (pre ++ [(name, ix)]) reported) in Hrun; cbn in *; try done.
      * by apply files_ok_ghosts.
      * by rewrite Hsplit, <- app_assoc.
      * intros n. rewrite Hrep. unfold seen_names, sm_keys. cbn. rewrite fmap_app, elem_of_app. cbn.
        rewrite list_elem_of_singleton. split; [tauto|]. intros [?|[?|?]]; [tauto|tauto|].
        subst. left. by exists ix.
    + sx_inv. destruct (fok_fx _ Hok _ _ Hfind) as (f & Hf & Hname).
      match goal with H : seek_fi _ _ = _ |- _ => eapply (seek_fi_Ok _ f) in H; [|cbn; by rewrite (fok_fi _ Hok)];
        match type of H with ?s = _ => subst s end end.
      match goal with H : fi_current _ = _ |- _ => apply fi_current_Ok in H as [-> Hcur] end.
      cbn in Hcur. rewrite (fok_fi _ Hok), Hf in Hcur. injection Hcur as <-.
      match goal with H : get_file_info _ _ = Ok ?i |- _ => apply get_file_info_name in H as Hn; set (info := i) in * end.
      destruct (negb (ghost info)); [done|]. sx_inv. cbn.
      split. { apply files_ok_ghosts, files_ok_fi; [by apply files_ok_ghosts|]. cbn. apply (fok_fi _ Hok). }
      split; [done|]. unfold reported_ok. cbn. rewrite Hre, Hn, Hname.
      assert (Hnot : name ∉ reported).
      { rewrite Hrep. intros [(jx & Hj & Hs)|Hin]; [congruence|].
        pose proof (fok_sorted _ Hok) as Hsort. rewrite Hsplit in Hsort. unfold sm_sorted, sm_keys in Hsort.
        rewrite fmap_app in Hsort.
        pose proof (StronglySorted_app_1_elem_of _ _ _ name name Hsort Hin ltac:(by left)) as Hlt.
        cbn in Hlt. by rewrite bytes_ltb_irrefl in Hlt. }
      split.
      * apply NoDup_app. split_and!; [done| |apply NoDup_singleton].
        intros n Hn' ->%list_elem_of_singleton. done.
      * exists (pre ++ [(name, ix)]). split; [by rewrite Hsplit, <- app_assoc|].
        intros n. rewrite elem_of_app, Hrep, list_elem_of_singleton. unfold sm_keys. rewrite fmap_app, elem_of_app. cbn.
        rewrite list_elem_of_singleton. unfold seen_names. cbn. tauto.
Qed.

(** ** Archive entries *)

(** Reading changes neither the parser nor the infos of the entry. *)
Definition same_parser st st' : Prop := rs_p st' = rs_p st ∧ fe_infos (rs_file st') = fe_infos (rs_file st).
Lemma same_parser_trans st1 st2 st3 : same_parser st1 st2 → same_parser st2 st3 → same_parser st1 st3.
Proof. intros [H1 H2] [H3 H4]. split; congruence. Qed.

Lemma fread_same buf eof where_ st x st' : fread io buf eof where_ st = (Ok x, st') → same_parser st st'.
Proof.
  unfold fread. intros H. sx_inv. destruct (io_Fread io _ _) as [[ret data] s].
  unfold set_io in H. sx_inv. destruct (ret =? 0); [done|]. destruct (ret <? 0); [done|]. by sx_inv.
Qed.
Lemma padding_same n : ∀ pos eof where_ st x st', padding io uninitialized n pos eof where_ st = (Ok x, st') → same_parser st st'.
Proof.
  induction n as [|n IH]; intros pos eof where_ st x st' H; cbn [padding] in H; [by sx_inv|].
  destruct (pos mod 4 =? 0); [by sx_inv|]. sx_inv.
  eapply same_parser_trans; [by eapply fread_same|by eapply IH].
Qed.
Lemma read_cpio_header_same st x st' : read_cpio_header io uninitialized st = (Ok x, st') → same_parser st st'.
Proof.
  unfold read_cpio_header. intros H. sx_inv.
  match goal with H1 : fread _ _ _ _ st = (_, ?s) |- _ => apply fread_same in H1; rename H1 into Hs end.
  eapply same_parser_trans; [exact Hs|]. clear Hs. destruct (_ =? 0); [done|]. sx_inv.
  match goal with H1 : fread _ _ _ _ _ = (_, _) |- _ => apply fread_same in H1; rename H1 into Hs end.
  eapply same_parser_trans; [exact Hs|]. clear Hs.
  match goal with H1 : (let '(_, _) := ?q in _) _ = _ |- _ => destruct q as [[ok header] error] end.
  destruct (negb ok); [done|]. destruct (namesize header =? 0); [done|]. sx_inv.
  match goal with H1 : fread _ _ _ _ _ = (_, _) |- _ => apply fread_same in H1; rename H1 into Hs end.
  eapply same_parser_trans; [exact Hs|]. by eapply padding_same.
Qed.
Lemma read_contents_same header st x st' : read_contents io uninitialized header st = (Ok x, st') → same_parser st st'.
Proof.
  unfold read_contents, get_file, set_file. intros H. sx_inv.
  match goal with H1 : padding _ _ _ _ _ _ _ = _ |- _ => apply padding_same in H1; rename H1 into Hp end.
  eapply same_parser_trans; [|exact Hp]. clear Hp. destruct (0 <? filesize header); sx_inv; [|done].
  match goal with H1 : fread _ _ _ _ _ = (_, _) |- _ => apply fread_same in H1 as [Hs1 Hs2] end. by split.
Qed.

Lemma single_file_ok key name ix reported st b st' :
  files_ok (rs_p st) → rp_reached_ghosts (rs_p st) = false → reported_ok (rs_p st) reported →
  sm_find key (rp_files (rs_p st)) = Some ix → fi_FX (rp_fi (rs_p st)) = fx_ ix →
  single_file behind key name ix st = (Ok b, st') →
  b = Some true ∧ files_ok (rs_p st') ∧ reported_ok (rs_p st') (reported ++ (fi_name <$> fe_infos (rs_file st'))).
Proof.
  intros Hok Hre Hrep Hfind Hpos H. unfold single_file, get_file, set_file, get_p, set_p in H.
  destruct (seen_ ix) eqn:Eseen; [done|]. sx_inv. cbn in *.
  match goal with H : fi_current _ = _ |- _ => apply fi_current_Ok in H as [Heq Hcur]; subst_lhs Heq end.
  cbn in Hcur. destruct (fok_fx _ Hok _ _ Hfind) as (f & Hf & Hname).
  rewrite Hpos, (fok_fi _ Hok), Hf in Hcur. injection Hcur as <-.
  match goal with H : get_file_info _ _ = Ok ?i |- _ => apply get_file_info_name in H as Hn end.
  split; [done|]. split; [by apply mark_ok|].
  unfold reported_ok in *. cbn. rewrite Hre in *. rewrite Hn, Hname. destruct Hrep as [Hnd Hrep]. split.
  - apply NoDup_app. split_and!; [done| |apply NoDup_singleton].
    intros n Hn' ->%list_elem_of_singleton. apply Hrep in Hn' as (jx & ? & ?). congruence.
  - intros n. rewrite elem_of_app, Hrep, list_elem_of_singleton. by rewrite mark_seen.
Qed.

(** The first [i] infos of the group are done. *)
Lemma hardlink_loop_ok links : ∀ i reported st u st',
  files_ok (rs_p st) → rp_reached_ghosts (rs_p st) = false →
  (∀ q, q ∈ links → ∃ f, zget l q = Some f) → 0 <= i → zlen (fe_infos (rs_file st)) = i + zlen links →
  reported_ok (rs_p st) (reported ++ (fi_name <$> ztake i (fe_infos (rs_file st)))) →
  hardlink_loop i links st = (Ok u, st') →
  files_ok (rs_p st') ∧ rp_reached_ghosts (rs_p st') = false ∧
  reported_ok (rs_p st') (reported ++ (fi_name <$> fe_infos (rs_file st'))).
Proof.
  induction links as [|q links IH]; intros i reported st u st' Hok Hre Hl Hi Hlen Hrep H; cbn [hardlink_loop] in H.
  { sx_inv. split; [done|]. split; [done|]. rewrite ztake_all in Hrep; [done|]. rewrite Hlen, zlen_nil. lia. }
  destruct (Hl q) as [f Hf]; [by left|]. unfold get_file, set_file, get_p, set_p in H. sx_inv. cbn in *.
  match goal with H : seek_fi _ _ = _ |- _ => eapply (seek_fi_Ok _ f) in H as Heq; [|by rewrite (fok_fi _ Hok)];
    subst_lhs Heq; clear H end.
  match goal with H : fi_current _ = _ |- _ => apply fi_current_Ok in H as [Heq Hcur]; subst_lhs Heq end.
  cbn in *. rewrite (fok_fi _ Hok), Hf in Hcur. injection Hcur as <-.
  match goal with H : get_file_info _ _ = Ok ?i |- _ => apply get_file_info_name in H as Hn; set (info := i) in * end.
  destruct (sm_find (fi_name info) (rp_files (rs_p st))) as [ix|] eqn:Efind; [|done].
  destruct (seen_ ix) eqn:Eseen; [done|]. sx_inv.
  match goal with H : vec_at _ (fe_infos (rs_file st)) i = Ok ?x |- _ => rename H into Hat end.
  assert (Hil : 0 <= i < zlen (fe_infos (rs_file st))).
  { unfold vec_at in Hat. destruct (zget _ i) eqn:E; [|done]. by apply zget_Some in E. }
  assert (Htake : ztake (i + 1) (<[Z.to_nat i := info]> (fe_infos (rs_file st))) = ztake i (fe_infos (rs_file st)) ++ [info]).
  { unfold ztake. replace (Z.to_nat (i + 1)) with (Datatypes.S (Z.to_nat i)) by lia.
    rewrite (take_S_r _ _ info) by (apply list_lookup_insert_eq; unfold zlen in Hil; lia).
    by rewrite take_insert_ge by lia. }
  set (p0 := with_fi (rs_p st) (RpmfiHandle (fi_files (rp_fi (rs_p st))) q)) in *.
  assert (Hok0 : files_ok p0) by (apply files_ok_fi; [done|exact (fok_fi _ Hok)]).
  eapply (IH (i + 1) reported) in H; [exact H| |done| |lia| |]; cbn [rs_p rs_file fe_infos].
  - exact (mark_ok p0 _ ix Hok0 Efind).
  - intros q' Hq'. apply Hl. by right.
  - unfold zlen in *. rewrite length_insert. rewrite length_cons in Hlen. lia.
  - rewrite Htake, fmap_app, app_assoc. cbn. unfold reported_ok in *. cbn. rewrite Hre in *.
    destruct Hrep as [Hnd Hrep]. split.
    + apply NoDup_app. split_and!; [done| |apply NoDup_singleton].
      intros n Hn' ->%list_elem_of_singleton. apply Hrep in Hn' as (jx & ? & ?). congruence.
    + intros n. rewrite elem_of_app, Hrep, list_elem_of_singleton. symmetry. exact (mark_seen p0 _ ix n Efind).
Qed.

Lemma zlen_vec_resize {A} n (x : A) k : 0 <= n → zlen (vec_resize n x k) = n.
Proof.
  intros Hn. unfold vec_resize. rewrite zlen_app, zlen_ztake by done. unfold zlen. rewrite length_replicate. lia.
Qed.

Lemma linked_file_ok key name links reported st b st' :
  files_ok (rs_p st) → rp_reached_ghosts (rs_p st) = false → reported_ok (rs_p st) reported →
  (∀ q, q ∈ links → ∃ f, zget l q = Some f) →
  linked_file behind key name links st = (Ok b, st') →
  files_ok (rs_p st') ∧
  match b with
  | Some r => r = true ∧ reported_ok (rs_p st') (reported ++ (fi_name <$> fe_infos (rs_file st')))
  | None => reported_ok (rs_p st') reported
  end.
Proof.
  intros Hok Hre Hrep Hlinks H. unfold linked_file, get_file, set_file, get_p in H. sx_inv.
  match goal with H : fi_current _ = _ |- _ => apply fi_current_Ok in H as [Heq Hcur]; subst_lhs Heq end.
  match type of H with (if ?c then _ else _) _ = _ => destruct c end; sx_inv.
  - match goal with H : hardlink_loop 0 links ?s = _ |- _ =>
      apply (hardlink_loop_ok links 0 reported) in H; [destruct H as (Hok' & Hre' & Hrep')|..] end;
      cbn [rs_p rs_file fe_infos]; try done.
    + match type of H with (if ?c then _ else _) _ = _ => destruct c end; [done|]. sx_inv.
      destruct (fe_infos _) eqn:Einfos; [done|]. sx_inv. rewrite Einfos. done.
    + pose proof (zlen_nonneg links). rewrite zlen_vec_resize by done. lia.
    + change (ztake 0 ?x) with (@nil rpm_file_info). rewrite fmap_nil, app_nil_r. done.
  - case_bool_decide; [|done]. by sx_inv.
Qed.

Lemma ghosts_result reported st st' (b : bool) :
  files_ok (rs_p st') ∧ rp_reached_ghosts (rs_p st') = true ∧
    (if b then reported_ok (rs_p st') (reported ++ (fi_name <$> fe_infos (rs_file st')))
     else ∀ n, n ∈ sm_keys (rp_files (rs_p st')) → n ∈ reported) →
  files_ok (rs_p st') ∧
  match Some b with
  | None => reported_ok (rs_p st) reported
  | Some true => reported_ok (rs_p st') (reported ++ (fi_name <$> fe_infos (rs_file st')))
  | Some false => ∀ n, n ∈ sm_keys (rp_files (rs_p st')) → n ∈ reported
  end.
Proof. intros (? & _ & ?). by destruct b. Qed.

Lemma read_file_step_ok reported st b st' : files_ok (rs_p st) → reported_ok (rs_p st) reported →
  read_file_step io uninitialized behind st = (Ok b, st') →
  files_ok (rs_p st') ∧
  match b with
  | None => reported_ok (rs_p st') reported
  | Some true => reported_ok (rs_p st') (reported ++ (fi_name <$> fe_infos (rs_file st')))
  | Some false => ∀ n, n ∈ sm_keys (rp_files (rs_p st')) → n ∈ reported
  end.
Proof.
  intros Hok Hrep H. unfold read_file_step, get_p, set_p in H. sx_inv.
  destruct (rp_reached_ghosts (rs_p st)) eqn:Ereached.
  - apply sx_bind_Ok in H as (r & s1 & Hg & H). sx_inv. destruct Hrep as [Hnd Hrep].
    rewrite Ereached in Hrep. destruct Hrep as (pre & Hsplit & Hrep).
    apply (ghosts_result reported st _ r). exact (read_file_ghost_ok _ pre reported _ _ _ Hok Ereached Hsplit Hnd Hrep Hg).
  - apply sx_bind_Ok in H as ([header name] & s1 & Hh & H). apply read_cpio_header_same in Hh as [Hp1 Hf1].
    destruct (is_trailer name).
    + sx_inv. rename H0 into Hg || match goal with H0 : read_file_ghost _ _ = _ |- _ => rename H0 into Hg end.
      match type of Hg with _ = (Ok ?r, _) => apply (ghosts_result reported st _ r) end.
      rewrite <- Hp1 in *.
      refine (read_file_ghost_ok _ [] reported (RpmState _ _ _) _ _ (files_ok_ghosts _ _ _ Hok) eq_refl eq_refl _ _ Hg); [apply Hrep|].
      destruct Hrep as [_ Hrep]. rewrite Ereached in Hrep. intros n. rewrite Hrep. unfold seen_names. cbn.
      rewrite elem_of_nil. tauto.
    + apply sx_bind_Ok in H as (u & s2 & Hc & H). apply read_contents_same in Hc as [Hp2 Hf2]. sx_inv.
      assert (Hp : rs_p s2 = rs_p st) by congruence. rewrite <- Hp in *. clear Hp Hp1 Hp2.
      destruct (sm_find _ (rp_files (rs_p s2))) as [ix|] eqn:Efind; [|done].
      apply sx_bind_Ok in H as (u' & s3 & Hs & H). destruct (fok_fx _ Hok _ _ Efind) as (f & Hf & Hname).
      apply (seek_fi_Ok _ f) in Hs; [|by rewrite (fok_fi _ Hok)]. subst_lhs Hs.
      apply sx_bind_Ok in H as (f' & s4 & Hcur & H). apply fi_current_Ok in Hcur as [-> Hcur].
      assert (Hok3 : files_ok (with_fi (rs_p s2) (RpmfiHandle (fi_files (rp_fi (rs_p s2))) (fx_ ix))))
        by (apply files_ok_fi; [done|apply (fok_fi _ Hok)]).
      destruct (equal_range (ff_FInode f') (rp_hardlinks (rs_p s2))) as [|q links] eqn:El.
      * eapply single_file_ok in H as (-> & H1 & H2); [by split|exact Hok3|done|exact Hrep|exact Efind|done].
      * eapply linked_file_ok in H as [H1 H2]; [|exact Hok3|done|exact Hrep|].
        { split; [done|]. destruct b as [r|]; [|done]. by destruct H2 as [-> ?]. }
        intros q' Hq'. rewrite <- El in Hq'. unfold equal_range in Hq'.
        apply list_elem_of_fmap in Hq' as ([i fx] & -> & Hin). apply list_elem_of_filter in Hin as [_ Hin].
        exact (fok_links _ Hok _ _ Hin).
Qed.

Lemma read_file_loop_ok fuel : ∀ reported st b st', files_ok (rs_p st) → reported_ok (rs_p st) reported →
  read_file_loop io uninitialized behind fuel st = Some (Ok b, st') →
  files_ok (rs_p st') ∧
  if b then reported_ok (rs_p st') (reported ++ (fi_name <$> fe_infos (rs_file st')))
  else ∀ n, n ∈ sm_keys (rp_files (rs_p st')) → n ∈ reported.
Proof.
  induction fuel as [|fuel IH]; intros reported st b st' Hok Hrep H; cbn [read_file_loop] in H; [done|].
  destruct (read_file_step io uninitialized behind st) as [[[r|]|e] s] eqn:E; [| |done];
    apply (read_file_step_ok reported) in E as [Hok' Hrep']; try done; [|by apply (IH reported) in H].
  injection H as -> ->. split; [done|]. by destruct b.
Qed.
End once.

(** ** Sessions *)

Section session.
Context {S : Type} (io : rpmio S) (uninitialized : Z → bytes) (behind : bytes) (l : list rpmfi_file).
Implicit Types (st : rpm_state (S := S)) (p : rpm_impl).

(** What the constructor leaves. *)
Record fresh p : Prop := {
  fresh_closed : rp_payload_is_open p = false;
  fresh_reached : rp_reached_ghosts p = false;
  fresh_files : rp_files p = [];
  fresh_links : rp_hardlinks p = [];
  fresh_header : header_files (rp_header p) = Some l
}.

Lemma files_loop_ok rest : ∀ pre files links files' links', l = pre ++ rest →
  sm_sorted files → (∀ n ix, sm_find n files = Some ix → seen_ ix = false ∧ ∃ f, zget l (fx_ ix) = Some f ∧ ff_FN f = n) →
  (∀ f, f ∈ pre → ff_FN f ∈ sm_keys files) → (∀ ino fx, (ino, fx) ∈ links → ∃ f, zget l fx = Some f) →
  files_loop (zlen pre) rest files links = (files', links') →
  sm_sorted files' ∧ (∀ n ix, sm_find n files' = Some ix → seen_ ix = false ∧ ∃ f, zget l (fx_ ix) = Some f ∧ ff_FN f = n) ∧
  (∀ f, f ∈ l → ff_FN f ∈ sm_keys files') ∧ (∀ ino fx, (ino, fx) ∈ links' → ∃ f, zget l fx = Some f).
Proof.
  induction rest as [|f rest IH]; intros pre files links files' links' Hl Hs Hfx Hall Hlinks H; cbn [files_loop] in H.
  { injection H as <- <-. rewrite app_nil_r in Hl. by rewrite Hl in *. }
  assert (Hf : zget l (zlen pre) = Some f) by (rewrite Hl; apply zget_app_mid).
  replace (zlen pre + 1) with (zlen (pre ++ [f])) in H by zl.
  apply IH in H; [exact H|by rewrite <- app_assoc|by apply sm_set_sorted| | |].
  - intros n ix. rewrite sm_find_set. case_bool_decide as Hn; [|apply Hfx]. intros [= <-]. cbn. split; [done|].
    exists f. by split.
  - intros g [Hg| ->%list_elem_of_singleton]%elem_of_app; apply sm_keys_set; [right; by apply Hall|by left].
  - intros ino fx. destruct (0 <? hardlink_ino f); [|apply Hlinks].
    intros [Hin|[= -> ->]%list_elem_of_singleton]%elem_of_app; [by eapply Hlinks|by exists f].
Qed.

Lemma open_payload_ok st u st' : fresh (rs_p st) → open_payload io st = (Ok u, st') →
  files_ok l (rs_p st') ∧ reported_ok (rs_p st') [].
Proof.
  intros [H1 H2 H3 H4 H5] H. unfold open_payload, get_p, set_p, set_io in H. sx_inv.
  match goal with H : get_files_from_header _ = Ok ?p |- _ => rename H into Hg end.
  unfold get_files_from_header in Hg. rewrite H5, H3, H4 in Hg.
  destruct (files_loop 0 l [] []) as [files links] eqn:El. injection Hg as <-.
  destruct (files_loop_ok l [] [] [] files links eq_refl) as (Ha & Hb & Hc & Hd).
  { constructor. } { done. } { by intros f ?%elem_of_nil. } { by intros ? ? ?%elem_of_nil. } { done. }
  destruct (io_Fdopen io _ _) as [[] s]; sx_inv; try done. destruct (io_Ferror io s); [done|]. sx_inv. cbn.
  split.
  - split; cbn; try done. intros n ix Hn. by destruct (Hb n ix Hn).
  - unfold reported_ok. cbn. rewrite H2. split; [constructor|]. intros n. rewrite elem_of_nil.
    split; [done|]. intros (ix & Hn & Hs). cbn in Hn. destruct (Hb n ix Hn). congruence.
Qed.

(** The names of the files that the calls of [read_file] have reported; an exception
    ends the session. *)
Inductive session (st0 : rpm_state) : list bytes → rpm_state → Prop :=
| session_start : session st0 [] st0
| session_read reported st fuel st' : session st0 reported st →
    read_file io uninitialized behind fuel st = Some (Ok true, st') →
    session st0 (reported ++ (fi_name <$> fe_infos (rs_file st'))) st'.

Definition session_inv (reported : list bytes) st : Prop :=
  (fresh (rs_p st) ∧ reported = []) ∨
  (files_ok l (rs_p st) ∧ reported_ok (rs_p st) reported).

Lemma read_file_session reported st fuel b st' : session_inv reported st →
  read_file io uninitialized behind fuel st = Some (Ok b, st') →
  files_ok l (rs_p st') ∧
  if b then session_inv (reported ++ (fi_name <$> fe_infos (rs_file st'))) st'
  else ∀ n, n ∈ sm_keys (rp_files (rs_p st')) → n ∈ reported.
Proof.
  intros Hinv H. unfold read_file in H.
  assert (∃ st1, files_ok l (rs_p st1) ∧ reported_ok (rs_p st1) reported ∧
    read_file_loop io uninitialized behind fuel st1 = Some (Ok b, st')) as (st1 & Hok & Hrep & Hloop).
  { destruct Hinv as [[Hfresh ->]|[Hok Hrep]].
    - rewrite (fresh_closed _ Hfresh) in H. destruct (open_payload io st) as [[u|e] st1] eqn:E; [|done].
      apply open_payload_ok in E as [? ?]; [|done]. by exists st1.
    - rewrite (fok_open _ _ Hok) in H. by exists st. }
  destruct (read_file_loop_ok io uninitialized behind l fuel reported st1 b st' Hok Hrep Hloop) as [Hok' Hrep'].
  split; [done|]. destruct b; [|done]. by right.
Qed.

Lemma session_ok st0 reported st : fresh (rs_p st0) → session st0 reported st → session_inv reported st.
Proof.
  intros Hfresh. induction 1 as [|reported st fuel st' _ IH H]; [by left|].
  by eapply (read_file_session reported) in H as [_ H].
Qed.

Lemma reported_known p reported n : files_ok l p → reported_ok p reported → n ∈ reported → n ∈ ff_FN <$> l.
Proof.
  intros Hok [_ Hrep] Hn. assert (is_Some (sm_find n (rp_files p))) as [ix Hix].
  { destruct (rp_reached_ghosts p); [|apply Hrep in Hn as (ix & ? & _); by exists ix].
    destruct Hrep as (pre & Hsplit & Hrep). apply Hrep in Hn as [(ix & ? & _)|Hn]; [by exists ix|].
    apply sm_find_keys. rewrite Hsplit. unfold sm_keys. rewrite fmap_app. apply elem_of_app. by left. }
  destruct (fok_fx _ _ Hok _ _ Hix) as (f & Hf & <-). apply list_elem_of_fmap. exists f. split; [done|].
  apply zget_Some in Hf as Hr. rewrite zget_nonneg in Hf by lia. by eapply list_elem_of_lookup_2.
Qed.

End session.

(** ** The format of the archive *)

(** A stream of octets behind [Fread], which delivers as much as there is. *)
Record stream_ok {S} (io : rpmio S) (rest : S → bytes) : Prop := {
  stream_read n s : 0 < n → 
    (io_Fread io n s).1 = (Z.min n (zlen (rest s)), ztake n (rest s)) ∧
    rest (io_Fread io n s).2 = zdrop n (rest s)
}.

(** Padding up to a multiple of four. *)
Definition pad4 (n : Z) : bytes := replicate (Z.to_nat (- n mod 4)) 0.

(** An entry in the "newc" format: the 104 digits of the header, the name with its
    terminator, the contents. *)
Record archived := Archived { ar_header : bytes; ar_name : bytes; ar_contents : bytes }.
Definition archived_bytes (a : archived) : bytes :=
  str "070701" ++ ar_header a ++ ar_name a ++ pad4 (110 + zlen (ar_name a)) ++ ar_contents a ++ pad4 (zlen (ar_contents a)).
Definition trailer (header : bytes) : bytes :=
  str "070701" ++ header ++ str "TRAILER!!!" ++ [0] ++ pad4 121.

(** The digits spell a header for [namesize] and [filesize]. *)
Definition header_for (header : bytes) (ns fs : Z) : Prop :=
  zlen header = 104 ∧ 0 < ns < 2 ^ 32 ∧ 0 <= fs < 2 ^ 32 ∧
  ∃ vs e, decode_fields 16 hex_digit newc_layout header = inr vs ∧ newc_entry vs = Some e ∧
    namesize e = ns ∧ filesize e = fs.

Section archive.
Context {S : Type} (io : rpmio S) (rest : S → bytes) (Hio : stream_ok io rest).
Context (uninitialized : Z → bytes) (Huninit : ∀ n, 0 <= n → zlen (uninitialized n) = n) (behind : bytes).
Implicit Types (st : rpm_state (S := S)) (p : rpm_impl).

Definition at_rest st (s : S) : rpm_state := RpmState (rs_p st) (rs_file st) s.

(** A full read. *)
Lemma fread_full buf data tail eof where_ st : 0 < zlen buf → zlen data = zlen buf → rest (rs_io st) = data ++ tail →
  ∃ s, fread io buf eof where_ st = (Ok data, at_rest st s) ∧ rest s = tail.
Proof using Hio.
  intros Hpos Hlen Hrest. unfold fread, set_io, mbind, sx_bind, sx_get, sx_modify.
  destruct (stream_read io rest Hio (zlen buf) (rs_io st) Hpos) as [H1 H2].
  destruct (io_Fread io (zlen buf) (rs_io st)) as [[ret d] s]. cbn [fst snd] in *. injection H1 as -> ->.
  rewrite Hrest in *. rewrite zlen_app, Z.min_l by (pose proof (zlen_nonneg tail); lia).
  destruct (Z.eqb_spec (zlen buf) 0); [lia|]. destruct (Z.ltb_spec (zlen buf) 0); [lia|].
  rewrite <- Hlen in *. rewrite ztake_app in *. rewrite zdrop_app in *. exists s. split; [|done].
  rewrite ztake_all by lia. rewrite Hlen. rewrite zdrop_past by lia. by rewrite app_nil_r.
Qed.

Lemma u32_mod4 n : u32 n mod 4 = n mod 4.
Proof. unfold u32. Z.div_mod_to_equations. lia. Qed.
Lemma pad4_step n : n mod 4 ≠ 0 → pad4 n = 0 :: pad4 (n + 1).
Proof.
  intros Hn. unfold pad4. assert (- n mod 4 = 1 + - (n + 1) mod 4) as -> by
    (pose proof (Z.mod_pos_bound n 4); Z.div_mod_to_equations; lia).
  rewrite Z2Nat.inj_add by (try apply Z.mod_pos_bound; lia). done.
Qed.
Lemma pad4_mod n m : n mod 4 = m mod 4 → pad4 n = pad4 m.
Proof.
  intros H. unfold pad4. do 2 f_equal. Z.div_mod_to_equations. lia.
Qed.

(** The loop over the padding reads the padding. *)
Lemma padding_full n : ∀ pos tail eof where_ st, (- pos) mod 4 <= Z.of_nat n →
  rest (rs_io st) = pad4 pos ++ tail →
  ∃ s, padding io uninitialized n pos eof where_ st = (Ok tt, at_rest st s) ∧ rest s = tail.
Proof using Hio Huninit.
  induction n as [|n IH]; intros pos tail eof where_ st Hn Hrest; cbn [padding].
  - exists (rs_io st). split; [by destruct st|]. rewrite Hrest. unfold pad4.
    replace (- pos mod 4) with 0 by (pose proof (Z.mod_pos_bound (- pos) 4); lia). done.
  - destruct (Z.eqb_spec (pos mod 4) 0) as [H0|H0].
    + exists (rs_io st). split; [by destruct st|]. rewrite Hrest. unfold pad4.
      replace (- pos mod 4) with 0 by (Z.div_mod_to_equations; lia). done.
    + rewrite (pad4_step _ H0) in Hrest.
      destruct (fread_full (uninitialized 1) [0] (pad4 (pos + 1) ++ tail) eof where_ st) as (s & Hf & Hs);
        [rewrite Huninit; lia|by rewrite Huninit by lia|done|].
      unfold mbind, sx_bind. rewrite Hf.
      destruct (IH (u32 (pos + 1)) tail eof where_ (at_rest st s)) as (s' & Hp & Hs'); cbn [rs_io at_rest].
      * assert ((- u32 (pos + 1)) mod 4 = (- (pos + 1)) mod 4) as ->.
        { pose proof (u32_mod4 (pos + 1)). Z.div_mod_to_equations; lia. }
        Z.div_mod_to_equations; lia.
      * rewrite Hs. by rewrite (pad4_mod (u32 (pos + 1)) (pos + 1)) by apply u32_mod4.
      * exists s'. split; [exact Hp|done].
Qed.

Lemma parse_newc_full header ns fs e0 : header_for header ns fs →
  ∃ e, parse header 104 e0 None = Ok (true, e, None) ∧ namesize e = ns ∧ filesize e = fs.
Proof.
  intros (Hlen & _ & _ & vs & e & Hd & He & Hns & Hfs). exists e. split; [|done].
  destruct (parse_newc_decodes e0) as [_ D]. specialize (D header None ltac:(unfold zlen in Hlen; cbn; lia)).
  unfold parse. change (104 =? 70) with false. change (104 =? 104) with true. cbv iota.
  change (2 ^ 4) with 16 in D.
  rewrite Hd in D. destruct D as (e' & He' & ->). rewrite He in He'. injection He' as <-.
  unfold assert_. change (width newc_layout) with 104%nat.
  assert (zlen (drop 104 header) = zlen header - 104) as -> by (unfold zlen in *; rewrite length_drop; lia).
  by rewrite Z.eqb_refl.
Qed.

Lemma read_cpio_header_full header name fs tail st : header_for header (zlen name) fs →
  rest (rs_io st) = str "070701" ++ header ++ name ++ pad4 (110 + zlen name) ++ tail →
  ∃ e s, read_cpio_header io uninitialized st = (Ok (e, name), at_rest st s) ∧ rest s = tail ∧ filesize e = fs.
Proof using Hio Huninit.
  intros Hh Hrest. pose proof Hh as (Hlen & Hns & _). unfold read_cpio_header.
  destruct (fread_full (uninitialized 6) (str "070701") (header ++ name ++ pad4 (110 + zlen name) ++ tail)
    "end of stream in cpio file header" " (in cpio header)" st) as (s1 & H1 & R1);
    [rewrite Huninit; lia|by rewrite Huninit|done|].
  unfold mbind at 1, sx_bind at 1. rewrite H1. change (cpio_header_length (str "070701")) with 104.
  change (104 =? 0) with false. cbv iota.
  destruct (fread_full (uninitialized 104) header (name ++ pad4 (110 + zlen name) ++ tail)
    "end of stream in cpio file header" " (in cpio header)" (at_rest st s1)) as (s2 & H2 & R2);
    [rewrite Huninit; lia|by rewrite Huninit|done|].
  unfold mbind at 1, sx_bind at 1. rewrite H2.
  destruct (parse_newc_full header _ _ (CpioEntry 0 0 0 0 0 0 0 0 0 0 0 0 0) Hh) as (e & Hp & He1 & He2).
  unfold mbind at 1, sx_bind at 1, sx_res. rewrite Hp. cbn [negb].
  rewrite He1. destruct (Z.eqb_spec (zlen name) 0); [lia|].
  destruct (fread_full (replicate (Z.to_nat (zlen name)) 0) name (pad4 (110 + zlen name) ++ tail)
    "end of stream in cpio file name" " (in cpio file name)" (at_rest (at_rest st s1) s2)) as (s3 & H3 & R3);
    [unfold zlen at 1; rewrite length_replicate; lia|unfold zlen at 2; rewrite length_replicate; unfold zlen; lia|done|].
  unfold mbind at 1, sx_bind at 1. rewrite H3.
  destruct (padding_full 3 (u32 (6 + 104 + zlen name)) tail "failed to read padding after name"
    " (in cpio file name padding)" (at_rest st s3)) as (s4 & H4 & R4).
  { pose proof (Z.mod_pos_bound (- u32 (6 + 104 + zlen name)) 4). lia. }
  { cbn [rs_io at_rest]. rewrite R3. f_equal. apply pad4_mod. rewrite u32_mod4.
    reflexivity. }
  exists e, s4. split; [|done]. unfold mbind, sx_bind. unfold at_rest in *. cbn [rs_p rs_file] in *. rewrite H4. done.
Qed.

Lemma read_contents_full e contents tail st : filesize e = zlen contents → 
  rest (rs_io st) = contents ++ pad4 (zlen contents) ++ tail →
  ∃ s, read_contents io uninitialized e st =
    (Ok tt, RpmState (rs_p st) (RpmFileEntry (fe_infos (rs_file st)) contents) s) ∧ rest s = tail.
Proof using Hio Huninit.
  intros Hfs Hrest. pose proof (zlen_nonneg contents). unfold read_contents, get_file, set_file.
  unfold mbind, sx_bind, mret, sx_ret, sx_get, sx_modify. cbn [rs_p rs_file rs_io]. rewrite Hfs.
  set (buf := vec_resize (zlen contents) 0 (fe_contents (rs_file st))).
  assert (Hbuf : zlen buf = zlen contents) by by apply zlen_vec_resize.
  set (st1 := RpmState (rs_p st) (RpmFileEntry (fe_infos (rs_file st)) buf) (rs_io st)).
  assert (∃ s, (if 0 <? zlen contents then
      λ s, match fread io buf "end of stream in cpio file contents" " (in cpio file contents)" s with
           | (Ok a, s0) => (Ok tt, RpmState (rs_p s0) (RpmFileEntry (fe_infos (rs_file st)) a) (rs_io s0))
           | (Throw e0, s0) => (Throw e0, s0) end
      else λ s, (Ok tt, s)) st1 = (Ok tt, RpmState (rs_p st) (RpmFileEntry (fe_infos (rs_file st)) contents) s) ∧
    rest s = pad4 (zlen contents) ++ tail) as (s1 & H1 & R1).
  { destruct (Z.ltb_spec 0 (zlen contents)).
    - destruct (fread_full buf contents (pad4 (zlen contents) ++ tail) "end of stream in cpio file contents"
        " (in cpio file contents)" st1) as (s & Hf & Hs); [lia|done|done|]. rewrite Hf. by exists s.
    - assert (contents = []) as -> by (apply zlen_0_nil; lia). exists (rs_io st). split; [|exact Hrest].
      assert (buf = []) as -> by (apply zlen_0_nil; done). done. }
  destruct (padding_full 3 (zlen contents) tail "failed to read padding after cpio contents"
    " (in cpio file contents padding)" (RpmState (rs_p st) (RpmFileEntry (fe_infos (rs_file st)) contents) s1)) as (s2 & H2 & R2).
  { pose proof (Z.mod_pos_bound (- zlen contents) 4). lia. } { done. }
  exists s2. split; [|done]. 
  destruct (0 <? zlen contents).
  - change (RpmState (rs_p st) _ (rs_io st)) with st1.
    destruct (fread io buf _ _ st1) as [[a|e0] s0]; [|done]. injection H1 as Hp Ha Hs. rewrite Hp, Ha, Hs. exact H2.
  - injection H1 as Hb Hs. unfold st1. rewrite Hb, Hs. exact H2.
Qed.

Lemma get_file_info_old f old : get_file_info f old = get_file_info f rpm_file_info_new.
Proof. unfold get_file_info. destruct (negb (Z.land (ff_FFlags f) RPMFILE_GHOST =? 0)); reflexivity. Qed.

Context (l : list rpmfi_file) (Hnames : NoDup (ff_FN <$> l)).

(** What the header and the archive say about a file. *)
Definition expected (a : archived) (info : rpm_file_info) : rpm_file_entry :=
  RpmFileEntry [info] (if ghost info then [] else ar_contents a).

(** The files in [done] were read; there are no hard links. *)
Record reading (done : list bytes) st : Prop := {
  rd_files : files_ok l (rs_p st);
  rd_reached : rp_reached_ghosts (rs_p st) = false;
  rd_links : rp_hardlinks (rs_p st) = [];
  rd_seen n ix : sm_find n (rp_files (rs_p st)) = Some ix → seen_ ix = bool_decide (n ∈ done)
}.

Lemma same_name f g : f ∈ l → g ∈ l → ff_FN f = ff_FN g → f = g.
Proof using Hnames.
  intros [i Hi]%list_elem_of_lookup [j Hj]%list_elem_of_lookup Heq.
  assert (i = j) as ->; [|congruence].
  eapply (NoDup_lookup (ff_FN <$> l)); [done| |]; rewrite list_lookup_fmap; [by rewrite Hi|by rewrite Hj, Heq].
Qed.

Lemma find_file done st f : reading done st → f ∈ l →
  ∃ ix, sm_find (ff_FN f) (rp_files (rs_p st)) = Some ix ∧ zget l (fx_ ix) = Some f ∧
    seen_ ix = bool_decide (ff_FN f ∈ done).
Proof using Hnames.
  intros Hr Hf. pose proof (rd_files _ _ Hr) as Hok.
  destruct (proj2 (sm_find_keys _ _) (fok_all _ _ Hok _ Hf)) as [ix Hix].
  destruct (fok_fx _ _ Hok _ _ Hix) as (g & Hg & Hname). exists ix. split; [done|]. split; [|by eapply rd_seen].
  rewrite Hg. f_equal. apply same_name; [|done|done].
  apply zget_Some in Hg as Hr'. rewrite zget_nonneg in Hg by lia. by eapply list_elem_of_lookup_2.
Qed.

Lemma seek_full fx f st : zlen l < 2 ^ 31 → fi_files (rp_fi (rs_p st)) = l → zget l fx = Some f →
  seek_fi fx st = (Ok tt, RpmState (with_fi (rs_p st) (RpmfiHandle l fx)) (rs_file st) (rs_io st)).
Proof.
  intros Hl Hfi Hf. apply zget_Some in Hf. unfold seek_fi, get_p, set_p, mbind, sx_bind, sx_get, sx_modify, mret, sx_ret.
  cbn [rs_p]. rewrite Hfi. destruct (Z.leb_spec 0 fx); [|lia]. destruct (Z.ltb_spec fx (zlen l)); [|lia]. cbn [andb].
  assert (to_signed 32 fx = fx) as ->.
  { unfold to_signed. change (32 - 1) with 31. rewrite (Z.mod_small fx) by lia. destruct (Z.ltb_spec fx (2 ^ 31)); lia. }
  by rewrite Z.eqb_refl.
Qed.

Lemma read_archived done st a f info tail : zlen l < 2 ^ 31 → reading done st →
  header_for (ar_header a) (zlen (ar_name a)) (zlen (ar_contents a)) → is_trailer (ar_name a) = false →
  name_normalized behind (ar_name a) = ff_FN f → f ∈ l → ff_FN f ∉ done → get_file_info f rpm_file_info_new = Ok info →
  rest (rs_io st) = archived_bytes a ++ tail →
  ∃ st', read_file io uninitialized behind 1 st = Some (Ok true, st') ∧ rs_file st' = expected a info ∧
    reading (ff_FN f :: done) st' ∧ rest (rs_io st') = tail.
Proof using Hio Huninit Hnames.
  intros Hl Hr Hh Htr Hname Hf Hnew Hinfo Hrest. pose proof (rd_files _ _ Hr) as Hok.
  unfold archived_bytes in Hrest. rewrite <- !app_assoc in Hrest.
  destruct (read_cpio_header_full _ _ _ _ _ Hh Hrest) as (e & s1 & H1 & R1 & Hfs).
  destruct (read_contents_full e (ar_contents a) tail (at_rest st s1) Hfs R1) as (s2 & H2 & R2).
  destruct (find_file _ _ _ Hr Hf) as (ix & Hix & Hfx & Hseen). rewrite bool_decide_eq_false_2 in Hseen by done.
  set (st2 := RpmState (rs_p (at_rest st s1)) (RpmFileEntry (fe_infos (rs_file (at_rest st s1))) (ar_contents a)) s2) in *.
  assert (Hseek := seek_full (fx_ ix) f st2 Hl (fok_fi _ _ Hok) Hfx).
  set (p3 := with_fi (rs_p st2) (RpmfiHandle l (fx_ ix))) in *.
  set (p4 := with_files p3 (sm_set (ff_FN f) (Findex (fx_ ix) true) (rp_files p3))).
  exists (RpmState p4 (expected a info) s2).
  assert (Hstep : read_file_step io uninitialized behind st = (Ok (Some true), RpmState p4 (expected a info) s2)).
  { assert (Hget : ∀ s : rpm_state (S := S), get_p s = (Ok (rs_p s), s)) by done.
    unfold read_file_step. sx_run (Hget st). rewrite (rd_reached _ _ Hr). sx_run H1. rewrite Htr. sx_run H2. fold st2.
    sx_run (Hget st2). change (rs_p st2) with (rs_p st). rewrite Hname, Hix. sx_run Hseek.
    assert (Hcur : ∀ s : rpm_state (S := S), rs_p s = p3 → fi_current s = (Ok f, s)).
    { intros s Hs. unfold fi_current. etransitivity; [apply (sx_bind_run _ _ _ _ _ (Hget s))|]. rewrite Hs.
      cbn [p3 rp_fi with_fi fi_files fi_FX]. by rewrite Hfx. }
    sx_run (Hcur (RpmState p3 (rs_file st2) (rs_io st2)) eq_refl).
    rewrite (rd_links _ _ Hr). change (equal_range (ff_FInode f) []) with (@nil Z). cbv iota.
    unfold single_file. rewrite Hseen. unfold get_file, set_file, set_p.
    unfold mbind, sx_bind, sx_get, mret, sx_ret, sx_modify, sx_res. cbn [rs_p rs_file rs_io fe_infos fe_contents].
    rewrite Hcur by reflexivity. rewrite get_file_info_old, Hinfo.
    reflexivity. }
  split; [|split; [done|split; [|done]]].
  { unfold read_file. rewrite (fok_open _ _ Hok). unfold mret, sx_ret. cbn [read_file_loop]. by rewrite Hstep. }
  split; cbn [rs_p].
  - apply (mark_ok l p3 _ ix); [|exact Hix]. apply files_ok_fi; done.
  - apply (rd_reached _ _ Hr).
  - apply (rd_links _ _ Hr).
  - intros n jx. unfold p4. cbn [rp_files with_files]. rewrite sm_find_set. case_bool_decide as Hn.
    + intros [= <-]. cbn. symmetry. apply bool_decide_eq_true_2. rewrite Hn. by left.
    + intros Hj. rewrite (rd_seen _ _ Hr _ _ Hj). apply bool_decide_ext. rewrite elem_of_cons. tauto.
Qed.

(** The rest of the map when everything was read. *)
Lemma read_file_ghost_none ghosts : ∀ st, Forall (λ x, seen_ x.2 = true) ghosts →
  ∃ st', read_file_ghost ghosts st = (Ok false, st') ∧ rs_io st' = rs_io st.
Proof.
  induction ghosts as [|[n ix] ghosts IH]; intros st Hall; [by eexists|].
  inversion_clear Hall as [|?? Hix Hall']. cbn in Hix. cbn [read_file_ghost].
  destruct (IH (RpmState (with_ghosts (rs_p st) (rp_reached_ghosts (rs_p st)) ((n, ix) :: ghosts)) (rs_file st) (rs_io st)) Hall')
    as (st' & H1 & H2).
  exists st'. split; [|exact H2]. rewrite Hix. exact H1.
Qed.

Lemma read_trailer done st header tail : reading done st → (∀ f, f ∈ l → ff_FN f ∈ done) → header_for header 11 0 →
  rest (rs_io st) = trailer header ++ tail →
  ∃ st', read_file io uninitialized behind 1 st = Some (Ok false, st') ∧ rest (rs_io st') = tail.
Proof using Hio Huninit.
  intros Hr Hall Hh Hrest. pose proof (rd_files _ _ Hr) as Hok. unfold trailer in Hrest. rewrite <- !app_assoc in Hrest.
  destruct (read_cpio_header_full header (str "TRAILER!!!" ++ [0]) 0 tail st Hh) as (e & s1 & H1 & R1 & _).
  { rewrite Hrest. rewrite <- !app_assoc. reflexivity. }
  destruct (read_file_ghost_none (rp_files (rs_p st)) (RpmState (with_ghosts (rs_p st) true (rp_files (rs_p st))) (rs_file st) s1))
    as (st' & Hg & Hs).
  { apply Forall_forall. intros [n ix] Hin. apply (sm_find_elem _ _ _ (fok_sorted _ _ Hok)) in Hin. cbn.
    rewrite (rd_seen _ _ Hr _ _ Hin). apply bool_decide_eq_true_2.
    destruct (fok_fx _ _ Hok _ _ Hin) as (f & Hf & <-). apply Hall.
    apply zget_Some in Hf as Hr'. rewrite zget_nonneg in Hf by lia. by eapply list_elem_of_lookup_2. }
  exists st'. split; [|by rewrite Hs]. unfold read_file. rewrite (fok_open _ _ Hok). unfold mret, sx_ret.
  cbn [read_file_loop].
  assert (read_file_step io uninitialized behind st = (Ok (Some false), st')) as ->; [|done].
  assert (Hget : ∀ s : rpm_state (S := S), get_p s = (Ok (rs_p s), s)) by done.
  unfold read_file_step. sx_run (Hget st). rewrite (rd_reached _ _ Hr). sx_run H1.
  change (is_trailer (str "TRAILER!!!" ++ [0])) with true. cbv iota. sx_run (Hget (at_rest st s1)).
  unfold set_p. unfold mbind, sx_bind, sx_modify. cbn [rs_p rs_file rs_io at_rest]. by rewrite Hg.
Qed.

(** The payload was opened; there are no hard links. *)
Lemma files_loop_plain rest' : ∀ fx files links, Forall (λ f, hardlink_ino f = 0) rest' →
  (files_loop fx rest' files links).2 = links.
Proof.
  induction rest' as [|f r IH]; intros fx files links Hall; [done|]. inversion_clear Hall as [|?? Hf Hall'].
  cbn [files_loop]. rewrite IH by done. by rewrite Hf.
Qed.
Lemma open_payload_reading st0 st : fresh l (rs_p st0) → Forall (λ f, hardlink_ino f = 0) l →
  open_payload io st0 = (Ok tt, st) → reading [] st.
Proof.
  intros Hfresh Hplain Hopen. destruct (open_payload_ok io l _ _ _ Hfresh Hopen) as [Hok [_ Hrep]].
  assert (rp_reached_ghosts (rs_p st) = false ∧ rp_hardlinks (rs_p st) = []) as [Hre Hli].
  { destruct Hfresh as [H1 H2 H3 H4 H5]. unfold open_payload, get_p, set_p, set_io in Hopen. sx_inv.
    match goal with H : get_files_from_header _ = Ok ?p |- _ => rename H into Hg end.
    unfold get_files_from_header in Hg. rewrite H5, H3, H4 in Hg.
    pose proof (files_loop_plain l 0 [] [] Hplain) as Hl.
    destruct (files_loop 0 l [] []) as [files links]. cbn in Hl. subst links. injection Hg as <-.
    destruct (io_Fdopen io _ _) as [[] s]; sx_inv; try done. destruct (io_Ferror io s); [done|]. by sx_inv. }
  split; [done|done|done|]. intros n ix Hn. rewrite Hre in Hrep. rewrite bool_decide_eq_false_2 by apply not_elem_of_nil.
  destruct (seen_ ix) eqn:E; [|done]. exfalso. apply (not_elem_of_nil n), Hrep. by exists ix.
Qed.

(** A row of calls that return true, with the entries they deliver. *)
Inductive reads : rpm_state (S := S) → list rpm_file_entry → rpm_state (S := S) → Prop :=
| reads_nil st : reads st [] st
| reads_cons st st1 es st2 : read_file io uninitialized behind 1 st = Some (Ok true, st1) → reads st1 es st2 →
    reads st (rs_file st1 :: es) st2.

(** An entry of the archive with the file of the header it belongs to. *)
Record member := Member { mb_archived : archived; mb_file : rpmfi_file; mb_info : rpm_file_info }.
Record member_ok (m : member) : Prop := {
  mok_header : header_for (ar_header (mb_archived m)) (zlen (ar_name (mb_archived m))) (zlen (ar_contents (mb_archived m)));
  mok_trailer : is_trailer (ar_name (mb_archived m)) = false;
  mok_name : name_normalized behind (ar_name (mb_archived m)) = ff_FN (mb_file m);
  mok_file : mb_file m ∈ l;
  mok_info : get_file_info (mb_file m) rpm_file_info_new = Ok (mb_info m)
}.

Lemma read_members ms : ∀ done st tail, zlen l < 2 ^ 31 → reading done st → Forall member_ok ms →
  NoDup ((λ m, ff_FN (mb_file m)) <$> ms) → (∀ m, m ∈ ms → ff_FN (mb_file m) ∉ done) →
  rest (rs_io st) = concat ((λ m, archived_bytes (mb_archived m)) <$> ms) ++ tail →
  ∃ st', reads st ((λ m, expected (mb_archived m) (mb_info m)) <$> ms) st' ∧ rest (rs_io st') = tail ∧
    ∃ done', reading done' st' ∧ ∀ n, n ∈ done' ↔ n ∈ done ∨ n ∈ (λ m, ff_FN (mb_file m)) <$> ms.
Proof using Hio Huninit Hnames.
  induction ms as [|m ms IH]; intros done st tail Hl Hr Hok Hnd Hnew Hrest.
  { exists st. split; [constructor|]. split; [done|]. exists done. split; [done|]. intros n. cbn. rewrite elem_of_nil. tauto. }
  inversion_clear Hok as [|?? Hm Hok']. rewrite fmap_cons in Hnd. inversion_clear Hnd as [|?? Hfst Hnd'].
  rewrite fmap_cons in Hrest. cbn [concat] in Hrest. rewrite <- app_assoc in Hrest. destruct Hm as [M1 M2 M3 M4 M5].
  destruct (read_archived done st _ _ _ _ Hl Hr M1 M2 M3 M4 (Hnew m ltac:(by left)) M5 Hrest)
    as (st1 & Hread & Hfile & Hr1 & Hrest1).
  destruct (IH (ff_FN (mb_file m) :: done) st1 tail Hl Hr1 Hok' Hnd') as (st2 & Hreads & Hrest2 & done' & Hr2 & Hd).
  { intros m' Hm' [Heq|Hin]%elem_of_cons; [|apply (Hnew m'); [by right|done]].
    apply Hfst. rewrite <- Heq. apply list_elem_of_fmap. by exists m'. } { done. }
  exists st2. rewrite fmap_cons. split; [rewrite <- Hfile; by econstructor|]. split; [done|].
  exists done'. split; [done|]. intros n. rewrite Hd, fmap_cons, !elem_of_cons. tauto.
Qed.

(** C21: Reading a package without hard links delivers the archive as it was written:
    for a payload in the "newc" format (headers of hexadecimal digits with the right
    sizes, padded names and contents, a trailer) whose entries are the files of the
    header in any order, the calls of [read_file] return the entries in the order of the
    archive, each with the information of the header and with its exact contents
    (none for a ghost); then false; and the stream is consumed up to the end of the
    trailer, so no octet is lost or taken for another entry. *)
Theorem rpm_read_archive st0 st ms th tail : zlen l < 2 ^ 31 → fresh l (rs_p st0) →
  Forall (λ f, hardlink_ino f = 0) l → open_payload io st0 = (Ok tt, st) →
  Forall member_ok ms → (λ m, ff_FN (mb_file m)) <$> ms ≡ₚ ff_FN <$> l → header_for th 11 0 →
  rest (rs_io st) = concat ((λ m, archived_bytes (mb_archived m)) <$> ms) ++ trailer th ++ tail →
  ∃ st1 st2, reads st ((λ m, expected (mb_archived m) (mb_info m)) <$> ms) st1 ∧
    read_file io uninitialized behind 1 st1 = Some (Ok false, st2) ∧ rest (rs_io st2) = tail.
Proof using Hio Huninit Hnames.
  intros Hl Hfresh Hplain Hopen Hms Hperm Hth Hrest. pose proof (open_payload_reading _ _ Hfresh Hplain Hopen) as Hr.
  destruct (read_members ms [] st (trailer th ++ tail) Hl Hr Hms) as (st1 & Hreads & Hrest1 & done & Hr1 & Hdone).
  { by rewrite Hperm. } { intros m _. apply not_elem_of_nil. } { done. }
  destruct (read_trailer done st1 th tail Hr1) as (st2 & Hread & Hrest2); [|done|done|by exists st1, st2].
  intros f Hf. apply Hdone. right. rewrite Hperm. apply list_elem_of_fmap. by exists f.
Qed.
End archive.

(** ** A package *)

Definition list_io : rpmio bytes := {|
  io_Fread n s := ((Z.min n (zlen s), ztake n s), zdrop n s);
  io_Ferror _ := false;
  io_Fstrerror _ := str "error";
  io_Fdopen _ s := (FdopenSame, s)
|}.
Lemma list_io_ok : stream_ok list_io Datatypes.id.
Proof. by split. Qed.
Definition sample_uninitialized (n : Z) : bytes := replicate (Z.to_nat n) 170.
Lemma sample_uninitialized_length n : 0 <= n → zlen (sample_uninitialized n) = n.
Proof. intros. unfold sample_uninitialized, zlen. rewrite length_replicate. lia. Qed.

Fixpoint hex_field (n : nat) (z : Z) : bytes :=
  match n with O => [] | S n => hex_field n (z / 16) ++ [b16_digit (z mod 16)] end.
Definition newc_header (ns fs : Z) : bytes :=
  concat (hex_field 8 <$> [1; 33188; 0; 0; 1; 0; fs; 0; 0; 0; 0; ns; 0]).
Definition sample_file (name : string) (inode flags size nlink : Z) : rpmfi_file :=
  RpmfiFile (str name) (str "root") (str "root") [] 33188 0 inode flags [] 8 (replicate (Z.to_nat 32) 7) size nlink.
Definition sample_entry (name : string) (contents : bytes) : archived :=
  Archived (newc_header (zlen (str name) + 1) (zlen contents)) (str name ++ [0]) contents.
Definition sample_trailer : bytes := trailer (newc_header 11 0).

Definition sample_header (l : list rpmfi_file) : rpm_header := RpmHeader (λ _, None) 0 (Some l).
Definition sample_parser (l : list rpmfi_file) : rpm_impl :=
  RpmImpl (sample_header l) [] false false (TdStrings [str "x"]) rpm_package_info_new (RpmfiHandle [] (-1)) [] [] [].
Definition sample_state (l : list rpmfi_file) (payload : bytes) : rpm_state :=
  RpmState (sample_parser l) (RpmFileEntry [] []) payload.
Definition sample_read := read_file list_io sample_uninitialized [0].
Definition sample_next (fuel : nat) (st : rpm_state) : rpm_state :=
  match sample_read fuel st with Some (_, st) => st | None => st end.

(** Two hard links, the first without contents, and a ghost that is not in the archive. *)
Definition linked_files : list rpmfi_file :=
  [sample_file "/bin/b" 5 0 3 2; sample_file "/bin/a" 5 0 3 2; sample_file "/log" 6 64 0 1].
Definition linked_state : rpm_state := sample_state linked_files
  (archived_bytes (sample_entry "./bin/b" []) ++ archived_bytes (sample_entry "./bin/a" [1; 2; 3]) ++ sample_trailer).


Definition plain_files : list rpmfi_file :=
  [sample_file "/bin/b" 5 0 3 1; sample_file "/bin/a" 6 0 0 1; sample_file "/log" 7 64 2 1].
Definition sample_info (f : rpmfi_file) : rpm_file_info :=
  match get_file_info f rpm_file_info_new with Ok i => i | Throw _ => rpm_file_info_new end.
Definition sample_member (name : string) (contents : bytes) (f : rpmfi_file) : member :=
  Member (sample_entry name contents) f (sample_info f).
Definition plain_members : list member :=
  [sample_member "./bin/b" [1; 2; 3] (sample_file "/bin/b" 5 0 3 1); sample_member "./log" [4; 5] (sample_file "/log" 7 64 2 1);
   sample_member "./bin/a" [] (sample_file "/bin/a" 6 0 0 1)].
Definition plain_payload : bytes :=
  concat ((λ m, archived_bytes (mb_archived m)) <$> plain_members) ++ sample_trailer ++ [9].
Definition plain_opened : rpm_state := (open_payload list_io (sample_state plain_files plain_payload)).2.

Lemma header_for_sample ns fs vs e : zlen (newc_header ns fs) = 104 → 0 < ns < 2 ^ 32 → 0 <= fs < 2 ^ 32 →
  decode_fields 16 hex_digit newc_layout (newc_header ns fs) = inr vs → newc_entry vs = Some e →
  namesize e = ns → filesize e = fs → header_for (newc_header ns fs) ns fs.
Proof. intros ? ? ? ? ? ? ?. split; [done|]. split; [done|]. split; [done|]. by exists vs, e. Qed.
Ltac sample_header_tac :=
  lazymatch goal with |- header_for _ ?n ?f =>
    let n' := eval vm_compute in n in let f' := eval vm_compute in f in
    change (header_for (newc_header n' f') n' f') end;
  eapply header_for_sample; [vm_compute; reflexivity|by vm_compute|by vm_compute|vm_compute; reflexivity|vm_compute; reflexivity|
    vm_compute; reflexivity|vm_compute; reflexivity].

Lemma rpm_read_archive_witness :
  ∃ st1 st2, reads list_io sample_uninitialized [0] plain_opened
      [RpmFileEntry [sample_info (sample_file "/bin/b" 5 0 3 1)] [1; 2; 3];
       RpmFileEntry [sample_info (sample_file "/log" 7 64 2 1)] [];
       RpmFileEntry [sample_info (sample_file "/bin/a" 6 0 0 1)] []] st1 ∧
    sample_read 1 st1 = Some (Ok false, st2) ∧ rs_io st2 = [9].
Proof.
  apply (rpm_read_archive list_io Datatypes.id list_io_ok sample_uninitialized sample_uninitialized_length [0] plain_files
    ltac:(apply (bool_decide_unpack _); vm_compute; exact I)
    (sample_state plain_files plain_payload) plain_opened plain_members (newc_header 11 0) [9]).
  - by vm_compute.
  - by split.
  - apply (bool_decide_unpack _). vm_compute. exact I.
  - vm_compute. reflexivity.
  - unfold plain_members. repeat (apply Forall_cons_2; [split; [sample_header_tac|vm_compute; reflexivity|vm_compute; reflexivity|
      unfold plain_files; rewrite !elem_of_cons; auto|vm_compute; reflexivity]|]). apply Forall_nil_2.
  - apply (bool_decide_unpack _). vm_compute. exact I.
  - sample_header_tac.
  - vm_compute. reflexivity.
Defined.

(** A payload that ends within the contents of a file: the missing octets are zero and
    the entry is returned like a complete one. *)
Example truncated_contents :
  let l := [sample_file "/a" 5 0 8 1] in
  let payload := take 133 (archived_bytes (sample_entry "./aa" [1; 2; 3; 4; 5; 6; 7; 8])) in
  let st := sample_state [sample_file "/aa" 5 0 8 1] (take 121 (archived_bytes (sample_entry "./aa" [1; 2; 3; 4; 5; 6; 7; 8]))) in
  match sample_read 1 st with
  | Some (r, st) => r = Ok true ∧ fe_contents (rs_file st) = [1; 2; 3; 4; 5; 0; 0; 0]
  | None => False
  end.
Proof. vm_compute. split; reflexivity. Qed.
