(* ===== verification/Xml.v ===== *)
(** * Pull parsers for XML, as their clients see them

    The interface of [expat_source]: the operations (class [XmlOps]), the
    contract (class [XmlSource]: a stream of events), and the derived operations
    [text_and_next], [skip] and [unnest], which only use [next] and the state.
    [x_name_ptr]
    and [x_text_ptr] are the C strings at the pointers.  The implementation is in
    Expat.v. *)

From S2P Require Import Prelude SortedMap.

(** Source: include/cxxll/expat_source.hpp 48-54, expat_source::state_type. *)
Inductive state_type := INIT | START | END | TEXT | EOD.
#[global] Instance state_type_eq_dec : EqDecision state_type.
Proof. solve_decision. Defined.

(** Source: lib/cxxll/expat_source.cpp 541-557, expat_source::state_string. *)
Definition state_string (e : state_type) : bytes :=
  match e with
  | INIT => str "INIT" | START => str "START" | END => str "END" | TEXT => str "TEXT" | EOD => str "EOD"
  end.

(** The state types as numbers, for the exception that carries two of them. *)
Definition state_number (e : state_type) : Z :=
  match e with INIT => 0 | START => 1 | END => 2 | TEXT => 3 | EOD => 4 end.
Definition illegal_state {A} (actual expected : state_type) : res A :=
  Throw (xml_illegal_state (state_number actual) (state_number expected)).

(** ** The interface *)

(** A computation on a parser: the outcome and the new state of the parser, or
    [None] when the fuel does not suffice. *)
Abbreviation xm := fsx (only parsing).

Class XmlOps (X : Type) := {
  x_next : nat → xm X bool;
  x_state : X → state_type;
  x_name : X → res bytes;
  x_name_ptr : X → res bytes;
  x_attribute : bytes → X → res bytes;
  x_attributes : X → res (smap bytes);
  x_text : X → res bytes;
  x_text_ptr : X → res bytes
}.

Definition xm_state {X} `{XmlOps X} : xm X state_type := λ x, Some (Ok (x_state x), x).
Definition xm_get {X A} (f : X → res A) : xm X A := λ x, Some (f x, x).
Definition xm_throw {X A} (e : exn) : xm X A := λ x, Some (Throw e, x).
Definition xm_diverge {X A} : xm X A := λ x, None.

(** ** Derived operations *)

Section derived.
Context {X : Type} `{XmlOps X}.

(** Source: lib/cxxll/expat_source.cpp 480-484, expat_source::text_and_next. *)
Fixpoint text_and_next_loop (fuel : nat) (result : bytes) : xm X bytes :=
  match fuel with
  | O => xm_diverge
  | S fuel =>
      st ← xm_state;
      if bool_decide (st = TEXT) then
        t ← xm_get x_text;
        x_next fuel;;
        text_and_next_loop fuel (result ++ t)
      else mret result
  end.

(** [x_text] checks the state.
    Source: lib/cxxll/expat_source.cpp 473-486, expat_source::text_and_next. *)
Definition text_and_next (fuel : nat) : xm X bytes :=
  t ← xm_get x_text;
  x_next fuel;;
  text_and_next_loop fuel t.

(** Source: lib/cxxll/expat_source.cpp 497-514, expat_source::skip. *)
Fixpoint skip_nested (fuel : nat) (nested : Z) : xm X unit :=
  match fuel with
  | O => xm_diverge
  | S fuel =>
      if nested =? 0 then mret tt
      else
        st ← xm_state;
        match st with
        | START => x_next fuel;; skip_nested fuel (u32 (nested + 1))
        | END => x_next fuel;; skip_nested fuel (nested - 1)
        | TEXT => x_next fuel;; skip_nested fuel nested
        | EOD | INIT => xm_throw assertion_failure
        end
  end.

(** Source: lib/cxxll/expat_source.cpp 517-521, expat_source::skip. *)
Fixpoint skip_text (fuel : nat) : xm X unit :=
  match fuel with
  | O => xm_diverge
  | S fuel =>
      x_next fuel;;
      st ← xm_state;
      if bool_decide (st = TEXT) then skip_text fuel else mret tt
  end.

(** Source: lib/cxxll/expat_source.cpp 488-528, expat_source::skip. *)
Definition skip (fuel : nat) : xm X unit :=
  st ← xm_state;
  match st with
  | INIT => x_next fuel;; mret tt
  | START => x_next fuel;; skip_nested fuel 1
  | TEXT => skip_text fuel
  | END => x_next fuel;; mret tt
  | EOD => mret tt
  end.

(** Source: lib/cxxll/expat_source.cpp 534-537, expat_source::unnest. *)
Fixpoint unnest_loop (fuel : nat) : xm X unit :=
  match fuel with
  | O => xm_diverge
  | S fuel =>
      st ← xm_state;
      if bool_decide (st = END) then x_next fuel;; mret tt
      else skip fuel;; unnest_loop fuel
  end.

(** Source: lib/cxxll/expat_source.cpp 530-539, expat_source::unnest. *)
Definition unnest (fuel : nat) : xm X unit :=
  st ← xm_state;
  if bool_decide (st = EOD) then mret tt else unnest_loop fuel.
End derived.

(** ** The contract *)

(** What a parser reports at a position. *)
Inductive xevent :=
| XStart (name : bytes) (attributes : list (bytes * bytes))
| XEnd
| XText (text : bytes).
Definition event_state (e : xevent) : state_type :=
  match e with XStart _ _ => START | XEnd => END | XText _ => TEXT end.

(** The value of the first attribute of that name, or the empty string. *)
Definition attribute_value (name : bytes) (attrs : list (bytes * bytes)) : bytes :=
  match List.find (λ kv, bool_decide (kv.1 = name)) attrs with Some kv => kv.2 | None => [] end.

(** The map of the attributes; for a name that occurs twice the first counts. *)
Definition attribute_map (attrs : list (bytes * bytes)) : smap bytes :=
  foldl (λ m kv, sm_insert kv.1 kv.2 m) [] attrs.

Lemma attribute_map_find key attrs : default [] (sm_find key (attribute_map attrs)) = attribute_value key attrs.
Proof.
  assert (∀ m, sm_find key (foldl (λ m kv, sm_insert kv.1 kv.2 m) m attrs) =
    match sm_find key m with Some v => Some v | None => snd <$> List.find (λ kv, bool_decide (kv.1 = key)) attrs end) as H.
  { induction attrs as [|[k v] attrs IH]; intros m; cbn [foldl List.find fst snd]; [by destruct (sm_find key m)|].
    rewrite IH, sm_find_insert. destruct (sm_find key m); [done|].
    destruct (bool_decide_reflect (key = k)) as [->|Hne]; [by rewrite bool_decide_eq_true_2|].
    by rewrite bool_decide_eq_false_2 by congruence. }
  unfold attribute_map, attribute_value. rewrite H. cbn [sm_find].
  by destruct (List.find (λ kv, bool_decide (kv.1 = key)) attrs) as [[]|].
Qed.

(** The accessors at an event, each of them only in its state. *)
Definition shows {X} `{XmlOps X} (x : X) (e : xevent) : Prop :=
  x_state x = event_state e ∧
  match e with
  | XStart name attrs => x_name x = Ok name ∧ x_name_ptr x = Ok name ∧ (∀ key, x_attribute key x = Ok (attribute_value key attrs)) ∧
      x_attributes x = Ok (attribute_map attrs)
  | XText t => x_text x = Ok t ∧ x_text_ptr x = Ok t
  | XEnd => True
  end.

(** [x_ahead x es]: the calls of [next] will report [es] and then the end of the
    document; with enough fuel each of them returns. *)
Class XmlSource (X : Type) `{XmlOps X} := {
  x_ahead : X → list xevent → Prop;
  x_next_event x e es : x_ahead x (e :: es) →
    ∃ n, ∃ x', (∀ fuel, (n <= fuel)%nat → x_next fuel x = Some (Ok true, x')) ∧ shows x' e ∧ x_ahead x' es;
  x_next_end x : x_ahead x [] →
    ∃ n, ∃ x', (∀ fuel, (n <= fuel)%nat → x_next fuel x = Some (Ok false, x')) ∧ x_state x' = EOD ∧ x_ahead x' [];
  x_accessors x : (x_state x ≠ START → x_name x = illegal_state (x_state x) START) ∧
    (x_state x ≠ TEXT → x_text x = illegal_state (x_state x) TEXT)
}.

(** A parser at an event with the rest of the document ahead. *)
Definition at_events {X} `{XmlSource X} (x : X) (es : list xevent) : Prop :=
  match es with
  | [] => x_state x = EOD ∧ x_ahead x []
  | e :: es => shows x e ∧ x_ahead x es
  end.

(** Element contents: sequences of texts and elements, each with its contents. *)
Inductive content : list xevent → Prop :=
| content_nil : content []
| content_text t es : content es → content (XText t :: es)
| content_element name attrs inner es : content inner → content es →
    content (XStart name attrs :: inner ++ XEnd :: es).

(** ** Lemmas *)

Section lemmas.
Context {X : Type} `{XmlSource X}.

(** A computation that, with enough fuel, returns and leaves the parser at [es]. *)
Definition leads {A} (m : nat → xm X A) (x : X) (a : A) (es : list xevent) : Prop :=
  ∃ n x', (∀ fuel, (n <= fuel)%nat → m fuel x = Some (Ok a, x')) ∧ at_events x' es.

Definition has_next (es : list xevent) : bool := match es with [] => false | _ => true end.
Lemma leads_next x es : x_ahead x es → leads x_next x (has_next es) es.
Proof.
  destruct es as [|e es]; intros Hx.
  - destruct (x_next_end x Hx) as (n & x' & Hn & Hs). by exists n, x'.
  - destruct (x_next_event x e es Hx) as (n & x' & Hn & Hs). by exists n, x'.
Qed.
Lemma at_ahead x e es : at_events x (e :: es) → x_ahead x es.
Proof. by intros [_ Hx]. Qed.
Lemma at_state x es : at_events x es → x_state x = match es with [] => EOD | e :: _ => event_state e end.
Proof. destruct es; simpl; [by intros []|by intros [[]]]. Qed.
Lemma leads_bind {A B} (m : nat → xm X A) (f : A → nat → xm X B) x a es b es' :
  leads m x a es → (∀ x', at_events x' es → leads (f a) x' b es') →
  leads (λ fuel, m fuel ≫= λ a, f a fuel) x b es'.
Proof.
  intros (n & x' & Hm & Hx') Hf. destruct (Hf x' Hx') as (k & x'' & Hk & Hx''). exists (n `max` k)%nat, x''.
  split; [|done]. intros fuel Hfuel. unfold mbind, fsx_bind. rewrite Hm by lia. apply Hk. lia.
Qed.
Lemma leads_ret {A} x es (a : A) : at_events x es → leads (λ _, mret a) x a es.
Proof. intros Hx. by exists O, x. Qed.
(** The same one unit of fuel later. *)
Lemma leads_S {A} (m m' : nat → xm X A) x a es :
  (∀ fuel, m (S fuel) x = m' fuel x) → leads m' x a es → leads m x a es.
Proof.
  intros E (n & x' & Hm & Hx'). exists (S n), x'. split; [|done]. intros [|fuel] Hf; [lia|].
  rewrite E. apply Hm. lia.
Qed.

Lemma leads_text_loop ts : ∀ x es result, at_events x ((XText <$> ts) ++ es) →
  (∀ t es', es ≠ XText t :: es') →
  leads (λ fuel, text_and_next_loop fuel result) x (result ++ concat ts) es.
Proof.
  induction ts as [|t ts IH]; intros x es result Hx Hes.
  - rewrite app_nil_r. cbn [fmap list_fmap app] in Hx.
    apply (leads_S _ (λ _, mret result)); [|by apply leads_ret].
    intros fuel. cbn [text_and_next_loop]. unfold mbind, fsx_bind, xm_state. rewrite (at_state _ _ Hx).
    rewrite bool_decide_eq_false_2; [done|]. destruct es as [|[] es]; try done. by destruct (Hes text es).
  - rewrite fmap_cons in Hx. cbn [app] in Hx. pose proof Hx as Hx2. destruct Hx as [[Hs [Ht _]] Ha].
    apply (leads_S _ (λ fuel, x_next fuel ≫= λ _, text_and_next_loop fuel (result ++ t))).
    { intros fuel. cbn [text_and_next_loop]. unfold mbind, fsx_bind, xm_state, xm_get. rewrite Hs.
      rewrite bool_decide_eq_true_2, Ht by done. done. }
    apply (leads_bind x_next (λ _ fuel, text_and_next_loop fuel (result ++ t)) x _ _ _ _ (leads_next _ _ Ha)).
    intros x' Hx'. cbn [concat]. rewrite app_assoc. by apply IH.
Qed.
Lemma leads_text_and_next t ts x es : at_events x (XText t :: (XText <$> ts) ++ es) →
  (∀ t es', es ≠ XText t :: es') → leads text_and_next x (t ++ concat ts) es.
Proof.
  intros [[Hs [Ht _]] Ha] Hes.
  assert (leads (λ fuel, x_next fuel ≫= λ _, text_and_next_loop fuel t) x (t ++ concat ts) es) as (n & x' & Hn & Hx').
  { apply (leads_bind x_next (λ _ fuel, text_and_next_loop fuel t) x _ _ _ _ (leads_next _ _ Ha)).
    intros x' Hx'. by apply leads_text_loop. }
  exists n, x'. split; [|done]. intros fuel Hf. unfold text_and_next. unfold mbind at 1, fsx_bind at 1, xm_get.
  rewrite Ht. by apply Hn.
Qed.

(** One round of the loop in [skip]. *)
Lemma leads_skip_step nested nested' e es x out : 0 < nested →
  nested' = match event_state e with START => u32 (nested + 1) | END => nested - 1 | _ => nested end →
  at_events x (e :: es) →
  (∀ x', at_events x' es → leads (λ fuel, skip_nested fuel nested') x' tt out) →
  leads (λ fuel, skip_nested fuel nested) x tt out.
Proof.
  intros Hn -> [[Hs He] Ha] Hcont.
  apply (leads_S _ (λ fuel, x_next fuel ≫= λ _, skip_nested fuel
    match event_state e with START => u32 (nested + 1) | END => nested - 1 | _ => nested end)).
  - intros fuel. cbn [skip_nested]. rewrite (proj2 (Z.eqb_neq nested 0)) by lia.
    unfold mbind at 1, fsx_bind at 1, xm_state. rewrite Hs. by destruct e.
  - apply (leads_bind x_next (λ _ fuel, skip_nested fuel _) x _ _ _ _ (leads_next _ _ Ha)). exact Hcont.
Qed.

(** Skipping balanced contents brings the nesting level back. *)
Lemma leads_skip_content inner : content inner → ∀ nested rest out x,
  0 < nested → nested + zlen inner < 2 ^ 32 →
  (∀ x', at_events x' rest → leads (λ fuel, skip_nested fuel nested) x' tt out) →
  at_events x (inner ++ rest) → leads (λ fuel, skip_nested fuel nested) x tt out.
Proof.
  induction 1 as [|t es _ IH|name attrs inner es _ IH1 _ IH2]; intros nested rest out x Hn Hmax Hcont Hx.
  - by apply Hcont.
  - rewrite zlen_cons in Hmax. apply (leads_skip_step nested nested (XText t) (es ++ rest) x out Hn eq_refl Hx).
    intros x' Hx'. apply (IH nested rest out x'); [lia..|done|done].
  - rewrite zlen_cons, zlen_app, zlen_cons in Hmax. pose proof (zlen_nonneg inner). pose proof (zlen_nonneg es).
    assert (u32 (nested + 1) = nested + 1) as Hu by (apply Z.mod_small; lia).
    rewrite <- app_comm_cons, <- app_assoc in Hx.
    apply (leads_skip_step nested (u32 (nested + 1)) (XStart name attrs) (inner ++ XEnd :: es ++ rest) x out Hn eq_refl Hx). rewrite Hu.
    intros x1 Hx1. apply (IH1 (nested + 1) (XEnd :: es ++ rest) out x1); [lia..| |done].
    intros x2 Hx2. apply (leads_skip_step (nested + 1) nested XEnd (es ++ rest)); [lia|simpl; lia|done|].
    intros x3 Hx3. apply (IH2 nested rest out x3); [lia..|done|done].
Qed.
Lemma leads_skip_done x es : at_events x es → leads (λ fuel, skip_nested fuel 0) x tt es.
Proof. intros Hx. apply (leads_S _ (λ _, mret tt)); [done|]. by apply leads_ret. Qed.

(** [skip] at a start tag. *)
Lemma leads_skip_element name attrs inner x es : content inner → 1 + zlen inner < 2 ^ 32 →
  at_events x (XStart name attrs :: inner ++ XEnd :: es) → leads skip x tt es.
Proof.
  intros Hc Hmax Hx. pose proof Hx as [[Hs _] Ha].
  assert (leads (λ fuel, x_next fuel ≫= λ _, skip_nested fuel 1) x tt es) as (n & x' & Hn & Hx').
  { apply (leads_bind x_next (λ _ fuel, skip_nested fuel 1) x _ _ _ _ (leads_next _ _ Ha)).
    intros x1 Hx1. apply (leads_skip_content inner Hc 1 (XEnd :: es) es x1); [lia..| |done].
    intros x2 Hx2. apply (leads_skip_step 1 0 XEnd es x2 es); [lia|done|done|]. intros x3. apply leads_skip_done. }
  exists n, x'. split; [|done]. intros fuel Hf. unfold skip. unfold mbind at 1, fsx_bind at 1, xm_state.
  rewrite Hs. by apply Hn.
Qed.

(** [skip] at a text. *)
Fixpoint drop_texts (es : list xevent) : list xevent :=
  match es with XText _ :: es => drop_texts es | _ => es end.
Lemma leads_skip_text t es : ∀ x, at_events x (XText t :: es) → leads skip_text x tt (drop_texts es).
Proof.
  revert t. induction es as [|e es IH]; intros t x Hx; pose proof Hx as [[Hs _] Ha];
    (apply (leads_S _ (λ fuel, x_next fuel ≫= λ _, st ← xm_state;
       if bool_decide (st = TEXT) then skip_text fuel else mret tt)); [done|]);
    apply (leads_bind x_next (λ _ fuel, st ← xm_state;
       if bool_decide (st = TEXT) then skip_text fuel else mret tt) x _ _ _ _ (leads_next _ _ Ha)); intros x' Hx'.
  - exists O, x'. split; [|done]. intros fuel _. unfold mbind, fsx_bind, xm_state.
    by rewrite (at_state _ _ Hx'), bool_decide_eq_false_2.
  - destruct (decide (event_state e = TEXT)) as [E|E].
    + destruct e as [| |u]; try done. destruct (IH u x' Hx') as (n & x'' & Hn & Hx''). exists n, x''.
      split; [|done]. intros fuel Hf. unfold mbind, fsx_bind, xm_state.
      rewrite (at_state _ _ Hx'), bool_decide_eq_true_2 by done. by apply Hn.
    + assert (drop_texts (e :: es) = e :: es) as -> by by destruct e.
      exists O, x'. split; [|done]. intros fuel _. unfold mbind, fsx_bind, xm_state.
      by rewrite (at_state _ _ Hx'), bool_decide_eq_false_2.
Qed.
Lemma leads_skip_at_text t es x : at_events x (XText t :: es) → leads skip x tt (drop_texts es).
Proof.
  intros Hx. pose proof Hx as [[Hs _] _]. destruct (leads_skip_text t es x Hx) as (n & x' & Hn & Hx').
  exists n, x'. split; [|done]. intros fuel Hf. unfold skip. unfold mbind, fsx_bind, xm_state. rewrite Hs. by apply Hn.
Qed.
Lemma drop_texts_content inner : content inner → content (drop_texts inner) ∧ zlen (drop_texts inner) <= zlen inner.
Proof.
  induction 1 as [|t es _ [IH1 IH2]|name attrs inner es Hi _ He _]; [by repeat constructor| |by split; [by constructor|]].
  cbn [drop_texts]. rewrite zlen_cons. split; [done|lia].
Qed.
Lemma drop_texts_app es rest : drop_texts (es ++ XEnd :: rest) = drop_texts es ++ XEnd :: rest.
Proof. induction es as [|[] es IH]; try done. Qed.

(** The loop of [unnest] over contents. *)
Lemma leads_unnest_loop n : ∀ inner x es, (length inner <= n)%nat → content inner → 1 + zlen inner < 2 ^ 32 →
  at_events x (inner ++ XEnd :: es) → leads unnest_loop x tt es.
Proof.
  assert (∀ x e es', at_events x (e :: es') → event_state e ≠ END → ∀ mid out, leads skip x tt mid →
    (∀ x', at_events x' mid → leads unnest_loop x' tt out) → leads unnest_loop x tt out) as Hround.
  { intros x e es' Hx He mid out Hskip Hcont. apply (leads_S _ (λ fuel, skip fuel ≫= λ _, unnest_loop fuel)).
    - intros fuel. cbn [unnest_loop]. unfold mbind at 1, fsx_bind at 1, xm_state.
      by rewrite (at_state _ _ Hx), bool_decide_eq_false_2.
    - by apply (leads_bind skip (λ _ fuel, unnest_loop fuel) x _ _ _ _ Hskip). }
  induction n as [|n IH]; intros inner x es Hlen Hc Hmax Hx; destruct Hc as [|t inner Hc|name attrs inner inner2 Hc1 Hc2].
  1,4: apply (leads_S _ (λ fuel, x_next fuel ≫= λ _, mret tt));
    [intros fuel; cbn [unnest_loop]; unfold mbind at 1, fsx_bind at 1, xm_state; rewrite (at_state _ _ Hx);
     by rewrite bool_decide_eq_true_2|];
    apply (leads_bind x_next (λ _ _, mret tt) x _ _ _ _ (leads_next _ _ (at_ahead _ _ _ Hx)));
    intros x' Hx'; by apply leads_ret.
  1,2: simpl in Hlen; lia.
  - destruct (drop_texts_content inner Hc) as [Hd Hl]. rewrite zlen_cons in Hmax.
    apply (Hround x (XText t) _ Hx ltac:(done) (drop_texts inner ++ XEnd :: es) es).
    + rewrite <- drop_texts_app. by apply (leads_skip_at_text t).
    + intros x' Hx'. apply (IH (drop_texts inner) x' es); [|done|lia|done]. unfold zlen in *. simpl in Hlen. lia.
  - rewrite zlen_cons, zlen_app, zlen_cons in Hmax. pose proof (zlen_nonneg inner). pose proof (zlen_nonneg inner2).
    rewrite <- app_comm_cons, <- app_assoc in Hx.
    apply (Hround x (XStart name attrs) _ Hx ltac:(done) (inner2 ++ XEnd :: es) es).
    + apply (leads_skip_element name attrs inner); [done|lia|done].
    + intros x' Hx'. apply (IH inner2 x' es); [|done|lia|done]. simpl in Hlen. rewrite length_app in Hlen. simpl in Hlen. lia.
Qed.

Lemma drop_texts_run ts es : (∀ u es', es ≠ XText u :: es') → drop_texts ((XText <$> ts) ++ es) = es.
Proof.
  intros Hes. induction ts as [|u ts IH]; [|done]. destruct es as [|[| |u] es]; try done. by destruct (Hes u es).
Qed.
Lemma leads_skip_run t ts es x : at_events x (XText t :: (XText <$> ts) ++ es) → (∀ u es', es ≠ XText u :: es') →
  leads skip x tt es.
Proof. intros Hx Hes. rewrite <- (drop_texts_run ts es Hes). by apply leads_skip_at_text with t. Qed.
Lemma leads_unnest inner x es : content inner → 1 + zlen inner < 2 ^ 32 → at_events x (inner ++ XEnd :: es) →
  leads unnest x tt es.
Proof.
  intros Hc Hmax Hx. destruct (leads_unnest_loop (length inner) inner x es (le_n _) Hc Hmax Hx) as (n & x' & Hn & Hx').
  exists n, x'. split; [|done]. intros fuel Hf. unfold unnest. unfold mbind, fsx_bind, xm_state.
  rewrite (at_state _ _ Hx), bool_decide_eq_false_2; [by apply Hn|]. by destruct inner as [|[] inner].
Qed.
End lemmas.

(** ** Clients with state of their own *)

(** [m] returns, with enough fuel, and [Q] holds of the outcome and the state. *)
Definition xwp {X A} (m : nat → xm X A) (x : X) (Q : res A → X → Prop) : Prop :=
  ∃ n r x', (∀ fuel, (n <= fuel)%nat → m fuel x = Some (r, x')) ∧ Q r x'.

(** A parser with the fields of the client; [xlift] runs the parser. *)
Definition xlift {X R A} (m : xm X A) : xm (X * R) A := λ s,
  match m s.1 with Some (r, x) => Some (r, (x, s.2)) | None => None end.
Definition xput {X R} (f : R → R) : xm (X * R) unit := λ s, Some (Ok tt, (s.1, f s.2)).
Definition xfield {X R A} (f : R → res A) : xm (X * R) A := λ s, Some (f s.2, s).

Section xwp.
Context {X A B : Type}.
Implicit Types (m : nat → xm X A) (x : X).

Lemma xwp_det m x r x' (Q : res A → X → Prop) : (∀ fuel, m fuel x = Some (r, x')) → Q r x' → xwp m x Q.
Proof. intros Hm HQ. exists O, r, x'. by split; [intros|]. Qed.
Lemma xwp_mono m x (Q Q' : res A → X → Prop) : xwp m x Q → (∀ r x', Q r x' → Q' r x') → xwp m x Q'.
Proof. intros (n & r & x' & Hm & HQ) H. exists n, r, x'. auto. Qed.
Lemma xwp_bind m (f : A → nat → xm X B) x (Q : res B → X → Prop) :
  xwp m x (λ r x', match r with Ok a => xwp (f a) x' Q | Throw e => Q (Throw e) x' end) →
  xwp (λ fuel, m fuel ≫= λ a, f a fuel) x Q.
Proof.
  intros (n & [a|e] & x' & Hm & HQ).
  - destruct HQ as (k & r & x'' & Hk & HQ). exists (n `max` k)%nat, r, x''. split; [|done].
    intros fuel Hf. unfold mbind, fsx_bind. rewrite Hm by lia. apply Hk. lia.
  - exists n, (Throw e), x'. split; [|done]. intros fuel Hf. unfold mbind, fsx_bind. by rewrite Hm.
Qed.
Lemma xwp_S m (m' : nat → xm X A) x (Q : res A → X → Prop) :
  (∀ fuel, m (S fuel) x = m' fuel x) → xwp m' x Q → xwp m x Q.
Proof.
  intros E (n & r & x' & Hm & HQ). exists (S n), r, x'. split; [|done]. intros [|fuel] Hf; [lia|].
  rewrite E. apply Hm. lia.
Qed.
Lemma xwp_ext m (m' : nat → xm X A) x (Q : res A → X → Prop) :
  (∀ fuel, m fuel x = m' fuel x) → xwp m' x Q → xwp m x Q.
Proof. intros E (n & r & x' & Hm & HQ). exists n, r, x'. split; [|done]. intros fuel Hf. rewrite E. auto. Qed.
Lemma xwp_throw m x e (Q : res A → X → Prop) : (∀ fuel, m fuel x = Some (Throw e, x)) → Q (Throw e) x → xwp m x Q.
Proof. intros Hm HQ. exists O, (Throw e), x. by split; [intros|]. Qed.
End xwp.

(** The next operation on the parser, after which it is at [es]. *)
Lemma xwp_leads {X} `{XmlSource X} {R A B} (m : nat → xm X A) (f : A → nat → xm (X * R) B) x r a es Q :
  leads m x a es → (∀ x', at_events x' es → xwp (f a) (x', r) Q) →
  xwp (λ fuel, xlift (m fuel) ≫= λ a, f a fuel) (x, r) Q.
Proof.
  intros (n & x' & Hm & Hx') Hf. apply (xwp_bind (λ fuel, xlift (m fuel)) f).
  exists n, (Ok a), (x', r). split; [|by apply Hf]. intros fuel Hfuel. unfold xlift. cbn [fst snd]. by rewrite Hm.
Qed.
(** An accessor of the parser. *)
Lemma xwp_get {X R A B} `{XmlOps X} (g : X → res A) (f : A → nat → xm (X * R) B) x r a Q :
  g x = Ok a → xwp (f a) (x, r) Q → xwp (λ fuel, xlift (xm_get g) ≫= λ a, f a fuel) (x, r) Q.
Proof.
  intros Hg Hf. apply (xwp_bind (λ _, xlift (xm_get g)) f), (xwp_det _ _ (Ok a) (x, r)); [|done].
  intros _. unfold xlift, xm_get. cbn [fst snd]. by rewrite Hg.
Qed.
Lemma xwp_state {X R B} `{XmlOps X} (f : state_type → nat → xm (X * R) B) x r st Q :
  x_state x = st → xwp (f st) (x, r) Q → xwp (λ fuel, xlift xm_state ≫= λ st, f st fuel) (x, r) Q.
Proof.
  intros Hs Hf. apply (xwp_bind (λ _, xlift xm_state) f), (xwp_det _ _ (Ok st) (x, r)); [|done].
  intros _. unfold xlift, xm_state. cbn [fst snd]. by rewrite Hs.
Qed.
Lemma xwp_put {X R B} (g : R → R) (f : unit → nat → xm (X * R) B) (x : X) r Q :
  xwp (f tt) (x, g r) Q → xwp (λ fuel, xput g ≫= λ a, f a fuel) (x, r) Q.
Proof. intros Hf. by apply (xwp_bind (λ _, xput g) f), (xwp_det _ _ (Ok tt) (x, g r)). Qed.

(** ** Properties *)

(** Against the contract of pull parsers, the derived operations do what their
    documentation says, and they terminate: [text_and_next] returns the whole run
    of text and stops at the next tag; [skip] at a start tag consumes exactly the
    element with all its contents, however nested, and at a text the whole run of
    text; [unnest] consumes the rest of the enclosing element with its end tag. *)
Theorem xml_derived_operations {X : Type} `{XmlSource X} (x : X) :
  (∀ t ts es, at_events x (XText t :: (XText <$> ts) ++ es) → (∀ u es', es ≠ XText u :: es') →
     leads text_and_next x (t ++ concat ts) es) ∧
  (∀ name attrs inner es, content inner → 1 + zlen inner < 2 ^ 32 →
     at_events x (XStart name attrs :: inner ++ XEnd :: es) → leads skip x tt es) ∧
  (∀ t ts es, at_events x (XText t :: (XText <$> ts) ++ es) → (∀ u es', es ≠ XText u :: es') →
     leads skip x tt es) ∧
  (∀ inner es, content inner → 1 + zlen inner < 2 ^ 32 →
     at_events x (inner ++ XEnd :: es) → leads unnest x tt es).
Proof.
  split_and!.
  - intros. by apply leads_text_and_next.
  - intros. by eapply leads_skip_element.
  - intros. by eapply leads_skip_run.
  - intros inner es. apply leads_unnest.
Qed.

(** A parser over a list of events: the simplest implementation of the contract. *)
Record event_list := EventList { el_current : option xevent; el_started : bool; el_rest : list xevent }.
#[export] Instance event_list_ops : XmlOps event_list := {|
  x_next fuel x :=
    match el_rest x with
    | e :: es => Some (Ok true, EventList (Some e) true es)
    | [] => Some (Ok false, EventList None true [])
    end;
  x_state x := match el_current x with Some e => event_state e | None => if el_started x then EOD else INIT end;
  x_name x := match el_current x with
    | Some (XStart name _) => Ok name
    | Some e => illegal_state (event_state e) START
    | None => illegal_state (if el_started x then EOD else INIT) START end;
  x_name_ptr x := match el_current x with Some (XStart name _) => Ok name | _ => illegal_state INIT START end;
  x_attribute key x := match el_current x with
    | Some (XStart _ attrs) => Ok (attribute_value key attrs) | _ => illegal_state INIT START end;
  x_attributes x := match el_current x with
    | Some (XStart _ attrs) => Ok (attribute_map attrs) | _ => illegal_state INIT START end;
  x_text x := match el_current x with
    | Some (XText t) => Ok t
    | Some e => illegal_state (event_state e) TEXT
    | None => illegal_state (if el_started x then EOD else INIT) TEXT end;
  x_text_ptr x := match el_current x with Some (XText t) => Ok t | _ => illegal_state INIT TEXT end
|}.
#[export] Program Instance event_list_source : XmlSource event_list := {| x_ahead x es := el_rest x = es |}.
Next Obligation.
  intros x e es Hx. exists O, (EventList (Some e) true es). cbn. split_and!; [intros _ _; by rewrite Hx| |done].
  split; [done|]. by destruct e.
Qed.
Next Obligation. intros x Hx. exists O, (EventList None true []). cbn. split_and!; [intros _ _; by rewrite Hx|done..]. Qed.
Next Obligation. intros [[[]|] [] ?]; split; intros ?; done. Qed.

Lemma xml_derived_operations_witness :
  let x := EventList (Some (XText (str "a"))) true [XText (str "b"); XEnd] in
  leads text_and_next x (str "ab") [XEnd] ∧ leads unnest x tt [].
Proof.
  intros x. destruct (xml_derived_operations x) as (Htext & _ & _ & Hunnest). split.
  - refine (Htext (str "a") [str "b"] [XEnd] _ _); [repeat split|discriminate].
  - refine (Hunnest [XText (str "a"); XText (str "b")] [] _ _ _); [repeat constructor|done|repeat split].
Defined.
