(* ===== verification/Expat.v ===== *)
(** * The XML pull parser on top of Expat (lib/cxxll/expat_source.cpp)

    Expat calls back for every start tag, end tag and piece of text; the class
    encodes the calls in a byte buffer and hands them out one by one.  Expat
    itself ([XML_Parse]) is a parameter; exhausted memory in a callback, which
    the C++ code remembers in [bad_alloc_], is not modelled, and [error_] is
    never set by the code.  The contract of Xml.v is proved at the end. *)

From S2P Require Import Prelude StringRef Binary SourceSink SortedMap Xml.

(** ** State *)

(** The tags of the encoding.
    Source: lib/cxxll/expat_source.cpp 41-59, ENC_START and the other tags. *)
Definition ENC_START : Z := 1.
Definition ENC_ATTRIBUTE : Z := 2.
Definition ENC_END : Z := 3.
Definition ENC_TEXT : Z := 4.
Definition ENC_EOD : Z := 5.

(** Source: lib/cxxll/expat_source.cpp 68-71, expat_source::impl::position. *)
Record position := Position { pos_line : Z; pos_column : Z }.

(** The calls Expat makes, with the position it is at. *)
Inductive callback :=
| EntityDecl
| StartElement (name : bytes) (attrs : list (bytes * bytes))
| EndElement
| CharacterData (s : bytes).

(** Whether the status is [XML_STATUS_OK], and what [XML_GetCurrentLineNumber],
    [XML_GetCurrentColumnNumber], [XML_GetCurrentByteIndex] and [XML_ErrorString] say
    after the call. *)
Record parse_status := ParseStatus { ps_ok : bool; ps_line : Z; ps_column : Z; ps_index : Z; ps_error : bytes }.
Definition status_ok (p : position) : parse_status := ParseStatus true (pos_line p) (pos_column p) 0 [].

(** The exception object: up to 50 bytes before and after the place, if it is in the
    piece [buf] that was read last.
    Source: lib/cxxll/expat_source.cpp 587-609, expat_source::malformed::malformed. *)
Definition malformed_report (st : parse_status) (consumed : Z) (buf : bytes) : res xml_report :=
  let index := u64 (ps_index st) in
  if consumed <=? index then
    let index := index - consumed in
    let before_count := Z.min index 50 in
    let after_count := Z.min (u64 (zlen buf - index)) 50 in
    before ← sr_substr (StringRef buf 0 (zlen buf)) (index - before_count) before_count;
    after ← sr_substr (StringRef buf 0 (zlen buf)) index after_count;
    Ok (XmlReport (ps_line st) (ps_column st) (ps_error st) (sr_str before) (sr_str after))
  else Ok (XmlReport (ps_line st) (ps_column st) (ps_error st) [] []).
(** Source: lib/cxxll/expat_source.cpp 618-633, expat_source::entity_declaration::entity_declaration. *)
Definition entity_declaration_report (st : parse_status) (consumed : Z) (buf : bytes) : res xml_report :=
  r ← malformed_report st consumed buf;
  Ok (XmlReport (xr_line r) (xr_column r) (str "unexpected XML entity") (xr_before r) (xr_after r)).

Section expat.
Context {S P : Type} `{SourceOps S} (host : byte_order).
(** [XML_Parse (handle, buf, len, isFinal)]: the callbacks it makes, the status, and
    the new state of the parser. *)
Context (XML_Parse : P → bytes → bool → list (callback * position) * parse_status * P).

(** Source: lib/cxxll/expat_source.cpp 61-80, expat_source::impl. *)
Record impl := Impl {
  source_ : S;
  handle_ : P;
  consumed_bytes_ : Z;
  upcoming_ : bytes;
  upcoming_pos_ : Z;
  position_ : position;
  elem_start_ : Z;
  elem_len_ : Z;
  attr_start_ : Z;
  state_ : state_type;
  bad_entity_ : bool
}.

(** Source: lib/cxxll/expat_source.cpp 134-144, expat_source::impl::impl. *)
Definition impl_new (src : S) (handle : P) : impl :=
  Impl src handle 0 [] 0 (Position 0 0) 0 0 0 INIT false.

(** Source: lib/cxxll/expat_source.cpp 146-150, expat_source::impl::remaining. *)
Definition has_remaining (x : impl) : bool := upcoming_pos_ x <? zlen (upcoming_ x).

(** Source: lib/cxxll/expat_source.cpp 152-156, expat_source::impl::tag. *)
Definition tag (x : impl) : res Z := vec_at (str "vector::_M_range_check") (upcoming_ x) (upcoming_pos_ x).

(** [strlen] of the text at an offset of the buffer. *)
Definition strlen_at (u : bytes) (pos : Z) : Z := zlen (until_nul (zdrop pos u)).

(** Source: lib/cxxll/expat_source.cpp 170-174, expat_source::impl::append_cstr. *)
Definition append_cstr (u s : bytes) : bytes := u ++ until_nul s ++ [0].

(** Source: lib/cxxll/expat_source.cpp 176-182, expat_source::impl::check_state. *)
Definition check_state (x : impl) (expected : state_type) : res unit :=
  if bool_decide (state_ x = expected) then Ok tt else illegal_state (state_ x) expected.

(** ** Callbacks *)

Definition position_bytes (p : position) : bytes :=
  memory_bytes host 4 (pos_line p) ++ memory_bytes host 4 (pos_column p).

(** Source: lib/cxxll/expat_source.cpp 220-228, expat_source::impl::push_position. *)
Definition push_position (u : bytes) (p : position) : bytes := u ++ position_bytes p.

(** Source: lib/cxxll/expat_source.cpp 268-274, expat_source::impl::StartElementHandler. *)
Fixpoint push_attributes (u : bytes) (attrs : list (bytes * bytes)) : bytes :=
  match attrs with
  | [] => u
  | (key, value) :: attrs =>
      push_attributes (append_cstr (append_cstr (u ++ [ENC_ATTRIBUTE]) key) value) attrs
  end.

(** Source: lib/cxxll/expat_source.cpp 258-279, expat_source::impl::StartElementHandler. *)
Definition StartElementHandler (u : bytes) (p : position) (name : bytes) (attrs : list (bytes * bytes)) : bytes :=
  push_attributes (append_cstr (push_position (u ++ [ENC_START]) p) name) attrs.

(** Source: lib/cxxll/expat_source.cpp 281-292, expat_source::impl::EndElementHandler. *)
Definition EndElementHandler (u : bytes) (p : position) : bytes := push_position (u ++ [ENC_END]) p.

(** Source: lib/cxxll/expat_source.cpp 294-310, expat_source::impl::CharacterDataHandler. *)
Definition CharacterDataHandler (u : bytes) (p : position) (s : bytes) : res bytes :=
  assert_ (negb (bool_decide (0 ∈ s)));;
  Ok (push_position (u ++ [ENC_TEXT]) p ++ s ++ [0]).

(** The callbacks of one call of [XML_Parse], in order: the buffer and the
    [bad_entity_] flag.
    Source: lib/cxxll/expat_source.cpp 245-310, expat_source::impl. *)
Fixpoint run_callbacks (cbs : list (callback * position)) (u : bytes) (bad : bool) : res (bytes * bool) :=
  match cbs with
  | [] => Ok (u, bad)
  | (EntityDecl, _) :: cbs => run_callbacks cbs u true
  | (StartElement name attrs, p) :: cbs => run_callbacks cbs (StartElementHandler u p name attrs) bad
  | (EndElement, p) :: cbs => run_callbacks cbs (EndElementHandler u p) bad
  | (CharacterData s, p) :: cbs =>
      u ← CharacterDataHandler u p s;
      run_callbacks cbs u bad
  end.

(** ** Reading *)

(** Source: lib/cxxll/expat_source.cpp 203-218, expat_source::impl::check_error. *)
Definition check_error (bad_entity : bool) (status : parse_status) (consumed : Z) (buf : bytes) : res unit :=
  if bad_entity then r ← entity_declaration_report status consumed buf; Throw (xml_entity_declaration r)
  else if negb (ps_ok status) then r ← malformed_report status consumed buf; Throw (xml_malformed r)
  else Ok tt.

(** The loop of [feed]; the buffer has been cleared.  [None] when the fuel, one
    unit for each read, is used up.
    Source: lib/cxxll/expat_source.cpp 190-200, expat_source::impl::feed. *)
Fixpoint feed_loop (fuel : nat) (x : impl) : option (res unit * impl) :=
  match fuel with
  | O => None
  | Datatypes.S fuel =>
      match source_read (source_ x) 4096 with
      | (Throw e, src) =>
          Some (Throw e, Impl src (handle_ x) (consumed_bytes_ x) (upcoming_ x) (upcoming_pos_ x) (position_ x)
            (elem_start_ x) (elem_len_ x) (attr_start_ x) (state_ x) (bad_entity_ x))
      | (Ok buf, src) =>
          let '(cbs, status, handle) := XML_Parse (handle_ x) buf (zlen buf =? 0) in
          match run_callbacks cbs (upcoming_ x) (bad_entity_ x) with
          | Throw e => Some (Throw e, x)
          | Ok (u, bad) =>
              let with_ u consumed := Impl src handle consumed u (upcoming_pos_ x) (position_ x)
                (elem_start_ x) (elem_len_ x) (attr_start_ x) (state_ x) bad in
              match check_error bad status (consumed_bytes_ x) buf with
              | Throw e => Some (Throw e, with_ u (consumed_bytes_ x))
              | Ok _ =>
                  let consumed := u64 (consumed_bytes_ x + zlen buf) in
                  let u := if zlen buf =? 0 then u ++ [ENC_EOD] else u in
                  let x := with_ u consumed in
                  match u with
                  | [] => feed_loop fuel x
                  | _ => Some (Ok tt, x)
                  end
              end
          end
      end
  end.

(** Source: lib/cxxll/expat_source.cpp 184-201, expat_source::impl::feed. *)
Definition feed (fuel : nat) (x : impl) : option (res unit * impl) :=
  if negb (upcoming_pos_ x =? zlen (upcoming_ x)) then Some (Throw assertion_failure, x)
  else feed_loop fuel (Impl (source_ x) (handle_ x) (consumed_bytes_ x) [] 0 (position_ x)
    (elem_start_ x) (elem_len_ x) (attr_start_ x) (state_ x) (bad_entity_ x)).

(** ** Decoding *)

(** The position read from the buffer and the offset behind it.
    Source: lib/cxxll/expat_source.cpp 230-240, expat_source::impl::pop_position. *)
Definition pop_position (u : bytes) (pos : Z) : res (position * Z) :=
  if zlen u - pos <? 8 then Throw abort_called
  else Ok (Position (host_value host (ztake 4 (zdrop pos u)))
                    (host_value host (ztake 4 (zdrop (pos + 4) u))), pos + 8).

(** The loop over the attributes after a start tag; each round skips at least
    two bytes, so the length of the buffer is enough fuel.
    Source: lib/cxxll/expat_source.cpp 344-348, expat_source::next. *)
Fixpoint skip_attributes (fuel : nat) (u : bytes) (pos : Z) : Z :=
  match fuel with
  | O => pos
  | Datatypes.S fuel =>
      match zget u pos with
      | Some c =>
          if c =? ENC_ATTRIBUTE then
            let pos := pos + (strlen_at u pos + 1) in
            let pos := pos + (strlen_at u pos + 1) in
            skip_attributes fuel u pos
          else pos
      | None => pos
      end
  end.

(** The object with the fields that [next] assigns. *)
Definition decoded (x : impl) (pos : Z) (p : position) (es el ast : Z) (st : state_type) : impl :=
  Impl (source_ x) (handle_ x) (consumed_bytes_ x) (upcoming_ x) pos p es el ast st (bad_entity_ x).

(** Source: lib/cxxll/expat_source.cpp 334-371, expat_source::next. *)
Definition decode (x : impl) : res bool * impl :=
  let u := upcoming_ x in
  match tag x with
  | Throw e => (Throw e, x)
  | Ok t =>
      let pos := upcoming_pos_ x + 1 in
      if t =? ENC_EOD then
        (Ok false, decoded x pos (position_ x) (elem_start_ x) (elem_len_ x) (attr_start_ x) EOD)
      else if negb ((t =? ENC_START) || (t =? ENC_TEXT) || (t =? ENC_END)) then (Throw assertion_failure, x)
      else
        match pop_position u pos with
        | Throw e => (Throw e, decoded x pos (position_ x) (elem_start_ x) (elem_len_ x) (attr_start_ x) (state_ x))
        | Ok (p, pos) =>
            if t =? ENC_START then
              let len := strlen_at u pos in
              let attrs := pos + (len + 1) in
              (Ok true, decoded x (skip_attributes (length u) u attrs) p pos len attrs START)
            else if t =? ENC_TEXT then
              let len := strlen_at u pos in
              (Ok true, decoded x (pos + (len + 1)) p pos len (attr_start_ x) TEXT)
            else (Ok true, decoded x pos p (elem_start_ x) (elem_len_ x) (attr_start_ x) END)
        end
  end.

(** Source: lib/cxxll/expat_source.cpp 324-372, expat_source::next. *)
Definition next (fuel : nat) (x : impl) : option (res bool * impl) :=
  if bool_decide (state_ x = EOD) then Some (Ok false, x)
  else if has_remaining x then Some (decode x)
  else
    match feed fuel x with
    | None => None
    | Some (Throw e, x) => Some (Throw e, x)
    | Some (Ok _, x) => Some (decode x)
    end.

(** ** Accessors *)

(** Source: lib/cxxll/expat_source.cpp 374-378, expat_source::state. *)
Definition state (x : impl) : state_type := state_ x.
(** Source: lib/cxxll/expat_source.cpp 380-384, expat_source::line. *)
Definition line (x : impl) : Z := pos_line (position_ x).
(** Both branches of the code add one.
    Source: lib/cxxll/expat_source.cpp 386-396, expat_source::column. *)
Definition column (x : impl) : Z :=
  let column := pos_column (position_ x) in
  if bool_decide (state_ x = END) && (0 <? column) then u32 (column + 1) else u32 (column + 1).

(** Source: lib/cxxll/expat_source.cpp 398-404, expat_source::name. *)
Definition name (x : impl) : res bytes :=
  check_state x START;; Ok (ztake (elem_len_ x) (zdrop (elem_start_ x) (upcoming_ x))).

(** Source: lib/cxxll/expat_source.cpp 406-411, expat_source::name_ptr. *)
Definition name_ptr (x : impl) : res bytes :=
  check_state x START;; Ok (zdrop (elem_start_ x) (upcoming_ x)).

(** Source: lib/cxxll/expat_source.cpp 458-464, expat_source::text. *)
Definition text (x : impl) : res bytes :=
  check_state x TEXT;; Ok (ztake (elem_len_ x) (zdrop (elem_start_ x) (upcoming_ x))).

(** Source: lib/cxxll/expat_source.cpp 466-471, expat_source::text_ptr. *)
Definition text_ptr (x : impl) : res bytes :=
  check_state x TEXT;; Ok (zdrop (elem_start_ x) (upcoming_ x)).

(** [p] is the rest of the buffer from the pointer on.
    Source: lib/cxxll/expat_source.cpp 418-430, expat_source::attribute. *)
Fixpoint attribute_loop (fuel : nat) (key p : bytes) : bytes :=
  match fuel, p with
  | Datatypes.S fuel, c :: p =>
      if c =? ENC_ATTRIBUTE then
        let plen := zlen (until_nul p) in
        if (plen =? zlen key) && bool_decide (key = ztake plen p) then until_nul (zdrop (plen + 1) p)
        else
          let p := zdrop (plen + 1) p in
          attribute_loop fuel key (zdrop (zlen (until_nul p) + 1) p)
      else []
  | _, _ => []
  end.

(** Source: lib/cxxll/expat_source.cpp 413-431, expat_source::attribute. *)
Definition attribute (key : bytes) (x : impl) : res bytes :=
  check_state x START;; Ok (attribute_loop (length (upcoming_ x)) key (zdrop (attr_start_ x) (upcoming_ x))).

(** Source: lib/cxxll/expat_source.cpp 446-455, expat_source::attributes. *)
Fixpoint attributes_loop (fuel : nat) (p : bytes) (result : smap bytes) : smap bytes :=
  match fuel, p with
  | Datatypes.S fuel, c :: p =>
      if c =? ENC_ATTRIBUTE then
        let key := until_nul p in
        let p := zdrop (zlen key + 1) p in
        let value := until_nul p in
        attributes_loop fuel (zdrop (zlen value + 1) p) (sm_insert key value result)
      else result
  | _, _ => result
  end.

(** Source: lib/cxxll/expat_source.cpp 442-456, expat_source::attributes. *)
Definition attributes_into (x : impl) (result : smap bytes) : res (smap bytes) :=
  check_state x START;; Ok (attributes_loop (length (upcoming_ x)) (zdrop (attr_start_ x) (upcoming_ x)) result).

(** Source: lib/cxxll/expat_source.cpp 433-440, expat_source::attributes. *)
Definition attributes (x : impl) : res (smap bytes) :=
  check_state x START;; attributes_into x [].

#[export] Instance expat_ops : XmlOps impl := {|
  x_next := next; x_state := state; x_name := name; x_name_ptr x := until_nul <$> name_ptr x;
  x_attribute := attribute; x_attributes := attributes; x_text := text;
  x_text_ptr x := until_nul <$> text_ptr x
|}.

(** ** The encoding *)

Definition enc_attr (kv : bytes * bytes) : bytes := ENC_ATTRIBUTE :: kv.1 ++ 0 :: kv.2 ++ [0].
Definition enc_attrs (attrs : list (bytes * bytes)) : bytes := concat (enc_attr <$> attrs).
Definition enc_event (ev : xevent * position) : bytes :=
  match ev.1 with
  | XStart name attrs => ENC_START :: position_bytes ev.2 ++ name ++ 0 :: enc_attrs attrs
  | XEnd => ENC_END :: position_bytes ev.2
  | XText s => ENC_TEXT :: position_bytes ev.2 ++ s ++ [0]
  end.
Definition enc_events (evs : list (xevent * position)) : bytes := concat (enc_event <$> evs).

(** What a callback reports, and what Expat guarantees about it: no NULs. *)
Definition cb_event (cb : callback * position) : option (xevent * position) :=
  match cb with
  | (EntityDecl, _) => None
  | (StartElement name attrs, p) => Some (XStart name attrs, p)
  | (EndElement, p) => Some (XEnd, p)
  | (CharacterData s, p) => Some (XText s, p)
  end.
Definition clean_event (e : xevent) : Prop :=
  match e with
  | XStart name attrs => 0 ∉ name ∧ Forall (λ kv, 0 ∉ kv.1 ∧ 0 ∉ kv.2) attrs
  | XEnd => True
  | XText s => 0 ∉ s
  end.
Definition cbs_report (cbs : list (callback * position)) (evs : list (xevent * position)) : Prop :=
  mapM cb_event cbs = Some evs ∧ Forall (λ ev, clean_event ev.1) evs.

(** The events Expat will report for the rest of the source, read after read. *)
Inductive drains : S → P → list xevent → Prop :=
| drains_end src src' h h' cbs st evs :
    source_read src 4096 = (Ok [], src') → XML_Parse h [] true = (cbs, st, h') → ps_ok st = true → cbs_report cbs evs →
    drains src h (fst <$> evs)
| drains_more src src' h h' buf cbs st evs es :
    source_read src 4096 = (Ok buf, src') → buf ≠ [] → XML_Parse h buf false = (cbs, st, h') → ps_ok st = true →
    cbs_report cbs evs → drains src' h' es → drains src h ((fst <$> evs) ++ es).

(** The events in front of [next]: those in the buffer and those to be drained. *)
Definition expat_ahead (x : impl) (es : list xevent) : Prop :=
  bad_entity_ x = false ∧
  (state_ x = EOD ∧ es = [] ∨
   state_ x ≠ EOD ∧ ∃ evs rest (eof : bool),
     Forall (λ ev, clean_event ev.1) evs ∧
     at_offset (upcoming_ x) (upcoming_pos_ x) (enc_events evs ++ if eof then [ENC_EOD] else []) ∧
     es = (fst <$> evs) ++ rest ∧ if eof then rest = [] else drains (source_ x) (handle_ x) rest).

(** ** Lemmas *)

Lemma until_nul_str s k : 0 ∉ s → until_nul (s ++ 0 :: k) = s.
Proof. intros Hs. apply until_nul_app_nul, Forall_forall. intros c Hc ->. done. Qed.
Lemma until_nul_clean s : 0 ∉ s → until_nul s = s.
Proof. intros Hs. apply until_nul_nonul, Forall_forall. intros c Hc ->. done. Qed.
Lemma at_offset_drop u pos k : at_offset u pos k → zdrop pos u = k.
Proof. intros (l & -> & ->). apply zdrop_app. Qed.
Lemma at_offset_get u pos c k : at_offset u pos (c :: k) → zget u pos = Some c.
Proof. intros (l & -> & ->). apply zget_app_mid. Qed.
Lemma at_offset_len u pos k : at_offset u pos k → zlen u = pos + zlen k.
Proof. intros (l & -> & ->). apply zlen_app. Qed.
Lemma at_offset_to u pos pos' s k : at_offset u pos (s ++ k) → pos' = pos + zlen s → at_offset u pos' k.
Proof. intros Hx ->. by apply at_offset_app. Qed.
Lemma at_offset_str u pos s k : at_offset u pos (s ++ 0 :: k) → at_offset u (pos + (zlen s + 1)) k.
Proof.
  rewrite cons_middle, app_assoc. intros Hx%at_offset_app. rewrite zlen_app in Hx.
  by replace (zlen [0]) with 1 in Hx by done.
Qed.
Lemma strlen_at_str u pos s k : at_offset u pos (s ++ 0 :: k) → 0 ∉ s → strlen_at u pos = zlen s.
Proof. intros Hx Hs. unfold strlen_at. by rewrite (at_offset_drop _ _ _ Hx), until_nul_str. Qed.
Lemma position_bytes_len p : zlen (position_bytes p) = 8.
Proof. unfold position_bytes. by rewrite zlen_app, !memory_bytes_length. Qed.

(** Encoding: the handlers append the codes of the events. *)
Lemma push_attributes_enc attrs : ∀ u, Forall (λ kv, 0 ∉ kv.1 ∧ 0 ∉ kv.2) attrs →
  push_attributes u attrs = u ++ enc_attrs attrs.
Proof.
  induction attrs as [|[k v] attrs IH]; intros u Hc; [by rewrite app_nil_r|].
  apply Forall_cons in Hc as [[Hk Hv] Hc]. cbn [push_attributes]. rewrite IH by done.
  unfold append_cstr. cbn [fst snd] in *. rewrite !until_nul_clean by done.
  unfold enc_attrs. rewrite fmap_cons. cbn [concat]. unfold enc_attr. cbn [fst snd app].
  rewrite <- !app_assoc. cbn [app]. by rewrite <- !app_assoc.
Qed.
Lemma run_callbacks_enc cbs : ∀ evs u bad, cbs_report cbs evs →
  run_callbacks cbs u bad = Ok (u ++ enc_events evs, bad).
Proof.
  induction cbs as [|[cb p] cbs IH]; intros evs u bad [Hm Hc].
  { injection Hm as <-. by rewrite app_nil_r. }
  apply mapM_Some in Hm. inversion Hm as [|? ev ? evs' Hcb Hrest]; subst. apply mapM_Some in Hrest.
  apply Forall_cons in Hc as [Hev Hc]. destruct cb as [|name attrs| |s]; [done|..]; injection Hcb as <-;
    cbn [run_callbacks fst clean_event] in *; unfold enc_events; rewrite fmap_cons; cbn [concat];
    fold (enc_events evs').
  - rewrite (IH evs') by done. f_equal. f_equal. destruct Hev as [Hn Ha]. unfold StartElementHandler.
    rewrite push_attributes_enc by done. unfold append_cstr, push_position.
    rewrite until_nul_clean by done. unfold enc_event. cbn [fst snd].
    rewrite <- !app_assoc. cbn [app]. by rewrite <- !app_assoc.
  - rewrite (IH evs') by done. f_equal. f_equal. unfold EndElementHandler, push_position, enc_event. cbn [fst snd].
    by rewrite <- !app_assoc.
  - unfold CharacterDataHandler. rewrite bool_decide_eq_false_2 by done. cbn [negb assert_ mbind res_bind].
    rewrite (IH evs') by done. f_equal. f_equal. unfold push_position, enc_event. cbn [fst snd].
    rewrite <- !app_assoc. cbn [app]. by rewrite <- !app_assoc.
Qed.

(** Decoding the attributes. *)
Definition no_attr (k : bytes) : Prop := head k ≠ Some ENC_ATTRIBUTE.
Lemma enc_attrs_cons k v attrs rest :
  enc_attrs ((k, v) :: attrs) ++ rest = (ENC_ATTRIBUTE :: k) ++ 0 :: v ++ 0 :: enc_attrs attrs ++ rest.
Proof.
  unfold enc_attrs. rewrite fmap_cons. cbn [concat]. unfold enc_attr. cbn [fst snd app].
  rewrite <- !app_assoc. cbn [app]. by rewrite <- !app_assoc.
Qed.
Lemma enc_attrs_length attrs : (length attrs <= length (enc_attrs attrs))%nat.
Proof.
  induction attrs as [|[k v] attrs IH]; [done|]. rewrite <- (app_nil_r (enc_attrs _)), enc_attrs_cons, app_nil_r.
  cbn [app length]. rewrite !length_app. cbn [length]. rewrite !length_app. cbn [length]. lia.
Qed.
Lemma skip_attributes_enc attrs : ∀ fuel u pos k, Forall (λ kv, 0 ∉ kv.1 ∧ 0 ∉ kv.2) attrs →
  (length attrs < fuel)%nat → no_attr k → at_offset u pos (enc_attrs attrs ++ k) →
  skip_attributes fuel u pos = pos + zlen (enc_attrs attrs).
Proof.
  induction attrs as [|[key v] attrs IH]; intros fuel u pos k Hc Hf Hk Hx; destruct fuel as [|fuel]; try (simpl in Hf; lia);
    cbn [skip_attributes].
  - rewrite Z.add_0_r. cbn [enc_attrs app fmap list_fmap concat] in Hx. destruct k as [|c k].
    + assert (zget u pos = None) as ->; [|done]. destruct Hx as (l & -> & ->). rewrite app_nil_r.
      unfold zget. destruct (Z.ltb_spec (zlen l) 0); [done|]. rewrite to_nat_zlen. by apply lookup_ge_None_2.
    + rewrite (at_offset_get _ _ _ _ Hx). rewrite (proj2 (Z.eqb_neq c ENC_ATTRIBUTE)); [done|].
      intros ->. by apply Hk.
  - apply Forall_cons in Hc as [[Hkey Hv] Hc]. cbn [fst snd] in *. rewrite enc_attrs_cons in Hx.
    rewrite (at_offset_get _ _ _ _ Hx), Z.eqb_refl.
    assert (0 ∉ ENC_ATTRIBUTE :: key) as Hkey' by (apply not_elem_of_cons; done).
    rewrite (strlen_at_str _ _ _ _ Hx) by done. apply at_offset_str in Hx.
    rewrite (strlen_at_str _ _ _ _ Hx) by done. apply at_offset_str in Hx.
    rewrite (IH fuel u _ k Hc ltac:(simpl in Hf; lia) Hk Hx).
    rewrite <- (app_nil_r (enc_attrs ((key, v) :: attrs))), enc_attrs_cons, app_nil_r.
    rewrite zlen_app, !zlen_cons, zlen_app, zlen_cons. lia.
Qed.
Lemma attribute_loop_enc attrs : ∀ fuel key k, Forall (λ kv, 0 ∉ kv.1 ∧ 0 ∉ kv.2) attrs →
  (length attrs < fuel)%nat → no_attr k →
  attribute_loop fuel key (enc_attrs attrs ++ k) = attribute_value key attrs.
Proof.
  induction attrs as [|[key' v] attrs IH]; intros fuel key k Hc Hf Hk; destruct fuel as [|fuel]; try (simpl in Hf; lia).
  - cbn [enc_attrs app fmap list_fmap concat]. destruct k as [|c k]; [done|]. cbn [attribute_loop].
    rewrite (proj2 (Z.eqb_neq c ENC_ATTRIBUTE)); [done|]. intros ->. by apply Hk.
  - apply Forall_cons in Hc as [[Hkey Hv] Hc]. cbn [fst snd] in *. rewrite enc_attrs_cons. cbn [app attribute_loop].
    rewrite Z.eqb_refl, until_nul_str by done.
    replace (zdrop (zlen key' + 1) (key' ++ 0 :: v ++ 0 :: enc_attrs attrs ++ k))
      with (v ++ 0 :: enc_attrs attrs ++ k).
    2: { rewrite (cons_middle 0 key'), app_assoc. replace (zlen key' + 1) with (zlen (key' ++ [0])) by zl. by rewrite zdrop_app. }
    rewrite until_nul_str, ztake_app by done. unfold attribute_value. cbn [List.find fst].
    destruct (bool_decide_reflect (key' = key)) as [->|Hne].
    + by rewrite Z.eqb_refl, bool_decide_eq_true_2.
    + rewrite (bool_decide_eq_false_2 (key = key')), andb_false_r by congruence.
      replace (zdrop (zlen v + 1) (v ++ 0 :: enc_attrs attrs ++ k)) with (enc_attrs attrs ++ k).
      2: { rewrite (cons_middle 0 v), app_assoc. replace (zlen v + 1) with (zlen (v ++ [0])) by zl. by rewrite zdrop_app. }
      apply IH; [done|simpl in Hf; lia|done].
Qed.
Lemma attributes_loop_enc attrs : ∀ fuel result k, Forall (λ kv, 0 ∉ kv.1 ∧ 0 ∉ kv.2) attrs →
  (length attrs < fuel)%nat → no_attr k →
  attributes_loop fuel (enc_attrs attrs ++ k) result = foldl (λ m kv, sm_insert kv.1 kv.2 m) result attrs.
Proof.
  induction attrs as [|[key' v] attrs IH]; intros fuel result k Hc Hf Hk; destruct fuel as [|fuel]; try (simpl in Hf; lia).
  - cbn [enc_attrs app fmap list_fmap concat]. destruct k as [|c k]; [done|]. cbn [attributes_loop].
    rewrite (proj2 (Z.eqb_neq c ENC_ATTRIBUTE)); [done|]. intros ->. by apply Hk.
  - apply Forall_cons in Hc as [[Hkey Hv] Hc]. cbn [fst snd] in *. rewrite enc_attrs_cons. cbn [app attributes_loop].
    rewrite Z.eqb_refl, until_nul_str by done.
    replace (zdrop (zlen key' + 1) (key' ++ 0 :: v ++ 0 :: enc_attrs attrs ++ k))
      with (v ++ 0 :: enc_attrs attrs ++ k).
    2: { rewrite (cons_middle 0 key'), app_assoc. replace (zlen key' + 1) with (zlen (key' ++ [0])) by zl. by rewrite zdrop_app. }
    rewrite until_nul_str by done.
    replace (zdrop (zlen v + 1) (v ++ 0 :: enc_attrs attrs ++ k)) with (enc_attrs attrs ++ k).
    2: { rewrite (cons_middle 0 v), app_assoc. replace (zlen v + 1) with (zlen (v ++ [0])) by zl. by rewrite zdrop_app. }
    apply IH; [done|simpl in Hf; lia|done].
Qed.

(** Decoding one event. *)
Lemma pop_position_enc u pos p k : at_offset u pos (position_bytes p ++ k) →
  ∃ q, pop_position u pos = Ok (q, pos + 8) ∧ at_offset u (pos + 8) k ∧
    (0 <= pos_line p < 2 ^ 32 → 0 <= pos_column p < 2 ^ 32 → q = p).
Proof.
  intros Hx. pose proof (at_offset_len _ _ _ Hx) as Hl. rewrite zlen_app, position_bytes_len in Hl.
  pose proof (zlen_nonneg k). unfold pop_position.
  destruct (Z.ltb_spec (zlen u - pos) 8); [lia|]. eexists. split_and!; [done| |].
  - apply (at_offset_to _ _ _ _ _ Hx). by rewrite position_bytes_len.
  - intros Hl1 Hl2. unfold position_bytes in Hx. rewrite <- app_assoc in Hx.
    rewrite (at_offset_drop _ _ _ Hx). apply at_offset_app in Hx as Hx2. rewrite memory_bytes_length in Hx2.
    change (Z.of_nat 4) with 4 in Hx2. rewrite (at_offset_drop _ _ _ Hx2).
    rewrite <- (memory_bytes_length host 4 (pos_line p)) at 1. rewrite ztake_app.
    rewrite <- (memory_bytes_length host 4 (pos_column p)) at 1. rewrite ztake_app.
    rewrite !host_value_memory by done. by destruct p.
Qed.
Lemma length_attrs_lt u pos attrs k : at_offset u pos (enc_attrs attrs ++ k) → 0 < pos → (length attrs < length u)%nat.
Proof.
  intros Hx Hp. pose proof (at_offset_len _ _ _ Hx) as Hl. rewrite zlen_app in Hl.
  pose proof (enc_attrs_length attrs). pose proof (zlen_nonneg k). unfold zlen in *. lia.
Qed.
Lemma decode_enc x e p k : clean_event e → no_attr k →
  at_offset (upcoming_ x) (upcoming_pos_ x) (enc_event (e, p) ++ k) →
  ∃ x', decode x = (Ok true, x') ∧ shows x' e ∧ at_offset (upcoming_ x') (upcoming_pos_ x') k ∧
    source_ x' = source_ x ∧ handle_ x' = handle_ x ∧ bad_entity_ x' = bad_entity_ x ∧
    (0 <= pos_line p < 2 ^ 32 → 0 <= pos_column p < 2 ^ 32 → position_ x' = p).
Proof.
  intros He Hk Hx. pose proof (at_offset_nonneg _ _ _ Hx) as Hpos. unfold decode, tag, vec_at.
  destruct e as [nm attrs| |s]; unfold enc_event in Hx; cbn [fst snd app clean_event] in Hx, He;
    rewrite (at_offset_get _ _ _ _ Hx); apply (at_offset_app _ _ [_]) in Hx;
    change (zlen [_]) with 1 in Hx; rewrite <- ?app_assoc in Hx; cbn [app] in Hx;
    destruct (pop_position_enc _ _ _ _ Hx) as (q & Hq & Hx2 & Hqp); clear Hx.
  - change (ENC_START =? ENC_EOD) with false. cbn [orb negb Z.eqb]. rewrite Hq. change (ENC_START =? ENC_START) with true.
    cbv iota. destruct He as [Hn Ha]. pose proof (at_offset_drop _ _ _ Hx2) as Hd.
    rewrite (strlen_at_str _ _ _ _ Hx2) by done. apply at_offset_str in Hx2 as Hx3.
    pose proof (length_attrs_lt _ _ _ _ Hx3 ltac:(pose proof (zlen_nonneg nm); lia)) as Hlen.
    rewrite (skip_attributes_enc attrs _ _ _ k) by done. eexists. split_and!; [done| |by apply at_offset_app|done..|done].
    split; [done|]. unfold x_name, x_name_ptr, x_attribute, x_attributes. cbn [expat_ops].
    unfold name, name_ptr, attribute, attributes, attributes_into, check_state, decoded. cbn.
    rewrite Hd, (at_offset_drop _ _ _ Hx3), ztake_app. rewrite bool_decide_eq_true_2 by done.
    cbn [mbind res_bind fmap res_fmap]. rewrite until_nul_str by done. split_and!; [done..| |].
    + intros key. by rewrite attribute_loop_enc.
    + by rewrite attributes_loop_enc.
  - change (ENC_END =? ENC_EOD) with false. cbn [orb negb Z.eqb]. rewrite Hq. change (ENC_END =? ENC_START) with false.
    change (ENC_END =? ENC_TEXT) with false. cbv iota. by eexists.
  - change (ENC_TEXT =? ENC_EOD) with false. cbn [orb negb Z.eqb]. rewrite Hq. change (ENC_TEXT =? ENC_START) with false.
    change (ENC_TEXT =? ENC_TEXT) with true. cbv iota.
    pose proof (at_offset_drop _ _ _ Hx2) as Hd. rewrite (strlen_at_str _ _ _ _ Hx2) by done.
    apply at_offset_str in Hx2 as Hx3. eexists. split_and!; [done| |done..|done].
    split; [done|]. unfold x_text, x_text_ptr. cbn [expat_ops]. unfold text, text_ptr, check_state, decoded. cbn.
    rewrite Hd, ztake_app, bool_decide_eq_true_2 by done. cbn [mbind res_bind fmap res_fmap].
    by rewrite until_nul_str.
Qed.

(** Reading on until there is something to report. *)
Definition behind (eof : bool) : bytes := if eof then [ENC_EOD] else [].
Lemma enc_event_cons ev : ∃ t k, enc_event ev = t :: k ∧ t ≠ ENC_ATTRIBUTE.
Proof. destruct ev as [[] p]; by repeat eexists. Qed.
Lemma enc_events_no_attr evs eof : no_attr (enc_events evs ++ behind eof).
Proof.
  destruct evs as [|ev evs]; [by destruct eof|]. unfold enc_events. rewrite fmap_cons. cbn [concat].
  destruct (enc_event_cons ev) as (t & k & -> & Ht). unfold no_attr. cbn. congruence.
Qed.
Lemma enc_events_nil evs : enc_events evs = [] → evs = [].
Proof.
  destruct evs as [|ev evs]; [done|]. unfold enc_events. rewrite fmap_cons. cbn [concat].
  by destruct (enc_event_cons ev) as (t & k & -> & _).
Qed.
Lemma feed_drains src h es : drains src h es → ∀ x, source_ x = src → handle_ x = h → upcoming_ x = [] →
  bad_entity_ x = false →
  ∃ n x' evs rest eof, (∀ fuel, (n <= fuel)%nat → feed_loop fuel x = Some (Ok tt, x')) ∧
    es = (fst <$> evs) ++ rest ∧ Forall (λ ev, clean_event ev.1) evs ∧
    upcoming_ x' = enc_events evs ++ behind eof ∧ upcoming_ x' ≠ [] ∧
    (if eof then rest = [] else drains (source_ x') (handle_ x') rest) ∧
    bad_entity_ x' = false ∧ state_ x' = state_ x ∧ upcoming_pos_ x' = upcoming_pos_ x.
Proof.
  induction 1 as [src src' h h' cbs st evs Hr Hp Hok Hrep|src src' h h' buf cbs st evs es Hr Hb Hp Hok Hrep Hd IH];
    intros x Hsrc Hh Hu Hbad.
  - eexists 1%nat, _, evs, [], true. split.
    + intros [|fuel] Hf; [lia|]. cbn [feed_loop]. rewrite Hsrc, Hr, Hh, zlen_nil, Z.eqb_refl, Hp, Hu, Hbad.
      rewrite (run_callbacks_enc cbs evs) by done. unfold check_error. rewrite Hok. cbn [negb app].
      destruct (enc_events evs ++ [ENC_EOD]) eqn:E; [by apply app_nil in E as [_ ?]|]. rewrite <- E. reflexivity.
    + cbn. split_and!; try done; [by rewrite app_nil_r|apply Hrep|]. intros E. by apply app_nil in E as [_ ?].
  - assert (zlen buf =? 0 = false) as Hz by (apply Z.eqb_neq; intros ?%zlen_0_nil; done).
    set (x1 := Impl src' h' (u64 (consumed_bytes_ x + zlen buf)) (enc_events evs) (upcoming_pos_ x) (position_ x)
                (elem_start_ x) (elem_len_ x) (attr_start_ x) (state_ x) false).
    assert (∀ fuel, feed_loop (Datatypes.S fuel) x =
      match enc_events evs with [] => feed_loop fuel x1 | _ => Some (Ok tt, x1) end) as Estep.
    { intros fuel. cbn [feed_loop]. rewrite Hsrc, Hr, Hh, Hz, Hp, Hu, Hbad.
      rewrite (run_callbacks_enc cbs evs) by done. unfold check_error. rewrite Hok. cbn [negb app].
      by destruct (enc_events evs) eqn:E. }
    destruct (enc_events evs) as [|c u] eqn:E.
    + apply enc_events_nil in E as ->. destruct (IH x1) as (n & x' & evs' & rest & eof & Hn & Hrest); [done..|].
      exists (Datatypes.S n), x', evs', rest, eof. split; [|done].
      intros [|fuel] Hf; [lia|]. rewrite Estep. apply Hn. lia.
    + exists 1%nat, x1, evs, es, false. split; [intros [|fuel] Hf; [lia|apply Estep]|].
      rewrite app_nil_r. cbn. split_and!; try done. apply Hrep.
Qed.

Lemma at_offset_all u pos : at_offset u pos [] → pos = zlen u.
Proof. intros Hx. apply at_offset_len in Hx. rewrite zlen_nil in Hx. lia. Qed.

(** After [feed], the same events are ahead and the buffer is not exhausted. *)
Definition in_buffer (x : impl) (es : list xevent) : Prop :=
  bad_entity_ x = false ∧ state_ x ≠ EOD ∧ ∃ evs rest eof,
    Forall (λ ev, clean_event ev.1) evs ∧
    at_offset (upcoming_ x) (upcoming_pos_ x) (enc_events evs ++ behind eof) ∧ enc_events evs ++ behind eof ≠ [] ∧
    es = (fst <$> evs) ++ rest ∧ if eof then rest = [] else drains (source_ x) (handle_ x) rest.
Lemma next_buffered x es : expat_ahead x es → state_ x ≠ EOD →
  ∃ n x', (∀ fuel, (n <= fuel)%nat → next fuel x = Some (decode x')) ∧ in_buffer x' es.
Proof.
  intros [Hbad [[Hs ?]|(Hs & evs & rest & eof & Hc & Hx & -> & Hrest)]] Hst; [done|].
  unfold next. rewrite (bool_decide_eq_false_2 (state_ x = EOD)) by done. unfold has_remaining.
  pose proof (at_offset_len _ _ _ Hx) as Hl. fold (behind eof) in Hx, Hl.
  destruct (decide (enc_events evs ++ behind eof = [])) as [E|E].
  - rewrite E in Hx. rewrite E, zlen_nil in Hl. apply app_nil in E as [->%enc_events_nil E]. destruct eof; [done|].
    destruct (Z.ltb_spec (upcoming_pos_ x) (zlen (upcoming_ x))); [lia|].
    unfold feed. rewrite (proj2 (Z.eqb_eq _ _)) by lia. cbn [negb].
    edestruct (feed_drains _ _ _ Hrest) as (n & x' & evs' & rest' & eof' & Hn & -> & Hc' & Hu & Hne & Hd & Hb' & Hs' & Hp').
    5: { exists n, x'. split; [intros fuel Hf; by rewrite Hn|]. split_and!; [done|by rewrite Hs'|].
         exists evs', rest', eof'. rewrite <- Hu, Hp'. split_and!; try done. apply at_offset_start. }
    all: done.
  - pose proof (zlen_nonneg (enc_events evs ++ behind eof)).
    assert (0 ≠ zlen (enc_events evs ++ behind eof)) by (intros E'; by apply E, zlen_0_nil).
    destruct (Z.ltb_spec (upcoming_pos_ x) (zlen (upcoming_ x))); [|lia].
    exists O, x. split; [done|]. split_and!; [done..|]. by exists evs, rest, eof.
Qed.
Lemma decode_event x e es : in_buffer x (e :: es) →
  (∃ x', decode x = (Ok true, x') ∧ shows x' e ∧ expat_ahead x' es) .
Proof.
  intros (Hbad & Hs & evs & rest & eof & Hc & Hx & Hne & Hes & Hrest). destruct evs as [|[e' p] evs].
  - cbn in Hes. subst rest. destruct eof; done.
  - rewrite fmap_cons in Hes. cbn [fst app] in Hes. injection Hes as -> ->. apply Forall_cons in Hc as [He Hc].
    unfold enc_events in Hx. rewrite fmap_cons in Hx. cbn [concat] in Hx. fold (enc_events evs) in Hx.
    rewrite <- app_assoc in Hx.
    destruct (decode_enc x e' p _ He (enc_events_no_attr evs eof) Hx) as (x' & Hd & Hsh & Hx' & Hsrc & Hh & Hb & _).
    exists x'. split_and!; [done..|]. split; [congruence|]. right.
    split; [destruct Hsh as [Hst _]; unfold x_state in Hst; cbn in Hst; unfold state in Hst; rewrite Hst; by destruct e'|].
    exists evs, rest, eof. rewrite Hsrc, Hh. by split_and!.
Qed.
Lemma decode_eod x : in_buffer x [] → ∃ x', decode x = (Ok false, x') ∧ state_ x' = EOD ∧ expat_ahead x' [].
Proof.
  intros (Hbad & Hs & evs & rest & eof & Hc & Hx & Hne & Hes & Hrest).
  destruct evs; [|done]. cbn [fmap list_fmap app] in Hes. subst rest. destruct eof; [|by destruct Hne].
  cbn [enc_events fmap list_fmap concat app behind] in Hx. unfold decode, tag, vec_at.
  rewrite (at_offset_get _ _ _ _ Hx). change (ENC_EOD =? ENC_EOD) with true. cbv iota.
  eexists. split_and!; [done..|]. split; [done|]. by left.
Qed.

#[export] Program Instance expat_source : XmlSource impl := {| x_ahead := expat_ahead |}.
Next Obligation.
  intros x e es Hx. destruct (next_buffered x (e :: es) Hx) as (n & x1 & Hn & Hb).
  { by destruct Hx as [_ [[_ ?]|[? _]]]. }
  destruct (decode_event x1 e es Hb) as (x' & Hd & Hsh & Ha). exists n, x'. split_and!; [|done..].
  intros fuel Hf. unfold x_next. cbn [expat_ops]. rewrite Hn by done. by rewrite Hd.
Qed.
Next Obligation.
  intros x Hx. destruct (decide (state_ x = EOD)) as [E|E].
  - exists O, x. split_and!; [|done..]. intros fuel _. unfold x_next. cbn [expat_ops]. unfold next.
    by rewrite bool_decide_eq_true_2.
  - destruct (next_buffered x [] Hx E) as (n & x1 & Hn & Hb).
    destruct (decode_eod x1 Hb) as (x' & Hd & Hsh & Ha). exists n, x'. split_and!; [|done..].
    intros fuel Hf. unfold x_next. cbn [expat_ops]. rewrite Hn by done. by rewrite Hd.
Qed.
Next Obligation.
  intros x. unfold x_state, x_name, x_text. cbn [expat_ops]. unfold state, name, text, check_state.
  split; intros Hs; by rewrite bool_decide_eq_false_2.
Qed.


(** The first read fails, or Expat rejects what was read. *)
Lemma next_error x : state_ x ≠ EOD → upcoming_pos_ x = zlen (upcoming_ x) →
  (∀ e src', source_read (source_ x) 4096 = (Throw e, src') →
    ∀ fuel, ∃ x', next (Datatypes.S fuel) x = Some (Throw e, x')) ∧
  (∀ buf src' cbs st h' u bad, source_read (source_ x) 4096 = (Ok buf, src') →
    XML_Parse (handle_ x) buf (zlen buf =? 0) = (cbs, st, h') →
    run_callbacks cbs [] (bad_entity_ x) = Ok (u, bad) → bad || negb (ps_ok st) = true →
    ∀ fuel, ∃ x', next (Datatypes.S fuel) x =
      Some (if bad then r ← entity_declaration_report st (consumed_bytes_ x) buf; Throw (xml_entity_declaration r)
            else r ← malformed_report st (consumed_bytes_ x) buf; Throw (xml_malformed r), x')).
Proof.
  intros Hs Hpos. unfold next. rewrite bool_decide_eq_false_2 by done. unfold has_remaining.
  rewrite Hpos, Z.ltb_irrefl. unfold feed. rewrite Hpos, Z.eqb_refl. cbn [negb feed_loop source_ handle_ upcoming_ bad_entity_].
  split.
  - intros e src' Hr fuel. rewrite Hr. by eexists.
  - intros buf src' cbs st h' u bad Hr Hp Hrun Hbad fuel. rewrite Hr, Hp, Hrun. unfold check_error.
    destruct bad.
    + destruct (entity_declaration_report _ _ _); by eexists.
    + cbn [orb] in Hbad. rewrite Hbad. destruct (malformed_report _ _ _); by eexists.
Qed.
End expat.

(** ** Properties *)


(** A parser that reports one element with a text for each non-empty read. *)
Definition sample_parse (_ : unit) (buf : bytes) (final : bool) : list (callback * position) * parse_status * unit :=
  match buf with
  | [] => ([], status_ok (Position 1 9), tt)
  | _ => ([(StartElement (str "a") [(str "k", str "v")], Position 1 0);
           (CharacterData buf, Position 1 3); (EndElement, Position 1 9)], status_ok (Position 1 9), tt)
  end.
