(* ===== verification/Minidom.v ===== *)
(** * Document trees (lib/cxxll/expat_minidom.cpp)

    [parse] allocates nodes that are linked into their parent before they are
    complete, so the model has a heap of nodes, with [shared_ptr]s as indices.
    [rep] says which tree a node stands for. *)

From S2P Require Import Prelude SortedMap Xml.

(** ** The nodes *)

(** Source: include/cxxll/expat_minidom.hpp 31-51, expat_minidom::node. *)
Inductive node :=
| NText (data : bytes)
| NElement (name : bytes) (attributes : smap bytes) (children : list nat).
Abbreviation heap := (list node).

(** [children.push_back (child)] *)
Definition add_child (h : heap) (id child : nat) : heap :=
  match h !! id with
  | Some (NElement name attrs children) => <[id := NElement name attrs (children ++ [child])]> h
  | _ => h
  end.
(** [data += s] *)
Definition append_data (h : heap) (id : nat) (s : bytes) : heap :=
  match h !! id with Some (NText data) => <[id := NText (data ++ s)]> h | _ => h end.

(** ** Parsing *)

Section parse.
Context {X : Type} `{XmlOps X}.

(** Source: lib/cxxll/expat_minidom.cpp 98-103, expat_minidom::parse. *)
Fixpoint text_loop (fuel : nat) (h : heap) (id : nat) : xm X heap :=
  match fuel with
  | O => xm_diverge
  | S fuel =>
      st ← xm_state;
      if bool_decide (st = TEXT) then
        t ← xm_get x_text_ptr;
        x_next fuel;;
        text_loop fuel (append_data h id t) id
      else mret h
  end.

(** The stack has its top first.  [back] and [pop_back] of an empty stack are
    undefined in the code; the state check before the loop excludes them.
    Source: lib/cxxll/expat_minidom.cpp 78-105, expat_minidom::parse. *)
Fixpoint parse_loop (fuel : nat) (h : heap) (stack : list nat) : xm X (heap * nat) :=
  match fuel with
  | O => xm_diverge
  | S fuel =>
      st ← xm_state;
      match st with
      | START =>
          name ← xm_get x_name_ptr;
          attrs ← xm_get x_attributes;
          let n := length h in
          let h := h ++ [NElement name attrs []] in
          let h := match stack with [] => h | back :: _ => add_child h back n end in
          x_next fuel;;
          parse_loop fuel h (n :: stack)
      | END =>
          x_next fuel;;
          match stack with
          | [] => xm_throw assertion_failure
          | [back] => mret (h, back)
          | _ :: stack => parse_loop fuel h stack
          end
      | _ =>
          let n := length h in
          let h := h ++ [NText []] in
          match stack with
          | [] => xm_throw assertion_failure
          | back :: _ =>
              h ← text_loop fuel (add_child h back n) n;
              parse_loop fuel h stack
          end
      end
  end.

(** The heap with the pointer to the root.
    Source: lib/cxxll/expat_minidom.cpp 70-106, expat_minidom::parse. *)
Definition parse_heap (fuel : nat) : xm X (heap * nat) :=
  st ← xm_state;
  (if bool_decide (st = INIT) then x_next fuel;; mret tt else mret tt);;
  xm_get x_name;;
  parse_loop fuel [] [].
End parse.

(** ** Trees *)

(** What the pointers lead to. *)
Inductive dom :=
| DText (data : bytes)
| DElement (name : bytes) (attributes : smap bytes) (children : list dom).

Fixpoint read_dom (fuel : nat) (h : heap) (id : nat) : option dom :=
  match fuel with
  | O => None
  | S fuel =>
      match h !! id with
      | None => None
      | Some (NText data) => Some (DText data)
      | Some (NElement name attrs children) => DElement name attrs <$> mapM (read_dom fuel h) children
      end
  end.

(** The tree that [parse] returns; no node is deeper in the tree than its index,
    so the size of the heap is fuel enough. *)
Definition parse {X} `{XmlOps X} (fuel : nat) : xm X dom :=
  hr ← parse_heap fuel;
  match read_dom (length hr.1) hr.1 hr.2 with Some d => mret d | None => xm_throw assertion_failure end.

(** An element as the code sees it after [dynamic_cast<element *>]. *)
Definition is_element (name : bytes) (d : dom) : bool :=
  match d with DElement n _ _ => bool_decide (n = name) | DText _ => false end.

(** Source: lib/cxxll/expat_minidom.cpp 44-55, expat_minidom::element::first_child. *)
Fixpoint first_child_loop (children : list dom) (name : bytes) : option dom :=
  match children with
  | [] => None
  | p :: children => if is_element name p then Some p else first_child_loop children name
  end.
Definition children (e : dom) : list dom := match e with DElement _ _ cs => cs | DText _ => [] end.
Definition attributes_of (e : dom) : smap bytes := match e with DElement _ a _ => a | DText _ => [] end.
Definition name_of (e : dom) : bytes := match e with DElement n _ _ => n | DText _ => [] end.
Definition first_child (e : dom) (name : bytes) : option dom := first_child_loop (children e) name.

(** Source: lib/cxxll/expat_minidom.cpp 57-69, expat_minidom::element::text. *)
Definition element_text (e : dom) : bytes :=
  foldl (λ r p, match p with DText data => r ++ data | DElement _ _ _ => r end) [] (children e).

(** [e->attributes["key"]]: the empty string where there is none (the code also
    adds it to the map, which makes no difference to later lookups). *)
Definition dom_attribute (e : dom) (key : bytes) : bytes := default [] (sm_find key (attributes_of e)).

(** ** The trees that a sequence of events describes *)

(** Runs of text become one node; the attributes go into a map. *)
Inductive builds : list xevent → list dom → Prop :=
| builds_nil : builds [] []
| builds_text t ts es ds : (∀ u es', es ≠ XText u :: es') → builds es ds →
    builds (XText t :: (XText <$> ts) ++ es) (DText (t ++ concat ts) :: ds)
| builds_element name attrs inner cs es ds : builds inner cs → builds es ds →
    builds (XStart name attrs :: inner ++ XEnd :: es) (DElement name (attribute_map attrs) cs :: ds).

(** Each balanced sequence describes some trees. *)
Lemma text_run es : ∃ ts rest, es = (XText <$> ts) ++ rest ∧ ∀ u es', rest ≠ XText u :: es'.
Proof.
  induction es as [|[name attrs| |t] es (ts & rest & -> & Hrest)].
  - by exists [], [].
  - by exists [], (XStart name attrs :: (XText <$> ts) ++ rest).
  - by exists [], (XEnd :: (XText <$> ts) ++ rest).
  - by exists (t :: ts), rest.
Qed.
Lemma content_texts ts : ∀ rest, content ((XText <$> ts) ++ rest) → content rest.
Proof.
  induction ts as [|t ts IH]; intros rest Hc; [done|]. rewrite fmap_cons in Hc. cbn [app] in Hc.
  apply IH. by inversion Hc.
Qed.
Lemma content_builds inner : content inner → ∃ ds, builds inner ds.
Proof.
  assert (∀ n inner, (length inner <= n)%nat → content inner → ∃ ds, builds inner ds) as H; [|intros Hc; by apply (H (length inner))].
  clear inner. induction n as [|n IH]; intros inner Hn Hc; destruct Hc as [|t es Hc|name attrs inner es Hc1 Hc2];
    try (by exists []; constructor); try (simpl in Hn; lia).
  - destruct (text_run es) as (ts & rest & -> & Hrest). destruct (IH rest) as [ds Hds].
    + simpl in Hn. rewrite length_app in Hn. lia.
    + by apply content_texts in Hc.
    + eexists. by apply builds_text.
  - simpl in Hn. rewrite length_app in Hn. simpl in Hn.
    destruct (IH inner) as [cs Hcs]; [lia|done|]. destruct (IH es) as [ds Hds]; [lia|done|].
    eexists. by apply builds_element.
Qed.

Lemma builds_content inner ds : builds inner ds → content inner.
Proof.
  induction 1 as [|t ts es ds _ _ IH|name attrs inner cs es ds _ IH1 _ IH2]; [constructor| |by constructor].
  constructor. induction ts as [|u ts IHts]; [done|]. rewrite fmap_cons. by constructor.
Qed.
Lemma xtext_eq (t : bytes) ts : XText t :: (XText <$> ts) = XText <$> (t :: ts).
Proof. done. Qed.

(** ** The heap represents trees *)

Inductive rep (h : heap) : nat → nat → dom → Prop :=
| rep_text lo id data : (lo <= id)%nat → h !! id = Some (NText data) → rep h lo id (DText data)
| rep_element lo id name attrs cs ds : (lo <= id)%nat → h !! id = Some (NElement name attrs cs) →
    Forall2 (rep h (S id)) cs ds → rep h lo id (DElement name attrs ds).

Lemma rep_mono h lo lo' id d : (lo' <= lo)%nat → rep h lo id d → rep h lo' id d.
Proof. intros Hlo Hr. destruct Hr; [apply rep_text|eapply rep_element]; eauto; lia. Qed.
Lemma rep_lookup h lo id d : rep h lo id d → (lo <= id < length h)%nat.
Proof. intros Hr. destruct Hr as [lo id data Hlo Hl|lo id name attrs cs ds Hlo Hl _]; apply lookup_lt_Some in Hl; lia. Qed.

(** Nodes below [lo] and new nodes do not matter. *)
Lemma rep_agree h h' : ∀ lo id d, (∀ i, (lo <= i < length h)%nat → h' !! i = h !! i) →
  rep h lo id d → rep h' lo id d.
Proof.
  fix IH 5. intros lo id d Hagree Hr. pose proof (rep_lookup _ _ _ _ Hr) as Hid.
  destruct Hr as [lo id data Hlo Hl|lo id name attrs cs ds Hlo Hl Hcs].
  - apply rep_text; [done|]. by rewrite Hagree.
  - apply rep_element with cs; [done|by rewrite Hagree|]. clear Hl.
    induction Hcs as [|c d cs ds Hc _ IHcs]; constructor; [|done].
    apply (IH (S id) c d); [|exact Hc]. intros i Hi. apply Hagree. lia.
Qed.
Lemma read_rep h n : ∀ lo id d, rep h lo id d → (length h - id <= n)%nat → read_dom n h id = Some d.
Proof.
  induction n as [|n IH]; intros lo id d Hr Hn; pose proof (rep_lookup _ _ _ _ Hr) as Hid; [lia|].
  destruct Hr as [lo id data Hlo Hl|lo id name attrs cs ds Hlo Hl Hcs]; cbn [read_dom]; rewrite Hl; [done|].
  assert (mapM (read_dom n h) cs = Some ds) as ->; [|done]. apply mapM_Some.
  eapply Forall2_impl; [exact Hcs|]. intros c d Hc. apply (IH (S id)); [done|]. pose proof (rep_lookup _ _ _ _ Hc). lia.
Qed.

(** ** Parsing builds the tree *)

Section proofs.
Context {X : Type} `{XmlSource X}.

(** [m] returns something that satisfies [Q] and leaves the parser at [es]. *)
Definition leads_to {A} (m : nat → xm X A) (x : X) (Q : A → Prop) (es : list xevent) : Prop :=
  ∃ a, leads m x a es ∧ Q a.
Lemma leads_to_bind {A B} (m : nat → xm X A) (f : A → nat → xm X B) x a es Q es' :
  leads m x a es → (∀ x', at_events x' es → leads_to (f a) x' Q es') →
  leads_to (λ fuel, m fuel ≫= λ a, f a fuel) x Q es'.
Proof.
  intros (n & x' & Hm & Hx') Hf. destruct (Hf x' Hx') as (b & Hb & HQ). exists b. split; [|done].
  destruct Hb as (k & x'' & Hk & Hx''). exists (n `max` k)%nat, x''. split; [|done].
  intros fuel Hfuel. unfold mbind, fsx_bind. rewrite Hm by lia. apply Hk. lia.
Qed.
Lemma leads_to_S {A} (m m' : nat → xm X A) x Q es :
  (∀ fuel, m (S fuel) x = m' fuel x) → leads_to m' x Q es → leads_to m x Q es.
Proof. intros E (a & Ha & HQ). exists a. split; [|done]. by apply (leads_S m m'). Qed.

Lemma leads_dom_text ts : ∀ h id d x es, h !! id = Some (NText d) →
  at_events x ((XText <$> ts) ++ es) → (∀ u es', es ≠ XText u :: es') →
  leads (λ fuel, text_loop fuel h id) x (<[id := NText (d ++ concat ts)]> h) es.
Proof.
  induction ts as [|t ts IH]; intros h id d x es Hid Hx Hes.
  - cbn [fmap list_fmap app] in Hx. cbn [concat]. rewrite app_nil_r, list_insert_id by done.
    apply (leads_S _ (λ _, mret h)); [|by apply leads_ret]. intros fuel. cbn [text_loop].
    unfold mbind, fsx_bind, xm_state. rewrite (at_state _ _ Hx), bool_decide_eq_false_2; [done|].
    destruct es as [|[| |u] es]; try done. by destruct (Hes u es).
  - rewrite fmap_cons in Hx. cbn [app] in Hx. destruct Hx as [[Hs [_ Ht]] Ha].
    apply (leads_S _ (λ fuel, x_next fuel ≫= λ _, text_loop fuel (append_data h id t) id)).
    { intros fuel. cbn [text_loop]. unfold mbind, fsx_bind, xm_state, xm_get.
      rewrite Hs, bool_decide_eq_true_2, Ht by done. done. }
    apply (leads_bind x_next (λ _ fuel, text_loop fuel (append_data h id t) id) x _ _ _ _ (leads_next _ _ Ha)).
    intros x' Hx'. unfold append_data. rewrite Hid. pose proof (lookup_lt_Some _ _ _ Hid) as Hlt.
    pose proof (IH (<[id:=NText (d ++ t)]> h) id (d ++ t) x' es) as IH'.
    rewrite list_insert_insert_eq, <- app_assoc in IH'. apply IH'; [|done|done]. by apply list_lookup_insert_eq.
Qed.

(** The heap after the contents of element [id] have been added to it. *)
Definition extends (h : heap) (id : nat) (name : bytes) (attrs : smap bytes) (cs : list nat) (h' : heap) : Prop :=
  (length h <= length h')%nat ∧ (∀ i, (i < length h)%nat → i ≠ id → h' !! i = h !! i) ∧
  h' !! id = Some (NElement name attrs cs).
Lemma extends_trans h id nm a cs h1 cs' h2 :
  extends h id nm a cs h1 → extends h1 id nm a cs' h2 → extends h id nm a cs' h2.
Proof.
  intros (L1 & A1 & E1) (L2 & A2 & E2). split_and!; [lia| |done].
  intros i Hi Hne. rewrite A2, A1 by lia. done.
Qed.
(** Trees built in the meantime stay. *)
Lemma rep_extends h id nm a cs h1 c d (lo : nat) : (id < lo)%nat → extends h id nm a cs h1 →
  rep h lo c d → rep h1 lo c d.
Proof.
  intros Hid (_ & Ha & _). apply rep_agree. intros i Hi. apply Ha; lia.
Qed.

(** A new node [n] under [id], and what is then done to the new node. *)
Lemma extends_child h id nm a cs nd : h !! id = Some (NElement nm a cs) →
  extends h id nm a (cs ++ [length h]) (add_child (h ++ [nd]) id (length h)) ∧
  add_child (h ++ [nd]) id (length h) !! length h = Some nd ∧
  length (add_child (h ++ [nd]) id (length h)) = S (length h).
Proof.
  intros Hid. pose proof (lookup_lt_Some _ _ _ Hid) as Hlt.
  unfold add_child. rewrite lookup_app_l, Hid by done. unfold extends. rewrite length_insert, length_app. cbn [length].
  split_and!; [lia| | | |lia].
  - intros i Hi Hne. rewrite list_lookup_insert_ne by done. by rewrite lookup_app_l.
  - apply list_lookup_insert_eq. rewrite length_app. simpl. lia.
  - rewrite list_lookup_insert_ne by lia. by apply list_lookup_middle.
Qed.

(** One more child in front of those that the rest of the loop adds. *)
Lemma extends_add h id nm a cs h2 h' ids d ds : (id < length h)%nat →
  extends h id nm a (cs ++ [length h]) h2 → rep h2 (length h) (length h) d →
  extends h2 id nm a ((cs ++ [length h]) ++ ids) h' → Forall2 (rep h' (length h2)) ids ds →
  extends h id nm a (cs ++ length h :: ids) h' ∧ Forall2 (rep h' (length h)) (length h :: ids) (d :: ds).
Proof.
  intros Hlt He2 Hr He Hids. split.
  - rewrite (cons_middle (length h) cs), app_assoc. by eapply extends_trans.
  - apply Forall2_cons; split; [by apply (rep_extends h2 id nm a ((cs ++ [length h]) ++ ids))|].
    eapply Forall2_impl; [exact Hids|]. intros ? ?. apply rep_mono. apply He2.
Qed.

(** A run of text adds a text node. *)
Lemma parse_text_node h id st nm a cs t ts es out x (Q : heap * nat → Prop) :
  h !! id = Some (NElement nm a cs) → at_events x (XText t :: (XText <$> ts) ++ es) →
  (∀ u es', es ≠ XText u :: es') →
  (∀ h2 x', extends h id nm a (cs ++ [length h]) h2 → rep h2 (length h) (length h) (DText (t ++ concat ts)) →
     at_events x' es → leads_to (λ fuel, parse_loop fuel h2 (id :: st)) x' Q out) →
  leads_to (λ fuel, parse_loop fuel h (id :: st)) x Q out.
Proof.
  intros Hid Hx Hes Hcont. pose proof (lookup_lt_Some _ _ _ Hid) as Hlt.
  destruct (extends_child h id nm a cs (NText []) Hid) as (He1 & Hn & Hlen1).
  apply (leads_to_S _ (λ fuel, text_loop fuel (add_child (h ++ [NText []]) id (length h)) (length h)
     ≫= λ h, parse_loop fuel h (id :: st))).
  { intros fuel. cbn [parse_loop]. unfold mbind at 1, fsx_bind at 1, xm_state. by rewrite (at_state _ _ Hx). }
  apply (leads_to_bind _ (λ h fuel, parse_loop fuel h (id :: st)) x _ es Q out
    (leads_dom_text (t :: ts) _ _ _ x _ Hn Hx Hes)).
  intros x1 Hx2. cbn [app concat]. set (h1 := add_child _ _ _) in *.
  set (h2 := <[length h := NText (t ++ concat ts)]> h1). apply Hcont; [|apply rep_text; [done|]|done].
  - destruct He1 as (L & A & E). unfold h2. split_and!; [rewrite length_insert; lia| |].
    + intros i Hi Hne. rewrite list_lookup_insert_ne by lia. by apply A.
    + by rewrite list_lookup_insert_ne by lia.
  - apply list_lookup_insert_eq. lia.
Qed.

(** A start tag adds an element node and makes it the current one. *)
Lemma parse_start h stack name attrs es out x (Q : heap * nat → Prop) :
  at_events x (XStart name attrs :: es) →
  (∀ x', at_events x' es → leads_to (λ fuel, parse_loop fuel
     match stack with
     | [] => h ++ [NElement name (attribute_map attrs) []]
     | back :: _ => add_child (h ++ [NElement name (attribute_map attrs) []]) back (length h)
     end (length h :: stack)) x' Q out) →
  leads_to (λ fuel, parse_loop fuel h stack) x Q out.
Proof.
  intros [[Hs (_ & Hname & _ & Hattrs)] Ha] Hcont. set (h1 := match stack with [] => _ | _ => _ end) in *.
  apply (leads_to_S _ (λ fuel, x_next fuel ≫= λ _, parse_loop fuel h1 (length h :: stack))).
  { intros fuel. cbn [parse_loop]. unfold mbind at 1, fsx_bind at 1, xm_state. rewrite Hs. cbn [event_state].
    unfold mbind at 1, fsx_bind at 1, xm_get at 1. rewrite Hname.
    unfold mbind at 1, fsx_bind at 1, xm_get. by rewrite Hattrs. }
  by apply (leads_to_bind x_next (λ _ fuel, parse_loop fuel h1 (length h :: stack)) x _ _ Q out (leads_next _ _ Ha)).
Qed.
(** An end tag makes the parent the current element. *)
Lemma parse_end h id id' st es out x (Q : heap * nat → Prop) : at_events x (XEnd :: es) →
  (∀ x', at_events x' es → leads_to (λ fuel, parse_loop fuel h (id' :: st)) x' Q out) →
  leads_to (λ fuel, parse_loop fuel h (id :: id' :: st)) x Q out.
Proof.
  intros [[Hs _] Ha] Hcont. apply (leads_to_S _ (λ fuel, x_next fuel ≫= λ _, parse_loop fuel h (id' :: st))).
  { intros fuel. cbn [parse_loop]. unfold mbind at 1, fsx_bind at 1, xm_state. by rewrite Hs. }
  by apply (leads_to_bind x_next (λ _ fuel, parse_loop fuel h (id' :: st)) x _ _ Q out (leads_next _ _ Ha)).
Qed.

(** The loop at element [id] consumes its contents. *)
Lemma parse_content inner ds : builds inner ds → ∀ h id st nm a cs rest out x (Q : heap * nat → Prop),
  h !! id = Some (NElement nm a cs) → at_events x (inner ++ XEnd :: rest) →
  (∀ h' ids x', extends h id nm a (cs ++ ids) h' → Forall2 (rep h' (length h)) ids ds →
     at_events x' (XEnd :: rest) → leads_to (λ fuel, parse_loop fuel h' (id :: st)) x' Q out) →
  leads_to (λ fuel, parse_loop fuel h (id :: st)) x Q out.
Proof.
  induction 1 as [|t ts es ds Hes _ IH|name attrs inner cds es ds _ IH1 _ IH2];
    intros h id st nm a cs rest out x Q Hid Hx Hcont; pose proof (lookup_lt_Some _ _ _ Hid) as Hlt.
  - apply (Hcont h [] x); [|constructor|done]. rewrite app_nil_r. split_and!; auto.
  - rewrite <- app_comm_cons, <- app_assoc in Hx.
    apply (parse_text_node h id st nm a cs t ts (es ++ XEnd :: rest) out x Q Hid Hx).
    { intros u es' E. destruct es; [done|]. injection E as -> <-. by eapply Hes. }
    intros h2 x1 He2 Hr Hx1. apply (IH h2 id st nm a (cs ++ [length h]) rest out x1 Q); [apply He2|done|].
    intros h' ids x' He Hids Hx'. destruct (extends_add h id nm a cs h2 h' ids _ ds Hlt He2 Hr He Hids).
    by apply (Hcont h' (length h :: ids) x').
  - rewrite <- app_comm_cons, <- app_assoc in Hx.
    apply (parse_start h (id :: st) name attrs _ out x Q Hx). intros x1 Hx1.
    destruct (extends_child h id nm a cs (NElement name (attribute_map attrs) []) Hid) as (He1 & Hn & Hlen1).
    set (h1 := add_child _ _ _) in *.
    apply (IH1 h1 (length h) (id :: st) name (attribute_map attrs) [] (es ++ XEnd :: rest) out x1 Q Hn Hx1).
    intros h2 ids x2 He2 Hids Hx2. cbn [app] in He2.
    apply (parse_end h2 (length h) id st _ out x2 Q Hx2). intros x3 Hx3.
    assert (extends h id nm a (cs ++ [length h]) h2) as He.
    { destruct He1 as (L1 & A1 & E1), He2 as (L2 & A2 & E2).
      split_and!; [lia|intros i Hi Hne; by rewrite A2, A1 by lia|by rewrite A2 by lia]. }
    assert (rep h2 (length h) (length h) (DElement name (attribute_map attrs) cds)) as Hr.
    { apply rep_element with ids; [done|apply He2|by rewrite <- Hlen1]. }
    apply (IH2 h2 id st nm a (cs ++ [length h]) rest out x3 Q); [apply He|done|].
    intros h' ids' x' He' Hids' Hx'. destruct (extends_add h id nm a cs h2 h' ids' _ ds Hlt He Hr He' Hids').
    by apply (Hcont h' (length h :: ids') x').
Qed.

Lemma parse_loop_root x name attrs inner ds es : builds inner ds →
  at_events x (XStart name attrs :: inner ++ XEnd :: es) →
  leads_to (λ fuel, parse_loop fuel [] []) x
    (λ hr, rep hr.1 0 hr.2 (DElement name (attribute_map attrs) ds) ∧ hr.2 = O) es.
Proof.
  intros Hds Hx. apply (parse_start [] [] name attrs _ es x _ Hx). intros x1 Hx1. cbn [app length].
  set (h1 := [NElement name (attribute_map attrs) []]).
  eapply (parse_content inner ds Hds h1 O [] name (attribute_map attrs) [] es es x1); [done..|].
  intros h2 ids x2 He Hids Hx2. pose proof Hx2 as [[Hs2 _] Ha2].
  apply (leads_to_S _ (λ fuel, x_next fuel ≫= λ _, mret (h2, O))).
  { intros fuel. cbn [parse_loop]. unfold mbind at 1, fsx_bind at 1, xm_state. by rewrite Hs2. }
  apply (leads_to_bind x_next (λ _ fuel, mret (h2, O)) x2 _ _ _ es (leads_next _ _ Ha2)). intros x3 Hx3.
  exists (h2, O). split; [by apply leads_ret|]. cbn [fst snd]. split; [|done].
  apply rep_element with ids; [done|apply He|done].
Qed.
Lemma parse_at_start x name attrs inner ds es : builds inner ds →
  at_events x (XStart name attrs :: inner ++ XEnd :: es) →
  leads parse x (DElement name (attribute_map attrs) ds) es.
Proof.
  intros Hds Hx. destruct (parse_loop_root x name attrs inner ds es Hds Hx) as ([h root] & (n & x' & Hn & Hx') & Hr & E).
  cbn [fst snd] in *. subst root. destruct Hx as [[Hs (Hname & _)] _].
  exists n, x'. split; [|done]. intros fuel Hf. unfold parse, parse_heap, mbind, fsx_bind, xm_state, xm_get.
  rewrite Hs. cbn [event_state]. rewrite bool_decide_eq_false_2 by done. cbn [mret fsx_ret].
  rewrite Hname, Hn by done. cbn [fst snd].
  by rewrite (read_rep h (length h) 0 0 (DElement name (attribute_map attrs) ds)) by (done || lia).
Qed.
Lemma parse_initial x name attrs inner ds es : builds inner ds → x_state x = INIT →
  x_ahead x (XStart name attrs :: inner ++ XEnd :: es) →
  leads parse x (DElement name (attribute_map attrs) ds) es.
Proof.
  intros Hds Hs Hx. destruct (leads_next _ _ Hx) as (n & x1 & Hn & Hx1).
  destruct (parse_at_start x1 name attrs inner ds es Hds Hx1) as (k & x' & Hk & Hx').
  exists (n `max` k)%nat, x'. split; [|done]. intros fuel Hf. specialize (Hk fuel ltac:(lia)).
  unfold parse, parse_heap, mbind, fsx_bind, xm_state in *. rewrite Hs, bool_decide_eq_true_2 by done. rewrite Hn by lia.
  destruct Hx1 as [[Hs1 _] _]. rewrite Hs1, bool_decide_eq_false_2 in Hk by done. exact Hk.
Qed.
End proofs.

(** ** Properties *)

(** C34: [expat_minidom::parse], called at a start tag or before the first event,
    terminates, consumes exactly the element with its end tag, and returns the
    tree that its events describe: children in document order at every depth,
    each run of text as one node, attributes as a map; such a tree exists for
    every balanced sequence of events.  In any other state it throws the
    exception of [name] without consuming anything. *)
Theorem minidom_parse_spec {X : Type} `{XmlSource X} (x : X) :
  (∀ name attrs inner ds es, builds inner ds →
    at_events x (XStart name attrs :: inner ++ XEnd :: es) ∨
    x_state x = INIT ∧ x_ahead x (XStart name attrs :: inner ++ XEnd :: es) →
    leads parse x (DElement name (attribute_map attrs) ds) es) ∧
  (∀ inner, content inner → ∃ ds, builds inner ds) ∧
  (x_state x ≠ INIT → x_state x ≠ START → ∀ fuel, parse fuel x = Some (illegal_state (x_state x) START, x)).
Proof.
  split_and!.
  - intros name attrs inner ds es Hds [Hx|[Hs Hx]]; [by apply (parse_at_start x name attrs inner)|].
    by apply (parse_initial x name attrs inner).
  - exact content_builds.
  - intros Hi Hst fuel. unfold parse, parse_heap, mbind, fsx_bind, xm_state, xm_get.
    rewrite bool_decide_eq_false_2 by done. cbn [mret fsx_ret].
    destruct (x_accessors x) as [Hn _]. by rewrite Hn.
Qed.

Lemma minidom_parse_spec_witness :
  let x := EventList None false
    [XStart (str "a") [(str "k", str "v")]; XText (str "x"); XText (str "y"); XStart (str "b") []; XEnd; XEnd] in
  leads parse x (DElement (str "a") [(str "k", str "v")] [DText (str "xy"); DElement (str "b") [] []]) [].
Proof.
  intros x. destruct (minidom_parse_spec x) as (Hparse & _).
  refine (Hparse (str "a") [(str "k", str "v")] [XText (str "x"); XText (str "y"); XStart (str "b") []; XEnd]
    [DText (str "xy"); DElement (str "b") [] []] [] _ _).
  - refine (builds_text (str "x") [str "y"] [XStart (str "b") []; XEnd] [DElement (str "b") [] []] _ _); [discriminate|].
    exact (builds_element (str "b") [] [] [] [] [] builds_nil builds_nil).
  - right. split; reflexivity.
Defined.
