(* ===== verification/Maven.v ===== *)
(** * Maven project files (lib/cxxll/maven_url.cpp, include/cxxll/looks_like_xml.hpp)

    The check whether a file may be XML, and the extraction of the URLs of a POM
    file from a pull parser.  The streaming code is proved equivalent to a
    function on document trees. *)

From S2P Require Import Prelude StringSupport SortedMap Xml Minidom.

(** ** Detection *)

(** Source: include/cxxll/looks_like_xml.hpp 23-60, looks_like_xml. *)
Fixpoint looks_like_xml (s : bytes) : bool :=
  match s with
  | [] => false
  | ch :: first =>
      if ch =? 60 then true
      else if (ch =? 0x20) || (ch =? 0x09) || (ch =? 0x0D) || (ch =? 0x0A) then looks_like_xml first
      else if ch =? 0xEF then
        match first with
        | ch :: first =>
            if ch =? 0xBB then
              match first with
              | ch :: first => if ch =? 0xBF then looks_like_xml first else false
              | [] => false
              end
            else false
        | [] => false
        end
      else false
  end.

(** ** Extraction *)

(** Source: include/cxxll/maven_url.hpp 30-41, maven_url::kind. *)
Inductive kind :=
| other | repository | pluginRepository | snapshotRepository | distributionManagement
| downloadUrl | site | scm | connection | developerConnection.
#[global] Instance kind_eq_dec : EqDecision kind.
Proof. solve_decision. Defined.

(** Source: include/cxxll/maven_url.hpp 27-44, maven_url. *)
Record maven_url := MavenUrl { url : bytes; type : kind }.

(** Source: lib/cxxll/maven_url.cpp 38-56, maven_url::to_string. *)
Definition kind_to_string (t : kind) : bytes :=
  match t with
  | other => str "other"
  | repository => str "repository"
  | pluginRepository => str "pluginRepository"
  | snapshotRepository => str "snapshotRepository"
  | distributionManagement => str "distributionManagement"
  | scm => str "scm"
  | downloadUrl => str "downloadUrl"
  | site => str "site"
  | connection => str "connection"
  | developerConnection => str "developerConnection"
  end.

(** Source: lib/cxxll/maven_url.cpp 58-70, classify. *)
Definition classify (s : bytes) : kind :=
  if bool_decide (s = str "repository") then repository
  else if bool_decide (s = str "pluginRepository") then pluginRepository
  else if bool_decide (s = str "snapshotRepository") then snapshotRepository
  else if bool_decide (s = str "distributionManagement") then distributionManagement
  else if bool_decide (s = str "scm") then scm
  else other.

(** The loop over the open tags, outermost first.
    Source: lib/cxxll/maven_url.cpp 111-119, extract_text_contents. *)
Fixpoint classify_tags (tags : list bytes) : kind :=
  match tags with
  | [] => other
  | p :: tags => if bool_decide (classify p = other) then classify_tags tags else classify p
  end.

(** What the tag stands for, or [None] if it has no URL.
    Source: lib/cxxll/maven_url.cpp 87-124, extract_text_contents. *)
Definition url_kind (tags : list bytes) (tag : bytes) : option kind :=
  if bool_decide (tag = str "downloadUrl") then Some downloadUrl
  else if bool_decide (tag = str "connection") then Some connection
  else if bool_decide (tag = str "developerConnection") then Some developerConnection
  else if bool_decide (tag = str "url") then
    if bool_decide (last tags = Some (str "site")) then Some site
    else Some (classify_tags tags)
  else None.

Section extract.
Context {X : Type} `{XmlOps X}.
(** The parser and the vector [result]. *)
Abbreviation M := (xm (X * list maven_url)).

(** Source: lib/cxxll/maven_url.cpp 72-85, extract_text_contents. *)
Definition extract_text (fuel : nat) (type : kind) : M unit :=
  xlift (x_next fuel);;
  st ← xlift xm_state;
  (if bool_decide (st = TEXT) then
    text ← xlift (text_and_next fuel);
    xput (λ result, result ++ [MavenUrl (strip text) type])
  else mret tt);;
  xlift (unnest fuel).

(** Source: lib/cxxll/maven_url.cpp 87-124, extract_text_contents. *)
Definition extract_text_contents (fuel : nat) (tags : list bytes) : M bool :=
  tag ← xlift (xm_get x_name_ptr);
  match url_kind tags tag with
  | Some type => extract_text fuel type;; mret true
  | None => mret false
  end.

(** Source: lib/cxxll/maven_url.cpp 148-172, maven_url::extract. *)
Fixpoint extract_loop (fuel : nat) (tags : list bytes) : M unit :=
  match fuel with
  | O => λ _, None
  | S fuel =>
      let advance tags :=
        more ← xlift (x_next fuel);
        if more : bool then extract_loop fuel tags
        else λ s, Some (assert_ (bool_decide (tags = [])), s) in
      st ← xlift xm_state;
      match st with
      | START =>
          extracted ← extract_text_contents fuel tags;
          if extracted : bool then extract_loop fuel tags
          else
            name ← xlift (xm_get x_name);
            advance (tags ++ [name])
      | END => if bool_decide (tags = []) then λ s, Some (Throw assertion_failure, s) else advance (removelast tags)
      | _ => advance tags
      end
  end.

(** Whether the document is a POM file; the calls in the [try] block.
    Source: lib/cxxll/maven_url.cpp 129-145, maven_url::extract. *)
Definition enter_project (fuel : nat) : xm X bool := λ x,
  match (more ← x_next fuel;
         if more : bool then name ← xm_get x_name; mret (bool_decide (name = str "project")) else mret false) x with
  | Some (Throw (xml_malformed _), x) => Some (Ok false, x)
  | r => r
  end.

(** Source: lib/cxxll/maven_url.cpp 126-173, maven_url::extract. *)
Definition extract (fuel : nat) : M unit :=
  pom ← xlift (enter_project fuel);
  if pom : bool then
    xlift (x_next fuel);;
    extract_loop fuel [[]]
  else mret tt.
End extract.

(** ** The specification on trees *)

(** The URLs of a tree inside the open tags [tags]: an element that stands for
    an URL contributes the text at its start, and its descendants nothing. *)
Fixpoint dom_urls (tags : list bytes) (d : dom) : list maven_url :=
  match d with
  | DText _ => []
  | DElement name _ cs =>
      match url_kind tags name with
      | Some type => match cs with DText text :: _ => [MavenUrl (strip text) type] | _ => [] end
      | None => concat (dom_urls (tags ++ [name]) <$> cs)
      end
  end.

Section proofs.
Context {X : Type} `{XmlSource X}.
Abbreviation R := (list maven_url).

(** The element at the parser is consumed, and its leading text recorded. *)
Definition leading (type : kind) (cs : list dom) : list maven_url :=
  match cs with DText text :: _ => [MavenUrl (strip text) type] | _ => [] end.
Lemma extract_text_wp type name attrs inner cs es x r (Q : res unit → X * R → Prop) :
  builds inner cs → 1 + zlen inner < 2 ^ 32 → at_events x (XStart name attrs :: inner ++ XEnd :: es) →
  (∀ x', at_events x' es → Q (Ok tt) (x', r ++ leading type cs)) →
  xwp (λ fuel, extract_text fuel type) (x, r) Q.
Proof.
  intros Hb Hmax Hx HQ. unfold extract_text.
  apply (xwp_leads x_next _ _ _ _ _ _ (leads_next _ _ (at_ahead _ _ _ Hx))). intros x1 Hx1.
  assert (∀ x2 r2 rest, content rest → 1 + zlen rest < 2 ^ 32 → at_events x2 (rest ++ XEnd :: es) →
    r2 = r ++ leading type cs → xwp (λ fuel, xlift (unnest fuel)) (x2, r2) Q) as Hunnest.
  { intros x2 r2 rest Hc Hm Hx2 ->.
    destruct (leads_unnest rest x2 es Hc Hm Hx2) as (n & x' & Hn & Hx').
    exists n, (Ok tt), (x', r ++ leading type cs). split; [|by apply HQ]. intros fuel Hf. unfold xlift. cbn [fst snd].
    by rewrite Hn. }
  pose proof (builds_content _ _ Hb) as Hc.
  apply (xwp_state (λ st fuel, (if bool_decide (st = TEXT) then text ← xlift (text_and_next fuel);
    xput (λ result, result ++ [MavenUrl (strip text) type]) else mret tt);; xlift (unnest fuel)) x1 r _ Q (at_state _ _ Hx1)).
  destruct Hb as [|t ts rest ds Hrest Hb|nm at' inner' cs' rest ds Hb1 Hb2].
  - apply (xwp_bind (λ _, mret tt) (λ _ fuel, xlift (unnest fuel))), (xwp_det _ _ (Ok tt) (x1, r)); [done|].
    apply (Hunnest x1 r []); [done..|]. by rewrite app_nil_r.
  - rewrite zlen_cons, zlen_app in Hmax. pose proof (zlen_nonneg (XText <$> ts)).
    apply (xwp_bind (λ fuel, text ← xlift (text_and_next fuel); xput (λ result, result ++ [MavenUrl (strip text) type]))
      (λ _ fuel, xlift (unnest fuel))).
    rewrite <- app_comm_cons, <- app_assoc in Hx1.
    apply (xwp_leads text_and_next (λ text _, xput (λ result, result ++ [MavenUrl (strip text) type])) x1 r _ _ _
      (leads_text_and_next t ts x1 (rest ++ XEnd :: es) Hx1 ltac:(by destruct rest; intros ? ? E; [|injection E as -> <-; eapply Hrest]))).
    intros x2 Hx2. apply (xwp_det _ _ (Ok tt) (x2, r ++ [MavenUrl (strip (t ++ concat ts)) type])); [done|].
    apply (Hunnest x2 _ rest); [|lia|done|done]. rewrite app_comm_cons, xtext_eq in Hc. by apply content_texts in Hc.
  - apply (xwp_bind (λ _, mret tt) (λ _ fuel, xlift (unnest fuel))), (xwp_det _ _ (Ok tt) (x1, r)); [done|].
    apply (Hunnest x1 r _ Hc Hmax Hx1). by rewrite app_nil_r.
Qed.

(** The end of a round of the loop. *)
Definition advance_ (tags : list bytes) (fuel : nat) : xm (X * R) unit :=
  more ← xlift (x_next fuel);
  if more : bool then extract_loop fuel tags
  else λ s, Some (assert_ (bool_decide (tags = [])), s).
Lemma advance_wp tags x r e es Q : x_ahead x (e :: es) →
  (∀ x', at_events x' (e :: es) → xwp (λ fuel, extract_loop fuel tags) (x', r) Q) →
  xwp (advance_ tags) (x, r) Q.
Proof.
  intros Ha Hcont. by apply (xwp_leads x_next (λ more fuel, if more : bool then extract_loop fuel tags
    else λ s, Some (assert_ (bool_decide (tags = [])), s)) x r true (e :: es) Q (leads_next _ _ Ha)).
Qed.

(** The rounds of the loop, by the event at the parser. *)
Lemma loop_text tags t e es x r Q : at_events x (XText t :: e :: es) →
  (∀ x', at_events x' (e :: es) → xwp (λ fuel, extract_loop fuel tags) (x', r) Q) →
  xwp (λ fuel, extract_loop fuel tags) (x, r) Q.
Proof.
  intros [[Hs _] Ha] Hcont. apply (xwp_S _ (advance_ tags)).
  - intros fuel. cbn [extract_loop]. unfold mbind at 1, fsx_bind at 1, xlift at 1, xm_state. cbn [fst snd]. by rewrite Hs.
  - by apply advance_wp with e es.
Qed.
Lemma loop_end tags tag e es x r Q : at_events x (XEnd :: e :: es) →
  (∀ x', at_events x' (e :: es) → xwp (λ fuel, extract_loop fuel tags) (x', r) Q) →
  xwp (λ fuel, extract_loop fuel (tags ++ [tag])) (x, r) Q.
Proof.
  intros [[Hs _] Ha] Hcont. apply (xwp_S _ (advance_ tags)).
  - intros fuel. cbn [extract_loop]. unfold mbind at 1, fsx_bind at 1, xlift at 1, xm_state. cbn [fst snd].
    rewrite Hs. cbn [event_state]. rewrite bool_decide_eq_false_2 by (by destruct tags).
    by rewrite removelast_last.
  - by apply advance_wp with e es.
Qed.
Lemma loop_start tags name attrs e es x r Q : at_events x (XStart name attrs :: e :: es) → url_kind tags name = None →
  (∀ x', at_events x' (e :: es) → xwp (λ fuel, extract_loop fuel (tags ++ [name])) (x', r) Q) →
  xwp (λ fuel, extract_loop fuel tags) (x, r) Q.
Proof.
  intros [[Hs (Hname & Hptr & _)] Ha] Hk Hcont. apply (xwp_S _ (advance_ (tags ++ [name]))).
  - intros fuel. cbn [extract_loop]. unfold mbind at 1, fsx_bind at 1, xlift at 1, xm_state. cbn [fst snd].
    rewrite Hs. cbn [event_state]. unfold extract_text_contents. unfold mbind, fsx_bind, xlift, xm_get. cbn [fst snd].
    rewrite Hptr, Hk. cbn [mret fsx_ret fst snd]. by rewrite Hname.
  - by apply advance_wp with e es.
Qed.
Lemma loop_url tags type name attrs inner cs es x r Q : builds inner cs → 1 + zlen inner < 2 ^ 32 →
  at_events x (XStart name attrs :: inner ++ XEnd :: es) → url_kind tags name = Some type →
  (∀ x', at_events x' es → xwp (λ fuel, extract_loop fuel tags) (x', r ++ leading type cs) Q) →
  xwp (λ fuel, extract_loop fuel tags) (x, r) Q.
Proof.
  intros Hb Hmax Hx Hk Hcont. pose proof Hx as [[Hs (_ & Hptr & _)] _].
  apply (xwp_S _ (λ fuel, extract_text fuel type ≫= λ _, extract_loop fuel tags)).
  - intros fuel. cbn [extract_loop]. unfold mbind at 1, fsx_bind at 1, xlift at 1, xm_state. cbn [fst snd].
    rewrite Hs. cbn [event_state]. unfold extract_text_contents.
    unfold mbind at 1, fsx_bind at 1. unfold mbind at 1, fsx_bind at 1, xlift at 1, xm_get. cbn [fst snd].
    rewrite Hptr, Hk. unfold mbind, fsx_bind. destruct (extract_text fuel type (x, r)) as [[[] ?]|]; done.
  - apply (xwp_bind (λ fuel, extract_text fuel type) (λ _ fuel, extract_loop fuel tags)).
    apply (extract_text_wp type name attrs inner cs es); [done..|]. exact Hcont.
Qed.

(** The loop over the contents of an element. *)
Lemma extract_content inner ds : builds inner ds → ∀ tags e rest x r Q, 1 + zlen inner < 2 ^ 32 →
  at_events x (inner ++ e :: rest) → event_state e = END →
  (∀ x', at_events x' (e :: rest) → xwp (λ fuel, extract_loop fuel tags) (x', r ++ concat (dom_urls tags <$> ds)) Q) →
  xwp (λ fuel, extract_loop fuel tags) (x, r) Q.
Proof.
  induction 1 as [|t ts es ds _ _ IH|name attrs inner cs es ds Hb IH1 _ IH2]; intros tags e rest x r Q Hmax Hx He Hcont.
  - specialize (Hcont x Hx). by rewrite app_nil_r in Hcont.
  - rewrite fmap_cons in Hcont. cbn [dom_urls concat app] in Hcont.
    rewrite <- app_comm_cons, <- app_assoc in Hx. rewrite zlen_cons, zlen_app in Hmax.
    revert t x Hx. induction ts as [|u ts IHts]; intros t x Hx.
    + cbn [fmap list_fmap app] in Hx.
      assert (∃ e' es', es ++ e :: rest = e' :: es') as (e' & es' & E) by (destruct es; eauto).
      rewrite E in Hx. apply (loop_text tags t e' es' x r Q Hx). intros x1 Hx1. rewrite <- E in Hx1.
      apply (IH tags e rest x1 r Q); [change (zlen (XText <$> [])) with 0 in Hmax; lia|done..].
    + rewrite fmap_cons in Hx, Hmax. rewrite zlen_cons in Hmax. apply (loop_text tags t _ _ x r Q Hx). intros x1 Hx1.
      apply (IHts ltac:(lia) u x1). exact Hx1.
  - rewrite fmap_cons in Hcont. cbn [dom_urls concat] in Hcont. rewrite app_assoc in Hcont.
    rewrite <- app_comm_cons, <- app_assoc in Hx. rewrite zlen_cons, zlen_app, zlen_cons in Hmax.
    pose proof (zlen_nonneg inner). pose proof (zlen_nonneg es).
    assert (∃ e' es', es ++ e :: rest = e' :: es') as (e' & es' & E) by (destruct es; eauto).
    destruct (url_kind tags name) as [type|] eqn:Hk.
    + apply (loop_url tags type name attrs inner cs (es ++ e :: rest) x r Q); [done|lia|done|done|].
      intros x1 Hx1. apply (IH2 tags e rest x1 _ Q); [lia|done|done|exact Hcont].
    + assert (∃ e1 es1, inner ++ XEnd :: es ++ e :: rest = e1 :: es1) as (e1 & es1 & E1) by (destruct inner; eauto).
      rewrite <- app_comm_cons, E1 in Hx. apply (loop_start tags name attrs e1 es1 x r Q Hx Hk). intros x1 Hx1. rewrite <- E1 in Hx1.
      apply (IH1 (tags ++ [name]) XEnd (es ++ e :: rest) x1 r Q); [lia|done|done|]. intros x2 Hx2.
      rewrite E in Hx2. apply (loop_end tags name e' es' x2 _ Q Hx2). intros x3 Hx3. rewrite <- E in Hx3.
      apply (IH2 tags e rest x3 _ Q); [lia|done|done|exact Hcont].
Qed.
End proofs.

(** ** Properties *)

(** The prologue that the check accepts: white space and byte order marks. *)
Inductive xml_prologue : bytes → Prop :=
| xml_prologue_tag s : xml_prologue (60 :: s)
| xml_prologue_space c s : c ∈ [0x20; 0x09; 0x0D; 0x0A] → xml_prologue s → xml_prologue (c :: s)
| xml_prologue_mark s : xml_prologue s → xml_prologue (0xEF :: 0xBB :: 0xBF :: s).
Lemma looks_like_xml_spec s : looks_like_xml s = true ↔ xml_prologue s.
Proof.
  split.
  - assert (∀ n s, (length s <= n)%nat → looks_like_xml s = true → xml_prologue s) as Hn; [|by apply (Hn (length s))].
    clear s. induction n as [|n IH]; intros [|c s] Hl Hs; try done; simpl in Hl; [lia|]. cbn [looks_like_xml] in Hs.
    destruct (Z.eqb_spec c 60) as [->|_]; [constructor|].
    destruct ((c =? 32) || (c =? 9) || (c =? 13) || (c =? 10)) eqn:Ew.
    { apply xml_prologue_space; [|apply IH; [lia|done]]. rewrite !elem_of_cons.
      repeat (apply orb_true_iff in Ew as [Ew|Ew]); apply Z.eqb_eq in Ew; tauto. }
    destruct (Z.eqb_spec c 239) as [->|_]; [|done]. destruct s as [|c1 s]; [done|].
    destruct (Z.eqb_spec c1 187) as [->|_]; [|done]. destruct s as [|c2 s]; [done|].
    destruct (Z.eqb_spec c2 191) as [->|_]; [|done]. apply xml_prologue_mark, IH; [simpl in Hl; lia|done].
  - induction 1 as [s|c s Hc _ IH|s _ IH]; [done| |exact IH]. cbn [looks_like_xml].
    rewrite !elem_of_cons, elem_of_nil in Hc. by destruct Hc as [->|[->|[->|[->|[]]]]].
Qed.


