(* ===== verification/ElfLookup.v ===== *)
(** * Choosing the provider of a shared library
    (lib/symboldb/update_elf_closure.cpp, first half)

    The candidates for a SONAME, their rating, the choice between them and the
    suppression of common conflicts.  The closure is computed in ElfClosure.v. *)

From S2P Require Import Prelude StringSupport SortedMap.

(** ** Candidates *)

(** Source: lib/symboldb/update_elf_closure.cpp 36-47, file_ref. *)
Record file_ref := FileRef { id : Z; name : bytes; package : bytes }.
#[global] Instance file_ref_eq_dec : EqDecision file_ref.
Proof. solve_decision. Defined.

(** [strrchr (s, c)] and [rfind]: the offset of the last occurrence. *)
Fixpoint rindex_from (i : Z) (c : Z) (s : bytes) : option Z :=
  match s with
  | [] => None
  | d :: s =>
      match rindex_from (i + 1) c s with
      | Some j => Some j
      | None => if d =? c then Some i else None
      end
  end.
Definition rindex (c : Z) (s : bytes) : option Z := rindex_from 0 c s.

(** The arguments are C strings.
    Source: lib/symboldb/update_elf_closure.cpp 49-61, same_directory. *)
Definition same_directory (left right : bytes) : bool :=
  match rindex 47 left, rindex 47 right with
  | Some l, Some r => (l =? r) && bool_decide (ztake l left = ztake l right)
  | _, _ => false
  end.

(** The loop over the shared initial path.
    Source: lib/symboldb/update_elf_closure.cpp 83-86, file_ref::priority. *)
Fixpoint common_prefix (a b : bytes) : Z :=
  match a, b with
  | x :: a, y :: b => if x =? y then 2 + common_prefix a b else 0
  | _, _ => 0
  end.

(** [needed_path] is a C string; the result is converted to [int].
    Source: lib/symboldb/update_elf_closure.cpp 63-90, file_ref::priority. *)
Definition priority (f : file_ref) (needed_path : bytes) : Z :=
  let cname := until_nul (name f) in
  let prio := if starts_with cname (str "/lib/") || starts_with cname (str "/lib64/")
    || starts_with cname (str "/usr/lib/") || starts_with cname (str "/usr/lib64/") then 100000 else 0 in
  let prio := if same_directory cname needed_path then prio + 10000 else prio in
  let prio := prio + common_prefix (name f) needed_path in
  to_signed 32 (prio - zlen (name f)).

(** ** Ordered multimaps *)

(** [std::multimap<std::string, file_ref>] in iteration order. *)
Abbreviation soname_map := (list (bytes * file_ref)).
Abbreviation arch_soname_map := (smap soname_map).

(** [insert]: behind the elements with the same key. *)
Fixpoint mm_insert (k : bytes) (v : file_ref) (m : soname_map) : soname_map :=
  match m with
  | [] => [(k, v)]
  | (k', v') :: m' => if bytes_ltb k k' then (k, v) :: m else (k', v') :: mm_insert k v m'
  end.
(** [equal_range]: the values with that key, in order. *)
Definition equal_range (k : bytes) (m : soname_map) : list file_ref :=
  snd <$> base.filter (λ kv, kv.1 = k) m.

(** ** The choice *)

(** What is reported to [update_elf_closure_conflicts]. *)
Inductive conflict_report :=
| missing (needing_file : Z) (needed_name : bytes)
| conflict (needing_file : Z) (needed_name : bytes) (choices : list Z).

(** Source: lib/symboldb/update_elf_closure.cpp 136-151, lookup. *)
Fixpoint select_best (needing_path : bytes) (best : file_ref) (best_priority : Z) (ps : list file_ref) : file_ref :=
  match ps with
  | [] => best
  | p :: ps =>
      let prio := priority p needing_path in
      if (best_priority <? prio) || (bool_decide (name p = name best) && bytes_ltb (package p) (package best))
      then select_best needing_path p prio ps
      else select_best needing_path best best_priority ps
  end.

(** The chosen file ([0] for the default [file_id]) and the reports, if there is
    somebody to report to.
    Source: lib/symboldb/update_elf_closure.cpp 98-168, lookup. *)
Definition lookup_soname (arch_soname : arch_soname_map) (arch needed_name : bytes) (needing_file : Z)
    (needing_path : bytes) (conflicts : bool) : Z * list conflict_report :=
  match sm_find arch arch_soname with
  | None => (0, [])
  | Some soname =>
      match equal_range needed_name soname with
      | [] => (0, if conflicts then [missing needing_file needed_name] else [])
      | [best] => (id best, [])
      | (best :: ps) as providers =>
          let best := select_best needing_path best (priority best needing_path) ps in
          (id best, if conflicts then
             [conflict needing_file needed_name (id best :: base.filter (λ fid, fid ≠ id best) (id <$> providers))] else [])
      end
  end.

(** ** Conflicts that are not worth reporting *)

(** Source: lib/symboldb/update_elf_closure.cpp 171-180, ignored_file_name. *)
Definition ignored_file_name (path : bytes) : bool :=
  (starts_with path (str "/lib/")
   && (starts_with path (str "/lib/i686/nosegneg/")
       || (starts_with path (str "/lib/rtkaio/")
           && (starts_with path (str "/lib/rtkaio/librtkaio-")
               || starts_with path (str "/lib/rtkaio/i686/nosegneg/")))))
  || starts_with path (str "/lib64/rtkaio/librtkaio-").

(** Source: lib/symboldb/update_elf_closure.cpp 184-189, ignored_package_name. *)
Definition ignored_package_name (pkg : bytes) : bool :=
  bool_decide (pkg = str "compat-gcc-34-c++") || bool_decide (pkg = str "compat-glibc").

Definition ignored (v : file_ref) : bool := ignored_file_name (name v) || ignored_package_name (package v).

(** The elements from [p] to [q] with the same key, and the rest.
    Source: lib/symboldb/update_elf_closure.cpp 203-213, ignore_some_conflicts. *)
Fixpoint take_group (k : bytes) (m : soname_map) : soname_map * soname_map :=
  match m with
  | (k', v) :: m' =>
      if bool_decide (k' = k) then let '(g, r) := take_group k m' in ((k', v) :: g, r) else ([], m)
  | [] => ([], [])
  end.

(** One map; each round takes a group of at least one element.
    Source: lib/symboldb/update_elf_closure.cpp 200-227, ignore_some_conflicts. *)
Fixpoint ignore_groups (fuel : nat) (m : soname_map) : soname_map :=
  match fuel, m with
  | S fuel, (k, v) :: m' =>
      let '(g, rest) := take_group k m' in
      let g := (k, v) :: g in
      let ignore_queue := base.filter (λ kv, ignored kv.2 = true) g in
      (if zlen ignore_queue + 1 =? zlen g then base.filter (λ kv, ignored kv.2 = false) g else g)
        ++ ignore_groups fuel rest
  | _, _ => m
  end.

(** Source: lib/symboldb/update_elf_closure.cpp 193-229, ignore_some_conflicts. *)
Definition ignore_some_conflicts (arch : arch_soname_map) : arch_soname_map :=
  (λ kv, (kv.1, ignore_groups (length kv.2) kv.2)) <$> arch.

(** Source: lib/symboldb/update_elf_closure.cpp 231-239, synthesize_soname. *)
Definition synthesize_soname (path : bytes) : bytes :=
  match rindex 47 path with None => path | Some slash => zdrop (slash + 1) path end.

(** A row of the first query.  [arch_soname[arch].insert (...)].
    Source: lib/symboldb/update_elf_closure.cpp 263-278, update_elf_closure. *)
Definition add_provider (m : arch_soname_map) (row : bytes * bytes * Z * bytes * bytes) : arch_soname_map :=
  let '(arch, soname, fid, file_name, pkg) := row in
  let soname := if bool_decide (soname = []) then synthesize_soname file_name else soname in
  sm_set arch (mm_insert soname (FileRef fid file_name pkg) (default [] (sm_find arch m))) m.
Definition providers_of (rows : list (bytes * bytes * Z * bytes * bytes)) : arch_soname_map :=
  foldl add_provider [] rows.

(** ** Lemmas *)

Lemma equal_range_cons k k' v m : equal_range k ((k', v) :: m) = (if bool_decide (k' = k) then [v] else []) ++ equal_range k m.
Proof. unfold equal_range. rewrite filter_cons. cbn [fst]. by destruct (decide (k' = k)) as [E|E]; [rewrite bool_decide_eq_true_2|rewrite bool_decide_eq_false_2]. Qed.
Lemma equal_range_app k m m' : equal_range k (m ++ m') = equal_range k m ++ equal_range k m'.
Proof. unfold equal_range. by rewrite filter_app, fmap_app. Qed.

(** The order of the multimap. *)
Definition mm_sorted (m : soname_map) : Prop := StronglySorted (λ a b, bytes_ltb b.1 a.1 = false) m.
Lemma bytes_leb_trans a b c : bytes_ltb b a = false → bytes_ltb c b = false → bytes_ltb c a = false.
Proof.
  intros H1 H2. destruct (bytes_ltb c a) eqn:E; [|done].
  destruct (bytes_ltb a b) eqn:E2; [by rewrite (bytes_ltb_trans _ _ _ E E2) in H2|].
  assert (a = b) as -> by by apply bytes_ltb_total. congruence.
Qed.
Lemma mm_insert_in k v m x : x ∈ mm_insert k v m ↔ x = (k, v) ∨ x ∈ m.
Proof.
  induction m as [|[k' v'] m IH]; cbn [mm_insert]; [by rewrite list_elem_of_singleton, elem_of_nil; tauto|].
  destruct (bytes_ltb k k'); rewrite !elem_of_cons, ?IH; tauto.
Qed.
Lemma mm_insert_sorted k v m : mm_sorted m → mm_sorted (mm_insert k v m).
Proof.
  induction 1 as [|[k' v'] m Hs IH Hall]; cbn [mm_insert]; [by repeat constructor|].
  destruct (bytes_ltb k k') eqn:E.
  - assert (bytes_ltb k' k = false) as E'.
    { destruct (bytes_ltb k' k) eqn:E2; [|done]. by rewrite <- (bytes_ltb_irrefl k), (bytes_ltb_trans _ _ _ E E2). }
    constructor; [by constructor|]. apply Forall_cons; split; [done|].
    eapply Forall_impl; [exact Hall|]. intros [j w]. cbn. intros Hj. by eapply bytes_leb_trans.
  - constructor; [done|]. apply Forall_forall. intros x [->|Hx]%mm_insert_in; [done|].
    rewrite Forall_forall in Hall. by apply Hall.
Qed.
(** Keys above the range do not count. *)
Lemma equal_range_above k m : Forall (λ kv, kv.1 ≠ k) m → equal_range k m = [].
Proof.
  induction 1 as [|[k' v] m Hk _ IH]; [done|]. rewrite equal_range_cons, IH, bool_decide_eq_false_2; done.
Qed.
Lemma sorted_above (k k' : bytes) v m : mm_sorted ((k', v) :: m) → bytes_ltb k k' = true →
  Forall (λ kv, kv.1 ≠ k) ((k', v) :: m).
Proof.
  intros Hs E. inversion Hs as [|? ? _ Hall]; subst. apply Forall_cons; split.
  - cbn. intros ->. by rewrite bytes_ltb_irrefl in E.
  - eapply Forall_impl; [exact Hall|]. intros [j w] Hj E2. cbn in *. subst j. congruence.
Qed.
Lemma equal_range_insert k k' v m : mm_sorted m →
  equal_range k (mm_insert k' v m) = equal_range k m ++ (if bool_decide (k' = k) then [v] else []).
Proof.
  intros Hs. induction Hs as [|[j w] m Hs IH Hall]; cbn [mm_insert]; [by rewrite equal_range_cons, app_nil_r|].
  destruct (bytes_ltb k' j) eqn:E.
  - rewrite equal_range_cons. destruct (bool_decide_reflect (k' = k)) as [->|]; [|by rewrite app_nil_r].
    rewrite (equal_range_above k ((j, w) :: m)); [done|]. eapply sorted_above; [by constructor|done].
  - rewrite !equal_range_cons, IH. by rewrite app_assoc.
Qed.

(** One non-ignored candidate alone remains; otherwise all do. *)
Definition suppress (cs : list file_ref) : list file_ref :=
  match base.filter (λ v, ignored v = false) cs with [v] => [v] | _ => cs end.

Lemma filter_counts (g : soname_map) :
  zlen (base.filter (λ kv, ignored kv.2 = true) g) + zlen (base.filter (λ kv, ignored kv.2 = false) g) = zlen g.
Proof.
  induction g as [|[k v] g IH]; [done|]. rewrite !filter_cons. cbn [snd].
  destruct (ignored v) eqn:E; repeat case_decide; try congruence; rewrite !zlen_cons; lia.
Qed.
Lemma equal_range_filter k g : equal_range k (base.filter (λ kv, ignored kv.2 = false) g) =
  base.filter (λ v, ignored v = false) (equal_range k g).
Proof.
  induction g as [|[j v] g IH]; [done|]. rewrite (equal_range_cons k j v g), filter_app, <- IH, filter_cons. cbn [snd].
  destruct (decide (ignored v = false)) as [E|E].
  - rewrite equal_range_cons. destruct (bool_decide (j = k)); [|done]. by rewrite filter_cons_True.
  - destruct (bool_decide (j = k)); [|done]. by rewrite filter_cons_False.
Qed.
Lemma equal_range_same k g : Forall (λ kv, kv.1 = k) g → equal_range k g = snd <$> g.
Proof.
  induction 1 as [|[j v] g Hj _ IH]; [done|]. cbn in Hj. subst j.
  by rewrite equal_range_cons, bool_decide_eq_true_2, IH.
Qed.

Lemma take_group_spec k m : mm_sorted m → Forall (λ kv, bytes_ltb kv.1 k = false) m → ∃ g rest,
  take_group k m = (g, rest) ∧ m = g ++ rest ∧ Forall (λ kv, kv.1 = k) g ∧ Forall (λ kv, kv.1 ≠ k) rest.
Proof.
  induction 1 as [|[j v] m Hs IH Hall]; intros Hge; cbn [take_group]; [by exists [], []|].
  apply Forall_cons in Hge as [Hj Hge]. cbn in Hj.
  destruct (bool_decide_reflect (j = k)) as [->|Hne].
  - destruct (IH Hge) as (g & rest & -> & -> & Hg & Hr). exists ((k, v) :: g), rest. split_and!; try done. by constructor.
  - exists [], ((j, v) :: m). split_and!; try done. eapply sorted_above; [by constructor|].
    destruct (bytes_ltb k j) eqn:E; [done|]. by destruct Hne; apply bytes_ltb_total.
Qed.

Lemma ignore_groups_spec k fuel : ∀ m, (length m <= fuel)%nat → mm_sorted m →
  equal_range k (ignore_groups fuel m) = suppress (equal_range k m).
Proof.
  induction fuel as [|fuel IH]; intros [|[j v] m] Hf Hs; try done; [simpl in Hf; lia|]. cbn [ignore_groups].
  inversion Hs as [|? ? Hs' Hall]; subst.
  destruct (take_group_spec j m Hs' Hall) as (g & rest & -> & -> & Hg & Hr).
  rewrite app_comm_cons. rewrite !equal_range_app. rewrite IH; [|simpl in Hf; rewrite length_app in Hf; lia|].
  2: { apply StronglySorted_app_1_r in Hs'. exact Hs'. }
  assert (Forall (λ kv, kv.1 = j) ((j, v) :: g)) as Hg' by by constructor.
  set (gg := (j, v) :: g) in *.
  destruct (decide (j = k)) as [->|Hne].
  - rewrite (equal_range_above k rest Hr), app_nil_r. change (suppress []) with (@nil file_ref). rewrite app_nil_r.
    pose proof (filter_counts gg) as Hcount. unfold suppress. rewrite <- equal_range_filter.
    assert (Forall (λ kv, kv.1 = k) (base.filter (λ kv, ignored kv.2 = false) gg)) as Hff.
    { apply Forall_forall. intros x [_ Hx]%list_elem_of_filter. rewrite Forall_forall in Hg'. by apply Hg'. }
    rewrite (equal_range_same _ _ Hff).
    destruct (Z.eqb_spec (zlen (base.filter (λ kv, ignored kv.2 = true) gg) + 1) (zlen gg)) as [E|E].
    + rewrite (equal_range_same _ _ Hff). rewrite <- E in Hcount.
      destruct (base.filter (λ kv, ignored kv.2 = false) gg) as [|x [|y l]]; [change (zlen []) with 0 in Hcount; lia|done|].
      rewrite !zlen_cons in Hcount. pose proof (zlen_nonneg l). lia.
    + rewrite (equal_range_same _ _ Hg'). destruct (base.filter (λ kv, ignored kv.2 = false) gg) as [|? [|? l]]; try done.
  - assert (∀ l, Forall (λ kv, kv.1 = j) l → equal_range k l = []) as Hnil.
    { intros l Hl. apply equal_range_above. eapply Forall_impl; [exact Hl|]. intros [] ->. cbn. done. }
    rewrite (Hnil gg Hg'). cbn [app]. destruct (_ =? _); rewrite Hnil; try done.
    apply Forall_forall. intros x [_ Hx]%list_elem_of_filter. rewrite Forall_forall in Hg'. by apply Hg'.
Qed.

(** The rows of the query for an architecture and a SONAME, in order. *)
Definition row_soname (row : bytes * bytes * Z * bytes * bytes) : bytes :=
  let '(_, soname, _, file_name, _) := row in if bool_decide (soname = []) then synthesize_soname file_name else soname.
Definition row_matches (arch soname : bytes) (row : bytes * bytes * Z * bytes * bytes) : bool :=
  bool_decide (row.1.1.1.1 = arch) && bool_decide (row_soname row = soname).
Definition row_file (row : bytes * bytes * Z * bytes * bytes) : file_ref := FileRef row.1.1.2 row.1.2 row.2.
Definition candidates (rows : list (bytes * bytes * Z * bytes * bytes)) (arch soname : bytes) : list file_ref :=
  row_file <$> base.filter (λ row, row_matches arch soname row = true) rows.

Lemma candidates_snoc rows row arch soname : candidates (rows ++ [row]) arch soname =
  candidates rows arch soname ++ (if row_matches arch soname row then [row_file row] else []).
Proof.
  unfold candidates. rewrite filter_app, filter_cons, filter_nil, fmap_app. f_equal.
  destruct (row_matches arch soname row); by case_decide.
Qed.

Lemma providers_of_spec rows : ∀ arch,
  mm_sorted (default [] (sm_find arch (providers_of rows))) ∧
  ∀ soname, equal_range soname (default [] (sm_find arch (providers_of rows))) = candidates rows arch soname.
Proof.
  unfold providers_of. induction rows as [|row rows IH] using rev_ind; intros arch; [by split; [constructor|]|].
  destruct row as [[[[a s] fid] f] pkg]. rewrite foldl_app. cbn [foldl add_provider].
  set (m := foldl add_provider [] rows) in *. set (s' := if bool_decide (s = []) then _ else s).
  destruct (IH a) as [Hsa Hea]. destruct (IH arch) as [Hs He].
  rewrite sm_find_set. setoid_rewrite candidates_snoc.
  destruct (bool_decide_reflect (arch = a)) as [->|Hne]; cbv [from_option Datatypes.id].
  - split; [by apply mm_insert_sorted|]. intros soname. rewrite equal_range_insert by done.
    rewrite Hea. f_equal. unfold row_matches, row_file. change (row_soname (a, s, fid, f, pkg)) with s'. cbn [fst snd].
    rewrite (bool_decide_eq_true_2 (a = a)) by done. cbn [andb]. by destruct (bool_decide (s' = soname)).
  - split; [done|]. intros soname. rewrite He. unfold row_matches. cbn [fst snd].
    rewrite (bool_decide_eq_false_2 (a = arch)) by congruence. cbn [andb]. by rewrite app_nil_r.
Qed.

(** What [select_best] guarantees about its winner. *)
Definition wins (path : bytes) (best : file_ref) (ps : list file_ref) : Prop :=
  best ∈ ps ∧ ∀ p, p ∈ ps → priority p path <= priority best path ∧
    (name p = name best → bytes_ltb (package p) (package best) = false).
Lemma priority_name p q path : name p = name q → priority p path = priority q path.
Proof. intros E. unfold priority. by rewrite E. Qed.
Lemma select_best_wins path ps : ∀ best seen, wins path best seen →
  wins path (select_best path best (priority best path) ps) (seen ++ ps).
Proof.
  induction ps as [|p ps IH]; intros best seen [Hin Hall]; [by rewrite app_nil_r|].
  rewrite (cons_middle p), app_assoc. cbn [select_best].
  destruct ((priority best path <? priority p path) ||
    (bool_decide (name p = name best) && bytes_ltb (package p) (package best))) eqn:E; apply IH; split.
  - apply elem_of_app. right. by apply list_elem_of_singleton.
  - intros q [Hq| ->%list_elem_of_singleton]%elem_of_app; [|by rewrite bytes_ltb_irrefl].
    destruct (Hall q Hq) as [Hp Hn]. apply orb_true_iff in E as [E%Z.ltb_lt|[En Ep]%andb_true_iff].
    + split; [lia|]. intros En. rewrite (priority_name q p path En) in Hp. lia.
    + apply bool_decide_eq_true in En. split; [by rewrite (priority_name p best path En)|].
      intros Eq. destruct (bytes_ltb (package q) (package p)) eqn:El; [|done].
      rewrite <- Hn by congruence. by rewrite (bytes_ltb_trans _ _ _ El Ep).
  - apply elem_of_app. by left.
  - apply orb_false_iff in E as [Ep%Z.ltb_ge En].
    intros q [Hq| ->%list_elem_of_singleton]%elem_of_app; [by apply Hall|]. split; [done|].
    intros Hn. by rewrite bool_decide_eq_true_2 in En.
Qed.

(** ** Properties *)

(** After the providers have been loaded and the common conflicts suppressed,
    the candidates for a SONAME on an architecture are exactly the rows of the
    query for it (a library without SONAME counts under its file name), in
    order, except that a single candidate which is not to be ignored displaces
    all those that are; so suppression never removes the last candidate. *)
Theorem elf_candidates_spec (rows : list (bytes * bytes * Z * bytes * bytes)) (arch soname : bytes) :
  equal_range soname (default [] (sm_find arch (ignore_some_conflicts (providers_of rows)))) =
    suppress (candidates rows arch soname) ∧
  (suppress (candidates rows arch soname) = [] ↔ candidates rows arch soname = []).
Proof.
  split.
  - destruct (providers_of_spec rows arch) as [Hs He]. rewrite <- He.
    assert (∀ m : arch_soname_map, sm_find arch (ignore_some_conflicts m) =
      (λ g, ignore_groups (length g) g) <$> sm_find arch m) as ->.
    { unfold ignore_some_conflicts. induction m as [|[a g] m IH]; [done|]. rewrite fmap_cons. cbn [sm_find fst snd].
      by destruct (bool_decide (arch = a)). }
    destruct (sm_find arch (providers_of rows)) as [g|]; [|done]. cbv [fmap option_fmap option_map from_option Datatypes.id] in *.
    by apply ignore_groups_spec.
  - unfold suppress. destruct (base.filter _ _) as [|v [|]] eqn:E; try done. split; [done|].
    intros Hc. by rewrite Hc in E.
Qed.

(** [lookup] reports a missing library exactly when the architecture has
    providers but none for the SONAME.  Otherwise it returns one of the
    candidates: one that no candidate outranks, and among those with its own
    path name, one of the package with the smallest name.  With two or more
    candidates, the conflict report lists the winner first and then all the
    other files. *)
Theorem lookup_soname_spec (m : arch_soname_map) (arch soname path : bytes) (file : Z) (conflicts : bool) :
  let ps := equal_range soname (default [] (sm_find arch m)) in
  let '(chosen, reports) := lookup_soname m arch soname file path conflicts in
  (ps = [] → chosen = 0 ∧ reports = if conflicts && bool_decide (is_Some (sm_find arch m)) then [missing file soname] else []) ∧
  (ps ≠ [] → ∃ best, chosen = id best ∧ wins path best ps ∧
    match reports with
    | [] => conflicts = false ∨ zlen ps = 1
    | [conflict f s choices] => f = file ∧ s = soname ∧ 2 <= zlen ps ∧
        choices = id best :: base.filter (λ fid, fid ≠ id best) (id <$> ps)
    | _ => False
    end).
Proof.
  intros ps. unfold lookup_soname. destruct (sm_find arch m) as [g|] eqn:Em; cbv [from_option Datatypes.id] in ps.
  2: { split; [|done]. intros _. rewrite bool_decide_eq_false_2 by (by intros []). by rewrite andb_false_r. }
  rewrite bool_decide_eq_true_2, andb_true_r by done. fold ps. destruct ps as [|best [|p ps']] eqn:Eps; (split; [|done] || (split; [done|])).
  - done.
  - intros _. exists best. split_and!; [done| |by right]. split; [by left|].
    intros q ->%list_elem_of_singleton. by rewrite bytes_ltb_irrefl.
  - intros _. eexists. split; [done|]. split.
    + apply (select_best_wins path (p :: ps') best [best]). split; [by left|].
      intros q ->%list_elem_of_singleton. by rewrite bytes_ltb_irrefl.
    + destruct conflicts; [|by left]. split_and!; [done..| |done]. rewrite !zlen_cons. pose proof (zlen_nonneg ps'). lia.
Qed.

(** Two packages with the file at the same path, one library elsewhere. *)
Definition sample_rows : list (bytes * bytes * Z * bytes * bytes) :=
  [(str "x86_64", str "libc.so.6", 1, str "/opt/lib/libc.so.6", str "other");
   (str "x86_64", str "libc.so.6", 2, str "/lib64/libc.so.6", str "glibc32");
   (str "x86_64", [], 3, str "/lib64/libc.so.6", str "glibc")].
Example lookup_soname_spec_witness :
  let m := ignore_some_conflicts (providers_of sample_rows) in
  lookup_soname m (str "x86_64") (str "libc.so.6") 9 (str "/usr/bin/ls") true =
    (3, [conflict 9 (str "libc.so.6") [3; 1; 2]]) ∧
  wins (str "/usr/bin/ls") (FileRef 3 (str "/lib64/libc.so.6") (str "glibc"))
    (equal_range (str "libc.so.6") (default [] (sm_find (str "x86_64") m))).
Proof.
  intros m. split; [vm_compute; reflexivity|].
  pose proof (lookup_soname_spec m (str "x86_64") (str "libc.so.6") (str "/usr/bin/ls") 9 true) as H.
  cbv zeta in H. destruct (lookup_soname m _ _ _ _ _) as [chosen reports] eqn:E.
  destruct H as [_ H]. destruct H as (best & Hc & Hw & _); [vm_compute; discriminate|].
  assert (chosen = 3) as E3 by (vm_compute in E; congruence). rewrite E3 in Hc.
  replace (FileRef 3 (str "/lib64/libc.so.6") (str "glibc")) with best; [exact Hw|].
  destruct Hw as [Hin _].
  replace (equal_range _ _) with (row_file <$>
    [(str "x86_64", str "libc.so.6", 1, str "/opt/lib/libc.so.6", str "other");
     (str "x86_64", str "libc.so.6", 2, str "/lib64/libc.so.6", str "glibc32");
     (str "x86_64", [], 3, str "/lib64/libc.so.6", str "glibc")]) in Hin by (vm_compute; reflexivity).
  cbn [fmap list_fmap] in Hin. rewrite !elem_of_cons, elem_of_nil in Hin.
  destruct Hin as [->|[->|[->|[]]]]; vm_compute in Hc; [discriminate|discriminate|reflexivity].
Defined.
