(* ===== verification/ElfClosure.v ===== *)
(** * The dependency closure of ELF files
    (lib/symboldb/update_elf_closure.cpp, second half)

    The direct dependencies are computed from the query results with the lookup
    of ElfLookup.v, closed under transitivity in place, and written in the COPY
    format.  The [elements] counter of the code only feeds disabled debugging
    output and is left out; the SQL statements at the end belong to the database. *)

From S2P Require Import Prelude SortedMap ElfLookup.

(** ** Sets and maps of file IDs, in iteration order *)

(** [std::set<file_id>::insert]. *)
Fixpoint zs_insert (x : Z) (s : list Z) : list Z :=
  match s with
  | [] => [x]
  | y :: s' => if x <? y then x :: s else if x =? y then s else y :: zs_insert x s'
  end.
Definition zs_mem (x : Z) (s : list Z) : bool := existsb (Z.eqb x) s.

(** An iterator: the element it is at, or [None] before the first.  Iterators of
    a set stay valid, and see new elements, when others are inserted. *)
Definition after (cur : option Z) (x : Z) : bool :=
  match cur with None => true | Some c => c <? x end.
Definition next_elem (cur : option Z) (s : list Z) : option Z := List.find (after cur) s.

Abbreviation dependency_map := (list (Z * list Z)).
Fixpoint dm_find (k : Z) (m : dependency_map) : option (list Z) :=
  match m with
  | [] => None
  | (k', s) :: m => if k =? k' then Some s else dm_find k m
  end.
(** The set of an existing key changes. *)
Fixpoint dm_update (k : Z) (f : list Z → list Z) (m : dependency_map) : dependency_map :=
  match m with
  | [] => []
  | (k', s) :: m => if k =? k' then (k', f s) :: m else (k', s) :: dm_update k f m
  end.
(** [closure[k].insert (x)] *)
Fixpoint dm_insert (k x : Z) (m : dependency_map) : dependency_map :=
  match m with
  | [] => [(k, [x])]
  | (k', s) :: m' =>
      if k <? k' then (k, [x]) :: m
      else if k =? k' then (k', zs_insert x s) :: m'
      else (k', s) :: dm_insert k x m'
  end.
Definition deps (m : dependency_map) (k : Z) : list Z := default [] (dm_find k m).

(** ** Direct dependencies *)

Abbreviation needed_row := (bytes * bytes * Z * bytes)%type.

(** Source: lib/symboldb/update_elf_closure.cpp 297-307, update_elf_closure. *)
Definition add_needed (arch_soname : smap soname_map) (conflicts : bool)
    (acc : dependency_map * list conflict_report) (row : needed_row) : dependency_map * list conflict_report :=
  let '(closure, reports) := acc in
  let '(arch, needed_name, fid, needing_path) := row in
  let '(library, r) := lookup_soname arch_soname arch needed_name fid (until_nul needing_path) conflicts in
  (if library =? 0 then closure else dm_insert fid library closure, reports ++ r).

(** ** The fixpoint *)

(** The innermost loop.  When [dep] is the set that is being extended, all
    insertions find their element present, so iterating over its old elements
    is the same.
    Source: lib/symboldb/update_elf_closure.cpp 333-339, update_elf_closure. *)
Fixpoint insert_all (needing : Z) (depdeps : list Z) (m : dependency_map) (changed : bool) : dependency_map * bool :=
  match depdeps with
  | [] => (m, changed)
  | e :: depdeps =>
      let new_element := negb (zs_mem e (deps m needing)) in
      insert_all needing depdeps (dm_update needing (zs_insert e) m) (changed || new_element)
  end.

(** The loop over the dependencies of a file, whose set grows meanwhile.
    Source: lib/symboldb/update_elf_closure.cpp 326-341, update_elf_closure. *)
Fixpoint visit (fuel : nat) (needing : Z) (cur : option Z) (m : dependency_map) (changed : bool)
    : option (dependency_map * bool) :=
  match fuel with
  | O => None
  | S fuel =>
      match next_elem cur (deps m needing) with
      | None => Some (m, changed)
      | Some d =>
          let '(m, changed) :=
            match dm_find d m with Some dep => insert_all needing dep m changed | None => (m, changed) end in
          visit fuel needing (Some d) m changed
      end
  end.

(** One iteration over the files; the keys of the map do not change.
    Source: lib/symboldb/update_elf_closure.cpp 322-342, update_elf_closure. *)
Fixpoint pass (fuel : nat) (keys : list Z) (m : dependency_map) (changed : bool) : option (dependency_map * bool) :=
  match keys with
  | [] => Some (m, changed)
  | needing :: keys =>
      match visit fuel needing None m changed with
      | None => None
      | Some (m, changed) => pass fuel keys m changed
      end
  end.

(** Source: lib/symboldb/update_elf_closure.cpp 311-343, update_elf_closure. *)
Fixpoint closure_loop (rounds fuel : nat) (m : dependency_map) : option dependency_map :=
  match rounds with
  | O => None
  | S rounds =>
      match pass fuel (fst <$> m) m false with
      | None => None
      | Some (m, true) => closure_loop rounds fuel m
      | Some (m, false) => Some m
      end
  end.

(** ** Upload *)

(** The line of the COPY format for a pair of files. *)
Definition upload_line (p : Z * Z) : bytes := dec p.1 ++ [9] ++ dec p.2 ++ [10].

(** The buffers passed to [putCopyData].
    Source: lib/symboldb/update_elf_closure.cpp 363-390, update_elf_closure. *)
Fixpoint upload_rows (rows : list (Z * Z)) (upload : bytes) : list bytes :=
  match rows with
  | [] => if bool_decide (upload = []) then [] else [upload]
  | row :: rows =>
      let upload := upload ++ upload_line row in
      if 131072 <? zlen upload then upload :: upload_rows rows [] else upload_rows rows upload
  end.

Definition dm_row (ks : Z * list Z) : list (Z * Z) := pair ks.1 <$> ks.2.
Definition dm_pairs (m : dependency_map) : list (Z * Z) := concat (dm_row <$> m).

(** The reports and, unless the caller skips the update, the uploaded data;
    [providers] and [needed] are the results of the two queries.
    Source: lib/symboldb/update_elf_closure.cpp 242-408, update_elf_closure. *)
Definition update_elf_closure (rounds fuel : nat) (providers : list (bytes * bytes * Z * bytes * bytes))
    (needed : list needed_row) (conflicts skip_update : bool) : option (list conflict_report * option (list bytes)) :=
  let arch_soname := ignore_some_conflicts (providers_of providers) in
  let '(closure, reports) := foldl (add_needed arch_soname conflicts) ([], []) needed in
  match closure_loop rounds fuel closure with
  | None => None
  | Some closure => Some (reports, if conflicts && skip_update then None else Some (upload_rows (dm_pairs closure) []))
  end.

(** ** Lemmas on sets *)

Definition zs_sorted (s : list Z) : Prop := StronglySorted Z.lt s.
Lemma zs_mem_spec x s : zs_mem x s = true ↔ x ∈ s.
Proof.
  unfold zs_mem. rewrite existsb_exists. setoid_rewrite Z.eqb_eq. setoid_rewrite <- list_elem_of_In.
  split; [by intros (y & Hy & ->)|eauto].
Qed.
Lemma zs_insert_elem x s y : y ∈ zs_insert x s ↔ y = x ∨ y ∈ s.
Proof.
  induction s as [|z s IH]; cbn [zs_insert]; [by rewrite list_elem_of_singleton, elem_of_nil; tauto|].
  destruct (Z.ltb_spec x z); [rewrite !elem_of_cons; tauto|].
  destruct (Z.eqb_spec x z) as [->|]; rewrite !elem_of_cons, ?IH; tauto.
Qed.
Lemma zs_insert_sorted x s : zs_sorted s → zs_sorted (zs_insert x s).
Proof.
  induction 1 as [|z s Hs IH Hall]; cbn [zs_insert]; [by repeat constructor|].
  destruct (Z.ltb_spec x z) as [Hlt|Hge].
  - constructor; [by constructor|]. constructor; [done|]. eapply Forall_impl; [exact Hall|]. cbn. lia.
  - destruct (Z.eqb_spec x z) as [->|Hne]; [by constructor|]. constructor; [done|].
    apply Forall_forall. intros y [->|Hy]%zs_insert_elem; [lia|]. rewrite Forall_forall in Hall. by apply Hall.
Qed.
Lemma zs_insert_mem x s : zs_sorted s → x ∈ s → zs_insert x s = s.
Proof.
  induction 1 as [|z s Hs IH Hall]; [by intros ?%elem_of_nil|]. cbn [zs_insert]. intros [->|Hx]%elem_of_cons.
  - by rewrite Z.ltb_irrefl, Z.eqb_refl.
  - rewrite Forall_forall in Hall. specialize (Hall x Hx). destruct (Z.ltb_spec x z); [lia|].
    destruct (Z.eqb_spec x z); [lia|]. by rewrite IH.
Qed.
Lemma zs_insert_new x s : x ∉ s → length (zs_insert x s) = S (length s).
Proof.
  induction s as [|z s IH]; [done|]. intros Hx. cbn [zs_insert]. apply not_elem_of_cons in Hx as [Hne Hx].
  destruct (Z.ltb_spec x z); [done|]. destruct (Z.eqb_spec x z); [done|]. simpl. by rewrite IH.
Qed.
Lemma zs_sorted_NoDup s : zs_sorted s → NoDup s.
Proof.
  induction 1 as [|z s _ IH Hall]; constructor; [|done]. intros Hz. rewrite Forall_forall in Hall.
  specialize (Hall z Hz). lia.
Qed.

(** The iterator moves to the next element in order. *)
Lemma next_elem_spec cur s : zs_sorted s →
  match next_elem cur s with
  | Some d => d ∈ s ∧ after cur d = true ∧ ∀ x, x ∈ s → after cur x = true → x = d ∨ after (Some d) x = true
  | None => ∀ x, x ∈ s → after cur x = false
  end.
Proof.
  unfold next_elem. induction 1 as [|z s Hs IH Hall]; cbn [List.find]; [by intros x ?%elem_of_nil|].
  destruct (after cur z) eqn:E.
  - split_and!; [by left|done|]. intros x [->|Hx]%elem_of_cons Ha; [by left|right].
    rewrite Forall_forall in Hall. cbn. apply Z.ltb_lt. by apply Hall.
  - destruct (List.find (after cur) s) as [d|].
    + destruct IH as (Hd & Ha & Hn). split_and!; [by right|done|]. intros x [->|Hx]%elem_of_cons; [congruence|by apply Hn].
    + intros x [->|Hx]%elem_of_cons; [done|by apply IH].
Qed.

(** ** Lemmas on maps *)

Definition dm_wf (m : dependency_map) : Prop := Forall (λ ks, zs_sorted ks.2) m.
Fixpoint dm_size (m : dependency_map) : nat :=
  match m with [] => 0%nat | (_, s) :: m => (length s + dm_size m)%nat end.

Lemma dm_find_key k m : k ∈ (fst <$> m) ↔ is_Some (dm_find k m).
Proof.
  induction m as [|[k' s] m IH]; [by rewrite elem_of_nil; split; [|intros []]|].
  rewrite fmap_cons, elem_of_cons. cbn [fst dm_find]. destruct (Z.eqb_spec k k'); [naive_solver|]. rewrite IH. naive_solver.
Qed.
Lemma deps_sorted m k : dm_wf m → zs_sorted (deps m k).
Proof.
  unfold deps. induction 1 as [|[k' s] m Hs _ IH]; [constructor|]. cbn [dm_find]. by destruct (k =? k').
Qed.
Lemma deps_key m k d : d ∈ deps m k → k ∈ (fst <$> m).
Proof. unfold deps. rewrite dm_find_key. destruct (dm_find k m); [eauto|]. by intros ?%elem_of_nil. Qed.
Lemma deps_cons k k' s m : deps ((k', s) :: m) k = if k =? k' then s else deps m k.
Proof. unfold deps. cbn [dm_find]. by destruct (k =? k'). Qed.
Lemma dm_update_keys k f m : fst <$> dm_update k f m = fst <$> m.
Proof.
  induction m as [|[k' s] m IH]; [done|]. cbn [dm_update]. destruct (k =? k'); [done|]. rewrite !fmap_cons. by rewrite IH.
Qed.
Lemma deps_update k f m j : k ∈ (fst <$> m) → deps (dm_update k f m) j = if j =? k then f (deps m k) else deps m j.
Proof.
  induction m as [|[k' s] m IH]; [by intros ?%elem_of_nil|]. rewrite fmap_cons, elem_of_cons. cbn [fst dm_update]. intros Hk.
  destruct (Z.eqb_spec k k') as [->|Hne].
  - rewrite !deps_cons, Z.eqb_refl. by destruct (j =? k').
  - rewrite !deps_cons, IH by (by destruct Hk). rewrite (proj2 (Z.eqb_neq k k') Hne).
    destruct (Z.eqb_spec j k'); [|done]. destruct (Z.eqb_spec j k); [congruence|done].
Qed.
Lemma dm_update_wf k f m : dm_wf m → (∀ s, zs_sorted s → zs_sorted (f s)) → dm_wf (dm_update k f m).
Proof.
  intros Hm Hf. induction Hm as [|[k' s] m Hs Hm IH]; [constructor|]. cbn [dm_update].
  destruct (k =? k'); (constructor; [cbn in *; auto|done]).
Qed.
Lemma dm_update_id k f m : f (deps m k) = deps m k → dm_update k f m = m.
Proof.
  induction m as [|[k' s] m IH]; [done|]. rewrite deps_cons. cbn [dm_update].
  destruct (k =? k'); intros E; [by rewrite E|by rewrite IH].
Qed.
Lemma dm_update_size k f m : k ∈ (fst <$> m) → length (f (deps m k)) = S (length (deps m k)) →
  dm_size (dm_update k f m) = S (dm_size m).
Proof.
  induction m as [|[k' s] m IH]; [by intros ?%elem_of_nil|]. rewrite fmap_cons, elem_of_cons, deps_cons. cbn [fst dm_update].
  intros Hk. destruct (Z.eqb_spec k k') as [->|Hne]; cbn [dm_size]; [lia|]. intros Hl. rewrite IH; [lia|by destruct Hk|done].
Qed.

(** ** Progress of the iteration *)

(** The dependencies as a relation, and what the loops preserve: relative to the
    relation [R0] of the start, only consequences are added. *)
Definition edges (m : dependency_map) (k d : Z) : Prop := d ∈ deps m k.
Definition consequences (R0 : Z → Z → Prop) (m : dependency_map) : Prop := ∀ k d, edges m k d → tc R0 k d.

Record progress (R0 : Z → Z → Prop) (m : dependency_map) (c : bool) (m' : dependency_map) (c' : bool) : Prop := {
  pr_keys : fst <$> m' = fst <$> m;
  pr_wf : dm_wf m → dm_wf m';
  pr_grows k d : edges m k d → edges m' k d;
  pr_sound : dm_wf m → consequences R0 m → consequences R0 m';
  pr_outcome : m' = m ∧ c' = c ∨ c' = true ∧ (dm_size m < dm_size m')%nat
}.
Lemma progress_refl R0 m c : progress R0 m c m c.
Proof. split; auto. Qed.
Lemma progress_trans R0 m1 c1 m2 c2 m3 c3 :
  progress R0 m1 c1 m2 c2 → progress R0 m2 c2 m3 c3 → progress R0 m1 c1 m3 c3.
Proof.
  intros [K1 W1 G1 S1 O1] [K2 W2 G2 S2 O2]. split; [congruence|auto..|].
  destruct O1 as [[-> ->]|[-> H1]]; [done|]. right. destruct O2 as [[-> ->]|[-> H2]]; [done|]. split; [done|lia].
Qed.

Lemma insert_all_progress R0 k : ∀ es m c, k ∈ (fst <$> m) → (∀ e, e ∈ es → tc R0 k e) → dm_wf m →
  let '(m', c') := insert_all k es m c in progress R0 m c m' c' ∧ ∀ e, e ∈ es → edges m' k e.
Proof.
  induction es as [|e es IH]; intros m c Hk Htc Hwf; cbn [insert_all].
  { split; [apply progress_refl|by intros e ?%elem_of_nil]. }
  set (m1 := dm_update k (zs_insert e) m). set (c1 := c || negb (zs_mem e (deps m k))).
  pose proof (deps_sorted m k Hwf) as Hsk.
  assert (progress R0 m c m1 c1) as Hp.
  { split.
    - apply dm_update_keys.
    - intros _. apply dm_update_wf; [done|apply zs_insert_sorted].
    - intros j d. unfold edges, m1. rewrite deps_update by done. destruct (Z.eqb_spec j k) as [->|]; [|done].
      rewrite zs_insert_elem. by right.
    - intros _ Hc j d. unfold edges, m1. rewrite deps_update by done. destruct (Z.eqb_spec j k) as [->|]; [|by apply Hc].
      intros [->|Hd]%zs_insert_elem; [apply Htc; by left|by apply Hc].
    - unfold m1, c1. destruct (zs_mem e (deps m k)) eqn:E.
      + apply zs_mem_spec in E. left. by rewrite orb_false_r, dm_update_id by by apply zs_insert_mem.
      + right. split; [apply orb_true_r|]. rewrite dm_update_size; [lia|done|]. apply zs_insert_new.
        intros Hin%zs_mem_spec. congruence. }
  specialize (IH m1 c1). destruct (insert_all k es m1 c1) as [m' c'].
  destruct IH as [Hp' He].
  - by rewrite (pr_keys _ _ _ _ _ Hp).
  - intros e' He'. apply Htc. by right.
  - by apply (pr_wf _ _ _ _ _ Hp).
  - split; [by eapply progress_trans|]. intros e' [->|He']%elem_of_cons; [|by apply He].
    apply (pr_grows _ _ _ _ _ Hp'). unfold edges, m1. rewrite deps_update, Z.eqb_refl by done. apply zs_insert_elem. by left.
Qed.

(** The dependencies of [d] are among those of [k]. *)
Definition closed_at (m : dependency_map) (k d : Z) : Prop := ∀ e, edges m d e → edges m k e.

(** The number of possible elements the iterator has still before it. *)
Definition before_it (U : list Z) (cur : option Z) : nat := length (base.filter (λ x, after cur x = true) U).
Lemma before_it_less U cur d : d ∈ U → after cur d = true → (before_it U (Some d) < before_it U cur)%nat.
Proof.
  intros Hd Ha. unfold before_it.
  assert (∀ x, after (Some d) x = true → after cur x = true) as Himp.
  { intros x. destruct cur as [c|]; [|done]. cbn in *. rewrite !Z.ltb_lt in *. lia. }
  assert (∀ V, (length (base.filter (λ x, after (Some d) x = true) V) <= length (base.filter (λ x, after cur x = true) V))%nat) as Hle.
  { induction V as [|x V IH]; [done|]. rewrite !filter_cons. repeat case_decide; rewrite ?length_cons; [lia| |lia|lia].
    by exfalso; auto. }
  apply list_elem_of_split in Hd as (V1 & V2 & ->). rewrite !filter_app, !length_app, !filter_cons.
  rewrite (decide_False (P := after (Some d) d = true)) by (cbn; by rewrite Z.ltb_irrefl).
  rewrite decide_True by done. pose proof (Hle V1). pose proof (Hle V2). rewrite length_cons. lia.
Qed.

Lemma progress_size R0 m c m' c' : progress R0 m c m' c' → (dm_size m <= dm_size m')%nat.
Proof. intros Hp. destruct (pr_outcome _ _ _ _ _ Hp) as [[-> _]|[_ ?]]; lia. Qed.
Lemma progress_same R0 m c m1 c1 m' c' :
  progress R0 m c m1 c1 → progress R0 m1 c1 m' c' → m' = m → m1 = m.
Proof.
  intros Hp Hp' ->. destruct (pr_outcome _ _ _ _ _ Hp) as [[-> _]|[_ Hlt]]; [done|].
  pose proof (progress_size _ _ _ _ _ Hp'). lia.
Qed.

Section fixpoint.
Context (R0 : Z → Z → Prop) (U : list Z) (HU : ∀ k d, R0 k d → d ∈ U).

Lemma tc_range k d : tc R0 k d → d ∈ U.
Proof using HU. induction 1; eauto. Qed.

Lemma visit_progress k fuel : ∀ cur m c, k ∈ (fst <$> m) → dm_wf m → consequences R0 m →
  (before_it U cur < fuel)%nat →
  ∃ m' c', visit fuel k cur m c = Some (m', c') ∧ progress R0 m c m' c' ∧
    (m' = m → ∀ d, edges m k d → after cur d = true → closed_at m k d).
Proof using HU.
  induction fuel as [|fuel IH]; intros cur m c Hk Hwf Hc Hf; [lia|]. cbn [visit].
  pose proof (next_elem_spec cur (deps m k) (deps_sorted m k Hwf)) as Hnext.
  destruct (next_elem cur (deps m k)) as [d|].
  2: { exists m, c. split_and!; [done|apply progress_refl|]. intros _ d Hd Ha. by rewrite (Hnext d Hd) in Ha. }
  destruct Hnext as (Hd & Ha & Hrest).
  assert (∃ m1 c1, (match dm_find d m with Some dep => insert_all k dep m c | None => (m, c) end) = (m1, c1) ∧
    progress R0 m c m1 c1 ∧ (∀ e, edges m d e → edges m1 k e)) as (m1 & c1 & -> & Hp & Hadd).
  { destruct (dm_find d m) as [dep|] eqn:E.
    - assert (deps m d = dep) as <- by (unfold deps; by rewrite E).
      pose proof (insert_all_progress R0 k (deps m d) m c Hk) as Hi. destruct (insert_all k (deps m d) m c) as [m1 c1].
      exists m1, c1. split; [done|]. apply Hi; [|done]. intros e He. apply (tc_transitive _ d); by apply Hc.
    - exists m, c. split_and!; [done|apply progress_refl|]. intros e. unfold edges, deps. rewrite E. by intros ?%elem_of_nil. }
  destruct (IH (Some d) m1 c1) as (m' & c' & -> & Hp' & Hclosed).
  { by rewrite (pr_keys _ _ _ _ _ Hp). }
  { by apply (pr_wf _ _ _ _ _ Hp). }
  { by apply (pr_sound _ _ _ _ _ Hp). }
  { assert (d ∈ U) as HdU by (eapply tc_range, Hc, Hd). pose proof (before_it_less U cur d HdU Ha). lia. }
  exists m', c'. split_and!; [done|by eapply progress_trans|]. intros Hsame d' Hd' Ha'.
  pose proof (progress_same _ _ _ _ _ _ _ Hp Hp' Hsame) as ->.
  destruct (Hrest d' Hd' Ha') as [->|Hafter]; [exact Hadd|by apply Hclosed].
Qed.

Lemma pass_progress fuel ks : ∀ m c, (∀ k, k ∈ ks → k ∈ (fst <$> m)) → dm_wf m → consequences R0 m →
  (length U < fuel)%nat →
  ∃ m' c', pass fuel ks m c = Some (m', c') ∧ progress R0 m c m' c' ∧
    (m' = m → ∀ k d, k ∈ ks → edges m k d → closed_at m k d).
Proof using HU.
  induction ks as [|k ks IH]; intros m c Hks Hwf Hc Hf; cbn [pass].
  { exists m, c. split_and!; [done|apply progress_refl|]. by intros _ k d ?%elem_of_nil. }
  destruct (visit_progress k fuel None m c) as (m1 & c1 & -> & Hp & Hclosed); [apply Hks; by left|done|done| |].
  { unfold before_it. pose proof (length_filter (λ x, after None x = true) U). lia. }
  destruct (IH m1 c1) as (m' & c' & -> & Hp' & Hclosed'); [|by apply (pr_wf _ _ _ _ _ Hp)|by apply (pr_sound _ _ _ _ _ Hp)|done|].
  { intros j Hj. rewrite (pr_keys _ _ _ _ _ Hp). apply Hks. by right. }
  exists m', c'. split_and!; [done|by eapply progress_trans|]. intros Hsame j d Hj Hd.
  pose proof (progress_same _ _ _ _ _ _ _ Hp Hp' Hsame) as ->.
  apply elem_of_cons in Hj as [->|Hj]; [by apply Hclosed|by apply Hclosed'].
Qed.

(** The sets cannot outgrow [U]. *)
Lemma dm_size_bound m : NoDup (fst <$> m) → dm_wf m → consequences R0 m → (dm_size m <= length m * length U)%nat.
Proof using HU.
  intros Hnd Hwf Hc. assert (Forall (λ ks, deps m ks.1 = ks.2) m) as Hfirst.
  { clear Hc Hwf. induction m as [|[k s] m IH]; constructor.
    - by rewrite deps_cons, Z.eqb_refl.
    - rewrite fmap_cons in Hnd. apply NoDup_cons in Hnd as [Hk Hnd]. apply Forall_forall. intros [k' s'] Hin.
      specialize (IH Hnd). rewrite Forall_forall in IH. rewrite deps_cons. cbn [fst].
      destruct (Z.eqb_spec k' k) as [->|]; [|by apply (IH (k', s'))]. destruct Hk. by apply (list_elem_of_fmap_2' _ _ (k, s')). }
  assert (Forall (λ ks, (length ks.2 <= length U)%nat) m) as Hlen.
  { apply Forall_forall. intros [k s] Hin. rewrite Forall_forall in Hfirst. specialize (Hfirst _ Hin). cbn in *.
    unfold dm_wf in Hwf. rewrite Forall_forall in Hwf. specialize (Hwf _ Hin). cbn in Hwf.
    apply submseteq_length, NoDup_submseteq; [by apply zs_sorted_NoDup|]. intros d Hd. apply (tc_range k), Hc.
    unfold edges. by rewrite Hfirst. }
  clear Hfirst Hnd Hwf Hc. induction Hlen as [|[k s] m Hs _ IH]; cbn [dm_size length] in *; [lia|]. cbn in Hs. lia.
Qed.

Lemma closure_loop_spec fuel : (length U < fuel)%nat → ∀ rounds m, NoDup (fst <$> m) → dm_wf m → consequences R0 m →
  (length m * length U - dm_size m < rounds)%nat → (∀ k d, R0 k d → edges m k d) →
  ∃ m', closure_loop rounds fuel m = Some m' ∧ fst <$> m' = fst <$> m ∧ dm_wf m' ∧ ∀ k d, edges m' k d ↔ tc R0 k d.
Proof using HU.
  intros Hfuel. induction rounds as [|rounds IH]; intros m Hnd Hwf Hc Hr Hbase; [lia|]. cbn [closure_loop].
  destruct (pass_progress fuel (fst <$> m) m false) as (m1 & c1 & -> & Hp & Hclosed); [done..|].
  destruct (pr_outcome _ _ _ _ _ Hp) as [[-> ->]|[-> Hlt]].
  - exists m. split_and!; [done..|]. intros k d. split; [apply Hc|]. intros Ht.
    induction Ht as [k d Hkd|k d e Hkd Hde IHde]; [by apply Hbase|].
    apply (Hclosed eq_refl k d); [by eapply deps_key, Hbase|by apply Hbase|done].
  - assert (length m1 = length m) as Hlm.
    { rewrite <- (length_fmap fst m1), (pr_keys _ _ _ _ _ Hp). apply length_fmap. }
    pose proof (pr_wf _ _ _ _ _ Hp Hwf) as Hwf1. pose proof (pr_sound _ _ _ _ _ Hp Hwf Hc) as Hc1.
    assert (NoDup (fst <$> m1)) as Hnd1 by by rewrite (pr_keys _ _ _ _ _ Hp).
    pose proof (dm_size_bound m1 Hnd1 Hwf1 Hc1).
    destruct (IH m1 Hnd1 Hwf1 Hc1) as (m' & Hm' & Hk & Hrest); [rewrite Hlm in *; lia| |].
    + intros k d Hkd. by apply (pr_grows _ _ _ _ _ Hp), Hbase.
    + exists m'. split_and!; [done|by rewrite Hk, (pr_keys _ _ _ _ _ Hp)|apply Hrest..].
Qed.
End fixpoint.

(** More fuel gives the same result. *)
Lemma visit_mono fuel fuel' k : ∀ cur m c r, (fuel <= fuel')%nat → visit fuel k cur m c = Some r → visit fuel' k cur m c = Some r.
Proof.
  revert fuel'. induction fuel as [|fuel IH]; intros fuel' cur m c r Hle Hv; [done|]. destruct fuel' as [|fuel']; [lia|].
  cbn [visit] in *. destruct (next_elem cur (deps m k)) as [d|]; [|done].
  destruct (match dm_find d m with Some _ => _ | None => _ end) as [m1 c1]. apply IH; [lia|done].
Qed.
Lemma pass_mono fuel fuel' ks : ∀ m c r, (fuel <= fuel')%nat → pass fuel ks m c = Some r → pass fuel' ks m c = Some r.
Proof.
  induction ks as [|k ks IH]; intros m c r Hle Hp; [done|]. cbn [pass] in *.
  destruct (visit fuel k None m c) as [[m1 c1]|] eqn:E; [|done].
  rewrite (visit_mono fuel fuel' k None m c (m1, c1)) by done. by apply IH.
Qed.
Lemma closure_loop_mono rounds fuel rounds' fuel' m m' : (rounds <= rounds')%nat → (fuel <= fuel')%nat →
  closure_loop rounds fuel m = Some m' → closure_loop rounds' fuel' m = Some m'.
Proof.
  intros Hr Hf. revert rounds' Hr m. induction rounds as [|rounds IH]; intros rounds' Hr m Hl; [done|].
  destruct rounds' as [|rounds']; [lia|]. cbn [closure_loop] in *.
  destruct (pass fuel (fst <$> m) m false) as [[m1 c1]|] eqn:E; [|done]. rewrite (pass_mono fuel fuel' _ _ _ (m1, c1)) by done.
  destruct c1; [|done]. apply IH; [lia|done].
Qed.

(** ** The direct dependencies *)

Definition dm_sorted (m : dependency_map) : Prop := StronglySorted (λ a b, a.1 < b.1) m.
Lemma dm_sorted_NoDup m : dm_sorted m → NoDup (fst <$> m).
Proof.
  induction 1 as [|[k s] m _ IH Hall]; constructor; [|done]. intros ([k' s'] & E & Hin)%list_elem_of_fmap. cbn in E. subst k'.
  rewrite Forall_forall in Hall. specialize (Hall _ Hin). cbn in Hall. lia.
Qed.
Lemma dm_insert_in k x m ks : ks ∈ dm_insert k x m → ks.1 = k ∨ ks ∈ m.
Proof.
  induction m as [|[k' s] m IH]; cbn [dm_insert]; [intros ->%list_elem_of_singleton; by left|].
  destruct (k <? k'); [intros [->|Hin]%elem_of_cons; [by left|by right]|].
  destruct (Z.eqb_spec k k') as [->|]; (intros [->|Hin]%elem_of_cons; [|rewrite elem_of_cons; tauto || (destruct (IH Hin); tauto)]).
  - by left.
  - right. by left.
Qed.
Lemma dm_insert_sorted k x m : dm_sorted m → dm_sorted (dm_insert k x m).
Proof.
  induction 1 as [|[k' s] m Hs IH Hall]; cbn [dm_insert]; [by repeat constructor|].
  destruct (Z.ltb_spec k k') as [Hlt|Hge].
  - constructor; [by constructor|]. constructor; [done|]. eapply Forall_impl; [exact Hall|]. cbn. lia.
  - destruct (Z.eqb_spec k k') as [->|Hne]; constructor; try done.
    apply Forall_forall. intros ks [E|Hin]%dm_insert_in; [cbn in *; lia|]. rewrite Forall_forall in Hall. by apply Hall.
Qed.
Lemma dm_insert_wf k x m : dm_wf m → dm_wf (dm_insert k x m).
Proof.
  induction 1 as [|[k' s] m Hs Hm IH]; cbn [dm_insert]; [by repeat constructor|].
  destruct (k <? k'); [by repeat constructor|]. destruct (k =? k'); constructor; try done. cbn. by apply zs_insert_sorted.
Qed.
Lemma edges_insert k x m j d : dm_sorted m → edges (dm_insert k x m) j d ↔ (j = k ∧ d = x) ∨ edges m j d.
Proof.
  unfold edges. induction 1 as [|[k' s] m Hs IH Hall]; cbn [dm_insert].
  - rewrite deps_cons. destruct (Z.eqb_spec j k) as [->|]; [rewrite list_elem_of_singleton|]; unfold deps; cbn;
      rewrite ?elem_of_nil; naive_solver.
  - destruct (Z.ltb_spec k k') as [Hlt|Hge].
    + rewrite (deps_cons j k). destruct (Z.eqb_spec j k) as [->|]; [|naive_solver]. rewrite list_elem_of_singleton.
      assert (¬ d ∈ deps ((k', s) :: m) k); [|naive_solver]. intros Hd%deps_key.
      rewrite fmap_cons in Hd. apply elem_of_cons in Hd as [->|([k2 s2] & -> & Hin)%list_elem_of_fmap]; cbn in *; [lia|].
      rewrite Forall_forall in Hall. specialize (Hall _ Hin). cbn in Hall. lia.
    + destruct (Z.eqb_spec k k') as [->|Hne]; rewrite !deps_cons.
      * destruct (Z.eqb_spec j k') as [->|]; [rewrite zs_insert_elem; naive_solver|naive_solver].
      * destruct (Z.eqb_spec j k') as [->|]; [naive_solver|]. exact IH.
Qed.

(** The file that a row of the second query resolves to. *)
Definition resolve (arch_soname : smap soname_map) (row : needed_row) : Z :=
  let '(arch, needed_name, fid, path) := row in (lookup_soname arch_soname arch needed_name fid (until_nul path) false).1.
Definition resolves (arch_soname : smap soname_map) (needed : list needed_row) (f g : Z) : Prop :=
  ∃ row, row ∈ needed ∧ row.1.2 = f ∧ resolve arch_soname row = g ∧ g ≠ 0.

Lemma lookup_soname_conflicts m arch s f p c : (lookup_soname m arch s f p c).1 = (lookup_soname m arch s f p false).1.
Proof. unfold lookup_soname. repeat case_match; done. Qed.

Lemma add_needed_spec arch_soname conflicts needed :
  let m := (foldl (add_needed arch_soname conflicts) ([], []) needed).1 in
  dm_sorted m ∧ dm_wf m ∧ ∀ f g, edges m f g ↔ resolves arch_soname needed f g.
Proof.
  induction needed as [|row needed IH] using rev_ind.
  { split_and!; [constructor..|]. intros f g. unfold edges, deps. cbn. rewrite elem_of_nil.
    split; [done|]. by intros (row & ?%elem_of_nil & _). }
  rewrite foldl_app. cbn [foldl]. destruct (foldl (add_needed arch_soname conflicts) ([], []) needed) as [m r].
  cbn [fst] in IH. destruct IH as (Hs & Hwf & He). destruct row as [[[arch s] fid] path].
  assert (∀ f g, resolves arch_soname (needed ++ [(arch, s, fid, path)]) f g ↔
    resolves arch_soname needed f g ∨ (f = fid ∧ resolve arch_soname (arch, s, fid, path) = g ∧ g ≠ 0)) as Hr.
  { intros f g. unfold resolves. setoid_rewrite elem_of_app. setoid_rewrite list_elem_of_singleton. split.
    - intros (row & [Hin| ->] & <- & <- & Hg); [left; eauto|by right].
    - intros [(row & Hin & ? & ? & ?)|(-> & ? & ?)]; [by exists row; auto|]. exists (arch, s, fid, path). auto. }
  unfold add_needed. pose proof (lookup_soname_conflicts arch_soname arch s fid (until_nul path) conflicts) as Hl.
  unfold resolve in Hr. destruct (lookup_soname arch_soname arch s fid (until_nul path) conflicts) as [library r'].
  cbn [fst] in *. setoid_rewrite <- Hl in Hr. destruct (Z.eqb_spec library 0) as [->|Hne].
  - split_and!; [done..|]. intros f g. rewrite He, Hr. naive_solver.
  - split_and!; [by apply dm_insert_sorted|by apply dm_insert_wf|]. intros f g. rewrite edges_insert, He, Hr by done. naive_solver.
Qed.

(** ** The upload *)

Lemma upload_rows_concat rows : ∀ u, concat (upload_rows rows u) = u ++ concat (upload_line <$> rows).
Proof.
  induction rows as [|row rows IH]; intros u; cbn [upload_rows].
  - by destruct (bool_decide_reflect (u = [])) as [->|].
  - rewrite fmap_cons. cbn [concat]. rewrite app_assoc. destruct (131072 <? _); [|apply IH].
    cbn [concat]. f_equal. apply IH.
Qed.
Lemma dm_pairs_edges m f g : NoDup (fst <$> m) → (f, g) ∈ dm_pairs m ↔ edges m f g.
Proof.
  unfold dm_pairs, edges. induction m as [|[k s] m IH]; [intros _; cbn; by rewrite !elem_of_nil|]. rewrite !fmap_cons. cbn [concat]. intros [Hk Hnd]%NoDup_cons.
  rewrite elem_of_app, IH by done. rewrite deps_cons. unfold dm_row. rewrite list_elem_of_fmap. cbn [fst snd].
  destruct (Z.eqb_spec f k) as [->|Hne]; split; [|naive_solver..].
  intros [(x & [= ->] & Hx)|Hd]; [done|]. destruct Hk. by eapply deps_key.
Qed.

(** ** Properties *)

(** C30: [update_elf_closure] terminates and computes the transitive closure: the
    iteration reaches its fixpoint, and the data uploaded to the database are
    exactly the lines of the pairs of files [(f, g)] such that [g] can be reached
    from [f] by resolving the needed libraries of files of the package set any
    number of times (at least once), although the sets are extended while the
    loops iterate over them.  Without the upload, nothing else changes. *)
Theorem update_elf_closure_spec (providers : list (bytes * bytes * Z * bytes * bytes)) (needed : list needed_row)
    (conflicts : bool) :
  let arch_soname := ignore_some_conflicts (providers_of providers) in
  ∃ n reports chunks pairs, (∀ rounds fuel, (n <= rounds)%nat → (n <= fuel)%nat →
      update_elf_closure rounds fuel providers needed conflicts false = Some (reports, Some chunks) ∧
      update_elf_closure rounds fuel providers needed conflicts true =
        Some (reports, if conflicts then None else Some chunks)) ∧
    concat chunks = concat (upload_line <$> pairs) ∧
    ∀ f g, (f, g) ∈ pairs ↔ tc (resolves arch_soname needed) f g.
Proof.
  intros arch_soname. destruct (add_needed_spec arch_soname conflicts needed) as (Hs & Hwf & He).
  unfold update_elf_closure. fold arch_soname.
  destruct (foldl (add_needed arch_soname conflicts) ([], []) needed) as [m reports]. cbn [fst] in *.
  set (U := resolve arch_soname <$> needed).
  assert (∀ k d, resolves arch_soname needed k d → d ∈ U) as HU.
  { intros k d (row & Hin & _ & <- & _). by apply list_elem_of_fmap_2. }
  pose proof (closure_loop_spec (resolves arch_soname needed) U HU) as Hloop.
  set (n := S (length m * length U + length U)).
  assert (∃ m', (∀ rounds fuel, (n <= rounds)%nat → (n <= fuel)%nat → closure_loop rounds fuel m = Some m') ∧
    fst <$> m' = fst <$> m ∧ ∀ k d, edges m' k d ↔ tc (resolves arch_soname needed) k d) as (m' & Hm' & Hk & Hcl).
  { assert (∀ rounds fuel, (n <= rounds)%nat → (n <= fuel)%nat → ∃ m', closure_loop rounds fuel m = Some m' ∧
      fst <$> m' = fst <$> m ∧ dm_wf m' ∧ ∀ k d, edges m' k d ↔ tc (resolves arch_soname needed) k d) as Hall.
    { intros rounds fuel H1 H2. apply Hloop; [lia|by apply dm_sorted_NoDup|done| |lia|by intros; apply He].
      intros k d Hkd. by apply tc_once, He. }
    destruct (Hall n n (le_n _) (le_n _)) as (m' & Hn & Hk & _ & Hcl). exists m'. split_and!; [|done..].
    intros rounds fuel H1 H2. by apply (closure_loop_mono n n). }
  exists n, reports, (upload_rows (dm_pairs m') []), (dm_pairs m'). split_and!.
  - intros rounds fuel H1 H2. rewrite Hm' by done. by destruct conflicts.
  - by rewrite upload_rows_concat.
  - intros f g. rewrite dm_pairs_edges; [apply Hcl|]. rewrite Hk. by apply dm_sorted_NoDup.
Qed.

(** A program that needs one library, which needs another. *)
Definition sample_providers : list (bytes * bytes * Z * bytes * bytes) :=
  [(str "x86_64", str "liba.so", 1, str "/lib64/liba.so", str "a");
   (str "x86_64", str "libb.so", 2, str "/lib64/libb.so", str "b")].
Definition sample_needed : list needed_row :=
  [(str "x86_64", str "liba.so", 3, str "/usr/bin/p"); (str "x86_64", str "libb.so", 1, str "/lib64/liba.so")].
Lemma update_elf_closure_spec_witness :
  upload_line (3, 2) = str "3" ++ [9] ++ str "2" ++ [10] ∧
  update_elf_closure 20 20 sample_providers sample_needed false false =
    Some ([], Some [concat (upload_line <$> [(1, 2); (3, 1); (3, 2)])]) ∧
  ∃ n reports chunks, ∀ rounds fuel, (n <= rounds)%nat → (n <= fuel)%nat →
    update_elf_closure rounds fuel sample_providers sample_needed false false = Some (reports, Some chunks).
Proof.
  split; [vm_compute; reflexivity|]. split; [vm_compute; reflexivity|].
  destruct (update_elf_closure_spec sample_providers sample_needed false) as (n & reports & chunks & _ & Hn & _).
  exists n, reports, chunks. intros rounds fuel H1 H2. exact (proj1 (Hn rounds fuel H1 H2)).
Defined.
