(* ===== verification/Repomd.v ===== *)
(** * Repository metadata (lib/symboldb/repomd.cpp, lib/cxxll/url.cpp)

    The index repodata/repomd.xml of a repository: its entries are read from the
    document tree of Minidom.v. *)

From S2P Require Import Prelude StringSupport Base16 Hash SortedMap Xml Minidom.

(** ** URLs *)

(** The arguments are C strings.
    Source: lib/cxxll/url.cpp 23-39, url_combine_yum. *)
Definition url_combine_yum (base relative : bytes) : bytes :=
  let result := base in
  if bool_decide (result = []) then relative
  else if bool_decide (head relative = None) then base
  else if bool_decide (last result = Some 47) || bool_decide (head base = Some 47) then result ++ relative
  else (result ++ [47]) ++ relative.

(** ** Entries *)

(** Source: include/symboldb/repomd.hpp 32-41, repomd::entry. *)
Record entry := Entry {
  en_type : bytes;
  en_compressed : bool;
  en_checksum : checksum;
  en_open_checksum : checksum;
  en_href : bytes
}.

(** Source: lib/symboldb/repomd.cpp 32-35, repomd::entry::entry. *)
Definition entry_new : entry := Entry [] false checksum_new checksum_new [].

(** Source: include/symboldb/repomd.hpp 31-60, repomd. *)
Record repomd := Repomd { base_url : bytes; revision : bytes; entries : list entry }.

(** A [size] or [open-size] element, which need not be there.
    Source: lib/symboldb/repomd.cpp 86-92, repomd::parse. *)
Definition size_of (size : option dom) : option Z :=
  match size with
  | None => Some no_length
  | Some size => parse_unsigned_long_long (strip (element_text size))
  end.

(** The arguments of [set_hexadecimal], which takes C strings, from an element.
    Source: lib/symboldb/repomd.cpp 117-123, repomd::parse. *)
Definition set_checksum (c : checksum) (csum : dom) (size : Z) : res unit * checksum :=
  set_hexadecimal c (dom_attribute csum (str "type")) size (strip (element_text csum)).

(** The new entry, once the elements have been found: [Ok None] for success,
    [Ok (Some error)] when [parse] returns false.
    Source: lib/symboldb/repomd.cpp 109-131, repomd::parse. *)
Definition fill_entry (e csum : dom) (href : bytes) (nsize : Z) (open_csum : option (dom * Z)) : entry * res (option bytes) :=
  let type := dom_attribute e (str "type") in
  let en := Entry type false checksum_new checksum_new [] in
  if bool_decide (type = []) then (en, Ok (Some (str "type attribute missing from data element")))
  else
    let compressed := match open_csum with Some _ => true | None => false end in
    match set_checksum checksum_new csum nsize with
    | (Throw ex, c) => (Entry type compressed c checksum_new [], Throw ex)
    | (Ok _, c) =>
        match match open_csum with
              | Some (open_csum, nopen_size) => set_checksum checksum_new open_csum nopen_size
              | None => (Ok tt, c) end with
        | (Throw ex, oc) => (Entry type compressed c oc [], Throw ex)
        | (Ok _, oc) =>
            (Entry type compressed c oc href,
             Ok (if bool_decide (href = []) then Some (str "malformed location element") else None))
        end
    end.

(** One [data] element: the entry, if one was added, and the outcome.
    Source: lib/symboldb/repomd.cpp 74-131, repomd::parse. *)
Definition parse_data (e : dom) : option entry * res (option bytes) :=
  match first_child e (str "location") with
  | None => (None, Ok (Some (str "location element missing from data element")))
  | Some location =>
      let href := dom_attribute location (str "href") in
      match first_child e (str "checksum") with
      | None => (None, Ok (Some (str "checksum element missing from data element")))
      | Some csum =>
          match size_of (first_child e (str "size")) with
          | None => (None, Ok (Some (str "size element malformed")))
          | Some nsize =>
              let fill open_csum := let '(en, r) := fill_entry e csum href nsize open_csum in (Some en, r) in
              match first_child e (str "open-checksum"), first_child e (str "open-size") with
              | Some open_csum, open_size =>
                  match size_of open_size with
                  | None => (None, Ok (Some (str "open-size element malformed")))
                  | Some nopen_size => fill (Some (open_csum, nopen_size))
                  end
              | None, Some _ => (None, Ok (Some (str "open-size element without open-checksum element")))
              | None, None => fill None
              end
          end
      end
  end.

(** Source: lib/symboldb/repomd.cpp 69-134, repomd::parse. *)
Fixpoint parse_children (cs : list dom) (entries : list entry) : list entry * res (option bytes) :=
  match cs with
  | [] => (entries, Ok None)
  | p :: cs =>
      if is_element (str "data") p then
        let '(en, r) := parse_data p in
        let entries := match en with Some en => entries ++ [en] | None => entries end in
        match r with Ok None => parse_children cs entries | _ => (entries, r) end
      else parse_children cs entries
  end.

(** Source: lib/symboldb/repomd.cpp 58-135, repomd::parse. *)
Definition parse_root (rp : repomd) (root : dom) : res (option bytes) * repomd :=
  if bool_decide (name_of root ≠ str "repomd") then (Ok (Some (str "invalid root element")), rp)
  else
    let rev := match first_child root (str "revision") with Some rev => element_text rev | None => [] end in
    let '(entries, r) := parse_children (children root) [] in
    (r, Repomd (base_url rp) rev entries).

Section acquire.
Context {X Src : Type} `{XmlOps X}.
(** [download] of download.hpp, and the parser on its result. *)
Context (download : bytes → res Src) (expat_source : Src → X).

(** Source: lib/symboldb/repomd.cpp 49-135, repomd::parse. *)
Definition repomd_parse (fuel : nat) (rp : repomd) (src : Src) : option (res (option bytes) * repomd) :=
  match Minidom.parse fuel (expat_source src) with
  | None => None
  | Some (Throw e, _) => Some (Throw e, rp)
  | Some (Ok root, _) => Some (parse_root rp root)
  end.

(** [url] is a C string.
    Source: lib/symboldb/repomd.cpp 140-143, repomd::acquire. *)
Definition base_canon (url : bytes) : bytes :=
  if bool_decide (url ≠ []) && bool_decide (last url ≠ Some 47) then url ++ [47] else url.

(** Source: lib/symboldb/repomd.cpp 137-152, repomd::acquire. *)
Definition acquire (fuel : nat) (rp : repomd) (url : bytes) : option (res unit * repomd) :=
  let base := base_canon url in
  match download (base ++ str "repodata/repomd.xml") with
  | Throw e => Some (Throw e, rp)
  | Ok src =>
      match repomd_parse fuel rp src with
      | None => None
      | Some (Throw e, rp) => Some (Throw e, rp)
      | Some (Ok (Some error), rp) => Some (Throw (curl_exception (CurlReport (until_nul error) [] url [] 0 0)), rp)
      | Some (Ok None, rp) => Some (Ok tt, Repomd base (revision rp) (entries rp))
      end
  end.
End acquire.

(** ** What an index describes *)

(** The checksum that an element holds, with the size of another element. *)
Definition holds_checksum (csum : dom) (size : option dom) (c : checksum) : Prop :=
  base16_decode_res (until_nul (strip (element_text csum))) = Ok (csum_value c) ∧
  from_string (until_nul (dom_attribute csum (str "type"))) = Ok (csum_type c) ∧
  size_of size = Some (csum_length c).

(** A well-formed [data] element and its entry. *)
Definition describes (e : dom) (en : entry) : Prop :=
  (∃ location, first_child e (str "location") = Some location ∧
    dom_attribute location (str "href") = en_href en ∧ en_href en ≠ []) ∧
  dom_attribute e (str "type") = en_type en ∧ en_type en ≠ [] ∧
  (∃ csum, first_child e (str "checksum") = Some csum ∧
    holds_checksum csum (first_child e (str "size")) (en_checksum en)) ∧
  match first_child e (str "open-checksum") with
  | Some open_csum => en_compressed en = true ∧
      holds_checksum open_csum (first_child e (str "open-size")) (en_open_checksum en)
  | None => en_compressed en = false ∧ en_open_checksum en = en_checksum en ∧
      first_child e (str "open-size") = None
  end.
Definition data_elements (root : dom) : list dom := base.filter (λ e, is_element (str "data") e = true) (children root).

Lemma set_checksum_spec c0 csum n :
  match set_checksum c0 csum n with
  | (Ok _, c) => base16_decode_res (until_nul (strip (element_text csum))) = Ok (csum_value c) ∧
      from_string (until_nul (dom_attribute csum (str "type"))) = Ok (csum_type c) ∧ csum_length c = n
  | (Throw _, _) => ∀ c, base16_decode_res (until_nul (strip (element_text csum))) = Ok (csum_value c) →
      from_string (until_nul (dom_attribute csum (str "type"))) = Ok (csum_type c) → False
  end.
Proof.
  unfold set_checksum, set_hexadecimal.
  destruct (base16_decode_res _) as [v|]; [|by intros c]. by destruct (from_string _) as [t|]; [|intros c].
Qed.
Lemma holds_set c0 csum size n c : size_of size = Some n →
  (holds_checksum csum size c ↔ set_checksum c0 csum n = (Ok tt, c)).
Proof.
  intros Hn. unfold holds_checksum. rewrite Hn. unfold set_checksum, set_hexadecimal.
  destruct (base16_decode_res _) as [v|], (from_string _) as [t|]; split; destruct c; naive_solver.
Qed.


Lemma fill_entry_spec e csum href n open_csum en : fill_entry e csum href n open_csum = (en, Ok None) ↔
  dom_attribute e (str "type") = en_type en ∧ en_type en ≠ [] ∧ href = en_href en ∧ en_href en ≠ [] ∧
  set_checksum checksum_new csum n = (Ok tt, en_checksum en) ∧
  match open_csum with
  | Some (oc, on) => en_compressed en = true ∧ set_checksum checksum_new oc on = (Ok tt, en_open_checksum en)
  | None => en_compressed en = false ∧ en_open_checksum en = en_checksum en
  end.
Proof.
  unfold fill_entry. destruct en as [t cp ck ock h]. cbn [en_type en_compressed en_checksum en_open_checksum en_href].
  destruct (bool_decide_reflect (dom_attribute e (str "type") = [])) as [Et|Et]; [split; [done|]; intros (? & ? & _); congruence|].
  destruct (set_checksum checksum_new csum n) as [[[]|] c].
  2: { split; [done|]. by intros (_ & _ & _ & _ & ? & _). }
  destruct open_csum as [[oc on]|].
  - destruct (set_checksum checksum_new oc on) as [[[]|] c']; [|split; [done|]; by intros (_ & _ & _ & _ & _ & _ & ?)].
    destruct (bool_decide_reflect (href = [])) as [Eh|Eh]; split; try congruence; naive_solver.
  - destruct (bool_decide_reflect (href = [])) as [Eh|Eh]; split; try congruence; naive_solver.
Qed.

(** A [data] element is accepted exactly when it is well formed. *)
Lemma parse_data_spec e en : parse_data e = (Some en, Ok None) ↔ describes e en.
Proof.
  unfold parse_data, describes.
  destruct (first_child e (str "location")) as [location|]; [|naive_solver].
  destruct (first_child e (str "checksum")) as [csum|]; [|naive_solver].
  destruct (size_of (first_child e (str "size"))) as [nsize|] eqn:Es.
  2: { split; [done|]. intros (_ & _ & _ & (csum' & _ & _ & _ & E) & _). congruence. }
  set (href := dom_attribute location (str "href")).
  assert (∀ open, (let '(en', r) := fill_entry e csum href nsize open in (Some en', r)) = (Some en, Ok None) ↔
    fill_entry e csum href nsize open = (en, Ok None)) as Hfill.
  { intros open. destruct (fill_entry e csum href nsize open) as [en' r]. split; [by intros [= -> ->]|by intros [= -> ->]]. }
  pose proof (holds_set checksum_new csum _ nsize (en_checksum en) Es) as Hset.
  assert (∀ P, (∃ csum', Some csum = Some csum' ∧ holds_checksum csum' (first_child e (str "size")) (en_checksum en)) ∧ P ↔
    set_checksum checksum_new csum nsize = (Ok tt, en_checksum en) ∧ P) as HC by (intros P; rewrite <- Hset; naive_solver).
  assert (∀ P, (∃ location', Some location = Some location' ∧ dom_attribute location' (str "href") = en_href en ∧ en_href en ≠ []) ∧ P ↔
    href = en_href en ∧ en_href en ≠ [] ∧ P) as HL by (intros P; unfold href; naive_solver).
  rewrite HL, HC. destruct (first_child e (str "open-checksum")) as [oc|].
  - destruct (size_of (first_child e (str "open-size"))) as [nopen|] eqn:Eo.
    + rewrite Hfill, fill_entry_spec, <- (holds_set checksum_new oc _ nopen _ Eo). tauto.
    + split; [done|]. intros (_ & _ & _ & _ & _ & _ & _ & _ & E). congruence.
  - destruct (first_child e (str "open-size")) as [os|]; [naive_solver|]. rewrite Hfill, fill_entry_spec. tauto.
Qed.

(** The whole list: all [data] elements, in order. *)
Lemma parse_children_spec cs : ∀ es es',
  parse_children cs es = (es', Ok None) ↔
  ∃ new, es' = es ++ new ∧ Forall2 describes (base.filter (λ e, is_element (str "data") e = true) cs) new.
Proof.
  induction cs as [|e cs IH]; intros es es'; cbn [parse_children].
  - split; [intros [= ->]; exists []; by rewrite app_nil_r|]. intros (new & -> & Hn). inversion Hn. by rewrite app_nil_r.
  - rewrite filter_cons. destruct (is_element (str "data") e); [rewrite decide_True by done|rewrite decide_False by done; apply IH].
    destruct (parse_data e) as [en r] eqn:E. pose proof (λ en', parse_data_spec e en') as Hd. rewrite E in Hd.
    assert (r = Ok None → ∃ en', en = Some en') as Hsome.
    { intros ->. unfold parse_data in E. destruct en; [eauto|]. repeat (case_match; try done). }
    split.
    + destruct r as [[?|]|]; [done| |done]. destruct (Hsome eq_refl) as [en' ->]. intros (new & -> & Hn)%IH.
      exists (en' :: new). split; [by rewrite <- app_assoc|]. constructor; [by apply Hd|done].
    + intros (new & -> & Hn). inversion Hn as [|? en' ? new' He Hn']; subst. apply Hd in He as [= -> ->].
      apply IH. exists new'. by rewrite <- app_assoc.
Qed.

Lemma parse_root_spec rp root rp' : parse_root rp root = (Ok None, rp') ↔
  name_of root = str "repomd" ∧ base_url rp' = base_url rp ∧
  revision rp' = (match first_child root (str "revision") with Some rev => element_text rev | None => [] end) ∧
  Forall2 describes (data_elements root) (entries rp').
Proof.
  unfold parse_root, data_elements. destruct (bool_decide_reflect (name_of root ≠ str "repomd")) as [Hn|Hn]; [split; [done|by intros [? _]]|].
  apply dec_stable in Hn. pose proof (parse_children_spec (children root) []) as Hc.
  destruct (parse_children (children root) []) as [es r]. destruct rp' as [b v es']. cbn [base_url revision entries].
  specialize (Hc es'). split.
  - intros [= -> <- <- ->]. split_and!; [done..|]. by destruct (proj1 Hc eq_refl) as (new & -> & Hnew).
  - intros (_ & -> & -> & Hf). assert ((es, r) = (es', Ok None)) as [= -> ->]; [|done]. apply Hc. by exists es'.
Qed.

(** ** Properties *)

(** C38: [repomd::acquire] succeeds exactly when the download of
    repodata/repomd.xml below the base URL (completed with a slash) succeeds and
    its document has the root element [repomd] in which every [data] element is
    well formed: location, type, a checksum of a known kind in hexadecimal, sizes
    that are numbers, and an open checksum if there is an open size.  The entries
    are then those of the [data] elements, in order.  On failure the base URL is
    left alone.  Parsing a well-formed document terminates. *)
Theorem repomd_acquire_spec {X Src : Type} `{XmlSource X} (download : bytes → res Src) (expat_source : Src → X)
    (rp : repomd) (url : bytes) :
  (∀ fuel rp', acquire download expat_source fuel rp url = Some (Ok tt, rp') ↔
    ∃ src root x, download (base_canon url ++ str "repodata/repomd.xml") = Ok src ∧
      Minidom.parse fuel (expat_source src) = Some (Ok root, x) ∧
      name_of root = str "repomd" ∧ base_url rp' = base_canon url ∧
      revision rp' = (match first_child root (str "revision") with Some rev => element_text rev | None => [] end) ∧
      Forall2 describes (data_elements root) (entries rp')) ∧
  (∀ fuel e rp', acquire download expat_source fuel rp url = Some (Throw e, rp') → base_url rp' = base_url rp) ∧
  (∀ src name attrs inner ds, builds inner ds → x_state (expat_source src) = INIT →
    x_ahead (expat_source src) (XStart name attrs :: inner ++ [XEnd]) →
    ∃ n, ∀ fuel, (n <= fuel)%nat →
      repomd_parse expat_source fuel rp src = Some (parse_root rp (DElement name (attribute_map attrs) ds))) ∧
  (url ≠ [] → last (base_canon url) = Some 47).
Proof.
  split_and!.
  - intros fuel rp'. unfold acquire, repomd_parse. destruct (download _) as [src|e]; [|split; [done|]; by intros (? & ? & ? & ? & _)].
    destruct (Minidom.parse fuel (expat_source src)) as [[[root|e] x]|] eqn:Ep.
    2,3: split; [done|]; intros (? & ? & ? & [= <-] & E & _); congruence.
    pose proof (λ rp1, parse_root_spec rp root rp1) as Hroot. destruct (parse_root rp root) as [[[err|]|e] rp1].
    + split; [done|]. intros (? & ? & ? & [= <-] & E & Hn & Hb & Hr & Hf). rewrite Ep in E. injection E as <- <-.
      by pose proof (proj2 (Hroot (Repomd (base_url rp) (revision rp') (entries rp'))) (conj Hn (conj eq_refl (conj Hr Hf)))).
    + destruct (proj1 (Hroot rp1) eq_refl) as (Hn & Hb & Hr & Hf). split.
      * intros [= <-]. by exists src, root, x.
      * intros (? & ? & ? & [= <-] & E & Hn' & Hb' & Hr' & Hf'). rewrite Ep in E. injection E as <- <-.
        pose proof (proj2 (Hroot (Repomd (base_url rp) (revision rp') (entries rp')))
          (conj Hn' (conj eq_refl (conj Hr' Hf')))) as [= ->]. cbn. rewrite <- Hb'. by destruct rp'.
    + split; [done|]. intros (? & ? & ? & [= <-] & E & Hn & Hb & Hr & Hf). rewrite Ep in E. injection E as <- <-.
      by pose proof (proj2 (Hroot (Repomd (base_url rp) (revision rp') (entries rp'))) (conj Hn (conj eq_refl (conj Hr Hf)))).
  - intros fuel e rp'. unfold acquire, repomd_parse, parse_root. repeat case_match; intros; simplify_eq; done.
  - intros src name attrs inner ds Hds Hs Ha.
    destruct (parse_initial (expat_source src) name attrs inner ds [] Hds Hs Ha) as (n & x' & Hn & _).
    exists n. intros fuel Hf. unfold repomd_parse. by rewrite Hn.
  - intros Hu. unfold base_canon. rewrite bool_decide_eq_true_2 by done. cbn [andb].
    destruct (bool_decide_reflect (last url ≠ Some 47)) as [Hl|Hl]; [by rewrite last_snoc|by apply dec_stable].
Qed.

(** An index with one entry, through the parser on lists of events. *)
Definition sample_download (url : bytes) : res (list xevent) :=
  if bool_decide (url = str "http://h/repodata/repomd.xml") then
    Ok [XStart (str "repomd") []; XStart (str "data") [(str "type", str "primary")];
        XStart (str "location") [(str "href", str "p.xml.gz")]; XEnd;
        XStart (str "checksum") [(str "type", str "md5")]; XText (str " 0a"); XText (str "ff "); XEnd;
        XStart (str "size") []; XText (str "12"); XEnd; XEnd; XEnd]
  else Throw (curl_exception (CurlReport [] [] url [] 404 0)).
Definition sample_entry : entry :=
  Entry (str "primary") false (Checksum [10; 255] 12 md5) (Checksum [10; 255] 12 md5) (str "p.xml.gz").
Example repomd_acquire_spec_witness :
  acquire sample_download (EventList None false) 40 (Repomd [] [] []) (str "http://h") =
    Some (Ok tt, Repomd (str "http://h/") [] [sample_entry]) ∧
  ∃ root, name_of root = str "repomd" ∧ Forall2 describes (data_elements root) [sample_entry].
Proof.
  assert (acquire sample_download (EventList None false) 40 (Repomd [] [] []) (str "http://h") =
    Some (Ok tt, Repomd (str "http://h/") [] [sample_entry])) as Ha by (vm_compute; reflexivity).
  split; [exact Ha|].
  destruct (repomd_acquire_spec sample_download (EventList None false) (Repomd [] [] []) (str "http://h")) as (Hok & _).
  apply Hok in Ha as (src & root & x & _ & _ & Hn & _ & _ & Hf). exists root. split; [exact Hn|exact Hf].
Defined.
