(* ===== verification/Primary.v ===== *)
(** * The package list of a repository (lib/symboldb/repomd_primary.cpp)

    The iterator over the packages of primary.xml, on top of a pull parser.  Its
    handling of a package is proved equivalent to a function on document trees. *)

From S2P Require Import Prelude StringSupport Hash SortedMap RpmInfo Xml Minidom Maven Repomd.

(** Source: lib/symboldb/repomd_primary.cpp 28-33, repomd::primary::impl. *)
Record primary := Primary {
  p_base_url : bytes;
  p_info : rpm_package_info;
  p_href : bytes;
  p_checksum : checksum
}.

(** Assignments to the fields. *)
Definition set_info (f : rpm_package_info → rpm_package_info) (p : primary) : primary :=
  Primary (p_base_url p) (f (p_info p)) (p_href p) (p_checksum p).
Definition set_href (h : bytes) (p : primary) : primary := Primary (p_base_url p) (p_info p) h (p_checksum p).
Definition set_csum (c : checksum) (p : primary) : primary := Primary (p_base_url p) (p_info p) (p_href p) c.
(** The name, version, release, architecture, source package, hash and epoch. *)
Definition info_with (i : rpm_package_info) (name version release arch source_rpm hash : bytes) (epoch : Z) : rpm_package_info :=
  RpmPackageInfo name version release arch source_rpm hash (pi_build_host i) (pi_summary i) (pi_description i)
    (pi_license i) (pi_group i) (pi_build_time i) epoch (pi_kind i) (pi_normalized i).
Definition set_name (v : bytes) (i : rpm_package_info) : rpm_package_info :=
  info_with i v (pi_version i) (pi_release i) (pi_arch i) (pi_source_rpm i) (pi_hash i) (pi_epoch i).
Definition set_arch (v : bytes) (i : rpm_package_info) : rpm_package_info :=
  info_with i (pi_name i) (pi_version i) (pi_release i) v (pi_source_rpm i) (pi_hash i) (pi_epoch i).
Definition set_source_rpm (v : bytes) (i : rpm_package_info) : rpm_package_info :=
  info_with i (pi_name i) (pi_version i) (pi_release i) (pi_arch i) v (pi_hash i) (pi_epoch i).
Definition set_evr (version release : bytes) (epoch : Z) (i : rpm_package_info) : rpm_package_info :=
  info_with i (pi_name i) version release (pi_arch i) (pi_source_rpm i) (pi_hash i) epoch.

(** Source: lib/symboldb/repomd_primary.cpp 46-59, repomd::primary::impl::clear. *)
Definition clear (p : primary) : primary :=
  Primary (p_base_url p) (info_with (p_info p) [] [] [] [] [] [] (-1)) [] (Checksum [] no_length sha256).

(** [name] is a C string.
    Source: lib/symboldb/repomd_primary.cpp 198-208, repomd::primary::impl::check_attr. *)
Definition check_attr (name value : bytes) (p : primary) : res unit :=
  if bool_decide (value = []) then
    Throw (runtime_error (str "missing " ++ name ++ str " element in package: " ++ pi_name (p_info p)))
  else Ok tt.

(** Source: lib/symboldb/repomd_primary.cpp 61-78, repomd::primary::impl::validate. *)
Definition validate (p : primary) : res unit :=
  (if bool_decide (pi_name (p_info p) = []) then Throw (runtime_error (str "missing <name> element")) else Ok tt);;
  check_attr (str "<version>") (pi_version (p_info p)) p;;
  check_attr (str "<arch>") (pi_arch (p_info p)) p;;
  check_attr (str "<location>/href") (p_href p) p;;
  (if bool_decide (csum_value (p_checksum p) = []) then Throw (runtime_error (str "missing <checksum> element")) else Ok tt);;
  (if csum_length (p_checksum p) =? no_length then Throw (runtime_error (str "missing <size> element")) else Ok tt).

(** The values of the attributes, before they are stripped.
    Source: lib/symboldb/repomd_primary.cpp 157-170, repomd::primary::impl::process_version. *)
Definition assign_version (ver rel epoch : bytes) (p : primary) : primary :=
  let release := strip rel in
  match parse_unsigned_long_long (strip epoch) with
  | Some epoch =>
      if epoch =? u64 (to_signed 32 epoch) then set_info (set_evr (strip ver) release (to_signed 32 epoch)) p
      else set_info (λ i, set_evr [] release (pi_epoch i) i) p
  | None => set_info (λ i, set_evr [] release (pi_epoch i) i) p
  end.

(** Source: lib/symboldb/repomd_primary.cpp 136-143, repomd::primary::impl::next. *)
Definition assign_location (xmlbase href : bytes) (p : primary) : primary :=
  set_href (url_combine_yum (until_nul (if bool_decide (xmlbase = []) then p_base_url p else xmlbase)) (until_nul href)) p.

(** Source: lib/symboldb/repomd_primary.cpp 131-133, repomd::primary::impl::next. *)
Definition assign_size (package : bytes) (p : primary) : primary :=
  match parse_unsigned_long_long package with
  | Some n => set_csum (Checksum (csum_value (p_checksum p)) n (csum_type (p_checksum p))) p
  | None => p
  end.

(** Source: lib/symboldb/repomd_primary.cpp 127-128, repomd::primary::impl::next. *)
Definition assign_checksum (type text : bytes) (p : primary) : res unit * primary :=
  let '(r, c) := set_hexadecimal (p_checksum p) type (csum_length (p_checksum p)) text in (r, set_csum c p).

Section primary.
Context {X : Type} `{XmlOps X}.
(** The parser [source_] and the other fields. *)
Abbreviation M := (xm (X * primary)).

(** The elements whose text is assigned.
    Source: lib/symboldb/repomd_primary.cpp 113-120, repomd::primary::impl::next. *)
Definition process_text (fuel : nat) (assign : bytes → primary → res unit * primary) : M unit :=
  xlift (x_next fuel);;
  text ← xlift (text_and_next fuel);
  (λ s, let '(r, p) := assign text s.2 in Some (r, (s.1, p)));;
  xlift (unnest fuel).

(** Source: lib/symboldb/repomd_primary.cpp 157-172, repomd::primary::impl::process_version. *)
Definition process_version (fuel : nat) : M unit :=
  ver ← xlift (xm_get (x_attribute (str "ver")));
  rel ← xlift (xm_get (x_attribute (str "rel")));
  epoch ← xlift (xm_get (x_attribute (str "epoch")));
  xput (assign_version ver rel epoch);;
  xlift (skip fuel).

(** Source: lib/symboldb/repomd_primary.cpp 178-193, repomd::primary::impl::process_format. *)
Fixpoint format_loop (fuel : nat) : M unit :=
  match fuel with
  | O => λ _, None
  | S fuel =>
      st ← xlift xm_state;
      if bool_decide (st = END) then mret tt
      else if bool_decide (st = TEXT) then xlift (skip fuel);; format_loop fuel
      else
        name ← xlift (xm_get x_name);
        if bool_decide (name = str "rpm:sourcerpm") then
          xlift (x_next fuel);;
          st ← xlift xm_state;
          (if bool_decide (st = TEXT) then
             text ← xlift (text_and_next fuel); xput (set_info (set_source_rpm text))
           else mret tt);;
          xlift (unnest fuel);;
          format_loop fuel
        else xlift (skip fuel);; format_loop fuel
  end.

(** Source: lib/symboldb/repomd_primary.cpp 174-195, repomd::primary::impl::process_format. *)
Definition process_format (fuel : nat) : M unit :=
  xlift (x_next fuel);;
  format_loop fuel;;
  xlift (x_next fuel);;
  mret tt.

(** One child element of a package.
    Source: lib/symboldb/repomd_primary.cpp 112-149, repomd::primary::impl::next. *)
Definition process_element (fuel : nat) (tag : bytes) : M unit :=
  if bool_decide (tag = str "name") then
    process_text fuel (λ t p, (Ok tt, set_info (set_name t) p))
  else if bool_decide (tag = str "arch") then
    process_text fuel (λ t p, (Ok tt, set_info (set_arch t) p))
  else if bool_decide (tag = str "version") then process_version fuel
  else if bool_decide (tag = str "checksum") then
    type ← xlift (xm_get (x_attribute (str "type")));
    process_text fuel (assign_checksum type)
  else if bool_decide (tag = str "size") then
    package ← xlift (xm_get (x_attribute (str "package")));
    xput (assign_size package);;
    xlift (skip fuel)
  else if bool_decide (tag = str "location") then
    xmlbase ← xlift (xm_get (x_attribute (str "xml:base")));
    href ← xlift (xm_get (x_attribute (str "href")));
    xput (assign_location xmlbase href);;
    xlift (skip fuel)
  else if bool_decide (tag = str "format") then process_format fuel
  else xlift (skip fuel).

(** Source: lib/symboldb/repomd_primary.cpp 106-150, repomd::primary::impl::next. *)
Fixpoint package_loop (fuel : nat) : M unit :=
  match fuel with
  | O => λ _, None
  | S fuel =>
      st ← xlift xm_state;
      if bool_decide (st = END) then mret tt
      else if bool_decide (st = TEXT) then xlift (skip fuel);; package_loop fuel
      else
        tag ← xlift (xm_get x_name);
        process_element fuel tag;;
        package_loop fuel
  end.

(** Source: lib/symboldb/repomd_primary.cpp 86-95, repomd::primary::impl::next. *)
Fixpoint find_package (fuel : nat) : M bool :=
  match fuel with
  | O => λ _, None
  | S fuel =>
      st ← xlift xm_state;
      if bool_decide (st = END) then mret false
      else
        name ← (if bool_decide (st = START) then xlift (xm_get x_name) else mret []);
        if bool_decide (st = START) && bool_decide (name = str "package") then mret true
        else xlift (skip fuel);; find_package fuel
  end.

(** Source: lib/symboldb/repomd_primary.cpp 82-155, repomd::primary::impl::next. *)
Definition primary_next (fuel : nat) : M bool :=
  xput clear;;
  found ← find_package fuel;
  if found : bool then
    type ← xlift (xm_get (x_attribute (str "type")));
    if bool_decide (type ≠ str "rpm") then xm_throw (runtime_error (str "invalid package type: " ++ type))
    else
      xlift (x_next fuel);;
      package_loop fuel;;
      xlift (x_next fuel);;
      xfield validate;;
      mret true
  else mret false.

(** The constructor, on a new parser; [base_url] is a C string.
    Source: lib/symboldb/repomd_primary.cpp 35-44, repomd::primary::impl::impl. *)
Definition primary_new (fuel : nat) (base_url : bytes) : M unit :=
  xput (λ _, Primary base_url rpm_package_info_new [] checksum_new);;
  xlift (x_next fuel);;
  name ← xlift (xm_get x_name);
  if bool_decide (name ≠ str "metadata") then
    xm_throw (runtime_error (str "invalid root element: " ++ name))
  else xlift (x_next fuel);; mret tt.
End primary.

(** ** The specification on trees *)

(** The text at the start of an element; the code insists on it. *)
Definition text_at (cs : list dom) : res bytes :=
  match cs with
  | DText t :: _ => Ok t
  | [] => illegal_state END TEXT
  | DElement _ _ _ :: _ => illegal_state START TEXT
  end.

Definition format_step (p : primary) (d : dom) : primary :=
  match d with
  | DElement name _ (DText t :: _) =>
      if bool_decide (name = str "rpm:sourcerpm") then set_info (set_source_rpm t) p else p
  | _ => p
  end.

(** What a child of the package element does to the fields. *)
Definition element_step (p : primary) (d : dom) : res primary :=
  match d with
  | DText _ => Ok p
  | DElement tag _ cs =>
      let attr := dom_attribute d in
      if bool_decide (tag = str "name") then t ← text_at cs; Ok (set_info (set_name t) p)
      else if bool_decide (tag = str "arch") then t ← text_at cs; Ok (set_info (set_arch t) p)
      else if bool_decide (tag = str "version") then
        Ok (assign_version (attr (str "ver")) (attr (str "rel")) (attr (str "epoch")) p)
      else if bool_decide (tag = str "checksum") then
        t ← text_at cs;
        match assign_checksum (attr (str "type")) t p with (Ok _, p) => Ok p | (Throw e, _) => Throw e end
      else if bool_decide (tag = str "size") then Ok (assign_size (attr (str "package")) p)
      else if bool_decide (tag = str "location") then
        Ok (assign_location (attr (str "xml:base")) (attr (str "href")) p)
      else if bool_decide (tag = str "format") then Ok (foldl format_step p cs)
      else Ok p
  end.

Fixpoint package_fold (p : primary) (ds : list dom) : res primary :=
  match ds with
  | [] => Ok p
  | d :: ds => p ← element_step p d; package_fold p ds
  end.

(** ** Lemmas *)

Section proofs.
Context {X : Type} `{XmlSource X}.

(** The outcome [r], with the parser at [es] if there is no exception. *)
Definition ends (r : res primary) (es : list xevent) (res : res unit) (s : X * primary) : Prop :=
  match r with
  | Ok p => res = Ok tt ∧ s.2 = p ∧ at_events s.1 es
  | Throw e => res = Throw e
  end.

Lemma xwp_last (m : nat → xm X unit) x p es : leads m x tt es → xwp (λ fuel, xlift (m fuel)) (x, p) (ends (Ok p) es).
Proof.
  intros (n & x' & Hn & Hx'). exists n, (Ok tt), (x', p). split; [|done].
  intros fuel Hf. unfold xlift. cbn [fst snd]. by rewrite Hn.
Qed.
Lemma xwp_seq (m f : nat → xm (X * primary) unit) x p r mid k es :
  xwp m (x, p) (ends r mid) →
  (∀ x' p', r = Ok p' → at_events x' mid → xwp f (x', p') (ends (k p') es)) →
  xwp (λ fuel, m fuel ≫= λ _, f fuel) (x, p) (ends (mbind k r) es).
Proof.
  intros Hm Hf. apply (xwp_bind m (λ _ fuel, f fuel)). eapply xwp_mono; [exact Hm|].
  intros res [x' p'] Hr. destruct r as [p1|e]; cbn [ends mbind res_bind fst snd] in *; [|by subst].
  destruct Hr as (-> & -> & Hx'). by apply Hf.
Qed.

(** Reading the text of an element. *)
Definition assign_res (assign : bytes → primary → res unit * primary) (t : bytes) (p : primary) : res primary :=
  match assign t p with (Ok _, p) => Ok p | (Throw e, _) => Throw e end.
Lemma process_text_wp assign name attrs inner cs x p es : builds inner cs → 1 + zlen inner < 2 ^ 32 →
  at_events x (XStart name attrs :: inner ++ XEnd :: es) →
  xwp (λ fuel, process_text fuel assign) (x, p) (ends (t ← text_at cs; assign_res assign t p) es).
Proof.
  intros Hb Hmax Hx. unfold process_text.
  apply (xwp_leads x_next (λ _ fuel, text ← xlift (text_and_next fuel);
    (λ s, let '(r, p) := assign text s.2 in Some (r, (s.1, p)));; xlift (unnest fuel))
    x p _ _ _ (leads_next _ _ (at_ahead _ _ _ Hx))). intros x1 Hx1.
  assert (text_at cs = illegal_state (x_state x1) TEXT → x_state x1 ≠ TEXT →
    xwp (λ fuel, text ← xlift (text_and_next fuel);
      (λ s, let '(r, p) := assign text s.2 in Some (r, (s.1, p)));; xlift (unnest fuel)) (x1, p)
      (ends (t ← text_at cs; assign_res assign t p) es)) as Hbad.
  { intros Et Hs. rewrite Et. exists O, (illegal_state (x_state x1) TEXT), (x1, p). split; [|done].
    intros fuel _. destruct (x_accessors x1) as [_ Ht]. specialize (Ht Hs).
    unfold text_and_next, mbind, fsx_bind, xlift, xm_get. cbn [fst snd]. by rewrite Ht. }
  pose proof (at_state _ _ Hx1) as Hs1.
  destruct Hb as [|t ts rest ds Hrest Hb|nm at' inner' cs' rest ds Hb1 Hb2];
    [by apply Hbad; rewrite Hs1| |by apply Hbad; rewrite Hs1].
  clear Hbad. cbn [text_at mbind res_bind].
  rewrite zlen_cons, zlen_app in Hmax. pose proof (zlen_nonneg (XText <$> ts)).
  rewrite <- app_comm_cons, <- app_assoc in Hx1.
  apply (xwp_leads text_and_next (λ text fuel, (λ s, let '(r, p) := assign text s.2 in Some (r, (s.1, p)));; xlift (unnest fuel))
    x1 p _ _ _ (leads_text_and_next t ts x1 (rest ++ XEnd :: es) Hx1
      ltac:(by destruct rest; intros ? ? E; [|injection E as -> <-; eapply Hrest]))). intros x2 Hx2.
  apply (xwp_bind (λ _ s, let '(r, p) := assign (t ++ concat ts) s.2 in Some (r, (s.1, p))) (λ _ fuel, xlift (unnest fuel))).
  unfold assign_res. destruct (assign (t ++ concat ts) p) as [r p'] eqn:Ea.
  apply (xwp_det _ _ r (x2, p')); [intros _; cbn [fst snd]; by rewrite Ea|].
  destruct r as [[]|e]; [|done]. apply xwp_last. apply (leads_unnest rest); [by eapply builds_content|lia|done].
Qed.

(** The attributes and then the rest of the element. *)
Lemma xwp_put_skip f name attrs inner cs x p es : builds inner cs → 1 + zlen inner < 2 ^ 32 →
  at_events x (XStart name attrs :: inner ++ XEnd :: es) →
  xwp (λ fuel, xput f ≫= λ _, xlift (skip fuel)) (x, p) (ends (Ok (f p)) es).
Proof.
  intros Hb Hmax Hx. apply (xwp_put f (λ _ fuel, xlift (skip fuel))), xwp_last.
  apply (leads_skip_element name attrs inner); [by eapply builds_content|done|done].
Qed.
Lemma process_version_wp name attrs inner cs x p es : builds inner cs → 1 + zlen inner < 2 ^ 32 →
  at_events x (XStart name attrs :: inner ++ XEnd :: es) →
  xwp process_version (x, p) (ends (Ok (assign_version (attribute_value (str "ver") attrs)
    (attribute_value (str "rel") attrs) (attribute_value (str "epoch") attrs) p)) es).
Proof.
  intros Hb Hmax Hx. pose proof Hx as [[_ (_ & _ & Hattr & _)] _].
  eapply xwp_ext; [|by apply (xwp_put_skip _ name attrs inner cs)]. intros fuel.
  unfold process_version, mbind, fsx_bind, xlift, xm_get. cbn [fst snd]. by rewrite !Hattr.
Qed.

(** A loop round that skips something and goes on. *)
Lemma round_skip (loop : nat → xm (X * primary) unit) x p mid Q :
  (∀ fuel, loop (S fuel) (x, p) = (xlift (skip fuel) ≫= λ _, loop fuel) (x, p)) →
  leads skip x tt mid → (∀ x', at_events x' mid → xwp loop (x', p) Q) → xwp loop (x, p) Q.
Proof.
  intros E Hskip Hloop. apply (xwp_S _ (λ fuel, xlift (skip fuel) ≫= λ _, loop fuel)); [exact E|].
  by apply (xwp_leads skip (λ _ fuel, loop fuel) x p tt mid Q Hskip).
Qed.

(** <rpm:sourcerpm>, with or without text. *)
Definition source_rpm_element (fuel : nat) : xm (X * primary) unit :=
  xlift (x_next fuel);;
  st ← xlift xm_state;
  (if bool_decide (st = TEXT) then
     text ← xlift (text_and_next fuel); xput (set_info (set_source_rpm text))
   else mret tt);;
  xlift (unnest fuel).
Lemma source_rpm_element_wp attrs inner cs x p es : builds inner cs → 1 + zlen inner < 2 ^ 32 →
  at_events x (XStart (str "rpm:sourcerpm") attrs :: inner ++ XEnd :: es) →
  xwp source_rpm_element (x, p) (ends (Ok (format_step p (DElement (str "rpm:sourcerpm") (attribute_map attrs) cs))) es).
Proof.
  intros Hb Hmax Hx. unfold source_rpm_element, format_step. rewrite bool_decide_eq_true_2 by done.
  apply (xwp_leads x_next (λ _ fuel, st ← xlift xm_state;
    (if bool_decide (st = TEXT) then text ← xlift (text_and_next fuel); xput (set_info (set_source_rpm text))
     else mret tt);; xlift (unnest fuel)) x p _ _ _ (leads_next _ _ (at_ahead _ _ _ Hx))). intros x1 Hx1.
  apply (xwp_state (λ st fuel, (if bool_decide (st = TEXT) then text ← xlift (text_and_next fuel);
    xput (set_info (set_source_rpm text)) else mret tt);; xlift (unnest fuel)) x1 p _ _ (at_state _ _ Hx1)).
  pose proof (builds_content _ _ Hb) as Hc.
  assert (∀ rest x2 p2, content rest → 1 + zlen rest < 2 ^ 32 → at_events x2 (rest ++ XEnd :: es) →
    xwp (λ fuel, xlift (unnest fuel)) (x2, p2) (ends (Ok p2) es)) as Hun.
  { intros rest x2 p2 Hrc Hm Hx2. by apply xwp_last, (leads_unnest rest). }
  destruct Hb as [|t ts rest ds Hrest Hb|nm at' inner' cs' rest ds Hb1 Hb2].
  1,3: apply (xwp_bind (λ _, mret tt) (λ _ fuel, xlift (unnest fuel))), (xwp_det _ _ (Ok tt) (x1, p)); [done|];
    by eapply Hun.
  rewrite zlen_cons, zlen_app in Hmax. pose proof (zlen_nonneg (XText <$> ts)).
  rewrite <- app_comm_cons, <- app_assoc in Hx1.
  apply (xwp_bind (λ fuel, text ← xlift (text_and_next fuel); xput (set_info (set_source_rpm text)))
    (λ _ fuel, xlift (unnest fuel))).
  apply (xwp_leads text_and_next (λ text _, xput (set_info (set_source_rpm text))) x1 p _ _ _
    (leads_text_and_next t ts x1 (rest ++ XEnd :: es) Hx1
      ltac:(by destruct rest; intros ? ? E; [|injection E as -> <-; eapply Hrest]))). intros x2 Hx2.
  apply (xwp_det _ _ (Ok tt) (x2, set_info (set_source_rpm (t ++ concat ts)) p)); [done|].
  apply (Hun rest); [by eapply builds_content|lia|done].
Qed.

Lemma format_loop_wp inner cs : builds inner cs → ∀ x p es, 1 + zlen inner < 2 ^ 32 →
  at_events x (inner ++ XEnd :: es) →
  xwp format_loop (x, p) (ends (Ok (foldl format_step p cs)) (XEnd :: es)).
Proof.
  induction 1 as [|t ts rest ds Hrest _ IH|name attrs inner cs rest ds Hb _ _ IH]; intros x p es Hmax Hx.
  - apply (xwp_S _ (λ _, mret tt)); [|by apply (xwp_det _ _ (Ok tt) (x, p))].
    intros fuel. cbn [format_loop]. unfold mbind at 1, fsx_bind at 1, xlift at 1, xm_state. cbn [fst snd].
    by rewrite (at_state _ _ Hx).
  - rewrite zlen_cons, zlen_app in Hmax. pose proof (zlen_nonneg (XText <$> ts)).
    rewrite <- app_comm_cons, <- app_assoc in Hx. cbn [foldl format_step].
    apply (round_skip format_loop x p (rest ++ XEnd :: es)).
    + intros fuel. cbn [format_loop]. unfold mbind at 1, fsx_bind at 1, xlift at 1, xm_state. cbn [fst snd].
      by rewrite (at_state _ _ Hx).
    + apply (leads_skip_run t ts _ x Hx). intros u es'. destruct rest; [done|]. intros E. injection E as -> <-. by eapply Hrest.
    + intros x' Hx'. apply IH; [lia|done].
  - rewrite zlen_cons, zlen_app, zlen_cons in Hmax. pose proof (zlen_nonneg inner). pose proof (zlen_nonneg rest).
    rewrite <- app_comm_cons, <- app_assoc in Hx. pose proof Hx as [[Hs (Hname & _)] _]. cbn [foldl].
    destruct (bool_decide_reflect (name = str "rpm:sourcerpm")) as [->|Hne].
    + apply (xwp_S _ (λ fuel, source_rpm_element fuel ≫= λ _, format_loop fuel)).
      * intros fuel. cbn [format_loop]. unfold mbind at 1, fsx_bind at 1, xlift at 1, xm_state. cbn [fst snd].
        rewrite Hs. change (bool_decide (event_state _ = END)) with false. change (bool_decide (event_state _ = TEXT)) with false.
        cbv iota. unfold mbind at 1, fsx_bind at 1, xlift at 1, xm_get. cbn [fst snd]. rewrite Hname. rewrite (bool_decide_eq_true_2 (str "rpm:sourcerpm" = _)) by done.
        unfold source_rpm_element, mbind, fsx_bind, xlift, xm_state, xput. cbn [fst snd].
        destruct (x_next fuel x) as [[[b|e] x1]|]; cbn [fst snd]; [|done..].
        destruct (bool_decide (x_state x1 = TEXT)); cbn [mret fsx_ret fst snd]; [|by destruct (unnest fuel x1) as [[[]]|]].
        destruct (text_and_next fuel x1) as [[[t|e] x2]|]; cbn [fst snd]; [|done..].
        by destruct (unnest fuel x2) as [[[]]|].
      * eapply xwp_bind, xwp_mono; [apply (source_rpm_element_wp attrs inner cs x p (rest ++ XEnd :: es) Hb); [lia|done]|].
        intros r [x' p'] (-> & Hp & Hx'). cbn [fst snd] in *. rewrite Hp. apply (IH x' _ es); [lia|done].
    + assert (format_step p (DElement name (attribute_map attrs) cs) = p) as ->.
      { unfold format_step. destruct cs as [|[] cs]; try done. by rewrite bool_decide_eq_false_2. }
      apply (round_skip format_loop x p (rest ++ XEnd :: es)).
      * intros fuel. cbn [format_loop]. unfold mbind at 1, fsx_bind at 1, xlift at 1, xm_state. cbn [fst snd].
        rewrite Hs. change (bool_decide (event_state _ = END)) with false. change (bool_decide (event_state _ = TEXT)) with false.
        cbv iota. unfold mbind at 1, fsx_bind at 1, xlift at 1, xm_get. cbn [fst snd]. rewrite Hname. by rewrite (bool_decide_eq_false_2 (name = _)).
      * apply (leads_skip_element name attrs inner); [by eapply builds_content|lia|done].
      * intros x' Hx'. apply IH; [lia|done].
Qed.
Lemma process_format_wp name attrs inner cs x p es : builds inner cs → 1 + zlen inner < 2 ^ 32 →
  at_events x (XStart name attrs :: inner ++ XEnd :: es) →
  xwp process_format (x, p) (ends (Ok (foldl format_step p cs)) es).
Proof.
  intros Hb Hmax Hx. unfold process_format.
  apply (xwp_leads x_next (λ _ fuel, format_loop fuel;; xlift (x_next fuel);; mret tt) x p _ _ _
    (leads_next _ _ (at_ahead _ _ _ Hx))). intros x1 Hx1.
  apply (xwp_bind format_loop (λ _ fuel, xlift (x_next fuel);; mret tt)). eapply xwp_mono; [by apply (format_loop_wp inner cs Hb)|].
  intros r [x2 p2] (-> & Hp & Hx2). cbn [fst snd] in *. subst p2.
  apply (xwp_leads x_next (λ _ _, mret tt) x2 _ _ _ _ (leads_next _ _ (at_ahead _ _ _ Hx2))). intros x3 Hx3.
  by apply (xwp_det _ _ (Ok tt) (x3, foldl format_step p cs)).
Qed.

(** One child of the package. *)
Lemma process_element_wp tag attrs inner cs x p es : builds inner cs → 1 + zlen inner < 2 ^ 32 →
  at_events x (XStart tag attrs :: inner ++ XEnd :: es) →
  xwp (λ fuel, process_element fuel tag) (x, p) (ends (element_step p (DElement tag (attribute_map attrs) cs)) es).
Proof.
  intros Hb Hmax Hx. pose proof Hx as [[_ (_ & _ & Hattr & _)] _].
  unfold process_element, element_step, dom_attribute. cbn [attributes_of]. rewrite !attribute_map_find.
  repeat match goal with |- context [bool_decide (tag = str ?s)] =>
    destruct (bool_decide_reflect (tag = str s)) as [_|_] end.
  - apply (process_text_wp (λ t p, (Ok tt, set_info (set_name t) p)) tag attrs inner cs); done.
  - apply (process_text_wp (λ t p, (Ok tt, set_info (set_arch t) p)) tag attrs inner cs); done.
  - by apply (process_version_wp tag attrs inner cs).
  - apply (xwp_get (x_attribute (str "type")) (λ type fuel, process_text fuel (assign_checksum type)) x p _ _ (Hattr _)).
    by apply (process_text_wp (assign_checksum _) tag attrs inner cs).
  - apply (xwp_get (x_attribute (str "package")) (λ package fuel, xput (assign_size package);; xlift (skip fuel)) x p _ _ (Hattr _)).
    by apply (xwp_put_skip _ tag attrs inner cs).
  - apply (xwp_get (x_attribute (str "xml:base")) (λ xmlbase fuel, href ← xlift (xm_get (x_attribute (str "href")));
      xput (assign_location xmlbase href);; xlift (skip fuel)) x p _ _ (Hattr _)).
    apply (xwp_get (x_attribute (str "href")) (λ href fuel, xput (assign_location _ href);; xlift (skip fuel)) x p _ _ (Hattr _)).
    by apply (xwp_put_skip _ tag attrs inner cs).
  - by apply (process_format_wp tag attrs inner cs).
  - apply xwp_last, (leads_skip_element tag attrs inner); [by eapply builds_content|done|done].
Qed.

Lemma package_loop_wp inner cs : builds inner cs → ∀ x p es, 1 + zlen inner < 2 ^ 32 →
  at_events x (inner ++ XEnd :: es) → xwp package_loop (x, p) (ends (package_fold p cs) (XEnd :: es)).
Proof.
  induction 1 as [|t ts rest ds Hrest _ IH|name attrs inner cs rest ds Hb _ _ IH]; intros x p es Hmax Hx.
  - apply (xwp_S _ (λ _, mret tt)); [|by apply (xwp_det _ _ (Ok tt) (x, p))].
    intros fuel. cbn [package_loop]. unfold mbind at 1, fsx_bind at 1, xlift at 1, xm_state. cbn [fst snd].
    by rewrite (at_state _ _ Hx).
  - rewrite zlen_cons, zlen_app in Hmax. pose proof (zlen_nonneg (XText <$> ts)).
    rewrite <- app_comm_cons, <- app_assoc in Hx. cbn [package_fold element_step mbind res_bind].
    apply (round_skip package_loop x p (rest ++ XEnd :: es)).
    + intros fuel. cbn [package_loop]. unfold mbind at 1, fsx_bind at 1, xlift at 1, xm_state. cbn [fst snd].
      by rewrite (at_state _ _ Hx).
    + apply (leads_skip_run t ts _ x Hx). intros u es'. destruct rest; [done|]. intros E. injection E as -> <-. by eapply Hrest.
    + intros x' Hx'. apply IH; [lia|done].
  - rewrite zlen_cons, zlen_app, zlen_cons in Hmax. pose proof (zlen_nonneg inner). pose proof (zlen_nonneg rest).
    rewrite <- app_comm_cons, <- app_assoc in Hx. pose proof Hx as [[Hs (Hname & _)] _]. cbn [package_fold].
    apply (xwp_S _ (λ fuel, process_element fuel name ≫= λ _, package_loop fuel)).
    + intros fuel. cbn [package_loop]. unfold mbind at 1, fsx_bind at 1, xlift at 1, xm_state. cbn [fst snd].
      rewrite Hs. change (bool_decide (event_state _ = END)) with false. change (bool_decide (event_state _ = TEXT)) with false.
      cbv iota. unfold mbind at 1, fsx_bind at 1, xlift at 1, xm_get. cbn [fst snd]. by rewrite Hname.
    + apply (xwp_seq (λ fuel, process_element fuel name) package_loop x p _ (rest ++ XEnd :: es) (λ p, package_fold p ds)).
      * apply (process_element_wp name attrs inner cs); [done|lia|done].
      * intros x' p' _ Hx'. apply IH; [lia|done].
Qed.

(** The siblings in front of the next package. *)
Definition no_package (d : dom) : Prop := is_element (str "package") d = false.
Lemma find_package_wp pre dpre : builds pre dpre → Forall no_package dpre → ∀ x p e es Q, 1 + zlen pre < 2 ^ 32 →
  at_events x (pre ++ e :: es) → event_state e ≠ TEXT →
  (∀ x', at_events x' (e :: es) → xwp find_package (x', p) Q) → xwp find_package (x, p) Q.
Proof.
  induction 1 as [|t ts rest ds Hrest _ IH|name attrs inner cs rest ds Hb _ _ IH]; intros Hnp x p e es Q Hmax Hx He Hcont.
  - by apply Hcont.
  - rewrite zlen_cons, zlen_app in Hmax. pose proof (zlen_nonneg (XText <$> ts)). apply Forall_cons in Hnp as [_ Hnp].
    rewrite <- app_comm_cons, <- app_assoc in Hx.
    apply (xwp_S _ (λ fuel, xlift (skip fuel) ≫= λ _, find_package fuel)).
    + intros fuel. cbn [find_package]. unfold mbind at 1, fsx_bind at 1, xlift at 1, xm_state. cbn [fst snd].
      by rewrite (at_state _ _ Hx).
    + apply (xwp_leads skip (λ _ fuel, find_package fuel) x p tt (rest ++ e :: es)).
      * apply (leads_skip_run t ts _ x Hx). intros u es'. destruct rest; intros E; injection E as -> <-; [done|by eapply Hrest].
      * intros x' Hx'. apply (IH Hnp x' p e es); [lia|done..].
  - rewrite zlen_cons, zlen_app, zlen_cons in Hmax. pose proof (zlen_nonneg inner). pose proof (zlen_nonneg rest).
    apply Forall_cons in Hnp as [Hn Hnp]. unfold no_package in Hn. cbn [is_element] in Hn.
    rewrite <- app_comm_cons, <- app_assoc in Hx. pose proof Hx as [[Hs (Hname & _)] _].
    apply (xwp_S _ (λ fuel, xlift (skip fuel) ≫= λ _, find_package fuel)).
    + intros fuel. cbn [find_package]. unfold mbind at 1, fsx_bind at 1, xlift at 1, xm_state. cbn [fst snd].
      rewrite Hs. change (bool_decide (event_state _ = END)) with false. change (bool_decide (event_state _ = START)) with true.
      cbv iota. unfold mbind at 1, fsx_bind at 1, xlift at 1, xm_get. cbn [fst snd]. rewrite Hname. by rewrite Hn.
    + apply (xwp_leads skip (λ _ fuel, find_package fuel) x p tt (rest ++ e :: es)).
      * apply (leads_skip_element name attrs inner); [by eapply builds_content|lia|done].
      * intros x' Hx'. apply (IH Hnp x' p e es); [lia|done..].
Qed.
End proofs.

(** ** Properties *)

(** An object that no package has left anything in. *)
Definition blank (p : primary) : primary :=
  let i := p_info p in
  Primary (p_base_url p)
    (RpmPackageInfo [] [] [] [] [] [] (pi_build_host i) (pi_summary i) (pi_description i) (pi_license i) (pi_group i)
       (pi_build_time i) (-1) (pi_kind i) (pi_normalized i)) [] checksum_new.
Lemma blank_clear p : blank p = clear p.
Proof. reflexivity. Qed.

(** The outcome of one call of [next] at a package with the children [ds]. *)
Definition package_outcome (p : primary) (type : bytes) (ds : list dom) : res primary :=
  if bool_decide (type = str "rpm") then
    p ← package_fold (blank p) ds;
    validate p;;
    Ok p
  else Throw (runtime_error (str "invalid package type: " ++ type)).


Definition sample_primary : primary := Primary (str "http://h") rpm_package_info_new [] checksum_new.
Definition sample_package : list dom :=
  [DText (str " "); DElement (str "name") [] [DText (str "bash")];
   DElement (str "version") [(str "epoch", str "0"); (str "rel", str "2"); (str "ver", str "1")] [];
   DElement (str "arch") [] [DText (str "noarch")]].
