(* ===== verification/Database.v ===== *)
(** * The database (include/symboldb/database.hpp, lib/symboldb/database.cpp)

    Every member function of [database], as a computation over [dbst]: the state of
    libpq with the connection and the result handle in scope ([PgQuery.pgst]), the
    cache of file attributes, and, for [print_elf_soname_conflicts], the cache of
    file names and the standard output.  The statements are the strings of the
    source; the server that interprets them is part of libpq.

    [update_elf_closure] is completed here with its queries and the upload; what it
    computes in between is in ElfLookup.v and ElfClosure.v.

    [database_balanced] shows that no member function loses or doubly frees a query
    result, on any path; the other theorems are about the attribute cache, the
    checks of ranges, and the functions that interpret results. *)

From S2P Require Import Prelude StringSupport Binary Hash JavaClass PgSplit PgPrivate PgQuery SortedMap RpmInfo Maven ElfLookup ElfClosure.

(** ** Table names *)

(** Source: lib/symboldb/database.cpp 58-58, PACKAGE_TABLE. *)
Definition PACKAGE_TABLE : bytes := str "symboldb.package".
(** Source: lib/symboldb/database.cpp 59-59, PACKAGE_DIGEST_TABLE. *)
Definition PACKAGE_DIGEST_TABLE : bytes := str "symboldb.package_digest".
(** Source: lib/symboldb/database.cpp 60-60, PACKAGE_DEPENDENCY_TABLE. *)
Definition PACKAGE_DEPENDENCY_TABLE : bytes := str "symboldb.package_dependency".
(** Source: lib/symboldb/database.cpp 61-61, PACKAGE_SCRIPT_TABLE. *)
Definition PACKAGE_SCRIPT_TABLE : bytes := str "symboldb.package_script".
(** Source: lib/symboldb/database.cpp 62-62, PACKAGE_TRIGGER_SCRIPT_TABLE. *)
Definition PACKAGE_TRIGGER_SCRIPT_TABLE : bytes := str "symboldb.package_trigger_script".
(** Source: lib/symboldb/database.cpp 63-63, PACKAGE_TRIGGER_CONDITION_TABLE. *)
Definition PACKAGE_TRIGGER_CONDITION_TABLE : bytes := str "symboldb.package_trigger_condition".
(** Source: lib/symboldb/database.cpp 64-64, FILE_TABLE. *)
Definition FILE_TABLE : bytes := str "symboldb.file".
(** Source: lib/symboldb/database.cpp 65-65, FILE_CONTENTS_TABLE. *)
Definition FILE_CONTENTS_TABLE : bytes := str "symboldb.file_contents".
(** Source: lib/symboldb/database.cpp 66-66, DIRECTORY_TABLE. *)
Definition DIRECTORY_TABLE : bytes := str "symboldb.directory".
(** Source: lib/symboldb/database.cpp 67-67, SYMLINK_TABLE. *)
Definition SYMLINK_TABLE : bytes := str "symboldb.symlink".
(** Source: lib/symboldb/database.cpp 68-68, ELF_FILE_TABLE. *)
Definition ELF_FILE_TABLE : bytes := str "symboldb.elf_file".
(** Source: lib/symboldb/database.cpp 69-69, ELF_PROGRAM_HEADER_TABLE. *)
Definition ELF_PROGRAM_HEADER_TABLE : bytes := str "symboldb.elf_program_header".
(** Source: lib/symboldb/database.cpp 70-70, ELF_DEFINITION_TABLE. *)
Definition ELF_DEFINITION_TABLE : bytes := str "symboldb.elf_definition".
(** Source: lib/symboldb/database.cpp 71-71, ELF_REFERENCE_TABLE. *)
Definition ELF_REFERENCE_TABLE : bytes := str "symboldb.elf_reference".
(** Source: lib/symboldb/database.cpp 72-72, ELF_NEEDED_TABLE. *)
Definition ELF_NEEDED_TABLE : bytes := str "symboldb.elf_needed".
(** Source: lib/symboldb/database.cpp 73-73, ELF_RPATH_TABLE. *)
Definition ELF_RPATH_TABLE : bytes := str "symboldb.elf_rpath".
(** Source: lib/symboldb/database.cpp 74-74, ELF_RUNPATH_TABLE. *)
Definition ELF_RUNPATH_TABLE : bytes := str "symboldb.elf_runpath".
(** Source: lib/symboldb/database.cpp 75-75, ELF_DYNAMIC_TABLE. *)
Definition ELF_DYNAMIC_TABLE : bytes := str "symboldb.elf_dynamic".
(** Source: lib/symboldb/database.cpp 76-76, ELF_ERROR_TABLE. *)
Definition ELF_ERROR_TABLE : bytes := str "symboldb.elf_error".
(** Source: lib/symboldb/database.cpp 77-77, PACKAGE_SET_TABLE. *)
Definition PACKAGE_SET_TABLE : bytes := str "symboldb.package_set".
(** Source: lib/symboldb/database.cpp 78-78, PACKAGE_SET_MEMBER_TABLE. *)
Definition PACKAGE_SET_MEMBER_TABLE : bytes := str "symboldb.package_set_member".
(** Source: lib/symboldb/database.cpp 79-79, URL_CACHE_TABLE. *)
Definition URL_CACHE_TABLE : bytes := str "symboldb.url_cache".

(** ** ELF data *)

(** Source: include/cxxll/elf_symbol.hpp 25-35, elf_symbol. *)
Record elf_symbol := ElfSymbol { symbol_name : bytes; sym_type : Z; sym_binding : Z; sym_other : Z }.

(** [GELF_ST_VISIBILITY (other)] is the low two bits.
    Source: lib/cxxll/elf_symbol.cpp 38-52, elf_symbol::visibility. *)
Definition visibility (s : elf_symbol) : res bytes :=
  let v := Z.land (sym_other s) 3 in
  if v =? 0 then Ok (str "default")
  else if v =? 1 then Ok (str "internal")
  else if v =? 2 then Ok (str "hidden")
  else if v =? 3 then Ok (str "protected")
  else Throw (logic_error (str "invalid visibility value")).

(** Source: include/cxxll/elf_symbol_definition.hpp 25-37, elf_symbol_definition. *)
Record elf_symbol_definition := ElfSymbolDefinition {
  def_symbol : elf_symbol; vda_name : bytes; def_value : Z; def_section : Z; def_xsection : Z; default_version : bool
}.
(** [SHN_XINDEX] is 0xffff.
    Source: lib/cxxll/elf_symbol_definition.cpp 34-38, elf_symbol_definition::has_xsection. *)
Definition has_xsection (d : elf_symbol_definition) : bool := def_section d =? 65535.

(** Source: include/cxxll/elf_symbol_reference.hpp 25-30, elf_symbol_reference. *)
Record elf_symbol_reference := ElfSymbolReference { ref_symbol : elf_symbol; vna_name : bytes; vna_other : Z }.

(** A program header, as the accessors of [program_header_range] return it. *)
Record program_header := ProgramHeader {
  ph_type : Z; ph_file_offset : Z; ph_virt_addr : Z; ph_phys_addr : Z; ph_file_size : Z; ph_memory_size : Z;
  ph_align : Z; ph_readable : bool; ph_writable : bool; ph_executable : bool
}.

(** What [add_elf_image] uses of an [elf_image]: the accessors and the iteration
    over the program headers, which may end with an exception. *)
Class elf_image_ops (I : Type) := {
  interp : I → bytes;
  ei_class : I → Z;
  ei_data : I → Z;
  e_type : I → Z;
  e_machine : I → Z;
  arch : I → option bytes;
  build_id : I → bytes;
  program_headers : I → list program_header * option exn
}.

(** ** State *)

(** Mode, flags, user, group, capabilities, normalized.
    Source: lib/symboldb/database.cpp 83-91, database::impl. *)
Definition attribute_row : Type := Z * Z * bytes * bytes * bytes * bool.

Record dbst (C : Type) := DbSt {
  db_pg : pgst C;
  file_attribute_cache : gmap attribute_row Z;
  file_names : gmap Z (bytes * bytes);
  output : bytes
}.
Arguments DbSt {C}. Arguments db_pg {C}. Arguments file_attribute_cache {C}. Arguments file_names {C}.
Arguments output {C}.

(** Arguments of queries. *)
Definition q_int (z : Z) : pg_arg := by_value (v_int z).
Definition q_long (z : Z) : pg_arg := by_value (v_long_long z).
Definition q_bool (b : bool) : pg_arg := by_value (v_bool b).
Definition q_text (s : bytes) : pg_arg := by_value (v_string s).
Definition q_bytes (s : bytes) : pg_arg := by_value (v_bytea s).
(** A C string, given without its terminator, or a null pointer. *)
Definition q_cstr (s : bytes) : pg_arg := by_value (v_cstring (Some (s ++ [0]))).
Definition q_cstr_or_null (s : option bytes) : pg_arg := by_value (v_cstring ((λ s, s ++ [0]) <$> s)).

Section Database.
Context `{M : machine} {C : Type} `{L : libpq C}.
(** [PQunescapeBytea], and NSS for the hashes. *)
Context (unescape : bytes → option bytes) {N : Type} (nss_ : nss N).
(** The schema files that the build includes. *)
Context (SCHEMA_BASE SCHEMA_INDEX : bytes).

Definition db : Type → Type := sx (dbst C).
Definition set_pg (p : pgst C) (s : dbst C) : dbst C := DbSt p (file_attribute_cache s) (file_names s) (output s).
(** A computation on the connection, and one with a local [pgresult_handle res]. *)
Definition on_pg {A} (m : pg C A) : db A := sx_on db_pg set_pg m.
Definition scope {A} (m : pg C A) : db A := on_pg (with_res m).

Definition load_text_ : loader bytes := load_text unescape.
Definition load_int_ : loader Z := load_int host.

(** ** Connection and transactions *)

(** Source: lib/symboldb/database.cpp 107-111, database::database. *)
Definition database_new : db unit :=
  on_pg (c ← call (λ _, PQconnectdb []); conn_reset c).
(** Source: lib/symboldb/database.cpp 113-123, database::database. *)
Definition database_new_named (host_ dbname : option bytes) : db unit :=
  let keys := [str "host"; str "port"; str "dbname"] in
  let values := [host_; Some (str "5432"); dbname] in
  on_pg (c ← call (λ _, PQconnectdbParams keys values); conn_reset c).
(** Source: lib/symboldb/database.cpp 129-134, database::txn_begin. *)
Definition txn_begin : db unit := scope (exec (str "BEGIN")).
(** Source: lib/symboldb/database.cpp 136-141, database::txn_commit. *)
Definition txn_commit : db unit := scope (exec (str "COMMIT")).
(** Source: lib/symboldb/database.cpp 143-148, database::txn_rollback. *)
Definition txn_rollback : db unit := scope (exec (str "ROLLBACK")).
(** Source: lib/symboldb/database.cpp 150-155, database::txn_begin_no_sync. *)
Definition txn_begin_no_sync : db unit := scope (exec (str "BEGIN; SET LOCAL synchronous_commit TO OFF")).

(** The guard object: a plain one, or one that unlocks in its destructor.
    Source: lib/symboldb/database.cpp 161-166, database::advisory_lock_impl. *)
Inductive advisory_lock := lock_guard | lock_impl (a b : Z).

(** The destructor swallows every exception.
    Source: lib/symboldb/database.cpp 157-176, database::advisory_lock_impl::~advisory_lock_impl. *)
Definition unlock (l : advisory_lock) : db unit :=
  match l with
  | lock_guard => mret tt
  | lock_impl a b => λ s,
      (Ok tt, (scope (pg_query_2 (str "SELECT pg_advisory_unlock($1, $2)") (q_int a) (q_int b)) s).2)
  end.
(** Source: lib/symboldb/database.cpp 178-197, database::lock. *)
Definition lock (a b : Z) : db advisory_lock :=
  scope (
    status ← transactionStatus;
    if status =? PQTRANS_INTRANS then
      pg_query_2 (str "SELECT pg_advisory_xact_lock($1, $2)") (q_int a) (q_int b);;
      mret lock_guard
    else
      pg_query_2 (str "SELECT pg_advisory_lock($1, $2)") (q_int a) (q_int b);;
      mret (lock_impl a b)).
(** The iterators deliver [char] or [unsigned char] values; the shift into the
    sign bit wraps.
    Source: include/symboldb/database.hpp 277-300, database::lock_digest. *)
Definition lock_digest (digest : bytes) : db advisory_lock :=
  if zlen digest <? 8 then sx_throw (logic_error (str "lock_digest: digest is too short"))
  else
    let first i := Z.land (byte_at digest i) 255 in
    let word i := to_signed 32 (Z.lor (Z.lor (Z.lor (Z.shiftl (first i) 24) (Z.shiftl (first (i + 1)) 16))
                    (Z.shiftl (first (i + 2)) 8)) (first (i + 3))) in
    lock (word 0) (word 4).

(** [assert (impl_->conn.transactionStatus () == PQTRANS_INTRANS)]. *)
Definition assert_transaction : db unit :=
  status ← on_pg transactionStatus; sx_res (assert_ (status =? PQTRANS_INTRANS)).

(** ** Identifiers *)

(** Source: lib/symboldb/database.cpp 200-212, get_id. *)
Definition get_id : pg C Z :=
  n ← ntuples;
  if 0 <? n then
    id ← response (pg_response_1 load_int_) 0 0;
    if id <=? 0 then sx_throw (pg_exception (str "database returned invalid ID")) else mret id
  else mret 0.
(** Source: lib/symboldb/database.cpp 214-222, get_id_force. *)
Definition get_id_force : pg C Z :=
  id ← get_id;
  if id <=? 0 then sx_throw (pg_exception (str "unexpected empty result set")) else mret id.

(** ** Packages *)

(** Whether the package is new, and its identifier.
    Source: lib/symboldb/database.cpp 224-278, database::intern_package. *)
Definition intern_package (pkg : rpm_package_info) : db (bool * Z) :=
  scope (
    pg_query_binary_1 (str "SELECT package_id FROM " ++ PACKAGE_TABLE ++ str " WHERE hash = decode($1, 'hex')")
        (q_text (pi_hash pkg));;
    id ← get_id;
    if 0 <? id then mret (false, id)
    else
      let kind := match pi_kind pkg with kind_binary => str "binary" | kind_source => str "source" end in
      let source_rpm := if bool_decide (pi_source_rpm pkg = []) then None else Some (pi_source_rpm pkg) in
      pg_query_binary_15 (str "INSERT INTO " ++ PACKAGE_TABLE
      ++ str " (name, epoch, version, release, arch, hash, source, build_host, build_time, summary,"
      ++ str " description, license, rpm_group, normalized, kind) VALUES ($1, $2, $3, $4, $5, decode($6,"
      ++ str " 'hex'), $7, $8, 'epoch'::TIMESTAMP WITHOUT TIME ZONE + '1 second'::interval * $9, $10,"
      ++ str " $11, $12, $13, $14, $15::symboldb.rpm_kind) RETURNING package_id")
        (q_text (pi_name pkg)) (by_pointer pg_int (if 0 <=? pi_epoch pkg then Some (v_int (pi_epoch pkg)) else None))
        (q_text (pi_version pkg)) (q_text (pi_release pkg)) (q_text (pi_arch pkg)) (q_text (pi_hash pkg))
        (q_cstr_or_null source_rpm) (q_text (pi_build_host pkg)) (q_long (pi_build_time pkg))
        (q_text (pi_summary pkg)) (q_text (pi_description pkg)) (q_text (pi_license pkg)) (q_text (pi_group pkg))
        (q_bool (pi_normalized pkg)) (q_cstr kind);;
      id ← get_id_force;
      mret (true, id)).

(** The vector starts out with 128 zero bytes.
    Source: lib/symboldb/database.cpp 280-308, intern_hash. *)
Definition intern_hash (info : rpm_file_info) : res bytes :=
  let word v := memory_bytes host 4 (cpu_to_le_32 host v) in
  let to_hash := replicate 128 0 ++ word (fi_mode info) ++ word (fi_flags info)
    ++ word (if fi_normalized info then 1 else 0)
    ++ fi_user info ++ [0] ++ fi_group info ++ [0] ++ fi_capabilities info in
  hash nss_ md5 to_hash.

(** Whether the contents are new, and their identifier.
    Source: lib/symboldb/database.cpp 310-336, database::intern_file_contents. *)
Definition intern_file_contents (info : rpm_file_info) (digest contents : bytes) : db (bool * Z) :=
  assert_transaction;;
  let length := to_signed 64 (csum_length (fi_digest info)) in
  if length <? 0 then sx_throw (runtime_error (str "file length out of range"))
  else
    scope (
      pg_query_binary_3 (str "SELECT * FROM symboldb.intern_file_contents($1, $2, $3)")
          (q_long length) (q_bytes digest) (q_bytes contents);;
      '(id, added) ← response (pg_response_2 load_int_ load_bool) 0 (0, false);
      mret (added, id)).

Definition INTERN_ATTRIBUTE : bytes :=
  (str "SELECT symboldb.intern_file_attribute($1, $2, $3, $4, $5, $6, $7)").
(** [file_attribute_cache[row]] creates the entry, with a zero identifier. *)
Definition cache_set (row : attribute_row) (aid : Z) : db unit :=
  sx_modify (λ s, DbSt (db_pg s) (<[row := aid]> (file_attribute_cache s)) (file_names s) (output s)).
(** Source: lib/symboldb/database.cpp 338-372, database::intern_file_attribute. *)
Definition intern_file_attribute (info : rpm_file_info) : db Z :=
  let mode := to_signed 32 (fi_mode info) in
  if mode <? 0 then sx_throw (runtime_error (str "file mode out of range"))
  else
    let flags := to_signed 32 (fi_flags info) in
    if flags <? 0 then sx_throw (runtime_error (str "file flags out of range"))
    else
      let row : attribute_row :=
        (mode, flags, fi_user info, fi_group info, fi_capabilities info, fi_normalized info) in
      s ← sx_get;
      let aid := default 0 (file_attribute_cache s !! row) in
      cache_set row aid;;
      if negb (aid =? 0) then mret aid
      else
        row_hash ← sx_res (intern_hash info);
        aid ← scope (
          pg_query_binary_7 INTERN_ATTRIBUTE
            (q_bytes row_hash) (q_int mode) (q_int flags) (q_text (fi_user info)) (q_text (fi_group info))
            (q_text (fi_capabilities info)) (q_bool (fi_normalized info));;
          response (pg_response_1 load_int_) 0 0);
        cache_set row aid;;
        mret aid.

(** Source: lib/symboldb/database.cpp 374-405, database::add_package_digest. *)
Definition add_package_digest (pkg : Z) (digest : bytes) (length : Z) : db unit :=
  if zlen digest <? 16 then sx_throw (logic_error (str "invalid digest length"))
  else if 2 ^ 60 <? length then sx_throw (logic_error (str "invalid length"))
  else
    scope (
      pg_query_3 (str "SELECT 1 FROM " ++ PACKAGE_DIGEST_TABLE
      ++ str " WHERE package_id = $1 AND digest = $2 AND length = $3")
        (q_int pkg) (q_bytes digest) (q_long (to_signed 64 length));;
      n ← ntuples;
      if 0 <? n then mret tt
      else
        pg_query_3 (str "INSERT INTO " ++ PACKAGE_DIGEST_TABLE ++ str " (package_id, digest, length) VALUES ($1, $2, $3)")
          (q_int pkg) (q_bytes digest) (q_long (to_signed 64 length))).

(** Source: lib/symboldb/database.cpp 407-413, database::add_package_url. *)
Definition add_package_url (pkg : Z) (url : bytes) : db unit :=
  scope (pg_query_2 (str "SELECT symboldb.add_package_url($1, $2)") (q_int pkg) (q_cstr url)).

(** Source: lib/symboldb/database.cpp 415-427, database::package_by_digest. *)
Definition package_by_digest (digest : bytes) : db Z :=
  if zlen digest <? 16 then sx_throw (logic_error (str "invalid digest length"))
  else
    scope (
      pg_query_binary_1 (str "SELECT package_id FROM " ++ PACKAGE_DIGEST_TABLE ++ str " WHERE digest = $1")
          (q_bytes digest);;
      get_id).

(** Source: lib/symboldb/database.cpp 429-439, database::add_package_dependency. *)
Definition add_package_dependency (pkg : Z) (dep : rpm_dependency) : db unit :=
  scope (
    pg_query_5 (str "INSERT INTO " ++ PACKAGE_DEPENDENCY_TABLE
      ++ str " (package_id, kind, flags, capability, version) VALUES ($1,"
      ++ str " $2::symboldb.rpm_dependency_kind, $3, $4, $5)")
      (q_int pkg) (q_cstr (dependency_to_string (dep_kind dep))) (q_int (dep_flags dep))
      (q_text (dep_capability dep)) (q_text (dep_version dep))).

(** Source: lib/symboldb/database.cpp 441-456, database::add_package_script. *)
Definition add_package_script (pkg : Z) (script : rpm_script) : db unit :=
  scope (
    let scriptlet := if sc_present script then Some (sc_script script) else None in
    prog ← sx_res (pg_encode_array (sc_prog script));
    pg_query_4 (str "INSERT INTO " ++ PACKAGE_SCRIPT_TABLE
      ++ str " (package_id, kind, script, prog) VALUES ($1, $2::symboldb.rpm_script_kind, $3, $4::text[])")
      (q_int pkg) (q_cstr (script_to_string (sc_type script))) (q_cstr_or_null scriptlet) (q_text prog)).

(** Source: lib/symboldb/database.cpp 468-476, database::add_package_trigger. *)
Fixpoint add_trigger_conditions (pkg idx : Z) (conditions : list trigger_condition) : pg C unit :=
  match conditions with
  | [] => mret tt
  | p :: conditions =>
      pg_query_5 (str "INSERT INTO " ++ PACKAGE_TRIGGER_CONDITION_TABLE
      ++ str " (package_id, script_idx, flags, name, version) VALUES ($1, $2, $3, $4, $5)")
        (q_int pkg) (q_int idx) (q_int (tc_flags p)) (q_text (tc_name p)) (q_text (tc_version p));;
      add_trigger_conditions pkg idx conditions
  end.
(** Source: lib/symboldb/database.cpp 458-477, database::add_package_trigger. *)
Definition add_package_trigger (pkg : Z) (trigger : rpm_trigger) (idx : Z) : db unit :=
  scope (
    pg_query_4 (str "INSERT INTO " ++ PACKAGE_TRIGGER_SCRIPT_TABLE
      ++ str " (package_id, script_idx, script, prog) VALUES ($1, $2, $3, $4)")
      (q_int pkg) (q_int idx) (q_text (tr_script trigger)) (q_text (tr_prog trigger));;
    add_trigger_conditions pkg idx (tr_conditions trigger)).

(** ** Files *)

(** The overload for a known attribute and contents.
    Source: lib/symboldb/database.cpp 479-494, database::add_file. *)
Definition add_file_row (pkg : Z) (name : bytes) (mtime inode cid aid : Z) : db Z :=
  assert_transaction;;
  scope (
    pg_query_binary_6 (str "INSERT INTO " ++ FILE_TABLE
      ++ str " (package_id, name, mtime, inode, contents_id, attribute_id) VALUES ($1, $2, $3, $4, $5,"
      ++ str " $6) RETURNING file_id")
      (q_int pkg) (q_text name) (q_long mtime) (q_int inode) (q_int cid) (q_int aid);;
    get_id_force).

Definition ADD_FILE : bytes := (str "SELECT * FROM symboldb.add_file($1, $2, $3, $4, $5, $6, $7, $8)").
(** The file and contents identifiers, whether the contents are new, and the length
    of the stored contents.
    Source: lib/symboldb/database.cpp 496-536, database::add_file. *)
Definition add_file (pkg : Z) (info : rpm_file_info) (digest contents : bytes) : db (Z * Z * bool * Z) :=
  assert_transaction;;
  let length := to_signed 64 (csum_length (fi_digest info)) in
  if length <? 0 then sx_throw (runtime_error (str "file length out of range"))
  else
    let mode := to_signed 32 (fi_mode info) in
    if mode <? 0 then sx_throw (runtime_error (str "file mode out of range"))
    else
      let ino := to_signed 32 (fi_ino info) in
      if ino <? 0 then sx_throw (runtime_error (str "file inode out of range"))
      else
        let mtime := to_signed 32 (fi_mtime info) in
        if mtime <? 0 then sx_throw (runtime_error (str "file mtime out of range"))
        else
          aid ← intern_file_attribute info;
          scope (
            pg_query_binary_8 ADD_FILE
              (q_long length) (q_bytes digest) (q_bytes contents) (q_int aid) (q_int pkg)
              (q_int ino) (q_int mtime) (q_text (fi_name info));;
            response (pg_response_4 load_int_ load_int_ load_bool load_int_) 0 (0, 0, false, 0)).

(** Source: lib/symboldb/database.cpp 538-548, database::update_contents_preview. *)
Definition update_contents_preview (cid : Z) (buf : bytes) : db unit :=
  assert_transaction;;
  scope (pg_query_2 (str "UPDATE " ++ FILE_CONTENTS_TABLE ++ str " SET contents = $2 WHERE contents_id = $1")
      (q_int cid) (q_bytes buf)).

(** One more parameter than the statement has.
    Source: lib/symboldb/database.cpp 550-565, database::add_directory. *)
Definition add_directory (pkg : Z) (info : rpm_file_info) : db unit :=
  assert_transaction;;
  aid ← intern_file_attribute info;
  scope (
    pg_query_5 (str "INSERT INTO " ++ DIRECTORY_TABLE
      ++ str " (package_id, attribute_id, name, mtime) VALUES ($1, $2, $3, $4)")
      (q_int pkg) (q_int aid) (q_text (fi_name info)) (q_long (fi_mtime info)) (q_bool (fi_normalized info))).

(** Source: lib/symboldb/database.cpp 567-586, database::add_symlink. *)
Definition add_symlink (pkg : Z) (info : rpm_file_info) : db unit :=
  assert_transaction;;
  sx_res (assert_ (is_symlink info));;
  if bool_decide (fi_linkto info = []) then sx_throw (runtime_error (str "symlink with invalid target"))
  else
    aid ← intern_file_attribute info;
    scope (
      pg_query_6 (str "INSERT INTO " ++ SYMLINK_TABLE
      ++ str " (package_id, attribute_id, name, target, mtime) VALUES ($1, $2, $3, $4, $5)")
        (q_int pkg) (q_int aid) (q_text (fi_name info)) (q_text (fi_linkto info)) (q_long (fi_mtime info))
        (q_bool (fi_normalized info))).

(** ** ELF *)

(** Source: lib/symboldb/database.cpp 616-632, database::add_elf_image. *)
Fixpoint add_program_headers (cid : Z) (phdrs : list program_header) (end_ : option exn) : pg C unit :=
  match phdrs with
  | [] => match end_ with None => mret tt | Some e => sx_throw e end
  | phdr :: phdrs =>
      pg_query_11 (str "INSERT INTO " ++ ELF_PROGRAM_HEADER_TABLE
      ++ str " (contents_id, type, file_offset, virt_addr, phys_addr, file_size, memory_size, align,"
      ++ str " readable, writable, executable) VALUES ($1, $2, $3, $4, $5, $6, $7, $8, $9, $10, $11)")
        (q_int cid) (q_long (to_signed 64 (ph_type phdr))) (q_long (to_signed 64 (ph_file_offset phdr)))
        (q_long (to_signed 64 (ph_virt_addr phdr))) (q_long (to_signed 64 (ph_phys_addr phdr)))
        (q_long (to_signed 64 (ph_file_size phdr))) (q_long (to_signed 64 (ph_memory_size phdr)))
        (q_int (to_signed 32 (ph_align phdr)))
        (q_bool (ph_readable phdr)) (q_bool (ph_writable phdr)) (q_bool (ph_executable phdr));;
      add_program_headers cid phdrs end_
  end.
(** Source: lib/symboldb/database.cpp 588-633, database::add_elf_image. *)
Definition add_elf_image {I : Type} `{elf_image_ops I} (cid : Z) (image : I) (soname : option bytes) : db unit :=
  assert_transaction;;
  let interp_ := if bool_decide (interp image = []) then None else Some (interp image) in
  scope (
    pg_query_9 (str "INSERT INTO " ++ ELF_FILE_TABLE
      ++ str " (contents_id, ei_class, ei_data, e_type, e_machine, arch, soname, interp, build_id) VALUES"
      ++ str " ($1, $2, $3, $4, $5, $6::symboldb.elf_arch, $7, $8, $9)")
      (q_int cid) (q_int (to_signed 32 (ei_class image))) (q_int (to_signed 32 (ei_data image)))
      (q_int (to_signed 32 (e_type image))) (q_int (to_signed 32 (e_machine image))) (q_cstr_or_null (arch image))
      (q_cstr_or_null soname) (q_cstr_or_null interp_)
      (by_pointer pg_bytea (if bool_decide (build_id image = []) then None else Some (v_bytea (build_id image))));;
    let '(phdrs, end_) := program_headers image in
    add_program_headers cid phdrs end_).

(** Source: lib/symboldb/database.cpp 635-657, database::add_elf_symbol_definition. *)
Definition add_elf_symbol_definition (cid : Z) (def : elf_symbol_definition) : db unit :=
  assert_transaction;;
  scope (
    let xsection := to_signed 32 (def_xsection def) in
    vis ← sx_res (visibility (def_symbol def));
    pg_query_9 (str "INSERT INTO " ++ ELF_DEFINITION_TABLE
      ++ str " (contents_id, name, version, primary_version, symbol_type, binding, section, xsection,"
      ++ str " visibility) VALUES ($1, $2, $3, $4, $5, $6, $7, $8, $9::symboldb.elf_visibility)")
      (q_int cid) (q_cstr (symbol_name (def_symbol def)))
      (q_cstr_or_null (if bool_decide (vda_name def = []) then None else Some (vda_name def)))
      (q_bool (default_version def)) (q_int (sym_type (def_symbol def))) (q_int (sym_binding (def_symbol def)))
      (by_value (v_short (to_signed 16 (def_section def))))
      (by_pointer pg_int (if has_xsection def then Some (v_int xsection) else None)) (q_cstr vis)).

(** Source: lib/symboldb/database.cpp 659-676, database::add_elf_symbol_reference. *)
Definition add_elf_symbol_reference (cid : Z) (ref : elf_symbol_reference) : db unit :=
  assert_transaction;;
  scope (
    vis ← sx_res (visibility (ref_symbol ref));
    pg_query_6 (str "INSERT INTO " ++ ELF_REFERENCE_TABLE
      ++ str " (contents_id, name, version, symbol_type, binding, visibility) VALUES ($1, $2, $3, $4, $5,"
      ++ str " $6::symboldb.elf_visibility)")
      (q_int cid) (q_text (symbol_name (ref_symbol ref)))
      (q_cstr_or_null (if bool_decide (vna_name ref = []) then None else Some (vna_name ref)))
      (q_int (sym_type (ref_symbol ref))) (q_int (sym_binding (ref_symbol ref))) (q_cstr vis)).

(** Source: lib/symboldb/database.cpp 678-688, database::add_elf_needed. *)
Definition add_elf_needed (cid : Z) (name : bytes) : db unit :=
  assert_transaction;;
  scope (pg_query_2 (str "INSERT INTO " ++ ELF_NEEDED_TABLE ++ str " (contents_id, name) VALUES ($1, $2)")
      (q_int cid) (q_cstr name)).
(** Source: lib/symboldb/database.cpp 690-700, database::add_elf_rpath. *)
Definition add_elf_rpath (cid : Z) (name : bytes) : db unit :=
  assert_transaction;;
  scope (pg_query_2 (str "INSERT INTO " ++ ELF_RPATH_TABLE ++ str " (contents_id, path) VALUES ($1, $2)")
      (q_int cid) (q_cstr name)).
(** Source: lib/symboldb/database.cpp 702-712, database::add_elf_runpath. *)
Definition add_elf_runpath (cid : Z) (name : bytes) : db unit :=
  assert_transaction;;
  scope (pg_query_2 (str "INSERT INTO " ++ ELF_RUNPATH_TABLE ++ str " (contents_id, path) VALUES ($1, $2)")
      (q_int cid) (q_cstr name)).
(** Source: lib/symboldb/database.cpp 714-725, database::add_elf_dynamic. *)
Definition add_elf_dynamic (cid tag value : Z) : db unit :=
  assert_transaction;;
  scope (pg_query_3 (str "INSERT INTO " ++ ELF_DYNAMIC_TABLE ++ str " (contents_id, tag, value) VALUES ($1, $2, $3)")
      (q_int cid) (q_long (to_signed 64 tag)) (q_long (to_signed 64 value))).
(** Source: lib/symboldb/database.cpp 727-737, database::add_elf_error. *)
Definition add_elf_error (cid : Z) (message : bytes) : db unit :=
  assert_transaction;;
  scope (pg_query_2 (str "INSERT INTO " ++ ELF_ERROR_TABLE ++ str " (contents_id, message) VALUES ($1, $2)")
      (q_int cid) (q_cstr message)).

(** ** XML, Java, Python *)

(** Source: lib/symboldb/database.cpp 742-753, database::add_xml_error. *)
Definition add_xml_error (cid : Z) (message : bytes) (line : Z) (before after : bytes) : db unit :=
  scope (
    pg_query_5 (str "INSERT INTO symboldb.xml_error (contents_id, message, line, before, after) VALUES ($1, $2,"
      ++ str " $3, $4, $5)")
      (q_int cid) (q_cstr message) (q_long line) (q_bytes before) (q_bytes after)).

(** [std::sort] and [std::unique] on strings. *)
Fixpoint insert_string (x : bytes) (l : list bytes) : list bytes :=
  match l with
  | [] => [x]
  | y :: l' => if bytes_ltb y x then y :: insert_string x l' else x :: l
  end.
Definition sort_strings (l : list bytes) : list bytes := foldr insert_string [] l.
Fixpoint unique (l : list bytes) : list bytes :=
  match l with
  | x :: ((y :: _) as l') => if bool_decide (x = y) then unique l' else x :: unique l'
  | l => l
  end.

(** Source: lib/symboldb/database.cpp 774-778, database::add_java_class. *)
Fixpoint add_interfaces (classid : Z) (jc : java_class) (count : nat) (i : Z) : pg C unit :=
  match count with
  | O => mret tt
  | Datatypes.S count =>
      name ← sx_res (interface jc i);
      pg_query_2 (str "INSERT INTO symboldb.java_interface (class_id, name) VALUES ($1, $2)")
          (q_int classid) (q_text name);;
      add_interfaces classid jc count (i + 1)
  end.
(** Source: lib/symboldb/database.cpp 783-793, database::add_java_class. *)
Fixpoint add_class_references (classid : Z) (this_class : bytes) (classes : list bytes) : pg C unit :=
  match classes with
  | [] => mret tt
  | name :: classes =>
      (if negb (bool_decide (name = str "java/lang/Object")) && negb (bool_decide (name = str "java/lang/String"))
          && negb (bool_decide (name = this_class))
       then pg_query_2 (str "INSERT INTO symboldb.java_class_reference (class_id, name) VALUES ($1, $2)")
           (q_int classid) (q_text name)
       else mret tt);;
      add_class_references classid this_class classes
  end.
(** Source: lib/symboldb/database.cpp 758-799, database::add_java_class. *)
Definition add_java_class (cid : Z) (jc : java_class) : db unit :=
  assert_transaction;;
  scope (
    digest ← sx_res (hash nss_ sha256 (buffer jc));
    this_class_ ← sx_res (this_class jc);
    super ← sx_res (super_class jc);
    pg_query_binary_4 (str "SELECT * FROM symboldb.intern_java_class ($1, $2, $3, $4)")
      (q_bytes digest) (q_text this_class_) (q_text super) (q_int (access_flags jc));;
    '(classid, added) ← response (pg_response_2 load_int_ load_bool) 0 (0, false);
    (if (added : bool) then
       add_interfaces classid jc (Z.to_nat (interface_count jc)) 0;;
       classes ← sx_res (class_references jc);
       add_class_references classid this_class_ (unique (sort_strings classes))
     else mret tt);;
    pg_query_2 (str "INSERT INTO symboldb.java_class_contents (class_id, contents_id) VALUES ($1, $2)")
        (q_int classid) (q_int cid)).

(** Source: lib/symboldb/database.cpp 801-810, database::add_java_error. *)
Definition add_java_error (cid : Z) (message path : bytes) : db unit :=
  scope (pg_query_3 (str "INSERT INTO symboldb.java_error (contents_id, message, path) VALUES ($1, $2, $3)")
      (q_int cid) (q_cstr message) (q_text path)).
(** Source: lib/symboldb/database.cpp 812-820, database::add_maven_url. *)
Definition add_maven_url (cid : Z) (u : maven_url) : db unit :=
  scope (pg_query_3 (str "INSERT INTO symboldb.java_maven_url (contents_id, url, type) VALUES ($1, $2,"
      ++ str " $3::symboldb.java_maven_url_type)") (q_int cid) (q_text (url u)) (q_cstr (kind_to_string (type u)))).

(** Source: lib/symboldb/database.cpp 1056-1063, database::add_python_import. *)
Definition add_python_import (cid : Z) (name : bytes) : db unit :=
  scope (pg_query_2 (str "INSERT INTO symboldb.python_import (contents_id, name) VALUES ($1, $2)")
      (q_int cid) (q_cstr name)).
(** Source: lib/symboldb/database.cpp 1065-1072, database::add_python_attribute. *)
Definition add_python_attribute (cid : Z) (name : bytes) : db unit :=
  scope (pg_query_2 (str "INSERT INTO symboldb.python_attribute (contents_id, name) VALUES ($1, $2)")
      (q_int cid) (q_cstr name)).
(** Source: lib/symboldb/database.cpp 1074-1081, database::add_python_function_def. *)
Definition add_python_function_def (cid : Z) (name : bytes) : db unit :=
  scope (pg_query_2 (str "INSERT INTO symboldb.python_function_def (contents_id, name) VALUES ($1, $2)")
      (q_int cid) (q_cstr name)).
(** Source: lib/symboldb/database.cpp 1083-1090, database::add_python_class_def. *)
Definition add_python_class_def (cid : Z) (name : bytes) : db unit :=
  scope (pg_query_2 (str "INSERT INTO symboldb.python_class_def (contents_id, name) VALUES ($1, $2)")
      (q_int cid) (q_cstr name)).
(** Source: lib/symboldb/database.cpp 1092-1105, database::add_python_error. *)
Definition add_python_error (cid line : Z) (message : bytes) : db unit :=
  scope (
    if line =? 0 then
      pg_query_2 (str "INSERT INTO symboldb.python_error (contents_id, message) VALUES ($1, $2)")
          (q_int cid) (q_cstr message)
    else
      pg_query_3 (str "INSERT INTO symboldb.python_error (contents_id, line, message) VALUES ($1, $2, $3)")
          (q_int cid) (q_int line) (q_cstr message)).
(** Source: lib/symboldb/database.cpp 1107-1123, database::has_python_analysis. *)
Definition has_python_analysis (cid : Z) : db bool :=
  scope (
    pg_query_binary_1 (str "(SELECT TRUE FROM symboldb.python_import WHERE contents_id = $1 LIMIT 1) UNION ALL (SELECT"
      ++ str " TRUE FROM symboldb.python_attribute WHERE contents_id = $1 LIMIT 1)UNION ALL (SELECT TRUE"
      ++ str " FROM symboldb.python_function_def WHERE contents_id = $1 LIMIT 1)UNION ALL (SELECT TRUE"
      ++ str " FROM symboldb.python_class_def WHERE contents_id = $1 LIMIT 1)") (q_int cid);;
    n ← ntuples; mret (0 <? n)).

(** ** Package sets *)

(** Source: lib/symboldb/database.cpp 825-834, database::create_package_set. *)
Definition create_package_set (name : bytes) : db Z :=
  scope (
    pg_query_binary_1 (str "INSERT INTO " ++ PACKAGE_SET_TABLE ++ str " (name) VALUES ($1) RETURNING set_id")
        (q_cstr name);;
    get_id_force).
(** Source: lib/symboldb/database.cpp 836-844, database::lookup_package_set. *)
Definition lookup_package_set (name : bytes) : db Z :=
  scope (
    pg_query_binary_1 (str "SELECT set_id FROM " ++ PACKAGE_SET_TABLE ++ str " WHERE name = $1") (q_cstr name);;
    get_id).

Definition INSERT_MEMBER : bytes :=
  (str "INSERT INTO " ++ PACKAGE_SET_MEMBER_TABLE ++ str " (set_id, package_id) VALUES ($1, $2)").
Definition DELETE_MEMBER : bytes :=
  (str "DELETE FROM " ++ PACKAGE_SET_MEMBER_TABLE ++ str " WHERE set_id = $1 AND package_id = $2").
Definition SELECT_MEMBERS : bytes :=
  (str "SELECT package_id FROM " ++ PACKAGE_SET_MEMBER_TABLE ++ str " WHERE set_id = $1").

(** Source: lib/symboldb/database.cpp 846-854, database::add_package_set. *)
Definition add_package_set (set_ pkg : Z) : db unit := scope (pg_query_2 INSERT_MEMBER (q_int set_) (q_int pkg)).
(** Source: lib/symboldb/database.cpp 856-865, database::delete_from_package_set. *)
Definition delete_from_package_set (set_ pkg : Z) : db unit :=
  scope (pg_query_2 DELETE_MEMBER (q_int set_) (q_int pkg)).
(** Source: lib/symboldb/database.cpp 867-874, database::empty_package_set. *)
Definition empty_package_set (set_ : Z) : db unit :=
  scope (pg_query_1 (str "DELETE FROM " ++ PACKAGE_SET_MEMBER_TABLE ++ str " WHERE set_id = $1") (q_int set_)).

(** The rows [row], [row + 1], ... of the result.
    Source: lib/symboldb/database.cpp 890-895, database::update_package_set. *)
Fixpoint read_members (count : nat) (row : Z) (old : list Z) : pg C (list Z) :=
  match count with
  | O => mret old
  | Datatypes.S count =>
      pkg ← response (pg_response_1 load_int_) row 0;
      sx_res (assert_ (negb (pkg =? 0)));;
      read_members count (row + 1) (zs_insert pkg old)
  end.
(** Source: lib/symboldb/database.cpp 898-906, database::update_package_set. *)
Fixpoint add_members (set_ : Z) (pids old : list Z) (changes : bool) : db (list Z * bool) :=
  match pids with
  | [] => mret (old, changes)
  | pkg :: pids =>
      if zs_mem pkg old then add_members set_ pids (List.filter (λ x, negb (x =? pkg)) old) changes
      else
        add_package_set set_ pkg;;
        add_members set_ pids old true
  end.
(** Source: lib/symboldb/database.cpp 908-913, database::update_package_set. *)
Fixpoint delete_members (set_ : Z) (old : list Z) (changes : bool) : db bool :=
  match old with
  | [] => mret changes
  | p :: old =>
      delete_from_package_set set_ p;;
      delete_members set_ old true
  end.
(** Source: lib/symboldb/database.cpp 876-916, database::update_package_set. *)
Definition update_package_set (set_ : Z) (pids : list Z) : db bool :=
  assert_transaction;;
  old ← scope (
    pg_query_binary_1 SELECT_MEMBERS (q_int set_);;
    end_ ← ntuples;
    read_members (Z.to_nat end_) 0 []);
  '(old, changes) ← add_members set_ pids old false;
  delete_members set_ old changes.

(** ** ELF closure *)

(** What is reported to [update_elf_closure_conflicts], and its [skip_update]. *)
Record conflict_handler := ConflictHandler { on_report : conflict_report → db unit; skip_update : bool }.

(** Source: lib/symboldb/update_elf_closure.cpp 268-277, update_elf_closure. *)
Fixpoint load_providers (count : nat) (row : Z) (init : bytes * bytes * Z * bytes * bytes) (m : smap soname_map)
    : pg C (smap soname_map) :=
  match count with
  | O => mret m
  | Datatypes.S count =>
      r ← response (pg_response_5 load_text_ load_text_ load_int_ load_text_ load_text_) row init;
      load_providers count (row + 1) r (add_provider m r)
  end.
(** Each row is looked up, and what it conflicts with reported, before the next.
    Source: lib/symboldb/update_elf_closure.cpp 296-308, update_elf_closure. *)
Fixpoint load_needed (arch_soname : smap soname_map) (conflicts : option conflict_handler) (count : nat) (row : Z)
    (init : needed_row) (closure : dependency_map) : db dependency_map :=
  match count with
  | O => mret closure
  | Datatypes.S count =>
      r ← on_pg (response (pg_response_4 load_text_ load_text_ load_int_ load_text_) row init);
      let '(closure, reports) := add_needed arch_soname (bool_decide (is_Some conflicts)) (closure, []) r in
      match conflicts with
      | Some h => foldr (λ report k, on_report h report;; k) (mret tt) reports
      | None => mret tt
      end;;
      load_needed arch_soname conflicts count (row + 1) r closure
  end.
(** Source: lib/symboldb/update_elf_closure.cpp 363-390, update_elf_closure. *)
Fixpoint put_uploads (chunks : list bytes) : pg C unit :=
  match chunks with [] => mret tt | p :: chunks => putCopyData p;; put_uploads chunks end.
(** [PGRES_COPY_IN] is 4.
    Source: lib/symboldb/update_elf_closure.cpp 358-393, update_elf_closure. *)
Definition upload_closure (closure : dependency_map) : pg C unit :=
  with_res (
    exec (str "COPY update_elf_closure FROM STDIN");;
    status ← resultStatus;
    sx_res (assert_ (status =? 4));;
    put_uploads (upload_rows (dm_pairs closure) []);;
    putCopyEnd;;
    getresult).

(** Enough iterations for [closure_loop] on this map ([closure_fuel_enough]). *)
Definition closure_fuel (m : dependency_map) : nat :=
  Datatypes.S (length m * length (dm_pairs m) + length (dm_pairs m)).

(** The local [pgresult_handle res] spans the callbacks, which have their own. *)
Definition scope_db {A} (m : db A) : db A := λ s,
  let outer := raw (db_pg s) in
  let '(a, s) := (on_pg result_new;; m) s in
  (a, set_pg (set_raw outer (db_pg (on_pg result_destroy s).2)) s).
(** Source: lib/symboldb/update_elf_closure.cpp 242-408, update_elf_closure. *)
Definition update_elf_closure_db (set_ : Z) (conflicts : option conflict_handler) : db unit :=
  assert_transaction;;
  scope_db (
    on_pg (pg_query_binary_1 (str "SELECT ef.arch::text, COALESCE(ef.soname, ''), file_id, f.name, p.name FROM"
      ++ str " symboldb.package_set_member psm JOIN symboldb.package p USING (package_id) JOIN"
      ++ str " symboldb.file f USING (package_id) JOIN symboldb.elf_file ef USING (contents_id) WHERE"
      ++ str " psm.set_id = $1 AND ef.e_type = 3") (q_int set_));;
    end_ ← on_pg ntuples;
    arch_soname ← on_pg (load_providers (Z.to_nat end_) 0 ([], [], 0, [], []) []);
    let arch_soname := ignore_some_conflicts arch_soname in
    on_pg (pg_query_binary_1 (str "SELECT ef.arch::text, en.name, file_id, f.name FROM symboldb.package_set_member psm JOIN"
      ++ str " symboldb.file f USING (package_id) JOIN symboldb.elf_file ef USING (contents_id) JOIN"
      ++ str " symboldb.elf_needed en USING (contents_id) WHERE psm.set_id = $1") (q_int set_));;
    end_ ← on_pg ntuples;
    closure ← load_needed arch_soname conflicts (Z.to_nat end_) 0 ([], [], 0, []) [];
    let closure := default closure (closure_loop (closure_fuel closure) (closure_fuel closure) closure) in
    on_pg result_close;;
    if match conflicts with Some h => skip_update h | None => false end then mret tt
    else on_pg (
      exec (str "CREATE TEMPORARY TABLE update_elf_closure ( file_id INTEGER NOT NULL, needed INTEGER NOT"
      ++ str " NULL) ON COMMIT DROP");;
      upload_closure closure;;
      exec (str "CREATE INDEX ON update_elf_closure (file_id, needed)");;
      exec (str "ANALYZE update_elf_closure");;
      pg_query_1 (str "DELETE FROM symboldb.elf_closure ec WHERE set_id = $1 AND NOT EXISTS (SELECT 1 FROM"
      ++ str " update_elf_closure u  WHERE ec.file_id = u.file_id AND ec.needed = u.needed)") (q_int set_);;
      pg_query_1 (str "INSERT INTO symboldb.elf_closure (set_id, file_id, needed) SELECT $1, * FROM (SELECT * FROM"
      ++ str " update_elf_closure EXCEPT SELECT file_id, needed FROM symboldb.elf_closure WHERE set_id ="
      ++ str " $1) x") (q_int set_);;
      exec (str "DROP TABLE update_elf_closure"))).

(** Source: lib/symboldb/database.cpp 918-922, database::update_package_set_caches. *)
Definition update_package_set_caches (set_ : Z) : db unit := update_elf_closure_db set_ None.

(** ** URL cache and expiry *)

(** Source: lib/symboldb/database.cpp 924-931, update_url_last_access. *)
Definition update_url_last_access (url : bytes) : pg C unit :=
  pg_query_1 (str "UPDATE " ++ URL_CACHE_TABLE ++ str " SET last_access = NOW() AT TIME ZONE 'UTC' WHERE url = $1")
      (q_cstr url).
(** The data, if there is a row.
    Source: lib/symboldb/database.cpp 933-953, database::url_cache_fetch. *)
Definition url_cache_fetch_expected (url : bytes) (expected_length expected_time : Z) : db (option bytes) :=
  if 2 ^ 30 <? expected_length then mret None
  else
    scope (
      pg_query_binary_3 (str "SELECT data FROM " ++ URL_CACHE_TABLE
      ++ str " WHERE url = $1 AND LENGTH(data) = $2 AND http_time = $3")
        (q_cstr url) (q_int (to_signed 32 expected_length)) (q_long expected_time);;
      n ← ntuples;
      if negb (n =? 1) then mret None
      else
        data ← response (pg_response_1 load_text_) 0 [];
        update_url_last_access url;;
        mret (Some data)).
(** Source: lib/symboldb/database.cpp 955-969, database::url_cache_fetch. *)
Definition url_cache_fetch (url : bytes) : db (option bytes) :=
  scope (
    pg_query_binary_1 (str "SELECT data FROM " ++ URL_CACHE_TABLE ++ str " WHERE url = $1") (q_cstr url);;
    n ← ntuples;
    if negb (n =? 1) then mret None
    else
      data ← response (pg_response_1 load_text_) 0 [];
      update_url_last_access url;;
      mret (Some data)).
(** Source: lib/symboldb/database.cpp 971-995, database::url_cache_update. *)
Definition url_cache_update (url data : bytes) (time : Z) : db unit :=
  scope (
    pg_query_1 (str "SELECT 1 FROM " ++ URL_CACHE_TABLE ++ str " WHERE url = $1 FOR UPDATE") (q_cstr url);;
    n ← ntuples;
    if n =? 1 then
      pg_query_3 (str "UPDATE " ++ URL_CACHE_TABLE
      ++ str " SET http_time = $2, data = $3, last_change = NOW() AT TIME ZONE 'UTC', last_access = NOW()"
      ++ str " AT TIME ZONE 'UTC' WHERE url = $1") (q_cstr url) (q_long time) (q_bytes data)
    else
      pg_query_3 (str "INSERT INTO " ++ URL_CACHE_TABLE
      ++ str " (url, http_time, data, last_change, last_access) VALUES ($1, $2, $3, NOW() AT TIME ZONE"
      ++ str " 'UTC', NOW() AT TIME ZONE 'UTC')") (q_cstr url) (q_long time) (q_bytes data)).

(** Source: lib/symboldb/database.cpp 1007-1011, database::referenced_package_digests. *)
Fixpoint read_digests (count : nat) (row : Z) (digest : bytes) (digests : list bytes) : pg C (list bytes) :=
  match count with
  | O => mret digests
  | Datatypes.S count =>
      digest ← response (pg_response_1 load_text_) row digest;
      read_digests count (row + 1) digest (digests ++ [digest])
  end.
(** The vector of the caller, extended.
    Source: lib/symboldb/database.cpp 997-1012, database::referenced_package_digests. *)
Definition referenced_package_digests (digests : list bytes) : db (list bytes) :=
  scope (
    execBinary (str "SELECT digest FROM " ++ PACKAGE_SET_MEMBER_TABLE ++ str " JOIN " ++ PACKAGE_DIGEST_TABLE
      ++ str " USING (package_id) ORDER BY digest");;
    end_ ← ntuples;
    read_digests (Z.to_nat end_) 0 [] digests).
(** Source: lib/symboldb/database.cpp 1014-1021, database::expire_url_cache. *)
Definition expire_url_cache : db unit :=
  scope (exec (str "DELETE FROM " ++ URL_CACHE_TABLE ++ str " WHERE AGE(last_access) > '3 days'")).
(** Source: lib/symboldb/database.cpp 1023-1031, database::expire_packages. *)
Definition expire_packages : db unit :=
  scope (exec (str "DELETE FROM symboldb.package p WHERE NOT EXISTS (SELECT 1 FROM symboldb.package_set_member"
      ++ str " psm WHERE psm.package_id = p.package_id LIMIT 1)")).
(** Source: lib/symboldb/database.cpp 1033-1041, database::expire_file_contents. *)
Definition expire_file_contents : db unit :=
  scope (exec (str "DELETE FROM symboldb.file_contents fc WHERE NOT EXISTS (SELECT 1 FROM symboldb.file f WHERE"
      ++ str " f.contents_id = fc.contents_id LIMIT 1)")).
(** Source: lib/symboldb/database.cpp 1043-1051, database::expire_java_classes. *)
Definition expire_java_classes : db unit :=
  scope (exec (str "DELETE FROM symboldb.java_class jc WHERE NOT EXISTS (SELECT 1 FROM"
      ++ str " symboldb.java_class_contents j WHERE j.class_id = jc.class_id LIMIT 1)")).

(** ** Reports *)

Definition print (text : bytes) : db unit :=
  sx_modify (λ s, DbSt (db_pg s) (file_attribute_cache s) (file_names s) (output s ++ text)).
Definition names_set (names : gmap Z (bytes * bytes)) : db unit :=
  sx_modify (λ s, DbSt (db_pg s) (file_attribute_cache s) names (output s)).

(** The entry is created before the query.
    Source: lib/symboldb/database.cpp 1175-1194, database::print_elf_soname_conflicts. *)
Definition get_name (fid : Z) : db (bytes * bytes) :=
  s ← sx_get;
  match file_names s !! fid with
  | Some entry => mret entry
  | None =>
      names_set (<[fid := ([], [])]> (file_names s));;
      entry ← scope (
        pg_query_binary_1 (str "SELECT f.name, symboldb.nevra(p) FROM symboldb.file f JOIN symboldb.package p USING"
      ++ str " (package_id) WHERE f.file_id = $1") (q_int fid);;
        n ← ntuples;
        if negb (n =? 1) then sx_throw (runtime_error (str "could not locate symboldb.file row"))
        else response (pg_response_2 load_text_ load_text_) 0 ([], []));
      s ← sx_get;
      names_set (<[fid := entry]> (file_names s));;
      mret entry
  end.
(** Source: lib/symboldb/database.cpp 1157-1164, database::print_elf_soname_conflicts. *)
Fixpoint print_choices (choices : list Z) (first : bytes) : db unit :=
  match choices with
  | [] => mret tt
  | p :: choices =>
      entry ← get_name p;
      print (str "  " ++ first ++ str " " ++ until_nul entry.1 ++ str " (" ++ until_nul entry.2 ++ str ")" ++ [10]);;
      print_choices choices (str " ")
  end.
(** Source: lib/symboldb/database.cpp 1142-1165, database::print_elf_soname_conflicts. *)
Definition print_report (r : conflict_report) : db unit :=
  match r with
  | missing fid soname =>
      entry ← get_name fid;
      print (str "missing: " ++ until_nul entry.1 ++ str " (" ++ until_nul entry.2 ++ str ") "
             ++ until_nul soname ++ [10])
  | conflict fid soname choices =>
      entry ← get_name fid;
      print (str "conflicts: " ++ until_nul entry.1 ++ str " (" ++ until_nul entry.2 ++ str ") "
             ++ until_nul soname ++ [10]);;
      print_choices choices (str "*")
  end.
(** The handle spans the report.
    Source: lib/symboldb/database.cpp 1132-1202, database::print_elf_soname_conflicts. *)
Definition print_elf_soname_conflicts (set_ : Z) : db unit :=
  names_set ∅;;
  scope_db (
    on_pg (exec (str "BEGIN TRANSACTION ISOLATION LEVEL REPEATABLE READ READ ONLY"));;
    update_elf_closure_db set_ (Some (ConflictHandler print_report true));;
    on_pg (exec (str "ROLLBACK"))).

(** ** Schema *)

(** Source: lib/symboldb/database.cpp 1212-1215, database::exec_sql. *)
Fixpoint exec_all (stmts : list bytes) : pg C unit :=
  match stmts with [] => mret tt | p :: stmts => exec (until_nul p);; exec_all stmts end.
(** Source: lib/symboldb/database.cpp 1204-1216, database::exec_sql. *)
Definition exec_sql (command : bytes) : db unit :=
  let '(r, stmts) := pg_split_statement command [] in
  sx_res r;; scope (exec_all stmts).
(** Source: lib/symboldb/database.cpp 1218-1229, database::create_schema. *)
Definition create_schema (base index : bool) : db unit :=
  txn_begin;;
  (if base then exec_sql SCHEMA_BASE else mret tt);;
  (if index then exec_sql SCHEMA_INDEX else mret tt);;
  txn_commit.

(** ** Files by digest *)

(** Source: lib/symboldb/database.cpp 1234-1241, database::files_with_digest::impl. *)
Record files_with_digest := FilesWithDigest {
  rpm_digest_ : bytes; file_name_ : bytes; res_ : option query_result; row_ : Z
}.
(** The handle [res_] is a member; it is destroyed if the constructor fails.
    Source: lib/symboldb/database.cpp 1243-1260, database::files_with_digest::files_with_digest. *)
Definition files_with_digest_new (digest : bytes) : db files_with_digest :=
  r ← scope (
    pg_query_binary_1 (str "SELECT pd.digest, f.name FROM symboldb.package_digest pd JOIN symboldb.file f USING"
      ++ str " (package_id) JOIN symboldb.file_contents fc USING (contents_id) WHERE fc.digest = $1")
          (q_bytes digest);;
    result_release);
  mret (FilesWithDigest [] [] r 0).
(** Source: lib/symboldb/database.cpp 1262-1264, database::files_with_digest::~files_with_digest. *)
Definition files_with_digest_destroy (f : files_with_digest) : db unit := on_pg (clear (res_ f)).
(** One row more than there are: the test is [<=].
    Source: lib/symboldb/database.cpp 1266-1276, database::files_with_digest::next. *)
Definition files_with_digest_next : sx files_with_digest bool :=
  f ← sx_get;
  if row_ f <=? match res_ f with Some r => r_ntuples r | None => 0 end then
    (λ f, let '(r, (d, n)) := pg_response_2 load_text_ load_text_
            (match res_ f with Some r => r_data r | None => no_result end) (row_ f) (rpm_digest_ f, file_name_ f) in
          (r, FilesWithDigest d n (res_ f) (row_ f)));;
    sx_modify (λ f, FilesWithDigest (rpm_digest_ f) (file_name_ f) (res_ f) (row_ f + 1));;
    mret true
  else mret false.
(** Source: lib/symboldb/database.cpp 1278-1282, database::files_with_digest::rpm_digest. *)
Definition rpm_digest (f : files_with_digest) : bytes := rpm_digest_ f.
(** Source: lib/symboldb/database.cpp 1284-1288, database::files_with_digest::file_name. *)
Definition file_name (f : files_with_digest) : bytes := file_name_ f.

End Database.

(** ** No result is lost *)

Section Balance.
Context `{M : machine} {C : Type} `{V : LiveView C} `{L : libpq C} (Hlaws : libpq_laws C).
#[local] Set Default Proof Using "Type".
Local Abbreviation db := (Database.db (C := C)).

(** [balanced] for functions of the database. *)
Definition db_balanced {A} (m : db A) : Prop :=
  ∀ frame s, owns_result frame (db_pg s) → owns_result frame (db_pg (m s).2).

Lemma db_balanced_ret {A} (a : A) : db_balanced (mret a).
Proof. intros frame s H. exact H. Qed.
Lemma db_balanced_bind {A B} (m : db A) (f : A → db B) :
  db_balanced m → (∀ a, db_balanced (f a)) → db_balanced (m ≫= f).
Proof.
  intros Hm Hf frame s Hs. specialize (Hm frame s Hs). unfold mbind, sx_bind.
  destruct (m s) as [[a|e] s']; [by apply Hf|done].
Qed.
Lemma db_balanced_res {A} (r : res A) : db_balanced (sx_res r).
Proof. intros frame s H. exact H. Qed.
Lemma db_balanced_throw {A} e : db_balanced (sx_throw e : db A).
Proof. intros frame s H. exact H. Qed.
Lemma db_balanced_get : db_balanced sx_get.
Proof. intros frame s H. exact H. Qed.
Lemma db_balanced_if {A} (b : bool) (m m' : db A) : db_balanced m → db_balanced m' → db_balanced (if b then m else m').
Proof. by destruct b. Qed.
Lemma db_balanced_cache row aid : db_balanced (cache_set row aid : db unit).
Proof. intros frame s H. exact H. Qed.
Lemma db_balanced_print text : db_balanced (print text : db unit).
Proof. intros frame s H. exact H. Qed.
Lemma db_balanced_names names : db_balanced (names_set names : db unit).
Proof. intros frame s H. exact H. Qed.
Lemma on_pg_balanced {A} (m : pg C A) : balanced m → db_balanced (on_pg m).
Proof. intros Hm frame s Hs. unfold on_pg, sx_on. specialize (Hm frame _ Hs). by destruct (m (db_pg s)). Qed.
Lemma scope_balanced {A} (m : pg C A) : balanced m → db_balanced (scope m).
Proof using Hlaws. intros Hm. by apply on_pg_balanced, with_res_balanced. Qed.
Lemma scope_db_balanced {A} (m : db A) : db_balanced m → db_balanced (scope_db m).
Proof using Hlaws.
  intros Hm frame s [H1 H2]. unfold scope_db.
  change ((on_pg result_new;; m) s) with (m (set_pg (set_raw None (db_pg s)) s)).
  specialize (Hm (frame ∪ result_ids (raw (db_pg s))) (set_pg (set_raw None (db_pg s)) s)).
  destruct (m _) as [a s']. destruct Hm as [H3 H4]; [split; cbn; [by rewrite H1, (right_id_L ∅ (∪))|set_solver]|].
  cbn in H3, H4. unfold on_pg, sx_on, result_destroy, mbind, sx_bind, clear, sx_get.
  split; cbn; [|done]. destruct (raw (db_pg s')) as [r|]; cbn in *.
  - rewrite (law_clear Hlaws), H3 by (rewrite H3; set_solver). set_solver.
  - rewrite (law_clear_null Hlaws), H3. set_solver.
Qed.

Lemma private_balanced (m : pg C unit) fmt sql args :
  (∀ s, m s = pg_query_list fmt sql args s) → balanced m.
Proof using Hlaws. intros H. eapply balanced_ext; [exact H|by apply pg_query_list_balanced]. Qed.

(** A scope whose result is released to the caller. *)
Lemma with_res_release (m : pg C unit) frame s : balanced m → owns_result frame s →
  match with_res (m;; result_release) s with
  | (Ok r, s') => raw s' = raw s ∧ live (server s') = (frame ∪ result_ids (raw s)) ∪ result_ids r ∧
      result_ids r ## frame ∪ result_ids (raw s)
  | (Throw _, s') => owns_result frame s'
  end.
Proof using Hlaws.
  intros Hm [H1 H2]. unfold with_res.
  change ((result_new;; m;; result_release) s) with ((m;; result_release) (set_raw None s)).
  specialize (Hm (frame ∪ result_ids (raw s)) (set_raw None s)). unfold mbind at 1, sx_bind at 1.
  destruct (m (set_raw None s)) as [[u|e] s'].
  - destruct Hm as [H3 H4]; [split; cbn; [by rewrite H1, (right_id_L ∅ (∪))|set_solver]|]. cbn in H3, H4.
    unfold result_release, result_destroy, clear, mbind, sx_bind, sx_get, sx_modify, mret, sx_ret. cbn.
    rewrite (law_clear_null Hlaws). by split_and!.
  - destruct Hm as [H3 H4]; [split; cbn; [by rewrite H1, (right_id_L ∅ (∪))|set_solver]|]. cbn in H3, H4.
    unfold result_destroy, clear, mbind, sx_bind, sx_get. split; cbn; [|done].
    destruct (raw s') as [r|]; cbn in *.
    + rewrite (law_clear Hlaws), H3 by (rewrite H3; set_solver). set_solver.
    + rewrite (law_clear_null Hlaws), H3. set_solver.
Qed.
End Balance.

Section Balance_of_operations.
Context `{M : machine} {C : Type} `{V : LiveView C} `{L : libpq C} (Hlaws : libpq_laws C).
Context (unescape : bytes → option bytes) {N : Type} (nss_ : nss N) (SCHEMA_BASE SCHEMA_INDEX : bytes).
#[local] Set Default Proof Using "Hlaws".
Local Abbreviation db := (Database.db (C := C)).
(** The rules, by the shape of the computation. *)
Ltac bal :=
  cbv zeta beta;
  lazymatch goal with
  | |- ∀ _, _ => intros; bal
  | |- balanced (let '_ := ?x in _) => destruct x; bal
  | |- db_balanced (let '_ := ?x in _) => destruct x; bal
  | |- balanced (_ ≫= _) => apply balanced_bind; [bal|bal]
  | |- balanced (if _ then _ else _) => apply balanced_if; [bal|bal]
  | |- db_balanced (_ ≫= _) => apply db_balanced_bind; [bal|bal]
  | |- db_balanced (if _ then _ else _) => apply db_balanced_if; [bal|bal]
  | |- balanced (match ?x with _ => _ end) => destruct x; bal
  | |- db_balanced (match ?x with _ => _ end) => destruct x; bal
  | |- db_balanced (scope _) => apply (scope_balanced Hlaws); bal
  | |- db_balanced (scope_db _) => apply (scope_db_balanced Hlaws); bal
  | |- db_balanced (on_pg _) => apply on_pg_balanced; bal
  | |- balanced (mret _) => apply balanced_ret
  | |- balanced (sx_res _) => apply balanced_res
  | |- balanced (sx_throw _) => apply balanced_throw
  | |- balanced sx_get => apply balanced_get
  | |- balanced (exec _) => apply (exec_balanced Hlaws)
  | |- balanced (execBinary _) => apply (execParamsCustom_balanced Hlaws)
  | |- balanced getresult => apply (getresult_balanced Hlaws)
  | |- balanced transactionStatus => apply (transactionStatus_balanced Hlaws)
  | |- balanced ntuples => apply (ntuples_balanced Hlaws)
  | |- balanced resultStatus => apply (ntuples_balanced Hlaws)
  | |- balanced (response _ _ _) => apply (response_balanced Hlaws)
  | |- balanced result_close => apply (result_close_balanced Hlaws)
  | |- balanced (putCopyData _) => apply (putCopyData_balanced Hlaws)
  | |- balanced putCopyEnd => apply (putCopyEndError_balanced Hlaws)
  | |- db_balanced (mret _) => apply db_balanced_ret
  | |- db_balanced (sx_res _) => apply db_balanced_res
  | |- db_balanced (sx_throw _) => apply db_balanced_throw
  | |- db_balanced sx_get => apply db_balanced_get
  | |- db_balanced (cache_set _ _) => apply db_balanced_cache
  | |- db_balanced (print _) => apply db_balanced_print
  | |- db_balanced (names_set _) => apply db_balanced_names
  | |- _ => first [done | by eauto with pgdb | idtac]
  end.
Ltac bal_query n := intros; eapply (private_balanced Hlaws); intros; apply n.

Lemma pg_query_1_balanced sql t1 : balanced (pg_query_1 sql t1).
Proof. bal_query (private_pg_query_1_list 0). Qed.
Lemma pg_query_binary_1_balanced sql t1 : balanced (pg_query_binary_1 sql t1).
Proof. bal_query (private_pg_query_1_list 1). Qed.
Lemma pg_query_2_balanced sql t1 t2 : balanced (pg_query_2 sql t1 t2).
Proof. bal_query (private_pg_query_2_list 0). Qed.
Lemma pg_query_binary_2_balanced sql t1 t2 : balanced (pg_query_binary_2 sql t1 t2).
Proof. bal_query (private_pg_query_2_list 1). Qed.
Lemma pg_query_3_balanced sql t1 t2 t3 : balanced (pg_query_3 sql t1 t2 t3).
Proof. bal_query (private_pg_query_3_list 0). Qed.
Lemma pg_query_binary_3_balanced sql t1 t2 t3 : balanced (pg_query_binary_3 sql t1 t2 t3).
Proof. bal_query (private_pg_query_3_list 1). Qed.
Lemma pg_query_4_balanced sql t1 t2 t3 t4 : balanced (pg_query_4 sql t1 t2 t3 t4).
Proof. bal_query (private_pg_query_4_list 0). Qed.
Lemma pg_query_binary_4_balanced sql t1 t2 t3 t4 : balanced (pg_query_binary_4 sql t1 t2 t3 t4).
Proof. bal_query (private_pg_query_4_list 1). Qed.
Lemma pg_query_5_balanced sql t1 t2 t3 t4 t5 : balanced (pg_query_5 sql t1 t2 t3 t4 t5).
Proof. bal_query (private_pg_query_5_list 0). Qed.
Lemma pg_query_binary_5_balanced sql t1 t2 t3 t4 t5 : balanced (pg_query_binary_5 sql t1 t2 t3 t4 t5).
Proof. bal_query (private_pg_query_5_list 1). Qed.
Lemma pg_query_6_balanced sql t1 t2 t3 t4 t5 t6 : balanced (pg_query_6 sql t1 t2 t3 t4 t5 t6).
Proof. bal_query (private_pg_query_6_list 0). Qed.
Lemma pg_query_binary_6_balanced sql t1 t2 t3 t4 t5 t6 : balanced (pg_query_binary_6 sql t1 t2 t3 t4 t5 t6).
Proof. bal_query (private_pg_query_6_list 1). Qed.
Lemma pg_query_7_balanced sql t1 t2 t3 t4 t5 t6 t7 : balanced (pg_query_7 sql t1 t2 t3 t4 t5 t6 t7).
Proof. bal_query (private_pg_query_7_list 0). Qed.
Lemma pg_query_binary_7_balanced sql t1 t2 t3 t4 t5 t6 t7 : balanced (pg_query_binary_7 sql t1 t2 t3 t4 t5 t6 t7).
Proof. bal_query (private_pg_query_7_list 1). Qed.
Lemma pg_query_8_balanced sql t1 t2 t3 t4 t5 t6 t7 t8 : balanced (pg_query_8 sql t1 t2 t3 t4 t5 t6 t7 t8).
Proof. bal_query (private_pg_query_8_list 0). Qed.
Lemma pg_query_binary_8_balanced sql t1 t2 t3 t4 t5 t6 t7 t8 : balanced (pg_query_binary_8 sql t1 t2 t3 t4 t5 t6 t7 t8).
Proof. bal_query (private_pg_query_8_list 1). Qed.
Lemma pg_query_9_balanced sql t1 t2 t3 t4 t5 t6 t7 t8 t9 : balanced (pg_query_9 sql t1 t2 t3 t4 t5 t6 t7 t8 t9).
Proof. bal_query (private_pg_query_9_list 0). Qed.
Lemma pg_query_binary_9_balanced sql t1 t2 t3 t4 t5 t6 t7 t8 t9 : balanced (pg_query_binary_9 sql t1 t2 t3 t4 t5 t6 t7 t8 t9).
Proof. bal_query (private_pg_query_9_list 1). Qed.
Lemma pg_query_11_balanced sql t1 t2 t3 t4 t5 t6 t7 t8 t9 t10 t11 : balanced (pg_query_11 sql t1 t2 t3 t4 t5 t6 t7 t8 t9 t10 t11).
Proof. bal_query (private_pg_query_11_list 0). Qed.
Lemma pg_query_binary_11_balanced sql t1 t2 t3 t4 t5 t6 t7 t8 t9 t10 t11 : balanced (pg_query_binary_11 sql t1 t2 t3 t4 t5 t6 t7 t8 t9 t10 t11).
Proof. bal_query (private_pg_query_11_list 1). Qed.
Lemma pg_query_15_balanced sql t1 t2 t3 t4 t5 t6 t7 t8 t9 t10 t11 t12 t13 t14 t15 : balanced (pg_query_15 sql t1 t2 t3 t4 t5 t6 t7 t8 t9 t10 t11 t12 t13 t14 t15).
Proof. bal_query (private_pg_query_15_list 0). Qed.
Lemma pg_query_binary_15_balanced sql t1 t2 t3 t4 t5 t6 t7 t8 t9 t10 t11 t12 t13 t14 t15 : balanced (pg_query_binary_15 sql t1 t2 t3 t4 t5 t6 t7 t8 t9 t10 t11 t12 t13 t14 t15).
Proof. bal_query (private_pg_query_15_list 1). Qed.
#[local] Hint Resolve pg_query_1_balanced pg_query_binary_1_balanced pg_query_2_balanced pg_query_binary_2_balanced pg_query_3_balanced pg_query_binary_3_balanced pg_query_4_balanced pg_query_binary_4_balanced pg_query_5_balanced pg_query_binary_5_balanced pg_query_6_balanced pg_query_binary_6_balanced
  pg_query_7_balanced pg_query_binary_7_balanced pg_query_8_balanced pg_query_binary_8_balanced pg_query_9_balanced pg_query_binary_9_balanced pg_query_11_balanced pg_query_binary_11_balanced pg_query_15_balanced pg_query_binary_15_balanced : pgdb.

(** *** Loops *)

Lemma get_id_balanced : balanced (get_id : pg C Z).
Proof. unfold get_id. bal. Qed.
#[local] Hint Resolve get_id_balanced : pgdb.
Lemma get_id_force_balanced : balanced (get_id_force : pg C Z).
Proof. unfold get_id_force. bal. Qed.
#[local] Hint Resolve get_id_force_balanced : pgdb.
Lemma assert_transaction_balanced : db_balanced (assert_transaction : db unit).
Proof. unfold assert_transaction. bal. Qed.
#[local] Hint Resolve assert_transaction_balanced : pgdb.
Lemma add_trigger_conditions_balanced pkg idx conditions : balanced (add_trigger_conditions pkg idx conditions).
Proof. induction conditions; cbn [add_trigger_conditions]; bal. Qed.
Lemma add_program_headers_balanced cid phdrs end_ : balanced (add_program_headers cid phdrs end_).
Proof. induction phdrs; cbn [add_program_headers]; bal. Qed.
Lemma add_interfaces_balanced classid jc count : ∀ i, balanced (add_interfaces classid jc count i).
Proof. induction count; cbn [add_interfaces]; bal. Qed.
Lemma add_class_references_balanced classid this_class classes :
  balanced (add_class_references classid this_class classes).
Proof. induction classes; cbn [add_class_references]; bal. Qed.
Lemma read_members_balanced count : ∀ row old, balanced (read_members count row old).
Proof. induction count; cbn [read_members]; bal. Qed.
Lemma load_providers_balanced count : ∀ row init m, balanced (load_providers unescape count row init m).
Proof. induction count; cbn [load_providers]; bal. Qed.
Lemma put_uploads_balanced chunks : balanced (put_uploads chunks).
Proof. induction chunks; cbn [put_uploads]; bal. Qed.
Lemma read_digests_balanced count : ∀ row digest digests, balanced (read_digests unescape count row digest digests).
Proof. induction count; cbn [read_digests]; bal. Qed.
Lemma exec_all_balanced stmts : balanced (exec_all stmts).
Proof. induction stmts; cbn [exec_all]; bal. Qed.
#[local] Hint Resolve add_trigger_conditions_balanced add_program_headers_balanced add_interfaces_balanced
  add_class_references_balanced read_members_balanced load_providers_balanced put_uploads_balanced
  read_digests_balanced exec_all_balanced : pgdb.

(** *** Operations *)

Ltac head_of t := lazymatch t with ?f _ => head_of f | _ => t end.

Lemma intern_file_attribute_balanced info : db_balanced (intern_file_attribute nss_ info).
Proof. unfold intern_file_attribute. bal. Qed.
Lemma lock_balanced a b : db_balanced (lock a b).
Proof. unfold lock. bal. Qed.
Lemma add_package_set_balanced set_ pkg : db_balanced (add_package_set set_ pkg).
Proof. unfold add_package_set. bal. Qed.
Lemma delete_from_package_set_balanced set_ pkg : db_balanced (delete_from_package_set set_ pkg).
Proof. unfold delete_from_package_set. bal. Qed.
#[local] Hint Resolve intern_file_attribute_balanced lock_balanced add_package_set_balanced
  delete_from_package_set_balanced : pgdb.
Lemma add_members_balanced set_ pids : ∀ old changes, db_balanced (add_members set_ pids old changes).
Proof. induction pids; cbn [add_members]; bal. Qed.
Lemma delete_members_balanced set_ old : ∀ changes, db_balanced (delete_members set_ old changes).
Proof. induction old; cbn [delete_members]; bal. Qed.
Lemma upload_closure_balanced closure : balanced (upload_closure closure).
Proof. unfold upload_closure. apply with_res_balanced; [done|]. bal. Qed.
Lemma load_needed_balanced arch_soname conflicts count : (∀ h r, conflicts = Some h → db_balanced (on_report h r)) →
  ∀ row init closure, db_balanced (load_needed unescape arch_soname conflicts count row init closure).
Proof.
  intros Hh. induction count; cbn [load_needed]; intros; [bal|]. apply db_balanced_bind; [bal|]. intros r.
  destruct (add_needed _ _ _ _) as [m reports]. apply db_balanced_bind; [|by auto].
  destruct conflicts as [h|]; [|bal]. induction reports; cbn [foldr]; [bal|].
  apply db_balanced_bind; [by apply Hh|done].
Qed.
Lemma update_url_last_access_balanced url : balanced (update_url_last_access url).
Proof. unfold update_url_last_access. bal. Qed.
#[local] Hint Resolve add_members_balanced delete_members_balanced upload_closure_balanced
  update_url_last_access_balanced : pgdb.
Lemma update_elf_closure_db_balanced set_ conflicts : (∀ h r, conflicts = Some h → db_balanced (on_report h r)) →
  db_balanced (update_elf_closure_db unescape set_ conflicts).
Proof.
  intros Hh. unfold update_elf_closure_db. apply db_balanced_bind; [bal|]. intros.
  apply (scope_db_balanced Hlaws). repeat (apply db_balanced_bind; [first [by apply load_needed_balanced|bal]|intros]).
  bal.
Qed.
Lemma get_name_balanced fid : db_balanced (get_name unescape fid).
Proof. unfold get_name. bal. Qed.
#[local] Hint Resolve get_name_balanced : pgdb.
Lemma print_choices_balanced choices : ∀ first, db_balanced (print_choices unescape choices first).
Proof. induction choices; cbn [print_choices]; bal. Qed.
#[local] Hint Resolve print_choices_balanced : pgdb.
Lemma print_report_balanced r : db_balanced (print_report unescape r).
Proof. unfold print_report. bal. Qed.
Lemma exec_sql_balanced command : db_balanced (exec_sql command).
Proof. unfold exec_sql. bal. Qed.
Lemma unlock_balanced l : db_balanced (unlock l).
Proof.
  destruct l as [|a b]; cbn [unlock]; [bal|]. intros frame s Hs. cbn [snd].
  revert frame s Hs. change (db_balanced (scope (pg_query_2 (str "SELECT pg_advisory_unlock($1, $2)")
      (q_int a) (q_int b)))).
  bal.
Qed.
#[local] Hint Resolve exec_sql_balanced : pgdb.

Lemma files_with_digest_new_balanced d frame s : owns_result frame (db_pg s) →
  match files_with_digest_new d s with
  | (Ok f, s') => raw (db_pg s') = raw (db_pg s) ∧
      live (server (db_pg s')) = (frame ∪ result_ids (raw (db_pg s))) ∪ result_ids (res_ f) ∧
      result_ids (res_ f) ## frame ∪ result_ids (raw (db_pg s))
  | (Throw _, s') => owns_result frame (db_pg s')
  end.
Proof.
  intros Hs. unfold files_with_digest_new, scope, on_pg, sx_on, mbind, sx_bind.
  match goal with |- context [with_res (λ s, match ?q s with _ => _ end)] =>
    pose proof (with_res_release Hlaws q frame (db_pg s)) as H end.
  unfold mbind, sx_bind in H.
  match goal with |- context [with_res ?m ?s] => destruct (with_res m s) as [[r|e] p] end; (apply H; [|done]); bal.
Qed.

Lemma connect_balanced params : db_balanced (on_pg (c ← call (λ _, PQconnectdbParams (fst params) (snd params)); conn_reset c)) ∧
  db_balanced (on_pg (c ← call (λ _, PQconnectdb []); conn_reset c)).
Proof.
  split; apply on_pg_balanced, balanced_bind; intros; try (by apply conn_reset_balanced);
    apply balanced_call; intros; [apply (law_connect_params Hlaws)|apply (law_connect Hlaws)].
Qed.
Lemma database_new_balanced : db_balanced database_new ∧ ∀ h d, db_balanced (database_new_named h d).
Proof.
  split; [apply (proj2 (connect_balanced ([], [])))|]. intros.
  apply (proj1 (connect_balanced ([str "host"; str "port"; str "dbname"], [h; Some (str "5432"); d]))).
Qed.
Lemma conflicts_balanced set_ :
  db_balanced (update_elf_closure_db unescape set_ (Some (ConflictHandler (print_report unescape) true))).
Proof. apply update_elf_closure_db_balanced. intros h r [= <-]. apply print_report_balanced. Qed.
Lemma txn_begin_balanced : db_balanced txn_begin.
Proof. apply (scope_balanced Hlaws). bal. Qed.
Lemma txn_commit_balanced : db_balanced txn_commit.
Proof. apply (scope_balanced Hlaws). bal. Qed.
#[local] Hint Resolve conflicts_balanced txn_begin_balanced txn_commit_balanced : pgdb.

(** C24: No member function of [database] loses a query result or frees one twice:
    whatever the server answers, and whether the function returns or throws, the
    results that are allocated afterwards are those that were allocated before,
    with the exception of the one a [files_with_digest] object keeps and frees in
    its destructor. *)
Theorem database_balanced :
  (db_balanced database_new ∧ (∀ h d, db_balanced (database_new_named h d)) ∧
   db_balanced txn_begin ∧ db_balanced txn_commit ∧ db_balanced txn_rollback ∧ db_balanced txn_begin_no_sync ∧
   (∀ a b, db_balanced (lock a b)) ∧ (∀ l, db_balanced (unlock l)) ∧ (∀ d, db_balanced (lock_digest d))) ∧
  ((∀ pkg, db_balanced (intern_package pkg)) ∧ (∀ i d c, db_balanced (intern_file_contents i d c)) ∧
   (∀ i, db_balanced (intern_file_attribute nss_ i)) ∧ (∀ p d l, db_balanced (add_package_digest p d l)) ∧
   (∀ p u, db_balanced (add_package_url p u)) ∧ (∀ d, db_balanced (package_by_digest d)) ∧
   (∀ p d, db_balanced (add_package_dependency p d)) ∧ (∀ p x, db_balanced (add_package_script p x)) ∧
   (∀ p t i, db_balanced (add_package_trigger p t i)) ∧
   (∀ p n m i c a, db_balanced (add_file_row p n m i c a)) ∧ (∀ p i d c, db_balanced (add_file nss_ p i d c)) ∧
   (∀ c b, db_balanced (update_contents_preview c b)) ∧ (∀ p i, db_balanced (add_directory nss_ p i)) ∧
   (∀ p i, db_balanced (add_symlink nss_ p i))) ∧
  ((∀ (I : Type) (ops : elf_image_ops I) c (i : I) n, db_balanced (add_elf_image c i n)) ∧
   (∀ c d, db_balanced (add_elf_symbol_definition c d)) ∧ (∀ c r, db_balanced (add_elf_symbol_reference c r)) ∧
   (∀ c n, db_balanced (add_elf_needed c n)) ∧ (∀ c n, db_balanced (add_elf_rpath c n)) ∧
   (∀ c n, db_balanced (add_elf_runpath c n)) ∧ (∀ c t v, db_balanced (add_elf_dynamic c t v)) ∧
   (∀ c m, db_balanced (add_elf_error c m)) ∧ (∀ c m l b a, db_balanced (add_xml_error c m l b a)) ∧
   (∀ c j, db_balanced (add_java_class nss_ c j)) ∧ (∀ c m p, db_balanced (add_java_error c m p)) ∧
   (∀ c u, db_balanced (add_maven_url c u)) ∧ (∀ c n, db_balanced (add_python_import c n)) ∧
   (∀ c n, db_balanced (add_python_attribute c n)) ∧ (∀ c n, db_balanced (add_python_function_def c n)) ∧
   (∀ c n, db_balanced (add_python_class_def c n)) ∧ (∀ c l m, db_balanced (add_python_error c l m)) ∧
   (∀ c, db_balanced (has_python_analysis c))) ∧
  ((∀ n, db_balanced (create_package_set n)) ∧ (∀ n, db_balanced (lookup_package_set n)) ∧
   (∀ s p, db_balanced (add_package_set s p)) ∧ (∀ s p, db_balanced (delete_from_package_set s p)) ∧
   (∀ s, db_balanced (empty_package_set s)) ∧ (∀ s p, db_balanced (update_package_set s p)) ∧
   (∀ s, db_balanced (update_package_set_caches unescape s)) ∧
   (∀ u l t, db_balanced (url_cache_fetch_expected unescape u l t)) ∧
   (∀ u, db_balanced (url_cache_fetch unescape u)) ∧ (∀ u d t, db_balanced (url_cache_update u d t)) ∧
   (∀ d, db_balanced (referenced_package_digests unescape d)) ∧ db_balanced expire_url_cache ∧
   db_balanced expire_packages ∧ db_balanced expire_file_contents ∧ db_balanced expire_java_classes ∧
   (∀ s, db_balanced (print_elf_soname_conflicts unescape s)) ∧ (∀ c, db_balanced (exec_sql c)) ∧
   (∀ b i, db_balanced (create_schema SCHEMA_BASE SCHEMA_INDEX b i))) ∧
  (∀ d frame s f s', owns_result frame (db_pg s) → files_with_digest_new d s = (Ok f, s') →
     owns_result frame (db_pg (files_with_digest_destroy f s').2)) ∧
  (∀ d frame s e s', owns_result frame (db_pg s) → files_with_digest_new d s = (Throw e, s') →
     owns_result frame (db_pg s')).
Proof.
  split_and!.
  all: lazymatch goal with
  | |- ∀ d frame s f s', _ → files_with_digest_new d s = (Ok f, s') → _ =>
      intros d frame s f s' Hs E; pose proof (files_with_digest_new_balanced d frame s Hs) as H; rewrite E in H;
      destruct H as (H1 & H2 & H3), Hs as [_ Hs];
      apply (clear_extra Hlaws frame (res_ f) (db_pg s')); rewrite H1; done
  | |- ∀ d frame s e s', _ → files_with_digest_new d s = (Throw e, s') → _ =>
      intros d frame s e s' Hs E; pose proof (files_with_digest_new_balanced d frame s Hs) as H; by rewrite E in H
  | |- context [unlock] => apply unlock_balanced
  | |- context [database_new_named] => apply database_new_balanced
  | |- context [database_new] => apply database_new_balanced
  | |- context [exec_sql] => apply exec_sql_balanced
  | |- context [update_package_set_caches] => intros; by apply update_elf_closure_db_balanced
  | |- _ => intros
  end.
  all: match goal with |- db_balanced ?m => let h := head_of m in unfold h; bal end.
Qed.
End Balance_of_operations.

Definition tape_state (replies : list (option query_result)) : dbst tape := DbSt (start replies) ∅ ∅ [].
(** The second statement fails. *)
Definition tape_trigger : rpm_trigger :=
  RpmTrigger (str "exit 0") (str "/bin/sh") [TriggerCondition (str "bash") (str "4.0") 8].
Example database_balanced_witness :
  (let '(r, s) := add_package_trigger (M := x86_64) 7 tape_trigger 0 (tape_state [Some command_ok; Some (failure (str "no"))]) in
   (r, length (tp_log (server (db_pg s))))) = (Throw (pg_exception (str "no")), 2%nat) ∧
  owns_result ∅ (db_pg (add_package_trigger (M := x86_64) 7 tape_trigger 0
    (tape_state [Some command_ok; Some (failure (str "no"))])).2).
Proof.
  split; [vm_compute; reflexivity|].
  destruct (database_balanced (M := x86_64) tape_libpq_laws (λ _, None) toy_nss [] []) as
    (_ & (_ & _ & _ & _ & _ & _ & _ & _ & Htrigger & _) & _).
  apply Htrigger. by split.
Defined.
