(* ===== verification/DatabaseSpec.v ===== *)
(** * What the database functions achieve (lib/symboldb/database.cpp)

    The functions of Database.v against what the server promises for the statements
    they send.  A promise is a record of laws over a view of the server's state:
    [set_laws] for the membership table of package sets, [attribute_laws] for the
    function that interns file attributes.  Small servers that keep the promises
    show that they can be kept. *)

#[local] Set Warnings "-clear-no-such-hyp".
From S2P Require Import Prelude StringSupport Binary Hash PgPrivate PgQuery SortedMap RpmInfo ElfLookup ElfClosure Database.

(** ** Running a query *)

Section Run.
Context `{M : machine} {C : Type} `{L : libpq C}.

(** The server answers the statement with [r]. *)
Definition answers (conn : option Z) (fmt : Z) (sql : bytes) (args : list pg_arg) (c : C) (r : query_result) (c' : C)
    : Prop :=
  ∃ lengths, arg_lengths args = Ok lengths ∧
    PQexecParams conn sql (zlen args) (Some (map arg_oid args)) (Some (map arg_store args)) (Some lengths)
      (Some (map (λ _, 1) args)) fmt c = (Some r, c') ∧
    result_do_check (Some r) = Ok tt.

Lemma query_run fmt sql args r c' (p : pgst C) : raw p = None →
  answers (conn p) fmt sql args (server p) r c' →
  pg_query_list fmt sql args p = (Ok tt, PgSt (PQclear None c') (conn p) (Some r)).
Proof.
  intros Hr (ls & H1 & H2 & H3). unfold pg_query_list, execParamsCustom, result_reset, call, clear.
  unfold mbind, sx_bind, sx_rethrow, sx_res, sx_get, sx_modify. rewrite H1, H2, H3. cbn. by rewrite Hr.
Qed.

Lemma with_res_ext {A} (m m' : pg C A) p : (∀ q, m q = m' q) → with_res m p = with_res m' p.
Proof.
  intros E. unfold with_res. change ((result_new;; m) p) with (m (set_raw None p)).
  change ((result_new;; m') p) with (m' (set_raw None p)). by rewrite E.
Qed.

(** The end of a scope. *)
Definition leave {A} (outer : option query_result) (r : res A * pgst C) : res A * pgst C :=
  (r.1, PgSt (PQclear (raw r.2) (server r.2)) (conn r.2) outer).

Lemma with_res_query {A} fmt sql args r c' (k : pg C A) (p : pgst C) :
  answers (conn p) fmt sql args (server p) r c' →
  with_res (pg_query_list fmt sql args;; k) p
    = leave (raw p) (k (PgSt (PQclear None c') (conn p) (Some r))).
Proof.
  intros Ha. unfold with_res.
  change ((result_new;; pg_query_list fmt sql args;; k) p) with ((pg_query_list fmt sql args;; k) (set_raw None p)).
  unfold mbind at 1, sx_bind at 1. rewrite (query_run _ _ _ r c' (set_raw None p)) by done.
  change (conn (set_raw None p)) with (conn p).
  by destruct (k (PgSt (PQclear None c') (conn p) (Some r))) as [a q].
Qed.
Lemma with_res_query_only fmt sql args r c' (p : pgst C) :
  answers (conn p) fmt sql args (server p) r c' →
  with_res (pg_query_list fmt sql args) p
    = (Ok tt, PgSt (PQclear (Some r) (PQclear None c')) (conn p) (raw p)).
Proof.
  intros Ha. pose proof (with_res_query fmt sql args r c' (mret tt) p Ha) as H. unfold leave in H. cbn in H.
  rewrite <- H. apply with_res_ext. intros q. unfold mbind, sx_bind. by destruct (pg_query_list fmt sql args q) as [[[]|e] q'].
Qed.

(** The failures: the lengths, and the server. *)
Lemma with_res_too_long {A} fmt sql args e (k : pg C A) (p : pgst C) : arg_lengths args = Throw e →
  with_res (pg_query_list fmt sql args;; k) p = (Throw e, PgSt (PQclear None (server p)) (conn p) (raw p)).
Proof.
  intros E. unfold with_res, pg_query_list, result_new, result_destroy, clear, mbind, sx_bind, sx_modify, sx_res, sx_get.
  by rewrite E.
Qed.
Lemma with_res_fails {A} fmt sql args lengths r c' e (k : pg C A) (p : pgst C) : arg_lengths args = Ok lengths →
  PQexecParams (conn p) sql (zlen args) (Some (map arg_oid args)) (Some (map arg_store args)) (Some lengths)
    (Some (map (λ _, 1) args)) fmt (server p) = (r, c') →
  result_do_check r = Throw e →
  with_res (pg_query_list fmt sql args;; k) p = (Throw e, PgSt (PQclear None (PQclear r c')) (conn p) (raw p)).
Proof.
  intros H1 H2 H3. unfold with_res, pg_query_list, execParamsCustom, result_reset, result_new, result_destroy, call, clear.
  unfold mbind, sx_bind, sx_modify, sx_rethrow, sx_res, sx_get. cbn. rewrite H1, H2, H3. done.
Qed.

Definition in_transaction (s : dbst C) : Prop :=
  PQtransactionStatus (conn (db_pg s)) (server (db_pg s)) = PQTRANS_INTRANS.
Lemma assert_transaction_run (s : dbst C) : in_transaction s → assert_transaction s = (Ok tt, s).
Proof.
  intros H. unfold assert_transaction, on_pg, transactionStatus, mbind, sx_bind, sx_on, sx_get, mret, sx_ret, sx_res.
  unfold in_transaction in H. rewrite H. by destruct s.
Qed.
Lemma bind_ext {S A B} (m m' : sx S A) (f : A → sx S B) s : m s = m' s → (m ≫= f) s = (m' ≫= f) s.
Proof. intros E. unfold mbind, sx_bind. by rewrite E. Qed.
End Run.

(** ** Package sets *)

(** The rows of the membership table: the packages of each set. *)
Class MembersView (C : Type) := members : C → Z → gset Z.

Definition valid_id (z : Z) : Prop := 0 < z < 2 ^ 31.

Section Package_sets.
Context `{M : machine} {C : Type} `{V : MembersView C} `{L : libpq C}.

(** What PostgreSQL does with the three statements on the table.  The table has no
    uniqueness constraint: a package may be listed twice. *)
Record set_laws : Prop := {
  sl_select conn c set_ : valid_id set_ → ∃ r c' rows,
    answers conn 1 SELECT_MEMBERS [q_int set_] c r c' ∧ r_ntuples r = zlen rows ∧
    list_to_set rows = members c set_ ∧
    (∀ i x, zget rows i = Some x → valid_id x ∧ column_holds (r_data r) i 0 1 (oid pg_int) (store_int host x)) ∧
    ∀ t, members c' t = members c t;
  sl_insert conn c set_ pkg : valid_id set_ → valid_id pkg → ∃ r c',
    answers conn 0 INSERT_MEMBER [q_int set_; q_int pkg] c r c' ∧
    members c' set_ = {[pkg]} ∪ members c set_ ∧ ∀ t, t ≠ set_ → members c' t = members c t;
  sl_delete conn c set_ pkg : valid_id set_ → valid_id pkg → ∃ r c',
    answers conn 0 DELETE_MEMBER [q_int set_; q_int pkg] c r c' ∧
    members c' set_ = members c set_ ∖ {[pkg]} ∧ ∀ t, t ≠ set_ → members c' t = members c t;
  sl_clear r c t : members (PQclear r c) t = members c t
}.

Context (Hlaws : set_laws).
Local Abbreviation dbst := (dbst C).

(** The membership of [set_] became [X]; nothing else changed. *)
Definition now_has (set_ : Z) (X : gset Z) (s s' : dbst) : Prop :=
  members (server (db_pg s')) set_ = X ∧
  (∀ t, t ≠ set_ → members (server (db_pg s')) t = members (server (db_pg s)) t) ∧
  conn (db_pg s') = conn (db_pg s) ∧ raw (db_pg s') = raw (db_pg s) ∧
  file_attribute_cache s' = file_attribute_cache s.

Lemma now_has_trans set_ X Y s s' s'' : now_has set_ X s s' → now_has set_ Y s' s'' → now_has set_ Y s s''.
Proof.
  intros (A1 & A2 & A3 & A4 & A5) (B1 & B2 & B3 & B4 & B5). split_and!; try congruence.
  intros t Ht. by rewrite B2, A2.
Qed.

Lemma add_package_set_run set_ pkg (s : dbst) : valid_id set_ → valid_id pkg → ∃ s',
  add_package_set set_ pkg s = (Ok tt, s') ∧ now_has set_ ({[pkg]} ∪ members (server (db_pg s)) set_) s s'.
Proof using Hlaws.
  intros Hs Hp. destruct (sl_insert Hlaws (conn (db_pg s)) (server (db_pg s)) set_ pkg Hs Hp) as (r & c' & Ha & H1 & H2).
  unfold add_package_set, scope, on_pg, sx_on.
  erewrite (with_res_ext _ (pg_query_list 0 INSERT_MEMBER [q_int set_; q_int pkg])) by (intros; apply private_pg_query_2_list).
  rewrite (with_res_query_only _ _ _ _ _ _ Ha). eexists. split; [done|].
  split_and!; cbn; try done; [|intros t Ht]; by rewrite !(sl_clear Hlaws), ?H1, ?H2.
Qed.
Lemma delete_from_package_set_run set_ pkg (s : dbst) : valid_id set_ → valid_id pkg → ∃ s',
  delete_from_package_set set_ pkg s = (Ok tt, s') ∧ now_has set_ (members (server (db_pg s)) set_ ∖ {[pkg]}) s s'.
Proof using Hlaws.
  intros Hs Hp. destruct (sl_delete Hlaws (conn (db_pg s)) (server (db_pg s)) set_ pkg Hs Hp) as (r & c' & Ha & H1 & H2).
  unfold delete_from_package_set, scope, on_pg, sx_on.
  erewrite (with_res_ext _ (pg_query_list 0 DELETE_MEMBER [q_int set_; q_int pkg])) by (intros; apply private_pg_query_2_list).
  rewrite (with_res_query_only _ _ _ _ _ _ Ha). eexists. split; [done|].
  split_and!; cbn; try done; [|intros t Ht]; by rewrite !(sl_clear Hlaws), ?H1, ?H2.
Qed.

(** Reading an identifier from a column that holds one. *)
Lemma load_id r row x : valid_id x → column_holds r row 0 1 (oid pg_int) (store_int host x) →
  pg_response_1 load_int_ r row 0 = (Ok tt, x).
Proof.
  intros Hx Hc. unfold pg_response_1, load_into, mbind, sx_bind, sx_res, sx_modify, load_int_.
  by rewrite (load_store_int host r row 0 x) by (unfold valid_id in Hx; lia || done).
Qed.

Lemma read_members_run (r : query_result) rows (p : pgst C) : raw p = Some r →
  (∀ i x, zget rows i = Some x → valid_id x ∧ column_holds (r_data r) i 0 1 (oid pg_int) (store_int host x)) →
  ∀ rest pre old, rows = pre ++ rest → zs_sorted old → ∃ old',
    read_members (length rest) (zlen pre) old p = (Ok old', p) ∧ zs_sorted old' ∧
    ∀ x, x ∈ old' ↔ x ∈ old ∨ x ∈ rest.
Proof.
  intros Hr Hrows. induction rest as [|x rest IH]; intros pre old Hpre Hold.
  { exists old. split_and!; [done|done|]. intros y. rewrite elem_of_nil. tauto. }
  destruct (Hrows (zlen pre) x) as [Hx Hc]; [rewrite Hpre; apply zget_app_mid|].
  destruct (IH (pre ++ [x]) (zs_insert x old)) as (old' & H1 & H2 & H3);
    [by rewrite Hpre, <- app_assoc|by apply zs_insert_sorted|].
  exists old'. split_and!; [|done|].
  - cbn [length read_members]. unfold response, data, result_get, mbind, sx_bind, sx_get, mret, sx_ret, sx_res.
    rewrite Hr, (load_id _ _ _ Hx Hc). destruct (Z.eqb_spec x 0); [unfold valid_id in Hx; lia|].
    cbn [negb assert_]. replace (zlen pre + 1) with (zlen (pre ++ [x])) by zl. exact H1.
  - intros y. rewrite H3, zs_insert_elem, elem_of_cons. tauto.
Qed.

Lemma filter_out (x : Z) l y : y ∈ List.filter (λ z, negb (z =? x)) l ↔ y ∈ l ∧ y ≠ x.
Proof.
  rewrite !list_elem_of_In, List.filter_In. destruct (Z.eqb_spec y x); cbn; intuition congruence.
Qed.

(** The loop over the new members: what is left of the old ones, and whether
    something was inserted. *)
Lemma add_members_run set_ pids : valid_id set_ → Forall valid_id pids → ∀ (old : list Z) changes (s : dbst),
  (∀ x, x ∈ old → x ∈ members (server (db_pg s)) set_) → ∃ old' changes' s',
    add_members set_ pids old changes s = (Ok (old', changes'), s') ∧
    now_has set_ (list_to_set pids ∪ members (server (db_pg s)) set_) s s' ∧
    (∀ x, x ∈ old' ↔ x ∈ old ∧ x ∉ pids) ∧
    (changes' = false ↔ changes = false ∧ NoDup pids ∧ ∀ x, x ∈ pids → x ∈ old).
Proof using Hlaws.
  intros Hset Hp. induction Hp as [|x pids Hx Hp IH]; intros old changes s Hold; cbn [add_members].
  { exists old, changes, s. split_and!; try done.
    - split_and!; try done. set_solver.
    - intros x. rewrite elem_of_nil. tauto.
    - split; [intros ->; split_and!; [done|constructor|by intros x ?%elem_of_nil]|by intros (-> & _)]. }
  destruct (zs_mem x old) eqn:Ex.
  - apply zs_mem_spec in Ex. destruct (IH (List.filter (λ z, negb (z =? x)) old) changes s) as (old' & ch & s' & H1 & H2 & H3 & H4).
    { intros y [Hy _]%filter_out. by apply Hold. }
    exists old', ch, s'. split_and!; [done| | |].
    + specialize (Hold x Ex). destruct H2 as (H2 & H2'). split; [|done]. rewrite H2. cbn [list_to_set]. set_solver.
    + intros y. rewrite H3, filter_out, elem_of_cons. tauto.
    + rewrite H4, NoDup_cons. setoid_rewrite filter_out. setoid_rewrite elem_of_cons. split.
      * intros (-> & Hnd & Hall). split_and!; [done| |done|].
        -- intros Hin. destruct (Hall x Hin). congruence.
        -- intros y [->|Hy]; [done|]. by apply Hall.
      * intros (-> & (Hnin & Hnd) & Hall). split_and!; [done|done|]. intros y Hy. split; [by apply Hall; right|congruence].
  - destruct (add_package_set_run set_ x s Hset Hx) as (s1 & E1 & N1). unfold mbind, sx_bind at 1. rewrite E1.
    destruct (IH old true s1) as (old' & ch & s' & H1 & H2 & H3 & H4).
    { intros y Hy. rewrite (proj1 N1). specialize (Hold y Hy). set_solver. }
    assert (x ∉ old) as Hnx by (intros ?%zs_mem_spec; congruence).
    exists old', ch, s'. split_and!; [done| | |].
    + pose proof (now_has_trans _ _ _ _ _ _ N1 H2) as (H5 & H6). split; [|done]. rewrite H5, (proj1 N1).
      cbn [list_to_set]. set_solver.
    + intros y. rewrite H3, elem_of_cons. split; [intros [? ?]; split; [done|]; intros [->|?]; done|tauto].
    + rewrite H4. split; [by intros (? & _)|]. intros (_ & _ & Hall). by destruct Hnx; apply Hall; left.
Qed.

Lemma delete_members_run set_ old : valid_id set_ → Forall valid_id old → ∀ changes (s : dbst), ∃ s',
  delete_members set_ old changes s = (Ok (changes || negb (bool_decide (old = []))), s') ∧
  now_has set_ (members (server (db_pg s)) set_ ∖ list_to_set old) s s'.
Proof using Hlaws.
  intros Hset Hp. induction Hp as [|x old Hx Hp IH]; intros changes s; cbn [delete_members].
  { exists s. split; [by rewrite orb_false_r|]. split_and!; try done. cbn. set_solver. }
  destruct (delete_from_package_set_run set_ x s Hset Hx) as (s1 & E1 & N1). unfold mbind, sx_bind at 1. rewrite E1.
  destruct (IH true s1) as (s' & H1 & H2). exists s'. split; [rewrite H1; by rewrite orb_true_r|].
  pose proof (now_has_trans _ _ _ _ _ _ N1 H2) as (H5 & H6). split; [|done]. rewrite H5, (proj1 N1). cbn. set_solver.
Qed.

End Package_sets.

(** A server with just the membership table: the rows (set, package). *)
Definition set_server : Type := list (Z * Z).
Definition rows_of (c : set_server) (set_ : Z) : list Z :=
  snd <$> base.filter (λ p, p.1 = set_ ∧ 0 < p.2 < 2 ^ 31) c.
Definition int_param (v : option bytes) : Z :=
  match v with Some b => to_signed 32 (be_to_cpu_32 ORDER_LITTLE_ENDIAN (host_value ORDER_LITTLE_ENDIAN b)) | None => 0 end.
Definition set_exec (sql : bytes) (values : option (list (option bytes))) (c : set_server)
    : option query_result * set_server :=
  match values with
  | Some [v] =>
      if bool_decide (sql = SELECT_MEMBERS) then
        (Some (table 1 [23] ((λ x, [store_int ORDER_LITTLE_ENDIAN x]) <$> rows_of c (int_param v))), c)
      else (None, c)
  | Some [v; w] =>
      if bool_decide (sql = INSERT_MEMBER) then (Some command_ok, c ++ [(int_param v, int_param w)])
      else if bool_decide (sql = DELETE_MEMBER) then
        (Some command_ok, base.filter (λ p, p ≠ (int_param v, int_param w)) c)
      else (None, c)
  | _ => (None, c)
  end.
#[local] Instance set_libpq : libpq set_server := {|
  PQconnectdb _ c := (Some 1, c);
  PQconnectdbParams _ _ c := (Some 1, c);
  PQfinish _ c := c;
  PQstatus _ _ := CONNECTION_OK;
  PQtransactionStatus _ _ := PQTRANS_INTRANS;
  PQerrorMessage _ _ := [];
  PQexec _ _ c := (None, c);
  PQexecParams _ sql _ _ values _ _ _ c := set_exec sql values c;
  PQgetResult _ c := (None, c);
  PQclear _ c := c;
  PQputCopyData _ _ c := (1, c);
  PQputCopyEnd _ _ c := (1, c);
  PQgetCopyData _ c := (-1, [], c)
|}.
#[local] Instance set_members : MembersView set_server := λ c set_, list_to_set (rows_of c set_).

Lemma int_param_any z : - 2 ^ 31 <= z < 2 ^ 31 → int_param (Some (store_int ORDER_LITTLE_ENDIAN z)) = z.
Proof.
  intros Hz. unfold int_param, store_int.
  destruct (be_to_cpu_to_be ORDER_LITTLE_ENDIAN (u32 z) 0) as (E & Hr & _); [apply Z.mod_pos_bound; lia|lia|].
  rewrite host_value_memory, E by exact Hr. apply (to_signed_u 32); lia.
Qed.
Lemma int_param_store z : valid_id z → int_param (Some (store_int ORDER_LITTLE_ENDIAN z)) = z.
Proof. unfold valid_id. intros. apply int_param_any. lia. Qed.
Lemma set_server_members c set_ x : x ∈ members c set_ ↔ (set_, x) ∈ c ∧ valid_id x.
Proof.
  unfold members, set_members, rows_of. rewrite elem_of_list_to_set, list_elem_of_fmap. split.
  - intros ([s y] & -> & [[Hs Hv] Hin]%list_elem_of_filter). cbn in *. by subst.
  - intros [Hin Hv]. exists (set_, x). split; [done|]. by apply list_elem_of_filter.
Qed.
Lemma set_server_laws : set_laws (M := x86_64) (C := set_server).
Proof.
  split.
  - intros conn_ c set_ Hs.
    exists (table 1 [23] ((λ x, [store_int ORDER_LITTLE_ENDIAN x]) <$> rows_of c set_)), c, (rows_of c set_). split_and!.
    + exists [4]. split_and!; [reflexivity| |reflexivity]. cbn [PQexecParams set_libpq map arg_store q_int value_store].
      unfold set_exec. rewrite bool_decide_eq_true_2 by done. cbn [host x86_64]. rewrite int_param_store by done. reflexivity.
    + cbn. apply zlen_fmap.
    + done.
    + intros i x Hx. assert (valid_id x) as Hv.
      { unfold zget in Hx. destruct (i <? 0); [done|]. apply list_elem_of_lookup_2, list_elem_of_fmap in Hx as (p & -> & Hp).
        by apply list_elem_of_filter in Hp as [[_ ?] _]. }
      split; [done|]. unfold column_holds, table. cbn [r_data PQfformat PQftype PQgetlength PQgetisnull PQgetvalue].
      rewrite zget_fmap, Hx. by split_and!.
    + done.
  - intros conn_ c set_ pkg Hs Hp. exists command_ok, (c ++ [(set_, pkg)]). split_and!.
    + exists [4; 4]. split_and!; [reflexivity| |reflexivity]. cbn [PQexecParams set_libpq map arg_store q_int value_store].
      unfold set_exec. rewrite bool_decide_eq_true_2 by done. cbn [host x86_64]. by rewrite !int_param_store by done.
    + apply set_eq. intros x. rewrite elem_of_union, elem_of_singleton, !set_server_members, elem_of_app, list_elem_of_singleton.
      split; [intros [[?|[= ->]] ?]; auto|intros [->|[? ?]]; auto].
    + intros t Ht. apply set_eq. intros x. rewrite !set_server_members, elem_of_app, list_elem_of_singleton.
      split; [intros [[?|[= ->]] ?]; done|intros [? ?]; auto].
  - intros conn_ c set_ pkg Hs Hp. exists command_ok, (base.filter (λ p, p ≠ (set_, pkg)) c). split_and!.
    + exists [4; 4]. split_and!; [reflexivity| |reflexivity]. cbn [PQexecParams set_libpq map arg_store q_int value_store].
      unfold set_exec. rewrite bool_decide_eq_false_2, bool_decide_eq_true_2 by done.
      cbn [host x86_64]. by rewrite !int_param_store by done.
    + apply set_eq. intros x. rewrite elem_of_difference, not_elem_of_singleton, !set_server_members, list_elem_of_filter.
      split; [intros [[Hne ?] ?]; split_and!; try done; congruence|intros [[? ?] ?]; split_and!; try done; congruence].
    + intros t Ht. apply set_eq. intros x. rewrite !set_server_members, list_elem_of_filter.
      split; [intros [[_ ?] ?]; done|intros [? ?]; split_and!; try done; congruence].
  - done.
Qed.

Definition set_state (c : set_server) : dbst set_server := DbSt (PgSt c (Some 1) None) ∅ ∅ [].

(** A package that is listed twice is inserted again each time, as a change. *)
Example duplicates_accumulate :
  (let '(changes, s) := update_package_set (M := x86_64) 1 [7; 7] (set_state [(1, 7)]) in
   (changes, server (db_pg s))) = (Ok true, [(1, 7); (1, 7)]).
Proof. vm_compute. reflexivity. Qed.

(** ** File attributes *)

(** The rows of the attribute table and their identifiers. *)
Class AttributesView (C : Type) := attributes : C → gmap attribute_row Z.

Section Attributes.
Context `{M : machine} {C : Type} `{V : AttributesView C} `{L : libpq C} {N : Type} (nss_ : nss N).

Definition row_of (info : rpm_file_info) : attribute_row :=
  (to_signed 32 (fi_mode info), to_signed 32 (fi_flags info), fi_user info, fi_group info, fi_capabilities info,
   fi_normalized info).
Definition intern_args (info : rpm_file_info) (row_hash : bytes) : list pg_arg :=
  [q_bytes row_hash; q_int (to_signed 32 (fi_mode info)); q_int (to_signed 32 (fi_flags info)); q_text (fi_user info);
   q_text (fi_group info); q_text (fi_capabilities info); q_bool (fi_normalized info)].

(** The function [symboldb.intern_file_attribute] may fail; if it does not, it
    returns the identifier of the row, which it adds if necessary.  (Rows with the
    same hash would share an identifier; the law says that there are none.) *)
Record attribute_laws : Prop := {
  al_intern conn c info row_hash lengths : intern_hash nss_ info = Ok row_hash →
    arg_lengths (intern_args info row_hash) = Ok lengths →
    let '(r, c') := PQexecParams conn INTERN_ATTRIBUTE 7 (Some (map arg_oid (intern_args info row_hash)))
      (Some (map arg_store (intern_args info row_hash))) (Some lengths) (Some [1; 1; 1; 1; 1; 1; 1]) 1 c in
    attributes c ⊆ attributes c' ∧
    (result_do_check r = Ok tt → ∃ q aid, r = Some q ∧ valid_id aid ∧ attributes c' !! row_of info = Some aid ∧
       column_holds (r_data q) 0 0 1 (oid pg_int) (store_int host aid));
  al_clear r c : attributes (PQclear r c) = attributes c
}.
Context (Hlaws : attribute_laws).
Local Abbreviation dbst := (dbst C).

(** The cache agrees with the table; zero marks an entry that is not known yet. *)
Definition cache_ok (s : dbst) : Prop := ∀ row aid,
  file_attribute_cache s !! row = Some aid → aid = 0 ∨ attributes (server (db_pg s)) !! row = Some aid.

Lemma cache_ok_update (s : dbst) p row aid : cache_ok s → attributes (server (db_pg s)) ⊆ attributes (server p) →
  aid = 0 ∨ attributes (server p) !! row = Some aid →
  cache_ok (DbSt p (<[row := aid]> (file_attribute_cache s)) (file_names s) (output s)).
Proof.
  intros Hs Hsub Haid row' aid'. cbn. destruct (decide (row = row')) as [<-|Hne].
  - rewrite lookup_insert_eq. by intros [= <-].
  - rewrite lookup_insert_ne by done. intros [?|H]%Hs; [by left|right]. by eapply lookup_weaken.
Qed.

(** The query: what it returns is in the table. *)
Lemma intern_query_run (info : rpm_file_info) row_hash (p : pgst C) : intern_hash nss_ info = Ok row_hash →
  let '(r, q) := with_res (pg_query_list 1 INTERN_ATTRIBUTE (intern_args info row_hash);;
                           response (pg_response_1 load_int_) 0 0) p in
  attributes (server p) ⊆ attributes (server q) ∧ conn q = conn p ∧ raw q = raw p ∧
  match r with Ok aid => valid_id aid ∧ attributes (server q) !! row_of info = Some aid | Throw _ => True end.
Proof using Hlaws.
  intros Hhash. destruct (arg_lengths (intern_args info row_hash)) as [lengths|e] eqn:Hl.
  2: { rewrite (with_res_too_long _ _ _ e) by done. cbn. by rewrite (al_clear Hlaws). }
  pose proof (al_intern Hlaws (conn p) (server p) info row_hash lengths Hhash Hl) as H.
  destruct (PQexecParams _ _ _ _ _ _ _ _ (server p)) as [r c'] eqn:Hexec. destruct H as [Hsub H].
  destruct (result_do_check r) as [[]|e] eqn:Hr.
  2: { rewrite (with_res_fails _ _ _ lengths r c' e) by done. cbn. by rewrite !(al_clear Hlaws). }
  destruct (H eq_refl) as (q & aid & -> & Haid & Hrow & Hcol).
  rewrite (with_res_query _ _ _ q c') by (by exists lengths).
  unfold response, data, result_get, mbind, sx_bind, sx_get, mret, sx_ret. cbn [raw].
  rewrite (load_id (r_data q) 0 aid Haid Hcol). unfold leave. cbn. by rewrite !(al_clear Hlaws).
Qed.


End Attributes.

(** A server with just the attribute table; it gives up when it runs out of
    identifiers. *)
Abbreviation attribute_server := (gmap attribute_row Z).
Definition attribute_exec (sql : bytes) (values : option (list (option bytes))) (c : attribute_server)
    : option query_result * attribute_server :=
  match values with
  | Some [_; mode; flags; Some user; Some group; Some caps; Some normalized] =>
      let row : attribute_row :=
        (int_param mode, int_param flags, user, group, caps, bool_decide (normalized = [1])) in
      let aid := default (1 + Z.of_nat (size c)) (c !! row) in
      if bool_decide (0 < aid < 2 ^ 31) then
        (Some (table 1 [23] [[store_int ORDER_LITTLE_ENDIAN aid]]), <[row := aid]> c)
      else (None, c)
  | _ => (None, c)
  end.
#[local] Instance attribute_libpq : libpq attribute_server := {|
  PQconnectdb _ c := (Some 1, c);
  PQconnectdbParams _ _ c := (Some 1, c);
  PQfinish _ c := c;
  PQstatus _ _ := CONNECTION_OK;
  PQtransactionStatus _ _ := PQTRANS_INTRANS;
  PQerrorMessage _ _ := [];
  PQexec _ _ c := (None, c);
  PQexecParams _ sql _ _ values _ _ _ c := attribute_exec sql values c;
  PQgetResult _ c := (None, c);
  PQclear _ c := c;
  PQputCopyData _ _ c := (1, c);
  PQputCopyEnd _ _ c := (1, c);
  PQgetCopyData _ c := (-1, [], c)
|}.
#[local] Instance attribute_view : AttributesView attribute_server := λ c, c.

Lemma to_signed_range z : - 2 ^ 31 <= to_signed 32 z < 2 ^ 31.
Proof. unfold to_signed. pose proof (Z.mod_pos_bound z (2 ^ 32) ltac:(lia)). cbn [Z.sub Z.pos_sub]. case_if; lia. Qed.
Lemma attribute_server_laws {N} (nss_ : nss N) : attribute_laws (M := x86_64) (C := attribute_server) nss_.
Proof.
  split; [|done]. intros conn_ c info row_hash lengths _ _.
  cbn [PQexecParams attribute_libpq map arg_store intern_args q_bytes q_int q_text q_bool value_store].
  unfold attribute_exec, store_string. cbn [host x86_64]. rewrite !int_param_any by apply to_signed_range.
  assert (bool_decide (store_bool (fi_normalized info) = [1]) = fi_normalized info) as -> by (by destruct (fi_normalized info)).
  fold (row_of info). set (aid := default _ _).
  assert (c ⊆ <[row_of info := aid]> c) as Hsub.
  { subst aid. destruct (c !! row_of info) as [x|] eqn:E; cbn; [by rewrite insert_id|by apply insert_subseteq]. }
  destruct (bool_decide_reflect (0 < aid < 2 ^ 31)) as [Ha|Ha].
  - split; [exact Hsub|]. intros _. exists (table 1 [23] [[store_int ORDER_LITTLE_ENDIAN aid]]), aid.
    split; [done|]. split; [exact Ha|]. split; [apply lookup_insert_eq|done].
  - split; [done|]. by intros [=].
Qed.

Definition sample_file : rpm_file_info :=
  RpmFileInfo (str "/bin/sh") (str "root") (str "root") [] [] (Checksum [] 10 sha256) 33261 1000 7 0 false.
Definition attribute_state : dbst attribute_server := DbSt (PgSt ∅ (Some 1) None) ∅ ∅ [].

(** ** Numbers *)

Section Numbers.
Context `{M : machine} {C : Type} `{L : libpq C} {N : Type} (nss_ : nss N).

Lemma to_signed_cast w z : 0 < w → 0 <= z < 2 ^ w →
  (to_signed w z <? 0) = (2 ^ (w - 1) <=? z) ∧ (z < 2 ^ (w - 1) → to_signed w z = z).
Proof.
  intros Hw Hz. unfold to_signed. rewrite Z.mod_small by done.
  assert (2 ^ w = 2 * 2 ^ (w - 1)) by (rewrite <- Z.pow_succ_r by lia; f_equal; lia).
  destruct (Z.ltb_spec z (2 ^ (w - 1))); split; lia.
Qed.

(** The fields of a [rpm_file_info] have their C++ types. *)
Definition file_info_typed (info : rpm_file_info) : Prop :=
  0 <= csum_length (fi_digest info) < 2 ^ 64 ∧ 0 <= fi_mode info < 2 ^ 32 ∧ 0 <= fi_ino info < 2 ^ 32 ∧
  0 <= fi_mtime info < 2 ^ 32 ∧ 0 <= fi_flags info < 2 ^ 32.

(** C29: [add_file] never wraps a number around: outside a transaction it fails;
    a length, mode, inode number, modification time or flags that the signed column
    type cannot hold raises the exception for the first of them, and neither the
    server nor the cache has changed; otherwise the numbers that are sent are those
    of the file. *)
Theorem add_file_bounds (pkg : Z) (info : rpm_file_info) (digest contents : bytes) (s : dbst C) :
  file_info_typed info →
  let len := csum_length (fi_digest info) in
  let refused why := add_file nss_ pkg info digest contents s = (Throw (runtime_error why), s) in
  (¬ in_transaction s → ∃ s', add_file nss_ pkg info digest contents s = (Throw assertion_failure, s')) ∧
  (in_transaction s →
    if 2 ^ 63 <=? len then refused (str "file length out of range")
    else if 2 ^ 31 <=? fi_mode info then refused (str "file mode out of range")
    else if 2 ^ 31 <=? fi_ino info then refused (str "file inode out of range")
    else if 2 ^ 31 <=? fi_mtime info then refused (str "file mtime out of range")
    else if 2 ^ 31 <=? fi_flags info then refused (str "file flags out of range")
    else add_file nss_ pkg info digest contents s =
      (aid ← intern_file_attribute nss_ info;
       scope (pg_query_list 1 ADD_FILE
                [q_long len; q_bytes digest; q_bytes contents; q_int aid; q_int pkg; q_int (fi_ino info);
                 q_int (fi_mtime info); q_text (fi_name info)];;
              response (pg_response_4 load_int_ load_int_ load_bool load_int_) 0 (0, 0, false, 0))) s).
Proof.
  intros (T1 & T2 & T3 & T4 & T5) len refused. split.
  { intros Ht. unfold add_file, assert_transaction, on_pg, transactionStatus.
    unfold mbind, sx_bind, sx_on, sx_get, mret, sx_ret, sx_res. unfold in_transaction in Ht.
    destruct (Z.eqb_spec (PQtransactionStatus (conn (db_pg s)) (server (db_pg s))) PQTRANS_INTRANS); [done|].
    cbn [assert_]. by eexists. }
  intros Ht. subst refused. cbv beta. unfold add_file.
  rewrite (sx_bind_run _ _ _ _ _ (assert_transaction_run s Ht)). cbv zeta. fold len.
  destruct (to_signed_cast 64 len ltac:(lia) T1) as [-> E1]. change (2 ^ (64 - 1)) with (2 ^ 63) in *.
  destruct (Z.leb_spec (2 ^ 63) len); [done|]. rewrite E1 by done.
  destruct (to_signed_cast 32 (fi_mode info) ltac:(lia) T2) as [E2 _]. rewrite E2. change (2 ^ (32 - 1)) with (2 ^ 31) in *.
  destruct (Z.leb_spec (2 ^ 31) (fi_mode info)); [done|].
  destruct (to_signed_cast 32 (fi_ino info) ltac:(lia) T3) as [-> E3]. change (2 ^ (32 - 1)) with (2 ^ 31) in *.
  destruct (Z.leb_spec (2 ^ 31) (fi_ino info)); [done|]. rewrite E3 by done.
  destruct (to_signed_cast 32 (fi_mtime info) ltac:(lia) T4) as [-> E4]. change (2 ^ (32 - 1)) with (2 ^ 31) in *.
  destruct (Z.leb_spec (2 ^ 31) (fi_mtime info)); [done|]. rewrite E4 by done.
  destruct (to_signed_cast 32 (fi_flags info) ltac:(lia) T5) as [E5 _].
  change (2 ^ (32 - 1)) with (2 ^ 31) in *.
  destruct (Z.leb_spec (2 ^ 31) (fi_flags info)).
  - unfold intern_file_attribute, mbind, sx_bind. rewrite E2, E5.
    destruct (Z.leb_spec (2 ^ 31) (fi_mode info)); [lia|]. by destruct (Z.leb_spec (2 ^ 31) (fi_flags info)); [|lia].
  - unfold mbind at 1 3, sx_bind at 1 3. destruct (intern_file_attribute nss_ info s) as [[aid|e] s']; [|done].
    unfold scope, on_pg, sx_on. f_equal.
    erewrite with_res_ext; [reflexivity|]. intros q. apply bind_ext, private_pg_query_8_list.
Qed.
End Numbers.

Example add_file_bounds_witness :
  add_file (M := x86_64) toy_nss 1 (RpmFileInfo (str "/f") [] [] [] [] (Checksum [] 1 sha256) 33188 (2 ^ 31) 7 0 false)
    [] [] attribute_state = (Throw (runtime_error (str "file mtime out of range")), attribute_state).
Proof.
  apply (proj2 (add_file_bounds toy_nss 1
    (RpmFileInfo (str "/f") [] [] [] [] (Checksum [] 1 sha256) 33188 (2 ^ 31) 7 0 false) [] [] attribute_state
    ltac:(unfold file_info_typed; cbn; lia))). reflexivity.
Defined.

(** ** Files by digest *)

Section Files_with_digest.
Context (unescape : bytes → option bytes).

(** Calling [next] until it returns false: what the accessors return each time. *)
Fixpoint drain (fuel : nat) (f : files_with_digest) : option (res (list (bytes * bytes))) :=
  match fuel with
  | O => None
  | Datatypes.S fuel =>
      match files_with_digest_next unescape f with
      | (Ok true, f) =>
          match drain fuel f with Some (Ok rows) => Some (Ok ((rpm_digest f, file_name f) :: rows)) | r => r end
      | (Ok false, _) => Some (Ok [])
      | (Throw e, _) => Some (Throw e)
      end
  end.

(** The columns of the result hold the rows; a row that does not exist reads as a
    null pointer and length zero, as libpq documents. *)
Definition holds_files (r : query_result) (rows : list (bytes * bytes)) : Prop :=
  r_ntuples r = zlen rows ∧
  (∀ i d n, zget rows i = Some (d, n) →
    column_holds (r_data r) i 0 1 (oid pg_bytea) d ∧ column_holds (r_data r) i 1 1 (oid pg_string) n) ∧
  PQfformat (r_data r) 0 = 1 ∧ PQfformat (r_data r) 1 = 1 ∧
  PQftype (r_data r) 0 = oid pg_bytea ∧ PQftype (r_data r) 1 = oid pg_string ∧
  ∀ i col, zget rows i = None → PQgetlength (r_data r) i col = 0.

Lemma next_row (r : query_result) rows i d n d0 n0 : holds_files r rows → 0 <= i <= zlen rows →
  zget (rows ++ [([], [])]) i = Some (d, n) →
  files_with_digest_next unescape (FilesWithDigest d0 n0 (Some r) i) = (Ok true, FilesWithDigest d n (Some r) (i + 1)).
Proof.
  intros (H1 & H2 & F0 & F1 & T0 & T1 & H3) Hi Hrow.
  unfold files_with_digest_next, mbind, sx_bind, sx_get, sx_modify. cbn [row_ res_ rpm_digest_ file_name_].
  rewrite H1. destruct (Z.leb_spec i (zlen rows)); [|lia].
  assert (load_text_ unescape (r_data r) i 0 = Ok d ∧ load_text_ unescape (r_data r) i 1 = Ok n) as [E1 E2].
  { destruct (decide (i < zlen rows)) as [Hlt|Hge].
    - rewrite zget_app_l in Hrow by done. destruct (H2 i d n Hrow) as [Hd Hn].
      split; [apply (load_binary_text unescape _ _ _ _ _ (or_intror eq_refl) Hd)|
              apply (load_binary_text unescape _ _ _ _ _ (or_introl eq_refl) Hn)].
    - assert (i = zlen rows) as -> by lia. rewrite zget_app_mid in Hrow. injection Hrow as <- <-.
      assert (zget rows (zlen rows) = None) as Hnone.
      { rewrite zget_nonneg, to_nat_zlen by lia. by apply lookup_ge_None_2. }
      unfold load_text_, load_text, is_binary. rewrite F0, F1, T0, T1, !H3 by done. done. }
  unfold pg_response_2, load_into, mbind, sx_bind, sx_res, sx_modify. cbn [row_ res_ rpm_digest_ file_name_].
  by rewrite E1, E2.
Qed.

(** [files_with_digest] delivers the rows of the result in order, and then one
    row more, with an empty digest and an empty name, before [next] returns false. *)
Theorem files_with_digest_rows (r : query_result) (rows : list (bytes * bytes)) (fuel : nat) :
  holds_files r rows → (length rows + 2 <= fuel)%nat →
  drain fuel (FilesWithDigest [] [] (Some r) 0) = Some (Ok (rows ++ [([], [])])).
Proof.
  intros Hr Hfuel.
  enough (∀ fuel d0 n0 pre rest, rows ++ [([], [])] = pre ++ rest → (length rest < fuel)%nat →
    drain fuel (FilesWithDigest d0 n0 (Some r) (zlen pre)) = Some (Ok rest)) as H.
  { apply (H fuel [] [] [] (rows ++ [([], [])])); [done|]. rewrite length_app. cbn. lia. }
  clear fuel Hfuel. induction fuel as [|fuel IH]; intros d0 n0 pre rest Hrows Hf; [lia|].
  assert (zlen rows + 1 = zlen pre + zlen rest) as Hlen.
  { rewrite <- zlen_app, <- Hrows, zlen_app. done. }
  pose proof (zlen_nonneg pre). pose proof (zlen_nonneg rest).
  cbn [drain]. destruct rest as [|[d n] rest].
  - destruct Hr as (H1 & _). unfold files_with_digest_next, mbind, sx_bind, sx_get. cbn [row_ res_]. rewrite H1.
    change (zlen []) with 0 in Hlen. by destruct (Z.leb_spec (zlen pre) (zlen rows)); [lia|].
  - rewrite zlen_cons in Hlen. pose proof (zlen_nonneg rest).
    rewrite (next_row r rows (zlen pre) d n) by (done || lia || (rewrite Hrows; apply zget_app_mid)).
    replace (zlen pre + 1) with (zlen (pre ++ [(d, n)])) by zl.
    rewrite (IH d n (pre ++ [(d, n)]) rest); [done|by rewrite Hrows, <- app_assoc|cbn in Hf; lia].
Qed.
End Files_with_digest.

Definition sample_files : query_result :=
  table 1 [17; 25] [[ [1; 2]; str "/bin/a"]; [ [3]; str "/bin/b"]].
Example files_with_digest_rows_witness :
  drain (λ _, None) 4 (FilesWithDigest [] [] (Some sample_files) 0)
    = Some (Ok [([1; 2], str "/bin/a"); ([3], str "/bin/b"); ([], [])]).
Proof.
  refine (files_with_digest_rows (λ _, None) sample_files [([1; 2], str "/bin/a"); ([3], str "/bin/b")] 4 _ _); [|cbn; lia].
  split; [reflexivity|]. split; [|split_and!; try reflexivity].
  - intros i d n Hi. unfold zget in Hi. destruct (Z.ltb_spec i 0); [done|].
    destruct (Z.to_nat i) as [|[|]] eqn:Ei; [| |done]; injection Hi as <- <-;
      [assert (i = 0) as -> by lia|assert (i = 1) as -> by lia]; by split_and!.
  - intros i col Hi. cbn. unfold zget in *. destruct (i <? 0); [done|]. cbn in *.
    destruct (Z.to_nat i) as [|[|]]; done.
Defined.

(** ** The closure *)

(** The fuel of [update_elf_closure_db] is enough for the map it has built, and the
    result is the transitive closure. *)
Lemma closure_fuel_enough (m : dependency_map) : dm_sorted m → dm_wf m → ∃ m',
  closure_loop (closure_fuel m) (closure_fuel m) m = Some m' ∧ ∀ k d, edges m' k d ↔ tc (edges m) k d.
Proof.
  intros Hs Hwf. set (U := snd <$> dm_pairs m).
  assert (∀ k d, edges m k d → d ∈ U) as HU.
  { intros k d Hkd. apply dm_pairs_edges in Hkd; [|by apply dm_sorted_NoDup]. by apply (list_elem_of_fmap_2 snd) in Hkd. }
  assert (length U = length (dm_pairs m)) as HlenU by apply length_fmap.
  destruct (closure_loop_spec (edges m) U HU (closure_fuel m)) with (rounds := closure_fuel m) (m := m)
    as (m' & H1 & _ & _ & H2); try done; unfold closure_fuel; try lia.
  - by apply dm_sorted_NoDup.
  - intros k d Hkd. by apply tc_once.
  - by exists m'.
Qed.
Lemma add_needed_sorted arch_soname conflicts m reports row : dm_sorted m → dm_wf m →
  dm_sorted (add_needed arch_soname conflicts (m, reports) row).1 ∧
  dm_wf (add_needed arch_soname conflicts (m, reports) row).1.
Proof.
  intros Hs Hwf. destruct row as [[[arch_ name] fid] path]. cbn.
  destruct (lookup_soname arch_soname arch_ name fid (until_nul path) conflicts) as [library r]. cbn.
  destruct (library =? 0); [done|]. split; [by apply dm_insert_sorted|by apply dm_insert_wf].
Qed.
Lemma load_needed_sorted `{M : machine} {C : Type} `{L : libpq C} unescape arch_soname conflicts count :
  ∀ row init m (s : dbst C) m' s', dm_sorted m → dm_wf m →
  load_needed unescape arch_soname conflicts count row init m s = (Ok m', s') → dm_sorted m' ∧ dm_wf m'.
Proof.
  induction count as [|count IH]; intros row init m s m' s' Hs Hwf H; cbn [load_needed] in H.
  { by injection H as <- <-. }
  apply sx_bind_Ok in H as (r & s1 & _ & H).
  pose proof (add_needed_sorted arch_soname (bool_decide (is_Some conflicts)) m [] r Hs Hwf) as [H1 H2].
  destruct (add_needed _ _ (m, []) r) as [m1 reports]. apply sx_bind_Ok in H as (u & s2 & _ & H).
  by eapply IH in H.
Qed.
