(* ===== verification/ElfImage.v ===== *)
(** * ELF images (lib/cxxll/elf_image.cpp)

    libelf is a parameter: the class [libelf] has the functions the program calls, on
    a handle for the image and on handles for the data of sections, and [libelf_laws]
    what is relied on of the order of sections and of the sizes of data.  The choice
    of the symbol tables, the classification of symbols into definitions and
    references, the walks along the chains of symbol versions, and the iteration over
    program headers and dynamic sections are the program's.

    [elf_symbols_spec] equates the iteration with [symbol_range] with a description
    that has no state; [elf_symbols_total] is termination, which needs chains of
    versions that go forward: [version_chain_loops] is an image on which the walk does
    not end. *)

From S2P Require Import Prelude StringSupport Database.

(** ** libelf *)

(** Source: lib/cxxll/elf_image.cpp 106-114, elf_image::impl::impl. *)
Record GElf_Ehdr := Ehdr { eh_class : Z; eh_data : Z; eh_type : Z; eh_machine : Z }.
Record GElf_Phdr := Phdr {
  p_type : Z; p_offset : Z; p_vaddr : Z; p_paddr : Z; p_filesz : Z; p_memsz : Z; p_align : Z; p_flags : Z
}.
Record GElf_Shdr := Shdr { sh_type : Z; sh_flags : Z; sh_link : Z; sh_size : Z; sh_entsize : Z }.
Record GElf_Nhdr := Nhdr { n_descsz : Z; n_type : Z }.
Record GElf_Sym := Sym { st_name : Z; st_info : Z; st_other : Z; st_shndx : Z }.
Record GElf_Verneed := Verneed { vn_aux : Z; vn_next : Z }.
Record GElf_Vernaux := Vernaux { vna_other_ : Z; vna_name_ : Z; vna_next : Z }.
Record GElf_Verdef := Verdef { vd_ndx : Z; vd_aux : Z; vd_next : Z }.
Record GElf_Dyn := Dyn { d_tag : Z; d_val : Z }.

(** [E] is [Elf *], [D] is [Elf_Data *]; a section is its index.  A call that fails
    returns the message of [elf_errmsg (-1)] where the program uses it, and nothing
    where it only tests for [NULL]. *)
Class libelf (E D : Type) := {
  elf_memory : bytes → E + bytes;
  elf_errmsg : E → bytes;
  gelf_getehdr : E → GElf_Ehdr + bytes;
  elf_getshdrnum : E → Z + bytes;
  elf_getphdrnum : E → Z + bytes;
  elf_getshdrstrndx : E → bool;
  gelf_getclass : E → Z;
  gelf_getphdr : E → Z → option GElf_Phdr;
  elf_rawfile : E → bytes + bytes;
  elf_nextscn : E → option Z → option Z;
  elf_getscn : E → Z → option Z;
  gelf_offscn : E → Z → option Z;
  gelf_getshdr : E → Z → option GElf_Shdr;
  elf_getdata : E → Z → option D;
  elf_getdata_rawchunk : E → Z → Z → option D;
  elf_strptr : E → Z → Z → option bytes;
  d_buf : D → bytes;
  gelf_getnote : D → Z → option (Z * GElf_Nhdr * Z * Z);
  gelf_getsymshndx : D → option D → Z → option (GElf_Sym * Z);
  gelf_getversym : D → Z → option Z;
  gelf_getverneed : D → Z → option GElf_Verneed;
  gelf_getvernaux : D → Z → option GElf_Vernaux;
  gelf_getverdef : D → Z → option GElf_Verdef;
  gelf_getverdaux : D → Z → option Z;
  gelf_getdyn : D → Z → option GElf_Dyn
}.
Definition d_size `{libelf E D} (d : D) : Z := zlen (d_buf d).

(** Indices and offsets are [int] in the interface of gelf. *)
Definition c_int (z : Z) : Z := to_signed 32 z.

Definition ELFCLASS32 : Z := 1.
Definition ELFCLASS64 : Z := 2.
Definition PT_DYNAMIC : Z := 2.
Definition PT_INTERP : Z := 3.
Definition PT_NOTE : Z := 4.
Definition SHT_SYMTAB : Z := 2.
Definition SHT_DYNAMIC : Z := 6.
Definition SHT_NOTE : Z := 7.
Definition SHT_NOBITS : Z := 8.
Definition SHT_DYNSYM : Z := 11.
Definition SHT_SYMTAB_SHNDX : Z := 18.
Definition SHT_GNU_verdef : Z := 1879048189.
Definition SHT_GNU_verneed : Z := 1879048190.
Definition SHT_GNU_versym : Z := 1879048191.
Definition SHF_ALLOC : Z := 2.
Definition SHN_UNDEF : Z := 0.
Definition SHN_LORESERVE : Z := 65280.
Definition SHN_XINDEX : Z := 65535.

(** ** Architectures *)

(** Source: lib/cxxll/elf_image.cpp 55-70, get_arch. *)
Definition archlist : list (Z * option bytes * option bytes) :=
  [ (3, Some (str "i386"), None);
    (2, Some (str "sparc"), None);
    (43, None, Some (str "sparc64"));
    (20, Some (str "ppc"), None);
    (21, None, Some (str "ppc64"));
    (22, Some (str "s390"), Some (str "s390x"));
    (62, None, Some (str "x86_64"));
    (40, Some (str "arm"), None);
    (183, None, Some (str "aarch64")) ].

(** Source: lib/cxxll/elf_image.cpp 71-82, get_arch. *)
Fixpoint arch_loop (l : list (Z * option bytes * option bytes)) (ei_class e_machine : Z) : option bytes :=
  match l with
  | [] => None
  | (machine, name_32, name_64) :: l =>
      if e_machine =? machine then
        if ei_class =? ELFCLASS32 then name_32
        else if ei_class =? ELFCLASS64 then name_64
        else None
      else arch_loop l ei_class e_machine
  end.
(** Source: lib/cxxll/elf_image.cpp 52-83, get_arch. *)
Definition get_arch (ei_class e_machine : Z) : option bytes := arch_loop archlist ei_class e_machine.

(** ** The image *)

(** Source: lib/cxxll/elf_image.cpp 85-95, elf_image::impl. *)
Record elf_impl (E : Type) := ElfImpl {
  i_elf : E; i_phnum : Z; i_shnum : Z; i_ei_class : Z; i_ei_data : Z; i_e_type : Z; i_e_machine : Z;
  i_arch : option bytes; i_interp : bytes; i_build_id : bytes
}.
Arguments ElfImpl {E}. Arguments i_elf {E}. Arguments i_phnum {E}. Arguments i_shnum {E}. Arguments i_ei_class {E}.
Arguments i_ei_data {E}. Arguments i_e_type {E}. Arguments i_e_machine {E}. Arguments i_arch {E}.
Arguments i_interp {E}. Arguments i_build_id {E}.

Section Image.
Context {E D : Type} `{L : libelf E D}.
(** What follows the image in memory, for strings without a terminator. *)
Context (behind : bytes).

(** The program headers that [gelf_getphdr] delivers, with their numbers. *)
Definition phdrs (elf : E) (phnum : Z) : list GElf_Phdr := omap (λ i, gelf_getphdr elf (c_int i)) (seqZ 0 phnum).

(** The string is assigned up to its terminator.
    Source: lib/cxxll/elf_image.cpp 138-154, elf_image::impl::set_interp. *)
Definition set_interp (elf : E) (phnum : Z) : res bytes :=
  match List.find (λ ph, p_type ph =? PT_INTERP) (phdrs elf phnum) with
  | None => Ok []
  | Some phdr =>
      match elf_rawfile elf with
      | inr message => Throw (elf_exception message)
      | inl file =>
          if zlen file <=? p_offset phdr then Throw (elf_exception (elf_errmsg elf))
          else Ok (until_nul (zdrop (p_offset phdr) file ++ behind))
      end
  end.

(** Source: lib/cxxll/elf_image.cpp 207-219, elf_image::impl::set_build_id_from_section. *)
Fixpoint note_loop (fuel : nat) (data : D) (offset : Z) : option bytes :=
  if negb (offset <? d_size data) then Some []
  else
    match fuel with
    | O => None
    | S fuel =>
        match gelf_getnote data offset with
        | None => Some []
        | Some (offset, nhdr, name_offset, desc_offset) =>
            if bool_decide (until_nul (zdrop name_offset (d_buf data) ++ behind) = str "GNU") && (n_type nhdr =? 3) then
              Some (ztake (n_descsz nhdr) (zdrop desc_offset (d_buf data)))
            else note_loop fuel data offset
        end
    end.
(** Every note is longer than zero octets.
    Source: lib/cxxll/elf_image.cpp 199-220, elf_image::impl::set_build_id_from_section. *)
Definition set_build_id_from_section (data : D) : option bytes := note_loop (Z.to_nat (d_size data)) data 0.

(** The sections that [elf_nextscn] walks through from the section [scn].  [None]
    at the end, when the fuel is used up. *)
Fixpoint sections_from (fuel : nat) (elf : E) (scn : option Z) : option (list Z) :=
  match elf_nextscn elf scn with
  | None => Some []
  | Some i => match fuel with O => None | S fuel => cons i <$> sections_from fuel elf (Some i) end
  end.
Definition sections (elf : E) (shnum : Z) : option (list Z) := sections_from (Z.to_nat shnum) elf None.

(** Source: lib/cxxll/elf_image.cpp 162-179, elf_image::impl::set_build_id. *)
Fixpoint build_id_sections (elf : E) (scns : list Z) : option bytes :=
  match scns with
  | [] => Some []
  | scn :: scns =>
      match gelf_getshdr elf scn with
      | None => build_id_sections elf scns
      | Some shdr =>
          if negb (sh_type shdr =? SHT_NOTE) || (Z.land (sh_flags shdr) SHF_ALLOC =? 0) then build_id_sections elf scns
          else match elf_getdata elf scn with
               | Some data => set_build_id_from_section data
               | None => build_id_sections elf scns
               end
      end
  end.

(** Source: lib/cxxll/elf_image.cpp 184-196, elf_image::impl::set_build_id. *)
Fixpoint build_id_segments (elf : E) (l : list GElf_Phdr) : option bytes :=
  match l with
  | [] => Some []
  | phdr :: l =>
      if negb (p_type phdr =? PT_NOTE) then build_id_segments elf l
      else match elf_getdata_rawchunk elf (p_offset phdr) (p_filesz phdr) with
           | Some data => set_build_id_from_section data
           | None => build_id_segments elf l
           end
  end.

(** Source: lib/cxxll/elf_image.cpp 156-197, elf_image::impl::set_build_id. *)
Definition set_build_id (elf : E) (shnum phnum : Z) : option bytes :=
  if shnum =? 0 then sections elf shnum ≫= build_id_sections elf
  else build_id_segments elf (phdrs elf phnum).

(** An exception leaves the handle open: the destructor does not run.
    Source: lib/cxxll/elf_image.cpp 97-126, elf_image::impl::impl. *)
Definition elf_image_new (image : bytes) : attempt (elf_impl E) :=
  match elf_memory image with
  | inr message => attempt_res (Throw (elf_exception message))
  | inl elf =>
      match gelf_getehdr elf with
      | inr message => attempt_res (Throw (elf_exception (str "cannot read ELF header: " ++ message)))
      | inl ehdr =>
          match elf_getshdrnum elf, elf_getphdrnum elf with
          | inr message, _ => attempt_res (Throw (elf_exception message))
          | _, inr message => attempt_res (Throw (elf_exception message))
          | inl shnum, inl phnum =>
              interp_ ← attempt_res (set_interp elf phnum);
              build_id_ ← (Ok <$> set_build_id elf shnum phnum : attempt bytes);
              mret (ElfImpl elf phnum shnum (eh_class ehdr) (eh_data ehdr) (eh_type ehdr) (eh_machine ehdr)
                (get_arch (eh_class ehdr) (eh_machine ehdr)) interp_ build_id_)
          end
      end
  end.

(** ** Program headers *)

(** [ph_mem] is [None] before the first entry, when the memory is zero.
    Source: lib/cxxll/elf_image.cpp 282-289, elf_image::program_header_range::state. *)
Record phdr_state := PhdrState { ph_cnt : Z; ph_mem : GElf_Phdr }.
(** Source: lib/cxxll/elf_image.cpp 291-297, elf_image::program_header_range::state::state. *)
Definition phdr_state_new : phdr_state := PhdrState 0 (Phdr 0 0 0 0 0 0 0 0).
(** A header that cannot be read ends the iteration.
    Source: lib/cxxll/elf_image.cpp 299-311, elf_image::program_header_range::state::next. *)
Definition phdr_next (p : elf_impl E) (st : phdr_state) : bool * phdr_state :=
  if i_phnum p <=? ph_cnt st then (false, st)
  else
    match gelf_getphdr (i_elf p) (c_int (ph_cnt st)) with
    | None => (false, PhdrState (ph_cnt st + 1) (ph_mem st))
    | Some mem => (true, PhdrState (ph_cnt st + 1) mem)
    end.
(** The accessors; [align] is an [unsigned int].
    Source: lib/cxxll/elf_image.cpp 328-386, elf_image::program_header_range. *)
Definition phdr_current (st : phdr_state) : program_header :=
  let m := ph_mem st in
  ProgramHeader (p_type m) (p_offset m) (p_vaddr m) (p_paddr m) (p_filesz m) (p_memsz m) (u32 (p_align m))
    (negb (Z.land (p_flags m) 4 =? 0)) (negb (Z.land (p_flags m) 2 =? 0)) (negb (Z.land (p_flags m) 1 =? 0)).
(** [while (phdr.next ())]: each round counts towards the number of headers. *)
Fixpoint phdr_loop (n : nat) (p : elf_impl E) (st : phdr_state) : list program_header :=
  match n with
  | O => []
  | S n => match phdr_next p st with (true, st) => phdr_current st :: phdr_loop n p st | (false, _) => [] end
  end.

(** The accessors.
    Source: lib/cxxll/elf_image.cpp 237-277, elf_image. *)
#[export] Instance elf_impl_ops : elf_image_ops (elf_impl E) := {|
  interp := i_interp; ei_class := i_ei_class; ei_data := i_ei_data; e_type := i_e_type; e_machine := i_e_machine;
  arch := i_arch; build_id := i_build_id;
  program_headers p := (phdr_loop (Z.to_nat (i_phnum p)) p phdr_state_new, None)
|}.

(** ** Symbols *)

(** A symbol, with the two shared pointers of which one is set. *)
Definition symbol := (elf_symbol_definition + elf_symbol_reference)%type.

(** What [init_section] sets up.  The program keeps it in the state of the iteration,
    where it may be set in part when [init_section] fails, but it is read only for
    [cnt < nsyms], after an [init_section] that has succeeded.
    Source: lib/cxxll/elf_image.cpp 391-406, elf_image::symbol_range::state. *)
Record section_state := SectionState {
  s_shdr : GElf_Shdr; s_data : D; s_xndx_data : option D; s_versym_data : option D; s_verneed_data : option D;
  s_verdef_data : option D; s_verneed_stridx : Z; s_verdef_stridx : Z
}.

(** Source: lib/cxxll/elf_image.cpp 391-421, elf_image::symbol_range::state. *)
Record symbol_state := SymbolState {
  s_eof : bool; s_scn : option Z; s_section : option section_state; s_nsyms : Z; s_cnt : Z; s_current : option symbol
}.
(** Source: lib/cxxll/elf_image.cpp 413-416, elf_image::symbol_range::state::state. *)
Definition symbol_state_new : symbol_state := SymbolState false None None 0 0 None.

(** Source: lib/cxxll/elf_image.cpp 504-506, elf_image::symbol_range::state::init_section. *)
Definition symbol_size (elf : E) : Z := if gelf_getclass elf =? ELFCLASS32 then 16 else 24.

(** One round of the search for the sections that go with the symbol table [scn].
    Source: lib/cxxll/elf_image.cpp 460-489, elf_image::symbol_range::state::init_section. *)
Definition find_related (elf : E) (scn : Z) (s : section_state) (runscn : Z) : section_state :=
  match gelf_getshdr elf runscn with
  | None => s
  | Some runshdr =>
      if (sh_type runshdr =? SHT_GNU_versym) && (sh_link runshdr =? scn) then
        SectionState (s_shdr s) (s_data s) (s_xndx_data s) (elf_getdata elf runscn) (s_verneed_data s)
          (s_verdef_data s) (s_verneed_stridx s) (s_verdef_stridx s)
      else if sh_type runshdr =? SHT_GNU_verneed then
        SectionState (s_shdr s) (s_data s) (s_xndx_data s) (s_versym_data s) (elf_getdata elf runscn)
          (s_verdef_data s) (sh_link runshdr) (s_verdef_stridx s)
      else if sh_type runshdr =? SHT_GNU_verdef then
        SectionState (s_shdr s) (s_data s) (s_xndx_data s) (s_versym_data s) (s_verneed_data s)
          (elf_getdata elf runscn) (s_verneed_stridx s) (sh_link runshdr)
      else if (sh_type runshdr =? SHT_SYMTAB_SHNDX) && (sh_link runshdr =? scn) then
        SectionState (s_shdr s) (s_data s) (elf_getdata elf runscn) (s_versym_data s) (s_verneed_data s)
          (s_verdef_data s) (s_verneed_stridx s) (s_verdef_stridx s)
      else s
  end.

(** [None] when the section has no data.  The number of symbols is an [unsigned].
    Source: lib/cxxll/elf_image.cpp 443-509, elf_image::symbol_range::state::init_section. *)
Definition init_section (p : elf_impl E) (scn : Z) (shdr : GElf_Shdr) : attempt (option (section_state * Z)) :=
  let elf := i_elf p in
  match elf_getdata elf scn with
  | None => mret None
  | Some data =>
      scns ← (Ok <$> sections elf (i_shnum p) : attempt (list Z));
      let s := foldl (find_related elf scn) (SectionState shdr data None None None None 0 0) scns in
      if negb (elf_getshdrstrndx elf) then
        attempt_res (Throw (elf_exception (str "cannot get section header string table index")))
      else match elf_getscn elf (sh_link shdr) ≫= gelf_getshdr elf with
           | None => attempt_res (Throw (elf_exception (str "invalid sh_link value in section " ++ dec scn)))
           | Some _ =>
               mret (Some (s, u32 (d_size data / symbol_size elf)))
           end
  end.

Definition is_symbol_table (shdr : GElf_Shdr) : bool := (sh_type shdr =? SHT_DYNSYM) || (sh_type shdr =? SHT_SYMTAB).

(** The sections after [scn] are tried, as many as the image has.
    Source: lib/cxxll/elf_image.cpp 430-440, elf_image::symbol_range::state::next_section. *)
Fixpoint next_section_loop (fuel : nat) (p : elf_impl E) (st : symbol_state) : option (res bool * symbol_state) :=
  match elf_nextscn (i_elf p) (s_scn st) with
  | None => Some (Ok false, SymbolState true None (s_section st) (s_nsyms st) (s_cnt st) (s_current st))
  | Some scn =>
      match fuel with
      | O => None
      | S fuel =>
          let st := SymbolState (s_eof st) (Some scn) (s_section st) (s_nsyms st) (s_cnt st) (s_current st) in
          match gelf_getshdr (i_elf p) scn with
          | None => next_section_loop fuel p st
          | Some shdr =>
              if is_symbol_table shdr then
                match init_section p scn shdr with
                | None => None
                | Some (Throw e) => Some (Throw e, st)
                | Some (Ok None) => next_section_loop fuel p st
                | Some (Ok (Some (s, nsyms))) =>
                    Some (Ok true, SymbolState (s_eof st) (Some scn) (Some s) nsyms 0 (s_current st))
                end
              else next_section_loop fuel p st
          end
      end
  end.
(** Source: lib/cxxll/elf_image.cpp 423-441, elf_image::symbol_range::state::next_section. *)
Definition next_section (p : elf_impl E) (st : symbol_state) : option (res bool * symbol_state) :=
  if s_eof st then Some (Ok false, st) else next_section_loop (Z.to_nat (i_shnum p)) p st.

(** The chain of the versions one library provides, from the entry at [vna_offset].
    Source: lib/cxxll/elf_image.cpp 575-590, elf_image::symbol_range::state::next. *)
Fixpoint vernaux_loop (fuel : nat) (data : D) (versym : Z) (vna_offset : Z) (vernaux : option GElf_Vernaux)
  : option (option GElf_Vernaux) :=
  match vernaux with
  | None => Some None
  | Some v =>
      if (vna_other_ v =? versym) || (vna_next v =? 0) then Some vernaux
      else
        match fuel with
        | O => None
        | S fuel =>
            let vna_offset := u64 (vna_offset + vna_next v) in
            vernaux_loop fuel data versym vna_offset (gelf_getvernaux data (c_int vna_offset))
        end
  end.

(** The libraries; [last] is the value that [vernaux] has from the entry before.
    Source: lib/cxxll/elf_image.cpp 571-602, elf_image::symbol_range::state::next. *)
Fixpoint verneed_loop (fuel : nat) (data : D) (versym : Z) (vn_offset : Z) (verneed : option GElf_Verneed)
  (last : option GElf_Vernaux) : option (option GElf_Vernaux) :=
  match verneed with
  | None => Some last
  | Some v =>
      let vna_offset := u64 (vn_offset + vn_aux v) in
      match vernaux_loop (S (Z.to_nat (d_size data))) data versym vna_offset (gelf_getvernaux data (c_int vna_offset)) with
      | None => None
      | Some vernaux =>
          if match vernaux with Some a => vna_other_ a =? versym | None => false end then Some vernaux
          else if vn_next v =? 0 then Some vernaux
          else
            match fuel with
            | O => None
            | S fuel =>
                let vn_offset := u64 (vn_offset + vn_next v) in
                verneed_loop fuel data versym vn_offset (gelf_getverneed data (c_int vn_offset)) vernaux
            end
      end
  end.
(** The entry the version refers to, if the walk ended on it.
    Source: lib/cxxll/elf_image.cpp 563-611, elf_image::symbol_range::state::next. *)
Definition find_vernaux (verneed_data : option D) (versym : Z) : option (option GElf_Vernaux) :=
  match verneed_data with
  | None => Some None
  | Some data =>
      match verneed_loop (S (Z.to_nat (d_size data))) data versym 0 (gelf_getverneed data 0) None with
      | None => None
      | Some (Some v) => Some (if vna_other_ v =? versym then Some v else None)
      | Some None => Some None
      end
  end.

(** The definitions of versions; the result has the offset.
    Source: lib/cxxll/elf_image.cpp 626-637, elf_image::symbol_range::state::next. *)
Fixpoint verdef_loop (fuel : nat) (data : D) (versym : Z) (vd_offset : Z) (verdef : option GElf_Verdef)
  : option (option (Z * GElf_Verdef)) :=
  match verdef with
  | None => Some None
  | Some v =>
      if vd_ndx v =? Z.land versym 32767 then Some (Some (vd_offset, v))
      else if vd_next v =? 0 then Some None
      else
        match fuel with
        | O => None
        | S fuel =>
            let vd_offset := u64 (vd_offset + vd_next v) in
            verdef_loop fuel data versym vd_offset (gelf_getverdef data (c_int vd_offset))
        end
  end.
(** Source: lib/cxxll/elf_image.cpp 620-637, elf_image::symbol_range::state::next. *)
Definition find_verdef (verdef_data : option D) (versym : Z) : option (option (D * Z * GElf_Verdef)) :=
  match verdef_data with
  | None => Some None
  | Some data =>
      match verdef_loop (S (Z.to_nat (d_size data))) data versym 0 (gelf_getverdef data 0) with
      | None => None
      | Some None => Some None
      | Some (Some (offset, v)) => Some (Some (data, offset, v))
      end
  end.

(** Assigning a null pointer to a string does not return. *)
Definition strptr (elf : E) (section offset : Z) : res bytes :=
  match elf_strptr elf section offset with Some s => Ok s | None => Throw fatal_signal end.

(** What the versions say of a symbol: whether it is a definition, the version
    referred to with its number, the version defined with the default flag. *)
Record versioned := Versioned {
  v_check_def : bool; v_vna_name : bytes; v_vna_other : Z; v_vda_name : bytes; v_default_version : bool
}.

(** Source: lib/cxxll/elf_image.cpp 549-559, elf_image::symbol_range::state::next. *)
Definition in_nobits (elf : E) (sym : GElf_Sym) (xndx : Z) : bool :=
  if (xndx <? SHN_LORESERVE) || (st_shndx sym =? SHN_XINDEX) then
    match elf_getscn elf xndx ≫= gelf_getshdr elf with
    | Some symshdr => sh_type symshdr =? SHT_NOBITS
    | None => false
    end
  else false.

(** Source: lib/cxxll/elf_image.cpp 561-616, elf_image::symbol_range::state::next. *)
Definition check_reference (elf : E) (s : section_state) (cnt versym : Z) (is_nobits check_def : bool)
  : attempt versioned :=
  if is_nobits || negb check_def then
    vernaux ← (Ok <$> find_vernaux (s_verneed_data s) versym : attempt (option GElf_Vernaux));
    match vernaux with
    | Some v =>
        name ← attempt_res (strptr elf (s_verneed_stridx s) (vna_name_ v));
        mret (Versioned false name (vna_other_ v) [] false)
    | None =>
        if negb is_nobits then attempt_res (Throw (elf_exception (str "bad dynamic symbol " ++ dec cnt)))
        else mret (Versioned true [] 0 [] false)
    end
  else mret (Versioned check_def [] 0 [] false).

(** Source: lib/cxxll/elf_image.cpp 618-656, elf_image::symbol_range::state::next. *)
Definition check_definition (elf : E) (s : section_state) (versym : Z) (v : versioned) : attempt versioned :=
  if v_check_def v && negb (versym =? 32769) then
    verdef ← (Ok <$> find_verdef (s_verdef_data s) versym : attempt (option (D * Z * GElf_Verdef)));
    match verdef with
    | None => mret v
    | Some (data, vd_offset, verdef) =>
        name ← attempt_res (
          match gelf_getverdaux data (c_int (u64 (vd_offset + vd_aux verdef))) with
          | Some vda_name => strptr elf (s_verdef_stridx s) vda_name
          | None => Ok []
          end);
        mret (Versioned (v_check_def v) (v_vna_name v) (v_vna_other v) name (negb (Z.land versym 32768 =? 0)))
    end
  else mret v.

(** Source: lib/cxxll/elf_image.cpp 541-658, elf_image::symbol_range::state::next. *)
Definition check_version (elf : E) (s : section_state) (cnt : Z) (sym : GElf_Sym) (xndx : Z) : attempt versioned :=
  let check_def := negb (xndx =? SHN_UNDEF) in
  match s_versym_data s ≫= (λ data, gelf_getversym data (c_int cnt)) with
  | None => mret (Versioned check_def [] 0 [] false)
  | Some versym =>
      if negb (Z.land versym 32768 =? 0) || (1 <? versym) then
        check_reference elf s cnt versym (in_nobits elf sym xndx) check_def ≫= check_definition elf s versym
      else mret (Versioned check_def [] 0 [] false)
  end.

(** What [next] makes of a symbol that it has read.
    Source: lib/cxxll/elf_image.cpp 534-674, elf_image::symbol_range::state::next. *)
Definition classify (p : elf_impl E) (s : section_state) (cnt : Z) (sym : GElf_Sym) (xndx : Z) : attempt symbol :=
  let elf := i_elf p in
  let xndx := if negb (st_shndx sym =? SHN_XINDEX) then st_shndx sym else xndx in
  v ← check_version elf s cnt sym xndx;
  name ← attempt_res (strptr elf (sh_link (s_shdr s)) (st_name sym));
  let psymbol := ElfSymbol name (Z.land (st_info sym) 15) (Z.shiftr (st_info sym) 4) (st_other sym) in
  mret (if v_check_def v then
          inl (ElfSymbolDefinition psymbol (v_vda_name v) 0 (st_shndx sym) xndx (v_default_version v))
        else inr (ElfSymbolReference psymbol (v_vna_name v) (v_vna_other v))).

(** The next symbol that can be read; the entries that cannot are skipped.
    Source: lib/cxxll/elf_image.cpp 521-532, elf_image::symbol_range::state::next. *)
Fixpoint find_symbol (fuel : nat) (p : elf_impl E) (st : symbol_state)
  : option (res (option (section_state * GElf_Sym * Z)) * symbol_state) :=
  match fuel with
  | O => None
  | S fuel =>
      match (if s_nsyms st <=? s_cnt st then next_section p st else Some (Ok true, st)) with
      | None => None
      | Some (Throw e, st) => Some (Throw e, st)
      | Some (Ok false, st) => Some (Ok None, st)
      | Some (Ok true, st) =>
          match s_section st with
          | None => Some (Ok None, st)
          | Some s =>
              match gelf_getsymshndx (s_data s) (s_xndx_data s) (c_int (s_cnt st)) with
              | Some (sym, xndx) => Some (Ok (Some (s, sym, xndx)), st)
              | None =>
                  find_symbol fuel p
                    (SymbolState (s_eof st) (s_scn st) (s_section st) (s_nsyms st) (s_cnt st + 1) (s_current st))
              end
          end
      end
  end.

(** Source: lib/cxxll/elf_image.cpp 511-677, elf_image::symbol_range::state::next. *)
Definition symbol_next (fuel : nat) (p : elf_impl E) (st : symbol_state) : option (res bool * symbol_state) :=
  let st := SymbolState (s_eof st) (s_scn st) (s_section st) (s_nsyms st) (s_cnt st) None in
  match find_symbol fuel p st with
  | None => None
  | Some (Throw e, st) => Some (Throw e, st)
  | Some (Ok None, st) => Some (Ok false, st)
  | Some (Ok (Some (s, sym, xndx)), st) =>
      match classify p s (s_cnt st) sym xndx with
      | None => None
      | Some (Throw e) => Some (Throw e, st)
      | Some (Ok x) =>
          Some (Ok true, SymbolState (s_eof st) (s_scn st) (s_section st) (s_nsyms st) (s_cnt st + 1) (Some x))
      end
  end.

(** Source: lib/cxxll/elf_image.cpp 694-698, elf_image::symbol_range::definition. *)
Definition definition (st : symbol_state) : option elf_symbol_definition :=
  match s_current st with Some (inl d) => Some d | _ => None end.
(** Source: lib/cxxll/elf_image.cpp 700-704, elf_image::symbol_range::reference. *)
Definition reference (st : symbol_state) : option elf_symbol_reference :=
  match s_current st with Some (inr r) => Some r | _ => None end.

(** A symbol is one of the two. *)
Lemma symbol_one st x : s_current st = Some x →
  (∃ d, definition st = Some d ∧ reference st = None) ∨ (∃ r, definition st = None ∧ reference st = Some r).
Proof. unfold definition, reference. destruct x; intros ->; eauto. Qed.

(** Enough rounds for the symbols of all sections, with one for each section. *)
Definition symbols_of (p : elf_impl E) (scn : Z) : Z :=
  match elf_getdata (i_elf p) scn with
  | Some data => u32 (d_size data / symbol_size (i_elf p))
  | None => 0
  end.
Definition symbol_fuel (p : elf_impl E) : nat :=
  2 + sum_list_with (λ scn, S (Z.to_nat (symbols_of p scn))) (seqZ 0 (i_shnum p)).

(** [while (symbols.next ())] over an image: the symbols, and the exception that ends
    the iteration. *)
Fixpoint symbols_loop (n fuel : nat) (p : elf_impl E) (st : symbol_state) : option (list symbol * option exn) :=
  match n with
  | O => None
  | S n =>
      match symbol_next fuel p st with
      | None => None
      | Some (Throw e, _) => Some ([], Some e)
      | Some (Ok false, _) => Some ([], None)
      | Some (Ok true, st) =>
          match s_current st, symbols_loop n fuel p st with
          | Some x, Some (l, e) => Some (x :: l, e)
          | _, _ => None
          end
      end
  end.
Definition symbols (p : elf_impl E) : option (list symbol * option exn) :=
  symbols_loop (symbol_fuel p) (symbol_fuel p) p symbol_state_new.

(** ** The dynamic section *)

(** Source: include/cxxll/elf_image.hpp 104-106, elf_image::dynamic_section_range::kind. *)
Inductive dynamic_kind := needed | soname | rpath | runpath | other.

(** Source: lib/cxxll/elf_image.cpp 709-719, elf_image::dynamic_section_range::state. *)
Record dynamic_state := DynamicState {
  dy_shdr : option GElf_Shdr; dy_data : option D; dy_cnt : Z; dy_entries : Z;
  dy_tag : Z; dy_text : bytes; dy_number : Z; dy_type : dynamic_kind
}.

(** Source: lib/cxxll/elf_image.cpp 724-741, elf_image::dynamic_section_range::state::state. *)
Fixpoint dynamic_loop (elf : E) (l : list GElf_Phdr) : res dynamic_state :=
  match l with
  | [] => Ok (DynamicState None None 0 0 0 [] 0 other)
  | phdr :: l =>
      if p_type phdr =? PT_DYNAMIC then
        match gelf_offscn elf (p_offset phdr) with
        | None => dynamic_loop elf l
        | Some scn =>
            match gelf_getshdr elf scn with
            | None => dynamic_loop elf l
            | Some shdr =>
                if sh_type shdr =? SHT_DYNAMIC then
                  match elf_getdata elf scn with
                  | None => Ok (DynamicState (Some shdr) None 0 0 0 [] 0 other)
                  | Some data =>
                      if sh_entsize shdr =? 0 then Throw fatal_signal
                      else Ok (DynamicState (Some shdr) (Some data) 0 (sh_size shdr / sh_entsize shdr) 0 [] 0 other)
                  end
                else dynamic_loop elf l
            end
        end
      else dynamic_loop elf l
  end.
(** Source: lib/cxxll/elf_image.cpp 721-743, elf_image::dynamic_section_range::state::state. *)
Definition dynamic_state_new (p : elf_impl E) : res dynamic_state :=
  dynamic_loop (i_elf p) (phdrs (i_elf p) (i_phnum p)).

(** Source: lib/cxxll/elf_image.cpp 755-772, elf_image::dynamic_section_range::state::next. *)
Definition dynamic_kind_of (tag : Z) : dynamic_kind :=
  if tag =? 1 then needed else if tag =? 14 then soname else if tag =? 15 then rpath
  else if tag =? 29 then runpath else other.

(** An entry that cannot be read is a null pointer that the code follows.
    Source: lib/cxxll/elf_image.cpp 745-777, elf_image::dynamic_section_range::state::next. *)
Definition dynamic_next (p : elf_impl E) (st : dynamic_state) : res bool * dynamic_state :=
  let st := DynamicState (dy_shdr st) (dy_data st) (dy_cnt st) (dy_entries st) 0 [] 0 (dy_type st) in
  match dy_data st, dy_shdr st with
  | Some data, Some shdr =>
      if dy_cnt st <? dy_entries st then
        match gelf_getdyn data (c_int (dy_cnt st)) with
        | None => (Throw fatal_signal, st)
        | Some dyn =>
            let set_ text number :=
              DynamicState (dy_shdr st) (dy_data st) (dy_cnt st + 1) (dy_entries st) (u64 (d_tag dyn)) text number
                (dynamic_kind_of (d_tag dyn)) in
            match dynamic_kind_of (d_tag dyn) with
            | other => (Ok true, set_ [] (d_val dyn))
            | _ =>
                match strptr (i_elf p) (sh_link shdr) (d_val dyn) with
                | Throw e => (Throw e, set_ [] 0)
                | Ok text => (Ok true, set_ text 0)
                end
            end
        end
      else (Ok false, st)
  | _, _ => (Ok false, st)
  end.

(** [while (dyn.next ())]: type, tag, text and number of the entries. *)
Definition dynamic_entry : Type := dynamic_kind * Z * bytes * Z.
Fixpoint dynamic_entries (n : nat) (p : elf_impl E) (st : dynamic_state) : list dynamic_entry * option exn :=
  match n with
  | O => ([], None)
  | S n =>
      match dynamic_next p st with
      | (Throw e, _) => ([], Some e)
      | (Ok false, _) => ([], None)
      | (Ok true, st) =>
          let '(l, e) := dynamic_entries n p st in ((dy_type st, dy_tag st, dy_text st, dy_number st) :: l, e)
      end
  end.
(** The number of entries is known when the iteration begins. *)
Definition dynamic_section (p : elf_impl E) : list dynamic_entry * option exn :=
  match dynamic_state_new p with
  | Throw e => ([], Some e)
  | Ok st => dynamic_entries (Z.to_nat (dy_entries st)) p st
  end.
End Image.

(** ** What is relied on of libelf *)

(** The sections of an image are numbered below their number, [elf_nextscn] walks
    through them in order, a note has a length, and the chains of versions are read
    within the data, which has less than two gigabytes. *)
Record libelf_laws (E D : Type) `{L : libelf E D} : Prop := {
  law_nextscn elf n s i : elf_getshdrnum elf = inl n → elf_nextscn elf s = Some i → Z.max 0 (default 0 s) < i < n;
  law_data_size elf scn d : elf_getdata elf scn = Some d → d_size d < 2147483648;
  law_getsym elf scn d x i sym : elf_getdata elf scn = Some d → gelf_getsymshndx d x i = Some sym →
    i < d_size d / symbol_size elf;
  law_note d offset next nhdr name desc : gelf_getnote d offset = Some (next, nhdr, name, desc) → offset < next;
  law_verneed d o v : gelf_getverneed d o = Some v → 0 <= o < d_size d ∧ 0 <= vn_next v;
  law_vernaux d o v : gelf_getvernaux d o = Some v → 0 <= o < d_size d ∧ 0 <= vna_next v;
  law_verdef d o v : gelf_getverdef d o = Some v → 0 <= o < d_size d ∧ 0 <= vd_next v
}.

(** The chains do not wrap around the 32 bits of an offset. *)
Record forward_chains `{libelf E D} (d : D) : Prop := {
  forward_verneed o v : gelf_getverneed d o = Some v → o + vn_next v < 4294967296;
  forward_vernaux o v : gelf_getvernaux d o = Some v → o + vna_next v < 4294967296;
  forward_verdef o v : gelf_getverdef d o = Some v → o + vd_next v < 4294967296
}.
Definition forward_image `{libelf E D} (elf : E) : Prop :=
  ∀ scn d, elf_getdata elf scn = Some d → forward_chains d.

(** The sections that follow [s]. *)
Inductive chain `{libelf E D} (elf : E) : option Z → list Z → Prop :=
| chain_nil s : elf_nextscn elf s = None → chain elf s []
| chain_cons s i l : elf_nextscn elf s = Some i → chain elf (Some i) l → chain elf s (i :: l).

(** ** The reference description of the symbols *)

(** The symbols of a section from [cnt], each as [next] classifies it. *)
Definition section_items `{libelf E D} (p : elf_impl E) (s : section_state) (cnt nsyms : Z) : list (attempt symbol) :=
  omap (λ i, (λ '(sym, xndx), classify p s i sym xndx) <$>
    gelf_getsymshndx (s_data s) (s_xndx_data s) (c_int i)) (seqZ cnt (nsyms - cnt)).
Definition section_symbols `{libelf E D} (p : elf_impl E) (scn : Z) : list (attempt symbol) :=
  match gelf_getshdr (i_elf p) scn with
  | None => []
  | Some shdr =>
      if is_symbol_table shdr then
        match init_section p scn shdr with
        | None => [None]
        | Some (Throw e) => [Some (Throw e)]
        | Some (Ok None) => []
        | Some (Ok (Some (s, nsyms))) => section_items p s 0 nsyms
        end
      else []
  end.
Fixpoint until_exception {A} (l : list (attempt A)) : option (list A * option exn) :=
  match l with
  | [] => Some ([], None)
  | None :: _ => None
  | Some (Throw e) :: _ => Some ([], Some e)
  | Some (Ok x) :: l => match until_exception l with Some (l, e) => Some (x :: l, e) | None => None end
  end.

Section Proofs.
Context {E D : Type} `{L : libelf E D} (Hlaws : libelf_laws E D).

(** *** Termination of the walks *)

Lemma c_int_step off n : 0 <= c_int off → 0 < n → c_int off + n < 4294967296 →
  c_int (u64 (off + n)) < 0 ∨ c_int (u64 (off + n)) = c_int off + n.
Proof.
  unfold c_int, to_signed, u64. change (2 ^ 32) with 4294967296. change (2 ^ (32 - 1)) with 2147483648.
  intros. assert (Hm : ((off + n) mod 18446744073709551616) mod 4294967296 = (off mod 4294967296 + n) mod 4294967296).
  { rewrite Z.add_mod_idemp_l by done. Z.div_mod_to_equations. lia. }
  rewrite Hm. destruct (Z.ltb_spec (off mod 4294967296) 2147483648).
  - destruct (Z.ltb_spec ((off mod 4294967296 + n) mod 4294967296) 2147483648); Z.div_mod_to_equations; lia.
  - Z.div_mod_to_equations; lia.
Qed.

Lemma vernaux_loop_total data versym : d_size data < 2147483648 → forward_chains data →
  ∀ fuel off, d_size data - c_int off < Z.of_nat fuel →
  is_Some (vernaux_loop fuel data versym off (gelf_getvernaux data (c_int off))).
Proof.
  intros Hsize Hf. induction fuel as [|fuel IH]; intros off Hfuel.
  all: destruct (gelf_getvernaux data (c_int off)) as [v|] eqn:Ev; [|by eexists].
  all: destruct (law_vernaux _ _ Hlaws _ _ _ Ev) as [Hr Hn].
  { lia. }
  simpl. destruct (_ || _) eqn:Eb; [by eexists|]. apply orb_false_iff in Eb as [_ Eb]. zbool.
  destruct (c_int_step off (vna_next v)) as [Hneg|Heq]; [lia|lia|by eapply forward_vernaux| |].
  - destruct (gelf_getvernaux data (c_int (u64 (off + vna_next v)))) as [w|] eqn:Ew.
    + apply (law_vernaux _ _ Hlaws) in Ew. lia.
    + destruct fuel; by eexists.
  - apply IH. lia.
Qed.

Lemma verneed_loop_total data versym : d_size data < 2147483648 → forward_chains data →
  ∀ fuel off last, d_size data - c_int off < Z.of_nat fuel →
  is_Some (verneed_loop fuel data versym off (gelf_getverneed data (c_int off)) last).
Proof.
  intros Hsize Hf. induction fuel as [|fuel IH]; intros off last Hfuel.
  all: destruct (gelf_getverneed data (c_int off)) as [v|] eqn:Ev; [|by eexists].
  all: destruct (law_verneed _ _ Hlaws _ _ _ Ev) as [Hr Hn].
  { lia. }
  cbn [verneed_loop].
  assert (Haux : is_Some (vernaux_loop (S (Z.to_nat (d_size data))) data versym (u64 (off + vn_aux v))
    (gelf_getvernaux data (c_int (u64 (off + vn_aux v)))))).
  { destruct (gelf_getvernaux data (c_int (u64 (off + vn_aux v)))) as [w|] eqn:Ew; [|by eexists].
    rewrite <- Ew. apply vernaux_loop_total; [done..|]. apply (law_vernaux _ _ Hlaws) in Ew. lia. }
  destruct Haux as [a ->]. case_if; [by eexists|]. destruct (Z.eqb_spec (vn_next v) 0); [by eexists|].
  destruct (c_int_step off (vn_next v)) as [Hneg|Heq]; [lia|lia|by eapply forward_verneed| |].
  - destruct (gelf_getverneed data (c_int (u64 (off + vn_next v)))) as [w|] eqn:Ew.
    + apply (law_verneed _ _ Hlaws) in Ew. lia.
    + destruct fuel; by eexists.
  - apply IH. lia.
Qed.

Lemma verdef_loop_total data versym : d_size data < 2147483648 → forward_chains data →
  ∀ fuel off, d_size data - c_int off < Z.of_nat fuel →
  is_Some (verdef_loop fuel data versym off (gelf_getverdef data (c_int off))).
Proof.
  intros Hsize Hf. induction fuel as [|fuel IH]; intros off Hfuel.
  all: destruct (gelf_getverdef data (c_int off)) as [v|] eqn:Ev; [|by eexists].
  all: destruct (law_verdef _ _ Hlaws _ _ _ Ev) as [Hr Hn].
  { lia. }
  simpl. case_if; [by eexists|]. destruct (Z.eqb_spec (vd_next v) 0); [by eexists|].
  destruct (c_int_step off (vd_next v)) as [Hneg|Heq]; [lia|lia|by eapply forward_verdef| |].
  - destruct (gelf_getverdef data (c_int (u64 (off + vd_next v)))) as [w|] eqn:Ew.
    + apply (law_verdef _ _ Hlaws) in Ew. lia.
    + destruct fuel; by eexists.
  - apply IH. lia.
Qed.

Definition good_data (d : D) : Prop := d_size d < 2147483648 ∧ forward_chains d.
Lemma find_vernaux_total d versym : from_option good_data True d → is_Some (find_vernaux d versym).
Proof.
  destruct d as [d|]; [|by eexists]. intros [Hsize Hf]. unfold find_vernaux, find_verdef.
  destruct (verneed_loop_total d versym Hsize Hf (S (Z.to_nat (d_size d))) 0 None) as [[v|] Hv].
  - unfold d_size, zlen in *. change (c_int 0) with 0. lia.
  - change (c_int 0) with 0 in Hv. rewrite Hv. by eexists.
  - change (c_int 0) with 0 in Hv. rewrite Hv. by eexists.
Qed.
Lemma find_verdef_total d versym : from_option good_data True d → is_Some (find_verdef d versym).
Proof.
  destruct d as [d|]; [|by eexists]. intros [Hsize Hf]. unfold find_vernaux, find_verdef.
  destruct (verdef_loop_total d versym Hsize Hf (S (Z.to_nat (d_size d))) 0) as [[[o v]|] Hv].
  - unfold d_size, zlen in *. change (c_int 0) with 0. lia.
  - change (c_int 0) with 0 in Hv. rewrite Hv. by eexists.
  - change (c_int 0) with 0 in Hv. rewrite Hv. by eexists.
Qed.

Lemma note_loop_total behind data : ∀ fuel off, d_size data - off <= Z.of_nat fuel →
  is_Some (note_loop behind fuel data off).
Proof.
  induction fuel as [|fuel IH]; intros off Hfuel; simpl.
  all: destruct (Z.ltb_spec off (d_size data)); simpl; [|by eexists].
  { lia. }
  destruct (gelf_getnote data off) as [[[[next nhdr] name] desc]|] eqn:En; [|by eexists].
  apply (law_note _ _ Hlaws) in En. case_if; [by eexists|]. apply IH. lia.
Qed.

(** *** Sections in order *)

Definition opened (p : elf_impl E) : Prop := elf_getshdrnum (i_elf p) = inl (i_shnum p).

Lemma sections_from_spec fuel elf s l : sections_from fuel elf s = Some l ↔ chain elf s l ∧ (length l ≤ fuel)%nat.
Proof.
  revert s l. induction fuel as [|fuel IH]; intros s l; simpl.
  all: destruct (elf_nextscn elf s) as [i|] eqn:En.
  - split; [done|]. intros [Hc Hl]. inversion Hc; simplify_eq. simpl in Hl. lia.
  - split; [intros [= <-]; split; [by constructor|simpl; lia]|]. intros [Hc _]. by inversion Hc; simplify_eq.
  - split.
    + intros Hm. destruct (sections_from fuel elf (Some i)) as [l'|] eqn:El; [|done]. injection Hm as <-.
      apply IH in El as [Hc Hl]. split; [by econstructor|simpl; lia].
    + intros [Hc Hl]. inversion Hc as [|? ? l' ? Hc']; simplify_eq. simpl in Hl.
      rewrite (proj2 (IH (Some i) l')); [done|split; [done|lia]].
  - split; [intros [= <-]; split; [by constructor|simpl; lia]|]. intros [Hc _]. by inversion Hc; simplify_eq.
Qed.

(** A sum over the sections after [s] is at most the sum over the numbers. *)
Lemma chain_sum (f : Z → nat) elf n s l : elf_getshdrnum elf = inl n → chain elf s l →
  (sum_list_with f l ≤ sum_list_with f (seqZ (default 0 s + 1)%Z (n - default 0 s - 1)%Z))%nat.
Proof.
  intros Hn. induction 1 as [s _|s i l Hnext _ IH]; [simpl; lia|].
  pose proof (law_nextscn _ _ Hlaws _ _ _ _ Hn Hnext) as Hi. simpl in IH.
  replace (n - default 0 s - 1) with ((i - default 0 s - 1) + (1 + (n - i - 1))) by lia.
  rewrite !seqZ_app, !sum_list_with_app by lia.
  replace (default 0 s + 1 + (i - default 0 s - 1)) with i by lia.
  cbn [sum_list_with]. rewrite (seqZ_cons i 1) by lia. cbn [sum_list_with]. lia.
Qed.
Lemma chain_length elf n s l : elf_getshdrnum elf = inl n → chain elf s l → (length l ≤ Z.to_nat n)%nat.
Proof.
  intros Hn Hc. cut (Z.of_nat (length l) <= Z.max 0 (n - Z.max 0 (default 0 s) - 1)); [lia|].
  induction Hc as [s _|s i l Hnext _ IH]; [simpl; lia|].
  pose proof (law_nextscn _ _ Hlaws _ _ _ _ Hn Hnext) as Hi. rewrite length_cons. simpl in IH. lia.
Qed.
(** The walk ends: it is bounded by the number of sections. *)
Lemma chain_exists elf n s : elf_getshdrnum elf = inl n → ∃ l, chain elf s l.
Proof.
  intros Hn. remember (Z.to_nat (n - default 0 s)) as m eqn:Hm. revert s Hm.
  induction m as [m IH] using lt_wf_ind; intros s Hm.
  destruct (elf_nextscn elf s) as [i|] eqn:En; [|exists []; by constructor].
  pose proof (law_nextscn _ _ Hlaws _ _ _ _ Hn En) as Hi.
  destruct (IH (Z.to_nat (n - i))%nat) with (s := Some i) as [l Hl]; [lia|done|].
  exists (i :: l). by econstructor.
Qed.
Lemma sections_total elf n : elf_getshdrnum elf = inl n → ∃ l, chain elf None l ∧ sections elf n = Some l.
Proof.
  intros Ho. destruct (chain_exists _ _ None Ho) as [l Hl]. exists l. split; [done|].
  apply sections_from_spec. split; [done|]. by eapply chain_length.
Qed.

(** *** The iteration *)

(** What is left: the rest of the current section, and the sections after it. *)
Definition work (p : elf_impl E) (scns : list Z) : nat :=
  sum_list_with (λ scn, S (Z.to_nat (symbols_of p scn))) scns.
Definition pending (p : elf_impl E) (scns : list Z) : list (attempt symbol) := concat (section_symbols p <$> scns).

(** A state at a place where [scns] follow. *)
Definition at_section (p : elf_impl E) (st : symbol_state (D:=D)) (scns : list Z) : Prop :=
  s_eof st = false ∧ chain (i_elf p) (s_scn st) scns.

(** The search does not touch the header and the data of the table. *)
Lemma find_related_data elf scn scns s :
  s_data (foldl (find_related elf scn) s scns) = s_data s ∧ s_shdr (foldl (find_related elf scn) s scns) = s_shdr s.
Proof.
  revert s. induction scns as [|i scns IH]; intros s; [done|]. simpl. destruct (IH (find_related elf scn s i)) as [-> ->].
  unfold find_related. destruct (gelf_getshdr elf i); [|done]. by repeat case_if.
Qed.
Lemma init_section_data (p : elf_impl E) scn shdr s nsyms : init_section p scn shdr = Some (Ok (Some (s, nsyms))) →
  elf_getdata (i_elf p) scn = Some (s_data s) ∧ nsyms = symbols_of p scn.
Proof.
  unfold init_section, symbols_of. destruct (elf_getdata _ _) as [d|]; [|done].
  destruct (sections _ _) as [scns|]; [|done]. cbn. case_if; [done|].
  destruct (_ ≫= _); [|done]. intros [= <- <-]. by rewrite (proj1 (find_related_data _ _ _ _)).
Qed.
Lemma symbols_of_nonneg (p : elf_impl E) scn : 0 <= symbols_of p scn.
Proof. unfold symbols_of, u32. case_match; [apply Z.mod_pos_bound|]; lia. Qed.
Lemma empty_table (p : elf_impl E) scn s nsyms : elf_getdata (i_elf p) scn = Some (s_data s) → nsyms = symbols_of p scn →
  nsyms = 0 → gelf_getsymshndx (s_data s) (s_xndx_data s) 0 = None.
Proof.
  intros Hd -> H0. destruct (gelf_getsymshndx _ _ _) as [x|] eqn:Hx; [|done].
  pose proof (law_getsym _ _ Hlaws _ _ _ _ _ _ Hd Hx) as Hlt. pose proof (law_data_size _ _ Hlaws _ _ _ Hd) as Hs.
  unfold symbols_of in H0. rewrite Hd in H0. unfold u32 in H0. rewrite Z.mod_small in H0; [lia|].
  split; [lia|]. unfold symbol_size in *. case_match; Z.div_mod_to_equations; lia.
Qed.

(** [next_section] on the pending symbols [l] with [w] of work. *)
Definition section_post (p : elf_impl E) (r : option (res bool * symbol_state (D:=D))) (l : list (attempt symbol)) (w : nat) : Prop :=
  match r with
  | None => ∃ l', l = None :: l'
  | Some (Throw e, _) => ∃ l', l = Some (Throw e) :: l'
  | Some (Ok false, _) => l = []
  | Some (Ok true, st) => ∃ s scns, s_section st = Some s ∧ s_cnt st = 0 ∧ 0 <= s_nsyms st ∧
      (s_nsyms st = 0 → gelf_getsymshndx (s_data s) (s_xndx_data s) 0 = None) ∧ at_section p st scns ∧
      l = section_items p s 0 (s_nsyms st) ++ pending p scns ∧ (S (Z.to_nat (s_nsyms st)) + work p scns ≤ w)%nat
  end.
Lemma section_post_mono p r l w w' : section_post p r l w → (w ≤ w')%nat → section_post p r l w'.
Proof.
  destruct r as [[[[|]|e] st]|]; try done. intros (s & scns & ? & ? & ? & ? & ? & ? & ?) ?.
  exists s, scns. repeat (split; [done|]). lia.
Qed.

Lemma next_section_spec p fuel st scns : at_section p st scns → (length scns ≤ fuel)%nat →
  section_post p (next_section_loop fuel p st) (pending p scns) (work p scns).
Proof.
  revert fuel st. induction scns as [|scn scns IH]; intros fuel st [Heof Hc] Hlen; inversion Hc as [? Hn|? ? ? Hn Hc']; subst.
  { destruct fuel; simpl; by rewrite Hn. }
  destruct fuel as [|fuel]; simpl in Hlen; [lia|]. cbn [next_section_loop]. rewrite Hn.
  set (st1 := SymbolState _ (Some scn) _ _ _ _).
  assert (Hskip : section_symbols p scn = [] →
    section_post p (next_section_loop fuel p st1) (pending p (scn :: scns)) (work p (scn :: scns))).
  { intros Hnil. replace (pending p (scn :: scns)) with (pending p scns) by (unfold pending; simpl; by rewrite Hnil).
    apply (section_post_mono _ _ _ (work p scns)); [apply IH; [done|lia]|unfold work; simpl; lia]. }
  assert (Hp : pending p (scn :: scns) = section_symbols p scn ++ pending p scns) by done.
  rewrite Hp in *. revert Hskip. unfold section_symbols.
  destruct (gelf_getshdr (i_elf p) scn) as [shdr|]; [|intros Hskip; by apply Hskip].
  destruct (is_symbol_table shdr); [|intros Hskip; by apply Hskip].
  destruct (init_section p scn shdr) as [[[[s nsyms]|]|e]|] eqn:Ei;
    intros Hskip; [|by apply Hskip|by eexists..].
  destruct (init_section_data _ _ _ _ _ Ei) as [Hd Hns]. exists s, scns. cbn.
  split; [done|]. split; [done|]. split; [rewrite Hns; apply symbols_of_nonneg|].
  split; [by apply (empty_table p scn)|]. repeat (split; [done|]). unfold work. cbn. rewrite Hns. lia.
Qed.

(** The pending symbols of a state, and the work that is left. *)
Definition state_items (p : elf_impl E) (st : symbol_state (D:=D)) : list (attempt symbol) :=
  match s_section st with Some s => section_items p s (s_cnt st) (s_nsyms st) | None => [] end.
Definition state_work (st : symbol_state (D:=D)) : nat := Z.to_nat (s_nsyms st - s_cnt st).
Definition good_state (st : symbol_state (D:=D)) : Prop := s_section st = None → s_nsyms st <= s_cnt st.

Lemma section_items_cons p s cnt nsyms : cnt < nsyms →
  section_items p s cnt nsyms =
  match gelf_getsymshndx (s_data s) (s_xndx_data s) (c_int cnt) with
  | Some (sym, xndx) => classify p s cnt sym xndx :: section_items p s (cnt + 1) nsyms
  | None => section_items p s (cnt + 1) nsyms
  end.
Proof.
  intros. unfold section_items. rewrite (seqZ_cons cnt) by lia. cbn [omap list_omap].
  replace (Z.succ cnt) with (cnt + 1) by lia. replace (Z.pred (nsyms - cnt)) with (nsyms - (cnt + 1)) by lia.
  by destruct (gelf_getsymshndx _ _ _) as [[sym xndx]|].
Qed.
Lemma section_items_nil p s cnt nsyms : nsyms <= cnt → section_items p s cnt nsyms = [].
Proof. intros. unfold section_items. by rewrite seqZ_nil by lia. Qed.

Definition set_cnt (st : symbol_state (D:=D)) : symbol_state :=
  SymbolState (s_eof st) (s_scn st) (s_section st) (s_nsyms st) (s_cnt st + 1) (s_current st).

(** [find_symbol] on the pending symbols [l] with [w] of work. *)
Definition find_post (p : elf_impl E) (r : option (res (option (section_state * GElf_Sym * Z)) * symbol_state (D:=D)))
  (l : list (attempt symbol)) (w : nat) : Prop :=
  match r with
  | None => ∃ l', l = None :: l'
  | Some (Throw e, _) => ∃ l', l = Some (Throw e) :: l'
  | Some (Ok None, _) => l = []
  | Some (Ok (Some (s, sym, xndx)), st) => ∃ scns, s_section st = Some s ∧ s_cnt st < s_nsyms st ∧
      at_section p st scns ∧
      l = classify p s (s_cnt st) sym xndx :: section_items p s (s_cnt st + 1) (s_nsyms st) ++ pending p scns ∧
      (state_work st + work p scns ≤ w)%nat
  end.
Lemma find_post_mono p r l w w' : find_post p r l w → (w ≤ w')%nat → find_post p r l w'.
Proof.
  destruct r as [[[[[[s sym] xndx]|]|e] st]|]; try done. intros (scns & ? & ? & ? & ? & ?) ?.
  exists scns. repeat (split; [done|]). lia.
Qed.

Lemma find_symbol_spec p fuel st scns : opened p → at_section p st scns → good_state st →
  (state_work st + work p scns < fuel)%nat →
  find_post p (find_symbol fuel p st) (state_items p st ++ pending p scns) (state_work st + work p scns).
Proof.
  intros Ho. revert st scns. induction fuel as [|fuel IH]; intros st scns Hat Hgood Hfuel; [lia|].
  cbn [find_symbol].
  assert (Hround : ∀ st' s scns', s_section st' = Some s → s_cnt st' < s_nsyms st' → at_section p st' scns' → 
    (state_work st' + work p scns' ≤ state_work st + work p scns)%nat →
    find_post p
      match gelf_getsymshndx (s_data s) (s_xndx_data s) (c_int (s_cnt st')) with
      | Some (sym, xndx) => Some (Ok (Some (s, sym, xndx)), st')
      | None => find_symbol fuel p (set_cnt st')
      end (section_items p s (s_cnt st') (s_nsyms st') ++ pending p scns') (state_work st + work p scns)).
  { intros st' s scns' Hs Hlt Hat' Hw. rewrite section_items_cons by done.
    destruct (gelf_getsymshndx _ _ _) as [[sym xndx]|]; [by exists scns'|].
    assert (Hdec : (state_work (set_cnt st') + work p scns' < state_work st' + work p scns')%nat)
      by (unfold state_work, set_cnt; simpl; lia).
    specialize (IH (set_cnt st') scns' Hat' ltac:(unfold good_state, set_cnt; simpl; congruence) ltac:(lia)).
    unfold state_items in IH. cbn [s_section s_cnt s_nsyms set_cnt] in IH. rewrite Hs in IH.
    eapply find_post_mono; [done|lia]. }
  destruct (Z.leb_spec (s_nsyms st) (s_cnt st)) as [Hle|Hlt].
  - assert (Hnil : state_items p st = []).
    { unfold state_items. destruct (s_section st); [|done]. by apply section_items_nil. }
    rewrite Hnil. destruct Hat as [Heof Hc]. unfold next_section. rewrite Heof.
    pose proof (next_section_spec p (Z.to_nat (i_shnum p)) st scns ltac:(done)
      (chain_length _ _ _ _ Ho Hc)) as Hpost.
    destruct (next_section_loop _ p st) as [[[[|]|e] st']|]; [|done..].
    destruct Hpost as (s & scns' & Hs & Hcnt & Hns & Hnone & Hat' & Hl & Hw). simpl app. rewrite Hl. rewrite Hs at 1. cbv beta iota.
    destruct (Z.eq_dec (s_nsyms st') 0) as [H0|H0].
    + rewrite section_items_nil by lia.
      replace (gelf_getsymshndx (s_data s) (s_xndx_data s) (c_int (s_cnt st'))) with (@None (GElf_Sym * Z))
        by (rewrite Hcnt; symmetry; by apply Hnone).
      assert (Hnil' : state_items p (set_cnt st') = []).
      { unfold state_items. cbn. rewrite Hs. apply section_items_nil. lia. }
      specialize (IH (set_cnt st') scns' Hat').
      rewrite Hnil' in IH. unfold state_work, set_cnt in IH, Hw |- *. simpl in IH. eapply find_post_mono; [apply IH|]; [..|lia]; [|lia].
      unfold good_state. simpl. lia.
    + rewrite <- Hcnt. apply Hround; [done|lia|done|]. unfold state_work in *. lia.
  - assert (Hsec : ∃ s, s_section st = Some s)
      by (destruct (s_section st) as [s|] eqn:Hs; [by exists s|specialize (Hgood Hs); lia]).
    destruct Hsec as [s Hs].
    replace (state_items p st) with (section_items p s (s_cnt st) (s_nsyms st)) by (unfold state_items; by rewrite Hs).
    rewrite Hs at 1. by apply Hround.
Qed.

Lemma symbols_loop_spec p n fuel st scns : opened p → at_section p st scns → good_state st →
  (state_work st + work p scns < fuel)%nat → (state_work st + work p scns < n)%nat →
  symbols_loop n fuel p st = until_exception (state_items p st ++ pending p scns).
Proof.
  intros Ho. revert st scns. induction n as [|n IH]; intros st scns Hat Hgood Hfuel Hn; [lia|].
  cbn [symbols_loop]. unfold symbol_next. set (st0 := SymbolState _ _ _ _ _ None).
  pose proof (find_symbol_spec p fuel st0 scns Ho Hat Hgood Hfuel) as Hpost.
  change (state_items p st0) with (state_items p st) in Hpost.
  destruct (find_symbol fuel p st0) as [[[[[[s sym] xndx]|]|e] st1]|]; simpl in Hpost.
  - destruct Hpost as (scns' & Hs & Hlt & Hat' & Hl & Hw). rewrite Hl. cbn [until_exception].
    destruct (classify p s (s_cnt st1) sym xndx) as [[x|e]|]; [|done..].
    cbn [s_current]. rewrite (IH _ scns').
    + unfold state_items. cbn [s_section s_cnt s_nsyms]. rewrite Hs. by destruct (until_exception _) as [[l e]|].
    + done.
    + unfold good_state. simpl. congruence.
    + unfold state_work in *. simpl in *. lia.
    + unfold state_work in *. simpl in *. lia.
  - by rewrite Hpost.
  - by destruct Hpost as [l' ->].
  - by destruct Hpost as [l' ->].
Qed.

Lemma elf_symbols_spec' p scns : opened p → chain (i_elf p) None scns →
  symbols p = until_exception (concat (section_symbols p <$> scns)).
Proof.
  intros Ho Hc. unfold symbols. assert (Hw : (S (work p scns) < symbol_fuel p)%nat).
  { unfold symbol_fuel, work. pose proof (chain_sum (λ scn, S (Z.to_nat (symbols_of p scn))) _ _ _ _ Ho Hc) as Hsum.
    change (default 0 None + 1) with 1 in Hsum. change (default 0 None) with 0 in Hsum. destruct (Z.le_gt_cases (i_shnum p) 0).
    - rewrite !seqZ_nil in * by lia. simpl in *. lia.
    - rewrite (seqZ_cons 0) by lia. simpl. replace (Z.succ 0) with 1 by lia.
      replace (Z.pred (i_shnum p)) with (i_shnum p - 0 - 1) by lia. lia. }
  rewrite (symbols_loop_spec _ _ _ _ scns); [done|done|done|done|unfold state_work; simpl; lia..].
Qed.

(** C18: On an image that is open, the iteration [while (symbols.next ())] delivers the
    symbols of the symbol tables, in the order of the sections and of their entries and
    each entry that can be read once, as definitions or references by [classify], up to
    the first exception: the state of the iteration, with the current section, the
    counter and the end, is refined by a plain enumeration. *)
Theorem elf_symbols_spec p scns : opened p → chain (i_elf p) None scns →
  symbols p = until_exception (concat (section_symbols p <$> scns)).
Proof. apply elf_symbols_spec'. Qed.

(** *** Termination *)

Lemma until_exception_total {A} (l : list (attempt A)) : Forall is_Some l → is_Some (until_exception l).
Proof.
  induction 1 as [|x l [[a|e] ->] _ [[l' e'] IH]]; simpl; [by eexists| |by eexists]. rewrite IH. by eexists.
Qed.

Lemma find_related_good elf scn scns s : (∀ i d, elf_getdata elf i = Some d → good_data d) →
  let ok s := from_option good_data True (s_verneed_data s) ∧ from_option good_data True (s_verdef_data s) in
  ok s → ok (foldl (find_related elf scn) s scns).
Proof.
  intros Hd. simpl. revert s. induction scns as [|i scns IH]; intros s Hok; [done|]. simpl. apply IH.
  unfold find_related. destruct (gelf_getshdr elf i); [|done]. repeat case_if; simpl; try done.
  all: destruct Hok; split; try done; destruct (elf_getdata elf i) eqn:?; [by eapply Hd|done].
Qed.

Lemma classify_total p s cnt sym xndx : from_option good_data True (s_verneed_data s) →
  from_option good_data True (s_verdef_data s) → is_Some (classify p s cnt sym xndx).
Proof.
  intros H1 H2. unfold classify. set (x := if negb (st_shndx sym =? SHN_XINDEX) then st_shndx sym else xndx).
  assert (Hv : is_Some (check_version (i_elf p) s cnt sym x)).
  { unfold check_version. destruct (_ ≫= _) as [versym|]; [|by eexists]. case_if; [|by eexists].
    assert (Hr : is_Some (check_reference (i_elf p) s cnt versym (in_nobits (i_elf p) sym x) (negb (x =? SHN_UNDEF)))).
    { unfold check_reference. case_if; [|by eexists].
      destruct (find_vernaux_total _ versym H1) as [[v|] ->]; cbn; [|case_if; by eexists].
      destruct (strptr _ _ _); by eexists. }
    destruct Hr as [[v|e] ->]; cbn; [|by eexists]. unfold check_definition. case_if; [|by eexists].
    destruct (find_verdef_total _ versym H2) as [[[[d o] vd]|] ->]; cbn; [|by eexists].
    destruct (gelf_getverdaux _ _); [destruct (strptr _ _ _)|]; by eexists. }
  destruct Hv as [[v|e] ->]; cbn; [|by eexists]. destruct (strptr _ _ _); by eexists.
Qed.

Lemma section_symbols_total p scn scns : sections (i_elf p) (i_shnum p) = Some scns → forward_image (i_elf p) →
  Forall is_Some (section_symbols p scn).
Proof.
  intros Hscns Hf. assert (Hg : ∀ i d, elf_getdata (i_elf p) i = Some d → good_data d).
  { intros i d Hd. split; [by eapply (law_data_size _ _ Hlaws)|by eapply Hf]. }
  unfold section_symbols. destruct (gelf_getshdr _ scn) as [shdr|]; [|constructor]. case_if; [|constructor].
  unfold init_section. destruct (elf_getdata _ scn) as [d|] eqn:Hd; [|constructor]. rewrite Hscns. cbn.
  case_if; [by repeat constructor; eexists|]. destruct (_ ≫= _); [|by repeat constructor; eexists].
  cbn. destruct (find_related_good (i_elf p) scn scns (SectionState shdr d None None None None 0 0) Hg ltac:(done)).
  unfold section_items. apply Forall_forall. intros x Hx. apply list_elem_of_omap in Hx as (i & _ & Hx).
  destruct (gelf_getsymshndx _ _ _) as [[sym xndx]|]; [|done]. injection Hx as <-. by apply classify_total.
Qed.

(** *** The constructor *)

Lemma set_build_id_total behind elf n phnum : elf_getshdrnum elf = inl n → is_Some (set_build_id behind elf n phnum).
Proof.
  intros Hn. assert (Hdata : ∀ d, is_Some (set_build_id_from_section behind d)).
  { intros d. apply note_loop_total. unfold d_size, zlen. lia. }
  unfold set_build_id. case_if.
  - destruct (sections_total _ _ Hn) as (l & _ & ->). simpl. clear -Hdata.
    induction l as [|scn l IH]; [by eexists|]. simpl. destruct (gelf_getshdr elf scn); [|done]. case_if; [done|].
    by destruct (elf_getdata elf scn).
  - generalize (phdrs elf phnum). intros l. induction l as [|ph l IH]; [by eexists|]. simpl. case_if; [done|].
    by destruct (elf_getdata_rawchunk _ _ _).
Qed.
Lemma elf_image_new_total behind image : is_Some (elf_image_new behind image).
Proof.
  unfold elf_image_new. destruct (elf_memory image) as [elf|]; [|by eexists].
  destruct (gelf_getehdr elf); [|by eexists]. destruct (elf_getshdrnum elf) as [n|] eqn:Hn; [|by eexists].
  destruct (elf_getphdrnum elf) as [m|]; [|by eexists]. destruct (set_interp behind elf m); cbn; [|by eexists].
  destruct (set_build_id_total behind elf n m Hn) as [b ->]. by eexists.
Qed.
Lemma elf_image_new_opened behind image p : elf_image_new behind image = Some (Ok p) → opened p.
Proof.
  unfold elf_image_new. destruct (elf_memory image) as [elf|]; [|done].
  destruct (gelf_getehdr elf); [|done]. destruct (elf_getshdrnum elf) as [n|] eqn:Hn; [|done].
  destruct (elf_getphdrnum elf) as [m|]; [|done]. destruct (set_interp behind elf m); cbn; [|done].
  destruct (set_build_id behind elf n m); [|done]. by intros [= <-].
Qed.

(** C19: Opening an image ends, and so does the iteration over its symbols, whatever the
    headers, notes and tables contain, as long as no chain of versions in the image
    wraps around 32 bits.  The rounds are bounded by the sizes of the sections. *)
Theorem elf_symbols_total behind image :
  (∃ r, elf_image_new behind image = Some r) ∧
  ∀ p, elf_image_new behind image = Some (Ok p) → forward_image (i_elf p) → ∃ l e, symbols p = Some (l, e).
Proof.
  split; [apply elf_image_new_total|]. intros p Hp Hf. apply elf_image_new_opened in Hp as Ho.
  destruct (sections_total _ _ Ho) as (scns & Hc & Hscns). rewrite (elf_symbols_spec' p scns Ho Hc).
  destruct (until_exception_total (concat (section_symbols p <$> scns))) as [[l e] ->]; [|by exists l, e].
  apply Forall_concat, Forall_fmap, Forall_forall. intros scn _. by eapply section_symbols_total.
Qed.

(** *** Program headers *)

(** The headers up to the first that cannot be read. *)
Fixpoint readable_phdrs (l : list (option GElf_Phdr)) : list GElf_Phdr :=
  match l with Some ph :: l => ph :: readable_phdrs l | _ => [] end.
Lemma program_headers_spec (p : elf_impl E) :
  program_headers p =
  ((λ ph, phdr_current (PhdrState 0 ph)) <$>
     readable_phdrs ((λ i, gelf_getphdr (i_elf p) (c_int i)) <$> seqZ 0 (i_phnum p)), None).
Proof.
  simpl. f_equal. cut (∀ n st, 0 <= ph_cnt st → n = Z.to_nat (i_phnum p - ph_cnt st) →
    phdr_loop n p st = (λ ph, phdr_current (PhdrState 0 ph)) <$>
      readable_phdrs ((λ i, gelf_getphdr (i_elf p) (c_int i)) <$> seqZ (ph_cnt st) (i_phnum p - ph_cnt st))).
  { intros H. rewrite (H _ phdr_state_new); simpl; [by rewrite Z.sub_0_r|lia|by rewrite Z.sub_0_r]. }
  induction n as [|n IH]; intros st Hst Hn; [by rewrite seqZ_nil by lia|].
  rewrite seqZ_cons by lia. cbn [phdr_loop fmap list_fmap]. unfold phdr_next.
  destruct (Z.leb_spec (i_phnum p) (ph_cnt st)); [lia|].
  destruct (gelf_getphdr _ _) as [ph|]; [|done]. cbn [readable_phdrs fmap list_fmap]. f_equal.
  rewrite (IH (PhdrState (ph_cnt st + 1) ph)) by (simpl; lia). simpl.
  by replace (Z.pred (i_phnum p - ph_cnt st)) with (i_phnum p - (ph_cnt st + 1)) by lia.
Qed.
End Proofs.

(** ** A libelf on tables *)

Record toy_data := ToyData {
  t_buf : bytes; t_syms : list GElf_Sym; t_versyms : list Z; t_verneed : list (Z * GElf_Verneed);
  t_vernaux : list (Z * GElf_Vernaux); t_verdef : list (Z * GElf_Verdef); t_verdaux : list (Z * Z); t_dyn : list GElf_Dyn
}.
Definition no_data : toy_data := ToyData [] [] [] [] [] [] [] [].
Record toy := Toy {
  t_ehdr : GElf_Ehdr; t_sections : list (GElf_Shdr * toy_data); t_phdrs : list GElf_Phdr; t_strings : list (Z * Z * bytes);
  t_file : bytes
}.
Fixpoint assoc {A} (k : Z) (l : list (Z * A)) : option A :=
  match l with [] => None | (k', v) :: l => if k =? k' then Some v else assoc k l end.
Definition within {A} (o size : Z) (next : A → Z) (v : option A) : option A :=
  match v with Some a => if bool_decide (0 <= o < size ∧ 0 <= next a) then Some a else None | None => None end.

Definition toy_libelf (image : toy) : libelf toy toy_data := {|
  elf_memory _ := inl image;
  elf_errmsg _ := str "no error";
  gelf_getehdr e := inl (t_ehdr e);
  elf_getshdrnum e := inl (zlen (t_sections e));
  elf_getphdrnum e := inl (zlen (t_phdrs e));
  elf_getshdrstrndx _ := true;
  gelf_getclass e := eh_class (t_ehdr e);
  gelf_getphdr e i := zget (t_phdrs e) i;
  elf_rawfile e := inl (t_file e);
  elf_nextscn e s := let i := Z.max 0 (default 0 s) + 1 in if i <? zlen (t_sections e) then Some i else None;
  elf_getscn e i := if bool_decide (0 <= i < zlen (t_sections e)) then Some i else None;
  gelf_offscn e o := if bool_decide (0 <= o < zlen (t_sections e)) then Some o else None;
  gelf_getshdr e i := option_map fst (zget (t_sections e) i);
  elf_getdata e i := match zget (t_sections e) i with
                     | Some (_, d) => if zlen (t_buf d) <? 2147483648 then Some d else None
                     | None => None
                     end;
  elf_getdata_rawchunk _ _ _ := None;
  elf_strptr e s o := option_map snd (List.find (λ x, (x.1.1 =? s) && (x.1.2 =? o)) (t_strings e));
  d_buf := t_buf;
  gelf_getnote _ _ := None;
  gelf_getsymshndx d _ i := if i <? zlen (t_buf d) / 24 then option_map (λ s, (s, 0)) (zget (t_syms d) i) else None;
  gelf_getversym d i := zget (t_versyms d) i;
  gelf_getverneed d o := within o (zlen (t_buf d)) vn_next (assoc o (t_verneed d));
  gelf_getvernaux d o := within o (zlen (t_buf d)) vna_next (assoc o (t_vernaux d));
  gelf_getverdef d o := within o (zlen (t_buf d)) vd_next (assoc o (t_verdef d));
  gelf_getverdaux d o := assoc o (t_verdaux d);
  gelf_getdyn d i := zget (t_dyn d) i
|}.

Lemma within_Some {A} o size (next : A → Z) v a : within o size next v = Some a →
  v = Some a ∧ 0 <= o < size ∧ 0 <= next a.
Proof. unfold within. destruct v as [b|]; [|done]. case_bool_decide; [|done]. intros [= <-]. done. Qed.

Lemma toy_libelf_laws image : libelf_laws toy toy_data (L := toy_libelf image).
Proof.
  split.
  - intros e n s i. cbn. intros [= <-]. case_match eqn:E; [|done]. intros [= <-]. zbool. lia.
  - intros e scn d. cbn. destruct (zget _ _) as [[h d']|]; [|done]. case_match eqn:E; [|done]. intros [= <-]. by zbool.
  - intros e scn d x i sym. unfold symbol_size, d_size. cbn. intros _. case_match eqn:E; [|done]. intros _. zbool.
    unfold zlen in *. case_match; [|done]. Z.div_mod_to_equations. lia.
  - done.
  - intros d o v Hv. apply within_Some in Hv. by destruct Hv as (_ & ? & ?).
  - intros d o v Hv. apply within_Some in Hv. by destruct Hv as (_ & ? & ?).
  - intros d o v Hv. apply within_Some in Hv. by destruct Hv as (_ & ? & ?).
Qed.

(** The chains of tables that are checked. *)
Definition forward_entries {A} (next : A → Z) (l : list (Z * A)) : bool :=
  forallb (λ x, x.1 + next x.2 <? 4294967296) l.
Definition forward_data (d : toy_data) : bool :=
  forward_entries vn_next (t_verneed d) && forward_entries vna_next (t_vernaux d) && forward_entries vd_next (t_verdef d).
Lemma assoc_forward {A} (next : A → Z) l o v : forward_entries next l = true → assoc o l = Some v → o + next v < 4294967296.
Proof.
  induction l as [|[k w] l IH]; simpl; [done|]. intros [H1 H2]%andb_true_iff. simpl in H1.
  destruct (Z.eqb_spec o k) as [->|]; [|by apply IH]. intros [= <-]. by zbool.
Qed.
Lemma toy_forward image e : forallb (λ s, forward_data s.2) (t_sections e) = true →
  forward_image (H := toy_libelf image) e.
Proof.
  intros Hall scn d. cbn. destruct (zget (t_sections e) scn) as [[h d']|] eqn:Hg; [|done]. case_match; [|done].
  intros [= <-]. rewrite forallb_forall in Hall. unfold zget in Hg. case_match; [done|].
  apply list_elem_of_lookup_2, list_elem_of_In in Hg. specialize (Hall _ Hg). simpl in Hall.
  apply andb_true_iff in Hall as [[H1 H2]%andb_true_iff H3].
  split; cbn; intros o v (Hv & _)%within_Some; by eapply assoc_forward.
Qed.

(** A shared library with a definition, a versioned reference and a hidden definition:
    sections 1 (symbols), 2 (strings), 3 (versions of symbols), 4 (versions needed),
    5 (versions defined). *)
Definition sample_symbols : toy_data :=
  ToyData (repeat 0 96) [Sym 0 0 0 0; Sym 1 18 0 7; Sym 2 18 0 0; Sym 3 17 2 7] [] [] [] [] [] [].
Definition sample_image : toy :=
  Toy (Ehdr 2 1 3 62)
    [(Shdr 0 0 0 0 0, no_data);
     (Shdr SHT_DYNSYM 2 2 96 24, sample_symbols);
     (Shdr 3 2 0 64 0, no_data);
     (Shdr SHT_GNU_versym 2 1 8 2, ToyData (repeat 0 8) [] [0; 2; 3; 32772] [] [] [] [] []);
     (Shdr SHT_GNU_verneed 2 2 32 0,
        ToyData (repeat 0 32) [] [] [(0, Verneed 16 0)] [(16, Vernaux 3 30 0)] [] [] []);
     (Shdr SHT_GNU_verdef 2 2 56 0,
        ToyData (repeat 0 56) [] [] [] [] [(0, Verdef 2 20 28); (28, Verdef 4 20 0)] [(20, 31); (48, 32)] [])]
    [Phdr PT_INTERP 2 0 0 5 5 1 4]
    [(2, 0, str ""); (2, 1, str "f"); (2, 2, str "printf"); (2, 3, str "g"); (2, 30, str "GLIBC_2.2.5");
     (2, 31, str "V1"); (2, 32, str "V2")]
    (str "xx/ld.so" ++ [0; 7]).
#[local] Instance sample_libelf : libelf toy toy_data := toy_libelf sample_image.

Definition sample_impl : elf_impl toy :=
  ElfImpl sample_image 1 6 2 1 3 62 (Some (str "x86_64")) (str "/ld.so") [].
Example sample_opened : elf_image_new [] [] = Some (Ok sample_impl).
Proof. vm_compute. reflexivity. Qed.

(** The definition with the hidden bit (0x8004) is the one that is marked as the default
    version of its symbol. *)
Example sample_symbols_read : symbols sample_impl =
  Some ([inr (ElfSymbolReference (ElfSymbol (str "") 0 0 0) [] 0);
         inl (ElfSymbolDefinition (ElfSymbol (str "f") 2 1 0) (str "V1") 0 7 7 false);
         inr (ElfSymbolReference (ElfSymbol (str "printf") 2 1 0) (str "GLIBC_2.2.5") 3);
         inl (ElfSymbolDefinition (ElfSymbol (str "g") 1 1 2) (str "V2") 0 7 7 true)], None).
Proof. vm_compute. reflexivity. Qed.

Lemma elf_symbols_spec_witness : chain sample_image None [1; 2; 3; 4; 5] ∧
  symbols sample_impl = until_exception (concat (section_symbols sample_impl <$> [1; 2; 3; 4; 5])).
Proof.
  assert (Hc : chain sample_image None [1; 2; 3; 4; 5]) by (repeat (eapply chain_cons; [reflexivity|]); by apply chain_nil).
  split; [exact Hc|]. exact (elf_symbols_spec (toy_libelf_laws sample_image) sample_impl _ eq_refl Hc).
Defined.

Lemma elf_symbols_total_witness : forward_image sample_image ∧ ∃ l e, symbols sample_impl = Some (l, e).
Proof.
  assert (Hf : forward_image sample_image) by (apply toy_forward; vm_compute; reflexivity).
  split; [exact Hf|].
  exact (proj2 (elf_symbols_total (toy_libelf_laws sample_image) [] []) sample_impl sample_opened Hf).
Defined.

(** Two entries of needed versions at the offsets 0 and 16, the second of which says that
    the next one is 2^32 - 16 octets ahead: the offset wraps to the first. *)
Definition looping_data : toy_data :=
  ToyData (repeat 0 32) [] [] [(0, Verneed 0 16); (16, Verneed 0 4294967280)] [] [] [] [].
Lemma version_chain_loops_from fuel off last : c_int off = 0 ∨ c_int off = 16 →
  verneed_loop fuel looping_data 3 off (gelf_getverneed looping_data (c_int off)) last = None.
Proof.
  revert off last. induction fuel as [|fuel IH]; intros off last Hoff; [by destruct Hoff as [-> | ->]|].
  assert (Hstep : ∀ n, (n = 16 ∧ c_int off = 0) ∨ (n = 4294967280 ∧ c_int off = 16) →
    c_int (u64 (off + n)) = 0 ∨ c_int (u64 (off + n)) = 16).
  { intros n. unfold c_int, to_signed, u64. change (2 ^ 32) with 4294967296. change (2 ^ (32 - 1)) with 2147483648.
    intros Hn. repeat case_match; zbool; Z.div_mod_to_equations; lia. }
  destruct Hoff as [Hoff|Hoff]; rewrite Hoff;
    [change (gelf_getverneed looping_data 0) with (Some (Verneed 0 16))
    |change (gelf_getverneed looping_data 16) with (Some (Verneed 0 4294967280))];
    cbn [verneed_loop vn_aux vn_next];
    (destruct (gelf_getvernaux looping_data _) as [w|] eqn:Hw;
      [apply within_Some in Hw as (Hw & _); discriminate Hw|]); cbn;
    apply IH, Hstep; auto.
Qed.
Lemma version_chain_loops fuel : verneed_loop fuel looping_data 3 0 (gelf_getverneed looping_data 0) None = None.
Proof. apply (version_chain_loops_from fuel 0 None). by left. Qed.
