(* ===== verification/ZipFile.v ===== *)
(** * ZIP archives (lib/cxxll/zip_file.cpp)

    libarchive is a parameter: functions on the state of an archive that is read from
    memory.  The exceptions of this class end up as text in the database, so the whole
    [os_exception] objects are here, made from the state after the failed call. *)

From S2P Require Import Prelude SourceSink OsException.

Record libarchive (A : Type) := Libarchive {
  archive_read_new : option A;
  archive_read_support_format_zip : A → Z * A;
  archive_read_open_memory : A → bytes → Z * A;
  archive_entry_new2 : A → bool * A;
  archive_read_next_header2 : A → Z * A;
  archive_read_data : A → Z → (Z * bytes) * A;
  archive_errno : A → Z;
  archive_error_string : A → bytes;
  archive_entry_pathname : A → bytes
}.
Arguments archive_read_new {A}. Arguments archive_read_support_format_zip {A}. Arguments archive_read_open_memory {A}.
Arguments archive_entry_new2 {A}. Arguments archive_read_next_header2 {A}. Arguments archive_read_data {A}.
Arguments archive_errno {A}. Arguments archive_error_string {A}. Arguments archive_entry_pathname {A}.

Definition ARCHIVE_EOF : Z := 1.
Definition ARCHIVE_OK : Z := 0.

(** The first byte comparisons of a vector with more than four elements.
    Source: lib/cxxll/zip_file.cpp 29-34, zip_file::has_signature. *)
Definition zip_has_signature (vec : bytes) : bool :=
  (4 <? zlen vec) && bool_decide (ztake 4 vec = [80; 75; 3; 4]).

Section ZipFile.
Context {A : Type} (la : libarchive A).
(** The names [os_exception::function] finds for the two functions. *)
Context (name_of : string → os_error → os_error).

(** Source: lib/cxxll/zip_file.cpp 47-62, zip_file::impl::impl. *)
Definition zip_file_new (buffer : bytes) : res A :=
  let failed := Throw (runtime_error (str "archive_read_support_format_zip")) in
  match archive_read_new la with
  | None => Throw bad_alloc
  | Some a =>
      let '(r, a) := archive_read_support_format_zip la a in
      if negb (r =? ARCHIVE_OK) then failed
      else
        let '(r, a) := archive_read_open_memory la a buffer in
        if negb (r =? ARCHIVE_OK) then failed
        else let '(ok, a) := archive_entry_new2 la a in if ok then Ok a else failed
  end.

(** Source: lib/cxxll/zip_file.cpp 74-79, zip_file::impl::read. *)
Definition read_error (length : Z) (a : A) : os_error :=
  set_length length (name_of "archive_read_data" (set_path2 (archive_entry_pathname la a)
    (set_message (archive_error_string la a) (os_error_new (archive_errno la a))))).
(** Source: lib/cxxll/zip_file.cpp 70-81, zip_file::impl::read. *)
#[local] Instance zip_read : SourceOps A := λ a length,
  let '(ret, buf, a) := archive_read_data la a length in
  if ret <? 0 then (Throw (os_exception (archive_errno la a)), a) else (Ok (ztake ret buf), a).

(** Source: lib/cxxll/zip_file.cpp 98-102, zip_file::next. *)
Definition next_error (a : A) : os_error :=
  name_of "archive_read_next_header2" (set_message (archive_error_string la a) (os_error_new (archive_errno la a))).
(** Source: lib/cxxll/zip_file.cpp 92-104, zip_file::next. *)
Definition zip_next (a : A) : (bool + os_error) * A :=
  let '(ret, a) := archive_read_next_header2 la a in
  if ret =? ARCHIVE_EOF then (inl false, a)
  else if negb (ret =? ARCHIVE_OK) then (inr (next_error a), a)
  else (inl true, a).

(** Source: lib/cxxll/zip_file.cpp 106-110, zip_file::name. *)
Definition zip_name (a : A) : bytes := archive_entry_pathname la a.

(** The target has what was read before an exception; reads are of 8192 octets.
    Source: lib/cxxll/zip_file.cpp 112-125, zip_file::data. *)
Definition zip_data (fuel : nat) (a : A) : option ((unit + os_error) * bytes * A) :=
  match copy_source_to_sink fuel a (VectorSink []) with
  | None => None
  | Some (Ok _, a, sink) => Some (inl tt, vector_sink_data sink, a)
  | Some (Throw _, a, sink) => Some (inr (read_error 8192 a), vector_sink_data sink, a)
  end.
End ZipFile.
