(* ===== verification/Gunzip.v ===== *)
(** * Decompression (lib/cxxll/gunzip_source.cpp, lib/cxxll/zlib.cpp)

    [gunzip_source] decompresses what another source delivers, a gzip file of one or
    more members.  zlib is a parameter: the result of a call of [inflate], how much of
    the input it took and what it put out.

    [gunzip_source_spec] is the contract of a source: whatever pieces the compressed
    data comes in and whatever sizes are asked for, the reads give the decompressed
    members one after the other, no read gives an empty piece before the end, and
    compressed data that stops inside of a member never looks complete. *)

From S2P Require Import Prelude SourceSink.

Definition Z_OK : Z := 0.
Definition Z_STREAM_END : Z := 1.
Definition BUFFER_SIZE : Z := 4096.

(** [inflate] from a state, with the input and the room for output: the result, the
    number of octets taken and the octets put out.  [inflateInit2] and [msg] can be
    null. *)
Record zlib (Z_ : Type) := Zlib {
  inflateInit2 : option Z_;
  inflate : Z_ → bytes → Z → (Z * Z * bytes) * Z_;
  inflateReset : Z_ → Z_;
  z_msg : Z_ → option bytes
}.
Arguments inflateInit2 {Z_}. Arguments inflate {Z_}. Arguments inflateReset {Z_}. Arguments z_msg {Z_}.

(** Source: lib/cxxll/zlib_inflate_exception.cpp 23-26, zlib_inflate_exception::zlib_inflate_exception. *)
Definition zlib_inflate_error (msg : option bytes) : exn :=
  zlib_inflate_exception (default (str "inflate error") msg).

(** ** The source *)

(** [gz_in] is the [avail_in] octets at [next_in]; [gz_source] is the source behind the
    pointer.
    Source: lib/cxxll/gunzip_source.cpp 34-38, gunzip_source::impl. *)
Record gunzip_source (S Z_ : Type) := GunzipSource {
  gz_source : S; gz_stream : Z_; gz_in : bytes; gz_end_seen : bool
}.
Arguments GunzipSource {S Z_}. Arguments gz_source {S Z_}. Arguments gz_stream {S Z_}.
Arguments gz_in {S Z_}. Arguments gz_end_seen {S Z_}.

Section Gunzip.
Context {S Z_ : Type} `{SourceOps S} (zl : zlib Z_).
Abbreviation gz := (gunzip_source S Z_).

(** Source: lib/cxxll/gunzip_source.cpp 40-49, gunzip_source::impl::impl. *)
Definition gunzip_source_new (src : S) : res gz :=
  match inflateInit2 zl with
  | None => Throw bad_alloc
  | Some z => Ok (GunzipSource src z [] false)
  end.

(** Source: lib/cxxll/gunzip_source.cpp 65-73, gunzip_source::impl::read. *)
Definition gunzip_fill (x : gz) : res bool * gz :=
  match source_read (gz_source x) BUFFER_SIZE with
  | (Throw e, src) => (Throw e, GunzipSource src (gz_stream x) (gz_in x) (gz_end_seen x))
  | (Ok buf, src) =>
      let x := GunzipSource src (gz_stream x) (gz_in x) (gz_end_seen x) in
      if (zlen buf =? 0) && gz_end_seen x then (Ok false, x)
      else if zlen buf =? 0 then (Throw (zlib_inflate_error (Some (str "unexpected end of stream"))), x)
      else (Ok true, GunzipSource src (gz_stream x) buf (gz_end_seen x))
  end.

(** After the end of a member: whether there is more, after which zlib starts over.
    Source: lib/cxxll/gunzip_source.cpp 83-101, gunzip_source::impl::read. *)
Definition gunzip_member_end (x : gz) : res bool * gz :=
  let again src inb := (Ok true, GunzipSource src (inflateReset zl (gz_stream x)) inb false) in
  if zlen (gz_in x) =? 0 then
    match source_read (gz_source x) BUFFER_SIZE with
    | (Throw e, src) => (Throw e, GunzipSource src (gz_stream x) (gz_in x) (gz_end_seen x))
    | (Ok buf, src) =>
        if negb (zlen buf =? 0) then again src buf
        else (Ok false, GunzipSource src (gz_stream x) (gz_in x) true)
    end
  else again (gz_source x) (gz_in x).

(** [out] is what is between [buf] and [next_out], [avail] is [avail_out].
    Source: lib/cxxll/gunzip_source.cpp 63-105, gunzip_source::impl::read. *)
Fixpoint gunzip_loop (fuel : nat) (x : gz) (length avail : Z) (out : bytes) : option (res bytes * gz) :=
  match fuel with
  | O => None
  | Datatypes.S fuel =>
      match (if zlen (gz_in x) =? 0 then gunzip_fill x else (Ok true, x)) with
      | (Throw e, x) => Some (Throw e, x)
      | (Ok false, x) => Some (Ok out, x)
      | (Ok true, x) =>
          let '(err, used, produced, z) := inflate zl (gz_stream x) (gz_in x) avail in
          let out := out ++ produced in
          let avail := avail - zlen produced in
          let x := GunzipSource (gz_source x) z (zdrop used (gz_in x)) (gz_end_seen x) in
          if err =? Z_OK then
            let x := GunzipSource (gz_source x) z (gz_in x) false in
            if negb (avail =? 0) then gunzip_loop fuel x length avail out else Some (Ok out, x)
          else if err =? Z_STREAM_END then
            match gunzip_member_end x with
            | (Throw e, x) => Some (Throw e, x)
            | (Ok false, x) => Some (Ok out, x)
            | (Ok true, x) => gunzip_loop fuel x length avail out
            end
          else Some (Throw (zlib_inflate_error (z_msg zl z)), x)
      end
  end.

(** The lengths are 32 bit for zlib; of more than 4 GB, the code would report more than
    was written, which is not modelled.
    Source: lib/cxxll/gunzip_source.cpp 56-106, gunzip_source::impl::read. *)
Definition gunzip_read (fuel : nat) (x : gz) (length : Z) : option (res bytes * gz) :=
  if gz_end_seen x || (length =? 0) then Some (Ok [], x)
  else gunzip_loop fuel x length (u32 length) [].

(** ** In memory *)

(** [std::vector::resize], and writing into a vector that is large enough. *)
Definition resize (size : Z) (vec : bytes) : bytes :=
  ztake size vec ++ replicate (Z.to_nat (size - zlen vec)) 0.
Definition overwrite (at_ : Z) (p vec : bytes) : bytes := ztake at_ vec ++ p ++ zdrop (at_ + zlen p) vec.

(** [out] is the whole vector, [total] is [total_out].
    Source: lib/cxxll/zlib.cpp 73-97, gzip_uncompress. *)
Fixpoint uncompress_loop (fuel : nat) (z : Z_) (inb out : bytes) (total : Z) : option (bool * bytes) :=
  match fuel with
  | O => None
  | Datatypes.S fuel =>
      let '(err, used, produced, z) := inflate zl z inb (u32 (zlen out - total)) in
      let out := overwrite total produced out in
      let total := total + zlen produced in
      if err =? Z_STREAM_END then Some (true, resize total out)
      else if err =? Z_OK then
        let new_size := u64 (zlen out * 2) in
        if new_size <? zlen out then Some (false, out)
        else uncompress_loop fuel z (zdrop used inb) (resize new_size out) total
      else Some (false, out)
  end.
(** Source: lib/cxxll/zlib.cpp 51-104, gzip_uncompress. *)
Definition gzip_uncompress (fuel : nat) (inb out : bytes) : option (bool * bytes) :=
  if zlen inb =? 0 then Some (false, out)
  else if negb (zlen inb =? u32 (zlen inb)) then Some (false, out)
  else
    let out := resize (2 * zlen inb) out in
    match inflateInit2 zl with
    | None => Some (false, out)
    | Some z => uncompress_loop fuel z inb out 0
    end.
End Gunzip.

(** ** What zlib does *)

Section Contract.
Context {S Z_ : Type} `{Source S} (zl : zlib Z_).
(** [member enc o]: [enc] is a gzip member that holds [o]; a [fresh] state waits for a
    member; [decodes z enc o]: what is left of the member and of its contents. *)
Context (member : bytes → bytes → Prop) (fresh : Z_ → Prop) (decodes : Z_ → bytes → bytes → Prop).

(** One call takes input and puts out octets, at least one of them if there is input and
    room; it stops short of the room only for lack of input, or at the end of the member,
    behind which it takes nothing. *)
Record zlib_laws : Prop := {
  zl_init z : inflateInit2 zl = Some z → fresh z;
  zl_reset z : fresh (inflateReset zl z);
  zl_fresh z enc o : fresh z → member enc o → decodes z enc o;
  zl_rest z enc o : decodes z enc o → enc ≠ [];
  zl_inflate z enc o inb more n : decodes z enc o → inb ≠ [] → 0 < n ∨ fresh z ∧ n = 0 → inb `prefix_of` enc ++ more →
    ∃ err used p z', inflate zl z inb n = (err, used, p, z') ∧ 0 <= used <= zlen inb ∧ zlen p <= n ∧
      (err = Z_STREAM_END ∧ enc = ztake used inb ∧ o = p ∨
       err = Z_OK ∧ 0 < used + zlen p ∧ (zlen p < n → used = zlen inb) ∧
         ∃ enc' o', enc = ztake used inb ++ enc' ∧ o = p ++ o' ∧ decodes z' enc' o')
}.
Context (Hzl : zlib_laws).

(** The members of a file, and whether it is all of it: it can be cut inside of one. *)
Inductive gzip_stream : bytes → bytes → bool → Prop :=
| gzip_end : gzip_stream [] [] true
| gzip_member enc o d os c : member enc o → gzip_stream d os c → gzip_stream (enc ++ d) (o ++ os) c
| gzip_cut d missing o : member (d ++ missing) o → d ≠ [] → missing ≠ [] → gzip_stream d o false.

(** Inside of a member, with [o] still to come in all. *)
Definition gz_inside (x : gunzip_source S Z_) (o : bytes) (c : bool) : Prop :=
  source_inv (gz_source x) ∧ gz_end_seen x = false ∧
  let d := gz_in x ++ remaining (gz_source x) in
  ∃ enc o1, decodes (gz_stream x) enc o1 ∧
    ((∃ d' os, d = enc ++ d' ∧ gzip_stream d' os c ∧ o = o1 ++ os) ∨
     (∃ missing, enc = d ++ missing ∧ missing ≠ [] ∧ c = false ∧ o = o1)).
Definition gz_at (x : gunzip_source S Z_) (o : bytes) (c : bool) : Prop :=
  gz_inside x o c ∨ (gz_end_seen x = true ∧ o = [] ∧ c = true).

Lemma member_nonempty z enc o : fresh z → member enc o → enc ≠ [].
Proof using Hzl. intros Hz Hm. eapply zl_rest; [done|]. by eapply zl_fresh. Qed.
Lemma gzip_stream_start z src d inb o c : source_inv src → fresh z → d = inb ++ remaining src → d ≠ [] → gzip_stream d o c →
  gz_inside (GunzipSource src z inb false) o c.
Proof using Hzl.
  intros Hi Hz -> Hd Hs. split; [done|]. split; [done|]. cbn [gz_in gz_source gz_stream]. inversion Hs as [He|enc o1 d' os c' Hm Hs' He|d' missing o1 Hm Hd' Hmiss].
  - by rewrite <- He in Hd.
  - exists enc, o1. split; [by eapply zl_fresh|]. left. by exists d', os.
  - subst. eexists _, o. split; [by eapply zl_fresh|]. right. by exists missing.
Qed.
Lemma gzip_stream_nil z o c : fresh z → gzip_stream [] o c → o = [] ∧ c = true.
Proof using Hzl.
  intros Hz Hs. remember [] as d eqn:Hd. destruct Hs as [|enc o1 d' os c' Hm|]; [done| |done].
  apply app_nil in Hd as [-> _]. by destruct (member_nonempty z [] o1 Hz Hm).
Qed.

(** Filling the buffer. *)
Lemma gunzip_fill_inside x o c : gz_inside x o c → gz_in x = [] →
  match gunzip_fill x with
  | (Ok b, x') => b = true ∧ gz_inside x' o c ∧ gz_in x' ≠ [] ∧ gz_stream x' = gz_stream x ∧
      zlen (gz_in x') + zlen (remaining (gz_source x')) = zlen (remaining (gz_source x))
  | (Throw e, _) => e = zlib_inflate_exception (str "unexpected end of stream") ∧ c = false
  end.
Proof using Hzl.
  intros (Hi & He & enc & o1 & Hdec & Hd) Hin. unfold gunzip_fill.
  destruct (source_read_spec (gz_source x) BUFFER_SIZE Hi eq_refl) as (p & src & -> & Hr & Hlen & Hnil & Hi').
  rewrite Hin in Hd. cbn [app] in Hd. cbn [gz_end_seen]. rewrite He, andb_false_r.
  destruct (Z.eqb_spec (zlen p) 0) as [Hp|Hp].
  - apply zlen_0_nil in Hp. split; [done|]. rewrite (Hnil Hp) in Hd.
    destruct Hd as [(d' & os & Hd & _)|(m & _ & _ & -> & _)]; [|done]. symmetry in Hd. apply app_nil in Hd as [-> _].
    by destruct (zl_rest Hzl _ _ _ Hdec).
  - split_and!; try done; cbn.
    + split; [done|]. split; [done|]. cbn. rewrite <- Hr. by exists enc, o1.
    + intros ->. done.
    + by rewrite Hr, zlen_app.
Qed.

(** What is left of the compressed data. *)
Definition gz_size (x : gunzip_source S Z_) : Z := zlen (gz_in x) + zlen (remaining (gz_source x)).

Lemma gunzip_inflate x o c n : gz_inside x o c → gz_in x ≠ [] → 0 < n ∨ fresh (gz_stream x) ∧ n = 0 →
  ∃ err used p z', inflate zl (gz_stream x) (gz_in x) n = (err, used, p, z') ∧ zlen p <= n ∧
    let x' := GunzipSource (gz_source x) z' (zdrop used (gz_in x)) false in
    gz_size x' + (n - zlen p) < gz_size x + n ∧ ∃ o', o = p ++ o' ∧
    (err = Z_OK ∧ (zlen p < n → gz_in x' = []) ∧ gz_inside x' o' c ∨
     err = Z_STREAM_END ∧ gzip_stream (gz_in x' ++ remaining (gz_source x)) o' c).
Proof using Hzl.
  intros (Hi & He & enc & o1 & Hdec & Hd) Hin Hn. cbn zeta in Hd. set (inb := gz_in x) in *. set (rem := remaining (gz_source x)) in *.
  assert (Hpre : ∃ more, inb `prefix_of` enc ++ more).
  { destruct Hd as [(d' & os & Hd & _)|(m & -> & _)].
    - exists d'. rewrite <- Hd. by eexists.
    - exists []. exists (rem ++ m). by rewrite app_nil_r, app_assoc. }
  destruct Hpre as [more Hpre].
  destruct (zl_inflate Hzl _ _ _ _ _ _ Hdec Hin Hn Hpre) as (err & used & p & z' & -> & Hused & Hp & Hcase).
  exists err, used, p, z'. split; [done|]. split; [done|]. cbn zeta.
  unfold gz_size. cbn [gz_in gz_source]. fold inb rem.
  assert (Hsz : zlen (zdrop used inb) = zlen inb - used) by (by apply zlen_zdrop_le).
  destruct Hcase as [(-> & Henc & ->)|(-> & Hpos & Hfull & enc' & o' & Henc & -> & Hdec')].
  - assert (0 < used).
    { destruct (Z.eq_dec used 0) as [->|]; [|lia]. destruct (zl_rest Hzl _ _ _ Hdec). by rewrite Henc. }
    split; [pose proof (zlen_nonneg p); lia|].
    destruct Hd as [(d' & os & Hd & Hs & ->)|(m & Hd & Hm & _)].
    + exists os. split; [done|]. right. split; [done|].
      replace (zdrop used inb ++ rem) with d'; [done|].
      rewrite <- (ztake_zdrop_id used inb), <- app_assoc, <- Henc in Hd. by apply app_inv_head in Hd.
    + exfalso. apply (f_equal zlen) in Hd. rewrite Henc, !zlen_app, zlen_ztake_le in Hd by lia.
      pose proof (zlen_nonneg rem). destruct m; [done|]. rewrite zlen_cons in Hd. pose proof (zlen_nonneg m). lia.
  - split; [lia|].
    assert (Hnil : zlen p < n → zdrop used inb = []).
    { intros Hlt. rewrite (Hfull Hlt). apply zdrop_past. lia. }
    assert (Hcut : inb ++ rem = ztake used inb ++ zdrop used inb ++ rem) by (by rewrite app_assoc, ztake_zdrop_id).
    rewrite Hcut, Henc, <- ?app_assoc in Hd. destruct Hd as [(d' & os & Hd & Hs & ->)|(m & Hd & Hm & -> & ->)];
      rewrite <- ?app_assoc in Hd; apply app_inv_head in Hd.
    + exists (o' ++ os). split; [by rewrite app_assoc|]. left. split; [done|]. split; [done|].
      split; [done|]. split; [done|]. cbn. exists enc', o'. split; [done|]. left. by exists d', os.
    + exists o'. split; [done|]. left. split; [done|]. split; [done|].
      split; [done|]. split; [done|]. cbn. exists enc', o'. split; [done|]. right. exists m. by rewrite <- app_assoc.
Qed.

Lemma gunzip_member_end_next x o c : source_inv (gz_source x) → gzip_stream (gz_in x ++ remaining (gz_source x)) o c →
  match gunzip_member_end zl x with
  | (Ok true, x') => gz_inside x' o c ∧ gz_in x' ≠ [] ∧ fresh (gz_stream x') ∧ gz_size x' = gz_size x
  | (Ok false, x') => gz_end_seen x' = true ∧ o = [] ∧ c = true
  | (Throw _, _) => False
  end.
Proof using Hzl.
  intros Hi Hs. unfold gunzip_member_end, gz_size. destruct (Z.eqb_spec (zlen (gz_in x)) 0) as [Hz|Hz].
  - apply zlen_0_nil in Hz. rewrite Hz in *. cbn [app] in Hs.
    destruct (source_read_spec (gz_source x) BUFFER_SIZE Hi eq_refl) as (p & src & -> & Hr & Hlen & Hnil & Hi').
    destruct (Z.eqb_spec (zlen p) 0) as [Hp|Hp]; cbn [negb].
    + apply zlen_0_nil in Hp. rewrite (Hnil Hp) in Hs. split; [done|].
      by apply (gzip_stream_nil (inflateReset zl (gz_stream x))); [apply (zl_reset Hzl)|].
    + assert (p ≠ []) by (by intros ->). rewrite Hr in Hs.
      split_and!; [|done|by apply (zl_reset Hzl)|cbn; by rewrite Hr, zlen_app].
      eapply gzip_stream_start; [done|by apply (zl_reset Hzl)|reflexivity| |done]. by intros [? _]%app_nil.
  - assert (gz_in x ≠ []) by (by intros E; rewrite E in Hz). split_and!; [|done|by apply (zl_reset Hzl)|done].
    eapply gzip_stream_start; [done|by apply (zl_reset Hzl)|reflexivity| |done]. by intros [? _]%app_nil.
Qed.

Lemma gunzip_loop_spec fuel : ∀ x o c length avail acc,
  gz_inside x o c → 0 < avail ∨ fresh (gz_stream x) ∧ avail = 0 ∧ gz_in x ≠ [] →
  gz_size x + avail < Z.of_nat fuel →
  ∃ r x', gunzip_loop zl fuel x length avail acc = Some (r, x') ∧
  match r with
  | Ok p => ∃ q o', p = acc ++ q ∧ o = q ++ o' ∧ zlen q <= avail ∧ gz_at x' o' c ∧ (zlen q < avail → gz_end_seen x' = true)
  | Throw e => e = zlib_inflate_exception (str "unexpected end of stream") ∧ c = false
  end.
Proof using Hzl.
  induction fuel as [|fuel IH]; intros x o c length avail acc Hx Havail Hfuel; [unfold gz_size in Hfuel;
    pose proof (zlen_nonneg (gz_in x)); pose proof (zlen_nonneg (remaining (gz_source x))); lia|].
  cbn [gunzip_loop].
  assert (∃ x1, (if zlen (gz_in x) =? 0 then gunzip_fill x else (Ok true, x)) = (Ok true, x1) ∧ gz_inside x1 o c ∧ gz_in x1 ≠ [] ∧
            gz_stream x1 = gz_stream x ∧ gz_size x1 = gz_size x ∨
          (if zlen (gz_in x) =? 0 then gunzip_fill x else (Ok true, x)) =
            (Throw (zlib_inflate_exception (str "unexpected end of stream")), x1) ∧ c = false) as (x1 & [(-> & H1 & H2 & H3 & H4)|(-> & ->)]).
  { destruct (Z.eqb_spec (zlen (gz_in x)) 0) as [Hz|Hz].
    - apply zlen_0_nil in Hz. pose proof (gunzip_fill_inside x o c Hx Hz) as Hf.
      destruct (gunzip_fill x) as [[b|e] x1]; exists x1; [left|right].
      + destruct Hf as (-> & ? & ? & ? & ?). split_and!; try done. unfold gz_size in *. rewrite Hz. by change (zlen (@nil Z)) with 0.
      + by destruct Hf as [-> ->].
    - exists x. left. split_and!; try done. by intros E; rewrite E in Hz. }
  2:{ by eexists _, _. }
  destruct (gunzip_inflate x1 o c avail H1 H2) as (err & used & p & z' & -> & Hp & Hsize & o' & -> & Hcase).
  { rewrite H3. destruct Havail as [|(? & ? & ?)]; auto. }
  cbn zeta in *. rewrite H4 in Hsize. pose proof (zlen_nonneg p).
  destruct Hcase as [(-> & Hnil & Hin)|(-> & Hs)].
  - cbn [Z.eqb Z_OK gz_source gz_in gz_end_seen]. destruct (Z.eqb_spec (avail - zlen p) 0) as [Hz|Hz]; cbn [negb].
    + eexists _, _. split; [reflexivity|]. exists p, o'. split_and!; [done|done|done|by left|lia].
    + destruct (IH _ o' c length (avail - zlen p) (acc ++ p) Hin) as (r & x' & -> & Hr); [lia|lia|].
      exists r, x'. split; [done|]. destruct r as [q|e]; [|done].
      destruct Hr as (q' & o2 & -> & -> & Hq & Hat & Hlt). exists (p ++ q'), o2. rewrite !app_assoc, !zlen_app.
      split_and!; [done|done|lia|done|]. intros ?. apply Hlt. lia.
  - cbn [Z.eqb Z_OK Z_STREAM_END gz_source gz_in gz_end_seen].
    pose proof (gunzip_member_end_next (GunzipSource (gz_source x1) z' (zdrop used (gz_in x1)) (gz_end_seen x1)) o' c
      ltac:(by destruct H1) Hs) as Hm.
    destruct (gunzip_member_end zl _) as [[[|]|e] x2]; [| |done].
    + destruct Hm as (Hin & Hne & Hfresh & Hsz). unfold gz_size in Hsz, Hsize, Hfuel |- *. cbn [gz_in gz_source] in Hsz, Hsize.
      destruct (IH x2 o' c length (avail - zlen p) (acc ++ p) Hin) as (r & x' & -> & Hr); [|unfold gz_size; lia|].
      { destruct (Z.eq_dec (avail - zlen p) 0) as [->|]; [right|left]; [done|lia]. }
      exists r, x'. split; [done|]. destruct r as [q|e]; [|done].
      destruct Hr as (q' & o2 & -> & -> & Hq & Hat & Hlt). exists (p ++ q'), o2. rewrite !app_assoc, !zlen_app.
      split_and!; [done|done|lia|done|]. intros ?. apply Hlt. lia.
    + destruct Hm as (He & -> & ->). eexists _, _. split; [reflexivity|]. exists p, []. rewrite app_nil_r.
      split_and!; [done|done|done|by right|done].
Qed.

Lemma gunzip_start src x o c : source_inv src → gunzip_source_new zl src = Ok x → remaining src ≠ [] →
  gzip_stream (remaining src) o c → gz_at x o c ∧ gz_size x = zlen (remaining src).
Proof using Hzl.
  intros Hi Hx Hd Hs. unfold gunzip_source_new in Hx. destruct (inflateInit2 zl) as [z|] eqn:Hz; [|done].
  injection Hx as <-. split; [|done]. left. eapply gzip_stream_start; [done| |reflexivity|exact Hd|done].
  by eapply zl_init.
Qed.
Lemma gunzip_read_next x o c n fuel : gz_at x o c → 0 < n < 2 ^ 32 → gz_size x + n < Z.of_nat fuel →
  ∃ r x', gunzip_read zl fuel x n = Some (r, x') ∧
  match r with
  | Ok p => ∃ o', o = p ++ o' ∧ zlen p <= n ∧ gz_at x' o' c ∧ (zlen p < n → o' = [] ∧ c = true)
  | Throw e => e = zlib_inflate_exception (str "unexpected end of stream") ∧ c = false
  end.
Proof using Hzl.
  intros Hx Hn Hfuel. unfold gunzip_read. destruct Hx as [Hx|(He & -> & ->)].
  2:{ rewrite He. cbn [orb]. eexists _, _. split; [reflexivity|]. exists []. split_and!; [done|change (zlen (@nil Z)) with 0; lia|by right|done]. }
  pose proof Hx as (_ & -> & _). cbn [orb]. destruct (Z.eqb_spec n 0); [lia|].
  assert (u32 n = n) as -> by (apply Z.mod_small; lia).
  destruct (gunzip_loop_spec fuel x o c n n [] Hx ltac:(lia) Hfuel) as (r & x' & -> & Hr). exists r, x'. split; [done|].
  destruct r as [p|e]; [|done]. destruct Hr as (q & o' & -> & -> & Hq & Hat & Hlt). exists o'. cbn [app].
  split_and!; [done|done|done|]. intros Hl. specialize (Hlt Hl). destruct Hat as [(_ & He & _)|(_ & -> & ->)]; [congruence|done].
Qed.

(** C16: Reading a gzip file through any source: opened on members one after the other,
    possibly cut inside of the last one, every read (of less than 4 GB) returns with what
    comes next of the contents of the members, as much as was asked for unless the file
    ends there; a short piece, the empty one in particular, is only returned at the end of
    a complete file, and a file that was cut ends with the exception and never looks
    complete. *)
Theorem gunzip_source_spec :
  (∀ src x o c, source_inv src → gunzip_source_new zl src = Ok x → remaining src ≠ [] →
     gzip_stream (remaining src) o c → gz_at x o c ∧ gz_size x = zlen (remaining src)) ∧
  ∀ x o c n fuel, gz_at x o c → 0 < n < 2 ^ 32 → gz_size x + n < Z.of_nat fuel →
  ∃ r x', gunzip_read zl fuel x n = Some (r, x') ∧
  match r with
  | Ok p => ∃ o', o = p ++ o' ∧ zlen p <= n ∧ gz_at x' o' c ∧ (zlen p < n → o' = [] ∧ c = true)
  | Throw e => e = zlib_inflate_exception (str "unexpected end of stream") ∧ c = false
  end.
Proof using Hzl. split; [exact gunzip_start|exact gunzip_read_next]. Qed.
End Contract.

(** ** A simple format *)

(** A member is the length of its contents and the contents; the state is what is still
    to come of them. *)
Definition toy_zlib : zlib (option Z) := {|
  inflateInit2 := Some None;
  inflate z inb n :=
    let '(k, header) := match z with Some k => (k, 0) | None => (default 0 (head inb), 1) end in
    let p := ztake (Z.min k n) (zdrop header inb) in
    if zlen p =? k then (Z_STREAM_END, header + zlen p, p, None) else (Z_OK, header + zlen p, p, Some (k - zlen p));
  inflateReset _ := None;
  z_msg _ := None
|}.
Definition toy_member (enc o : bytes) : Prop := enc = zlen o :: o.
Definition toy_fresh (z : option Z) : Prop := z = None.
Definition toy_decodes (z : option Z) (enc o : bytes) : Prop :=
  match z with None => toy_member enc o | Some k => enc = o ∧ zlen o = k ∧ 0 < k end.

Lemma ztake_app_prefix (k : Z) (a b rest : bytes) : a `prefix_of` b ++ rest → 0 <= k <= zlen b → ztake k a = ztake (Z.min k (zlen a)) b.
Proof.
  intros [r Hr] Hk. pose proof (zlen_nonneg a). unfold ztake, zlen in *.
  assert (take (Z.to_nat k) a = take (Z.to_nat (Z.min k (Z.of_nat (length a)))) a) as ->.
  { destruct (Z.le_gt_cases k (Z.of_nat (length a))); [by rewrite Z.min_l|]. rewrite !take_ge; [done|lia..]. }
  rewrite <- (take_app_le a r) by lia. rewrite <- Hr. apply take_app_le. lia.
Qed.
Lemma toy_body (k : Z) (o inb more : bytes) (n : Z) : zlen o = k → 0 <= n → inb `prefix_of` o ++ more →
  let p := ztake (Z.min k n) inb in
  p = ztake (zlen p) inb ∧ p `prefix_of` o ∧ zlen p <= n ∧ zlen p <= zlen inb ∧ (zlen p < n → zlen p ≠ k → zlen p = zlen inb) ∧
  (inb ≠ [] → 0 < n → 0 < k → 0 < zlen p).
Proof.
  intros <- Hn Hpre p. pose proof (zlen_nonneg o). pose proof (zlen_nonneg inb).
  assert (Hp : p = ztake (Z.min (Z.min (zlen o) n) (zlen inb)) o) by (by eapply ztake_app_prefix; [done|lia]).
  assert (Hl : zlen p = Z.min (Z.min (zlen o) n) (zlen inb)).
  { rewrite Hp. apply zlen_ztake_le. lia. }
  split_and!.
  - rewrite Hl. unfold p, ztake. destruct (Z.le_gt_cases (Z.min (zlen o) n) (zlen inb)); [by rewrite (Z.min_l _ (zlen inb))|].
    unfold zlen in *. rewrite !take_ge; [done|lia..].
  - rewrite Hp. exists (zdrop (Z.min (Z.min (zlen o) n) (zlen inb)) o). by rewrite ztake_zdrop_id.
  - lia.
  - lia.
  - lia.
  - intros Hi ? ?. rewrite Hl. destruct inb; [done|]. rewrite zlen_cons. pose proof (zlen_nonneg inb). lia.
Qed.
Lemma toy_zlib_laws : zlib_laws toy_zlib toy_member toy_fresh toy_decodes.
Proof.
  split; try done.
  - intros z. cbn. unfold toy_fresh. congruence.
  - intros z enc o -> Hm. exact Hm.
  - intros [k|] enc o; cbn; [intros (-> & <- & Hk) ->; done|]. by intros ->.
  - intros z enc o inb more n Hdec Hinb Hn Hpre.
    destruct z as [k|]; cbn [toy_zlib inflate].
    + destruct Hdec as (-> & Hk & Hk0). destruct Hn as [Hn|[? ?]]; [|done].
      destruct (toy_body k o inb more n Hk ltac:(lia) Hpre) as (H1 & [o' Ho] & H3 & H4 & H5 & H6). cbn zeta in *.
      change (zdrop 0 inb) with inb. set (p := ztake (Z.min k n) inb) in *. rewrite Z.add_0_l. pose proof (zlen_nonneg p).
      destruct (Z.eqb_spec (zlen p) k) as [E|E]; eexists _, _, _, _; (split; [reflexivity|]); (split; [lia|]); (split; [done|]).
      * left. assert (o' = []) as -> by (apply zlen_0_nil; rewrite Ho, zlen_app in Hk; lia). rewrite app_nil_r in Ho.
        subst o. cbn. split_and!; [done|exact H1|done].
      * right. split; [done|]. split; [specialize (H6 Hinb Hn Hk0); lia|]. split; [intros ?; lia|].
        exists o', o'. cbn. rewrite <- H1. split; [done|]. split; [done|]. split; [done|].
        pose proof (f_equal zlen Ho) as Hz. rewrite zlen_app in Hz. pose proof (zlen_nonneg o'). lia.
    + rewrite Hdec in Hpre. destruct inb as [|b inb]; [done|]. destruct Hpre as [r [= <- Hr]].
      destruct (toy_body (zlen o) o inb more n eq_refl ltac:(lia) ltac:(by exists r)) as (H1 & [o' Ho] & H3 & H4 & H5 & H6). cbn zeta in *.
      cbn [head default from_option]. change (default 0 (Some (zlen o))) with (zlen o). change (id (zlen o)) with (zlen o). change (zdrop 1 (zlen o :: inb)) with inb. set (p := ztake (Z.min (zlen o) n) inb) in *.
      pose proof (zlen_nonneg p). rewrite zlen_cons. unfold toy_decodes, toy_member in Hdec.
      assert (Htake : ztake (1 + zlen p) (zlen o :: inb) = zlen o :: p).
      { rewrite H1 at 2. unfold ztake. rewrite Z2Nat.inj_add by lia. done. }
      destruct (Z.eqb_spec (zlen p) (zlen o)) as [E|E]; eexists _, _, _, _; (split; [reflexivity|]); (split; [lia|]); (split; [done|]).
      * left. assert (o' = []) as -> by (apply zlen_0_nil; rewrite Ho, zlen_app in E; lia). rewrite app_nil_r in Ho.
        rewrite Htake, Hdec, Ho. done.
      * right. split; [done|]. split; [lia|]. split; [intros ?; lia|]. exists o', o'. rewrite Htake, Hdec.
        cbn [toy_decodes app]. rewrite <- Ho. split; [done|]. split; [done|]. split; [done|].
        pose proof (f_equal zlen Ho) as Hz. rewrite zlen_app in Hz. pose proof (zlen_nonneg o'). lia.
Qed.

(** Three members, one of them empty, read eight octets at a time; the same file without
    its last octet. *)
Definition toy_gz (d : bytes) : gunzip_source string_source (option Z) := GunzipSource (string_source_new d) None [] false.
Lemma toy_stream c : gzip_stream toy_member (2 :: 7 :: 8 :: 0 :: if c : bool then [1; 9] else [1]) [7; 8; 9] c.
Proof.
  change [7; 8; 9] with ([7; 8] ++ [] ++ [9]).
  destruct c; (eapply (gzip_member _ [2; 7; 8]); [done|]); (eapply (gzip_member _ [0]); [done|]).
  - apply (gzip_member _ [1; 9] [9] [] []); [done|constructor].
  - by apply (gzip_cut _ [1] [9] [9]).
Qed.
Lemma gunzip_source_spec_witness :
  (∃ r x', gunzip_read toy_zlib 20 (toy_gz [2; 7; 8; 0; 1; 9]) 8 = Some (r, x') ∧ r = Ok [7; 8; 9] ∧
     fst <$> gunzip_read toy_zlib 20 x' 8 = Some (Ok [])) ∧
  (∃ x', gunzip_read toy_zlib 20 (toy_gz [2; 7; 8; 0; 1]) 8 =
     Some (Throw (zlib_inflate_exception (str "unexpected end of stream")), x')).
Proof.
  destruct (gunzip_source_spec (S := string_source) toy_zlib toy_member toy_fresh toy_decodes toy_zlib_laws) as [Hnew Hread].
  destruct (Hnew (string_source_new [2; 7; 8; 0; 1; 9]) (toy_gz [2; 7; 8; 0; 1; 9]) [7; 8; 9] true
    ltac:(by vm_compute) eq_refl ltac:(done) (toy_stream true)) as [Hat _].
  destruct (Hnew (string_source_new [2; 7; 8; 0; 1]) (toy_gz [2; 7; 8; 0; 1]) [7; 8; 9] false
    ltac:(by vm_compute) eq_refl ltac:(done) (toy_stream false)) as [Hat' _].
  destruct (Hread _ _ _ 8 20%nat Hat ltac:(lia) ltac:(vm_compute; reflexivity)) as (r & x' & Hr & Hok).
  destruct (Hread _ _ _ 8 20%nat Hat' ltac:(lia) ltac:(vm_compute; reflexivity)) as (r2 & x2 & Hr2 & Hbad).
  vm_compute in Hr. injection Hr as <- <-. vm_compute in Hr2. injection Hr2 as <- <-. split.
  - eexists _, _. split; [vm_compute; reflexivity|]. split; vm_compute; reflexivity.
  - eexists. vm_compute. reflexivity.
Defined.
