(* ===== verification/UrlSource.v ===== *)
(** * Downloads (lib/cxxll/url_source.cpp, lib/cxxll/curl_exception.cpp)

    [url_source] turns a transfer of libcurl, which pushes data through a callback while
    [curl_multi_perform] runs, into a source that is read.  libcurl is a parameter: what
    each call returns, and the pieces it hands to the callback.

    [url_source_spec] says that no octet is lost, repeated or reordered between the
    callback and the reader, whatever the pieces and the sizes asked for, and that a read
    ends once the transfer makes progress.  The result of the transfer itself is never
    looked at: [broken_transfer_is_an_end] and [no_connection_is_empty] show a transfer
    that broke off and one that was never connected, which both read as complete. *)

From S2P Require Import Prelude StringSupport SourceSink OsException.

(** ** Exceptions *)

(** Source: lib/cxxll/curl_exception.cpp 28-36, curl_exception::curl_exception. *)
Definition curl_error (message : bytes) : curl_report := CurlReport message [] [] [] 0 0.
(** Source: lib/cxxll/curl_exception.cpp 53-62, curl_exception::url. *)
Definition with_url (s : bytes) (e : curl_report) : curl_report :=
  CurlReport (cr_message e) (cr_original_url e) s (cr_remote_ip e) (cr_status e) (cr_remote_port e).
(** Source: lib/cxxll/curl_exception.cpp 75-84, curl_exception::original_url. *)
Definition with_original_url (s : bytes) (e : curl_report) : curl_report :=
  CurlReport (cr_message e) s (cr_url e) (cr_remote_ip e) (cr_status e) (cr_remote_port e).
(** Source: lib/cxxll/curl_exception.cpp 86-96, curl_exception::remote. *)
Definition with_remote (ip : bytes) (port : Z) (e : curl_report) : curl_report :=
  CurlReport (cr_message e) (cr_original_url e) (cr_url e) ip (cr_status e) (u32 port).
(** Source: include/cxxll/curl_exception.hpp 76-81, curl_exception::status. *)
Definition with_status (st : Z) (e : curl_report) : curl_report :=
  CurlReport (cr_message e) (cr_original_url e) (cr_url e) (cr_remote_ip e) (to_signed 32 st) (cr_remote_port e).

(** With enough memory; the address is shorter than the buffer.
    Source: lib/cxxll/curl_exception.cpp 98-144, curl_exception::what. *)
Definition curl_what (e : curl_report) : bytes :=
  [34] ++ quote (cr_message e) ++ [34]
  ++ (if cr_status e =? 0 then [] else str " status=" ++ dec (cr_status e))
  ++ (if bool_decide (cr_url e = []) then [] else str " url=" ++ [34] ++ quote (cr_url e) ++ [34])
  ++ (if bool_decide (cr_remote_ip e = []) then []
      else ztake 127 (str " remote=[" ++ until_nul (cr_remote_ip e) ++ str "]:" ++ dec (cr_remote_port e)))
  ++ (if bool_decide (cr_original_url e = []) then []
      else str " original=" ++ [34] ++ quote (cr_original_url e) ++ [34]).

(** What is printed.
    Source: lib/cxxll/curl_exception_dump.cpp 24-48, dump. *)
Definition curl_dump (prefix : bytes) (e : curl_report) : bytes :=
  prefix ++ str "download"
  ++ (if bool_decide (cr_remote_ip e = []) then []
      else str " from [" ++ until_nul (cr_remote_ip e) ++ str "]:" ++ dec (cr_remote_port e))
  ++ (if negb (cr_status e =? 0) then
        str " failed with status code " ++ dec (cr_status e) ++ [10]
        ++ (if bool_decide (cr_message e = []) then [] else prefix ++ str "  " ++ until_nul (cr_message e) ++ [10])
      else if negb (bool_decide (cr_message e = [])) then str " failed: " ++ until_nul (cr_message e) ++ [10]
      else str " failed" ++ [10])
  ++ (if bool_decide (cr_url e = []) then [] else prefix ++ str "  URL: " ++ until_nul (cr_url e) ++ [10])
  ++ (if negb (bool_decide (cr_original_url e = [])) && negb (bool_decide (cr_original_url e = cr_url e)) then
        prefix ++ str "  starting at: " ++ until_nul (cr_original_url e) ++ [10]
      else []).

(** ** libcurl *)

(** The options that are set, with their values. *)
Inductive curl_option :=
| CURLOPT_URL (url : bytes) | CURLOPT_NOSIGNAL | CURLOPT_REDIR_PROTOCOLS | CURLOPT_FOLLOWLOCATION | CURLOPT_FILETIME
| CURLOPT_WRITEFUNCTION | CURLOPT_WRITEDATA | CURLOPT_USERAGENT (agent : bytes) | CURLOPT_CONNECTTIMEOUT (s : Z)
| CURLOPT_LOW_SPEED_LIMIT (n : Z) | CURLOPT_LOW_SPEED_TIME (s : Z).

(** [U] is the state of the handle and of the network.  [curl_multi_perform] returns the
    code, the number of running transfers and the pieces given to the write callback;
    [curl_multi_fdset] and [curl_multi_timeout] the code and a number; [select] the result
    for the two fields of the time.  [CURLINFO_CONTENT_LENGTH_DOWNLOAD] is a whole number. *)
Record libcurl (U : Type) := Libcurl {
  curl_easy_init : bytes → option U;
  curl_multi_init : U → bool * U;
  curl_easy_setopt : curl_option → U → Z * U;
  curl_easy_strerror : Z → bytes;
  curl_multi_strerror : Z → bytes;
  curl_multi_add_handle : U → Z * U;
  curl_multi_perform : U → (Z * Z * list bytes) * U;
  curl_multi_fdset : U → (Z * Z) * U;
  curl_multi_timeout : U → (Z * Z) * U;
  curl_select : Z → Z * Z → U → Z * U;
  curl_usleep : Z → U → U;
  curl_errno : U → Z;
  info_effective_url : U → bytes;
  info_response_code : U → Z;
  info_primary_ip : U → bytes;
  info_primary_port : U → Z;
  info_filetime : U → Z;
  info_content_length : U → Z
}.
Arguments curl_easy_init {U}. Arguments curl_multi_init {U}. Arguments curl_easy_setopt {U}. Arguments curl_easy_strerror {U}.
Arguments curl_multi_strerror {U}. Arguments curl_multi_add_handle {U}. Arguments curl_multi_perform {U}.
Arguments curl_multi_fdset {U}. Arguments curl_multi_timeout {U}. Arguments curl_select {U}. Arguments curl_usleep {U}.
Arguments curl_errno {U}. Arguments info_effective_url {U}. Arguments info_response_code {U}. Arguments info_primary_ip {U}.
Arguments info_primary_port {U}. Arguments info_filetime {U}. Arguments info_content_length {U}.

Definition CURLE_OK : Z := 0.
Definition CURLM_OK : Z := 0.

(** ** The source *)

(** The three fields for the buffer of [read] are only set while it runs: the room, and
    what has been written; [us_http_date] and [us_file_size] have no value before the
    first data.
    Source: lib/cxxll/url_source.cpp 38-82, url_source::impl. *)
Record url_source (U : Type) := UrlSource {
  us_url : bytes;
  us_effective_url : bytes;
  us_curl : U;
  us_buffer_length : Z;
  us_buffer : bytes;
  us_pending : bytes;
  us_pending_pos : Z;
  us_http_date : Z;
  us_file_size : Z;
  us_connected : bool;
  us_before_data : bool;
  us_write_callback : bool
}.
Arguments UrlSource {U}. Arguments us_url {U}. Arguments us_effective_url {U}. Arguments us_curl {U}.
Arguments us_buffer_length {U}. Arguments us_buffer {U}. Arguments us_pending {U}. Arguments us_pending_pos {U}.
Arguments us_http_date {U}. Arguments us_file_size {U}. Arguments us_connected {U}. Arguments us_before_data {U}.
Arguments us_write_callback {U}.

Section UrlSource.
Context {U : Type} (lc : libcurl U).
Abbreviation us := (url_source U).

Definition with_curl (u : U) (x : us) : us :=
  UrlSource (us_url x) (us_effective_url x) u (us_buffer_length x) (us_buffer x) (us_pending x) (us_pending_pos x)
    (us_http_date x) (us_file_size x) (us_connected x) (us_before_data x) (us_write_callback x).
Definition with_connected (x : us) : us :=
  UrlSource (us_url x) (us_effective_url x) (us_curl x) (us_buffer_length x) (us_buffer x) (us_pending x) (us_pending_pos x)
    (us_http_date x) (us_file_size x) true (us_before_data x) (us_write_callback x).
Definition with_buffer (len : Z) (buf pending : bytes) (pos : Z) (cb : bool) (x : us) : us :=
  UrlSource (us_url x) (us_effective_url x) (us_curl x) len buf pending pos
    (us_http_date x) (us_file_size x) (us_connected x) (us_before_data x) cb.

(** The flag has no value yet; the two handles can fail.
    Source: lib/cxxll/url_source.cpp 84-91, url_source::impl::impl. *)
Definition url_source_new (url : bytes) : res us :=
  match curl_easy_init lc url with
  | None => Throw bad_alloc
  | Some u =>
      let '(ok, u) := curl_multi_init lc u in
      if ok then Ok (UrlSource url [] u 0 [] [] 0 0 0 false true false) else Throw bad_alloc
  end.

Definition url_error (message : bytes) (x : us) : exn := curl_exception (with_url (us_url x) (curl_error message)).

(** One [curl_easy_setopt] with its check. *)
Definition setopt (o : curl_option) : sx us unit := λ x,
  let '(ret, u) := curl_easy_setopt lc o (us_curl x) in
  let x := with_curl u x in
  if negb (ret =? CURLE_OK) then (Throw (url_error (curl_easy_strerror lc ret) x), x) else (Ok tt, x).
(** Source: lib/cxxll/url_source.cpp 144-195, url_source::impl::connect. *)
Definition set_options (url : bytes) : sx us unit :=
  setopt (CURLOPT_URL url);;
  setopt CURLOPT_NOSIGNAL;;
  setopt CURLOPT_REDIR_PROTOCOLS;;
  setopt CURLOPT_FOLLOWLOCATION;;
  setopt CURLOPT_FILETIME;;
  setopt CURLOPT_WRITEFUNCTION;;
  setopt CURLOPT_WRITEDATA;;
  setopt (CURLOPT_USERAGENT (str "symboldb/0.0"));;
  setopt (CURLOPT_CONNECTTIMEOUT 30);;
  setopt (CURLOPT_LOW_SPEED_LIMIT 500);;
  setopt (CURLOPT_LOW_SPEED_TIME 60).
(** Source: lib/cxxll/url_source.cpp 197-202, url_source::impl::connect. *)
Definition add_handle : sx us unit := λ x,
  let '(mret, u) := curl_multi_add_handle lc (us_curl x) in
  let x := with_curl u x in
  if negb (mret =? CURLM_OK) then (Throw (url_error (curl_multi_strerror lc mret) x), x)
  else (Ok tt, with_connected x).
(** Source: lib/cxxll/url_source.cpp 137-203, url_source::impl::connect. *)
Definition impl_connect : sx us unit := λ x,
  if us_connected x then (Ok tt, x) else (set_options (us_url x);; add_handle) x.

(** Source: lib/cxxll/url_source.cpp 101-135, url_source::impl::check. *)
Definition check : sx us unit := λ x,
  if negb (us_before_data x) then (Ok tt, x)
  else
    let u := us_curl x in
    let effective := info_effective_url lc u in
    let with_effective date size before x :=
      UrlSource (us_url x) effective (us_curl x) (us_buffer_length x) (us_buffer x) (us_pending x) (us_pending_pos x)
        date size (us_connected x) before (us_write_callback x) in
    let status := info_response_code lc u in
    if negb (status =? 200) && negb (status =? 0) then
      let remote := with_remote (info_primary_ip lc u) (info_primary_port lc u) in
      (Throw (curl_exception (
         if bool_decide (effective = us_url x) then remote (with_status status (with_url (us_url x) (curl_error [])))
         else remote (with_status status (with_original_url (us_url x) (with_url effective (curl_error [])))))),
       with_effective (us_http_date x) (us_file_size x) true x)
    else (Ok tt, with_effective (info_filetime lc u) (info_content_length lc u) false x).

(** The callback with one piece; what does not fit into the buffer is kept.
    Source: lib/cxxll/url_source.cpp 286-304, url_source::impl::write_function. *)
Definition write_function (ptr : bytes) : sx us unit := λ x,
  let written := zlen (us_buffer x) in
  let remaining := us_buffer_length x - written in
  let to_copy := Z.min (zlen ptr) remaining in
  let x := with_buffer (us_buffer_length x) (us_buffer x ++ ztake to_copy ptr) (us_pending x) (us_pending_pos x) true x in
  if us_pending_pos x =? 0 then
    (Ok tt, with_buffer (us_buffer_length x) (us_buffer x) (us_pending x ++ zdrop to_copy ptr) (us_pending_pos x) true x)
  else (Throw assertion_failure, x).
Fixpoint write_all (pieces : list bytes) : sx us unit :=
  match pieces with [] => mret tt | p :: pieces => write_function p;; write_all pieces end.

(** The two fields of the [timeval]; the division truncates.
    Source: lib/cxxll/url_source.cpp 272-274, url_source::impl::read. *)
Definition select_time (timeout : Z) : Z * Z := (Z.quot timeout 1000, timeout * 1000).

(** Waiting for activity.
    Source: lib/cxxll/url_source.cpp 250-278, url_source::impl::read. *)
Definition wait_activity : sx us unit := λ x,
  let '((ret, max_fd), u) := curl_multi_fdset lc (us_curl x) in
  let x := with_curl u x in
  if negb (ret =? CURLM_OK) then (Throw (url_error (curl_multi_strerror lc ret) x), x)
  else if max_fd <? 0 then (Ok tt, with_curl (curl_usleep lc 10000 (us_curl x)) x)
  else
    let '((ret, timeout), u) := curl_multi_timeout lc (us_curl x) in
    let x := with_curl u x in
    if negb (ret =? CURLM_OK) then (Throw (url_error (curl_multi_strerror lc ret) x), x)
    else
      let '(osret, u) := curl_select lc (max_fd + 1) (select_time timeout) (us_curl x) in
      let x := with_curl u x in
      if osret <? 0 then (Throw (os_exception (curl_errno lc (us_curl x))), x) else (Ok tt, x).

(** Source: lib/cxxll/url_source.cpp 237-279, url_source::impl::read. *)
Fixpoint perform_loop (fuel : nat) (x : us) : option (res unit * us) :=
  match fuel with
  | O => None
  | Datatypes.S fuel =>
      let '((ret, running_handles, pieces), u) := curl_multi_perform lc (us_curl x) in
      let x := with_curl u x in
      match write_all pieces x with
      | (Throw e, x) => Some (Throw e, x)
      | (Ok _, x) =>
          if negb (ret =? CURLM_OK) then Some (Throw (url_error (curl_multi_strerror lc ret) x), x)
          else if us_write_callback x || (running_handles =? 0) then Some (Ok tt, x)
          else
            match wait_activity x with
            | (Throw e, x) => Some (Throw e, x)
            | (Ok _, x) => perform_loop fuel x
            end
      end
  end.

(** What the destructor of [clearer] does. *)
Definition clear_buffer (x : us) : us :=
  with_buffer 0 [] (us_pending x) (us_pending_pos x) (us_write_callback x) x.
(** Source: lib/cxxll/url_source.cpp 205-284, url_source::impl::read. *)
Definition url_source_read (fuel : nat) (x : us) (length : Z) : option (res bytes * us) :=
  if us_pending_pos x <? zlen (us_pending x) then
    let to_copy := Z.min (zlen (us_pending x) - us_pending_pos x) length in
    Some (Ok (ztake to_copy (zdrop (us_pending_pos x) (us_pending x))),
          with_buffer (us_buffer_length x) (us_buffer x) (us_pending x) (us_pending_pos x + to_copy) (us_write_callback x) x)
  else
    let x := with_buffer length [] [] 0 false x in
    match impl_connect x with
    | (Throw e, x) => Some (Throw e, clear_buffer x)
    | (Ok _, x) =>
        match perform_loop fuel x with
        | None => None
        | Some (Throw e, x) => Some (Throw e, clear_buffer x)
        | Some (Ok _, x) =>
            let written := us_buffer x in
            let '(r, x) := check x in
            Some ((_ ← r; Ok written), clear_buffer x)
        end
    end.

(** Source: lib/cxxll/url_source.cpp 323-329, url_source::connect. *)
Definition url_source_connect (fuel : nat) (x : us) : option (res unit * us) :=
  match impl_connect x with
  | (Throw e, x) => Some (Throw e, x)
  | (Ok _, x) =>
      match url_source_read fuel x 0 with
      | None => None
      | Some (r, x) => Some ((_ ← r; Ok tt), x)
      end
  end.

(** Source: lib/cxxll/url_source.cpp 337-344, url_source::http_date. *)
Definition http_date (x : us) : Z := if us_before_data x then -1 else us_http_date x.
(** Source: lib/cxxll/url_source.cpp 346-353, url_source::file_size. *)
Definition file_size (x : us) : Z := if us_before_data x then -1 else us_file_size x.
End UrlSource.

(** ** No data is lost *)

Section Contract.
Context {U : Type} (lc : libcurl U).
Abbreviation us := (url_source U).
(** What the transfer still delivers, and how long the network takes to go on: between
    two rounds without data that number gets smaller. *)
Context (body : U → bytes) (wait : U → nat).
Definition quiet_call (u u' : U) : Prop := body u' = body u ∧ (wait u' <= wait u)%nat.
Record curl_laws : Prop := {
  cl_setopt o u : body (curl_easy_setopt lc o u).2 = body u;
  cl_add u : body (curl_multi_add_handle lc u).2 = body u;
  cl_perform u ret running pieces u' : curl_multi_perform lc u = ((ret, running, pieces), u') → ret = CURLM_OK →
    body u = concat pieces ++ body u' ∧ (running = 0 → body u' = []) ∧
    (pieces ≠ [] → concat pieces = [] → body u = []) ∧ (pieces = [] → running ≠ 0 → (wait u' < wait u)%nat);
  cl_fdset u : quiet_call u (curl_multi_fdset lc u).2;
  cl_timeout u : quiet_call u (curl_multi_timeout lc u).2;
  cl_select n tv u : quiet_call u (curl_select lc n tv u).2;
  cl_usleep n u : quiet_call u (curl_usleep lc n u)
}.
Context (Hlc : curl_laws).

(** What is still to be read. *)
Definition ahead (x : us) : bytes := zdrop (us_pending_pos x) (us_pending x) ++ body (us_curl x).
Definition us_inv (x : us) : Prop := 0 <= us_pending_pos x <= zlen (us_pending x).

Lemma impl_connect_keeps (x : us) : let '(_, x') := impl_connect lc x in
  body (us_curl x') = body (us_curl x) ∧ us_pending x' = us_pending x ∧ us_pending_pos x' = us_pending_pos x ∧
  us_buffer x' = us_buffer x ∧ us_buffer_length x' = us_buffer_length x ∧ us_write_callback x' = us_write_callback x.
Proof using Hlc.
  set (kept (x' : us) := body (us_curl x') = body (us_curl x) ∧ us_pending x' = us_pending x ∧ us_pending_pos x' = us_pending_pos x ∧
    us_buffer x' = us_buffer x ∧ us_buffer_length x' = us_buffer_length x ∧ us_write_callback x' = us_write_callback x).
  assert (Hopt : ∀ o x1, kept x1 → kept (setopt lc o x1).2).
  { intros o x1 Hk. unfold setopt. pose proof (cl_setopt Hlc o (us_curl x1)) as Hb.
    destruct (curl_easy_setopt lc o (us_curl x1)) as [ret u]. cbn in Hb.
    case_match; unfold kept in *; cbn; by rewrite Hb. }
  assert (Hbind : ∀ o (m : sx us unit) x1, kept x1 → (∀ x2, kept x2 → kept (m x2).2) → kept ((setopt lc o;; m) x1).2).
  { intros o m x1 Hk Hm. unfold mbind, sx_bind. pose proof (Hopt o x1 Hk). destruct (setopt lc o x1) as [[[]|e] x2]; [by apply Hm|done]. }
  assert (Hadd : ∀ x1, kept x1 → kept (add_handle lc x1).2).
  { intros x1 Hk. unfold add_handle. pose proof (cl_add Hlc (us_curl x1)) as Hb.
    destruct (curl_multi_add_handle lc (us_curl x1)) as [ret u]. cbn in Hb. case_match; unfold kept in *; cbn; by rewrite Hb. }
  assert (kept (impl_connect lc x).2) as Hk; [|by destruct (impl_connect lc x)].
  unfold impl_connect. destruct (us_connected x); [done|].
  assert (kept (set_options lc (us_url x) x).2) as Hset by (unfold set_options; by repeat (apply Hbind; [done|intros ? ?]); apply Hopt).
  unfold mbind, sx_bind. destruct (set_options lc (us_url x) x) as [[[]|e] x1]; [by apply Hadd|done].
Qed.

Lemma quiet_trans a b c : quiet_call a b → quiet_call b c → quiet_call a c.
Proof using. clear. intros [H1 ?] [H2 ?]. split; [by rewrite H2|lia]. Qed.
Lemma wait_activity_keeps (x : us) : let '(_, x') := wait_activity lc x in
  x' = with_curl (us_curl x') x ∧ quiet_call (us_curl x) (us_curl x').
Proof using Hlc.
  unfold wait_activity. pose proof (cl_fdset Hlc (us_curl x)) as H1.
  destruct (curl_multi_fdset lc (us_curl x)) as [[ret max_fd] u1]. cbn [snd] in H1. cbn [us_curl with_curl].
  destruct (negb (ret =? CURLM_OK)); [by split|]. destruct (max_fd <? 0).
  { split; [done|]. pose proof (cl_usleep Hlc 10000 u1) as H3. by eapply quiet_trans. }
  pose proof (cl_timeout Hlc u1) as H2. destruct (curl_multi_timeout lc u1) as [[ret2 timeout] u2]. cbn [snd] in H2.
  assert (quiet_call (us_curl x) u2) as Hu2 by (by eapply quiet_trans).
  destruct (negb (ret2 =? CURLM_OK)); [by split|]. cbn [us_curl with_curl].
  pose proof (cl_select Hlc (max_fd + 1) (select_time timeout) u2) as H3.
  destruct (curl_select lc (max_fd + 1) (select_time timeout) u2) as [osret u3]. cbn [snd] in H3.
  assert (quiet_call (us_curl x) u3) by (by eapply quiet_trans).
  destruct (osret <? 0); by split.
Qed.

(** While a read runs: the buffer is filled before anything is kept. *)
Definition filling (len : Z) (x : us) : Prop :=
  us_pending_pos x = 0 ∧ us_buffer_length x = len ∧ zlen (us_buffer x) <= len ∧ (zlen (us_buffer x) < len → us_pending x = []).
Lemma write_all_filling len pieces : ∀ x : us, filling len x →
  ∃ x', write_all pieces x = (Ok tt, x') ∧ filling len x' ∧ us_curl x' = us_curl x ∧
    us_buffer x' ++ us_pending x' = us_buffer x ++ us_pending x ++ concat pieces ∧
    us_write_callback x' = us_write_callback x || negb (bool_decide (pieces = [])).
Proof using.
  clear. induction pieces as [|p pieces IH]; intros x Hx.
  { exists x. split_and!; [done..|cbn; by rewrite app_nil_r|rewrite bool_decide_eq_true_2 by done; by rewrite orb_false_r]. }
  destruct Hx as (H1 & H2 & H3 & H4). pose proof (zlen_nonneg p). pose proof (zlen_nonneg (us_buffer x)).
  set (k := Z.min (zlen p) (us_buffer_length x - zlen (us_buffer x))).
  assert (Hstep : write_function p x = (Ok tt, with_buffer (us_buffer_length x) (us_buffer x ++ ztake k p) (us_pending x ++ zdrop k p) 0 true x)).
  { unfold write_function, with_buffer. cbn. by rewrite H1. }
  cbn [write_all]. unfold mbind, sx_bind. rewrite Hstep.
  assert (Hk : zlen (ztake k p) = k) by (apply zlen_ztake_le; lia).
  destruct (IH (with_buffer (us_buffer_length x) (us_buffer x ++ ztake k p) (us_pending x ++ zdrop k p) 0 true x)) as (x' & E & Hf & Hc & Happ & Hcb).
  { split_and!; cbn; [done|done|rewrite zlen_app; lia|]. rewrite zlen_app, Hk. intros Hlt. rewrite H4 by lia.
    apply zdrop_past. lia. }
  exists x'. cbn [with_buffer us_buffer us_pending us_buffer_length us_write_callback us_curl orb] in *.
  rewrite E. split; [done|]. split; [done|]. split; [done|]. split.
  - rewrite Happ. cbn [concat]. destruct (Z.lt_ge_cases (zlen (us_buffer x)) len) as [Hlt|Hge].
    + rewrite (H4 Hlt). cbn [app]. by rewrite <- !app_assoc, (app_assoc (ztake k p)), ztake_zdrop_id.
    + assert (k = 0) as -> by lia. change (ztake 0 p) with (@nil Z). change (zdrop 0 p) with p.
      by rewrite app_nil_r, <- !app_assoc.
  - rewrite Hcb. by rewrite (bool_decide_eq_false_2 (p :: pieces = [])), orb_true_r by done.
Qed.

Lemma perform_loop_spec len : ∀ fuel (x : us), filling len x → us_buffer x = [] → us_pending x = [] → us_write_callback x = false →
  0 <= len → (wait (us_curl x) < fuel)%nat →
  ∃ r x', perform_loop lc fuel x = Some (r, x') ∧ us_pending_pos x' = 0 ∧
  match r with
  | Ok _ => zlen (us_buffer x') <= len ∧ us_buffer x' ++ us_pending x' ++ body (us_curl x') = body (us_curl x) ∧
      (0 < len → us_buffer x' = [] → body (us_curl x) = [])
  | Throw _ => True
  end.
Proof using Hlc.
  induction fuel as [|fuel IH]; intros x Hf Hb Hp Hc Hlen Hfuel; [lia|]. cbn [perform_loop].
  destruct (curl_multi_perform lc (us_curl x)) as [[[ret running] pieces] u] eqn:Eperf.
  destruct (write_all_filling len pieces (with_curl u x) Hf) as (x1 & -> & Hf1 & Hu & Happ & Hcb).
  cbn [with_curl us_buffer us_pending us_write_callback us_curl] in *. rewrite Hb, Hp, Hc in *. cbn [app orb] in *.
  destruct (Z.eqb_spec ret CURLM_OK) as [Hret|Hret]; cbn [negb].
  2:{ eexists _, _. split; [reflexivity|]. split; [by destruct Hf1|done]. }
  destruct (cl_perform Hlc _ _ _ _ _ Eperf Hret) as (Hbody & Hend & Hempty & Hwait).
  destruct (us_write_callback x1 || (running =? 0)) eqn:Edone.
  - eexists _, _. split; [reflexivity|]. destruct Hf1 as (H1 & H2 & H3 & H4). split; [done|]. split; [done|]. split.
    + rewrite app_assoc, Happ, Hu. done.
    + intros Hpos Hnil. rewrite Hnil in H4, Happ. change (zlen (@nil Z)) with 0 in H4. rewrite (H4 Hpos) in Happ. cbn in Happ.
      destruct (decide (pieces = [])) as [->|Hne]; [|by apply Hempty].
      rewrite Hcb, bool_decide_eq_true_2 in Edone by done. cbn in Edone. zbool. cbn in Hbody. rewrite Hbody. by apply Hend.
  - apply orb_false_iff in Edone as [Ecb Erun]. zbool. rewrite Hcb in Ecb. apply negb_false_iff, bool_decide_eq_true in Ecb as ->.
    cbn in Happ. apply app_nil in Happ as [Hb1 Hp1]. specialize (Hwait eq_refl ltac:(done)).
    pose proof (wait_activity_keeps x1) as Hw. destruct (wait_activity lc x1) as [[[]|e] x2].
    2:{ eexists _, _. split; [reflexivity|]. destruct Hw as [-> _]. cbn. split; [by destruct Hf1|done]. }
    destruct Hw as [Hx2 [Hq1 Hq2]]. rewrite Hu in *.
    destruct (IH x2) as (r & x' & E & Hpos & Hr); [by rewrite Hx2|by rewrite Hx2|by rewrite Hx2|by rewrite Hx2; cbn; rewrite Hcb|done|lia|].
    exists r, x'. split; [done|]. split; [done|]. destruct r as [[]|e]; [|done]. cbn in Hbody. rewrite Hbody, <- Hq1. done.
Qed.

Lemma check_keeps (x : us) : let '(r, x') := check lc x in
  us_curl x' = us_curl x ∧ us_pending x' = us_pending x ∧ us_pending_pos x' = us_pending_pos x ∧ us_buffer x' = us_buffer x ∧
  (is_ok r = true → us_before_data x' = false).
Proof using.
  clear. unfold check. destruct (us_before_data x) eqn:E; cbn [negb]; [|done].
  destruct (negb (info_response_code lc (us_curl x) =? 200) && negb (info_response_code lc (us_curl x) =? 0)); by split_and!.
Qed.

Lemma url_source_read_next (x : us) (len : Z) : us_inv x → 0 <= len →
  ∃ u, ∀ fuel, (wait u < fuel)%nat → ∃ r x', url_source_read lc fuel x len = Some (r, x') ∧ us_inv x' ∧
    match r with
    | Ok p => ahead x = p ++ ahead x' ∧ zlen p <= len ∧ (0 < len → p = [] → ahead x = []) ∧
        (us_pending_pos x < zlen (us_pending x) ∨ us_before_data x' = false)
    | Throw _ => True
    end.
Proof using Hlc.
  intros Hinv Hlen. unfold url_source_read. unfold us_inv in Hinv. destruct (Z.ltb_spec (us_pending_pos x) (zlen (us_pending x))) as [Hlt|Hge].
  - exists (us_curl x). intros fuel _. eexists _, _. split; [reflexivity|].
    set (k := Z.min (zlen (us_pending x) - us_pending_pos x) len). set (d := zdrop (us_pending_pos x) (us_pending x)).
    assert (Hd : zlen d = zlen (us_pending x) - us_pending_pos x) by (by apply zlen_zdrop_le).
    assert (Hk : zlen (ztake k d) = k) by (apply zlen_ztake_le; lia).
    split; [unfold us_inv; cbn; lia|]. unfold ahead. cbn. split_and!; [|lia| |by left].
    + rewrite app_assoc. f_equal. fold d. rewrite <- (ztake_zdrop_id k d) at 1. f_equal. unfold d. rewrite zdrop_zdrop by lia. f_equal; lia.
    + intros Hpos Hnil. rewrite Hnil in Hk. change (zlen (@nil Z)) with 0 in Hk. lia.
  - set (x0 := with_buffer len [] [] 0 false x).
    pose proof (impl_connect_keeps x0) as Hc. destruct (impl_connect lc x0) as [[[]|e] x1] eqn:Ec.
    2:{ exists (us_curl x). intros fuel _. eexists _, _. split; [reflexivity|]. split; [|done].
        destruct Hc as (_ & H2 & H3 & _). unfold us_inv. cbn. rewrite H2, H3. split; [done|apply zlen_nonneg]. }
    destruct Hc as (Hb & Hp & Hpos & Hbuf & Hl & Hcb). cbn in Hb, Hp, Hpos, Hbuf, Hl, Hcb.
    exists (us_curl x1). intros fuel Hfuel.
    destruct (perform_loop_spec len fuel x1) as (r & x2 & -> & Hpos2 & Hr); try done; [|].
    { split_and!; [done|done|rewrite Hbuf; done|done]. }
    destruct r as [[]|e]; [|eexists _, _; split; [reflexivity|]; split; [|done]; unfold us_inv; cbn; rewrite Hpos2; split; [lia|apply zlen_nonneg]].
    destruct Hr as (Hbl & Hcat & Hnil). pose proof (check_keeps x2) as Hk. destruct (check lc x2) as [r x3].
    destruct Hk as (K1 & K2 & K3 & K4 & K5). eexists _, _. split; [reflexivity|].
    split; [unfold us_inv; cbn; rewrite K3, Hpos2; split; [lia|apply zlen_nonneg]|].
    assert (Hahead : ahead x = body (us_curl x1)).
    { unfold ahead. rewrite zdrop_past by lia. cbn. by rewrite Hb. }
    destruct r as [[]|e]; cbn [mbind res_bind]; [|done]. rewrite Hahead. unfold ahead at 1. cbn. rewrite K1, K2, K3, Hpos2.
    change (zdrop 0 (us_pending x2)) with (us_pending x2). split_and!; [done|done|done|right; by apply K5].
Qed.

(** More fuel does not change the outcome. *)
Lemma perform_loop_mono fuel : ∀ fuel' (x : us) v, perform_loop lc fuel x = Some v → (fuel <= fuel')%nat → perform_loop lc fuel' x = Some v.
Proof using.
  induction fuel as [|fuel IH]; [done|]. intros [|fuel'] x v; [lia|]. cbn [perform_loop]. intros E Hf.
  destruct (curl_multi_perform lc (us_curl x)) as [[[ret running] pieces] u].
  destruct (write_all pieces (with_curl u x)) as [[[]|e] x1]; [|done].
  destruct (negb _); [done|]. destruct (_ || _); [done|]. destruct (wait_activity lc x1) as [[[]|e] x2]; [|done].
  apply IH; [done|lia].
Qed.
Lemma url_source_read_mono fuel fuel' (x : us) len v :
  url_source_read lc fuel x len = Some v → (fuel <= fuel')%nat → url_source_read lc fuel' x len = Some v.
Proof using.
  unfold url_source_read. intros E Hf. destruct (_ <? _); [done|]. destruct (impl_connect _ _) as [[[]|e] x1]; [|done].
  destruct (perform_loop lc fuel x1) as [v1|] eqn:El; [|done]. by rewrite (perform_loop_mono _ _ _ _ El Hf).
Qed.
Lemma url_source_reads (x : us) (len : Z) : us_inv x → 0 <= len →
  ∃ n r x', (∀ fuel, (n <= fuel)%nat → url_source_read lc fuel x len = Some (r, x')) ∧ us_inv x' ∧
    match r with
    | Ok p => ahead x = p ++ ahead x' ∧ zlen p <= len ∧ (0 < len → p = [] → ahead x = [])
    | Throw _ => True
    end.
Proof using Hlc.
  intros Hi Hl. destruct (url_source_read_next x len Hi Hl) as [u Hu].
  destruct (Hu (Datatypes.S (wait u)) ltac:(lia)) as (r & x' & E & Hi' & Hr). exists (Datatypes.S (wait u)), r, x'.
  split; [|split; [done|]]; [|by destruct r as [p|e]; [destruct Hr as (? & ? & ? & _)|]].
  intros fuel Hf. by apply (url_source_read_mono _ _ _ _ _ E).
Qed.

End Contract.

(** ** Transfers given by their rounds *)

(** The pieces of each call of [curl_multi_perform], the status and the length the server
    announced. *)
Record script := Script { sc_rounds : list (list bytes); sc_status : Z; sc_length : Z }.
Definition pieces_of (l : list bytes) : list bytes := List.filter (λ p, negb (zlen p =? 0)) l.
Definition script_curl : libcurl script := {|
  curl_easy_init _ := Some (Script [] 200 (-1));
  curl_multi_init u := (true, u);
  curl_easy_setopt _ u := (0, u);
  curl_easy_strerror _ := []; curl_multi_strerror _ := [];
  curl_multi_add_handle u := (0, u);
  curl_multi_perform u :=
    match sc_rounds u with
    | [] => ((0, 0, []), u)
    | l :: rest => ((0, if bool_decide (rest = []) then 0 else 1, pieces_of l), Script rest (sc_status u) (sc_length u))
    end;
  curl_multi_fdset u := ((0, 5), u);
  curl_multi_timeout u := ((0, 200), u);
  curl_select _ _ u := (0, u);
  curl_usleep _ u := u;
  curl_errno _ := 0;
  info_effective_url _ := str "http://h/f"; info_response_code := sc_status; info_primary_ip _ := []; info_primary_port _ := 0;
  info_filetime _ := 1000; info_content_length := sc_length
|}.
Definition script_body (u : script) : bytes := concat (concat (map pieces_of (sc_rounds u))).
Lemma script_laws : curl_laws script_curl script_body (λ u, length (sc_rounds u)).
Proof.
  split; try done. intros [rounds st n] ret running pieces u' E _. destruct rounds as [|l rest]; cbn in E.
  { injection E as <- <- <- <-. split_and!; try done. }
  injection E as <- <- <- <-. unfold script_body. cbn [sc_rounds map concat]. rewrite concat_app. split; [done|]. split; [|split].
  - case_bool_decide as Hr; [by rewrite Hr|done].
  - intros Hne Hnil. exfalso. unfold pieces_of in *. destruct (List.filter _ l) as [|p ps] eqn:Ef; [done|].
    assert (In p (List.filter (λ p, negb (zlen p =? 0)) l)) as Hin by (rewrite Ef; by left).
    apply filter_In in Hin as [_ Hp]. cbn in Hnil. apply app_nil in Hnil as [-> _]. done.
  - intros _ Hr. cbn. lia.
Qed.
Definition started (u : script) : url_source script :=
  UrlSource (str "http://h/f") [] u 0 [] [] 0 0 0 false true false.

Definition scripted_read (x : url_source script) (len : Z) : res bytes * url_source script :=
  match url_source_read script_curl 5 x len with Some r => r | None => (Throw abort_called, x) end.
Definition scripted_connect (x : url_source script) : res unit * url_source script :=
  match url_source_connect script_curl 5 x with Some r => r | None => (Throw abort_called, x) end.

(** Nothing in the first round, then more than is asked for. *)
Definition sample_script : script := Script [[]; [str "ab"; str "cdef"]; [str "g"]] 200 7.

(** The server announced ten octets and the connection broke after three of them. *)
Example broken_transfer_is_an_end :
  let r := scripted_read (started (Script [[str "abc"]] 200 10)) 8 in
  r.1 = Ok (str "abc") ∧ (scripted_read r.2 8).1 = Ok [] ∧ file_size (scripted_read r.2 8).2 = 10.
Proof. split; [|split]; vm_compute; reflexivity. Qed.
(** Nobody listened at the address: there is no status. *)
Example no_connection_is_empty : (scripted_read (started (Script [] 0 (-1))) 8).1 = Ok [].
Proof. vm_compute. reflexivity. Qed.

(** The microseconds for [select] are in range only below one second; [-1], which is
    libcurl for no timeout, is not. *)
Lemma select_time_valid timeout : 0 <= (select_time timeout).2 < 1000000 ↔ 0 <= timeout < 1000.
Proof. cbn. lia. Qed.
