(* ===== verification/Download.v ===== *)
(** * The download cache (lib/symboldb/download_source.cpp, lib/symboldb/repomd_primary_xml.cpp)

    [download] chooses between the copy of a document in the database and the network by
    the cache mode; what is read from the network is stored when its end is reached.
    [primary_xml] is the package list of a repository, downloaded, decompressed and
    compared with its checksum.  The database is that of Database.v, the network that of
    UrlSource.v, decompression that of Gunzip.v.

    [download_only_cache_offline]: with [only_cache], libcurl is not called at all.
    [download_write_through]: what was read to the end of a download is what is stored.
    [primary_xml_verified]: the end of a package list is only reported when the digest of
    everything that was read is the expected one. *)

From S2P Require Import Prelude StringSupport Base16 Hash SourceSink Posix FileCache PgPrivate PgQuery Database UrlSource Gunzip Repomd.

Section Download.
Context `{M : machine} {C : Type} `{L : libpq C} (unescape : bytes → option bytes).
Context {U : Type} (lc : libcurl U).
(** The fuel for the network. *)
Context (fuel : nat).

(** The classes behind the pointer to a source: data of the cache, data of the network,
    and data of the network that goes into the cache; [src] of the last is connected.
    Source: lib/symboldb/download_source.cpp 29-78, download_source. *)
Inductive download_src :=
| database_source (src : vector_source)
| network_source (src : url_source U)
| download_source (url : bytes) (src : url_source U) (buffer : bytes).

Abbreviation St := (dbst C).
Definition dl_db {A} (m : Database.db (C := C) A) : fsx St A := fsx_sx m.
Definition dl_throw {A} (e : exn) : fsx St A := λ s, Some (Throw e, s).
Definition dl_new (url : bytes) : fsx St (url_source U) := λ s, Some (url_source_new lc url, s).
Definition dl_connect (x : url_source U) : fsx St (url_source U) := λ s,
  match url_source_connect lc fuel x with
  | None => None
  | Some (r, x) => Some ((_ ← r; Ok x), s)
  end.

(** Source: lib/symboldb/download_source.cpp 65-76, download_source::read. *)
Definition src_read (x : download_src) (len : Z) : fsx St (bytes * download_src) := λ s,
  match x with
  | database_source src => let '(r, src) := source_read src len in Some ((p ← r; Ok (p, database_source src)), s)
  | network_source src =>
      match url_source_read lc fuel src len with
      | None => None
      | Some (r, src) => Some ((p ← r; Ok (p, network_source src)), s)
      end
  | download_source url src buffer =>
      match url_source_read lc fuel src len with
      | None => None
      | Some (Throw e, _) => Some (Throw e, s)
      | Some (Ok p, src) =>
          if zlen p =? 0 then
            let '(r, s) := url_cache_update url buffer (http_date src) s in
            Some ((_ ← r; Ok (p, download_source url src buffer)), s)
          else Some (Ok (p, download_source url src (buffer ++ p)), s)
      end
  end.

(** Source: lib/symboldb/download_source.cpp 53-57, download_source::download_source. *)
Definition download_source_new (url : bytes) : fsx St download_src :=
  src ← dl_new url;
  src ← dl_connect src;
  mret (download_source url src []).

(** [url] is a C string.
    Source: lib/symboldb/download_source.cpp 81-117, download. *)
Definition download (mode : cache_mode) (url : bytes) : fsx St download_src :=
  match mode with
  | only_cache | always_cache =>
      data ← dl_db (url_cache_fetch unescape url);
      match data with
      | Some data => mret (database_source (vector_source_new data))
      | None =>
          if bool_decide (mode = only_cache) then
            dl_throw (curl_exception (with_url url (curl_error (str "URL not in cache and network access disabled"))))
          else download_source_new url
      end
  | no_cache => src ← dl_new url; mret (network_source src)
  | check_cache =>
      net ← dl_new url;
      net ← dl_connect net;
      if (0 <? http_date net) && (0 <=? file_size net) then
        data ← dl_db (url_cache_fetch_expected unescape url (u64 (file_size net)) (http_date net));
        match data with
        | Some data => mret (database_source (vector_source_new data))
        | None => mret (download_source url net [])
        end
      else mret (download_source url net [])
  end.

Definition dl_read {T} (x : download_src) (len : Z) : fsx (St * T) (bytes * download_src) := λ s,
  match src_read x len s.1 with Some (r, d) => Some (r, (d, s.2)) | None => None end.
Definition dl_write {T} `{SinkOps T} (buf : bytes) : fsx (St * T) unit := λ s,
  let '(r, dst) := sink_write s.2 buf in Some (r, (s.1, dst)).
(** [copy_source_to_sink] for a source that reads with fuel.
    Source: lib/cxxll/source_sink.cpp 27-42, copy_source_to_sink. *)
Fixpoint copy_download {T} `{SinkOps T} (n : nat) (x : download_src) (count : Z) : fsx (St * T) (Z * download_src) :=
  match n return fsx (St * T) (Z * download_src) with
  | O => λ _, None
  | Datatypes.S n =>
      '(buf, x) ← dl_read (T := T) x 8192;
      if negb (zlen buf <=? 8192) then (λ s, Some (Throw assertion_failure, s)) : fsx _ _
      else if zlen buf =? 0 then mret (count, x)
      else
        dl_write (T := T) buf;;
        copy_download (T := T) n x (u64 (count + zlen buf))
  end.
End Download.
Arguments database_source {U}. Arguments network_source {U}. Arguments download_source {U}.

(** ** The package list of a repository *)

(** [url_] and [compressed_] are in [gz_source].
    Source: lib/symboldb/repomd_primary_xml.cpp 34-47, repomd::primary_xml::impl. *)
Record primary_xml (S Z_ N : Type) := PrimaryXml {
  px_url : bytes; px_source : gunzip_source S Z_; px_hash : hash_sink N; px_expected : checksum
}.
Arguments PrimaryXml {S Z_ N}. Arguments px_url {S Z_ N}. Arguments px_source {S Z_ N}. Arguments px_hash {S Z_ N}.
Arguments px_expected {S Z_ N}.

Section PrimaryXml.
Context {S Z_ N : Type} `{SourceOps S} (zl : zlib Z_) (nss_ : nss N).

(** The digest is that of the decompressed data.
    Source: lib/symboldb/repomd_primary_xml.cpp 49-72, repomd::primary_xml::impl::read. *)
Definition primary_xml_read (fuel : nat) (x : primary_xml S Z_ N) (len : Z) : option (res bytes * primary_xml S Z_ N) :=
  match gunzip_read zl fuel (px_source x) len with
  | None => None
  | Some (Throw e, gz) => Some (Throw e, PrimaryXml (px_url x) gz (px_hash x) (px_expected x))
  | Some (Ok buf, gz) =>
      let x := PrimaryXml (px_url x) gz (px_hash x) (px_expected x) in
      if zlen buf =? 0 then
        let expected := px_expected x in
        Some (
          digest ← hash_digest nss_ (px_hash x);
          if negb (bool_decide (digest = csum_value expected)) then
            Throw (curl_exception (curl_error (until_nul (str "compressed data does not match "
              ++ to_string (csum_type expected) ++ str " checksum (actual " ++ base16_encode digest ++ str ", expected "
              ++ base16_encode (csum_value expected) ++ str ")"))))
          else Ok buf, x)
      else
        let '(r, h) := sink_write (SinkOps := hash_sink_write nss_) (px_hash x) buf in
        Some ((_ ← r; Ok buf), PrimaryXml (px_url x) gz h (px_expected x))
  end.

(** Source: lib/symboldb/repomd_primary_xml.cpp 41-47, repomd::primary_xml::impl::impl. *)
Definition primary_xml_open (url : bytes) (expected : checksum) (compressed : S) : res (primary_xml S Z_ N) :=
  gz ← gunzip_source_new zl compressed;
  h ← hash_sink_new nss_ (csum_type expected);
  Ok (PrimaryXml url gz h expected).

(** [find] of a string.
    Source: lib/symboldb/repomd_primary_xml.cpp 87-90, repomd::primary_xml::primary_xml. *)
Definition primary_mode (mode : cache_mode) (p : entry) : cache_mode :=
  let digest := base16_encode (csum_value (en_checksum p)) in
  if (bool_decide (digest = []) || negb (memmem (en_href p) digest)) && bool_decide (mode = always_cache)
  then check_cache else mode.

(** The first entry that fits; [download] may throw.
    Source: lib/symboldb/repomd_primary_xml.cpp 75-101, repomd::primary_xml::primary_xml. *)
Fixpoint find_primary (entries : list entry) : option entry :=
  match entries with
  | [] => None
  | p :: entries =>
      if bool_decide (en_type p = str "primary") && ends_with (en_href p) (str ".xml.gz") then Some p else find_primary entries
  end.
(** Source: lib/symboldb/repomd_primary_xml.cpp 75-101, repomd::primary_xml::primary_xml. *)
Definition primary_xml_new {St} (download : cache_mode → bytes → fsx St S) (rp : repomd) (mode : cache_mode)
    : fsx St (primary_xml S Z_ N) :=
  match find_primary (entries rp) with
  | None => λ s, Some (Throw (runtime_error (base_url rp ++ str ": could not find primary.xml")), s)
  | Some p =>
      let entry_url := url_combine_yum (until_nul (base_url rp)) (until_nul (en_href p)) in
      compressed ← download (primary_mode mode p) (until_nul entry_url);
      fsx_attempt (Some (primary_xml_open entry_url (en_checksum p) compressed))
  end.
End PrimaryXml.

(** ** Without the network *)

(** In the mode of [--no-net], the network is not used: whatever libcurl does, a
    download asks the database once, and either delivers the stored document, which then
    reads in full without touching the database or the network again, or throws. *)
Theorem download_only_cache_offline `{M : machine} {C : Type} `{L : libpq C} (unescape : bytes → option bytes)
    (url : bytes) (s : dbst C) :
  let '(r, s') := url_cache_fetch unescape url s in
  (∀ U (lc : libcurl U) fuel, download unescape lc fuel only_cache url s = Some (
     match r with
     | Ok (Some data) => Ok (database_source (vector_source_new data))
     | Ok None => Throw (curl_exception (with_url url (curl_error (str "URL not in cache and network access disabled"))))
     | Throw e => Throw e
     end, s')) ∧
  ∀ data U (lc : libcurl U) fuel T `(Sink T) (dst : T) n, zlen data < 2 ^ 64 → zlen data < Z.of_nat n →
    ∃ x dst', copy_download lc fuel n (database_source (vector_source_new data)) 0 (s', dst) =
      Some (Ok (zlen data, x), (s', dst')) ∧ received dst' = received dst ++ data.
Proof.
  destruct (url_cache_fetch unescape url s) as [r s'] eqn:E. split.
  - intros U lc fuel. unfold download, dl_db, fsx_sx, mbind, fsx_bind. rewrite E. by destruct r as [[data|]|e].
  - intros data U lc fuel T oT sT dst n Hmax Hn.
    assert (Hloop : ∀ n (src : vector_source) dst count, source_inv src → 0 <= count → count + zlen (remaining src) < 2 ^ 64 →
      zlen (remaining src) < Z.of_nat n → ∃ x dst', copy_download lc fuel n (database_source src) count (s', dst) =
        Some (Ok (count + zlen (remaining src), x), (s', dst')) ∧ received dst' = received dst ++ remaining src).
    { clear -s'. induction n as [|n IH]; intros src dst count Hi Hc Hmax Hn; [pose proof (zlen_nonneg (remaining src)); lia|].
      destruct (source_read_spec src 8192 Hi eq_refl) as (p & src' & Er & Hr & Hlen & Hnil & Hi').
      cbn [copy_download]. unfold mbind, fsx_bind, dl_read, dl_write, src_read. cbn [fst snd]. rewrite Er. cbn [mbind res_bind]. cbn iota beta.
      rewrite (proj2 (Z.leb_le _ _) Hlen). cbn [negb]. destruct (Z.eqb_spec (zlen p) 0) as [Hz|Hz].
      - apply zlen_0_nil in Hz. rewrite (Hnil Hz), app_nil_r. eexists _, dst. split; [|done].
        change (zlen (@nil Z)) with 0. by rewrite Z.add_0_r.
      - destruct (sink_write_spec dst p) as (dst1 & Hw & Hd). cbn [fst snd negb]. rewrite Hw. cbn iota beta. pose proof (zlen_nonneg p). pose proof (zlen_nonneg (remaining src')).
        rewrite Hr, zlen_app in *. assert (u64 (count + zlen p) = count + zlen p) as -> by (apply Z.mod_small; lia).
        destruct (IH src' dst1 (count + zlen p) Hi') as (x & dst' & -> & Hd'); [lia..|].
        exists x, dst'. rewrite Z.add_assoc. split; [done|]. by rewrite Hd', Hd, app_assoc. }
    assert (Hrem : remaining (vector_source_new data) = data) by done.
    destruct (Hloop n (vector_source_new data) dst 0) as (x & dst' & -> & Hd); rewrite ?Hrem; try done.
    exists x, dst'. by rewrite Hrem in *.
Qed.

(** ** What is stored *)

Section WriteThrough.
Context `{M : machine} {C : Type} `{L : libpq C}.
Context {U : Type} (lc : libcurl U) (body : U → bytes) (wait : U → nat) (Hlc : curl_laws lc body wait).

Lemma copy_download_through (url : bytes) {T} `{Sink T} n : ∀ (src : url_source U) (buffer : bytes) (dst : T) count (s : dbst C),
  us_inv src → zlen (ahead body src) < Z.of_nat n →
  ∃ k r s' dst', (∀ fuel, (k <= fuel)%nat → copy_download lc fuel n (download_source url src buffer) count (s, dst) = Some (r, (s', dst'))) ∧
    match r with
    | Ok _ => received dst' = received dst ++ ahead body src ∧
        ∃ date, url_cache_update url (buffer ++ ahead body src) date s = (Ok tt, s')
    | Throw _ => True
    end.
Proof using Hlc.
  induction n as [|n IH]; intros src buffer dst count s Hi Hn; [pose proof (zlen_nonneg (ahead body src)); lia|].
  destruct (url_source_reads lc body wait Hlc src 8192 Hi ltac:(lia)) as (k & r & src' & E & Hi' & Hr).
  cbn [copy_download]. unfold mbind, fsx_bind, dl_read, dl_write, src_read. cbn [fst snd]. destruct r as [p|e]; [|exists k; eexists _, _, _; split; [intros fuel Hf; by rewrite E|done]].
  destruct Hr as (Ha & Hlen & Hnil). rewrite Ha, zlen_app in *. pose proof (zlen_nonneg p). destruct (Z.eqb_spec (zlen p) 0) as [Hz|Hz].
  - pose proof (zlen_0_nil _ Hz) as ->. cbn [app] in *. specialize (Hnil ltac:(lia) eq_refl).
    exists k. destruct (url_cache_update url buffer (http_date src') s) as [[[]|e] s'] eqn:Eu;
      (eexists _, _, _; split; [intros fuel Hf; rewrite (E _ Hf); cbn iota beta; rewrite Hz, Eu; reflexivity|]); [|done].
    cbn. rewrite Hnil, !app_nil_r. split; [done|]. by eexists.
  - destruct (sink_write_spec dst p) as (dst1 & Hw & Hd).
    destruct (IH src' (buffer ++ p) dst1 (u64 (count + zlen p)) s Hi') as (k' & r & s' & dst' & Hk & Hr); [lia|].
    exists (k + k')%nat, r, s', dst'. split.
    + intros fuel Hf. rewrite (E fuel) by lia. rewrite (proj2 (Z.eqb_neq _ _) Hz). cbn iota beta.
      rewrite (proj2 (Z.leb_le _ _) Hlen). cbn [negb]. rewrite (proj2 (Z.eqb_neq _ _) Hz). cbn [fst snd]. rewrite Hw. apply Hk. lia.
    + destruct r as [?|e]; [|done]. by rewrite Hd, <- !app_assoc in Hr.
Qed.

(** C14: The cache is written through: copying a fresh download to any sink returns (the
    network being slow is no obstacle), and if it succeeds, the sink has got all of the
    data of the transfer and the database exactly the same data, for this URL, in one
    [url_cache_update], the only use of the database in the whole copy. *)
Theorem download_write_through (url : bytes) (src : url_source U) {T} `{Sink T} (dst : T) (s : dbst C) n :
  us_inv src → zlen (ahead body src) < Z.of_nat n →
  ∃ k r s' dst', (∀ fuel, (k <= fuel)%nat → copy_download lc fuel n (download_source url src []) 0 (s, dst) = Some (r, (s', dst'))) ∧
    match r with
    | Ok _ => received dst' = received dst ++ ahead body src ∧
        ∃ date, url_cache_update url (ahead body src) date s = (Ok tt, s')
    | Throw _ => True
    end.
Proof using Hlc. intros Hi Hn. exact (copy_download_through url n src [] dst 0 s Hi Hn). Qed.
End WriteThrough.

(** ** The checksum of a package list *)

Section Verified.
Context {S Z_ N : Type} `{Source S} (zl : zlib Z_) (nss_ : nss N).
Context (member : bytes → bytes → Prop) (fresh : Z_ → Prop) (decodes : Z_ → bytes → bytes → Prop)
  (Hzl : zlib_laws zl member fresh decodes).
Context (Hash : hash_type → bytes → bytes) (absorbed : N → hash_type * bytes) (Hnss : nss_ok nss_ Hash absorbed).

(** [so_far] was read, [o] is to come, of a file that is complete or cut. *)
Definition px_at (x : primary_xml S Z_ N) (so_far o : bytes) (c : bool) : Prop :=
  gz_at member decodes (px_source x) o c ∧ sink_holds absorbed (px_hash x) (csum_type (px_expected x)) so_far.

(** C13: A package list is only read to its end if its digest is the expected one: from its
    construction on, every read returns the next octets of the decompressed data; the end
    is reported only at the end of a complete file all of whose octets have the digest of
    the index entry; otherwise the read throws there, or because the file was cut. *)
Theorem primary_xml_verified :
  (∀ url expected src x o c, source_inv src → remaining src ≠ [] → gzip_stream member (remaining src) o c →
     primary_xml_open zl nss_ url expected src = Ok x → px_at x [] o c ∧ px_expected x = expected ∧ px_url x = url) ∧
  ∀ x so_far o c len fuel, px_at x so_far o c → 0 < len < 2 ^ 32 → gz_size (px_source x) + len < Z.of_nat fuel →
  ∃ r x', primary_xml_read zl nss_ fuel x len = Some (r, x') ∧ px_expected x' = px_expected x ∧
  match r with
  | Ok [] => o = [] ∧ c = true ∧ Hash (csum_type (px_expected x)) so_far = csum_value (px_expected x)
  | Ok p => ∃ o', o = p ++ o' ∧ zlen p <= len ∧ px_at x' (so_far ++ p) o' c
  | Throw e => c = false ∧ e = zlib_inflate_exception (str "unexpected end of stream") ∨
      o = [] ∧ Hash (csum_type (px_expected x)) so_far ≠ csum_value (px_expected x)
  end.
Proof using Hzl Hnss.
  split.
  - intros url expected src x o c Hi Hne Hs. unfold primary_xml_open. intros E.
    destruct (gunzip_source_new zl src) as [gz|e] eqn:Egz; [|done]. cbn in E.
    destruct (hash_sink_new_holds nss_ Hash absorbed Hnss (csum_type expected)) as (h & Hh & Hholds). rewrite Hh in E.
    injection E as <-. split; [|done]. split; [|done].
    by eapply (gunzip_start zl member fresh decodes Hzl).
  - intros x so_far o c len fuel [Hgz Hh] Hlen Hfuel. unfold primary_xml_read.
    destruct (gunzip_read_next zl member fresh decodes Hzl (px_source x) o c len fuel Hgz Hlen Hfuel) as (r & gz & -> & Hr).
    destruct r as [p|e]; [|destruct Hr as [-> ->]; eexists _, _; split; [reflexivity|]; split; [done|]; by left].
    destruct Hr as (o' & -> & Hp & Hat & Hend). cbn [px_hash px_expected px_source px_url].
    destruct (Z.eqb_spec (zlen p) 0) as [Hz|Hz].
    + apply zlen_0_nil in Hz. subst p. destruct (Hend ltac:(change (zlen (@nil Z)) with 0; lia)) as [-> ->].
      rewrite (hash_digest_holds nss_ Hash absorbed Hnss _ _ _ Hh). cbn [mbind res_bind].
      eexists _, _. split; [reflexivity|]. split; [done|]. case_bool_decide as Hd; cbn [negb]; [done|]. by right.
    + destruct (hash_write_loop_holds nss_ Hash absorbed Hnss (length p) _ _ so_far p (le_n _) Hh) as (h & Hw & Hh').
      unfold sink_write, hash_sink_write. rewrite Hw. cbn [mbind res_bind]. eexists _, _. split; [reflexivity|]. split; [done|].
      destruct p as [|b p]; [done|]. exists o'. by split_and!.
Qed.
End Verified.

(** ** Concrete runs *)

Definition cached_replies : list (option query_result) := [Some (table 1 [17] [[str "xyz"]]); Some command_ok].
Abbreviation cached_end := (url_cache_fetch (M := x86_64) (λ _, None) (str "http://h/f") (tape_state cached_replies)).2.
(** The document is stored; it is delivered, though libcurl has other data for the URL. *)
Lemma download_only_cache_offline_witness :
  download (M := x86_64) (λ _, None) script_curl 0 only_cache (str "http://h/f") (tape_state cached_replies) =
    Some (Ok (database_source (vector_source_new (str "xyz"))), cached_end) ∧
  (∃ x dst', copy_download (M := x86_64) script_curl 0 9 (database_source (vector_source_new (str "xyz"))) 0 (cached_end, StringSink []) =
    Some (Ok (3, x), (cached_end, dst')) ∧ received dst' = str "xyz") ∧
  fst <$> download (M := x86_64) (λ _, None) script_curl 0 only_cache (str "http://h/g") (tape_state [Some (table 1 [17] [])]) =
    Some (Throw (curl_exception (with_url (str "http://h/g") (curl_error (str "URL not in cache and network access disabled"))))).
Proof.
  split; [|split].
  - exact (proj1 (download_only_cache_offline (M := x86_64) (λ _, None) (str "http://h/f") (tape_state cached_replies)) script script_curl 0%nat).
  - exact (proj2 (download_only_cache_offline (M := x86_64) (λ _, None) (str "http://h/f") (tape_state cached_replies))
      (str "xyz") script script_curl 0%nat string_sink string_sink_write string_sink_ok (StringSink []) 9%nat eq_refl eq_refl).
  - vm_compute. reflexivity.
Defined.

(** The transfer of UrlSource.v, to a string; the row of the URL is new. *)
Definition write_through_run :=
  copy_download (M := x86_64) script_curl 9 9 (download_source (str "http://h/f") (started sample_script) []) 0
    (tape_state [Some (table 1 [23] []); Some command_ok], StringSink []).
Lemma download_write_through_witness :
  (∃ x s', write_through_run = Some (Ok (7, x), (s', StringSink (str "abcdefg"))) ∧
     last (tp_log (server (db_pg s'))) = Some (str "INSERT INTO symboldb.url_cache"
       ++ str " (url, http_time, data, last_change, last_access) VALUES ($1, $2, $3, NOW() AT TIME ZONE"
       ++ str " 'UTC', NOW() AT TIME ZONE 'UTC')", [Some (str "http://h/f" ++ [0]); Some [0; 0; 0; 0; 0; 0; 3; 232]; Some (str "abcdefg")])) ∧
  ∃ k, ∀ fuel, (k <= fuel)%nat → is_Some (copy_download (M := x86_64) script_curl fuel 9
    (download_source (str "http://h/f") (started sample_script) []) 0 (tape_state [Some (table 1 [23] []); Some command_ok], StringSink [])).
Proof.
  split.
  - eexists _, _. split; [vm_compute; reflexivity|vm_compute; reflexivity].
  - destruct (download_write_through (M := x86_64) script_curl script_body (λ u, length (sc_rounds u)) script_laws
      (str "http://h/f") (started sample_script) (StringSink []) (tape_state [Some (table 1 [23] []); Some command_ok]) 9)
      as (k & r & s' & dst' & Hk & _).
    { unfold us_inv. by cbn. }
    { vm_compute. reflexivity. }
    exists k. intros fuel Hf. rewrite (Hk fuel Hf). by eexists.
Defined.

(** A list in one gzip member of [toy_zlib], with the digest of its contents and with that
    of the compressed file. *)
Definition px_list : bytes := str "<metadata/>".
Definition px_file : bytes := zlen px_list :: px_list.
Definition px_sum (d : bytes) : checksum := Checksum (toy_H sha256 d) (-1) sha256.
Definition px_run (expected : checksum) : option (res bytes * res bytes) :=
  match primary_xml_open toy_zlib toy_nss (str "u") expected (string_source_new px_file) with
  | Throw e => Some (Throw e, Throw e)
  | Ok x =>
      match primary_xml_read toy_zlib toy_nss 30 x 12 with
      | None => None
      | Some (r, x) => '(r', x) ← primary_xml_read toy_zlib toy_nss 30 x 12; Some (r, r')
      end
  end.
Lemma primary_xml_verified_witness :
  px_run (px_sum px_list) = Some (Ok px_list, Ok []) ∧
  (∃ e, px_run (px_sum px_file) = Some (Ok px_list, Throw e)) ∧
  ∃ x r x', primary_xml_open toy_zlib toy_nss (str "u") (px_sum px_list) (string_source_new px_file) = Ok x ∧
    primary_xml_read toy_zlib toy_nss 30 x 12 = Some (r, x') ∧ px_expected x' = px_sum px_list.
Proof.
  split; [vm_compute; reflexivity|]. split; [eexists; vm_compute; reflexivity|].
  destruct (primary_xml_verified (S := string_source) toy_zlib toy_nss toy_member toy_fresh toy_decodes toy_zlib_laws
    toy_H Datatypes.id toy_nss_ok) as [Hopen Hread].
  assert (Hs : gzip_stream toy_member px_file px_list true).
  { rewrite <- (app_nil_r px_file), <- (app_nil_r px_list). apply gzip_member; [done|constructor]. }
  destruct (primary_xml_open toy_zlib toy_nss (str "u") (px_sum px_list) (string_source_new px_file)) as [x|e] eqn:Ex;
    [|by vm_compute in Ex].
  destruct (Hopen (str "u") (px_sum px_list) (string_source_new px_file) x px_list true) as (Hat & He & _);
    [by vm_compute|done|exact Hs|exact Ex|].
  destruct (Hread x [] px_list true 12 30%nat Hat) as (r & x' & Hr & Hx & _); [done|vm_compute in Ex; by injection Ex as <-|].
  exists x, r, x'. split; [done|]. split; [exact Hr|]. by rewrite Hx, He.
Defined.
