(* ===== verification/RepoAccess.v ===== *)
(** * Reading a repository

    What the commands need of a repository: its index (Repomd.v), its package list
    (Download.v opens and checks it) and the packages on it one after the other
    (Primary.v).  [repositories] is the interface that DownloadRepo.v and ShowSource.v are
    written against; [xml_repositories] implements it with these components, for any
    downloads and any XML parser. *)

From S2P Require Import Prelude Hash SourceSink FileCache RpmInfo Xml Minidom Repomd Primary Gunzip Download.

(** [W] is the state of the program, [P] an open package list, that is the objects
    [primary_xml] and [primary]. *)
Record repositories (W P : Type) := Repositories {
  ra_acquire : cache_mode → bytes → fsx W repomd;
  ra_open : repomd → cache_mode → fsx W P;
  ra_next : P → fsx W (bool * P);
  ra_package : P → primary;
  ra_url : P → bytes
}.
Arguments Repositories {W P}. Arguments ra_acquire {W P}. Arguments ra_open {W P}. Arguments ra_next {W P}.
Arguments ra_package {W P}. Arguments ra_url {W P}.

Section Implementation.
Context {W Src X Px : Type} `{XmlOps X}.
(** [download], [primary_xml::primary_xml] and [primary_xml::url], and the parser on a
    document and on a package list. *)
Context (download : cache_mode → bytes → fsx W Src) (open_px : repomd → cache_mode → fsx W Px) (px_name : Px → bytes)
  (expat_source : Src → X) (expat_px : Px → X) (fuel : nat).

(** Source: lib/symboldb/repomd.cpp 137-152, repomd::acquire. *)
Definition xml_acquire (mode : cache_mode) (url : bytes) : fsx W repomd := λ w,
  match download mode (until_nul (base_canon url ++ str "repodata/repomd.xml")) w with
  | None => None
  | Some (r, w) =>
      match acquire (λ _, r) expat_source fuel (Repomd [] [] []) url with
      | None => None
      | Some (r, rp) => Some ((_ ← r; Ok rp), w)
      end
  end.
(** [base] is the C string of [rp.base_url].
    Source: lib/symboldb/repomd_primary.cpp 210-213, repomd::primary::primary. *)
Definition xml_open (rp : repomd) (mode : cache_mode) : fsx W (X * primary * bytes) := λ w,
  match open_px rp mode w with
  | None => None
  | Some (Throw e, w) => Some (Throw e, w)
  | Some (Ok px, w) =>
      match primary_new fuel (until_nul (base_url rp)) (expat_px px, Primary [] rpm_package_info_new [] checksum_new) with
      | None => None
      | Some (r, p) => Some ((_ ← r; Ok (p, px_name px)), w)
      end
  end.
(** Source: lib/symboldb/repomd_primary.cpp 219-223, repomd::primary::next. *)
Definition xml_next (p : X * primary * bytes) : fsx W (bool * (X * primary * bytes)) := λ w,
  match primary_next fuel p.1 with
  | None => None
  | Some (r, q) => Some ((b ← r; Ok (b, (q, p.2))), w)
  end.
Definition xml_repositories : repositories W (X * primary * bytes) :=
  Repositories xml_acquire xml_open xml_next (λ p, p.1.2) snd.
End Implementation.
