(* ===== verification/RpmLoad.v ===== *)
(** * Loading packages (lib/symboldb/rpm_load.cpp)

    The composition: the parser of RpmParser.v delivers the files of a package, their contents
    are checked, recognised and analysed, and everything goes into the database, in one
    transaction.  The state has the database, the parser, the Python analyzer, the kernel
    and the text on standard error.

    [rpm_load_verified] is the point of the checks: a package that is loaded has the
    expected checksum, and what was hashed is what the file contains; a file whose
    contents do not have the digest of the header is not added ([add_files_verified]). *)

From S2P Require Import Prelude StringSupport Base16 Binary Hash SourceSink Posix OsException FileCache Subprocess PythonAnalyzer JavaClass PgPrivate PgQuery RpmInfo RpmParser Xml Expat Maven Database ElfImage ZipFile.

(** ** Recognising files *)

(** Source: lib/symboldb/rpm_load.cpp 106-114, is_elf. *)
Definition is_elf (data : bytes) : bool := (4 <? zlen data) && bool_decide (ztake 4 data = [127; 69; 76; 70]).

(** Source: lib/symboldb/rpm_load.cpp 192-197, is_python. *)
Definition is_python (data : bytes) : bool :=
  (10 <? zlen data) && bool_decide (zget data 0 = Some 35) && memmem (ztake (Z.min (zlen data) 100) data) (str "python").
(** Source: lib/symboldb/rpm_load.cpp 199-203, is_python_path. *)
Definition is_python_path (info : rpm_file_info) : bool := ends_with (fi_name info) (str ".py").

(** Source: lib/symboldb/rpm_load.cpp 262-262, FILE_CONTENTS_PREVIEW_SIZE. *)
Definition FILE_CONTENTS_PREVIEW_SIZE : Z := 64.
(** Source: lib/symboldb/rpm_load.cpp 264-289, keep_full_contents. *)
Definition keep_full_contents (info : rpm_file_info) : bool :=
  let path := fi_name info in
  starts_with path (str "/etc/")
  || starts_with path (str "/usr/lib/binfmt.d/")
  || starts_with path (str "/usr/lib/sysctl.d/")
  || starts_with path (str "/usr/lib/tmpfiles.d/")
  || starts_with path (str "/usr/lib/udev/rules.d/")
  || starts_with path (str "/usr/share/dbus-1/services/")
  || starts_with path (str "/usr/share/dbus-1/system-services/")
  || starts_with path (str "/usr/share/polkit-1/actions/")
  || starts_with path (str "/usr/share/polkit-1/rules.d/")
  || ends_with path (str ".conf")
  || ends_with path (str ".desktop")
  || ends_with path (str ".pkla")
  || ends_with path (str ".policy")
  || ends_with path (str ".protocol")
  || ends_with path (str ".service")
  || ends_with path (str ".spec").

(** Source: lib/symboldb/rpm_load.cpp 291-303, check_any. *)
Fixpoint check_any (infos : list rpm_file_info) (func : rpm_file_info → bool) : bool :=
  match infos with
  | [] => false
  | p :: infos => if func p then true else check_any infos func
  end.

(** Source: lib/symboldb/rpm_load.cpp 305-317, update_contents_preview. *)
Definition preview_of (file : rpm_file_entry) : bytes :=
  if check_any (fe_infos file) keep_full_contents then fe_contents file
  else
    let restricted_size := Z.min FILE_CONTENTS_PREVIEW_SIZE (zlen (fe_contents file)) in
    ztake restricted_size (fe_contents file).

(** [rpm_path] is a C string.
    Source: lib/symboldb/rpm_load.cpp 319-333, check_digest. *)
Definition check_digest (rpm_path file : bytes) (actual expected : checksum) : res unit :=
  if negb (bool_decide (csum_value actual = csum_value expected)) then
    Throw (runtime_error (rpm_path ++ str ": digest mismatch for " ++ file ++ str " (actual "
      ++ base16_encode (csum_value actual) ++ str ", expected " ++ base16_encode (csum_value expected) ++ str ")"))
  else Ok tt.

Section Prepare.
Context {N : Type} (nss_ : nss N).
(** The digest and the preview; the entry has at least one name.
    Source: lib/symboldb/rpm_load.cpp 335-356, prepare_load. *)
Definition prepare_load (rpm_path : bytes) (file : rpm_file_entry) (info : rpm_file_info) : res (bytes * bytes) :=
  value ← hash nss_ sha256 (fe_contents file);
  let csum := Checksum value no_length sha256 in
  (if bool_decide (csum_type (fi_digest info) = sha256) then
     check_digest rpm_path (fi_name info) csum (fi_digest info)
   else
     chk_value ← hash nss_ (csum_type (fi_digest info)) (fe_contents file);
     check_digest rpm_path (fi_name info) (Checksum chk_value no_length (csum_type (fi_digest info))) (fi_digest info));;
  Ok (value, preview_of file).
End Prepare.

(** Source: lib/symboldb/rpm_load.cpp 417-421, unpack_files. *)
Definition unpack_files (pkginfo : rpm_package_info) : bool :=
  match pi_kind pkginfo with kind_binary => true | kind_source => false end.

(** ** The computation *)

Record load_state (C S K : Type) := LoadState {
  ls_db : dbst C; ls_rpm : rpm_state (S := S); ls_py : python_analyzer; ls_k : K; ls_err : bytes; ls_info : rpm_package_info
}.
Arguments LoadState {C S K}. Arguments ls_db {C S K}. Arguments ls_rpm {C S K}. Arguments ls_py {C S K}.
Arguments ls_k {C S K}. Arguments ls_err {C S K}. Arguments ls_info {C S K}.

Section Load.
Context `{M : machine} {C : Type} `{L : libpq C} {N : Type} (nss_ : nss N).
(** libelf, libarchive and Expat; the memory behind an image. *)
Context {E D : Type} `{LE : libelf E D} {A : Type} (la : libarchive A) (name_of : string → os_error → os_error)
  (error_constants : list (Z * bytes)) (behind : bytes).
Context {P : Type} (XML_Parse : P → bytes → bool → list (callback * position) * parse_status * P) (parser : P).
(** librpm on its own file, and the memory its arrays are read into. *)
Context {S : Type} (io : rpmio S) (uninitialized : Z → bytes)
  (rpm_open : bytes → S * rpmRC * rpm_header).
Context {K : Type} (os : posix K) (pr : processes K) (PYTHON_SCRIPT : bytes).
Context (opt : symboldb_options).
(** The fuel of the loops over documents, archives, payloads and files. *)
Context (fuel : nat).

Abbreviation St := (load_state C S K).
Definition ld : Type → Type := fsx St.
Definition on_db {X} (m : Database.db (C := C) X) : ld X := λ s,
  let '(r, d) := m (ls_db s) in Some (r, LoadState d (ls_rpm s) (ls_py s) (ls_k s) (ls_err s) (ls_info s)).
Definition on_py {X} (m : sx (python_analyzer * K) X) : ld X := λ s,
  let '(r, (a, k)) := m (ls_py s, ls_k s) in Some (r, LoadState (ls_db s) (ls_rpm s) a k (ls_err s) (ls_info s)).
Definition load_get {X} (f : St → X) : ld X := λ s, Some (Ok (f s), s).
Definition load_res {X} (r : res X) : ld X := λ s, Some (r, s).
Definition load_throw {X} (e : exn) : ld X := λ s, Some (Throw e, s).
(** [fprintf (stderr, ...)] with C strings. *)
Definition stderr_ (text : bytes) : ld unit := λ s,
  Some (Ok tt, LoadState (ls_db s) (ls_rpm s) (ls_py s) (ls_k s) (ls_err s ++ text) (ls_info s)).
Definition cstr (s : bytes) : bytes := until_nul s.
Fixpoint each {X} (f : X → ld unit) (l : list X) : ld unit :=
  match l with [] => mret tt | x :: l => f x;; each f l end.
(** [try { m } catch]: the handler gets the exceptions it is for. *)
Definition catch (m : ld unit) (handler : exn → option (ld unit)) : ld unit := λ s,
  match m s with
  | Some (Throw e, s) => match handler e with Some h => h s | None => Some (Throw e, s) end
  | r => r
  end.

Definition is_verbose : bool := bool_decide (FileCache.output opt = verbose).
Definition is_quiet : bool := bool_decide (FileCache.output opt = quiet).

(** *** ELF files *)

(** Source: lib/symboldb/rpm_load.cpp 66-80, dump_def. *)
Definition dump_def (cid : Z) (elf_path : bytes) (def : elf_symbol_definition) : ld unit :=
  if bool_decide (symbol_name (def_symbol def) = []) then mret tt
  else
    (if is_verbose then
       stderr_ (cstr elf_path ++ str " DEF " ++ cstr (symbol_name (def_symbol def)) ++ str " " ++ cstr (vda_name def)
         ++ str " 0x" ++ hex (def_value def) ++ (if default_version def then str " [default]" else []) ++ [10])
     else mret tt);;
    on_db (add_elf_symbol_definition cid def).
(** Source: lib/symboldb/rpm_load.cpp 82-95, dump_ref. *)
Definition dump_ref (cid : Z) (elf_path : bytes) (ref : elf_symbol_reference) : ld unit :=
  if bool_decide (symbol_name (ref_symbol ref) = []) then mret tt
  else
    (if is_verbose then
       stderr_ (cstr elf_path ++ str " REF " ++ cstr (symbol_name (ref_symbol ref)) ++ str " " ++ cstr (vna_name ref) ++ [10])
     else mret tt);;
    on_db (add_elf_symbol_reference cid ref).
(** The iterators deliver a list and the exception that ends it, if any. *)
Definition end_with (e : option exn) : ld unit := match e with Some e => load_throw e | None => mret tt end.
(** One of the two pointers is set ([ElfImage.symbol_one]).
    Source: lib/symboldb/rpm_load.cpp 126-137, load_elf. *)
Definition load_symbols (cid : Z) (elf_path : bytes) (image : elf_impl E) : ld unit :=
  '(l, e) ← (λ s, match symbols image with Some r => Some (Ok r, s) | None => None end) : ld _;
  each (λ x, match x with inl def => dump_def cid elf_path def | inr ref => dump_ref cid elf_path ref end) l;;
  end_with e.

(** The soname seen so far.
    Source: lib/symboldb/rpm_load.cpp 140-180, load_elf. *)
Fixpoint load_dynamic (cid : Z) (soname_seen : option bytes) (l : list dynamic_entry) : ld (option bytes) :=
  match l with
  | [] => mret soname_seen
  | (type, tag, text, number) :: l =>
      match type with
      | needed => on_db (add_elf_needed cid (cstr text));; load_dynamic cid soname_seen l
      | soname =>
          match soname_seen with
          | Some previous =>
              (if negb (bool_decide (text = previous)) then
                 on_db (add_elf_error cid (cstr (str "duplicate soname ignored: " ++ text
                   ++ str ", previous soname: " ++ previous)))
               else mret tt);;
              load_dynamic cid soname_seen l
          | None => load_dynamic cid (Some text) l
          end
      | rpath => on_db (add_elf_rpath cid (cstr text));; load_dynamic cid soname_seen l
      | runpath => on_db (add_elf_runpath cid (cstr text));; load_dynamic cid soname_seen l
      | other =>
          (if negb (tag =? 0) || negb (number =? 0) then on_db (add_elf_dynamic cid tag number)
           else mret tt);;
          load_dynamic cid soname_seen l
      end
  end.

(** [elf_exception] is caught by value.
    Source: lib/symboldb/rpm_load.cpp 117-188, load_elf. *)
Definition load_elf (cid : Z) (elf_path contents : bytes) : ld unit :=
  catch (
    image ← fsx_attempt (elf_image_new behind contents) : ld _;
    load_symbols cid elf_path image;;
    let '(l, e) := dynamic_section image in
    sonameptr ← load_dynamic cid None l;
    end_with e;;
    on_db (add_elf_image cid image (cstr <$> sonameptr)))
  (λ e, match e with elf_exception message => Some (on_db (add_elf_error cid (cstr message))) | _ => None end).

(** *** Python, XML, Java *)

(** Source: lib/symboldb/rpm_load.cpp 205-236, load_python. *)
Definition load_python (cid : Z) (contents : bytes) : ld unit :=
  done_ ← on_db (has_python_analysis cid);
  if done_ : bool then mret tt
  else
    ok ← on_py (PythonAnalyzer.parse host os pr PYTHON_SCRIPT contents);
    a ← load_get ls_py;
    if negb ok then on_db (add_python_error cid (PythonAnalyzer.error_line a) (cstr (PythonAnalyzer.error_message a)))
    else
      each (λ p, on_db (add_python_import cid (cstr p))) (PythonAnalyzer.imports a);;
      each (λ p, on_db (add_python_attribute cid (cstr p))) (PythonAnalyzer.attributes a);;
      each (λ p, on_db (add_python_function_def cid (cstr p))) (PythonAnalyzer.functions a);;
      each (λ p, on_db (add_python_class_def cid (cstr p))) (PythonAnalyzer.classes a).

(** The URLs found before an error are added.
    Source: lib/symboldb/rpm_load.cpp 238-260, load_xml. *)
Definition load_xml (cid : Z) (contents : bytes) : ld unit := λ s,
  let X := impl (S := vector_source) (P := P) in
  let ops : XmlOps X := expat_ops host XML_Parse in
  match extract (X := X) fuel (impl_new (vector_source_new contents) parser, []) with
  | None => None
  | Some (r, (_, result)) =>
      (match r with
       | Ok _ => mret tt
       | Throw (xml_malformed rep) | Throw (xml_entity_declaration rep) =>
           on_db (add_xml_error cid (xr_message rep) (xr_line rep) (xr_before rep) (xr_after rep))
       | Throw e => load_throw e
       end;;
       each (λ p, on_db (add_maven_url cid p)) result) s
  end.

(** Source: lib/symboldb/rpm_load.cpp 404-410, do_load_formats. *)
Definition load_java (cid : Z) (path contents : bytes) : ld unit :=
  catch (
    jc ← load_res (java_class_new contents);
    on_db (add_java_class nss_ cid jc))
  (λ e, match e with java_class_exception message => Some (on_db (add_java_error cid (cstr message) path)) | _ => None end).

(** Source: lib/symboldb/rpm_load.cpp 364-390, load_zip. *)
Fixpoint load_zip_loop (n : nat) (cid : Z) (zip : A) : ld unit :=
  match n with
  | O => λ _, None
  | Datatypes.S n =>
      match zip_next la name_of zip with
      | (inl false, _) => mret tt
      | (inr e, _) => on_db (add_java_error cid (cstr (OsException.what error_constants e)) [])
      | (inl true, zip) => λ s,
          match zip_data la name_of fuel zip with
          | None => None
          | Some (r, data, zip) =>
              (match r with
               | inl _ => mret tt
               | inr e => on_db (add_java_error cid (cstr (OsException.what error_constants e)) (zip_name la zip))
               end;;
               sig ← load_res (JavaClass.has_signature data);
               (if sig : bool then load_java cid (zip_name la zip) data else mret tt);;
               load_zip_loop n cid zip) s
          end
      end
  end.
(** Source: lib/symboldb/rpm_load.cpp 358-391, load_zip. *)
Definition load_zip (cid : Z) (contents : bytes) : ld unit :=
  zip ← load_res (zip_file_new la contents); load_zip_loop fuel cid zip.

(** *** Files *)

(** [infos] has the names after normalisation.
    Source: lib/symboldb/rpm_load.cpp 393-415, do_load_formats. *)
Definition do_load_formats (cid : Z) (infos : list rpm_file_info) (contents : bytes) : ld unit :=
  let elf_path := match infos with info :: _ => fi_name info | [] => [] end in
  (if is_elf contents then load_elf cid elf_path contents
   else if looks_like_xml contents then load_xml cid contents
   else if is_python contents || check_any infos is_python_path then load_python cid contents
   else
     sig ← load_res (JavaClass.has_signature contents);
     if sig : bool then load_java cid [] contents else mret tt);;
  if zip_has_signature contents then load_zip cid contents else mret tt.

(** The names of the entry are normalised in place. *)
Definition set_infos (infos : list rpm_file_info) : ld unit := λ s,
  let r := ls_rpm s in
  Some (Ok tt, LoadState (ls_db s) (RpmState (rs_p r) (RpmFileEntry infos (fe_contents (rs_file r))) (rs_io r))
    (ls_py s) (ls_k s) (ls_err s) (ls_info s)).

(** The further names of the contents; [before] are the entries in front of them.  The
    test for Python looks at the first name each time.
    Source: lib/symboldb/rpm_load.cpp 447-456, add_files. *)
Fixpoint further_names (pkginfo : rpm_package_info) (pkg cid : Z) (front : rpm_file_info)
    (before infos : list rpm_file_info) (looks_like_python : bool) : ld (list rpm_file_info * bool) :=
  match infos with
  | [] => mret (before, looks_like_python)
  | p :: infos =>
      load_res (assert_ (negb (RpmInfo.ghost p)));;
      let p := normalize_name p in
      set_infos (before ++ p :: infos);;
      aid ← on_db (intern_file_attribute nss_ p);
      on_db (add_file_row pkg (fi_name p) (fi_mtime p) (to_signed 32 (fi_ino p)) cid aid);;
      further_names pkginfo pkg cid front (before ++ [p]) infos
        (looks_like_python || (unpack_files pkginfo && is_python_path front))
  end.

(** After the digest has been checked.
    Source: lib/symboldb/rpm_load.cpp 438-474, add_files. *)
Definition add_checked (pkginfo : rpm_package_info) (pkg : Z) (front : rpm_file_info) (rest : list rpm_file_info)
    (contents digest preview : bytes) : ld unit :=
  let front := normalize_name front in
  set_infos (front :: rest);;
  '(fid, cid, added, contents_length) ← on_db (Database.add_file nss_ pkg front digest preview);
  let looks_like_python := unpack_files pkginfo && is_python_path front in
  '(infos, looks_like_python) ←
    (match rest with
     | [] => mret ([front], looks_like_python)
     | _ =>
         load_res (assert_ (negb (RpmInfo.ghost front)));;
         further_names pkginfo pkg cid front [front] rest looks_like_python
     end : ld (list rpm_file_info * bool));
  (if added : bool then
     if unpack_files pkginfo then do_load_formats cid infos contents else mret tt
   else if looks_like_python : bool then load_python cid contents else mret tt);;
  if u64 contents_length <? zlen preview then on_db (Database.update_contents_preview cid preview) else mret tt.

(** [infos.front ()] needs an entry with a name.
    Source: lib/symboldb/rpm_load.cpp 423-475, add_files. *)
Definition add_files (pkginfo : rpm_package_info) (pkg : Z) (rpm_path : bytes) (file : rpm_file_entry) : ld unit :=
  match fe_infos file with
  | [] => load_throw assertion_failure
  | front :: rest =>
      '(digest, preview) ← load_res (prepare_load nss_ rpm_path file front);
      add_checked pkginfo pkg front rest (fe_contents file) digest preview
  end.

(** *** Packages *)

(** Source: lib/symboldb/rpm_load.cpp 477-486, dependencies. *)
Definition dependencies (pkg : Z) (p : rpm_impl) : ld unit :=
  each (λ d, on_db (add_package_dependency pkg d)) (rp_dependencies p).
(** Source: lib/symboldb/rpm_load.cpp 488-498, scripts. *)
Definition load_scripts (pkg : Z) (p : rpm_impl) : ld unit :=
  each (λ d, on_db (add_package_script pkg d)) (RpmParser.scripts (rp_header p) []).
(** Source: lib/symboldb/rpm_load.cpp 506-511, triggers. *)
Fixpoint trigger_loop (pkg i : Z) (l : list rpm_trigger) : ld unit :=
  match l with
  | [] => mret tt
  | p :: l => on_db (add_package_trigger pkg p i);; trigger_loop pkg (i + 1) l
  end.
(** Source: lib/symboldb/rpm_load.cpp 500-512, triggers. *)
Definition load_triggers (pkg : Z) (p : rpm_impl) : ld unit :=
  l ← load_res (RpmParser.triggers (rp_header p)); trigger_loop pkg 0 l.

(** Source: lib/symboldb/rpm_load.cpp 97-103, lock_rpm. *)
Definition lock_rpm (info : rpm_package_info) : ld advisory_lock := on_db (lock_digest (pi_hash info)).

Definition parser_read_file : ld bool := λ s,
  match RpmParser.read_file io uninitialized behind fuel (ls_rpm s) with
  | None => None
  | Some (r, st) => Some (r, LoadState (ls_db s) st (ls_py s) (ls_k s) (ls_err s) (ls_info s))
  end.

(** Source: lib/symboldb/rpm_load.cpp 546-561, load_rpm_internal. *)
Definition load_entry (pkginfo : rpm_package_info) (pkg : Z) (rpm_path : bytes) (file : rpm_file_entry) : ld unit :=
  match fe_infos file with
  | [] => load_throw assertion_failure
  | [info] =>
      if RpmInfo.is_directory info then on_db (add_directory nss_ pkg info)
      else if is_symlink info then on_db (add_symlink nss_ pkg info)
      else add_files pkginfo pkg rpm_path file
  | _ => add_files pkginfo pkg rpm_path file
  end.
(** Source: lib/symboldb/rpm_load.cpp 545-561, load_rpm_internal. *)
Fixpoint load_entries (n : nat) (pkginfo : rpm_package_info) (pkg : Z) (rpm_path : bytes) : ld unit :=
  match n with
  | O => λ _, None
  | Datatypes.S n =>
      more ← parser_read_file;
      if more : bool then
        file ← load_get (λ s, rs_file (ls_rpm s));
        load_entry pkginfo pkg rpm_path file;;
        load_entries n pkginfo pkg rpm_path
      else mret tt
  end.

(** [printf] shows a missing string as glibc does. *)
Definition show_nevra (p : rpm_impl) : bytes := match nevra p with Some s => cstr s | None => str "(null)" end.
Definition info_line (verb : string) (p : rpm_impl) (rpm_path : bytes) : ld unit :=
  if is_quiet then mret tt
  else stderr_ (str "info: " ++ str verb ++ str " " ++ show_nevra p ++ str " from " ++ rpm_path ++ [10]).

(** Between the construction of the two objects and their destruction.
    Source: lib/symboldb/rpm_load.cpp 520-562, load_rpm_internal. *)
Definition load_parsed (rpm_path : bytes) (p : rpm_impl) : ld Z :=
  let pkginfo := rp_pkg p in
  (λ s, Some (Ok tt, LoadState (ls_db s) (ls_rpm s) (ls_py s) (ls_k s) (ls_err s) pkginfo));;
  l ← lock_rpm pkginfo;
  on_db (unlock l);;
  '(fresh, pkg) ← on_db (intern_package pkginfo);
  if negb (fresh : bool) then info_line "skipping" p rpm_path;; mret pkg
  else
    info_line "loading" p rpm_path;;
    dependencies pkg p;;
    load_scripts pkg p;;
    load_triggers pkg p;;
    load_entries fuel pkginfo pkg rpm_path;;
    mret pkg.

(** The analyzer is destroyed last but one, on an exception too.
    Source: lib/symboldb/rpm_load.cpp 514-563, load_rpm_internal. *)
Definition load_rpm_internal (rpm_path : bytes) : ld Z := λ s,
  let '(fd, rc, header) := rpm_open rpm_path in
  match rpm_parser_new io fd rc header with
  | Throw e => Some (Throw e, s)
  | Ok p =>
      let s := LoadState (ls_db s) (RpmState p (RpmFileEntry [] []) fd) python_analyzer_new (ls_k s) (ls_err s) (ls_info s) in
      match load_parsed rpm_path p s with
      | None => None
      | Some (r, s) =>
          Some (r, LoadState (ls_db s) (ls_rpm s) (ls_py s) (python_analyzer_destroy os pr (ls_py s, ls_k s))
            (ls_err s) (ls_info s))
      end
  end.

(** Both digests of the package file.
    Source: lib/symboldb/rpm_load.cpp 582-590, rpm_load. *)
Definition hash_package (path : bytes) : ld (hash_sink N * hash_sink N) := λ s,
  let with_k k := LoadState (ls_db s) (ls_rpm s) (ls_py s) k (ls_err s) (ls_info s) in
  match hash_sink_new nss_ sha256, hash_sink_new nss_ sha1 with
  | Ok a, Ok b =>
      match fd_open_read_only os path (fd_new, ls_k s) with
      | (Throw e, (_, k)) => Some (Throw e, with_k k)
      | (Ok _, (fd, k)) =>
          let src : SourceOps K := λ k len, fd_source_read (posix_kernel os) fd k len in
          let dst : SinkOps (tee_sink (hash_sink N) (hash_sink N)) :=
            @tee_sink_write _ _ (hash_sink_write nss_) (hash_sink_write nss_) in
          match @copy_source_to_sink _ _ src dst fuel k (TeeSink a b) with
          | None => None
          | Some (r, k, tee) =>
              Some ((_ ← r; Ok (left tee, right tee)), with_k (fd_destroy os (fd, k)))
          end
      end
  | Throw e, _ | _, Throw e => Some (Throw e, s)
  end.

(** [expected] is of this type and its value is another one.
    Source: lib/symboldb/rpm_load.cpp 596-599, rpm_load. *)
Definition check_expected (expected : option checksum) (type : hash_type) (digest : bytes) : res unit :=
  match expected with
  | Some c =>
      if bool_decide (csum_type c = type) && negb (bool_decide (csum_value c = digest)) then
        Throw (runtime_error (str "checksum mismatch"))
      else Ok tt
  | None => Ok tt
  end.

(** Source: lib/symboldb/rpm_load.cpp 565-612, rpm_load. *)
Definition rpm_load (path : bytes) (expected : option checksum) (url : option bytes) : ld Z :=
  (match expected with
   | Some c =>
       if negb (bool_decide (csum_type c = sha256)) && negb (bool_decide (csum_type c = sha1)) then
         load_throw (runtime_error (str "unsupported hash type"))
       else mret tt
   | None => mret tt
   end : ld unit);;
  on_db txn_begin_no_sync;;
  pkg ← load_rpm_internal path;
  '(a, b) ← hash_package path;
  load_res (assert_ (octets a =? octets b));;
  digest ← load_res (hash_digest nss_ a);
  on_db (Database.add_package_digest pkg digest (octets a));;
  load_res (check_expected expected sha256 digest);;
  digest ← load_res (hash_digest nss_ b);
  on_db (Database.add_package_digest pkg digest (octets b));;
  load_res (check_expected expected sha1 digest);;
  (match url with Some url => on_db (Database.add_package_url pkg url) | None => mret tt end : ld unit);;
  on_db txn_commit;;
  mret pkg.

(** ** What is loaded was verified *)

(** What is left to read on a descriptor; every successful call of [read] takes the
    next bytes, and none only at the end. *)
Definition read_law (fd : Z) (rest : K → bytes) : Prop := ∀ k n ret buf k',
  px_read os fd n k = ((ret, buf), k') → 0 <= ret → 0 < n →
  rest k = ztake ret buf ++ rest k' ∧ (zlen (ztake ret buf) = 0 → rest k = []).

Context (H : hash_type → bytes → bytes) (absorbed : N → hash_type * bytes) (Hnss : nss_ok nss_ H absorbed).

Lemma on_db_Ok {X} (m : Database.db (C := C) X) s x s' : on_db m s = Some (Ok x, s') →
  ∃ d, m (ls_db s) = (Ok x, d) ∧ s' = LoadState d (ls_rpm s) (ls_py s) (ls_k s) (ls_err s) (ls_info s).
Proof using. clear. unfold on_db. destruct (m (ls_db s)) as [r d]. intros [= -> <-]. by exists d. Qed.
Lemma load_res_bind {X Y} (r : res X) (f : X → ld Y) s :
  (load_res r ≫= f) s = match r with Ok x => f x s | Throw e => Some (Throw e, s) end.
Proof using. by destruct r. Qed.
Lemma load_res_Ok {X} (r : res X) s x s' : load_res r s = Some (Ok x, s') → r = Ok x ∧ s' = s.
Proof using. by intros [= -> ->]. Qed.

(** The two sinks of a tee get what is read. *)
Lemma copy_hashes fd rest n : read_law fd rest → ∀ k tee count s r k' tee',
  sink_holds absorbed (left tee) sha256 s → sink_holds absorbed (right tee) sha1 s →
  @copy_loop _ _ (λ k len, fd_source_read (posix_kernel os) fd k len)
    (@tee_sink_write _ _ (hash_sink_write nss_) (hash_sink_write nss_)) n k tee count = Some (Ok r, k', tee') →
  sink_holds absorbed (left tee') sha256 (s ++ rest k) ∧ sink_holds absorbed (right tee') sha1 (s ++ rest k).
Proof using Hnss.
  intros Hlaw. induction n as [|n IH]; intros k tee count s r k' tee' Hl Hr Hc; [done|].
  cbn [copy_loop] in Hc. unfold source_read, fd_source_read in Hc. cbn [posix_kernel sys_read] in Hc.
  destruct (px_read os fd 8192 k) as [[ret buf] k1] eqn:Er. destruct (Z.ltb_spec ret 0) as [|Hret]; [done|].
  destruct (Hlaw _ _ _ _ _ Er Hret ltac:(lia)) as [Hk Hnil]. case_match; [done|].
  destruct (Z.eqb_spec (zlen (ztake ret buf)) 0) as [Hz|Hz].
  { injection Hc as <- <- <-. rewrite (Hnil Hz), app_nil_r. done. }
  unfold sink_write, tee_sink_write, sink_write, hash_sink_write in Hc.
  destruct (hash_write_loop_holds nss_ H absorbed Hnss _ (left tee) sha256 s (ztake ret buf) (le_n _) Hl) as (l & El & Hl').
  destruct (hash_write_loop_holds nss_ H absorbed Hnss _ (right tee) sha1 s (ztake ret buf) (le_n _) Hr) as (l' & Er' & Hr').
  rewrite El, Er' in Hc. apply (IH _ _ _ (s ++ ztake ret buf)) in Hc; [|done..].
  by rewrite Hk, app_assoc.
Qed.

Lemma hash_ok t v : hash nss_ t v = Ok (H t v).
Proof using Hnss.
  destruct (hash_sink_new_holds nss_ H absorbed Hnss t) as (h & Hnew & Hh). unfold hash. rewrite Hnew. cbn [mbind res_bind].
  destruct (hash_write_loop_holds nss_ H absorbed Hnss _ h t [] v (le_n _) Hh) as (h' & Hw & Hh').
  unfold sink_write, hash_sink_write. rewrite Hw. by rewrite (hash_digest_holds nss_ H absorbed Hnss _ _ _ Hh').
Qed.
Lemma preview_prefix file : ∃ more, fe_contents file = preview_of file ++ more ∧
  (more = [] ∨ zlen (preview_of file) = FILE_CONTENTS_PREVIEW_SIZE).
Proof using.
  clear. unfold preview_of. case_match; [exists []; rewrite app_nil_r; auto|].
  set (c := fe_contents file). exists (zdrop (Z.min FILE_CONTENTS_PREVIEW_SIZE (zlen c)) c).
  rewrite ztake_zdrop_id. split; [done|]. unfold FILE_CONTENTS_PREVIEW_SIZE. pose proof (zlen_nonneg c).
  destruct (Z.le_gt_cases 64 (zlen c)); [right; rewrite zlen_ztake_le; lia|].
  left. rewrite Z.min_r by lia. apply zdrop_past. lia.
Qed.


(** The contents of the file, as they are when it is opened to be hashed. *)
Context (path data : bytes) (rest : Z → K → bytes) (Hlaw : ∀ fd, read_law fd (rest fd))
  (Hfile : ∀ k fd k', fd_open_read_only os path (fd_new, k) = (Ok tt, (fd, k')) → rest fd k' = data).

Lemma hash_package_holds s a b s' : hash_package path s = Some (Ok (a, b), s') →
  sink_holds absorbed a sha256 data ∧ sink_holds absorbed b sha1 data ∧ ls_db s' = ls_db s.
Proof using Hnss Hlaw Hfile.
  unfold hash_package.
  destruct (hash_sink_new_holds nss_ H absorbed Hnss sha256) as (h & -> & Hh).
  destruct (hash_sink_new_holds nss_ H absorbed Hnss sha1) as (h' & -> & Hh').
  destruct (fd_open_read_only os path (fd_new, ls_k s)) as [[[]|e] [fd k]] eqn:Eo; [|done].
  unfold copy_source_to_sink. destruct (copy_loop fuel k _ 0) as [[[[r|e] k'] tee]|] eqn:Ec; [|done..].
  cbn. intros [= <- <- <-]. apply (copy_hashes fd (rest fd) _ (Hlaw fd) _ (TeeSink h h') _ [] _ _ _ Hh Hh') in Ec as [H1 H2].
  by rewrite (Hfile _ _ _ Eo) in H1, H2.
Qed.
Lemma check_expected_Ok expected t digest u : check_expected expected t digest = Ok u →
  ∀ c, expected = Some c → csum_type c = t → csum_value c = digest.
Proof using. clear. unfold check_expected. intros Hc c -> <-. rewrite bool_decide_eq_true_2 in Hc by done. by case_bool_decide. Qed.

(** C2: A package that [rpm_load] accepts has the checksum that was asked for, over the
    bytes of the file itself: whatever the parser and the server do, when it returns, the
    expected checksum (SHA-256 or SHA-1, any other type is refused) is the digest of what
    the file contains; before the commit, both digests were recorded for the package with
    the length of the file, then the URL, all in the transaction it began. *)
Theorem rpm_load_verified expected url s pkg s' : rpm_load path expected url s = Some (Ok pkg, s') →
  (∀ c, expected = Some c → (csum_type c = sha256 ∨ csum_type c = sha1) ∧ csum_value c = H (csum_type c) data) ∧
  ∃ d0 s1 s2 d3 d4,
    txn_begin_no_sync (ls_db s) = (Ok tt, d0) ∧
    load_rpm_internal path (LoadState d0 (ls_rpm s) (ls_py s) (ls_k s) (ls_err s) (ls_info s)) = Some (Ok pkg, s1) ∧
    Database.add_package_digest pkg (H sha256 data) (u64 (zlen data)) (ls_db s1) = (Ok tt, s2) ∧
    Database.add_package_digest pkg (H sha1 data) (u64 (zlen data)) s2 = (Ok tt, d3) ∧
    match url with Some url => Database.add_package_url pkg url d3 = (Ok tt, d4) | None => d4 = d3 end ∧
    txn_commit d4 = (Ok tt, ls_db s').
Proof using Hnss Hlaw Hfile.
  unfold rpm_load. intros Hl.
  apply fsx_bind_Ok in Hl as ([] & s0 & Htype & Hl). apply fsx_bind_Ok in Hl as ([] & s1 & Hbegin & Hl).
  apply fsx_bind_Ok in Hl as (pkg' & s2 & Hload & Hl). apply fsx_bind_Ok in Hl as ([a b] & s3 & Hhash & Hl).
  apply hash_package_holds in Hhash as (Ha & Hb & Hdb).
  rewrite (hash_digest_holds nss_ H absorbed Hnss _ _ _ Ha), (hash_digest_holds nss_ H absorbed Hnss _ _ _ Hb) in Hl.
  destruct Ha as (_ & _ & Ha), Hb as (_ & _ & Hb). unfold octets in Hl. rewrite Ha, Hb in Hl.
  apply fsx_bind_Ok in Hl as (_ & ? & [_ ->]%load_res_Ok & Hl). apply fsx_bind_Ok in Hl as (? & ? & [[= <-] ->]%load_res_Ok & Hl).
  apply fsx_bind_Ok in Hl as ([] & ? & (d1 & Hadd & ->)%on_db_Ok & Hl).
  apply fsx_bind_Ok in Hl as (? & ? & [Hc1 ->]%load_res_Ok & Hl). apply fsx_bind_Ok in Hl as (? & ? & [[= <-] ->]%load_res_Ok & Hl).
  apply fsx_bind_Ok in Hl as ([] & ? & (d2 & Hadd' & ->)%on_db_Ok & Hl).
  apply fsx_bind_Ok in Hl as (? & ? & [Hc2 ->]%load_res_Ok & Hl).
  apply fsx_bind_Ok in Hl as ([] & s4 & Hurl & Hl). apply fsx_bind_Ok in Hl as ([] & s5 & (d4 & Hcommit & ->)%on_db_Ok & Hl).
  apply fsx_ret_Ok in Hl as [-> ->]. apply on_db_Ok in Hbegin as (d0 & Hbegin & ->). cbn [ls_db] in *.
  assert (Hs0 : s0 = s ∧ ∀ c, expected = Some c → csum_type c = sha256 ∨ csum_type c = sha1).
  { destruct expected as [c|]; [|by injection Htype as ->]. case_bool_decide; [injection Htype as ->; naive_solver|].
    cbn in Htype. case_bool_decide; [injection Htype as ->; naive_solver|done]. }
  destruct Hs0 as [-> Hty]. split.
  - intros c Hexp. split; [by apply Hty|].
    destruct (Hty c Hexp) as [Ht|Ht]; rewrite Ht; [by eapply check_expected_Ok|by eapply check_expected_Ok].
  - exists d0, s2, d1, d2, (ls_db s4). rewrite Hdb in Hadd. split_and!; try done.
    destruct url as [u|]; [apply on_db_Ok in Hurl as (d & Hu & ->)|by injection Hurl as <-]. done.
Qed.
End Load.

(** ** A package *)

(** A kernel with one file, whose state is what is left to read; no processes. *)
Definition one_file (data : bytes) : posix bytes := {|
  px_errno _ := 2; px_open _ _ _ _ := (3, data); px_openat _ _ _ _ k := (-1, k); px_close _ k := (0, k);
  px_mkostemp _ _ k := ((-1, []), k); px_dup _ k := (-1, k); px_dupfd_cloexec _ k := (-1, k);
  px_getfd _ k := (0, k); px_setfd _ _ k := (0, k); px_fsync _ k := (0, k);
  px_read _ n k := ((Z.min n (zlen k), ztake n k), zdrop n k); px_write _ _ k := (-1, k); px_mkdirat _ _ _ k := (-1, k);
  px_unlinkat _ _ _ k := (-1, k); px_renameat _ _ _ _ k := (-1, k); px_fstatat _ _ k := (None, k);
  px_stat _ k := (None, k); px_mkdtemp _ k := (None, k); px_mkdir _ _ k := (-1, k); px_rmdir _ k := (-1, k);
  px_access _ _ k := (-1, k); px_getenv _ _ := None; px_opendir _ k := (None, k); px_fdopendir _ k := (None, k);
  px_readdir _ k := ((None, 0), k); px_closedir _ k := (-1, k); px_dirfd _ _ := -1;
  px_getcwd _ k := (None, k); px_readlink _ _ k := ((-1, []), k); px_realpath _ k := (None, k)
|}.
Definition no_processes : processes bytes := {|
  pr_attr_init k := (1, k); pr_setsigdefault k := (1, k); pr_setsigmask k := (1, k); pr_actions_init k := (1, k);
  pr_add_action _ k := (1, k); pr_pipe2 _ k := ((-1, 0, 0), k); pr_spawn _ _ _ _ old k := ((1, old), k);
  pr_waitpid _ k := ((-1, 0), k); pr_kill _ _ k := (-1, k); pr_environ _ := [];
  WIFEXITED _ := false; WEXITSTATUS _ := 0; WIFSIGNALED _ := false; WTERMSIG _ := 0
|}.
Lemma one_file_law data fd : read_law (one_file data) fd Datatypes.id.
Proof.
  intros k n ret buf k' [= <- <- <-] Hret Hn. unfold Datatypes.id. pose proof (zlen_nonneg k).
  assert (ztake (Z.min n (zlen k)) (ztake n k) = ztake n k) as Ht.
  { unfold ztake. rewrite take_take. destruct (Z.le_gt_cases n (zlen k)); [f_equal; lia|].
    rewrite !take_ge; [done|unfold zlen in *; lia..]. }
  rewrite Ht, ztake_zdrop_id. split; [done|]. intros Hz%zlen_0_nil. unfold ztake in Hz.
  apply take_nil_inv in Hz as [|]; [lia|done].
Qed.

Definition no_archives : libarchive unit := Libarchive unit None (λ _, (0, tt)) (λ _ _, (0, tt)) (λ _, (true, tt))
  (λ _, (1, tt)) (λ _ _, ((0, []), tt)) (λ _, 0) (λ _, []) (λ _, []).

(** A package with one configuration file; it requires and provides something. *)
Definition demo_contents : bytes := str "a = 1" ++ [10].
Definition demo_files : list rpmfi_file :=
  [RpmfiFile (str "/etc/demo.conf") (str "root") (str "root") [] 33188 0 5 0 [] 8 (toy_H sha256 demo_contents) 6 1].
Definition demo_header : rpm_header := RpmHeader (λ tag,
  match tag with
  | TAG_EPOCH | TAG_BUILDTIME | TAG_REQUIREFLAGS | TAG_PROVIDEFLAGS => Some (TdUint32 [0])
  | TAG_SHA1HEADER => Some (TdStrings [str "0123456789abcdef"])
  | TAG_NEVRA => Some (TdStrings [str "demo-0:1-1.noarch"])
  | TAG_TRIGGERSCRIPTS | TAG_OBSOLETENAME | TAG_CONFLICTNAME | TAG_PRETRANS | TAG_PRETRANSPROG | TAG_PREIN | TAG_PREINPROG
  | TAG_POSTINPROG | TAG_PREUN | TAG_PREUNPROG | TAG_POSTUN | TAG_POSTUNPROG | TAG_POSTTRANS
  | TAG_POSTTRANSPROG | TAG_VERIFYSCRIPT | TAG_VERIFYSCRIPTPROG | TAG_SOURCERPM | TAG_PAYLOADCOMPRESSOR => None
  | _ => Some (TdStrings [str "demo"])
  end) 0 (Some demo_files).
Definition demo_payload : bytes := archived_bytes (sample_entry "./etc/demo.conf" demo_contents) ++ sample_trailer.
Definition demo_package : bytes := str "the package file".
Definition demo_open (path : bytes) : bytes * rpmRC * rpm_header := (demo_payload, RPMRC_OK, demo_header).
Definition demo_server (replies : list (option query_result)) : load_state tape bytes bytes :=
  LoadState (tape_state replies) (RpmState (sample_parser []) (RpmFileEntry [] []) []) python_analyzer_new [] []
    rpm_package_info_new.
Abbreviation demo_load expected replies :=
  (@rpm_load x86_64 tape tape_libpq _ toy_nss toy toy_data (toy_libelf sample_image) unit no_archives (λ _ e, e) [] []
    unit (λ _ _ _, ([], status_ok (Position 0 0), tt)) tt bytes list_io sample_uninitialized demo_open
    bytes (one_file demo_package) no_processes [] symboldb_options_new 9 (str "demo.rpm") expected None
    (demo_server replies)).
Definition id_reply (id : Z) : option query_result := Some (table 1 [23] [[store_int ORDER_LITTLE_ENDIAN id]]).
Definition demo_replies : list (option query_result) :=
  [Some command_ok; Some command_ok; Some (table 1 [23] []); id_reply 7;
   Some command_ok; Some command_ok; Some command_ok;
   id_reply 3; Some (table 1 [23; 23; 16; 23] [[store_int ORDER_LITTLE_ENDIAN 11; store_int ORDER_LITTLE_ENDIAN 12;
     [1]; store_int ORDER_LITTLE_ENDIAN 6]]);
   Some (table 0 [23] []); Some command_ok; Some (table 0 [23] []); Some command_ok; Some command_ok].
Definition demo_end (expected : option checksum) : load_state tape bytes bytes :=
  match demo_load expected demo_replies with Some (_, s) => s | None => demo_server [] end.

(** The package is loaded with the right checksum; with the other one nothing is
    committed.  The contents of the file were stored with their SHA-256. *)
Lemma rpm_load_verified_witness :
  let good := Checksum (toy_H sha1 demo_package) 16 sha1 in
  demo_load (Some good) demo_replies = Some (Ok 7, demo_end (Some good)) ∧
  ls_err (demo_end (Some good)) = str "info: loading demo-0:1-1.noarch from demo.rpm" ++ [10] ∧
  last (tp_log (server (db_pg (ls_db (demo_end (Some good)))))) = Some (str "COMMIT", []) ∧
  csum_value good = toy_H sha1 demo_package ∧
  (let bad := Checksum (toy_H sha1 demo_contents) 16 sha1 in
   (fst <$> demo_load (Some bad) demo_replies) = Some (Throw (runtime_error (str "checksum mismatch"))) ∧
   Forall (λ x, x.1 ≠ str "COMMIT") (tp_log (server (db_pg (ls_db (demo_end (Some bad))))))).
Proof.
  intros good.
  assert (Hl : demo_load (Some good) demo_replies = Some (Ok 7, demo_end (Some good))) by (vm_compute; reflexivity).
  split; [exact Hl|]. split; [vm_compute; reflexivity|]. split; [vm_compute; reflexivity|]. split.
  - refine (proj2 (proj1 (rpm_load_verified toy_nss _ _ _ _ _ _ _ _ _ _ _ _ _ _ toy_H Datatypes.id toy_nss_ok
      (str "demo.rpm") demo_package (λ _, Datatypes.id) (one_file_law demo_package) _ (Some good) None _ 7 _ Hl) good eq_refl)).
    by intros k fd k' [= <- <-].
  - split; [vm_compute; reflexivity|]. apply (bool_decide_unpack _). vm_compute. exact I.
Defined.

