(* ===== verification/Regex.v ===== *)
(** * Regular expressions (lib/cxxll/regex_handle.cpp)

    The expressions of POSIX; the C library is a parameter.  What the rest of the program
    uses them for, the names of packages to leave out, is in FileCache.v (the options)
    and DownloadRepo.v (the filter). *)

From S2P Require Import Prelude.

(** <regex.h>: a compiled expression or an error code, the outcome of matching a C string,
    and the message for a code. *)
Record regex_lib (R : Type) := RegexLib {
  regcomp : bytes → Z → Z * R;
  regexec : R → bytes → Z;
  regerror : Z → R → bytes
}.
Arguments regcomp {R}. Arguments regexec {R}. Arguments regerror {R}.
Definition REG_EXTENDED : Z := 1.
Definition REG_NOSUB : Z := 8.
Definition REG_NOMATCH : Z := 1.

Section Regex.
Context {R : Type} (rl : regex_lib R).

(** The message is cut at 1023 octets by [regerror].
    Source: lib/cxxll/regex_handle.cpp 65-71, regex_handle::impl::throw_error. *)
Definition throw_error {A} (code : Z) (rx : R) : res A :=
  Throw (regex_error (ztake 1023 (until_nul (regerror rl code rx))) code).
(** Source: lib/cxxll/regex_handle.cpp 35-42, regex_handle::impl::impl. *)
Definition regex_new (regexp : bytes) : res R :=
  let '(ret, rx) := regcomp rl regexp (Z.lor REG_EXTENDED REG_NOSUB) in
  if negb (ret =? 0) then throw_error ret rx else Ok rx.
(** Source: lib/cxxll/regex_handle.cpp 50-63, regex_handle::impl::match. *)
Definition regex_match (rx : R) (subject : bytes) : res bool :=
  let ret := regexec rl rx subject in
  if ret =? 0 then Ok true
  else if ret =? REG_NOMATCH then Ok false
  else throw_error ret rx.
(** What [symboldb_options::add_exclude_name] sees of the constructor.
    Source: lib/cxxll/regex_handle.cpp 99-104, regex_handle::error::what. *)
Definition regex_problem (regexp : bytes) : option bytes :=
  match regex_new regexp with Throw (regex_error what _) => Some what | _ => None end.
End Regex.
