(* ===== verification/GetFile.v ===== *)
(** * Files by digest (lib/symboldb/get_file.cpp)

    [get_file] asks the database which packages have a file with the given contents, looks
    for one of them in the cache, and copies the contents out of the package.  The query is
    that of Database.v, the cache that of FileCache.v, the package is read by RpmParser.v.

    [get_file_spec]: the rows of the result are tried in order; what is written are the
    contents of the first one found, under its name, in a cached package. *)

From S2P Require Import Prelude Base16 SourceSink Hash Posix FileCache RpmInfo RpmParser PgPrivate PgQuery Database DatabaseSpec RpmLoad.

Record get_state (C K T : Type) := GetState {
  gs_db : dbst C; gs_k : K; gs_fwd : files_with_digest; gs_rfe : rpm_file_entry; gs_target : T
}.
Arguments GetState {C K T}. Arguments gs_db {C K T}. Arguments gs_k {C K T}. Arguments gs_fwd {C K T}.
Arguments gs_rfe {C K T}. Arguments gs_target {C K T}.

Section GetFile.
Context `{M : machine} {C : Type} `{L : libpq C} (unescape : bytes → option bytes).
Context {S : Type} (io : rpmio S) (uninitialized : Z → bytes) (behind : bytes) (rpm_open : bytes → S * rpmRC * rpm_header).
Context {K : Type} (os : posix K) {T : Type} `{SinkOps T}.
(** The fuel for the rows, and for the entries of a package. *)
Context (fuel : nat).

(** Source: lib/symboldb/get_file.cpp 41-50, get_file. *)
Definition digest_kind (size : Z) : option hash_type :=
  if size =? 32 then Some sha256 else if size =? 20 then Some sha1 else None.

(** Source: lib/symboldb/get_file.cpp 54-61, get_file. *)
Fixpoint has_name (infos : list rpm_file_info) (name : bytes) : bool :=
  match infos with
  | [] => false
  | p :: infos => if bool_decide (fi_name p = name) then true else has_name infos name
  end.
(** The contents of the first entry with the name.
    Source: lib/symboldb/get_file.cpp 53-62, get_file. *)
Fixpoint find_entry (n : nat) (name : bytes) (st : rpm_state (S := S)) : option (res (option bytes) * rpm_state (S := S)) :=
  match n with
  | O => None
  | Datatypes.S n =>
      match RpmParser.read_file io uninitialized behind fuel st with
      | None => None
      | Some (Throw e, st) => Some (Throw e, st)
      | Some (Ok false, st) => Some (Ok None, st)
      | Some (Ok true, st) =>
          if has_name (fe_infos (rs_file st)) name then Some (Ok (Some (fe_contents (rs_file st))), st)
          else find_entry n name st
      end
  end.
(** [rfe] is used for one package after the other.
    Source: lib/symboldb/get_file.cpp 51-63, get_file. *)
Definition search_package (path name : bytes) (rfe : rpm_file_entry) : option (res (option bytes) * rpm_file_entry) :=
  let '(fd, rc, header) := rpm_open (until_nul path) in
  match rpm_parser_new io fd rc header with
  | Throw e => Some (Throw e, rfe)
  | Ok p => '(r, st) ← find_entry fuel name (RpmState p rfe fd); Some (r, rs_file st)
  end.

(** The loop; [csum] is overwritten in every round.
    Source: lib/symboldb/get_file.cpp 39-65, get_file. *)
Fixpoint get_file_loop (n : nat) (c : file_cache) (s : get_state C K T) : option (res bool * get_state C K T) :=
  match n with
  | O => None
  | Datatypes.S n =>
      let '(r, f) := files_with_digest_next unescape (gs_fwd s) in
      let s := GetState (gs_db s) (gs_k s) f (gs_rfe s) (gs_target s) in
      match r with
      | Throw e => Some (Throw e, s)
      | Ok false => Some (Ok false, s)
      | Ok true =>
          match digest_kind (zlen (rpm_digest f)) with
          | None => get_file_loop n c s
          | Some type =>
              let '(rpm_path, k) := lookup_path os c (Checksum (rpm_digest f) no_length type) (gs_k s) in
              match rpm_path with
              | None => get_file_loop n c (GetState (gs_db s) k f (gs_rfe s) (gs_target s))
              | Some rpm_path =>
                  match search_package rpm_path (file_name f) (gs_rfe s) with
                  | None => None
                  | Some (Throw e, rfe) => Some (Throw e, GetState (gs_db s) k f rfe (gs_target s))
                  | Some (Ok None, rfe) => get_file_loop n c (GetState (gs_db s) k f rfe (gs_target s))
                  | Some (Ok (Some contents), rfe) =>
                      let '(r, target) := sink_write (gs_target s) contents in
                      Some ((_ ← r; Ok true), GetState (gs_db s) k f rfe target)
                  end
              end
          end
      end
  end.

(** The result is freed and the directory of the cache closed on every way out.
    Source: lib/symboldb/get_file.cpp 30-66, get_file. *)
Definition get_file (opt : symboldb_options) (digest : bytes) (target : T) (d : dbst C) (k : K)
    : option (res bool * (dbst C * K * T)) :=
  match files_with_digest_new digest d with
  | (Throw e, d) => Some (Throw e, (d, k, target))
  | (Ok fwd, d) =>
      match rpm_cache os opt k with
      | (Throw e, k) => Some (Throw e, ((files_with_digest_destroy fwd d).2, k, target))
      | (Ok c, k) =>
          '(r, s) ← get_file_loop fuel c (GetState d k fwd (RpmFileEntry [] []) target);
          Some (r, ((files_with_digest_destroy (gs_fwd s) (gs_db s)).2, file_cache_destroy os c (gs_k s), gs_target s))
      end
  end.
End GetFile.

(** ** What is written *)

Section Spec.
Context `{M : machine} {C : Type} `{L : libpq C} (unescape : bytes → option bytes).
Context {S : Type} (io : rpmio S) (uninitialized : Z → bytes) (behind : bytes) (rpm_open : bytes → S * rpmRC * rpm_header).
Context {K : Type} (os : posix K) {T : Type} `{Sink T} (fuel : nat).

(** [st'] is what the parser delivers some calls of [read_file] after [st]. *)
Inductive delivers : rpm_state (S := S) → rpm_state (S := S) → Prop :=
| delivers_next st st' : RpmParser.read_file io uninitialized behind fuel st = Some (Ok true, st') → delivers st st'
| delivers_later st st1 st' : RpmParser.read_file io uninitialized behind fuel st = Some (Ok true, st1) →
    delivers st1 st' → delivers st st'.
(** The package has an entry with this name and these contents. *)
Definition package_has (path name : bytes) (rfe : rpm_file_entry) (contents : bytes) : Prop :=
  ∃ fd rc header p st, rpm_open (until_nul path) = (fd, rc, header) ∧ rpm_parser_new io fd rc header = Ok p ∧
    delivers (RpmState p rfe fd) st ∧ name ∈ fi_name <$> fe_infos (rs_file st) ∧ fe_contents (rs_file st) = contents.

Lemma has_name_spec infos name : has_name infos name = true ↔ name ∈ fi_name <$> infos.
Proof.
  induction infos as [|p infos IH]; cbn; [split; [done|by intros ?%not_elem_of_nil]|].
  rewrite elem_of_cons. case_bool_decide as Hp; [split; [by left|done]|]. rewrite IH. split; [by right|].
  intros [->|Hin]; [done|exact Hin].
Qed.

(** The first entry with the name, and none if there is none. *)
Lemma find_entry_spec n name : ∀ st r st', find_entry io uninitialized behind fuel n name st = Some (r, st') →
  match r with
  | Ok (Some contents) => delivers st st' ∧ name ∈ fi_name <$> fe_infos (rs_file st') ∧ fe_contents (rs_file st') = contents
  | Ok None => ∀ st1, delivers st st1 → name ∉ fi_name <$> fe_infos (rs_file st1)
  | Throw _ => True
  end.
Proof.
  induction n as [|n IH]; intros st r st'; [done|]. cbn [find_entry].
  destruct (RpmParser.read_file io uninitialized behind fuel st) as [[[[|]|e] st1]|] eqn:E; [| |by intros [= <- <-]|done].
  - destruct (has_name _ name) eqn:En.
    + intros [= <- <-]. apply has_name_spec in En. by split; [apply delivers_next|].
    + intros Hf. specialize (IH _ _ _ Hf). destruct r as [[contents|]|e]; [|intros st2 Hd|done].
      * destruct IH as [Hd ?]. by split; [eapply delivers_later|].
      * assert (name ∉ fi_name <$> fe_infos (rs_file st1)) as Hno by (rewrite <- has_name_spec; congruence).
        inversion Hd as [? ? E2|? ? ? E2 Hd2]; subst; rewrite E in E2; injection E2 as <-; [done|by apply IH].
  - intros [= <- <-] st2 Hd. inversion Hd as [? ? E2|? ? ? E2 Hd2]; subst; congruence.
Qed.

Lemma search_package_spec path name rfe r rfe' :
  search_package io uninitialized behind rpm_open fuel path name rfe = Some (r, rfe') →
  match r with
  | Ok (Some contents) => package_has path name rfe contents
  | Ok None => ∀ contents, ¬ package_has path name rfe contents
  | Throw _ => True
  end.
Proof.
  unfold search_package, package_has. destruct (rpm_open (until_nul path)) as [[fd rc] header].
  destruct (rpm_parser_new io fd rc header) as [p|e] eqn:Ep; [|by intros [= <- <-]].
  destruct (find_entry _ _ _ _ _ _ _) as [[r1 st]|] eqn:Ef; [|done]. intros [= <- <-].
  pose proof (find_entry_spec _ _ _ _ _ Ef) as Hs. destruct r1 as [[contents|]|e]; [| |done].
  - by exists fd, rc, header, p, st.
  - intros contents (fd' & rc' & header' & p' & st' & E1 & E2 & Hd & Hin & _). injection E1 as <- <- <-.
    rewrite Ep in E2. injection E2 as <-. by apply (Hs st').
Qed.

Lemma lookup_path_is c csum k path k' : lookup_path os c csum k = (Some path, k') →
  path = fc_root c ++ base16_encode (csum_value csum).
Proof. unfold lookup_path. destruct (px_fstatat _ _ _ _) as [[st|] k1]; [|done]. destruct (_ && _); [|done]. by intros [= <- <-]. Qed.

(** Where a row is not the one: no digest of a package, not in the cache, or the package
    has no such file. *)
Definition passed_over (c : file_cache) (row : bytes * bytes) : Prop :=
  match digest_kind (zlen row.1) with
  | None => True
  | Some type => ∃ k rfe, (lookup_path os c (Checksum row.1 no_length type) k).1 = None ∨
      ∀ contents, ¬ package_has (fc_root c ++ base16_encode row.1) row.2 rfe contents
  end.

Lemma get_file_rows (r : query_result) (rows : list (bytes * bytes)) c n : ∀ pre rest d0 n0 (s : get_state C K T),
  holds_files r rows → rows ++ [([], [])] = pre ++ rest → (length rest < n)%nat →
  gs_fwd s = FilesWithDigest d0 n0 (Some r) (zlen pre) →
  match get_file_loop unescape io uninitialized behind rpm_open os fuel n c s with
  | None => ∃ path name rfe, search_package io uninitialized behind rpm_open fuel path name rfe = None
  | Some (Ok true, s') => ∃ before d name after rfe contents, rest = before ++ (d, name) :: after ∧
      Forall (passed_over c) before ∧ (zlen d = 32 ∨ zlen d = 20) ∧
      package_has (fc_root c ++ base16_encode d) name rfe contents ∧
      received (gs_target s') = received (gs_target s) ++ contents
  | Some (Ok false, s') => Forall (passed_over c) rest ∧ gs_target s' = gs_target s
  | Some (Throw _, s') => gs_target s' = gs_target s
  end.
Proof.
  induction n as [|n IH]; intros pre rest d0 n0 s Hr Hrows Hn Hf; [lia|].
  assert (Hlen : zlen rows + 1 = zlen pre + zlen rest) by (rewrite <- zlen_app, <- Hrows, zlen_app; done).
  pose proof (zlen_nonneg pre). pose proof (zlen_nonneg rest). cbn [get_file_loop]. rewrite Hf.
  destruct rest as [|[d name] rest].
  { assert (files_with_digest_next unescape (FilesWithDigest d0 n0 (Some r) (zlen pre)) = (Ok false, FilesWithDigest d0 n0 (Some r) (zlen pre))) as ->.
    { unfold files_with_digest_next, mbind, sx_bind, sx_get. cbn [row_ res_]. destruct Hr as (-> & _).
      change (zlen []) with 0 in Hlen. by destruct (Z.leb_spec (zlen pre) (zlen rows)); [lia|]. }
    by split. }
  rewrite zlen_cons in Hlen. pose proof (zlen_nonneg rest). cbn in Hn.
  rewrite (next_row unescape r rows (zlen pre) d name) by (done || lia || (rewrite Hrows; apply zget_app_mid)).
  cbn [rpm_digest file_name rpm_digest_ file_name_ gs_db gs_k gs_fwd gs_rfe gs_target].
  assert (Hpos : zlen pre + 1 = zlen (pre ++ [(d, name)])) by zl.
  assert (Hgo : ∀ k rfe, passed_over c (d, name) →
    match get_file_loop unescape io uninitialized behind rpm_open os fuel n c
      (GetState (gs_db s) k (FilesWithDigest d name (Some r) (zlen pre + 1)) rfe (gs_target s)) with
    | None => ∃ path name rfe, search_package io uninitialized behind rpm_open fuel path name rfe = None
    | Some (Ok true, s') => ∃ before d1 name1 after rfe contents, (d, name) :: rest = before ++ (d1, name1) :: after ∧
        Forall (passed_over c) before ∧ (zlen d1 = 32 ∨ zlen d1 = 20) ∧
        package_has (fc_root c ++ base16_encode d1) name1 rfe contents ∧
        received (gs_target s') = received (gs_target s) ++ contents
    | Some (Ok false, s') => Forall (passed_over c) ((d, name) :: rest) ∧ gs_target s' = gs_target s
    | Some (Throw _, s') => gs_target s' = gs_target s
    end).
  { intros k rfe Hp.
    pose proof (IH (pre ++ [(d, name)]) rest d name (GetState (gs_db s) k (FilesWithDigest d name (Some r) (zlen pre + 1)) rfe (gs_target s))
      Hr ltac:(by rewrite Hrows, <- app_assoc) ltac:(lia) ltac:(by rewrite <- Hpos)) as Hi.
    destruct (get_file_loop _ _ _ _ _ _ _ n c _) as [[[[|]|e] s']|]; try done.
    - destruct Hi as (before & d1 & name1 & after & rfe1 & contents & -> & Hb & Hrest).
      exists ((d, name) :: before), d1, name1, after, rfe1, contents. split; [done|]. split; [by constructor|exact Hrest].
    - destruct Hi as [Hi ->]. split; [by constructor|done]. }
  destruct (digest_kind (zlen d)) as [type|] eqn:Ek; [|apply Hgo; unfold passed_over; cbn; by rewrite Ek].
  destruct (lookup_path os c (Checksum d no_length type) (gs_k s)) as [[path|] k] eqn:El.
  2:{ apply Hgo. unfold passed_over. cbn. rewrite Ek. exists (gs_k s), (gs_rfe s). left. by rewrite El. }
  apply lookup_path_is in El. cbn [csum_value] in El. subst path.
  destruct (search_package _ _ _ _ _ _ _ _) as [[[[contents|]|e] rfe]|] eqn:Es.
  - pose proof (search_package_spec _ _ _ _ _ Es) as Hp.
    destruct (sink_write_spec (gs_target s) contents) as (target & -> & Ht). cbn [mbind res_bind].
    exists [], d, name, rest, (gs_rfe s), contents. split; [done|]. split; [constructor|]. split; [|by split].
    unfold digest_kind in Ek. destruct (Z.eqb_spec (zlen d) 32); [by left|]. destruct (Z.eqb_spec (zlen d) 20); [by right|done].
  - apply Hgo. unfold passed_over. cbn. rewrite Ek. exists (gs_k s), (gs_rfe s). right. exact (search_package_spec _ _ _ _ _ Es).
  - done.
  - by eexists _, _, _.
Qed.

End Spec.

(** ** A concrete run *)

(** The package of RpmLoad.v is in the cache; the first row has a digest of another kind. *)
Definition demo_sum : checksum := Checksum (toy_H sha256 demo_package) no_length sha256.
Definition demo_cache : small := (add_session small_kernel toy_nss sample_cache demo_sum [demo_package] empty_cache).2.
Definition demo_rows : list (bytes * bytes) :=
  [(str "short", str "/etc/demo.conf"); (csum_value demo_sum, str "/etc/demo.conf")].
Definition demo_result : query_result := table 1 [17; 25] ((λ row, [row.1; row.2]) <$> demo_rows).
Lemma demo_holds : holds_files demo_result demo_rows.
Proof.
  split; [reflexivity|]. split; [|split_and!; try reflexivity].
  - intros i d n Hi. unfold zget in Hi. destruct (Z.ltb_spec i 0); [done|].
    destruct (Z.to_nat i) as [|[|]] eqn:Ei; [| |done]; injection Hi as <- <-;
      [assert (i = 0) as -> by lia|assert (i = 1) as -> by lia]; split; by split_and!.
  - intros i col Hi. unfold zget in *. cbn. unfold zget. destruct (i <? 0); [done|]. cbn in *.
    by destruct (Z.to_nat i) as [|[|]].
Qed.
Definition demo_get (rows : query_result) : option (res bool * string_sink) :=
  '(r, s) ← get_file_loop (λ _, None) list_io sample_uninitialized [] demo_open small_kernel 9 4 sample_cache
    (GetState (tape_state []) demo_cache (FilesWithDigest [] [] (Some rows) 0) (RpmFileEntry [] []) (StringSink []));
  Some (r, gs_target s).
