(* ===== verification/DownloadRepo.v ===== *)
(** * Downloading repositories (lib/symboldb/download_repo.cpp)

    The package lists of the repositories are consolidated to one list of packages; helper
    threads look each of them up in the database, find it in the cache or download it, and
    pass it through a bounded queue to the main thread, which loads it; what failed is tried
    again in two more rounds; then the package set is updated.

    [Worker]: what a helper does with one package ([download_url]), on its own connection.
    [Rounds]: the helpers and the main thread as a step relation on the members of
    [downloader], against an interface [loader] of what the work on one package can lead
    to; a call of [push] or [pop] that has to wait is a step that is not possible yet, which
    is justified by [queue_no_lost_wakeup] of Queue.v.
    [Repo]: [symboldb_download_repo] around it.

    [downloads_accounted]: no package is lost or handled twice, whatever the schedule.
    [downloads_finish]: every schedule comes to an end. *)

From S2P Require Import Prelude Base16 Hash SourceSink Posix FileCache RpmInfo RpmParser PgPrivate PgQuery Database UrlSource Download Queue Regex OsException Subprocess PythonAnalyzer Expat ElfImage ZipFile RpmLoad Repomd Primary RepoAccess.

#[local] Set Warnings "-clear-no-such-hyp".

(** Source: lib/symboldb/download_repo.cpp 46-50, rpm_url. *)
Record rpm_url := RpmUrl { ru_name : bytes; ru_href : bytes; ru_csum : checksum }.

(** ** The filter *)

Section Filter.
Context {R : Type} (rl : regex_lib R).
(** The predicate counts what it takes out.
    Source: lib/symboldb/download_repo.cpp 69-78, name_filter::operator(). *)
Definition name_filter (rx : R) (count : Z) (rurl : rpm_url) : res (bool * Z) :=
  b ← regex_match rl rx (until_nul (ru_name rurl));
  if (b : bool) then Ok (true, u64 (count + 1)) else Ok (false, count).
(** [std::remove_if] and [erase].
    Source: lib/symboldb/download_repo.cpp 357-362, symboldb_download_repo. *)
Fixpoint remove_named (rx : R) (count : Z) (urls : list rpm_url) : res (list rpm_url * Z) :=
  match urls with
  | [] => Ok ([], count)
  | u :: urls =>
      '(b, count) ← name_filter rx count u;
      '(rest, count) ← remove_named rx count urls;
      Ok (if (b : bool) then rest else u :: rest, count)
  end.
End Filter.

(** Source: lib/symboldb/download_repo.cpp 103-108, downloader::load_info. *)
Record load_info := LoadInfo { li_url : bytes; li_rpm_path : bytes; li_csum : checksum; li_download : bool }.

(** How [download_url] ends: the package was known, it goes to the queue, or it goes on
    the list of failures. *)
Inductive url_outcome := Skip (pid : Z) | ToLoad (l : load_info) | Failed.

(** ** One package *)

(** The connection of the thread, the system, and what was written to [stderr]. *)
Record world (C K : Type) := World { w_db : dbst C; w_k : K; w_err : bytes }.
Arguments World {C K}. Arguments w_db {C K}. Arguments w_k {C K}. Arguments w_err {C K}.

Section Worker.
Context `{M : machine} {C : Type} `{L : libpq C} (unescape : bytes → option bytes) {N : Type} (nss_ : nss N).
Context {U : Type} (lc : libcurl U) {K : Type} (os : posix K) (opt : symboldb_options) (fuel : nat).

Abbreviation W := (world C K).
Definition w_on_db {A} (m : Database.db (C := C) A) : fsx W A := λ w,
  let '(r, d) := m (w_db w) in Some (r, World d (w_k w) (w_err w)).
Definition w_stderr (text : bytes) : fsx W unit := λ w, Some (Ok tt, World (w_db w) (w_k w) (w_err w ++ text)).

(** The identifier of a package that is already in the database.
    Source: lib/symboldb/download_repo.cpp 242-259, downloader::download_fast_track. *)
Definition download_fast_track (url : rpm_url) : fsx W (option Z) :=
  pid ← w_on_db (package_by_digest (csum_value (ru_csum url)));
  if negb (pid =? 0) then
    (if bool_decide (FileCache.output opt = verbose)
     then w_stderr (str "info: skipping " ++ until_nul (ru_href url) ++ [10]) else mret tt);;
    w_on_db txn_begin_no_sync;;
    w_on_db (add_package_url pid (until_nul (ru_href url)));;
    w_on_db txn_commit;;
    mret (Some pid)
  else mret None.

(** The sink that the source is copied to, with the system it writes to. *)
#[local] Instance add_sink_ops : SinkOps (add_impl N * K) := λ s buf, add_sink_write os nss_ buf s.
(** The body of the [try] block: the sink is destroyed on every way out.
    Source: lib/symboldb/download_repo.cpp 284-289, downloader::download_url. *)
Definition fetch (fcache : file_cache) (url : rpm_url) : fsx W bytes := λ w,
  match add_sink_new os nss_ fcache (ru_csum url) (w_k w) with
  | (Throw e, k) => Some (Throw e, World (w_db w) k (w_err w))
  | (Ok sink, k) =>
      match download unescape lc fuel no_cache (until_nul (ru_href url)) (w_db w) with
      | None => None
      | Some (Throw e, d) => Some (Throw e, World d (add_impl_destroy os fcache sink k) (w_err w))
      | Some (Ok src, d) =>
          match copy_download lc fuel fuel src 0 (d, (sink, k)) with
          | None => None
          | Some (Throw e, (d, (sink, k))) => Some (Throw e, World d (add_impl_destroy os fcache sink k) (w_err w))
          | Some (Ok _, (d, (sink, k))) =>
              let '(r, (sink, k)) := add_sink_finish os nss_ fcache (sink, k) in
              Some (r, World d (add_impl_destroy os fcache sink k) (w_err w))
          end
      end
  end.
(** What the handlers print; other exceptions are not caught.
    Source: lib/symboldb/download_repo.cpp 290-301, downloader::download_url. *)
Definition fetch_error (url : rpm_url) (e : exn) : option bytes :=
  let report problem what := str "error: " ++ problem ++ str " for " ++ until_nul (ru_href url) ++ str ": " ++ what ++ [10] in
  match e with
  | curl_exception r => Some (curl_dump (str "error: ") r)
  | unsupported_hash what => Some (report (str "unsupported hash") (until_nul what))
  | checksum_mismatch kind => Some (report (str "checksum mismatch") kind)
  | _ => None
  end.

(** Source: lib/symboldb/download_repo.cpp 283-308, downloader::download_url. *)
Definition fetch_or_report (fcache : file_cache) (url : rpm_url) (lock : advisory_lock) : fsx W (url_outcome * advisory_lock) := λ w,
  match fetch fcache url w with
  | None => None
  | Some (Ok rpm_path, w) => Some (Ok (ToLoad (LoadInfo (ru_href url) rpm_path (ru_csum url) true), lock), w)
  | Some (Throw e, w) =>
      match fetch_error url e with
      | Some text => Some (Ok (Failed, lock), World (w_db w) (w_k w) (w_err w ++ text))
      | None => Some (Throw e, w)
      end
  end.
Definition cached_path (fcache : file_cache) (csum : checksum) : fsx W (option bytes) := λ w,
  let '(found, k) := lookup_path os fcache csum (w_k w) in Some (Ok found, World (w_db w) k (w_err w)).

(** The lock is returned with the outcome: it is released after the outcome was dealt with.
    Source: lib/symboldb/download_repo.cpp 261-313, downloader::download_url. *)
Definition download_url (fcache : file_cache) (url : rpm_url) : fsx W (url_outcome * advisory_lock) :=
  lock ← w_on_db (lock_digest (csum_value (ru_csum url)));
  known ← download_fast_track url;
  match known with
  | Some pid => mret (Skip pid, lock)
  | None =>
      found ← cached_path fcache (ru_csum url);
      match found with
      | Some rpm_path => mret (ToLoad (LoadInfo (ru_href url) rpm_path (ru_csum url) false), lock)
      | None =>
          (if negb (bool_decide (FileCache.output opt = quiet)) then
             w_stderr (str "info: downloading " ++ until_nul (ru_href url)
               ++ (if negb (csum_length (ru_csum url) =? no_length)
                   then str " (" ++ dec (csum_length (ru_csum url)) ++ str " bytes)" else []) ++ [10])
           else mret tt);;
          fetch_or_report fcache url lock
      end
  end.

(** Nothing is kept of the package but what it was asked for. *)
Lemma download_url_keeps fcache url w l lk w' : download_url fcache url w = Some (Ok (ToLoad l, lk), w') →
  li_url l = ru_href url ∧ li_csum l = ru_csum url.
Proof.
  unfold download_url. intros Hd. apply fsx_bind_Ok in Hd as (lock & w1 & _ & Hd).
  apply fsx_bind_Ok in Hd as (known & w2 & _ & Hd). destruct known as [pid|]; [by apply fsx_ret_Ok in Hd as [[=] _]|].
  apply fsx_bind_Ok in Hd as (found & w3 & _ & Hd). destruct found as [path|].
  { by apply fsx_ret_Ok in Hd as [[= -> _] _]. }
  apply fsx_bind_Ok in Hd as (u & w4 & _ & Hd). unfold fetch_or_report in Hd. destruct (fetch fcache url w4) as [[[path|e] w5]|]; [| |done].
  - by injection Hd as <- _ _.
  - destruct (fetch_error url e); [|done]. by injection Hd as ? _.
Qed.
End Worker.

(** ** The threads *)

(** What the work on one package, loading one, and setting up a helper can lead to. *)
Class loader := Loader {
  l_download : rpm_url → res url_outcome → Prop;
  l_load : load_info → res Z → Prop;
  l_setup : res unit → Prop;
  l_task : res unit → Prop;
  l_keeps u l : l_download u (Ok (ToLoad l)) → li_url l = ru_href u ∧ li_csum l = ru_csum u
}.

(** Where a helper is: constructing its objects, about to take a package, working on one,
    in or before [push], about to call [remove_producer], after that.
    Source: lib/symboldb/download_repo.cpp 220-240, downloader::download_helper_task. *)
Inductive helper := Opening | Taking | Working (u : rpm_url) | Pushing (u : rpm_url) (l : load_info) | Leaving | Gone.

(** Where the main thread is: so many helpers to start, about to pop, loading what it
    popped, after the end of the queue; and how it ended: [std::terminate] was called for
    an exception in a helper, or an exception left [process].
    Source: lib/symboldb/download_repo.cpp 164-218, downloader::process. *)
Inductive phase := Starting (n : nat) | Popping | Loading (e : bytes * load_info) | RoundOver
| Finished | Aborted (e : exn) | Raised (e : exn).
Definition running (ph : phase) : Prop :=
  match ph with Starting _ | Popping | Loading _ | RoundOver => True | _ => False end.

(** The members, and the two above; the times are left out.
    Source: lib/symboldb/download_repo.cpp 95-117, downloader. *)
Record downloader := Downloader {
  d_urls : list rpm_url;
  d_failed : list rpm_url;
  d_pids : gset Z;
  d_queue : queue (Key := bytes) (Value := load_info);
  d_count : Z;
  d_round : nat;
  d_phase : phase;
  d_helpers : list helper
}.

(** Source: lib/symboldb/download_repo.cpp 136-144, downloader::downloader. *)
Definition downloader_new (threads : Z) (urls : list rpm_url) : res downloader :=
  q ← queue_new2 threads 0;
  Ok (Downloader (rev urls) [] ∅ q 0 0 (Starting (Z.to_nat threads)) []).

(** For the statements: what becomes of a package, and that an attempt failed. *)
Inductive settlement := Known (pid : Z) | Loaded (pid : Z) | Fetched.
Inductive devent := Settled (u : rpm_url) (how : settlement) | Fails (u : rpm_url) | Silent.

Definition url_of (e : bytes * load_info) : rpm_url := RpmUrl e.1 (li_url e.2) (li_csum e.2).

(** One step of a helper or of the main thread: up to the next access to what they share.
    A transient file is unlinked after it was loaded; nobody looks whether that worked.
    Source: lib/symboldb/download_repo.cpp 164-240, downloader::process. *)
Inductive dstep `{loader} (threads : nat) (load : bool) : downloader → devent → downloader → Prop :=
| ds_start us fs ps q q' c r n hs :
    add_producer q = (Ok tt, q') → l_task (Ok tt) →
    dstep threads load (Downloader us fs ps q c r (Starting (S n)) hs) Silent
      (Downloader us fs ps q' c r (Starting n) (hs ++ [Opening]))
| ds_producer_error us fs ps q q' c r n hs e :
    add_producer q = (Throw e, q') →
    dstep threads load (Downloader us fs ps q c r (Starting (S n)) hs) Silent (Downloader us fs ps q' c r (Raised e) hs)
| ds_task_error us fs ps q q' c r n hs e :
    add_producer q = (Ok tt, q') → l_task (Throw e) →
    dstep threads load (Downloader us fs ps q c r (Starting (S n)) hs) Silent (Downloader us fs ps q' c r (Raised e) hs)
| ds_started us fs ps q c r hs :
    dstep threads load (Downloader us fs ps q c r (Starting O) hs) Silent (Downloader us fs ps q c r Popping hs)
| ds_open us fs ps q c r ph hs1 hs2 :
    running ph → l_setup (Ok tt) →
    dstep threads load (Downloader us fs ps q c r ph (hs1 ++ Opening :: hs2)) Silent
      (Downloader us fs ps q c r ph (hs1 ++ Taking :: hs2))
| ds_open_error us fs ps q c r ph hs1 hs2 e :
    running ph → l_setup (Throw e) →
    dstep threads load (Downloader us fs ps q c r ph (hs1 ++ Opening :: hs2)) Silent
      (Downloader us fs ps q c r (Aborted e) (hs1 ++ Opening :: hs2))
| ds_take us u fs ps q c r ph hs1 hs2 :
    running ph →
    dstep threads load (Downloader (us ++ [u]) fs ps q c r ph (hs1 ++ Taking :: hs2)) Silent
      (Downloader us fs ps q c r ph (hs1 ++ Working u :: hs2))
| ds_none fs ps q c r ph hs1 hs2 :
    running ph →
    dstep threads load (Downloader [] fs ps q c r ph (hs1 ++ Taking :: hs2)) Silent
      (Downloader [] fs ps q c r ph (hs1 ++ Leaving :: hs2))
| ds_skip us fs ps q c r ph hs1 u hs2 pid :
    running ph → l_download u (Ok (Skip pid)) →
    dstep threads load (Downloader us fs ps q c r ph (hs1 ++ Working u :: hs2)) (Settled u (Known pid))
      (Downloader us fs ({[pid]} ∪ ps) q c r ph (hs1 ++ Taking :: hs2))
| ds_fail us fs ps q c r ph hs1 u hs2 :
    running ph → l_download u (Ok Failed) →
    dstep threads load (Downloader us fs ps q c r ph (hs1 ++ Working u :: hs2)) (Fails u)
      (Downloader us (fs ++ [u]) ps q c r ph (hs1 ++ Taking :: hs2))
| ds_found us fs ps q c r ph hs1 u hs2 l :
    running ph → l_download u (Ok (ToLoad l)) →
    dstep threads load (Downloader us fs ps q c r ph (hs1 ++ Working u :: hs2)) Silent
      (Downloader us fs ps q c r ph (hs1 ++ Pushing u l :: hs2))
| ds_download_error us fs ps q c r ph hs1 u hs2 e :
    running ph → l_download u (Throw e) →
    dstep threads load (Downloader us fs ps q c r ph (hs1 ++ Working u :: hs2)) Silent
      (Downloader us fs ps q c r (Aborted e) (hs1 ++ Working u :: hs2))
| ds_push us fs ps q q' c r ph hs1 u l hs2 :
    running ph → push bytes_ltb (ru_name u) l q = Ok (Some q') →
    dstep threads load (Downloader us fs ps q c r ph (hs1 ++ Pushing u l :: hs2)) Silent
      (Downloader us fs ps q' c r ph (hs1 ++ Taking :: hs2))
| ds_push_error us fs ps q c r ph hs1 u l hs2 e :
    running ph → push bytes_ltb (ru_name u) l q = Throw e →
    dstep threads load (Downloader us fs ps q c r ph (hs1 ++ Pushing u l :: hs2)) Silent
      (Downloader us fs ps q c r (Aborted e) (hs1 ++ Pushing u l :: hs2))
| ds_leave us fs ps q q' b c r ph hs1 hs2 :
    running ph → remove_producer q = (Ok b, q') →
    dstep threads load (Downloader us fs ps q c r ph (hs1 ++ Leaving :: hs2)) Silent
      (Downloader us fs ps q' c r ph (hs1 ++ Gone :: hs2))
| ds_leave_error us fs ps q q' c r ph hs1 hs2 e :
    running ph → remove_producer q = (Throw e, q') →
    dstep threads load (Downloader us fs ps q c r ph (hs1 ++ Leaving :: hs2)) Silent
      (Downloader us fs ps q' c r (Aborted e) (hs1 ++ Leaving :: hs2))
| ds_pop us fs ps q q' e c r hs :
    pop q = PopElement e q' → load = true →
    dstep threads load (Downloader us fs ps q c r Popping hs) Silent
      (Downloader us fs ps q' (u64 (c + 1)) r (Loading e) hs)
| ds_pop_only us fs ps q q' e c r hs :
    pop q = PopElement e q' → load = false →
    dstep threads load (Downloader us fs ps q c r Popping hs) (Settled (url_of e) Fetched)
      (Downloader us fs ps q' (u64 (c + 1)) r Popping hs)
| ds_pop_end us fs ps q c r hs :
    pop q = PopFalse →
    dstep threads load (Downloader us fs ps q c r Popping hs) Silent (Downloader us fs ps q c r RoundOver hs)
| ds_loaded us fs ps q c r e hs pid :
    l_load e.2 (Ok pid) → pid ≠ 0 →
    dstep threads load (Downloader us fs ps q c r (Loading e) hs) (Settled (url_of e) (Loaded pid))
      (Downloader us fs ({[pid]} ∪ ps) q c r Popping hs)
| ds_loaded_nothing us fs ps q c r e hs :
    l_load e.2 (Ok 0) →
    dstep threads load (Downloader us fs ps q c r (Loading e) hs) Silent
      (Downloader us fs ps q c r (Raised assertion_failure) hs)
| ds_load_error us fs ps q c r e hs x :
    l_load e.2 (Throw x) →
    dstep threads load (Downloader us fs ps q c r (Loading e) hs) Silent (Downloader us fs ps q c r (Raised x) hs)
| ds_assert us fs ps q c r hs :
    producers q ≠ 0 ∨ us ≠ [] →
    dstep threads load (Downloader us fs ps q c r RoundOver hs) Silent
      (Downloader us fs ps q c r (Raised assertion_failure) hs)
| ds_finished ps q c r hs :
    producers q = 0 →
    dstep threads load (Downloader [] [] ps q c r RoundOver hs) Silent (Downloader [] [] ps q c r Finished hs)
| ds_again fs ps q c r hs :
    producers q = 0 → fs ≠ [] → (r + 1 < 3)%nat →
    dstep threads load (Downloader [] fs ps q c r RoundOver hs) Silent
      (Downloader fs [] ps q c (r + 1) (Starting threads) [])
| ds_give_up fs ps q c r hs :
    producers q = 0 → fs ≠ [] → (3 <= r + 1)%nat →
    dstep threads load (Downloader [] fs ps q c r RoundOver hs) Silent (Downloader fs [] ps q c (r + 1) Finished hs).

Inductive runs `{loader} (threads : nat) (load : bool) (s0 : downloader) : list devent → downloader → Prop :=
| runs_start : runs threads load s0 [] s0
| runs_step tr s ev s' : runs threads load s0 tr s → dstep threads load s ev s' → runs threads load s0 (tr ++ [ev]) s'.

(** ** Accounting *)

#[export] Instance checksum_eq_dec : EqDecision checksum.
Proof. solve_decision. Defined.
#[export] Instance rpm_url_eq_dec : EqDecision rpm_url.
Proof. solve_decision. Defined.

(** How often a package is on a list. *)
Definition occ (u : rpm_url) (l : list rpm_url) : nat := count_occ rpm_url_eq_dec l u.
Lemma occ_app u l k : occ u (l ++ k) = (occ u l + occ u k)%nat.
Proof. apply count_occ_app. Qed.
Lemma occ_cons u x l : occ u (x :: l) = (occ u [x] + occ u l)%nat.
Proof. apply (occ_app u [x] l). Qed.
Lemma occ_perm l k : (∀ u, occ u l = occ u k) ↔ l ≡ₚ k.
Proof. symmetry. apply Permutation_count_occ. Qed.

(** Where the packages are that are not settled. *)
Definition pending (h : helper) : list rpm_url := match h with Working u | Pushing u _ => [u] | _ => [] end.
Definition in_phase (ph : phase) : list rpm_url := match ph with Loading e => [url_of e] | _ => [] end.
Definition unsettled (s : downloader) : list rpm_url :=
  d_urls s ++ d_failed s ++ concat (pending <$> d_helpers s) ++ (url_of <$> q_map (d_queue s)) ++ in_phase (d_phase s).
(** What has happened so far. *)
Definition settled (tr : list devent) : list rpm_url := omap (λ ev, match ev with Settled u _ => Some u | _ => None end) tr.
Definition fails (tr : list devent) : list rpm_url := omap (λ ev, match ev with Fails u => Some u | _ => None end) tr.
Definition found_pids (tr : list devent) : list Z :=
  omap (λ ev, match ev with Settled _ (Known pid) | Settled _ (Loaded pid) => Some pid | _ => None end) tr.
Definition from_queue (tr : list devent) : list rpm_url :=
  omap (λ ev, match ev with Settled u (Loaded _) | Settled u Fetched => Some u | _ => None end) tr.

(** The helpers that count as producers, and those that have seen an empty list. *)
Definition active (h : helper) : Z := match h with Gone => 0 | _ => 1 end.
Fixpoint actives (hs : list helper) : Z := match hs with [] => 0 | h :: hs => active h + actives hs end.
Definition past (h : helper) : Prop := h = Leaving ∨ h = Gone.
Definition to_start (ph : phase) : nat := match ph with Starting n => n | _ => 0 end.
Lemma actives_app hs ks : actives (hs ++ ks) = actives hs + actives ks.
Proof. induction hs; cbn; lia. Qed.
Lemma actives_bound hs : 0 <= actives hs <= zlen hs.
Proof. induction hs as [|h hs IH]; [done|]. rewrite zlen_cons. cbn. unfold active. destruct h; lia. Qed.
Lemma actives_0 hs : actives hs = 0 → Forall (λ h, h = Gone) hs.
Proof.
  induction hs as [|h hs IH]; [constructor|]. cbn. pose proof (actives_bound hs). intros E.
  destruct h; cbn in E; try lia. constructor; [done|]. apply IH. lia.
Qed.

(** The threads and the queue. *)
Record threads_inv (threads : nat) (s : downloader) : Prop := {
  ti_producers : q_producers (d_queue s) = actives (d_helpers s);
  ti_helpers : (length (d_helpers s) + to_start (d_phase s) = threads)%nat;
  ti_capacity : q_capacity (d_queue s) = Z.of_nat threads;
  ti_empty : running (d_phase s) → Forall (λ h, past h → d_urls s = []) (d_helpers s);
  ti_over : d_phase s = RoundOver → q_map (d_queue s) = [] ∧ actives (d_helpers s) = 0
}.

Lemma push_retry_same {k v} {q q' : queue (Key := bytes) (Value := load_info)} : push bytes_ltb k v q = Ok (Some q') →
  q_map q' = map_insert bytes_ltb k v (q_map q) ∧ q_capacity q' = q_capacity q ∧ q_producers q' = q_producers q.
Proof. intros [_ Hp]%push_Ok. by apply push_retry_Some in Hp as [-> _]. Qed.
Lemma add_producer_Ok {q q' : queue (Key := bytes) (Value := load_info)} : add_producer q = (Ok tt, q') →
  q_map q' = q_map q ∧ q_capacity q' = q_capacity q ∧ (0 <= q_producers q < 2 ^ 32 - 1 → q_producers q' = q_producers q + 1).
Proof.
  unfold add_producer. cbn. destruct (_ =? 0); intros [= <-]. cbn. split; [done|]. split; [done|].
  intros Hb. apply Z.mod_small. lia.
Qed.
Lemma remove_producer_Ok {q q' : queue (Key := bytes) (Value := load_info)} {b} : remove_producer q = (Ok b, q') →
  q_map q' = q_map q ∧ q_capacity q' = q_capacity q ∧ q_producers q' = q_producers q - 1.
Proof. unfold remove_producer. destruct (_ =? 0); [done|]. by intros [= _ <-]. Qed.
Lemma pop_element {q q' : queue (Key := bytes) (Value := load_info)} {e} : pop q = PopElement e q' →
  q_map q = e :: q_map q' ∧ q_capacity q' = q_capacity q ∧ q_producers q' = q_producers q.
Proof. intros Hp. pose proof (pop_inv q) as Hq. rewrite Hp in Hq. destruct Hq as [-> ->]. done. Qed.

Lemma add_producer_fits (q : queue (Key := bytes) (Value := load_info)) e q' :
  add_producer q = (Throw e, q') → 0 <= q_producers q < 2 ^ 32 - 1 → False.
Proof.
  unfold add_producer. cbn. intros E Hb. assert (u32 (q_producers q + 1) = q_producers q + 1) as Hu by (apply Z.mod_small; lia).
  rewrite Hu in E. destruct (Z.eqb_spec (q_producers q + 1) 0); [lia|done].
Qed.
Lemma push_fits (q : queue (Key := bytes) (Value := load_info)) k v e : push bytes_ltb k v q = Throw e → q_producers q = 0.
Proof. unfold push. destruct (Z.eqb_spec (q_producers q) 0); [done|]. done. Qed.
Lemma remove_fits (q : queue (Key := bytes) (Value := load_info)) e q' : remove_producer q = (Throw e, q') → q_producers q = 0.
Proof. unfold remove_producer. by destruct (Z.eqb_spec (q_producers q) 0). Qed.

Ltac helpers_simpl :=
  cbn [d_urls d_failed d_pids d_queue d_count d_round d_phase d_helpers to_start in_phase pending active] in *;
  rewrite ?fmap_app, ?fmap_cons, ?concat_app, ?actives_app, ?length_app, ?Forall_app, ?Forall_cons in *;
  cbn [actives active length concat pending app fmap list_fmap] in *.

Section Safety.
Context `{LD : loader} (threads : nat) (load : bool).

(** How the process can end before its time: none of it is the fault of [downloader]. *)
Definition ended (s : downloader) : Prop :=
  match d_phase s with
  | Aborted e => l_setup (Throw e) ∨ ∃ u, l_download u (Throw e)
  | Raised e => l_task (Throw e) ∨ (∃ l, l_load l (Throw e)) ∨ (∃ l, l_load l (Ok 0) ∧ e = assertion_failure)
  | _ => False
  end.

Ltac queue_facts :=
  repeat match goal with
  | H : add_producer _ = (Ok tt, _) |- _ => apply add_producer_Ok in H as (?Hm & ?Hcap & ?Hprod)
  | H : push _ _ _ _ = Ok (Some _) |- _ => apply push_retry_same in H as (?Hm & ?Hcap & ?Hprod)
  | H : remove_producer _ = (Ok _, _) |- _ => apply remove_producer_Ok in H as (?Hm & ?Hcap & ?Hprod)
  | H : pop _ = PopElement _ _ |- _ => apply pop_element in H as (?Hm & ?Hcap & ?Hprod)
  end.
Ltac bounds := repeat match goal with
  | hs : list helper |- _ => lazymatch goal with _ : 0 <= actives hs <= _ |- _ => fail | _ => pose proof (actives_bound hs) end
  end; unfold zlen in *.
Ltac not_past := let H := fresh in intros [H|H]; discriminate H.
Ltac forall_past := intros _; repeat match goal with H : _ ∧ _ |- _ => destruct H end; split_and?; first
  [ done | not_past
  | intros _; match goal with H : past Leaving → _ |- _ => apply H; by left end
  | eapply Forall_impl; [eassumption|]; intros ? Hx Hq; by destruct (app_cons_not_nil _ _ _ (eq_sym (Hx Hq))) ].

(** Where an identifier comes from. *)
Definition origin (ev : devent) : Prop :=
  match ev with
  | Settled u (Known pid) => l_download u (Ok (Skip pid))
  | Settled u (Loaded pid) => pid ≠ 0 ∧ ∃ l, url_of (ru_name u, l) = u ∧ l_load l (Ok pid)
  | Fails u => l_download u (Ok Failed)
  | _ => True
  end.
Definition asked_for (h : helper) : Prop := match h with Pushing u l => url_of (ru_name u, l) = u | _ => True end.

Record account_inv (urls0 : list rpm_url) (tr : list devent) (s : downloader) : Prop := {
  ai_all u : occ u urls0 = (occ u (settled tr) + occ u (unsettled s))%nat;
  ai_tries u : (d_round s * occ u (unsettled s) + occ u (d_failed s) <= occ u (fails tr))%nat;
  ai_pids : d_pids s = list_to_set (found_pids tr);
  ai_count : d_count s = u64 (zlen (from_queue tr) + zlen (in_phase (d_phase s)));
  ai_push : Forall asked_for (d_helpers s);
  ai_origin : Forall origin tr;
  ai_done : d_phase s = Finished → unsettled s = d_urls s ∧ (d_urls s = [] ∨ d_round s = 3%nat)
}.

Lemma occ_insert u k l m : occ u (url_of <$> map_insert bytes_ltb k l m) = (occ u [url_of (k, l)] + occ u (url_of <$> m))%nat.
Proof using.
  clear. rewrite <- occ_cons. apply occ_perm. change (url_of (k, l) :: (url_of <$> m)) with (url_of <$> (k, l) :: m).
  apply fmap_Permutation, map_insert_perm.
Qed.
Lemma gone_pending hs : Forall (λ h, h = Gone) hs → concat (pending <$> hs) = [].
Proof using. by induction 1 as [|h hs -> _ IH]; [|exact IH]. Qed.
Lemma settled_snoc tr ev : settled (tr ++ [ev]) = settled tr ++ match ev with Settled u _ => [u] | _ => [] end.
Proof using. unfold settled. rewrite omap_snoc. by destruct ev. Qed.
Lemma fails_snoc tr ev : fails (tr ++ [ev]) = fails tr ++ match ev with Fails u => [u] | _ => [] end.
Proof using. unfold fails. rewrite omap_snoc. by destruct ev. Qed.
Lemma found_pids_snoc tr ev : found_pids (tr ++ [ev]) =
  found_pids tr ++ match ev with Settled _ (Known pid) | Settled _ (Loaded pid) => [pid] | _ => [] end.
Proof using. unfold found_pids. rewrite omap_snoc. by destruct ev as [u []| |]. Qed.
Lemma from_queue_snoc tr ev : from_queue (tr ++ [ev]) =
  from_queue tr ++ match ev with Settled u (Loaded _) | Settled u Fetched => [u] | _ => [] end.
Proof using. unfold from_queue. rewrite omap_snoc. by destruct ev as [u []| |]. Qed.

(** A step settles what its event says, and moves the other packages. *)
Lemma dstep_unsettled s ev s' w : threads_inv threads s → Forall asked_for (d_helpers s) → dstep threads load s ev s' →
  running (d_phase s') ∨ d_phase s' = Finished → occ w (unsettled s) = (occ w (settled [ev]) + occ w (unsettled s'))%nat.
Proof using.
  intros [_ _ _ _ Ho] Hp Hstep Hgo. destruct Hstep.
  all: try (exfalso; destruct Hgo as [Hgo|Hgo]; [exact Hgo|discriminate Hgo]).
  all: unfold unsettled; clear Hgo.
  all: cbn [d_urls d_failed d_helpers d_queue d_phase in_phase settled omap list_omap pending app] in *.
  all: queue_facts; rewrite ?Hm, ?fmap_app, ?fmap_cons, ?concat_app, ?occ_app, ?occ_insert; cbn [concat fmap list_fmap pending];
    rewrite ?app_nil_r, ?occ_app, ?(occ_cons w (url_of _) (url_of <$> _)); cbn [occ count_occ]; try lia.
  - apply Forall_app in Hp as [_ Hp]. apply Forall_cons in Hp as [Hp _]. cbn [asked_for] in Hp. rewrite Hp. lia.
  - destruct (Ho eq_refl) as [_ Hg]. rewrite (gone_pending hs (actives_0 hs Hg)). cbn. lia.
Qed.
(** Failures are counted, and become the work of the next round. *)
Lemma dstep_failed s ev s' w : threads_inv threads s → dstep threads load s ev s' →
  running (d_phase s') ∨ d_phase s' = Finished →
  (d_round s' = d_round s ∧ occ w (d_failed s') = (occ w (d_failed s) + occ w (fails [ev]))%nat) ∨
  (d_round s' = (d_round s + 1)%nat ∧ d_failed s' = [] ∧ occ w (unsettled s) = occ w (d_failed s) ∧ ev = Silent).
Proof using.
  intros [_ _ _ _ Ho] Hstep Hgo. destruct Hstep.
  all: try (exfalso; destruct Hgo as [Hgo|Hgo]; [exact Hgo|discriminate Hgo]).
  all: cbn [d_round d_failed fails omap list_omap]; rewrite ?occ_app; cbn [occ count_occ].
  all: try (left; split; [done|lia]).
  all: right; split; [done|]; split; [done|]; split; [|done]; destruct (Ho eq_refl) as [Hm Hg];
    unfold unsettled; cbn [d_urls d_failed d_helpers d_queue d_phase in_phase] in *;
    rewrite Hm, (gone_pending hs (actives_0 hs Hg)), !app_nil_r; done.
Qed.
Lemma dstep_origin s ev s' : dstep threads load s ev s' → origin ev.
Proof using.
  destruct 1; cbn; try done. split; [done|]. exists e.2. by destruct e.
Qed.
Lemma dstep_asked s ev s' : Forall asked_for (d_helpers s) → dstep threads load s ev s' → Forall asked_for (d_helpers s').
Proof using.
  intros Hp Hstep. destruct Hstep; cbn [d_helpers] in *; rewrite ?Forall_app, ?Forall_cons in *; cbn [asked_for] in *; try (by intuition).
  all: try (by constructor).
  destruct Hp as (? & _ & ?). split_and!; [done| |done].
  match goal with H : l_download _ (Ok (ToLoad _)) |- _ => apply l_keeps in H as [E1 E2] end. unfold url_of. cbn. rewrite E1, E2. by destruct u.
Qed.
Lemma dstep_ids s ev s' tr : d_pids s = list_to_set (found_pids tr) → dstep threads load s ev s' →
  d_pids s' = list_to_set (found_pids (tr ++ [ev])).
Proof using.
  intros Hp Hstep. rewrite found_pids_snoc, list_to_set_app_L. destruct Hstep; cbn [d_pids] in *; rewrite Hp; set_solver.
Qed.
Lemma dstep_count s ev s' tr : d_count s = u64 (zlen (from_queue tr) + zlen (in_phase (d_phase s))) →
  dstep threads load s ev s' → running (d_phase s') ∨ d_phase s' = Finished →
  d_count s' = u64 (zlen (from_queue (tr ++ [ev])) + zlen (in_phase (d_phase s'))).
Proof using.
  intros Hn Hstep Hgo. rewrite from_queue_snoc, zlen_app. destruct Hstep.
  all: try (exfalso; destruct Hgo as [Hgo|Hgo]; [exact Hgo|discriminate Hgo]).
  all: cbn [d_count d_phase in_phase] in *; rewrite Hn; unfold zlen; cbn [length]; try (f_equal; lia).
  all: unfold u64; rewrite Zplus_mod_idemp_l; f_equal; lia.
Qed.
Lemma dstep_done s ev s' : threads_inv threads s → (d_round s <= 2)%nat ∨ d_phase s = Finished → dstep threads load s ev s' →
  (d_phase s' = Finished → unsettled s' = d_urls s' ∧ (d_urls s' = [] ∨ d_round s' = 3%nat)) ∧
  ((d_round s' <= 2)%nat ∨ d_phase s' = Finished).
Proof using.
  intros [_ _ _ _ Ho] Hr Hstep.
  assert (Hr2 : d_phase s ≠ Finished → (d_round s <= 2)%nat) by (destruct Hr; [done|congruence]).
  destruct Hstep; cbn [d_phase d_round] in *; specialize (Hr2 ltac:(first [discriminate|by intros ->])).
  all: split; [|first [by right|left; lia]].
  all: try discriminate; try (intros ->; match goal with H : running Finished |- _ => by destruct H end).
  all: intros _; destruct (Ho eq_refl) as [Hm Hg]; unfold unsettled;
    cbn [d_urls d_failed d_helpers d_queue d_phase in_phase d_round] in *;
    rewrite Hm, (gone_pending hs (actives_0 hs Hg)), ?app_nil_r; (split; [done|]); first [by left|right; lia].
Qed.

Context (Hthreads : Z.of_nat threads < 2 ^ 32) (Hsome : (0 < threads)%nat).
Lemma dstep_threads s ev s' : threads_inv threads s → dstep threads load s ev s' →
  (running (d_phase s') ∨ d_phase s' = Finished) ∧ threads_inv threads s' ∨ ended s'.
Proof using Hthreads Hsome.
  intros [Hp Hl Hc He Ho] Hstep. destruct Hstep; helpers_simpl; queue_facts; bounds; specialize (He ltac:(first [assumption | exact I])).
  all: try (right; unfold ended; cbn; eauto; fail).
  all: try (left; split; [cbn; tauto|]; constructor; helpers_simpl; [lia|lia|congruence|forall_past|
    first [discriminate | intros ->; destruct (Ho eq_refl); lia]]; fail).
  all: try (exfalso; match goal with
    | H : add_producer _ = (Throw _, _) |- _ => apply (add_producer_fits _ _ _ H); lia
    | H : push _ _ _ _ = Throw _ |- _ => apply push_fits in H; lia
    | H : remove_producer _ = (Throw _, _) |- _ => apply remove_fits in H; lia
    end).
  - pose proof (pop_inv q) as Hq. match goal with H : pop q = _ |- _ => rewrite H in Hq end. destruct Hq as [Hm Hz].
    left. split; [cbn; tauto|]. constructor; helpers_simpl; [lia|lia|congruence|forall_past|intros _; split; [done|lia]].
  - exfalso. destruct (Ho eq_refl) as [_ Ha]. unfold producers in *.
    match goal with H : _ ∨ _ |- _ => destruct H as [H|H]; [lia|] end.
    destruct hs as [|h hs]; [cbn in Hl; lia|]. apply actives_0 in Ha. apply Forall_cons in Ha as [-> _].
    apply Forall_cons in He as [He _]. match goal with H : us ≠ [] |- _ => apply H, He end. by right.
  - left. split; [cbn; tauto|]. unfold producers in *. constructor; helpers_simpl; [lia|lia|congruence|constructor|discriminate].
  - left. split; [cbn; tauto|]. unfold producers in *. destruct (Ho eq_refl). constructor; helpers_simpl; [lia|lia|congruence| |discriminate].
    by intros [].
Qed.


(** The whole invariant, along an execution. *)
Record inv (urls0 : list rpm_url) (tr : list devent) (s : downloader) : Prop := {
  in_going : running (d_phase s) ∨ d_phase s = Finished;
  in_threads : threads_inv threads s;
  in_asked : Forall asked_for (d_helpers s);
  in_all w : occ w urls0 = (occ w (settled tr) + occ w (unsettled s))%nat;
  in_tries w : (d_round s * occ w (unsettled s) + occ w (d_failed s) <= occ w (fails tr))%nat;
  in_ids : d_pids s = list_to_set (found_pids tr);
  in_count : d_count s = u64 (zlen (from_queue tr) + zlen (in_phase (d_phase s)));
  in_origin : Forall origin tr;
  in_round : (d_round s <= 2)%nat ∨ d_phase s = Finished;
  in_done : d_phase s = Finished → unsettled s = d_urls s ∧ (d_urls s = [] ∨ d_round s = 3%nat)
}.
Lemma dstep_inv urls0 tr s ev s' : inv urls0 tr s → dstep threads load s ev s' → inv urls0 (tr ++ [ev]) s' ∨ ended s'.
Proof using Hthreads Hsome.
  intros [Hg Ht Hp Ha Hr Hi Hc Ho Hn Hd] Hstep.
  destruct (dstep_threads s ev s' Ht Hstep) as [[Hg' Ht']|He]; [left|by right].
  destruct (dstep_done s ev s' Ht Hn Hstep) as [Hd' Hn'].
  constructor; try done.
  - by eapply dstep_asked.
  - intros w. rewrite Ha, (dstep_unsettled s ev s' w Ht Hp Hstep Hg'), settled_snoc, occ_app. destruct ev; cbn; lia.
  - intros w. specialize (Hr w). pose proof (dstep_unsettled s ev s' w Ht Hp Hstep Hg') as Hu. rewrite fails_snoc, occ_app.
    destruct (dstep_failed s ev s' w Ht Hstep Hg') as [[-> ->]|(-> & -> & Hf & ->)].
    + assert (d_round s * occ w (unsettled s') <= d_round s * occ w (unsettled s))%nat by (apply Nat.mul_le_mono_l; lia).
      destruct ev; cbn in *; lia.
    + cbn in *. rewrite <- Hu in *. lia.
  - by eapply dstep_ids.
  - by eapply dstep_count.
  - apply Forall_app. split; [done|]. constructor; [by eapply dstep_origin|done].
Qed.

(** Nothing happens after the end. *)
Lemma dstep_running s ev s' : dstep threads load s ev s' → running (d_phase s).
Proof using. by destruct 1. Qed.
Lemma runs_inv urls0 s0 tr s : inv urls0 [] s0 → runs threads load s0 tr s → inv urls0 tr s ∨ ended s.
Proof using Hthreads Hsome.
  intros H0. induction 1 as [|tr s ev s' _ [IH|IH] Hstep]; [by left|by apply (dstep_inv _ _ s)|].
  exfalso. pose proof (dstep_running _ _ _ Hstep) as Hr. unfold ended in IH. by destruct (d_phase s).
Qed.
Lemma downloader_new_inv urls s0 : downloader_new (Z.of_nat threads) urls = Ok s0 → inv urls [] s0.
Proof using Hsome.
  unfold downloader_new, queue_new2, check. destruct (Z.of_nat threads =? 0); [done|]. intros [= <-].
  rewrite Nat2Z.id. constructor; cbn; try done; try (by left); try lia.
  intros w. change (occ w urls = occ w (rev urls ++ [])). rewrite app_nil_r. apply occ_perm, Permutation_rev.
Qed.

(** *** Every execution ends *)

(** The steps that are left in this round, and in all. *)
Definition weight (h : helper) : nat :=
  match h with Opening => 3 | Taking => 2 | Working _ => 6 | Pushing _ _ => 5 | Leaving => 1 | Gone => 0 end.
Fixpoint weights (hs : list helper) : nat := match hs with [] => 0 | h :: hs => weight h + weights hs end.
Definition phase_weight (ph : phase) : nat :=
  match ph with Starting n => 4 * n + 3 | Popping => 2 | Loading _ => 3 | RoundOver => 1 | _ => 0 end.
Definition round_weight (s : downloader) : nat :=
  5 * length (d_urls s) + weights (d_helpers s) + 2 * length (q_map (d_queue s)) + phase_weight (d_phase s).
Definition steps_bound (n : nat) : nat := 3 * (5 * n + 4 * threads + 3).
Definition steps_left (n : nat) (s : downloader) : nat :=
  match d_phase s with
  | Finished | Aborted _ | Raised _ => 0
  | _ => (2 - d_round s) * (5 * n + 4 * threads + 3) + round_weight s
  end.
Lemma weights_app hs ks : weights (hs ++ ks) = (weights hs + weights ks)%nat.
Proof using. clear. induction hs; cbn; lia. Qed.
Lemma inv_perm urls0 tr s : inv urls0 tr s → urls0 ≡ₚ settled tr ++ unsettled s.
Proof using. intros Hi. apply occ_perm. intros w. by rewrite occ_app, (in_all _ _ _ Hi). Qed.
Lemma dstep_less urls0 tr s ev s' : inv urls0 tr s → dstep threads load s ev s' →
  (steps_left (length urls0) s' < steps_left (length urls0) s)%nat.
Proof using.
  clear Hthreads Hsome. intros Hi Hstep.
  assert (Hlen : (length (d_failed s) <= length urls0)%nat).
  { rewrite (inv_perm _ _ _ Hi). unfold unsettled. rewrite !length_app. lia. }
  destruct Hi as [_ _ _ _ _ _ _ _ Hn _].
  destruct Hstep; queue_facts; unfold steps_left, round_weight in *;
    cbn [d_urls d_failed d_helpers d_queue d_phase d_round running phase_weight] in *.
  all: try (match goal with H : running ?ph |- _ => destruct ph; try (by destruct H) end).
  all: rewrite ?Hm, ?weights_app, ?length_app, ?(Permutation_length (map_insert_perm _ _ _ _)); cbn [weights weight length phase_weight].
  all: try (generalize ((2 - r) * (5 * length urls0 + 4 * threads + 3))%nat; intros; lia).
  destruct Hn as [Hn|]; [|done]. replace (2 - r)%nat with (S (2 - (r + 1)))%nat by lia. rewrite Nat.mul_succ_l. lia.
Qed.
Lemma runs_bounded urls s0 tr s : downloader_new (Z.of_nat threads) urls = Ok s0 → runs threads load s0 tr s →
  (length tr + steps_left (length urls) s <= steps_bound (length urls))%nat.
Proof using Hthreads Hsome.
  intros Hnew Hruns. pose proof (downloader_new_inv _ _ Hnew) as Hi0. induction Hruns as [|tr s ev s' Hr IH Hstep].
  - unfold downloader_new, queue_new2, check in Hnew. destruct (Z.of_nat threads =? 0); [done|]. injection Hnew as <-.
    unfold steps_left, steps_bound, round_weight. cbn [d_phase d_round d_urls d_helpers d_queue q_map weights phase_weight length].
    rewrite length_rev, Nat2Z.id. change (2 - 0)%nat with 2%nat. lia.
  - destruct (runs_inv _ _ _ _ Hi0 Hr) as [Hi|He].
    + pose proof (dstep_less _ _ _ _ _ Hi Hstep). rewrite length_app. cbn [length]. lia.
    + exfalso. pose proof (dstep_running _ _ _ Hstep) as Hx. unfold ended in He. by destruct (d_phase s).
Qed.

(** As long as the main thread runs, somebody can go on. *)
Context (Hdown : ∀ u, ∃ r, l_download u r) (Hload : ∀ l, ∃ r, l_load l r) (Hsetup : ∃ r, l_setup r) (Htask : ∃ r, l_task r).
Lemma active_helper hs : 0 < actives hs → ∃ hs1 h hs2, hs = hs1 ++ h :: hs2 ∧ h ≠ Gone.
Proof using.
  clear. induction hs as [|h hs IH]; cbn; [lia|]. assert (h = Gone ∨ h ≠ Gone) as [->|] by (destruct h; [by right..|by left]); [|by exists [], h, hs].
  intros Ha. destruct IH as (hs1 & h & hs2 & -> & Hh); [cbn in Ha; lia|]. by exists (Gone :: hs1), h, hs2.
Qed.
Lemma helper_step us fs ps q c r ph hs1 h hs2 : running ph → h ≠ Gone → q_map q = [] → 0 < q_capacity q → q_producers q ≠ 0 →
  ∃ ev s', dstep threads load (Downloader us fs ps q c r ph (hs1 ++ h :: hs2)) ev s'.
Proof using Hsome Hdown Hsetup.
  intros Hph Hh Hm Hc Hp. destruct h as [| |u|u l| |]; [| | | | |done].
  - destruct Hsetup as [[[]|e] Hs]; eexists _, _; [by apply ds_open|by apply ds_open_error].
  - destruct us as [|u us _] using rev_ind; eexists _, _; [by apply ds_none|by apply ds_take].
  - destruct (Hdown u) as [[[pid|l|]|e] Hu]; eexists _, _.
    + by apply ds_skip.
    + by eapply ds_found.
    + by apply ds_fail.
    + by eapply ds_download_error.
  - destruct (push bytes_ltb (ru_name u) l q) as [[q'|]|e] eqn:E.
    + eexists _, _. by eapply ds_push.
    + apply push_Ok in E as [_ E]. apply push_retry_None in E. rewrite Hm in E. unfold zlen in E. cbn [length] in E. lia.
    + eexists _, _. by eapply ds_push_error.
  - destruct (remove_producer q) as [[b|e] q'] eqn:E; eexists _, _; [by eapply ds_leave|by eapply ds_leave_error].
Qed.
Lemma progress urls0 tr s : inv urls0 tr s → running (d_phase s) → ∃ ev s', dstep threads load s ev s'.
Proof using Hsome Hdown Hload Hsetup Htask.
  intros [_ [Hp Hl Hc _ _] _ _ _ _ _ _ _ _] Hph. destruct s as [us fs ps q c r ph hs]. cbn in *.
  destruct ph as [[|n]| |e| | | |]; try done.
  - eexists _, _. apply ds_started.
  - destruct (add_producer q) as [[[]|e] q'] eqn:E; [|eexists _, _; by eapply ds_producer_error].
    destruct Htask as [[[]|e] Ht]; eexists _, _; [by eapply ds_start|by eapply ds_task_error].
  - pose proof (pop_inv q) as Hq. destruct (pop q) as [| |e q'] eqn:E.
    + destruct Hq as [Hm Hz]. destruct (active_helper hs) as (hs1 & h & hs2 & -> & Hh); [lia|].
      apply helper_step; [done|done|done|lia|lia].
    + eexists _, _. by apply ds_pop_end.
    + destruct load eqn:El; eexists _, _; [by eapply ds_pop|by eapply ds_pop_only].
  - destruct (Hload e.2) as [[pid|x] Hx]; [|eexists _, _; by eapply ds_load_error].
    destruct (decide (pid = 0)) as [->|]; eexists _, _; [by apply ds_loaded_nothing|by eapply ds_loaded].
  - destruct (decide (producers q = 0)) as [Hz|Hz]; [|eexists _, _; apply ds_assert; by left].
    destruct us as [|u us]; [|eexists _, _; apply ds_assert; by right].
    destruct fs as [|u fs]; [eexists _, _; by apply ds_finished|].
    destruct (decide (r + 1 < 3)%nat); eexists _, _; [by apply ds_again|apply ds_give_up; [done|done|lia]].
Qed.
End Safety.

Lemma threads_some threads urls s0 : downloader_new (Z.of_nat threads) urls = Ok s0 → (0 < threads)%nat.
Proof. unfold downloader_new, queue_new2, check. destruct (Z.eqb_spec (Z.of_nat threads) 0); [done|lia]. Qed.
Lemma accounted `{LD : loader} (threads : nat) (load : bool) (urls : list rpm_url) s0 tr s :
  Z.of_nat threads < 2 ^ 32 → downloader_new (Z.of_nat threads) urls = Ok s0 → runs threads load s0 tr s →
  running (d_phase s) ∨ d_phase s = Finished →
  urls ≡ₚ settled tr ++ unsettled s ∧ d_pids s = list_to_set (found_pids tr) ∧ Forall origin tr ∧
  d_count s = u64 (zlen (from_queue tr) + zlen (in_phase (d_phase s))) ∧
  (d_phase s = Finished → urls ≡ₚ settled tr ++ d_urls s ∧ ∀ u, (3 * occ u (d_urls s) <= occ u (fails tr))%nat).
Proof.
  intros Ht Hnew Hruns Hgo. pose proof (threads_some _ _ _ Hnew) as Hsome.
  destruct (runs_inv threads load Ht Hsome urls s0 tr s (downloader_new_inv threads Hsome urls s0 Hnew) Hruns) as [Hi|He];
    [|unfold ended in He; destruct Hgo as [Hgo|Hgo]; [by destruct (d_phase s)|by rewrite Hgo in He]].
  pose proof (inv_perm _ _ _ _ Hi) as Hperm. destruct Hi as [_ _ _ _ Hr Hi Hc Ho _ Hd]. split_and!; try done.
  intros Hph. destruct (Hd Hph) as [Hu Hleft]. rewrite Hu in Hperm. split; [done|]. intros u.
  specialize (Hr u). rewrite Hu in Hr. destruct Hleft as [->| H3]; [cbn; lia|]. rewrite H3 in Hr. lia.
Qed.

(** C3: Whatever the schedule of the helpers and the main thread, as far as it has got:
    unless an exception came from outside (of a download, from loading, from starting the
    threads), every package of the list is exactly once either settled or still under way;
    the identifiers collected are those of the settled packages that are in the database;
    each of them was looked up under the digest of the package or is the result of loading
    the file with this digest.  At the end what is not settled is on the list that is left,
    after three failures each; and never is [push] called without producers, [pop] left with
    packages behind, or an assertion violated. *)
Theorem downloads_accounted `{LD : loader} (threads : nat) (load : bool) (urls : list rpm_url) s0 tr s :
  Z.of_nat threads < 2 ^ 32 → downloader_new (Z.of_nat threads) urls = Ok s0 → runs threads load s0 tr s →
  match d_phase s with
  | Aborted e => l_setup (Throw e) ∨ ∃ u, l_download u (Throw e)
  | Raised e => l_task (Throw e) ∨ (∃ l, l_load l (Throw e)) ∨ ∃ l, l_load l (Ok 0) ∧ e = assertion_failure
  | ph => urls ≡ₚ settled tr ++ unsettled s ∧ d_pids s = list_to_set (found_pids tr) ∧ Forall origin tr ∧
      d_count s = u64 (zlen (from_queue tr) + zlen (in_phase ph)) ∧
      (ph = Finished → urls ≡ₚ settled tr ++ d_urls s ∧ ∀ u, (3 * occ u (d_urls s) <= occ u (fails tr))%nat)
  end.
Proof.
  intros Ht Hnew Hruns. pose proof (accounted threads load urls s0 tr s Ht Hnew Hruns) as Ha.
  pose proof (threads_some _ _ _ Hnew) as Hsome.
  destruct (runs_inv threads load Ht Hsome urls s0 tr s (downloader_new_inv threads Hsome urls s0 Hnew) Hruns) as [Hi|He].
  - destruct (in_going _ _ _ _ Hi) as [Hg|Hg]; [|specialize (Ha (or_intror Hg)); by rewrite Hg in *].
    specialize (Ha (or_introl Hg)). destruct (d_phase s); try (by destruct Hg); exact Ha.
  - unfold ended in He. by destruct (d_phase s).
Qed.

(** C4: Downloading ends under every schedule: an execution has at most [steps_bound]
    steps, and as long as the main thread has not come to an end somebody can make one,
    provided each download, each load and each start of a thread has some outcome.  So
    neither a full nor an empty queue can stop everybody. *)
Theorem downloads_finish `{LD : loader} (threads : nat) (load : bool) (urls : list rpm_url) s0 tr s :
  Z.of_nat threads < 2 ^ 32 → downloader_new (Z.of_nat threads) urls = Ok s0 → runs threads load s0 tr s →
  (∀ u, ∃ r, l_download u r) → (∀ l, ∃ r, l_load l r) → (∃ r, l_setup r) → (∃ r, l_task r) →
  (length tr <= steps_bound threads (length urls))%nat ∧
  (running (d_phase s) ↔ ∃ ev s', dstep threads load s ev s').
Proof.
  intros Ht Hnew Hruns H1 H2 H3 H4. pose proof (threads_some _ _ _ Hnew) as Hsome.
  split; [pose proof (runs_bounded threads load Ht Hsome urls s0 tr s Hnew Hruns); lia|]. split.
  - intros Hg. destruct (runs_inv threads load Ht Hsome urls s0 tr s (downloader_new_inv threads Hsome urls s0 Hnew) Hruns) as [Hi|He];
      [by eapply progress|unfold ended in He; by destruct (d_phase s)].
  - intros (ev & s' & Hs). by eapply dstep_running.
Qed.

(** ** What the threads really do *)

Section Instance.
Context `{M : machine} {C : Type} `{L : libpq C} (unescape : bytes → option bytes) {N : Type} (nss_ : nss N).
Context {U : Type} (lc : libcurl U).
Context {E D : Type} `{LE : libelf E D} {A : Type} (la : libarchive A) (name_of : string → os_error → os_error)
  (error_constants : list (Z * bytes)) (behind : bytes).
Context {X : Type} (XML_Parse : X → bytes → bool → list (callback * position) * parse_status * X) (parser : X).
Context {S : Type} (io : rpmio S) (uninitialized : Z → bytes) (rpm_open : bytes → S * rpmRC * rpm_header).
Context {K : Type} (os : posix K) (pr : processes K) (PYTHON_SCRIPT : bytes) (opt : symboldb_options) (fuel : nat).

Definition open_cache : fsx (world C K) file_cache := λ w,
  let '(r, k) := rpm_cache os opt (w_k w) in Some (r, World (w_db w) k (w_err w)).
(** The objects of a helper.
    Source: lib/symboldb/download_repo.cpp 223-225, downloader::download_helper_task. *)
Definition helper_new : fsx (world C K) file_cache :=
  w_on_db database_new;;
  open_cache.
(** The state of the system and of the server is any: the other threads change it. *)
Definition may_download (u : rpm_url) (r : res url_outcome) : Prop := ∃ c w x w',
  download_url unescape nss_ lc os opt fuel c u w = Some (x, w') ∧ r = fst <$> x.
(** Source: lib/symboldb/download_repo.cpp 195-197, downloader::process. *)
Definition may_load (l : load_info) (r : res Z) : Prop := ∃ (s s' : load_state C S K),
  rpm_load nss_ la name_of error_constants behind XML_Parse parser io uninitialized rpm_open os pr PYTHON_SCRIPT opt fuel
    (until_nul (li_rpm_path l)) (Some (li_csum l)) (Some (until_nul (li_url l))) s = Some (r, s').
Lemma may_download_keeps u l : may_download u (Ok (ToLoad l)) → li_url l = ru_href u ∧ li_csum l = ru_csum u.
Proof using. intros (c & w & [[o lk]|e] & w' & Hd & [= <-]). by eapply download_url_keeps. Qed.
#[export] Instance program_loader : loader := {|
  l_download := may_download;
  l_load := may_load;
  l_setup r := ∃ w x w', helper_new w = Some (x, w') ∧ r = (_ ← x; Ok tt);
  l_task r := r = Ok tt ∨ ∃ errno, r = Throw (os_exception errno);
  l_keeps := may_download_keeps
|}.

(** The files, whose contents do not change while they are in the cache. *)
Context (H : hash_type → bytes → bytes) (absorbed : N → hash_type * bytes) (Hnss : nss_ok nss_ H absorbed).
Context (data : bytes → bytes) (rest : Z → K → bytes) (Hlaw : ∀ fd, read_law os fd (rest fd))
  (Hfile : ∀ path k fd k', fd_open_read_only os path (fd_new, k) = (Ok tt, (fd, k')) → rest fd k' = data path).

End Instance.

(** ** The command *)

Section Repo.
Context `{M : machine} {C : Type} `{L : libpq C} (unescape : bytes → option bytes) {K : Type} (opt : symboldb_options).
Context (rpmvercmp : bytes → bytes → Z) {P : Type} (ra : repositories (world C K) P) {R : Type} (rl : regex_lib R).
(** [std::random_shuffle], and the text of the times that are reported. *)
Context (random_shuffle : list rpm_url → list rpm_url) (times : bytes).
(** What a [downloader] leaves behind when it has run: the state, [urls_], [pids_] and
    [count_]. *)
Context (run : list rpm_url → bool → fsx (world C K) (list rpm_url * gset Z * Z)).
(** The fuel for the package lists. *)
Context (fuel : nat).

Abbreviation W := (world C K).
Abbreviation arch_map := (RpmInfo.arch_map (T := rpm_url)).
Definition info (text : bytes) : fsx W unit :=
  if negb (bool_decide (FileCache.output opt = quiet)) then w_stderr (str "info: " ++ text ++ [10]) else mret tt.
Definition error (text : bytes) : fsx W unit := w_stderr (str "error: " ++ text ++ [10]).

(** Source: lib/symboldb/download_repo.cpp 342-348, symboldb_download_repo. *)
Fixpoint add_packages (n : nat) (p : P) (pset : arch_map) : fsx W arch_map :=
  match n with
  | O => λ _, None
  | S n =>
      '(more, p) ← ra_next ra p;
      if (more : bool) then
        let x := ra_package ra p in
        add_packages n p (RpmInfo.add rpmvercmp pset (p_info x) (RpmUrl (pi_name (p_info x)) (p_href x) (p_checksum x)))
      else mret pset
  end.
(** Source: lib/symboldb/download_repo.cpp 333-349, symboldb_download_repo. *)
Fixpoint add_repositories (argv : list bytes) (pset : arch_map) : fsx W arch_map :=
  match argv with
  | [] => mret pset
  | url :: argv =>
      info (str "processing repository " ++ url);;
      rp ← ra_acquire ra (opt_download opt) url;
      primary ← ra_open ra rp (opt_download_always_cache opt);
      pset ← add_packages fuel primary pset;
      add_repositories argv pset
  end.
(** The regular expression is compiled here.
    Source: lib/symboldb/download_repo.cpp 357-371, symboldb_download_repo. *)
Definition select_urls (urls : list rpm_url) : fsx W (list rpm_url) :=
  urls ← (if exclude_name_present opt then
            rx ← fsx_attempt (Some (regex_new rl (until_nul (exclude_name opt)))) : fsx W R;
            '(urls, count) ← fsx_attempt (Some (remove_named rl rx 0 urls)) : fsx W _;
            info (str "package name filter excluded " ++ dec count ++ str " packages");;
            mret urls
          else mret urls) : fsx W (list rpm_url);
  mret (if randomize opt then random_shuffle urls else urls).
Fixpoint report_failed (urls : list rpm_url) : fsx W unit :=
  match urls with [] => mret tt | p :: urls => error (str "  " ++ until_nul (ru_href p));; report_failed urls end.

(** Source: lib/symboldb/download_repo.cpp 417-425, finalize_package_set. *)
Definition finalize_package_set (set_ : Z) : fsx W unit :=
  info (str "updating package set caches");;
  w_on_db (update_package_set_caches unescape set_).
(** The elements of a [std::set] in order. *)
Definition in_order (pids : gset Z) : list Z := merge_sort Z.le (elements pids).
(** The lock is released on an exception too.
    Source: lib/symboldb/download_repo.cpp 402-412, symboldb_download_repo. *)
Definition update_set (set_ : Z) (pids : list Z) : fsx W unit :=
  w_on_db txn_begin;;
  lock ← w_on_db (Database.lock 1667369644 set_);
  (λ w, match (changed ← w_on_db (update_package_set set_ pids);
               if (changed : bool) then finalize_package_set set_ else mret tt) w with
        | None => None
        | Some (r, w) => Some (r, World (unlock lock (w_db w)).2 (w_k w) (w_err w))
        end);;
  w_on_db txn_commit.

(** Whether to go on.
    Source: lib/symboldb/download_repo.cpp 385-400, symboldb_download_repo. *)
Definition report_left (do_pset_update : bool) (left : list rpm_url) (pids : gset Z) : fsx W bool :=
  if bool_decide (left = []) then mret true
  else
    error (dec (zlen left) ++ str " packages failed download:");;
    report_failed left;;
    if ignore_download_errors opt && do_pset_update then
      (if bool_decide (pids = ∅) then error (str "no packages left in download set")
       else w_stderr (str "warning: download errors ignored, continuing" ++ [10]));;
      mret true
    else mret false.
(** From the end of the downloader on.
    Source: lib/symboldb/download_repo.cpp 373-415, symboldb_download_repo. *)
Definition after_download (set_ : Z) (load : bool) (start_count : Z) (left : list rpm_url) (pids : gset Z) (count : Z) : fsx W Z :=
  info (str "downloaded " ++ dec count ++ str " of " ++ dec start_count ++ str " packages in " ++ times);;
  let do_pset_update := load && negb (set_ =? 0) in
  proceed ← report_left do_pset_update left pids;
  if negb (proceed : bool) then mret 1
  else (if do_pset_update then update_set set_ (in_order pids) else mret tt);; mret 0.

(** Source: lib/symboldb/download_repo.cpp 317-415, symboldb_download_repo. *)
Definition symboldb_download_repo (argv : list bytes) (load : bool) : fsx W Z :=
  set_ ← (if load && negb (bool_decide (FileCache.set_name opt = []))
          then w_on_db (lookup_package_set (until_nul (FileCache.set_name opt))) else mret 0) : fsx W Z;
  if load && negb (bool_decide (FileCache.set_name opt = [])) && (set_ =? 0) then
    error (str "unknown package set: " ++ until_nul (FileCache.set_name opt));;
    mret 1
  else
    pset ← add_repositories argv [];
    let urls := RpmInfo.values pset in
    info (dec (zlen urls) ++ str " packages in download set");;
    urls ← select_urls urls;
    '(left, pids, count) ← run urls load;
    after_download set_ load (zlen urls) left pids count.

(** Messages change nothing else. *)
Definition says (text : bytes) (w : W) : W := World (w_db w) (w_k w) (w_err w ++ text).
Lemma says_says a b w : says b (says a w) = says (a ++ b) w.
Proof using. unfold says. cbn. by rewrite app_assoc. Qed.
Definition quiet_as {A} (m : fsx W A) (a : A) : Prop := ∀ w, ∃ t, m w = Some (Ok a, says t w).
Lemma quiet_ret {A} (a : A) : quiet_as (mret a) a.
Proof using. intros w. exists []. unfold says. rewrite app_nil_r. by destruct w. Qed.
Lemma quiet_bind {A B} (m : fsx W A) (f : A → fsx W B) a b : quiet_as m a → quiet_as (f a) b → quiet_as (m ≫= f) b.
Proof using.
  intros Hm Hf w. destruct (Hm w) as [t Ht]. destruct (Hf (says t w)) as [t' Ht']. exists (t ++ t').
  by rewrite (fsx_bind_run _ _ _ _ _ Ht), Ht', says_says.
Qed.
Lemma quiet_stderr text : quiet_as (w_stderr text) tt.
Proof using. by exists text. Qed.
Lemma quiet_info text : quiet_as (info text) tt.
Proof using. unfold info. destruct (negb _); [apply quiet_stderr|apply quiet_ret]. Qed.
Lemma quiet_failed urls : quiet_as (report_failed urls) tt.
Proof using. induction urls as [|u urls IH]; [apply quiet_ret|]. eapply quiet_bind; [apply quiet_stderr|exact IH]. Qed.
Lemma quiet_left update left pids :
  quiet_as (report_left update left pids) (bool_decide (left = []) || ignore_download_errors opt && update).
Proof using.
  unfold report_left. case_bool_decide; [apply quiet_ret|]. eapply quiet_bind; [apply quiet_stderr|].
  eapply quiet_bind; [apply quiet_failed|]. cbn [orb]. destruct (_ && _); [|apply quiet_ret].
  eapply quiet_bind; [|apply quiet_ret]. case_bool_decide; apply quiet_stderr.
Qed.
Lemma w_on_db_Ok {A} (m : Database.db (C := C) A) (w : W) a w' : w_on_db m w = Some (Ok a, w') →
  m (w_db w) = (Ok a, w_db w') ∧ w_k w' = w_k w.
Proof using. unfold w_on_db. destruct (m (w_db w)) as [r d]. by intros [= -> <-]. Qed.

End Repo.

(** ** Concrete runs *)

Lemma runs_cons `{LD : loader} threads load s ev s1 tr s' :
  dstep threads load s ev s1 → runs threads load s1 tr s' → runs threads load s (ev :: tr) s'.
Proof.
  intros Hs. induction 1 as [|tr s2 ev2 s3 _ IH Hstep]; [|exact (runs_step _ _ _ _ _ _ _ IH Hstep)].
  exact (runs_step _ _ _ [] _ _ _ (runs_start _ _ _) Hs).
Qed.

(** One package can be had and is loaded as number 7, the other one never arrives. *)
Definition url_a : rpm_url := RpmUrl (str "a") (str "http://h/a") checksum_new.
Definition url_b : rpm_url := RpmUrl (str "b") (str "http://h/b") checksum_new.
Definition info_a : load_info := LoadInfo (str "http://h/a") (str "/cache/a") checksum_new true.
Definition toy_loader : loader.
Proof.
  refine {| l_download u r := r = Ok (if bool_decide (u = url_a) then ToLoad info_a else Failed);
    l_load _ r := r = Ok 7; l_setup r := r = Ok tt; l_task r := r = Ok tt |}.
  intros u l Hr. case_bool_decide as Hu; [|discriminate]. injection Hr as ->. by rewrite Hu.
Defined.
Definition toy_start : downloader := Downloader [url_b; url_a] [] ∅ (Queue [] 1 0) 0 0 (Starting 1) [].
Definition toy_end : downloader := Downloader [url_b] [] ({[7]} ∪ ∅) (Queue [] 1 0) 1 3 Finished [Gone].
Definition toy_trace : list devent :=
  [Silent; Silent; Silent; Silent; Silent; Silent; Silent; Fails url_b; Silent; Silent; Silent; Settled url_a (Loaded 7);
   Silent; Silent] ++ [Silent; Silent; Silent; Silent; Fails url_b; Silent; Silent; Silent; Silent]
  ++ [Silent; Silent; Silent; Silent; Fails url_b; Silent; Silent; Silent; Silent].
#[local] Tactic Notation "go" open_constr(c) := eapply runs_cons; [eapply c; first [reflexivity | exact I | discriminate | idtac]|cbn [app]].
Lemma toy_runs : @runs toy_loader 1 true toy_start toy_trace toy_end.
Proof.
  assert (Hretry : ∀ r tr s', @runs toy_loader 1 true
    (Downloader [] [url_b] ({[7]} ∪ ∅) (Queue [] 1 0) 1 r RoundOver [Gone]) tr s' →
    @runs toy_loader 1 true (Downloader [url_b] [] ({[7]} ∪ ∅) (Queue [] 1 0) 1 r (Starting 1) [])
      ([Silent; Silent; Silent; Silent; Fails url_b; Silent; Silent; Silent] ++ tr) s').
  { intros r tr s' Hr. go @ds_start. go @ds_started. go (@ds_open toy_loader 1%nat true _ _ _ _ _ _ _ [] []).
    go (@ds_take toy_loader 1%nat true [] _ _ _ _ _ _ _ [] []). go (@ds_fail toy_loader 1%nat true _ _ _ _ _ _ _ [] _ []).
    go (@ds_none toy_loader 1%nat true _ _ _ _ _ _ [] []). go (@ds_leave toy_loader 1%nat true _ _ _ _ _ _ _ _ _ [] []).
    go @ds_pop_end. exact Hr. }
  unfold toy_start, toy_trace. cbn [app]. go @ds_start. go @ds_started. go (@ds_open toy_loader 1%nat true _ _ _ _ _ _ _ [] []).
  go (@ds_take toy_loader 1%nat true [url_b] _ _ _ _ _ _ _ [] []). go (@ds_found toy_loader 1%nat true _ _ _ _ _ _ _ [] _ [] info_a).
  go (@ds_push toy_loader 1%nat true _ _ _ _ _ _ _ _ [] _ _ []). go (@ds_take toy_loader 1%nat true [] _ _ _ _ _ _ _ [] []).
  go (@ds_fail toy_loader 1%nat true _ _ _ _ _ _ _ [] _ []). go (@ds_none toy_loader 1%nat true _ _ _ _ _ _ [] []).
  go (@ds_leave toy_loader 1%nat true _ _ _ _ _ _ _ _ _ [] []). go @ds_pop. go @ds_loaded. go @ds_pop_end.
  go @ds_again; [lia|]. apply (Hretry 1%nat (Silent :: _)). go @ds_again; [lia|]. apply (Hretry 2%nat [Silent]).
  go @ds_give_up. apply runs_start.
Qed.
Lemma downloads_accounted_witness :
  [url_a; url_b] ≡ₚ settled toy_trace ++ [url_b] ∧ (3 <= occ url_b (fails toy_trace))%nat ∧ d_pids toy_end = list_to_set [7].
Proof.
  destruct (downloads_accounted (LD := toy_loader) 1 true [url_a; url_b] toy_start toy_trace toy_end eq_refl eq_refl toy_runs)
    as (_ & H1 & _ & _ & H2). destruct (H2 eq_refl) as [H3 H4]. split; [exact H3|]. split; [exact (H4 url_b)|exact H1].
Defined.
Lemma downloads_finish_witness :
  (length toy_trace <= steps_bound 1 2)%nat ∧ ∃ ev s', @dstep toy_loader 1 true toy_start ev s'.
Proof.
  assert (Hall : (∀ u, ∃ r, @l_download toy_loader u r) ∧ (∀ l, ∃ r, @l_load toy_loader l r))
    by (split; intros; by eexists).
  destruct (downloads_finish (LD := toy_loader) 1 true [url_a; url_b] toy_start toy_trace toy_end eq_refl eq_refl toy_runs
    (proj1 Hall) (proj2 Hall) (ex_intro _ _ eq_refl) (ex_intro _ _ eq_refl)) as [H1 _].
  destruct (downloads_finish (LD := toy_loader) 1 true [url_a; url_b] toy_start [] toy_start eq_refl eq_refl (runs_start _ _ _)
    (proj1 Hall) (proj2 Hall) (ex_intro _ _ eq_refl) (ex_intro _ _ eq_refl)) as [_ H2].
  split; [exact H1|exact (proj1 H2 I)].
Defined.

(** The package of RpmLoad.v in a cache from which nothing else can be read. *)
Definition one_cached (data : bytes) : posix bytes :=
  let p := one_file data in {|
  px_errno := px_errno p; px_open := px_open p; px_openat := px_openat p; px_close := px_close p;
  px_mkostemp := px_mkostemp p; px_dup := px_dup p; px_dupfd_cloexec := px_dupfd_cloexec p;
  px_getfd := px_getfd p; px_setfd := px_setfd p; px_fsync := px_fsync p;
  px_read := px_read p; px_write := px_write p; px_mkdirat := px_mkdirat p;
  px_unlinkat := px_unlinkat p; px_renameat := px_renameat p;
  px_fstatat _ _ k := (Some (Stat KindRegular (zlen data)), k);
  px_stat _ k := (Some (Stat KindDirectory 0), k); px_mkdtemp := px_mkdtemp p; px_mkdir := px_mkdir p; px_rmdir := px_rmdir p;
  px_access := px_access p; px_getenv := px_getenv p; px_opendir := px_opendir p; px_fdopendir := px_fdopendir p;
  px_readdir := px_readdir p; px_closedir := px_closedir p; px_dirfd := px_dirfd p;
  px_getcwd := px_getcwd p; px_readlink := px_readlink p; px_realpath := px_realpath p
|}.
Definition cache_options : symboldb_options := Options [] standard [] (str "/c") 1 false false false false.
Definition demo_url : rpm_url := RpmUrl (str "demo") (str "http://h/demo.rpm") (Checksum (toy_H sha256 demo_package) no_length sha256).
Definition demo_info : load_info :=
  LoadInfo (ru_href demo_url) (str "/c/rpms/" ++ base16_encode (csum_value (ru_csum demo_url))) (ru_csum demo_url) false.
Abbreviation demo_loader :=
  (@program_loader x86_64 tape tape_libpq (λ _, None) _ toy_nss script script_curl toy toy_data (toy_libelf sample_image) unit no_archives
    (λ _ e, e) [] [] unit (λ _ _ _, ([], status_ok (Position 0 0), tt)) tt bytes list_io sample_uninitialized demo_open
    bytes (one_cached demo_package) no_processes [] cache_options 9).
Definition demo_start : downloader := Downloader [demo_url] [] ∅ (Queue [] 1 0) 0 0 (Starting 1) [].
Definition demo_finished : downloader := Downloader [] [] ({[7]} ∪ ∅) (Queue [] 1 0) 1 0 Finished [Gone].
Definition demo_run_trace : list devent :=
  [Silent; Silent; Silent; Silent; Silent; Silent; Silent; Silent; Silent; Settled demo_url (Loaded 7); Silent; Silent].
Lemma demo_may_setup : @l_setup demo_loader (Ok tt).
Proof.
  exists (World (tape_state []) demo_package []), (Ok (FileCache (str "/c/rpms/") 3 true)). eexists.
  split; [vm_compute; reflexivity|reflexivity].
Qed.
Lemma demo_may_download : @l_download demo_loader demo_url (Ok (ToLoad demo_info)).
Proof.
  exists (FileCache (str "/c/rpms/") 3 true), (World (tape_state [Some command_ok; Some (table 1 [23] [])]) demo_package []).
  eexists (Ok (ToLoad demo_info, _)), _. split; [vm_compute; reflexivity|reflexivity].
Qed.
Definition demo_url_replies : list (option query_result) := take 13 demo_replies ++ [Some command_ok; Some command_ok].
Lemma demo_may_load : @l_load demo_loader demo_info (Ok 7).
Proof. exists (demo_server demo_url_replies). eexists. vm_compute. reflexivity. Qed.
Lemma demo_runs : @runs demo_loader 1 true demo_start demo_run_trace demo_finished.
Proof.
  unfold demo_start, demo_run_trace. go @ds_start; [by left|]. go @ds_started.
  go (@ds_open demo_loader 1%nat true _ _ _ _ _ _ _ [] []); [exact demo_may_setup|].
  go (@ds_take demo_loader 1%nat true [] _ _ _ _ _ _ _ [] []).
  go (@ds_found demo_loader 1%nat true _ _ _ _ _ _ _ [] _ [] demo_info); [exact demo_may_download|].
  go (@ds_push demo_loader 1%nat true _ _ _ _ _ _ _ _ [] _ _ []). go (@ds_none demo_loader 1%nat true _ _ _ _ _ _ [] []).
  go (@ds_leave demo_loader 1%nat true _ _ _ _ _ _ _ _ _ [] []). go @ds_pop.
  go (@ds_loaded demo_loader 1%nat true _ _ _ _ _ _ (str "demo", demo_info)); [exact demo_may_load|].
  go @ds_pop_end. go @ds_finished. apply runs_start.
Qed.

(** No set of this name; and one package that never arrived. *)
Definition no_repositories : repositories (world tape unit) unit :=
  Repositories (λ _ _ _, None) (λ _ _ _, None) (λ _ _, None) (λ _, Primary [] rpm_package_info_new [] checksum_new) (λ _, []).
Definition no_regex : regex_lib unit := RegexLib unit (λ _ _, (0, tt)) (λ _ _, 1) (λ _ _, []).
Definition set_options : symboldb_options := Options [] quiet (str "nope") [] 3 false false false false.
Abbreviation demo_command := (@symboldb_download_repo x86_64 tape tape_libpq (λ _, None) unit set_options length_vercmp unit no_repositories
  unit no_regex Datatypes.id [] (λ _ _ _, None) 9 [str "http://h/"] true).
Abbreviation demo_after left w := (@after_download x86_64 tape tape_libpq (λ _, None) unit set_options [] 5 true 1 left ∅ 0 w).
