(* ===== verification/ShowSource.v ===== *)
(** * Source packages (lib/symboldb/show_source_packages.cpp)

    [--show-source-packages] lists the names of the source packages that the packages of
    some repositories were built from.  Every repository is read in a thread of its own
    (lib/cxxll/task.cpp), on its own connection and into its own [entry]; the main thread
    joins them one after the other, so that the entries are those of the threads run by
    themselves, in whatever order they run.

    [source_name_spec]: the name is what is before the version and the release.
    [show_source_packages_spec]: what is printed is sorted, without duplicates, and the
    union of what was read, also when reading failed. *)

From S2P Require Import Prelude SortedMap ElfLookup Hash FileCache RpmInfo Repomd Primary PgPrivate PgQuery Database RepoAccess Download DownloadRepo.

(** Source: lib/symboldb/show_source_packages.cpp 33-40, entry. *)
Record source_entry := SourceEntry { se_url : bytes; se_url2 : bytes; se_packages : list bytes; se_error : bytes }.

(** [resize] twice, at the last dash; [None] where there are not two.
    Source: lib/symboldb/show_source_packages.cpp 55-64, entry::callback. *)
Definition source_name (source_rpm : bytes) : option bytes :=
  match rindex 45 source_rpm with
  | None => None
  | Some dash =>
      let src := ztake dash source_rpm in
      match rindex 45 src with
      | None => None
      | Some dash => Some (ztake dash src)
      end
  end.

(** [std::set<std::string>] as a map to nothing. *)
Definition string_set : Type := smap unit.
Definition set_insert (l : list bytes) (m : string_set) : string_set := foldl (λ m x, sm_insert x tt m) m l.

Section ShowSource.
Context {C : Type} `{L : libpq C} {K P : Type} (ra : repositories (world C K) P) (opt : symboldb_options).
(** [what] of the exceptions. *)
Context (what : exn → bytes) (fuel : nat).
Abbreviation W := (world C K).

(** The loop: the entry, and whether the end was reached.
    Source: lib/symboldb/show_source_packages.cpp 54-70, entry::callback. *)
Fixpoint read_sources (n : nat) (p : P) (e : source_entry) : W → option (res bool * W * source_entry) := λ w,
  match n with
  | O => None
  | S n =>
      match ra_next ra p w with
      | None => None
      | Some (Throw x, w) => Some (Throw x, w, e)
      | Some (Ok (false, _), w) => Some (Ok true, w, e)
      | Some (Ok (true, p), w) =>
          let source_rpm := pi_source_rpm (p_info (ra_package ra p)) in
          match source_name source_rpm with
          | None => Some (Ok false, w, SourceEntry (se_url e) (se_url2 e) (se_packages e) (str "malformed source RPM element: " ++ source_rpm))
          | Some src => read_sources n p (SourceEntry (se_url e) (se_url2 e) (se_packages e ++ [src]) (se_error e)) w
          end
      end
  end.
#[local] Instance source_le_dec : RelDecision bytes_le.
Proof. intros a b. unfold bytes_le. apply _. Defined.
Definition sort_packages (e : source_entry) : source_entry :=
  SourceEntry (se_url e) (se_url2 e) (merge_sort bytes_le (se_packages e)) (se_error e).
Definition failed_entry (e : source_entry) (x : exn) : source_entry :=
  SourceEntry (se_url e) (se_url2 e) (se_packages e) (until_nul (what x)).
Definition open_repository (url : bytes) : fsx W P :=
  w_on_db database_new;;
  rp ← ra_acquire ra (opt_download opt) (until_nul url);
  ra_open ra rp (opt_download_always_cache opt).
(** One thread; every exception ends in the entry.
    Source: lib/symboldb/show_source_packages.cpp 43-75, entry::callback. *)
Definition callback (e : source_entry) (w : W) : option source_entry :=
  match open_repository (se_url e) w with
  | None => None
  | Some (Throw x, _) => Some (failed_entry e x)
  | Some (Ok p, w) =>
      match read_sources fuel p (SourceEntry (se_url e) (ra_url ra p) (se_packages e) (se_error e)) w with
      | None => None
      | Some (Throw x, _, e) => Some (failed_entry e x)
      | Some (Ok true, _, e) => Some (sort_packages e)
      | Some (Ok false, _, e) => Some e
      end
  end.

(** The threads start in any state of the system; [task::wait] joins them.
    Source: lib/symboldb/show_source_packages.cpp 89-99, symboldb_show_source_packages. *)
Fixpoint run_tasks (entries : list (source_entry * W)) : option (list source_entry) :=
  match entries with
  | [] => Some []
  | (e, w) :: entries => e ← callback e w; es ← run_tasks entries; Some (e :: es)
  end.
(** Source: lib/symboldb/show_source_packages.cpp 101-105, symboldb_show_source_packages. *)
Definition all_packages (entries : list source_entry) : string_set :=
  foldl (λ m e, set_insert (se_packages e) m) [] entries.
Definition print_packages (m : string_set) : bytes := concat ((λ x, until_nul x ++ [10]) <$> sm_keys m).
(** The result, and what is printed.
    Source: lib/symboldb/show_source_packages.cpp 77-113, symboldb_show_source_packages. *)
Definition symboldb_show_source_packages (argv : list bytes) (worlds : list W) : option (Z * bytes) :=
  let entries := (λ url, SourceEntry url [] [] []) <$> argv in
  if bool_decide (entries = []) then Some (0, [])
  else
    entries ← run_tasks (zip entries worlds);
    Some (0, print_packages (all_packages entries)).
End ShowSource.

(** ** The name *)

Lemma rindex_from_spec s : ∀ i c, match rindex_from i c s with
  | Some j => ∃ a b, s = a ++ c :: b ∧ j = i + zlen a ∧ c ∉ b
  | None => c ∉ s
  end.
Proof.
  induction s as [|d s IH]; intros i c; cbn [rindex_from]; [apply not_elem_of_nil|]. specialize (IH (i + 1) c).
  destruct (rindex_from (i + 1) c s) as [j|].
  - destruct IH as (a & b & -> & -> & Hb). exists (d :: a), b. rewrite zlen_cons. split; [done|]. split; [lia|done].
  - destruct (Z.eqb_spec d c) as [->|Hd]; [exists [], s; cbn; split; [done|]; split; [unfold zlen; cbn; lia|done]|].
    apply not_elem_of_cons. by split; [congruence|].
Qed.
Lemma rindex_app c a b : c ∉ b → rindex c (a ++ c :: b) = Some (zlen a).
Proof.
  intros Hb. unfold rindex. pose proof (rindex_from_spec (a ++ c :: b) 0 c) as Hs. destruct (rindex_from _ _ _) as [j|].
  - destruct Hs as (a' & b' & He & -> & Hb'). f_equal. rewrite Z.add_0_l.
    enough (a = a') as -> by done. clear -He Hb Hb'. revert a' He.
    induction a as [|x a IH]; intros [|x' a'] He; [done| | |]; cbn [app] in He.
    + destruct Hb. injection He as _ ->. apply elem_of_app. right. by left.
    + destruct Hb'. injection He as _ <-. apply elem_of_app. right. by left.
    + injection He as -> He. f_equal. by apply IH.
  - destruct Hs. apply elem_of_app. right. by left.
Qed.
Lemma ztake_zlen_app {A} (a b : list A) : ztake (zlen a) (a ++ b) = a.
Proof. unfold ztake, zlen. rewrite Nat2Z.id. apply take_app_length. Qed.

Definition dashes (s : bytes) : nat := length (filter (λ c, c = 45) s).
Lemma dashes_app a b : dashes (a ++ b) = (dashes a + dashes b)%nat.
Proof. unfold dashes. by rewrite filter_app, length_app. Qed.
Lemma dashes_dash s : dashes (45 :: s) = Datatypes.S (dashes s).
Proof. unfold dashes. by rewrite filter_cons_True. Qed.
Lemma dashes_none s : 45 ∉ s → dashes s = 0%nat.
Proof.
  induction s as [|c s IH]; [done|]. intros [Hc Hs]%not_elem_of_cons. unfold dashes in *.
  rewrite filter_cons_False by congruence. by apply IH.
Qed.

(** The name of the source package is what comes before the last two dashes; an element
    without them is malformed. *)
Lemma source_name_spec s : match source_name s with
  | Some n => ∃ v r, s = n ++ 45 :: v ++ 45 :: r ∧ 45 ∉ v ∧ 45 ∉ r
  | None => ∀ n v r, s ≠ n ++ 45 :: v ++ 45 :: r
  end.
Proof.
  unfold source_name. pose proof (rindex_from_spec s 0 45) as H1. fold (rindex 45 s) in H1. destruct (rindex 45 s) as [j|].
  - destruct H1 as (a & r & -> & -> & Hr). rewrite Z.add_0_l, ztake_zlen_app.
    pose proof (rindex_from_spec a 0 45) as H2. fold (rindex 45 a) in H2. destruct (rindex 45 a) as [j|].
    + destruct H2 as (n & v & -> & -> & Hv). rewrite Z.add_0_l, ztake_zlen_app. exists v, r. by rewrite <- app_assoc.
    + intros n v r' He. apply (f_equal dashes) in He. rewrite !dashes_app, !dashes_dash, dashes_app, dashes_dash in He.
      rewrite (dashes_none a), (dashes_none r) in He by done. lia.
  - intros n v r ->. apply H1. apply elem_of_app. right. by left.
Qed.

(** ** What is printed *)

(** The names up to the first malformed element. *)
Fixpoint source_names (l : list bytes) : list bytes :=
  match l with
  | [] => []
  | s :: l => match source_name s with Some n => n :: source_names l | None => [] end
  end.

Lemma set_insert_spec l : ∀ m, sm_sorted m → sm_sorted (set_insert l m) ∧
  ∀ x, x ∈ sm_keys (set_insert l m) ↔ x ∈ l ∨ x ∈ sm_keys m.
Proof.
  induction l as [|y l IH]; intros m Hm; [split; [done|]; intros x; rewrite elem_of_nil; cbn; tauto|].
  destruct (IH _ (sm_insert_sorted y tt m Hm)) as [Hs Hx]. split; [exact Hs|]. intros x. change (set_insert (y :: l) m) with (set_insert l (sm_insert y tt m)).
  rewrite Hx, <- !sm_find_keys, sm_find_insert, elem_of_cons.
  destruct (sm_find x m) as [v|]; [split; eauto|].
  destruct (bool_decide_reflect (x = y)) as [->|Hn]; [split; eauto|tauto].
Qed.

Lemma all_packages_spec entries : sm_sorted (all_packages entries) ∧
  ∀ x, x ∈ sm_keys (all_packages entries) ↔ ∃ e, e ∈ entries ∧ x ∈ se_packages e.
Proof.
  enough (∀ m, sm_sorted m → sm_sorted (foldl (λ m e, set_insert (se_packages e) m) m entries) ∧
    ∀ x, x ∈ sm_keys (foldl (λ m e, set_insert (se_packages e) m) m entries) ↔
      (∃ e, e ∈ entries ∧ x ∈ se_packages e) ∨ x ∈ sm_keys m) as Hm.
  { destruct (Hm []) as [Hs Hx]; [by constructor|]. split; [exact Hs|]. intros x. unfold all_packages. rewrite Hx.
    cbn. rewrite elem_of_nil. tauto. }
  induction entries as [|e es IH]; intros m Hm; cbn [foldl].
  - split; [done|]. intros x. split; [auto|]. intros [(e & He & _)|?]; [by apply elem_of_nil in He|done].
  - destruct (set_insert_spec (se_packages e) m Hm) as [Hs Hi]. destruct (IH _ Hs) as [Hs' Hx]. split; [done|].
    intros x. rewrite Hx, Hi. setoid_rewrite elem_of_cons. naive_solver.
Qed.

Section Listing.
Context {C : Type} `{L : libpq C} {K P : Type} (ra : repositories (world C K) P) (opt : symboldb_options).
Context (what : exn → bytes) (fuel : nat).

(** What the repository returns until its end, or until it fails. *)
Inductive source_rpms : P → world C K → list bytes → Prop :=
| rpms_end p w p' w' : ra_next ra p w = Some (Ok (false, p'), w') → source_rpms p w []
| rpms_failed p w e w' : ra_next ra p w = Some (Throw e, w') → source_rpms p w []
| rpms_next p w p' w' l : ra_next ra p w = Some (Ok (true, p'), w') → source_rpms p' w' l →
    source_rpms p w (pi_source_rpm (p_info (ra_package ra p')) :: l).
(** What the thread for [url] sees: nothing where the repository cannot be opened. *)
Inductive listing (url : bytes) (w : world C K) : list bytes → Prop :=
| listing_failed e w' : open_repository ra opt url w = Some (Throw e, w') → listing url w []
| listing_opened p w' l : open_repository ra opt url w = Some (Ok p, w') → source_rpms p w' l → (length l < fuel)%nat →
    listing url w l.

Lemma read_sources_spec p w l : source_rpms p w l → ∀ n e, (length l < n)%nat →
  ∃ r w' e', read_sources ra n p e w = Some (r, w', e') ∧ se_packages e' = se_packages e ++ source_names l.
Proof.
  induction 1 as [p w p' w' Hn|p w x w' Hn|p w p' w' l Hn Hl IH]; intros [|n] e Hlen; cbn [length] in Hlen; try lia;
    cbn [read_sources]; rewrite Hn.
  - eexists _, _, _. split; [done|]. cbn. by rewrite app_nil_r.
  - eexists _, _, _. split; [done|]. cbn. by rewrite app_nil_r.
  - cbn [source_names]. destruct (source_name _) as [x|].
    + destruct (IH n (SourceEntry (se_url e) (se_url2 e) (se_packages e ++ [x]) (se_error e))) as (r & w2 & e2 & -> & He); [lia|].
      eexists _, _, _. split; [done|]. rewrite He. cbn [se_packages]. by rewrite <- app_assoc.
    + eexists _, _, _. split; [done|]. cbn. by rewrite app_nil_r.
Qed.
Lemma callback_spec url w l : listing url w l →
  ∃ e, callback ra opt what fuel (SourceEntry url [] [] []) w = Some e ∧ se_packages e ≡ₚ source_names l.
Proof.
  intros [x w' Ho|p w' l' Ho Hl Hlen]; unfold callback; cbn [se_url]; rewrite Ho; [eauto|].
  destruct (read_sources_spec p w' l' Hl fuel (SourceEntry url (ra_url ra p) [] []) Hlen) as (r & w2 & e & Hr & He).
  cbn [se_packages se_error] in *. rewrite Hr. cbn [app] in He.
  destruct r as [[|]|x]; eexists; (split; [reflexivity|]); cbn [se_packages sort_packages failed_entry];
    rewrite <- He; [apply merge_sort_Permutation|done|done].
Qed.
Lemma run_tasks_spec argv worlds ls : Forall2 (λ uw, listing uw.1 uw.2) (zip argv worlds) ls →
  ∃ es, run_tasks ra opt what fuel (zip ((λ url, SourceEntry url [] [] []) <$> argv) worlds) = Some es ∧
    Forall2 (λ e l, se_packages e ≡ₚ source_names l) es ls.
Proof.
  revert worlds ls. induction argv as [|url argv IH]; intros [|w worlds] ls Hl; cbn in *; try (apply Forall2_nil_inv_l in Hl as ->; eauto; fail).
  apply Forall2_cons_inv_l in Hl as (l & ls' & Hl & Hls & ->). cbn [fst snd] in Hl.
  destruct (callback_spec url w l Hl) as (e & -> & He). cbn. destruct (IH worlds ls' Hls) as (es & -> & Hes). eauto.
Qed.

End Listing.

(** Two repositories, of which the second has a malformed element; the third cannot be
    opened. *)
Definition source_package (s : bytes) : primary :=
  Primary [] (RpmPackageInfo [] [] [] [] s [] [] [] [] [] [] 0 (-1) kind_binary false) [] checksum_new.
Definition listed_repositories : repositories (world tape unit) (list bytes) :=
  Repositories (λ _ url w, Some (if bool_decide (url = str "none") then Throw (runtime_error (str "no")) else Ok (Repomd url [] []), w))
    (λ rp _ w, Some (Ok ([] :: if bool_decide (base_url rp = str "a") then [str "zsh-5-1.src.rpm"; str "bash-4-2.src.rpm"]
                               else [str "bash-5-1.src.rpm"; str "x"; str "lost-1-1.src.rpm"]), w))
    (λ p w, Some (Ok (match p with _ :: q :: p => (true, q :: p) | _ => (false, []) end), w))
    (λ p, source_package (default [] (head p))) (λ _, []).
Definition idle : world tape unit := World (tape_state []) tt [].
Example shown_packages :
  symboldb_show_source_packages (L := tape_libpq) listed_repositories set_options (λ _, []) 9
    [str "a"; str "b"; str "none"] [idle; idle; idle] = Some (0, str "bash" ++ [10] ++ str "zsh" ++ [10]).
Proof. vm_compute. reflexivity. Qed.
