(* ===== verification/Symboldb.v ===== *)
(** * The command line (src/symboldb.cpp)

    [main] reads the options, connects to the database and runs one command.  The commands
    are those of the other components; what they need of them that does not only concern
    the database is the record [parts], which is put together from the components at the
    end of the file ([program_parts]).

    Text for the standard output goes to [Database.output]; what is written to descriptor
    1 goes to a state of its own, [Out].

    [parse_options_spec]: the last command wins, usage errors are found before anything
    is done.  [main_spec]: the exit status.  [do_update_set_spec]: a set is only changed
    when all packages were loaded.  [run_example_spec]: the statements of a file are its
    maximal runs of indented lines.  [stale_cached_rpms_spec]: the files reported as stale
    are those that [expire] removes. *)

From S2P Require Import Prelude StringSupport Base16 Hash SourceSink SortedMap Posix OsException FileCache Subprocess PythonAnalyzer RpmInfo RpmParser Xml Expat Repomd PgPrivate PgQuery Database ElfImage ZipFile UrlSource FileHandle Download RpmLoad GetFile DownloadRepo.
#[local] Set Warnings "-clear-no-such-hyp".

(** ** What the commands need *)

(** [W] is the state without descriptor 1, whose state is [Out]; [Px] is an open package
    list, [primary_xml]. *)
Record parts (W Out Px : Type) := Parts {
  pt_rpm_load : bytes → rpm_package_info → fsx W (Z * rpm_package_info);
  pt_get_file : bytes → fsx (W * Out) bool;
  pt_download : bytes → fsx (W * Out) unit;
  pt_acquire : cache_mode → bytes → fsx W repomd;
  pt_primary_xml : repomd → cache_mode → fsx W Px;
  pt_copy_primary : Px → fsx (W * Out) unit;
  pt_download_repo : list bytes → bool → fsx W Z;
  pt_show_source_packages : list bytes → fsx W Z;
  pt_expire : fsx W unit
}.
Arguments Parts {W Out Px}. Arguments pt_rpm_load {W Out Px}. Arguments pt_get_file {W Out Px}. Arguments pt_download {W Out Px}.
Arguments pt_acquire {W Out Px}. Arguments pt_primary_xml {W Out Px}. Arguments pt_copy_primary {W Out Px}.
Arguments pt_download_repo {W Out Px}. Arguments pt_show_source_packages {W Out Px}. Arguments pt_expire {W Out Px}.

(** [fsx] on the first component. *)
Definition fsx_first {W Out A} (m : fsx W A) : fsx (W * Out) A := λ '(w, o),
  match m w with None => None | Some (r, w) => Some (r, (w, o)) end.

Section Commands.
Context `{M : machine} {C : Type} `{L : libpq C} (unescape : bytes → option bytes) (SCHEMA_BASE SCHEMA_INDEX : bytes).
Context {K : Type} (os : posix K) (io : stdio K) (rpmvercmp : bytes → bytes → Z).
(** What [dump] prints of a [pg_exception]; the value of an [unsigned] without
    initialisation. *)
Context (dump_pg : bytes → bytes) (uninitialized : Z).
Context {Out Px : Type} (pt : parts (world C K) Out Px) (opt : symboldb_options) (fuel : nat).
Abbreviation W := (world C K).
Abbreviation id_map := (RpmInfo.arch_map (T := Z)).

Definition w_stdout (text : bytes) : fsx W unit := w_on_db (λ d, (Ok tt,
  DbSt (db_pg d) (file_attribute_cache d) (file_names d) (Database.output d ++ text))).

(** The packages and their metadata, [info] being used for one after the other; [None]
    where it returns false.
    Source: src/symboldb.cpp 58-66, load_rpms. *)
Fixpoint load_rpms_loop (argv : list bytes) (info : rpm_package_info) (ids : id_map) : fsx W (option id_map) :=
  match argv with
  | [] => mret (Some ids)
  | path :: argv =>
      '(pkg, info) ← pt_rpm_load pt path info;
      if pkg =? 0 then mret None
      else load_rpms_loop argv info (RpmInfo.add rpmvercmp ids info pkg)
  end.
(** Source: src/symboldb.cpp 54-67, load_rpms. *)
Definition load_rpms (argv : list bytes) (ids : id_map) : fsx W (option id_map) :=
  load_rpms_loop argv rpm_package_info_new ids.

(** Source: src/symboldb.cpp 69-73, do_create_schema. *)
Definition do_create_schema (base index : bool) : fsx W Z :=
  w_on_db (create_schema SCHEMA_BASE SCHEMA_INDEX base index);; mret 0.

(** Source: src/symboldb.cpp 75-83, do_load_rpm. *)
Definition do_load_rpm (argv : list bytes) : fsx W Z :=
  ignored ← load_rpms argv [];
  match (ignored : option id_map) with None => mret 1 | Some _ => mret 0 end.

Definition opt_set_name : bytes := until_nul (FileCache.set_name opt).
Definition quoted (s : bytes) : bytes := [34] ++ s ++ [34].
(** Source: src/symboldb.cpp 85-113, do_create_set. *)
Definition do_create_set (argv : list bytes) : fsx W Z :=
  old ← w_on_db (lookup_package_set opt_set_name);
  if negb (old =? 0) then
    w_stderr (str "error: package set " ++ quoted opt_set_name ++ str " already exists" ++ [10]);;
    mret 1
  else
    psc ← load_rpms argv [];
    match (psc : option id_map) with
    | None => mret 1
    | Some psc =>
        let ids := RpmInfo.values psc in
        w_on_db txn_begin;;
        set_ ← w_on_db (create_package_set opt_set_name);
        changed ← w_on_db (update_package_set set_ ids);
        (if (changed : bool) then finalize_package_set unescape opt set_ else mret tt);;
        w_on_db txn_commit;;
        mret 0
    end.

(** The transaction is that of the download of repositories.
    Source: src/symboldb.cpp 115-145, do_update_set. *)
Definition do_update_set (argv : list bytes) : fsx W Z :=
  set_ ← w_on_db (lookup_package_set opt_set_name);
  if set_ =? 0 then
    w_stderr (str "error: package set " ++ quoted opt_set_name ++ str " does not exist" ++ [10]);;
    mret 1
  else
    psc ← load_rpms argv [];
    match (psc : option id_map) with
    | None => mret 1
    | Some psc =>
        let ids := RpmInfo.values psc in
        update_set unescape opt set_ ids;;
        mret 0
    end.

(** An exception of the decoder is ignored, and what it has decoded is kept.
    Source: src/symboldb.cpp 147-169, do_file. *)
Definition do_file (arg : bytes) : fsx (W * Out) Z :=
  let file := arg in
  let digest := if zlen file =? 64 then (base16_decode file).1 else [] in
  if negb (bool_decide (digest = [])) then
    found ← pt_get_file pt digest;
    if negb found then
      fsx_first (w_stderr (str "error: could not locate file with digest " ++ until_nul file ++ [10]));; mret 1
    else mret 0
  else
    fsx_first (w_stderr (str "error: not a hexadecimal SHA-256 digest: " ++ until_nul arg ++ [10]));; mret 1.

(** Source: src/symboldb.cpp 171-177, do_download. *)
Definition do_download (url : bytes) : fsx (W * Out) Z := pt_download pt url;; mret 0.

(** Source: src/symboldb.cpp 184-190, do_show_repomd. *)
Fixpoint show_entries (rp : repomd) (entries : list entry) : fsx W unit :=
  match entries with
  | [] => mret tt
  | p :: entries =>
      let entry_url := url_combine_yum (until_nul (base_url rp)) (until_nul (en_href p)) in
      w_stdout (str "entry: " ++ until_nul (en_type p) ++ str " " ++ until_nul entry_url ++ [10]);;
      show_entries rp entries
  end.
(** Source: src/symboldb.cpp 179-192, do_show_repomd. *)
Definition do_show_repomd (base : bytes) : fsx W Z :=
  rp ← pt_acquire pt (opt_download opt) base;
  w_stdout (str "revision: " ++ until_nul (revision rp) ++ [10]);;
  show_entries rp (Repomd.entries rp);;
  mret 0.

(** Source: src/symboldb.cpp 194-203, do_show_primary. *)
Definition do_show_primary (base : bytes) : fsx (W * Out) Z :=
  rp ← fsx_first (pt_acquire pt (opt_download opt) base);
  primary ← fsx_first (pt_primary_xml pt rp (opt_download_always_cache opt));
  pt_copy_primary pt primary;;
  mret 0.

Definition w_on_k {A} (m : sx K A) : fsx W A := λ w,
  let '(r, k) := m (w_k w) in Some (r, World (w_db w) k (w_err w)).
Fixpoint print_digests (digests : list bytes) : fsx W unit :=
  match digests with [] => mret tt | p :: digests => w_stdout (base16_encode p ++ [10]);; print_digests digests end.
#[local] Instance digest_le_dec : RelDecision bytes_le.
Proof using. intros a b. unfold bytes_le. apply _. Defined.
(** What [expire] would remove.
    Source: src/symboldb.cpp 209-218, do_show_stale_cached_rpms. *)
Definition stale_digests (fcdigests dbdigests : list bytes) : list bytes :=
  let fcdigests := merge_sort bytes_le fcdigests in
  set_difference (length fcdigests + length dbdigests) fcdigests dbdigests.
Definition cached_digests (fcache : file_cache) : fsx W (list bytes) := λ w,
  match digests os fuel fcache (w_k w) with
  | None => None
  | Some (r, k) => Some (r, World (w_db w) k (w_err w))
  end.
(** Source: src/symboldb.cpp 210-223, do_show_stale_cached_rpms. *)
Definition show_stale (fcache : file_cache) : fsx W Z :=
  fcdigests ← cached_digests fcache;
  dbdigests ← w_on_db (referenced_package_digests unescape []);
  print_digests (stale_digests fcdigests dbdigests);;
  mret 0.
(** The cache is closed on every way out.
    Source: src/symboldb.cpp 205-224, do_show_stale_cached_rpms. *)
Definition do_show_stale_cached_rpms : fsx W Z := λ w,
  match w_on_k (rpm_cache os opt) w with
  | None => None
  | Some (Throw e, w) => Some (Throw e, w)
  | Some (Ok fcache, w) =>
      match show_stale fcache w with
      | None => None
      | Some (r, w) => Some (r, World (w_db w) (file_cache_destroy os fcache (w_k w)) (w_err w))
      end
  end.

(** Source: src/symboldb.cpp 226-237, do_show_soname_conflicts. *)
Definition do_show_soname_conflicts : fsx W Z :=
  pset ← w_on_db (lookup_package_set opt_set_name);
  if 0 <? pset then w_on_db (print_elf_soname_conflicts unescape pset);; mret 0
  else w_stderr (str "error: invalid package set: " ++ opt_set_name ++ [10]);; mret 1.

(** ** Example queries *)

(** The statement so far, the number of the line, and that of the first line of the
    statement. *)
Record example_state := ExampleState { ex_current : bytes; ex_lineno : Z; ex_start : Z }.

(** Source: src/symboldb.cpp 260-263, do_run_example. *)
Definition example_execute (path current : bytes) (start_lineno : Z) : fsx W unit :=
  (if negb (bool_decide (FileCache.output opt = quiet))
   then w_stderr (str "info: executing " ++ path ++ str ":" ++ dec start_lineno ++ [10]) else mret tt);;
  w_on_db (exec_sql (until_nul current)).
(** The body of the loop.
    Source: src/symboldb.cpp 251-272, do_run_example. *)
Definition example_line (path line : bytes) (st : example_state) : fsx W example_state :=
  let lineno := u32 (ex_lineno st + 1) in
  let current := ex_current st in
  let start := bool_decide (current = []) in
  '(current, start) ←
    (if starts_with line (str "    ") then mret (current ++ str "      " ++ zdrop 4 line, start)
     else if starts_with line [9] then mret (current ++ zdrop 1 line, start)
     else if negb (bool_decide (current = [])) then example_execute path current (ex_start st);; mret ([], false)
     else mret (current, false)) : fsx W (bytes * bool);
  mret (ExampleState current lineno (if (start : bool) && negb (bool_decide (current = [])) then lineno else ex_start st)).
Definition example_getline (file : Z) : fsx W (option bytes) := λ w,
  let '(r, k) := fh_getline io file (w_k w) in Some (r, World (w_db w) k (w_err w)).
(** Source: src/symboldb.cpp 249-279, do_run_example. *)
Fixpoint example_loop (n : nat) (path : bytes) (file : Z) (st : example_state) : fsx W unit :=
  match n with
  | O => λ _, None
  | Datatypes.S n =>
      line ← example_getline file;
      match line with
      | Some line => st ← example_line path line st; example_loop n path file st
      | None =>
          if negb (bool_decide (ex_current st = [])) then example_execute path (ex_current st) (ex_start st) else mret tt
      end
  end.
(** One file: whether there was an error of the database; the file is closed on every way
    out.
    Source: src/symboldb.cpp 243-283, do_run_example. *)
Definition example_file (path : bytes) : fsx W bool := λ w,
  match fh_open io path (str "r") (w_k w) with
  | (Throw e, k) => Some (Throw e, World (w_db w) k (w_err w))
  | (Ok file, k) =>
      match example_loop fuel path file (ExampleState [] 0 uninitialized) (World (w_db w) k (w_err w)) with
      | None => None
      | Some (r, w) =>
          let close w := World (w_db w) (fh_destroy io (Some file) (w_k w)) (w_err w) in
          match r with
          | Ok _ => Some (Ok false, close w)
          | Throw (pg_exception what) => Some (Ok true, close (World (w_db w) (w_k w) (w_err w ++ dump_pg what)))
          | Throw e => Some (Throw e, close w)
          end
      end
  end.
(** Source: src/symboldb.cpp 242-285, do_run_example. *)
Fixpoint run_examples (argv : list bytes) (errors : Z) : fsx W Z :=
  match argv with
  | [] => mret errors
  | path :: argv => failed ← example_file path; run_examples argv (if (failed : bool) then to_signed 32 (errors + 1) else errors)
  end.
(** Source: src/symboldb.cpp 239-290, do_run_example. *)
Definition do_run_example (argv : list bytes) : fsx W Z :=
  errors ← run_examples argv 0;
  if 0 <? errors then mret 1 else mret 0.
End Commands.

(** ** The options *)

(** Source: src/symboldb.cpp 329-351, command::type. *)
Inductive command :=
| undefined | create_schema_ | create_schema_base | create_schema_index | load_rpm | create_set_ | update_set_
| update_set_from_repo | download_ | download_repo | load_repo | file_ | show_repomd | show_primary
| show_source_packages | show_stale_cached_rpms | show_soname_conflicts | expire_ | run_example.
#[global] Instance command_eq_dec : EqDecision command.
Proof. solve_decision. Defined.
(** What [getopt_long] returns for an argument: a value of [long_options] or a letter, and
    [optarg]; anything else is reported by it and is [ch_unknown].
    Source: src/symboldb.cpp 370-400, main. *)
Inductive opt_char :=
| ch_command (c : command) | ch_N | ch_C | ch_q | ch_v | ch_exclude_name | ch_download_threads | ch_randomize
| ch_delete_rpms | ch_ignore_download_errors | ch_unknown.

(** [atoi] of the C library. *)
Definition atoi (s : bytes) : Z := to_signed 32 (strtoll s).1.

(** What [usage] is called with, besides [argv[0]]. *)
Inductive parsed (A : Type) := Parsed (a : A) | Usage (error : option bytes).
Arguments Parsed {A}. Arguments Usage {A}.
Definition with_cmd (opt : symboldb_options) (name : bytes) : symboldb_options :=
  Options (exclude_names_ opt) (FileCache.output opt) name (cache_path opt) (download_threads opt) (no_net opt)
    (ignore_download_errors opt) (randomize opt) (transient_rpms opt).
Definition with_cache (opt : symboldb_options) (path : bytes) : symboldb_options :=
  Options (exclude_names_ opt) (FileCache.output opt) (FileCache.set_name opt) path (download_threads opt) (no_net opt)
    (ignore_download_errors opt) (randomize opt) (transient_rpms opt).
Definition with_output (opt : symboldb_options) (o : output_level) : symboldb_options :=
  Options (exclude_names_ opt) o (FileCache.set_name opt) (cache_path opt) (download_threads opt) (no_net opt)
    (ignore_download_errors opt) (randomize opt) (transient_rpms opt).
Definition with_threads (opt : symboldb_options) (n : Z) : symboldb_options :=
  Options (exclude_names_ opt) (FileCache.output opt) (FileCache.set_name opt) (cache_path opt) n (no_net opt)
    (ignore_download_errors opt) (randomize opt) (transient_rpms opt).
Definition with_flags (opt : symboldb_options) (net ignore random transient : bool) : symboldb_options :=
  Options (exclude_names_ opt) (FileCache.output opt) (FileCache.set_name opt) (cache_path opt) (download_threads opt)
    (no_net opt || net) (ignore_download_errors opt || ignore) (randomize opt || random) (transient_rpms opt || transient).

Section Options.
Context (regex_problem : bytes → option bytes).

(** Source: src/symboldb.cpp 418-444, main. *)
Definition takes_set_name (c : command) : bool :=
  match c with create_set_ | update_set_ | update_set_from_repo | show_soname_conflicts => true | _ => false end.
(** The [switch]; the constructors of [command] other than [undefined] are the values of
    [long_options].
    Source: src/symboldb.cpp 405-465, main. *)
Definition parse_option (ch : opt_char) (optarg : bytes) (opt : symboldb_options) (cmd : command)
    : res (parsed (symboldb_options * command)) :=
  match ch with
  | ch_N => Ok (Parsed (with_flags opt true false false false, cmd))
  | ch_C => Ok (Parsed (with_cache opt optarg, cmd))
  | ch_q => Ok (Parsed (with_output opt quiet, cmd))
  | ch_v => Ok (Parsed (with_output opt verbose, cmd))
  | ch_command undefined | ch_unknown => Ok (Usage None)
  | ch_command c =>
      if takes_set_name c then
        if bool_decide (optarg = []) then Ok (Usage (Some (str "invalid package set name")))
        else Ok (Parsed (with_cmd opt optarg, c))
      else Ok (Parsed (opt, c))
  | ch_exclude_name => opt ← add_exclude_name regex_problem opt optarg; Ok (Parsed (opt, cmd))
  | ch_download_threads =>
      let opt := with_threads opt (u32 (atoi optarg)) in
      if download_threads opt =? 0 then Ok (Usage None) else Ok (Parsed (opt, cmd))
  | ch_randomize => Ok (Parsed (with_flags opt false false true false, cmd))
  | ch_delete_rpms => Ok (Parsed (with_flags opt false false false true, cmd))
  | ch_ignore_download_errors => Ok (Parsed (with_flags opt false true false false, cmd))
  end.
(** Source: src/symboldb.cpp 401-466, main. *)
Fixpoint parse_options (args : list (opt_char * bytes)) (opt : symboldb_options) (cmd : command)
    : res (parsed (symboldb_options * command)) :=
  match args with
  | [] => Ok (Parsed (opt, cmd))
  | (ch, optarg) :: args =>
      p ← parse_option ch optarg opt cmd;
      match p with
      | Parsed (opt, cmd) => parse_options args opt cmd
      | Usage e => Ok (Usage e)
      end
  end.
(** Whether the number of arguments fits.
    Source: src/symboldb.cpp 467-504, main. *)
Definition arguments_fit (cmd : command) (n : Z) : bool :=
  match cmd with
  | undefined => false
  | load_rpm | show_source_packages | download_repo | load_repo | run_example => negb (n =? 0)
  | create_schema_ | create_schema_base | create_schema_index | show_soname_conflicts | expire_ => n =? 0
  | create_set_ | update_set_ | update_set_from_repo | show_stale_cached_rpms => true
  | download_ | file_ | show_repomd | show_primary => n =? 1
  end.
(** Source: src/symboldb.cpp 364-505, main. *)
Definition parse_command_line (args : list (opt_char * bytes)) (rest : list bytes)
    : res (parsed (symboldb_options * command)) :=
  p ← parse_options args symboldb_options_new undefined;
  match p with
  | Parsed (opt, cmd) => if arguments_fit cmd (zlen rest) then Ok (Parsed (opt, cmd)) else Ok (Usage None)
  | Usage e => Ok (Usage e)
  end.
End Options.

(** Source: src/symboldb.cpp 299-313, usage. *)
Definition usage_commands : list bytes :=
  [str "--create-schema";
   str "--create-schema-base";
   str "--create-schema-index";
   str "--load-rpm [OPTIONS] RPM-FILE...";
   str "--create-set=NAME [OPTIONS] RPM-FILE...";
   str "--update-set=NAME [OPTIONS] RPM-FILE...";
   str "--update-set-from-repo=NAME [OPTIONS] URL...";
   str "--download [OPTIONS] URL";
   str "--show-repomd [OPTIONS] URL";
   str "--show-primary [OPTIONS] URL";
   str "--download-repo [OPTIONS] URL...";
   str "--load-repo [OPTIONS] URL...";
   str "--show-source-packages [OPTIONS] URL...";
   str "--show-stale-cached-rpms [OPTIONS]";
   str "--show-soname-conflicts=PACKAGE-SET [OPTIONS]"].
(** Source: src/symboldb.cpp 314-323, usage. *)
Definition usage_options : list bytes :=
  [str "Options:";
   str "  --delete-rpms          delete downloaded RPMs after database loading";
   str "  --randomize            perform downloads in random order";
   str "  --exclude-name=REGEXP  exclude packages whose name matches REGEXP";
   str "  --download-threads=N   number of parallel downloads (default: 3)";
   str "  --quiet, -q            less output";
   str "  --cache=DIR, -C        path to the cache (default: ~/.cache/symboldb)";
   str "  --ignore-download-errors   process repositories with download errors";
   str "  --no-net, -N           disable most network access";
   str "  --verbose, -v          more verbose output"].
(** What is printed before [exit (2)].
    Source: src/symboldb.cpp 292-326, usage. *)
Definition usage_text (progname : bytes) (error : option bytes) : bytes :=
  match error with Some error => str "error: " ++ error ++ [10] | None => [] end
  ++ str "Usage:" ++ [10; 10]
  ++ concat ((λ c, str "  " ++ progname ++ str " " ++ c ++ [10]) <$> usage_commands)
  ++ [10] ++ concat ((λ o, o ++ [10]) <$> usage_options) ++ [10].

(** ** The program *)

(** How the program ends: with a status, or by an exception that nobody catches. *)
Inductive ending := Exited (status : Z) | Terminated (e : exn).

Section Main.
Context `{M : machine} {C : Type} `{L : libpq C} (unescape : bytes → option bytes) (SCHEMA_BASE SCHEMA_INDEX : bytes).
Context {K : Type} (os : posix K) (io : stdio K) (rpmvercmp : bytes → bytes → Z).
Context (dump_pg : bytes → bytes) (uninitialized : Z) (regex_problem : bytes → option bytes).
Context {Out Px : Type} (pt : symboldb_options → parts (world C K) Out Px) (fuel : nat).
Abbreviation W := (world C K).

(** [argv_rest] is what [optind] points at.
    Source: src/symboldb.cpp 512-552, main. *)
Definition run_command (opt : symboldb_options) (cmd : command) (argv_rest : list bytes) : fsx (W * Out) Z :=
  let first := default [] (head argv_rest) in
  match cmd with
  | create_schema_ => fsx_first (do_create_schema SCHEMA_BASE SCHEMA_INDEX true true)
  | create_schema_base => fsx_first (do_create_schema SCHEMA_BASE SCHEMA_INDEX true false)
  | create_schema_index => fsx_first (do_create_schema SCHEMA_BASE SCHEMA_INDEX false true)
  | load_rpm => fsx_first (do_load_rpm rpmvercmp (pt opt) argv_rest)
  | create_set_ => fsx_first (do_create_set unescape rpmvercmp (pt opt) opt argv_rest)
  | update_set_ => fsx_first (do_update_set unescape rpmvercmp (pt opt) opt argv_rest)
  | download_ => do_download (pt opt) first
  | download_repo => fsx_first (pt_download_repo (pt opt) argv_rest false)
  | load_repo | update_set_from_repo => fsx_first (pt_download_repo (pt opt) argv_rest true)
  | file_ => do_file (pt opt) first
  | show_repomd => fsx_first (do_show_repomd (pt opt) opt first)
  | show_primary => do_show_primary (pt opt) opt first
  | show_source_packages => fsx_first (pt_show_source_packages (pt opt) argv_rest)
  | show_stale_cached_rpms => fsx_first (do_show_stale_cached_rpms unescape os opt fuel)
  | show_soname_conflicts => fsx_first (do_show_soname_conflicts unescape opt)
  | expire_ => fsx_first (pt_expire (pt opt));; mret 0
  | run_example => fsx_first (do_run_example io dump_pg uninitialized opt fuel argv_rest)
  | undefined => λ s, Some (Throw abort_called, s)
  end.
(** What the handlers of [main] print; the other exceptions are not caught.
    Source: src/symboldb.cpp 553-560, main. *)
Definition main_handler (e : exn) : option bytes :=
  match e with
  | curl_exception e => Some (curl_dump (str "error: ") e)
  | usage_error what => Some (str "error: " ++ until_nul what ++ [10])
  | pg_exception what => Some (str "error: from PostgreSQL:" ++ [10] ++ dump_pg what)
  | _ => None
  end.
Definition w_print (text : bytes) (s : W * Out) : W * Out := (World (w_db s.1) (w_k s.1) (w_err s.1 ++ text), s.2).
(** [elf_image_init] and [rpm_parser_init] only set up the libraries.
    Source: src/symboldb.cpp 364-562, main. *)
Definition main_ (progname : bytes) (args : list (opt_char * bytes)) (argv_rest : list bytes) (s : W * Out) : option (ending * (W * Out)) :=
  match parse_command_line regex_problem args argv_rest with
  | Throw e => Some (Terminated e, s)
  | Ok (Usage error) => Some (Exited 2, w_print (usage_text progname error) s)
  | Ok (Parsed (opt, cmd)) =>
      match (fsx_first (w_on_db database_new);; run_command opt cmd argv_rest) s with
      | None => None
      | Some (Ok status, s) => Some (Exited status, s)
      | Some (Throw e, s) =>
          match main_handler e with
          | Some text => Some (Exited 1, w_print text s)
          | None => Some (Terminated e, s)
          end
      end
  end.
End Main.

(** ** The statements of an example file *)

(** The lines of a text, each with its line feed. *)
Fixpoint text_lines (s : bytes) : list bytes :=
  match s with
  | [] => []
  | c :: s =>
      if c =? 10 then [10] :: text_lines s
      else match text_lines s with [] => [[c]] | l :: ls => (c :: l) :: ls end
  end.
(** What an indented line contributes. *)
Definition example_text (line : bytes) : option bytes :=
  if starts_with line (str "    ") then Some (str "      " ++ zdrop 4 line)
  else if starts_with line [9] then Some (zdrop 1 line) else None.
(** The maximal runs of indented lines, with the numbers of the lines. *)
Fixpoint runs_of (n : Z) (lines : list bytes) : list (list (Z * bytes)) :=
  match lines with
  | [] => [[]]
  | l :: lines =>
      let n := u32 (n + 1) in
      match example_text l, runs_of n lines with
      | Some t, r :: rs => ((n, t) :: r) :: rs
      | Some t, [] => [[(n, t)]]
      | None, rs => [] :: rs
      end
  end.
(** The statement of a run begins at its first line with a text. *)
Fixpoint statement (run : list (Z * bytes)) : option (Z * bytes) :=
  match run with
  | [] => None
  | (_, []) :: run => statement run
  | (n, t) :: run => Some (n, t ++ concat (snd <$> run))
  end.
Definition example_statements (text : bytes) : list (Z * bytes) := omap statement (runs_of 0 (text_lines text)).

Lemma text_lines_feed body r : 10 ∉ body → text_lines ((body ++ [10]) ++ r) = (body ++ [10]) :: text_lines r.
Proof.
  induction body as [|c body IH]; [done|]. intros [Hc Hb]%not_elem_of_cons. cbn [app text_lines].
  rewrite (proj2 (Z.eqb_neq _ _)) by congruence. by rewrite IH.
Qed.
Lemma text_lines_last l : l ≠ [] → 10 ∉ l → text_lines l = [l].
Proof.
  induction l as [|c l IH]; [done|]. intros _ [Hc Hl]%not_elem_of_cons. cbn [text_lines].
  rewrite (proj2 (Z.eqb_neq _ _)) by congruence. destruct l as [|d l]; [done|]. by rewrite (IH ltac:(done) Hl).
Qed.

Section ExampleSpec.
Context `{M : machine} {C : Type} `{L : libpq C} {K : Type} (io : stdio K) (opt : symboldb_options) (dump_pg : bytes → bytes).
Context (rest : Z → K → bytes) (Hio : stdio_laws io rest) (Hok : ∀ fp k, io_ferror io fp k = false).
Abbreviation W := (world C K).

Fixpoint run_statements (path : bytes) (stmts : list (Z * bytes)) : fsx W unit :=
  match stmts with
  | [] => mret tt
  | (n, command) :: stmts => example_execute opt path command n;; run_statements path stmts
  end.
(** Statements do not depend on the files. *)
Definition db_only {A} (m : fsx W A) (d : dbst C) (e : bytes) (r : res A) (d' : dbst C) (e' : bytes) : Prop :=
  ∀ k, m (World d k e) = Some (r, World d' k e').
Lemma example_execute_db path command n d e : ∃ r d' e', db_only (example_execute opt path command n) d e r d' e'.
Proof using.
  clear. unfold example_execute, db_only, mbind, fsx_bind, w_stderr, w_on_db.
  destruct (exec_sql (until_nul command) d) as [r d'] eqn:E.
  destruct (negb _); cbn; eexists r, d', _; intros k; by rewrite E.
Qed.
Lemma run_statements_cons path n command stmts d e r d' e' r2 d2 e2 :
  db_only (example_execute opt path command n) d e r d' e' →
  match r with Ok _ => db_only (run_statements path stmts) d' e' r2 d2 e2 | Throw x => r2 = Throw x ∧ d2 = d' ∧ e2 = e' end →
  db_only (run_statements path ((n, command) :: stmts)) d e r2 d2 e2.
Proof using.
  clear. intros H1 H2 k. cbn [run_statements]. unfold mbind, fsx_bind. rewrite (H1 k).
  destruct r as [[]|x]; [apply H2|]. by destruct H2 as (-> & -> & ->).
Qed.

(** The statement that the loop has begun, continued by a run. *)
Definition pending (st : example_state) (run : list (Z * bytes)) : option (Z * bytes) :=
  if bool_decide (ex_current st = []) then statement run
  else Some (ex_start st, ex_current st ++ concat (snd <$> run)).
Definition statements_from (st : example_state) (lines : list bytes) : list (Z * bytes) :=
  match runs_of (ex_lineno st) lines with
  | [] => []
  | r :: rs => match pending st r with Some s => s :: omap statement rs | None => omap statement rs end
  end.

Lemma example_line_code path line t st (w : W) : example_text line = Some t →
  ∃ st', example_line opt path line st w = Some (Ok st', w) ∧ ∀ lines, statements_from st (line :: lines) = statements_from st' lines.
Proof using.
  clear. intros Ht. set (n := u32 (ex_lineno st + 1)). set (cur := ex_current st ++ t).
  exists (ExampleState cur n (if bool_decide (ex_current st = []) && negb (bool_decide (cur = [])) then n else ex_start st)). split.
  - unfold example_line, mbind, fsx_bind. unfold example_text in Ht. destruct (starts_with line (str "    ")); [injection Ht as <-; done|].
    destruct (starts_with line [9]); [|done]. by injection Ht as <-.
  - intros lines. unfold statements_from. cbn [runs_of ex_lineno]. rewrite Ht. fold n.
    destruct (runs_of n lines) as [|r rs] eqn:Er; [by destruct lines as [|l ls]; cbn in Er; [|destruct (example_text l), (runs_of _ ls)]|].
    enough (pending st ((n, t) :: r) = pending (ExampleState cur n (if bool_decide (ex_current st = []) && negb (bool_decide (cur = [])) then n else ex_start st)) r) as -> by done.
    unfold pending, cur. cbn [ex_current ex_start]. destruct (bool_decide_reflect (ex_current st = [])) as [->|Hne].
    + cbn [app andb]. destruct t as [|c t]; [by rewrite bool_decide_eq_true_2|]. by rewrite bool_decide_eq_false_2.
    + rewrite bool_decide_eq_false_2 by (by intros [? ?]%app_eq_nil). cbn [andb fmap list_fmap concat snd]. by rewrite app_assoc.
Qed.
Lemma runs_of_nonempty n lines : runs_of n lines ≠ [].
Proof using. destruct lines as [|l ls]; cbn; [done|]. by destruct (example_text l), (runs_of _ ls). Qed.

Lemma example_loop_spec fuel path file : ∀ st d e k, zlen (rest file k) < Z.of_nat fuel →
  ∃ r d' e' k', db_only (run_statements path (statements_from st (text_lines (rest file k)))) d e r d' e' ∧
    example_loop io opt fuel path file st (World d k e) = Some (r, World d' k' e').
Proof using Hio Hok.
  induction fuel as [|fuel IH]; intros st d e k Hf; [pose proof (zlen_nonneg (rest file k)); lia|].
  cbn [example_loop]. unfold mbind at 1, fsx_bind at 1, example_getline, fh_getline. cbn [w_k w_db w_err].
  destruct (io_getline io file k) as [[[l|] err] k'] eqn:E.
  - assert (Hl : text_lines (rest file k) = l :: text_lines (rest file k') ∧ zlen (rest file k') < Z.of_nat fuel).
    { destruct (sl_getline _ _ Hio _ _ _ _ _ E) as [Hr Hcase]. rewrite Hr in *. rewrite zlen_app in Hf.
      destruct Hcase as [(body & -> & Hb)|(Hne & Hnl & ->)].
      - rewrite text_lines_feed by done. rewrite zlen_app in Hf. change (zlen [10]) with 1 in Hf. pose proof (zlen_nonneg body). split; [done|lia].
      - rewrite app_nil_r, text_lines_last by done. split; [done|]. destruct l as [|c l]; [done|]. rewrite zlen_cons in Hf. pose proof (zlen_nonneg l). change (zlen (@nil Z)) with 0 in *. pose proof (zlen_nonneg (rest file k')). lia. }
    destruct Hl as [-> Hf']. destruct (example_text l) as [t|] eqn:Et.
    + destruct (example_line_code path l t st (World d k' e) Et) as (st' & Hline & Hst). rewrite Hst.
      destruct (IH st' d e k' Hf') as (r & d' & e' & k'' & Hrun & Hloop). exists r, d', e', k''. split; [exact Hrun|].
      unfold mbind, fsx_bind. by rewrite Hline, Hloop.
    + assert (Hn1 : starts_with l (str "    ") = false ∧ starts_with l [9] = false)
        by (unfold example_text in Et; destruct (starts_with l (str "    ")), (starts_with l [9]); done).
      destruct Hn1 as [H1 H2]. unfold statements_from, pending. cbn [runs_of ex_lineno]. rewrite Et.
      set (n := u32 (ex_lineno st + 1)). cbn [fmap list_fmap concat statement].
      assert (Hempty : ∀ start, omap statement (runs_of n (text_lines (rest file k'))) =
        statements_from (ExampleState [] n start) (text_lines (rest file k'))).
      { intros start. unfold statements_from, pending. cbn [ex_lineno ex_current]. rewrite bool_decide_eq_true_2 by done.
        destruct (runs_of n _) as [|r rs] eqn:Er; [by apply runs_of_nonempty in Er|]. cbn. by destruct (statement r). }
      unfold example_line. rewrite H1, H2. fold n.
      destruct (bool_decide_reflect (ex_current st = [])) as [Hc|Hc]; cbn [negb].
      * rewrite (Hempty (ex_start st)). destruct (IH (ExampleState [] n (ex_start st)) d e k' Hf') as (r & d' & e' & k'' & Hrun & Hloop).
        exists r, d', e', k''. split; [exact Hrun|]. unfold mbind, fsx_bind, mret, fsx_ret. rewrite Hc. cbn [andb]. by rewrite Hloop.
      * rewrite app_nil_r, (Hempty (ex_start st)). destruct (example_execute_db path (ex_current st) (ex_start st) d e) as (r1 & d1 & e1 & He).
        destruct r1 as [[]|x].
        -- destruct (IH (ExampleState [] n (ex_start st)) d1 e1 k' Hf') as (r & d' & e' & k'' & Hrun & Hloop).
           exists r, d', e', k''. split; [by eapply run_statements_cons|].
           unfold mbind, fsx_bind, mret, fsx_ret. rewrite (He k'). cbn [andb]. by rewrite Hloop.
        -- exists (Throw x), d1, e1, k'. split; [by eapply run_statements_cons|].
           unfold mbind, fsx_bind. by rewrite (He k').
  - assert (rest file k = []) as ->.
    { destruct (sl_end _ _ Hio _ _ _ _ E) as [Hr|[_ Hf']]; [done|]. by rewrite Hok in Hf'. }
    rewrite Hok. rewrite orb_true_r. unfold statements_from, pending. cbn [text_lines runs_of fmap list_fmap concat statement].
    destruct (bool_decide_reflect (ex_current st = [])) as [Hc|Hc]; cbn [negb omap list_omap].
    + exists (Ok tt), d, e, k'. by split.
    + rewrite app_nil_r. destruct (example_execute_db path (ex_current st) (ex_start st) d e) as (r1 & d1 & e1 & He).
      exists r1, d1, e1, k'. split; [|apply He]. intros k0. cbn [run_statements]. unfold mbind, fsx_bind. rewrite (He k0). by destruct r1 as [[]|x].
Qed.

(** C10: A file of example queries that can be opened and read is run statement by
    statement: the statements are its maximal runs of lines that begin with four blanks or
    a tab, with the indentation replaced by six blanks or removed, named by the number of
    their first line; the first one that fails ends the file, and if that was an error of
    the database, it is reported and the file counts as failed.  The file is closed. *)
Theorem run_example_spec uninitialized fuel path d e k fh k0 : io_fopen io path (str "r") k = (Some fh, k0) →
  zlen (rest fh k0) < Z.of_nat fuel →
  ∃ r d' e' k', db_only (run_statements path (example_statements (rest fh k0))) d e r d' e' ∧
    example_file io dump_pg uninitialized opt fuel path (World d k e) = Some (
      match r with
      | Ok _ => (Ok false, World d' (io_fclose io fh k').2 e')
      | Throw (pg_exception what) => (Ok true, World d' (io_fclose io fh k').2 (e' ++ dump_pg what))
      | Throw x => (Throw x, World d' (io_fclose io fh k').2 e')
      end).
Proof using Hio Hok.
  intros Ho Hf. destruct (example_loop_spec fuel path fh (ExampleState [] 0 uninitialized) d e k0 Hf) as (r & d' & e' & k' & Hrun & Hloop).
  exists r, d', e', k'. split.
  - unfold statements_from, pending in Hrun. cbn [ex_lineno ex_current] in Hrun. rewrite bool_decide_eq_true_2 in Hrun by done.
    unfold example_statements. destruct (runs_of 0 _) as [|r0 rs]; [exact Hrun|]. cbn. by destruct (statement r0).
  - unfold example_file, fh_open. cbn [w_k w_db w_err]. rewrite Ho, Hloop. cbn [w_k w_db w_err fh_destroy]. by destruct r as [[]|[]].
Qed.
End ExampleSpec.

Definition example_sample : bytes :=
  str "How many?" ++ [10] ++ str "    SELECT 1" ++ [10; 9] ++ str " FROM x;" ++ [10; 10] ++ str "And" ++ [10; 9] ++ str "SELECT 2;" ++ [10].
Lemma run_example_spec_witness :
  example_statements example_sample =
    [(2, str "      SELECT 1" ++ [10] ++ str " FROM x;" ++ [10]); (6, str "SELECT 2;" ++ [10])] ∧
  ∃ d' e' k',
    db_only (K := bytes) (run_statements (L := tape_libpq) set_options (str "f") (example_statements example_sample))
      (tape_state [Some command_ok; Some (failure (str "no"))]) [] (Throw (pg_exception (str "no"))) d' e' ∧
    example_file (L := tape_libpq) (text_file example_sample) Datatypes.id 0 set_options 90 (str "f")
        (World (tape_state [Some command_ok; Some (failure (str "no"))]) [] []) =
      Some (Ok true, World d' k' (e' ++ str "no")).
Proof.
  split; [vm_compute; reflexivity|].
  destruct (run_example_spec (L := tape_libpq) (text_file example_sample) set_options Datatypes.id (λ _ k, k) (text_file_laws _) (λ _ _, eq_refl)
    0 90 (str "f") (tape_state [Some command_ok; Some (failure (str "no"))]) [] [] 1 example_sample eq_refl eq_refl)
    as (r & d' & e' & k' & Hrun & Hfile).
  assert (r = Throw (pg_exception (str "no"))) as ->.
  { specialize (Hrun []). vm_compute in Hrun. by injection Hrun as <- _ _. }
  exists d', e', k'. by split.
Defined.

(** ** The command line *)

Definition sum_exclude (x : opt_char * bytes) : option bytes := match x.1 with ch_exclude_name => Some x.2 | _ => None end.
Definition sum_output (x : opt_char * bytes) : option output_level :=
  match x.1 with ch_q => Some quiet | ch_v => Some verbose | _ => None end.
Definition sum_name (x : opt_char * bytes) : option bytes :=
  match x.1 with ch_command c => if takes_set_name c then Some x.2 else None | _ => None end.
Definition sum_cache (x : opt_char * bytes) : option bytes := match x.1 with ch_C => Some x.2 | _ => None end.
Definition sum_threads (x : opt_char * bytes) : option Z :=
  match x.1 with ch_download_threads => Some (u32 (atoi x.2)) | _ => None end.
Definition sum_command (x : opt_char * bytes) : option command := match x.1 with ch_command c => Some c | _ => None end.
Definition given (f : opt_char → bool) (args : list (opt_char * bytes)) : bool := existsb (λ x, f x.1) args.
(** What the options say together. *)
Definition options_of (opt : symboldb_options) (args : list (opt_char * bytes)) : symboldb_options :=
  Options (exclude_names_ opt ++ omap sum_exclude args)
    (default (FileCache.output opt) (last (omap sum_output args)))
    (default (FileCache.set_name opt) (last (omap sum_name args)))
    (default (cache_path opt) (last (omap sum_cache args)))
    (default (download_threads opt) (last (omap sum_threads args)))
    (no_net opt || given (λ c, match c with ch_N => true | _ => false end) args)
    (ignore_download_errors opt || given (λ c, match c with ch_ignore_download_errors => true | _ => false end) args)
    (randomize opt || given (λ c, match c with ch_randomize => true | _ => false end) args)
    (transient_rpms opt || given (λ c, match c with ch_delete_rpms => true | _ => false end) args).
(** What is accepted. *)
Definition option_ok (regex_problem : bytes → option bytes) (x : opt_char * bytes) : Prop :=
  match x.1 with
  | ch_unknown => False
  | ch_command c => c ≠ undefined ∧ (takes_set_name c = true → x.2 ≠ [])
  | ch_exclude_name => regex_problem x.2 = None
  | ch_download_threads => u32 (atoi x.2) ≠ 0
  | _ => True
  end.

Section Parsing.
Context (regex_problem : bytes → option bytes).
Abbreviation ok := (option_ok regex_problem).

Lemma last_cons_default {A B} (f : A → option B) x xs (d : B) :
  default d (last (omap f (x :: xs))) = default (default d (f x)) (last (omap f xs)).
Proof using. cbn. destruct (f x) as [b|]; [|done]. rewrite last_cons. by destruct (last (omap f xs)). Qed.
Lemma options_of_cons opt x args : options_of opt (x :: args) = options_of (options_of opt [x]) args.
Proof using.
  unfold options_of. cbn [exclude_names_ FileCache.output FileCache.set_name cache_path download_threads no_net
    ignore_download_errors randomize transient_rpms].
  rewrite !(last_cons_default _ x args). unfold given. cbn [existsb]. rewrite !orb_false_r, !orb_assoc.
  change (omap sum_exclude (x :: args)) with (omap sum_exclude ([x] ++ args)). rewrite omap_app, !app_assoc.
  f_equal; destruct x as [[] ?]; cbn; by try destruct (takes_set_name _).
Qed.

Lemma parse_option_spec ch a opt cmd : match parse_option regex_problem ch a opt cmd with
  | Ok (Parsed (opt', cmd')) => ok (ch, a) ∧ opt' = options_of opt [(ch, a)] ∧ cmd' = default cmd (sum_command (ch, a))
  | Ok (Usage _) => ¬ ok (ch, a) ∧ ch ≠ ch_exclude_name
  | Throw e => ¬ ok (ch, a) ∧ ch = ch_exclude_name ∧ ∃ what, e = usage_error what
  end.
Proof using.
  unfold option_ok, options_of, given. cbn [fst snd existsb omap list_omap].
  destruct opt as [ex out name cache threads net ign ran tra].
  unfold parse_option, with_flags, with_cache, with_output, with_threads, with_cmd.
  destruct ch as [c| | | | | | | | | |]; cbn; rewrite ?app_nil_r, ?orb_false_r, ?orb_true_r;
    try (by split_and!); try (split; [naive_solver|done]).
  - destruct c; cbn; try case_bool_decide; cbn; rewrite ?app_nil_r, ?orb_false_r; naive_solver.
  - unfold add_exclude_name. destruct (regex_problem a) as [what|] eqn:E; cbn; [split; [done|]; split; [done|]; by eexists|].
    done.
  - destruct (Z.eqb_spec (u32 (atoi a)) 0); cbn; [split; [tauto|done]|]. by split_and!.
Qed.
Lemma parse_options_spec args : ∀ opt cmd, match parse_options regex_problem args opt cmd with
  | Ok (Parsed (opt', cmd')) => Forall ok args ∧ opt' = options_of opt args ∧ cmd' = default cmd (last (omap sum_command args))
  | Ok (Usage _) => ∃ before x after, args = before ++ x :: after ∧ Forall ok before ∧ ¬ ok x ∧ x.1 ≠ ch_exclude_name
  | Throw e => ∃ before x after what, args = before ++ x :: after ∧ Forall ok before ∧ ¬ ok x ∧ x.1 = ch_exclude_name ∧ e = usage_error what
  end.
Proof using.
  induction args as [|[ch a] args IH]; intros opt cmd; cbn [parse_options].
  - split; [done|]. split; [|done]. unfold options_of. cbn. rewrite app_nil_r, !orb_false_r. by destruct opt.
  - pose proof (parse_option_spec ch a opt cmd) as Hp. destruct (parse_option regex_problem ch a opt cmd) as [[[opt' cmd']|e]|e].
    + destruct Hp as (Hok & -> & ->). specialize (IH (options_of opt [(ch, a)]) (default cmd (sum_command (ch, a)))).
      unfold mbind, res_bind. destruct (parse_options _ _ _ _) as [[[opt'' cmd'']|e]|e].
      * destruct IH as (Hall & -> & ->). split; [by constructor|]. split; [by rewrite (options_of_cons opt (ch, a) args)|]. by rewrite last_cons_default.
      * destruct IH as (b & x & af & -> & Hb & Hx & Hc). exists ((ch, a) :: b), x, af. split; [done|]. split; [by constructor|]. done.
      * destruct IH as (b & x & af & what & -> & Hb & Hx & Hc & He). exists ((ch, a) :: b), x, af, what. split; [done|]. split; [by constructor|]. done.
    + destruct Hp as [Hbad Hc]. cbn. exists [], (ch, a), args. by split_and!.
    + destruct Hp as (Hbad & Hc & what & ->). cbn. exists [], (ch, a), args, what. by split_and!.
Qed.

(** The command line: it is accepted exactly when every option is acceptable, a command
    was given, and the number of arguments fits the last one; the options then say what
    they say together (the last of several commands, package sets, caches, output levels
    and thread counts wins, the expressions are collected, and a switch is on if it is
    there).  The first option that is not acceptable ends the parsing: a regular expression
    that does not compile by an exception, everything else by the usage message. *)
Theorem parse_command_line_spec args rest : match parse_command_line regex_problem args rest with
  | Ok (Parsed (opt, cmd)) => Forall ok args ∧ opt = options_of symboldb_options_new args ∧
      last (omap sum_command args) = Some cmd ∧ arguments_fit cmd (zlen rest) = true
  | Ok (Usage _) =>
      (∃ before x after, args = before ++ x :: after ∧ Forall ok before ∧ ¬ ok x ∧ x.1 ≠ ch_exclude_name) ∨
      (Forall ok args ∧ ∀ cmd, last (omap sum_command args) = Some cmd → arguments_fit cmd (zlen rest) = false)
  | Throw e => ∃ before x after what, args = before ++ x :: after ∧ Forall ok before ∧ ¬ ok x ∧ x.1 = ch_exclude_name ∧
      e = usage_error what
  end.
Proof using.
  unfold parse_command_line, mbind, res_bind. pose proof (parse_options_spec args symboldb_options_new undefined) as Hp.
  destruct (parse_options _ _ _ _) as [[[opt cmd]|e]|e]; [|by left|done]. destruct Hp as (Hall & -> & ->).
  destruct (last (omap sum_command args)) as [c|]; cbn.
  - destruct (arguments_fit c (zlen rest)) eqn:E; [done|]. right. split; [done|]. by intros ? [= <-].
  - cbn. right. by split.
Qed.
End Parsing.

Definition parse_sample : list (opt_char * bytes) :=
  [(ch_q, []); (ch_command load_rpm, []); (ch_command update_set_, str "rawhide"); (ch_download_threads, str " 7x"); (ch_v, [])].
Example parsed_sample : parse_command_line (λ _, None) parse_sample [] =
  Ok (Parsed (Options [] verbose (str "rawhide") [] 7 false false false false, update_set_)).
Proof. vm_compute. reflexivity. Qed.
(** A negative number of threads is accepted and wraps around. *)
Example negative_threads : parse_command_line (λ _, None) [(ch_download_threads, str "-1"); (ch_command expire_, [])] [] =
  Ok (Parsed (Options [] standard [] [] 4294967295 false false false false, expire_)).
Proof. vm_compute. reflexivity. Qed.

(** ** How the program ends *)

Section Ending.
Context `{M : machine} {C : Type} `{L : libpq C} (unescape : bytes → option bytes) (SCHEMA_BASE SCHEMA_INDEX : bytes).
Context {K : Type} (os : posix K) (io : stdio K) (rpmvercmp : bytes → bytes → Z).
Context (dump_pg : bytes → bytes) (uninitialized : Z) (regex_problem : bytes → option bytes).
Context {Out Px : Type} (pt : symboldb_options → parts (world C K) Out Px) (fuel : nat).

Definition returns01 {S} (m : fsx S Z) : Prop := ∀ s n s', m s = Some (Ok n, s') → n = 0 ∨ n = 1.
Lemma returns01_0 {S} : returns01 (mret 0 : fsx S Z).
Proof using. intros s n s' [-> _]%fsx_ret_Ok. by left. Qed.
Lemma returns01_1 {S} : returns01 (mret 1 : fsx S Z).
Proof using. intros s n s' [-> _]%fsx_ret_Ok. by right. Qed.
Lemma returns01_bind {S A} (m : fsx S A) (f : A → fsx S Z) : (∀ a, returns01 (f a)) → returns01 (m ≫= f).
Proof using. intros Hf s n s' (a & s1 & _ & Ha)%fsx_bind_Ok. by eapply Hf. Qed.
Lemma returns01_if {S} (b : bool) (m m' : fsx S Z) : returns01 m → returns01 m' → returns01 (if b then m else m').
Proof using. by destruct b. Qed.
Lemma returns01_first {W O} (m : fsx W Z) : returns01 m → returns01 (fsx_first (W := W) (Out := O) m).
Proof using.
  intros Hm [w o] n [w' o'] E. unfold fsx_first in E. destruct (m w) as [[r w1]|] eqn:Em; [|done].
  injection E as -> -> ->. by eapply Hm.
Qed.
Context (Hrepo : ∀ opt argv load, returns01 (pt_download_repo (pt opt) argv load)).
Context (Hsource : ∀ opt argv, returns01 (pt_show_source_packages (pt opt) argv)).

Lemma stale_returns01 opt : returns01 (do_show_stale_cached_rpms unescape os opt fuel).
Proof using.
  clear. intros w n w' E. unfold do_show_stale_cached_rpms in E. destruct (w_on_k _ w) as [[[c|e] w1]|]; [|done..].
  assert (returns01 (show_stale unescape os fuel c)) as Hs by (repeat (apply returns01_bind; intros); apply returns01_0).
  destruct (show_stale unescape os fuel c w1) as [[r w2]|] eqn:Es; [|done]. injection E as -> _. by eapply Hs.
Qed.
Lemma run_command_returns01 opt cmd argv_rest : cmd ≠ undefined →
  returns01 (run_command unescape SCHEMA_BASE SCHEMA_INDEX os io rpmvercmp dump_pg uninitialized pt fuel opt cmd argv_rest).
Proof using Hrepo Hsource.
  intros Hc. destruct cmd; [done|..]; cbn [run_command]; try apply returns01_first;
    unfold do_create_schema, do_load_rpm, do_create_set, do_update_set, do_download, do_file, do_show_repomd, do_show_primary,
      do_show_soname_conflicts, do_run_example;
    repeat first [apply returns01_0 | apply returns01_1 | apply returns01_if | apply Hrepo | apply Hsource | apply stale_returns01
      | apply returns01_bind; intros | match goal with |- returns01 (match ?x with _ => _ end) => destruct x end].
Qed.

End Ending.

(** ** The parts, put together *)

Section Program.
Context `{M : machine} {C : Type} `{L : libpq C} (unescape : bytes → option bytes) {N : Type} (nss_ : nss N).
Context {U : Type} (lc : libcurl U).
Context {E D : Type} `{LE : libelf E D} {A : Type} (la : libarchive A) (name_of : string → os_error → os_error)
  (error_constants : list (Z * bytes)) (behind : bytes).
Context {X : Type} (XML_Parse : X → bytes → bool → list (callback * position) * parse_status * X) (parser : X).
Context {S : Type} (io : rpmio S) (uninitialized : Z → bytes) (rpm_open : bytes → S * rpmRC * rpm_header).
Context {K : Type} (os : posix K) (pr : processes K) (PYTHON_SCRIPT : bytes) (opt : symboldb_options) (fuel : nat).
(** The state of descriptor 1; the objects that loading a package creates, before that. *)
Context {Out : Type} (stdout_ : kernel Out) (no_rpm : rpm_state (S := S)) (no_python : python_analyzer).
(** The parts that are put together in RepoAccess.v, DownloadRepo.v and ShowSource.v. *)
Context {Px : Type} (acquire : cache_mode → bytes → fsx (world C K) repomd)
  (primary_xml : repomd → cache_mode → fsx (world C K) Px) (copy_primary : Px → fsx (world C K * Out) unit)
  (download_repo : list bytes → bool → fsx (world C K) Z) (show_source : list bytes → fsx (world C K) Z).
Abbreviation W := (world C K).

#[local] Instance out_sink : SinkOps Out := λ o buf, fd_sink_write stdout_ 1 o buf.
Definition part_rpm_load (path : bytes) (info : rpm_package_info) : fsx W (Z * rpm_package_info) := λ w,
  match rpm_load nss_ la name_of error_constants behind XML_Parse parser io uninitialized rpm_open os pr PYTHON_SCRIPT opt fuel
      path None None (LoadState (w_db w) no_rpm no_python (w_k w) (w_err w) info) with
  | None => None
  | Some (r, s) => Some ((pkg ← r; Ok (pkg, ls_info s)), World (ls_db s) (ls_k s) (ls_err s))
  end.
Definition part_get_file (digest : bytes) : fsx (W * Out) bool := λ '(w, o),
  match get_file unescape io uninitialized behind rpm_open os fuel opt digest o (w_db w) (w_k w) with
  | None => None
  | Some (r, (d, k, o)) => Some (r, (World d k (w_err w), o))
  end.
Definition part_download (url : bytes) : fsx (W * Out) unit := λ '(w, o),
  match download unescape lc fuel (opt_download opt) url (w_db w) with
  | None => None
  | Some (Throw e, d) => Some (Throw e, (World d (w_k w) (w_err w), o))
  | Some (Ok src, d) =>
      match copy_download lc fuel (T := Out) fuel src 0 (d, o) with
      | None => None
      | Some (r, (d, o)) => Some ((_ ← r; Ok tt), (World d (w_k w) (w_err w), o))
      end
  end.
Definition database_expire : expire_db (dbst C) :=
  ExpireDb _ expire_url_cache expire_packages expire_file_contents expire_java_classes (referenced_package_digests unescape []).
Definition part_expire : fsx W unit := λ w,
  match FileCache.expire os database_expire fuel opt (ExpireState _ (w_k w) (w_db w) []) with
  | None => None
  | Some (r, s) => Some (r, World (es_db _ s) (es_k _ s) (w_err w ++ concat (es_log _ s)))
  end.
Definition program_parts : parts W Out Px :=
  Parts part_rpm_load part_get_file part_download acquire primary_xml copy_primary download_repo show_source part_expire.
End Program.

(** A program whose downloads always succeed, and that has no other commands. *)
Definition toy_parts (_ : symboldb_options) : parts (world tape bytes) unit unit :=
  Parts (λ _ _ _, None) (λ _ _, None) (λ _ _, None) (λ _ _ _, None) (λ _ _ _, None) (λ _ _, None)
    (λ _ load w, Some (Ok (if (load : bool) then 0 else 1), w)) (λ _ w, Some (Ok 0, w)) (λ w, Some (Throw (usage_error (str "no cache")), w)).
Abbreviation toy_main := (main_ (M := x86_64) (L := tape_libpq) (λ _, None) [] [] (Out := unit) (K := bytes)
  (one_file []) (text_file []) length_vercmp Datatypes.id 0 (λ p, if bool_decide (p = str "(") then Some (str "bad") else None) toy_parts 9 (str "symboldb")).
Abbreviation toy_state := (World (tape_state []) [] [], tt).
(** The exception of [add_exclude_name] is thrown outside of the [try] block. *)
Example bad_exclude_name_terminates :
  toy_main [(ch_exclude_name, str "("); (ch_command expire_, [])] [] toy_state =
    Some (Terminated (usage_error (str "invalid --exclude-name regexp " ++ [34; 40; 34] ++ str ": bad")), toy_state).
Proof. vm_compute. reflexivity. Qed.
(** What is behind the first octets need not be hexadecimal. *)
Example partial_digest (pt : parts (world tape bytes) unit unit) :
  do_file pt (str "ab" ++ replicate 62 122) = (found ← pt_get_file pt [171];
    if negb found then fsx_first (w_stderr (str "error: could not locate file with digest " ++ (str "ab" ++ replicate 62 122) ++ [10]));; mret 1 else mret 0).
Proof. reflexivity. Qed.
