(* ===== verification/Tosrpm.v ===== *)
(** * Building source packages (src/tosrpm.cpp)

    [tosrpm] makes a source package from a spec file and a git repository: it reads the
    spec file with librpm, packs the tree with [git archive], compresses it under the name
    that the spec file wants, runs [rpmbuild] in a temporary directory and moves the result
    to its place.  The programs it runs are children of Subprocess.v; librpm is a
    parameter.  [exit] ends the program without running destructors; it is the exception
    [exit_called] here, at which nothing is cleaned up.

    [compressor_names]: how the names of the archives belong together.
    [find_spec_file_spec]: a directory stands for its only spec file.
    [tosrpm_spec]: status 0 means that the four programs were run, in this order and with
    these arguments, that all of them succeeded, and that the temporary directory was
    removed. *)

From S2P Require Import Prelude StringSupport Posix Subprocess.

(** Source: src/tosrpm.cpp 38-40, verbosity_t. *)
Inductive verbosity_t := DEFAULT_VERBOSITY | QUIET | VERBOSE.
#[global] Instance verbosity_eq_dec : EqDecision verbosity_t.
Proof. solve_decision. Defined.

(** A parsed spec file: the names of its sources, or [None] without an iterator, and the
    strings of its source header. *)
Record spec_lib (K Sp : Type) := SpecLib {
  rpmSpecParse : bytes → K → option Sp * K;
  rpmSpecSources : Sp → option (list bytes);
  header_NVR : Sp → option bytes;
  header_NAME : Sp → option bytes;
  header_VERSION : Sp → option bytes
}.
Arguments rpmSpecParse {K Sp}. Arguments rpmSpecSources {K Sp}. Arguments header_NVR {K Sp}. Arguments header_NAME {K Sp}.
Arguments header_VERSION {K Sp}.

(** The system and what was printed. *)
Record tosrpm_state (K : Type) := TosrpmState { ts_k : K; ts_err : bytes; ts_out : bytes }.
Arguments TosrpmState {K}. Arguments ts_k {K}. Arguments ts_err {K}. Arguments ts_out {K}.

(** Source: src/tosrpm.cpp 88-95, spec_info. *)
Record spec_info := SpecInfo { si_tarball : bytes; si_name : bytes; si_version : bytes; si_srpm : bytes }.
(** Source: src/tosrpm.cpp 164-173, tarball_compressor. *)
Record tarball_compressor := TarballCompressor {
  tc_prefix : bytes; tc_compressed_name : bytes; tc_uncompressed_name : bytes; tc_compressor : bytes
}.

Section Tosrpm.
Context {K : Type} (os : posix K) (pr : processes K) {Sp : Type} (rs : spec_lib K Sp).
(** What the name in a directory entry reads as after other entries were read. *)
Context (later : bytes → K → bytes) (fuel : nat).
Abbreviation St := (tosrpm_state K).
Definition tos : Type → Type := fsx St.
Definition t_fun {A} (f : K → A * K) : tos A := λ s, let '(a, k) := f (ts_k s) in Some (Ok a, TosrpmState k (ts_err s) (ts_out s)).
Definition t_os {A} (m : sx K A) : tos A := λ s, let '(r, k) := m (ts_k s) in Some (r, TosrpmState k (ts_err s) (ts_out s)).
Definition t_stderr (text : bytes) : tos unit := λ s, Some (Ok tt, TosrpmState (ts_k s) (ts_err s ++ text) (ts_out s)).
Definition t_stdout (text : bytes) : tos unit := λ s, Some (Ok tt, TosrpmState (ts_k s) (ts_err s) (ts_out s ++ text)).
Definition t_throw {A} (e : exn) : tos A := λ s, Some (Throw e, s).
(** [fprintf (stderr, ...); exit (1)]. *)
Definition t_fail {A} (text : bytes) : tos A := t_stderr text;; t_throw (exit_called 1).
(** [m], and the destructor behind it, which [exit] does not run. *)
Definition t_scope {A} (m : tos A) (destructor : K → option K) : tos A := λ s,
  match m s with
  | None => None
  | Some (Throw (exit_called n), s) => Some (Throw (exit_called n), s)
  | Some (r, s) => match destructor (ts_k s) with None => None | Some k => Some (r, TosrpmState k (ts_err s) (ts_out s)) end
  end.

(** ** The arguments *)

Definition line (parts : list bytes) : bytes := concat parts ++ [10].
Definition t_readdir (dir : Z) : tos (option bytes) := λ s,
  match dir_readdir os fuel dir (ts_k s) with
  | None => None
  | Some (r, k) => Some (r, TosrpmState k (ts_err s) (ts_out s))
  end.
Definition multiple_specs (path first second : bytes) : tos (option bytes) := λ s,
  t_fail (line [str "error: multiple .spec files in: "; path] ++ line [str "error:   first file: "; later first (ts_k s)]
          ++ line [str "error:   second file: "; second]) s.
Definition resolve_spec (path name : bytes) : tos bytes := λ s, t_os (realpath os (path ++ [47] ++ later name (ts_k s))) s.
(** Source: src/tosrpm.cpp 46-60, find_spec_file. *)
Fixpoint scan_specs (n : nat) (path : bytes) (dir : Z) (spec_name : option bytes) : tos (option bytes) :=
  match n with
  | O => λ _, None
  | S n =>
      entry ← t_readdir dir;
      match entry with
      | None => mret spec_name
      | Some name =>
          if ends_with name (str ".spec") then
            match spec_name with
            | Some first => multiple_specs path first name
            | None => scan_specs n path dir (Some name)
            end
          else scan_specs n path dir spec_name
      end
  end.
(** A null pointer is added to a string when there is no spec file.
    Source: src/tosrpm.cpp 42-74, find_spec_file. *)
Definition find_spec_file (path : bytes) : tos bytes :=
  dir ← t_fun (is_directory os path);
  if (dir : bool) then
    dir ← t_os (dir_handle_path os path);
    t_scope (
      spec_name ← scan_specs fuel path dir None;
      match spec_name with
      | None => t_stderr (line [str "error: no .spec file found in: "; path]);; t_throw fatal_signal
      | Some name => resolve_spec path name
      end) (λ k, Some (dir_destroy os (Some dir) k))
  else
    exists_ ← t_fun (path_exists os path);
    if negb exists_ then t_fail (line [str "error: no such file: "; path])
    else
      dir ← t_fun (is_directory os path);
      if (dir : bool) then t_fail (line [str "error: spec file is a directory: "; path])
      else t_os (realpath os path).
(** Source: src/tosrpm.cpp 76-85, find_source_tree. *)
Definition find_source_tree (path : bytes) : tos bytes :=
  dir ← t_fun (is_directory os path);
  if negb dir then t_fail (line [str "error: source tree argument is not a directory: "; path])
  else t_os (realpath os path).

(** ** The spec file *)

(** [tarball] is the last source; the counter is an [unsigned].
    Source: src/tosrpm.cpp 112-126, spec_info::spec_info. *)
Fixpoint spec_sources (sources : list bytes) (count : Z) (tarball : bytes) : Z * bytes :=
  match sources with [] => (count, tarball) | src :: sources => spec_sources sources (u32 (count + 1)) src end.
Definition spec_string (path : bytes) (what : string) (x : option bytes) : tos bytes :=
  match x with Some s => mret s | None => t_fail (line [str "error: could not obtain "; str what; str " from: "; until_nul path]) end.
(** A slash in the name of the archive is reported, but not refused.
    Source: src/tosrpm.cpp 97-162, spec_info::spec_info. *)
Definition spec_info_new (path : bytes) : tos spec_info :=
  spec ← t_fun (rpmSpecParse rs (until_nul path));
  match spec with
  | None => t_fail (line [str "error: could not parse spec file: "; until_nul path])
  | Some spec =>
      match rpmSpecSources rs spec with
      | None => t_fail (line [str "error: could not extract sources from: "; until_nul path])
      | Some sources =>
          let '(count, tarball) := spec_sources sources 0 [] in
          (if count =? 0 then t_fail (line [str "error: no source tarballs in: "; until_nul path])
           else if count =? 1 then mret tt
           else t_fail (line [str "error: "; dec count; str " source files in: "; until_nul path]));;
          (if bool_decide (47 ∈ tarball) then
             t_stderr (str "error: " ++ until_nul path ++ str " contains tarball with '/': " ++ until_nul tarball) else mret tt);;
          nvr ← spec_string path "NVR" (header_NVR rs spec);
          name ← spec_string path "NAME" (header_NAME rs spec);
          version ← spec_string path "VERSION" (header_VERSION rs spec);
          mret (SpecInfo tarball name version (nvr ++ str ".src.rpm"))
      end
  end.

(** ** The archive *)

(** Source: src/tosrpm.cpp 180-192, tarball_compressor::tarball_compressor. *)
Definition compressor_kind (tarball : bytes) : option (bytes * Z) :=
  if ends_with tarball (str ".tar.gz") then Some (str "gzip", 2)
  else if ends_with tarball (str ".tar.bz2") then Some (str "bzip2", 3)
  else if ends_with tarball (str ".tar.xz") then Some (str "xz", 2)
  else None.
(** A compressor that is not found is reported, but used.
    Source: src/tosrpm.cpp 175-204, tarball_compressor::tarball_compressor. *)
Definition tarball_compressor_new (tarball : bytes) : tos tarball_compressor :=
  match compressor_kind tarball with
  | None => t_fail (line [str "error: could not determine tarball compressor: "; until_nul tarball])
  | Some (compressor, suffix_len) =>
      let prefix := ztake (u64 (zlen tarball - suffix_len - 5)) tarball in
      let uncompressed := ztake (u64 (zlen tarball - suffix_len - 1)) tarball in
      let compressor := str "/bin/" ++ compressor in
      found ← t_fun (is_executable os compressor);
      compressor ← (if (found : bool) then mret compressor
                    else
                      let compressor := str "/usr" ++ compressor in
                      found ← t_fun (is_executable os compressor);
                      (if negb found then t_stderr (line [str "error: could not find compressor: "; compressor]) else mret tt);;
                      mret compressor) : tos bytes;
      mret (TarballCompressor prefix tarball uncompressed compressor)
  end.

(** A child that is set up, started and waited for; [check] looks at its status before
    the destructor runs. *)
Definition run_child (setup : sub (K := K) unit) (check : Z → tos unit) : tos unit := λ s,
  match (setup;; start os pr;; wait os pr) (subprocess_new, ts_k s) with
  | (Throw e, x) => Some (Throw e, TosrpmState (destroy os pr x) (ts_err s) (ts_out s))
  | (Ok ret, (p, k)) => t_scope (check ret) (λ k, Some (destroy os pr (p, k))) (TosrpmState k (ts_err s) (ts_out s))
  end.
Fixpoint args (l : list bytes) : sub (K := K) unit := match l with [] => mret tt | a :: l => arg a;; args l end.
Definition status_zero (text : Z → bytes) (ret : Z) : tos unit := if negb (ret =? 0) then t_fail (text ret) else mret tt.
(** The arguments are C strings.
    Source: src/tosrpm.cpp 233-244, tarball_compressor::build. *)
Definition git_archive (source_tree tarball_full expected : bytes) : sub (K := K) unit :=
  inherit_environ pr;; redirect os std_in null;;
  command (str "/usr/bin/git");;
  args [until_nul (str "--git-dir=" ++ source_tree ++ str "/.git"); until_nul (str "--work-tree=" ++ source_tree); str "archive";
        str "--format=tar"; until_nul (str "--output=" ++ tarball_full);
        until_nul (str "--prefix=" ++ expected ++ str "/"); str "HEAD"].
(** Source: src/tosrpm.cpp 263-268, tarball_compressor::build. *)
Definition compress_archive (tc : tarball_compressor) (tarball_full : bytes) : sub (K := K) unit :=
  inherit_environ pr;; redirect os std_in null;;
  command (until_nul (tc_compressor tc));;
  args [until_nul tarball_full].
Definition must_exist (yes : bool) (path text : bytes) : tos unit :=
  e ← t_fun (path_exists os (until_nul path));
  if Bool.eqb e yes then mret tt else t_fail text.
(** Source: src/tosrpm.cpp 206-283, tarball_compressor::build. *)
Definition build (tempdir source_tree : bytes) (spec : spec_info) (tc : tarball_compressor) : tos bytes :=
  let tarball_full := temporary_directory_path_of tempdir (until_nul (tc_uncompressed_name tc)) in
  let expected := si_name spec ++ [45] ++ si_version spec in
  must_exist false tarball_full (line [str "error: output tarball already exists: "; until_nul tarball_full]);;
  (if negb (bool_decide (tc_prefix tc = expected)) then
     t_stderr (line [str "warning: unexpected name of tarball: "; until_nul (tc_prefix tc)]
               ++ line [str "warning:   expected: "; until_nul expected]) else mret tt);;
  run_child (git_archive source_tree tarball_full expected)
    (status_zero (λ ret, line [str "error: "; [34]; str "git archive"; [34]; str " exited with status: "; dec ret]));;
  must_exist true tarball_full (line [str "error: "; [34]; str "git archive"; [34]; str " did not create tarball"]);;
  let compressed_full := temporary_directory_path_of tempdir (until_nul (tc_compressed_name tc)) in
  must_exist false compressed_full (line [str "error: output tarball already exists: "; until_nul compressed_full]);;
  run_child (compress_archive tc tarball_full)
    (status_zero (λ ret, line [str "error: "; until_nul (tc_compressor tc); str " exited with status: "; dec ret]));;
  must_exist true compressed_full (line [str "error: "; until_nul (tc_compressor tc); str " did not create compressed tarball"]);;
  mret compressed_full.

(** ** The package *)

(** Source: src/tosrpm.cpp 286-298, cp_or_mv. *)
Definition cp_or_mv (cpmv from to : bytes) : tos unit :=
  run_child (command cpmv;; args [str "--"; from; to])
    (status_zero (λ _, str "error: " ++ cpmv ++ str " " ++ [34] ++ from ++ [34] ++ str " " ++ [34] ++ to ++ [34] ++ str " failed")).
(** Source: src/tosrpm.cpp 300-304, move_file. *)
Definition move_file (from to : bytes) : tos unit := cp_or_mv (str "/bin/mv") from to.
(** Source: src/tosrpm.cpp 311-319, run_rpmbuild. *)
Definition rpmbuild (tempdir spec_path : bytes) : sub (K := K) unit :=
  command (str "/usr/bin/rpmbuild");;
  args [str "--buildroot=/var/empty"; until_nul (str "-D _topdir " ++ tempdir); until_nul (str "-D _sourcedir " ++ tempdir);
        until_nul (str "-D _srcrpmdir " ++ tempdir); str "-bs"; until_nul spec_path].
(** Source: src/tosrpm.cpp 306-332, run_rpmbuild. *)
Definition run_rpmbuild (tempdir spec_path : bytes) (spec : spec_info) : tos bytes :=
  run_child (rpmbuild tempdir spec_path)
    (status_zero (λ ret, line [str "error: rpmbuild failed with exit status: "; dec ret]));;
  let result := temporary_directory_path_of tempdir (until_nul (si_srpm spec)) in
  must_exist true result (line [str "error: rpmbuild failed to produce SRPM file: "; until_nul result]);;
  mret result.

(** ** The program *)

(** What [getopt_long] returns. *)
Inductive tosrpm_option := opt_q | opt_v | opt_o (path : bytes) | opt_other.
(** Source: src/tosrpm.cpp 340-349, usage. *)
Definition usage_lines : list bytes :=
  [[]; str "Builds a SRPM from SPEC, using DIRECTORY as the contents of the tarball."; [];
   str "SPEC can be a directory, and it must contain a single *.spec file.  If SPEC";
   str "is a file, it is use directly.  If SPEC or DIRECTORY are omitted, they";
   str "default to the current directory."; []; str "Options:";
   str "  --output=PATH, -o PATH   output location of the SRPM file";
   str "  --quiet, -q              less output, only print the SRPM path on success";
   str "  --verbose, -v            more verbose output"; []].
(** Source: src/tosrpm.cpp 334-351, usage. *)
Definition usage {A} (progname : bytes) (error : option bytes) : tos A :=
  t_stderr (match error with Some e => line [str "error: "; e] | None => [] end
            ++ line [str "Usage: "; progname; str " [OPTIONS] [SPEC [DIRECTORY]]"] ++ concat ((λ l, l ++ [10]) <$> usage_lines));;
  t_throw (exit_called 2).
(** Source: src/tosrpm.cpp 366-381, main. *)
Fixpoint parse_options (progname : bytes) (opts : list tosrpm_option) (verbosity : verbosity_t) (output_path : bytes)
    : tos (verbosity_t * bytes) :=
  match opts with
  | [] => mret (verbosity, output_path)
  | opt_q :: opts => parse_options progname opts QUIET output_path
  | opt_v :: opts => parse_options progname opts VERBOSE output_path
  | opt_o path :: opts => parse_options progname opts verbosity path
  | opt_other :: _ => usage progname None
  end.
(** Source: src/tosrpm.cpp 382-399, main. *)
Definition arguments (progname : bytes) (rest : list bytes) : tos (bytes * bytes) :=
  match rest with
  | [] => mret (str ".", str ".")
  | [spec_arg] => mret (spec_arg, str ".")
  | [spec_arg; tree_arg] => mret (spec_arg, tree_arg)
  | _ => usage progname (Some (str "too many arguments"))
  end.
Definition when (b : bool) (m : tos unit) : tos unit := if b then m else mret tt.
Definition info (parts : list bytes) : tos unit := t_stderr (line (str "info: " :: parts)).
(** The block with the temporary directory.
    Source: src/tosrpm.cpp 426-437, main. *)
Definition build_package (tempdir source_tree spec_file : bytes) (spec : spec_info) (compressed : tarball_compressor)
    (verbosity : verbosity_t) (output_path : bytes) : tos unit :=
  full_tarball_path ← build tempdir source_tree spec compressed;
  when (bool_decide (verbosity = VERBOSE)) (info [str "built tarball: "; until_nul full_tarball_path]);;
  srpm ← run_rpmbuild tempdir spec_file spec;
  move_file (until_nul srpm) (until_nul output_path);;
  t_stdout (line [until_nul output_path]).
(** Source: src/tosrpm.cpp 411-415, main. *)
Definition output_location (output_path : bytes) (spec : spec_info) : tos bytes :=
  dir ← t_fun (is_directory os (until_nul output_path));
  if (dir : bool) then real ← t_os (realpath os (until_nul output_path)); mret (real ++ [47] ++ si_srpm spec)
  else mret output_path.
(** Source: src/tosrpm.cpp 401-438, main. *)
Definition tosrpm (spec_arg tree_arg : bytes) (verbosity : verbosity_t) (output_path : bytes) : tos Z :=
  let loud := negb (bool_decide (verbosity = QUIET)) in
  let verbose := bool_decide (verbosity = VERBOSE) in
  spec_file ← find_spec_file spec_arg;
  when loud (info [str "spec file: "; until_nul spec_file]);;
  source_tree ← find_source_tree tree_arg;
  when loud (info [str "source tree: "; until_nul source_tree]);;
  spec ← spec_info_new spec_file;
  output_path ← output_location output_path spec;
  when verbose (info [str "output SRPM: "; until_nul output_path];; info [str "tarball: "; until_nul (si_tarball spec)]);;
  compressed ← tarball_compressor_new (si_tarball spec);
  when verbose (info [str "uncompressed: "; until_nul (tc_uncompressed_name compressed); str ", with "; until_nul (tc_compressor compressed)]);;
  tempdir ← t_os (temporary_directory_new os);
  t_scope (build_package tempdir source_tree spec_file spec compressed verbosity output_path)
    (temporary_directory_destroy os fuel tempdir);;
  mret 0.
(** Source: src/tosrpm.cpp 353-439, main. *)
Definition main_ (progname : bytes) (opts : list tosrpm_option) (rest : list bytes) : tos Z :=
  '(verbosity, output_path) ← parse_options progname opts DEFAULT_VERBOSITY (str "..");
  '(spec_arg, tree_arg) ← arguments progname rest;
  tosrpm spec_arg tree_arg verbosity output_path.
End Tosrpm.

(** ** The names of the archives *)

Lemma ends_with_app s p : ends_with s p = true → ∃ b, s = b ++ p.
Proof.
  unfold ends_with. destruct (zlen s <? zlen p); [done|]. intros H%bool_decide_eq_true. eexists (ztake (zlen s - zlen p) s).
  rewrite <- H at 2. unfold ztake, zdrop. by rewrite take_drop.
Qed.

(** The names fit together: the prefix with [.tar] is the name of the uncompressed archive,
    and the suffix that the compressor adds to it gives the name of the source. *)
Lemma compressor_names tarball c n : zlen tarball < 2 ^ 64 → compressor_kind tarball = Some (c, n) →
  ∃ base ext, (c, ext) ∈ [(str "gzip", str ".gz"); (str "bzip2", str ".bz2"); (str "xz", str ".xz")] ∧
    ztake (u64 (zlen tarball - n - 5)) tarball = base ∧
    ztake (u64 (zlen tarball - n - 1)) tarball = base ++ str ".tar" ∧
    tarball = (base ++ str ".tar") ++ ext.
Proof.
  intros Hlen. unfold compressor_kind.
  assert (Hname : ∀ base ext, 0 < zlen ext → zlen (base ++ str ".tar" ++ ext) < 2 ^ 64 →
    ztake (u64 (zlen (base ++ str ".tar" ++ ext) - (zlen ext - 1) - 5)) (base ++ str ".tar" ++ ext) = base ∧
    ztake (u64 (zlen (base ++ str ".tar" ++ ext) - (zlen ext - 1) - 1)) (base ++ str ".tar" ++ ext) = base ++ str ".tar").
  { intros base ext Hext Hl. rewrite !zlen_app in *. change (zlen (str ".tar")) with 4 in *.
    pose proof (zlen_nonneg base).
    assert (Hu : ∀ z, 0 <= z < 2 ^ 64 → u64 z = z) by (intros z Hz; by apply Z.mod_small). rewrite !Hu by lia. split.
    - replace (zlen base + (4 + zlen ext) - (zlen ext - 1) - 5) with (zlen base) by lia.
      unfold ztake, zlen. by rewrite Nat2Z.id, take_app_length.
    - replace (zlen base + (4 + zlen ext) - (zlen ext - 1) - 1) with (zlen (base ++ str ".tar")) by (rewrite zlen_app; change (zlen (str ".tar")) with 4; lia).
      rewrite app_assoc. unfold ztake, zlen. by rewrite Nat2Z.id, take_app_length. }
  destruct (ends_with tarball (str ".tar.gz")) eqn:E1; [|destruct (ends_with tarball (str ".tar.bz2")) eqn:E2;
    [|destruct (ends_with tarball (str ".tar.xz")) eqn:E3; [|done]]];
    intros [= <- <-];
    [apply ends_with_app in E1 as [base ->]|apply ends_with_app in E2 as [base ->]|apply ends_with_app in E3 as [base ->]];
    [exists base, (str ".gz")|exists base, (str ".bz2")|exists base, (str ".xz")];
    (split; [set_solver|]); [destruct (Hname base (str ".gz") eq_refl Hlen)|destruct (Hname base (str ".bz2") eq_refl Hlen)|destruct (Hname base (str ".xz") eq_refl Hlen)];
    (split; [assumption|]); (split; [assumption|]); by rewrite <- app_assoc.
Qed.

(** ** The spec file of a directory *)

Section Spec.
Context {K : Type} (os : posix K) (pr : processes K) {Sp : Type} (rs : spec_lib K Sp).
Context (later : bytes → K → bytes) (fuel : nat).
Abbreviation St := (tosrpm_state K).
Abbreviation at_k k s := (TosrpmState k (ts_err s) (ts_out s)).

(** The entries of an open directory. *)
Inductive lists (dir : Z) : K → list bytes → K → Prop :=
| lists_end k k' : dir_readdir os fuel dir k = Some (Ok None, k') → lists dir k [] k'
| lists_next k name k1 names k' : dir_readdir os fuel dir k = Some (Ok (Some name), k1) → lists dir k1 names k' →
    lists dir k (name :: names) k'.
Definition specs (names : list bytes) : list bytes := filter (λ name, ends_with name (str ".spec") = true) names.

Lemma specs_cons name names : specs (name :: names) = if ends_with name (str ".spec") then name :: specs names else specs names.
Proof using.
  unfold specs. destruct (ends_with name (str ".spec")) eqn:E; [by rewrite filter_cons_True|]. by rewrite filter_cons_False by congruence.
Qed.

(** [old] is the spec file that was found before. *)
Lemma scan_specs_spec path dir k names k' : lists dir k names k' → ∀ n old (s : St), ts_k s = k → (length names < n)%nat →
  match option_list old ++ specs names with
  | _ :: second :: _ => ∃ k2 text, scan_specs os later fuel n path dir old s = Some (Throw (exit_called 1), TosrpmState k2 (ts_err s ++ text) (ts_out s))
  | l => scan_specs os later fuel n path dir old s = Some (Ok (head l), at_k k' s)
  end.
Proof using.
  induction 1 as [k k' E|k name k1 names k' E Hl IH]; intros [|n] old s Hk Hn; cbn [length] in Hn; try lia;
    cbn [scan_specs]; unfold mbind, fsx_bind, t_readdir; rewrite Hk, E.
  - by destruct old.
  - rewrite specs_cons. destruct (ends_with name (str ".spec")) eqn:En; [|exact (IH n old (at_k k1 s) eq_refl ltac:(lia))].
    destruct old as [o|]; cbn [option_list app].
    + eexists _, _. reflexivity.
    + exact (IH n (Some name) (at_k k1 s) eq_refl ltac:(lia)).
Qed.

(** A directory stands for its only spec file, whatever else is in it; without one the
    program crashes, after a message, and with two it exits. *)
Lemma find_spec_file_spec path dir (s : St) k0 k1 names k2 :
  is_directory os path (ts_k s) = (true, k0) → px_opendir os path k0 = (Some dir, k1) → lists dir k1 names k2 →
  (length names < fuel)%nat →
  match specs names with
  | [] => ∃ s', find_spec_file os later fuel path s = Some (Throw fatal_signal, s') ∧
      ts_err s' = ts_err s ++ line [str "error: no .spec file found in: "; path]
  | [name] => find_spec_file os later fuel path s =
      let '(r, k) := realpath os (path ++ [47] ++ later name k2) k2 in Some (r, at_k (px_closedir os dir k).2 s)
  | _ => ∃ s', find_spec_file os later fuel path s = Some (Throw (exit_called 1), s')
  end.
Proof using.
  intros Hd Ho Hl Hn.
  assert (∀ r s1, scan_specs os later fuel fuel path dir None (at_k k1 s) = Some (r, s1) → find_spec_file os later fuel path s =
    t_scope (λ _, match r with
      | Ok (Some name) => resolve_spec os later path name s1
      | Ok None => (t_stderr (line [str "error: no .spec file found in: "; path]);; t_throw fatal_signal) s1
      | Throw e => Some (Throw e, s1)
      end) (λ k, Some (dir_destroy os (Some dir) k)) s) as Hfind.
  { intros r s1 Hscan. unfold find_spec_file, mbind at 1, fsx_bind at 1, t_fun at 1. rewrite Hd.
    unfold mbind at 1, fsx_bind at 1, t_os at 1, dir_handle_path. cbn [ts_k]. rewrite Ho. unfold t_scope.
    unfold mbind at 1, fsx_bind at 1. cbn [ts_err ts_out]. rewrite Hscan. by destruct r as [[name|]|e]. }
  pose proof (scan_specs_spec path dir k1 names k2 Hl fuel None (at_k k1 s) eq_refl Hn) as Hscan.
  cbn [option_list app ts_err ts_out] in Hscan. destruct (specs names) as [|name [|second rest]].
  - rewrite (Hfind _ _ Hscan). cbn. eexists. split; [reflexivity|done].
  - rewrite (Hfind _ _ Hscan). unfold t_scope, resolve_spec, t_os, realpath. cbn [ts_k head].
    by destruct (px_realpath _ _ _) as [[p|] k].
  - destruct Hscan as (k3 & text & Hscan). rewrite (Hfind _ _ Hscan). by eexists.
Qed.

(** ** What a run has done *)

(** A child that was started from [setup], and whose status was zero. *)
Definition succeeded (setup : sub (K := K) unit) (k k' : K) : Prop :=
  ∃ p k1, (setup;; start os pr;; wait os pr) (subprocess_new, k) = (Ok 0, (p, k1)) ∧ k' = destroy os pr (p, k1).
Lemma t_scope_Ok {A} (m : tos A) (d : K → option K) (s : St) a s' : t_scope m d s = Some (Ok a, s') →
  ∃ s1 k, m s = Some (Ok a, s1) ∧ d (ts_k s1) = Some k ∧ s' = at_k k s1.
Proof using.
  unfold t_scope. destruct (m s) as [[[b|e] s1]|]; [|destruct e; try done; by destruct (d (ts_k s1))|done].
  destruct (d (ts_k s1)) as [k|] eqn:E; [|done]. intros [= -> <-]. by exists s1, k.
Qed.
Lemma run_child_Ok setup text (s : St) u s' : run_child os pr setup (status_zero text) s = Some (Ok u, s') →
  ∃ k, succeeded setup (ts_k s) k ∧ s' = at_k k s.
Proof using.
  unfold run_child. destruct ((setup;; start os pr;; wait os pr) (subprocess_new, ts_k s)) as [[ret|e] [p k]] eqn:E; [|done].
  intros (s1 & k' & Hs & [= <-] & ->)%t_scope_Ok. unfold status_zero in Hs. destruct (Z.eqb_spec ret 0) as [->|]; [|done].
  injection Hs as _ <-. exists (destroy os pr (p, k)). split; [by exists p, k|done].
Qed.
Lemma must_exist_Ok yes path text (s : St) u s' : must_exist os yes path text s = Some (Ok u, s') →
  ∃ k, path_exists os (until_nul path) (ts_k s) = (yes, k) ∧ s' = at_k k s.
Proof using.
  unfold must_exist, mbind at 1, fsx_bind at 1, t_fun. destruct (path_exists os (until_nul path) (ts_k s)) as [e k].
  destruct (Bool.eqb e yes) eqn:E; [|done]. apply Bool.eqb_prop in E as ->. intros [= _ <-]. by exists k.
Qed.

(** Messages leave the system alone. *)
Definition only_says (m : tos (K := K) unit) : Prop := ∀ s r s', m s = Some (r, s') → r = Ok tt ∧ ts_k s' = ts_k s ∧ ts_out s' = ts_out s.
Lemma says_ret : only_says (mret tt).
Proof using. by intros s r s' [= <- <-]. Qed.
Lemma says_stderr text : only_says (t_stderr text).
Proof using. by intros s r s' [= <- <-]. Qed.
Lemma says_if (b : bool) m m' : only_says m → only_says m' → only_says (if b then m else m').
Proof using. by destruct b. Qed.

Lemma compressed_name tarball (s : St) tc s' : tarball_compressor_new os tarball s = Some (Ok tc, s') → tc_compressed_name tc = tarball.
Proof using.
  unfold tarball_compressor_new. destruct (compressor_kind tarball) as [[c n]|]; [|done].
  intros (b & s1 & _ & (c' & s2 & _ & H)%fsx_bind_Ok)%fsx_bind_Ok. by injection H as <- _.
Qed.
Abbreviation expected spec := (si_name spec ++ [45] ++ si_version spec).
Abbreviation in_dir tempdir name := (temporary_directory_path_of tempdir (until_nul name)).
Lemma build_Ok tempdir source_tree spec tc (s : St) full s' : build os pr tempdir source_tree spec tc s = Some (Ok full, s') →
  let tarball := in_dir tempdir (tc_uncompressed_name tc) in
  let compressed := in_dir tempdir (tc_compressed_name tc) in
  ∃ k1 k2 k3 k4 k5, path_exists os (until_nul tarball) (ts_k s) = (false, k1) ∧
    succeeded (git_archive os pr source_tree tarball (expected spec)) k1 k2 ∧ path_exists os (until_nul tarball) k2 = (true, k3) ∧
    path_exists os (until_nul compressed) k3 = (false, k4) ∧ succeeded (compress_archive os pr tc tarball) k4 k5 ∧
    path_exists os (until_nul compressed) k5 = (true, ts_k s') ∧ ts_out s' = ts_out s.
Proof using.
  intros H tarball compressed. unfold build in H. fold tarball compressed in H.
  apply fsx_bind_Ok in H as (u1 & s1 & (k1 & E1 & ->)%must_exist_Ok & H).
  apply fsx_bind_Ok in H as (u2 & s2 & Hsay & H).
  assert (only_says (if negb (bool_decide (tc_prefix tc = expected spec))
    then t_stderr (line [str "warning: unexpected name of tarball: "; until_nul (tc_prefix tc)]
                   ++ line [str "warning:   expected: "; until_nul (expected spec)]) else mret tt)) as Hs
    by (apply says_if; [apply says_stderr|apply says_ret]).
  destruct (Hs _ _ _ Hsay) as (_ & Hk & Ho). clear Hs Hsay.
  apply fsx_bind_Ok in H as (u3 & s3 & (k2 & E2 & ->)%run_child_Ok & H).
  apply fsx_bind_Ok in H as (u4 & s4 & (k3 & E3 & ->)%must_exist_Ok & H).
  apply fsx_bind_Ok in H as (u5 & s5 & (k4 & E4 & ->)%must_exist_Ok & H).
  apply fsx_bind_Ok in H as (u6 & s6 & (k5 & E5 & ->)%run_child_Ok & H).
  apply fsx_bind_Ok in H as (u7 & s7 & (k6 & E6 & ->)%must_exist_Ok & H). apply fsx_ret_Ok in H as [-> ->].
  cbn [ts_k ts_err ts_out] in *. rewrite Hk in E2. exists k1, k2, k3, k4, k5. by split_and!.
Qed.
Lemma run_rpmbuild_Ok tempdir spec_file spec (s : St) srpm s' : run_rpmbuild os pr tempdir spec_file spec s = Some (Ok srpm, s') →
  ∃ k, succeeded (rpmbuild tempdir spec_file) (ts_k s) k ∧ path_exists os (until_nul srpm) k = (true, ts_k s') ∧
    srpm = in_dir tempdir (si_srpm spec) ∧ ts_out s' = ts_out s.
Proof using.
  unfold run_rpmbuild. intros (u & s1 & (k & E & ->)%run_child_Ok & (u' & s2 & (k2 & E2 & ->)%must_exist_Ok & H)%fsx_bind_Ok)%fsx_bind_Ok.
  apply fsx_ret_Ok in H as [-> ->]. by exists k.
Qed.

(** What status 0 means: the spec file and the tree were found; the archive was made
    from the tree with [git archive], did not exist before and did afterwards, likewise the
    compressed archive, whose name is that of the source in the spec file; [rpmbuild] was
    run on the spec file and left the source package, which was moved to the output path,
    that was printed; each of the four programs ended with status 0; and the temporary
    directory was removed after all of them. *)
Theorem tosrpm_spec progname opts rest (s s' : St) n :
  main_ os pr rs later fuel progname opts rest s = Some (Ok n, s') →
  n = 0 ∧ ∃ spec_file source_tree spec tc output tempdir k0 k1 k2 k3 k4 k5 k6 k7 k8 k9 k10 out,
    let expected := si_name spec ++ [45] ++ si_version spec in
    let tarball := temporary_directory_path_of tempdir (until_nul (tc_uncompressed_name tc)) in
    let compressed := temporary_directory_path_of tempdir (until_nul (tc_compressed_name tc)) in
    let srpm := temporary_directory_path_of tempdir (until_nul (si_srpm spec)) in
    tc_compressed_name tc = si_tarball spec ∧
    path_exists os (until_nul tarball) k0 = (false, k1) ∧
    succeeded (git_archive os pr source_tree tarball expected) k1 k2 ∧
    path_exists os (until_nul tarball) k2 = (true, k3) ∧
    path_exists os (until_nul compressed) k3 = (false, k4) ∧
    succeeded (compress_archive os pr tc tarball) k4 k5 ∧
    path_exists os (until_nul compressed) k5 = (true, k6) ∧
    succeeded (rpmbuild tempdir spec_file) k6 k7 ∧
    path_exists os (until_nul srpm) k7 = (true, k8) ∧
    succeeded (command (str "/bin/mv");; args [str "--"; until_nul srpm; until_nul output]) k8 k9 ∧
    temporary_directory_destroy os fuel tempdir k9 = Some k10 ∧ ts_k s' = k10 ∧
    ts_out s' = out ++ line [until_nul output].
Proof using.
  unfold main_. intros (vo & s1 & _ & H)%fsx_bind_Ok. destruct vo as [verbosity output0].
  apply fsx_bind_Ok in H as ([spec_arg tree_arg] & s2 & _ & H). unfold tosrpm in H.
  apply fsx_bind_Ok in H as (spec_file & s3 & _ & H). apply fsx_bind_Ok in H as (u1 & s4 & _ & H).
  apply fsx_bind_Ok in H as (source_tree & s5 & _ & H). apply fsx_bind_Ok in H as (u2 & s6 & _ & H).
  apply fsx_bind_Ok in H as (spec & s7 & _ & H). apply fsx_bind_Ok in H as (output & s8 & _ & H).
  apply fsx_bind_Ok in H as (u3 & s9 & _ & H). apply fsx_bind_Ok in H as (tc & s10 & Htc & H).
  apply fsx_bind_Ok in H as (u4 & s11 & _ & H). apply fsx_bind_Ok in H as (tempdir & s12 & _ & H).
  apply fsx_bind_Ok in H as (u5 & s13 & Hb & H). apply fsx_ret_Ok in H as [-> ->]. split; [done|].
  apply t_scope_Ok in Hb as (s14 & k10 & Hb & Hk10 & ->). unfold build_package in Hb.
  apply fsx_bind_Ok in Hb as (full & s15 & Hbuild & H). apply fsx_bind_Ok in H as (u6 & s16 & Hv & H).
  apply fsx_bind_Ok in H as (srpm & s17 & Hrpm & H). apply fsx_bind_Ok in H as (u7 & s18 & Hmv & H).
  injection H as _ <-. cbn [ts_k ts_err ts_out] in *.
  apply run_child_Ok in Hmv as (k9 & Hmv & ->). apply build_Ok in Hbuild as (k1 & k2 & k3 & k4 & k5 & H1 & H2 & H3 & H4 & H5 & H6 & _).
  assert (only_says (when (bool_decide (verbosity = VERBOSE)) (info [str "built tarball: "; until_nul full]))) as Hs
    by (apply says_if; [apply says_stderr|apply says_ret]).
  destruct (Hs _ _ _ Hv) as (_ & Hk & _). apply run_rpmbuild_Ok in Hrpm as (k7 & H7 & H8 & -> & _). rewrite Hk in H7.
  exists spec_file, source_tree, spec, tc, output, tempdir, (ts_k s12), k1, k2, k3, k4, k5, (ts_k s15), k7, (ts_k s17), k9, k10, (ts_out s17).
  cbv zeta. by split_and!; try apply (compressed_name _ _ _ _ Htc).
Qed.
End Spec.

(** ** A run *)

(** What [access] will answer, the entries of the directory that was opened, and the
    arguments of the programs that were started. *)
Record bench := Bench { b_access : list Z; b_entries : list bytes; b_log : list (list bytes) }.
Definition bench_kernel : posix bench := {|
  px_errno _ := 2; px_open _ _ _ k := (-1, k); px_openat _ _ _ _ k := (-1, k); px_close _ k := (0, k);
  px_mkostemp _ _ k := ((-1, []), k); px_dup _ k := (-1, k); px_dupfd_cloexec _ k := (-1, k);
  px_getfd _ k := (0, k); px_setfd _ _ k := (0, k); px_fsync _ k := (0, k);
  px_read _ n k := ((0, []), k); px_write _ _ k := (-1, k); px_mkdirat _ _ _ k := (-1, k);
  px_unlinkat _ _ _ k := (-1, k); px_renameat _ _ _ _ k := (-1, k); px_fstatat _ _ k := (None, k);
  px_stat path k := (if bool_decide (path = str "out.srpm") then None else Some (Stat KindDirectory 0), k);
  px_mkdtemp prefix k := (Some (str "/tmp/t"), k); px_mkdir _ _ k := (-1, k); px_rmdir _ k := (0, k);
  px_access _ _ k := match b_access k with [] => (0, k) | a :: l => (a, Bench l (b_entries k) (b_log k)) end;
  px_getenv _ _ := None; px_opendir path k := (Some 3, k); px_fdopendir _ k := (None, k);
  px_readdir _ k := match b_entries k with [] => ((None, 0), k) | e :: l => ((Some e, 0), Bench (b_access k) l (b_log k)) end;
  px_closedir _ k := (0, k); px_dirfd _ _ := 4;
  px_getcwd _ k := (None, k); px_readlink _ _ k := ((-1, []), k); px_realpath path k := (Some path, k)
|}.
Definition bench_processes : processes bench := {|
  pr_attr_init k := (0, k); pr_setsigdefault k := (0, k); pr_setsigmask k := (0, k); pr_actions_init k := (0, k);
  pr_add_action _ k := (0, k); pr_pipe2 _ k := ((-1, 0, 0), k);
  pr_spawn _ _ argv _ _ k := ((0, 9), Bench (b_access k) (b_entries k) (b_log k ++ [omap Datatypes.id argv]));
  pr_waitpid pid k := ((pid, 0), k); pr_kill _ _ k := (-1, k); pr_environ _ := [];
  WIFEXITED _ := true; WEXITSTATUS status := status; WIFSIGNALED _ := false; WTERMSIG _ := 0
|}.
Definition bench_spec : spec_lib bench unit := SpecLib bench unit (λ _ k, (Some tt, k)) (λ _, Some [str "demo-1.tar.gz"])
  (λ _, Some (str "demo-1-1")) (λ _, Some (str "demo")) (λ _, Some (str "1")).
(** The compressor is there; neither archive is, before it is made. *)
Definition bench_start : tosrpm_state bench :=
  TosrpmState (Bench [0; -1; 0; -1; 0; 0] [str "demo.c"; str "demo.spec"] []) [] [].
Abbreviation bench_run := (main_ bench_kernel bench_processes bench_spec (λ name _, name) 9 (str "tosrpm") [opt_q; opt_o (str "out.srpm")] [str "p"]).
Lemma tosrpm_spec_witness : ∃ s',
  bench_run bench_start = Some (Ok 0, s') ∧ ts_out s' = str "out.srpm" ++ [10] ∧
  b_log (ts_k s') =
    [[str "/usr/bin/git"; str "--git-dir=./.git"; str "--work-tree=."; str "archive"; str "--format=tar";
      str "--output=/tmp/t/demo-1.tar"; str "--prefix=demo-1/"; str "HEAD"];
     [str "/bin/gzip"; str "/tmp/t/demo-1.tar"];
     [str "/usr/bin/rpmbuild"; str "--buildroot=/var/empty"; str "-D _topdir /tmp/t"; str "-D _sourcedir /tmp/t";
      str "-D _srcrpmdir /tmp/t"; str "-bs"; str "p/demo.spec"];
     [str "/bin/mv"; str "--"; str "/tmp/t/demo-1-1.src.rpm"; str "out.srpm"]] ∧
  ∃ tempdir k9 k10, temporary_directory_destroy bench_kernel 9 tempdir k9 = Some k10 ∧ ts_k s' = k10.
Proof.
  destruct (bench_run bench_start) as [[r s']|] eqn:E; [|by vm_compute in E]. exists s'.
  assert (r = Ok 0) as -> by (vm_compute in E; by injection E as <- _). split; [done|].
  assert (ts_out s' = str "out.srpm" ++ [10]) as Ho by (vm_compute in E; by injection E as <-).
  split; [exact Ho|]. split; [vm_compute in E; injection E as <-; vm_compute; reflexivity|].
  destruct (tosrpm_spec bench_kernel bench_processes bench_spec (λ name _, name) 9 _ _ _ _ _ _ E)
    as (_ & sf & st & sp & tc & o & tempdir & k0 & k1 & k2 & k3 & k4 & k5 & k6 & k7 & k8 & k9 & k10 & out & Hs).
  exists tempdir, k9, k10. clear E. cbv zeta in Hs. destruct Hs as (_ & _ & _ & _ & _ & _ & _ & _ & _ & _ & Hd & Hk & _). split; [exact Hd|exact Hk].
Defined.
(** When a program fails, [exit] leaves the temporary directory behind, and what was made
    in it so far. *)
Example failed_archive_left :
  let s := TosrpmState (Bench [0; -1; -1] [str "demo.spec"] []) [] [] in
  ∃ s', bench_run s = Some (Throw (exit_called 1), s') ∧
    b_log (ts_k s') = [[str "/usr/bin/git"; str "--git-dir=./.git"; str "--work-tree=."; str "archive"; str "--format=tar";
      str "--output=/tmp/t/demo-1.tar"; str "--prefix=demo-1/"; str "HEAD"]].
Proof. eexists. split; vm_compute; reflexivity. Qed.
(** A directory without a spec file. *)
Example no_spec_file_crashes : ∃ s', bench_run (TosrpmState (Bench [] [str "demo.c"] []) [] []) = Some (Throw fatal_signal, s').
Proof. eexists. vm_compute. reflexivity. Qed.
