(* ===== verification/Asdl.v ===== *)
(** * The data description language (include/cxxll/asdl.hpp, lib/cxxll/asdl/)

    Definitions of types in ASDL, and their text.  The streams the operators write to are
    the text they append.

    [valid_identifier_spec]: which strings are identifiers.
    [definition_roundtrip]: the text of a valid definition says what the definition is: a
    parser, which the program does not have, reads it back. *)

From S2P Require Import Prelude.

(** Source: include/cxxll/asdl.hpp 51-51, cardinality. *)
Inductive cardinality := single | optional | multiple.
(** Source: include/cxxll/asdl.hpp 59-65, field. *)
Record field := Field { fld_type : bytes; fld_name : bytes; fld_cardinality : cardinality }.
(** Source: include/cxxll/asdl.hpp 71-76, constructor. *)
Record constructor := Constructor { con_name : bytes; con_fields : list field }.
(** Source: include/cxxll/asdl.hpp 86-91, declarator. *)
Record declarator := Declarator { decl_constructors : list constructor; decl_fields : list field }.
(** Source: include/cxxll/asdl.hpp 95-100, definition. *)
Record definition := AsdlDefinition { def_name : bytes; def_declarator : declarator }.

(** ** Identifiers *)

(** Source: lib/cxxll/asdl/identifier.cpp 22-26, upper. *)
Definition upper (ch : Z) : bool := (65 <=? ch) && (ch <=? 90).
(** Source: lib/cxxll/asdl/identifier.cpp 28-32, lower. *)
Definition lower (ch : Z) : bool := (97 <=? ch) && (ch <=? 122).
(** Source: lib/cxxll/asdl/identifier.cpp 34-38, digit. *)
Definition digit (ch : Z) : bool := (48 <=? ch) && (ch <=? 57).
(** Source: lib/cxxll/asdl/identifier.cpp 40-44, alpha. *)
Definition alpha (ch : Z) : bool := upper ch || lower ch.
(** Source: lib/cxxll/asdl/identifier.cpp 46-50, letter. *)
Definition letter (ch : Z) : bool := alpha ch || digit ch || (ch =? 95).

(** [fuel] is what is left of [len].
    Source: lib/cxxll/asdl/identifier.cpp 60-65, valid_identifier. *)
Fixpoint letters_from (fuel : nat) (i : Z) (s : bytes) : bool :=
  match fuel with
  | O => true
  | S fuel => match zget s i with Some ch => if negb (letter ch) then false else letters_from fuel (i + 1) s | None => true end
  end.
(** Source: lib/cxxll/asdl/identifier.cpp 54-67, valid_identifier. *)
Definition valid_identifier (s : bytes) : bool :=
  match zget s 0 with
  | None => false
  | Some ch => if negb (alpha ch) then false else letters_from (length s - 1) 1 s
  end.
Definition first_is (p : Z → bool) (s : bytes) : bool := match zget s 0 with Some ch => p ch | None => false end.
(** Source: lib/cxxll/asdl/identifier.cpp 69-73, valid_type. *)
Definition valid_type (s : bytes) : bool := valid_identifier s && first_is lower s.
(** Source: lib/cxxll/asdl/identifier.cpp 75-79, valid_constructor. *)
Definition valid_constructor (s : bytes) : bool := valid_identifier s && first_is upper s.

(** ** Text *)

(** Source: lib/cxxll/asdl/cardinality.cpp 22-34, operator<<. *)
Definition put_cardinality (card : cardinality) : bytes :=
  match card with single => [] | optional => str "?" | multiple => str "*" end.
(** Source: lib/cxxll/asdl/field.cpp 30-38, operator<<. *)
Definition put_field (fld : field) : bytes :=
  fld_type fld ++ put_cardinality (fld_cardinality fld) ++ (if bool_decide (fld_name fld = []) then [] else str " " ++ fld_name fld).
(** Source: lib/cxxll/asdl/field.cpp 43-52, operator<<. *)
Fixpoint put_fields_loop (first : bool) (fld : list field) : bytes :=
  match fld with [] => [] | p :: fld => (if first then [] else str ",") ++ put_field p ++ put_fields_loop false fld end.
(** Source: lib/cxxll/asdl/field.cpp 40-54, operator<<. *)
Definition put_fields (fld : list field) : bytes := put_fields_loop true fld.
(** Source: lib/cxxll/asdl/constructor.cpp 29-37, operator<<. *)
Definition put_constructor (con : constructor) : bytes :=
  con_name con ++ (if bool_decide (con_fields con = []) then [] else str "(" ++ put_fields (con_fields con) ++ str ")").
(** Source: lib/cxxll/asdl/constructor.cpp 42-51, operator<<. *)
Fixpoint put_constructors_loop (first : bool) (con : list constructor) : bytes :=
  match con with
  | [] => []
  | p :: con => (if first then [] else str " | ") ++ put_constructor p ++ put_constructors_loop false con
  end.
(** Source: lib/cxxll/asdl/constructor.cpp 39-53, operator<<. *)
Definition put_constructors (con : list constructor) : bytes := put_constructors_loop true con.
(** Source: lib/cxxll/asdl/declarator.cpp 29-41, operator<<. *)
Definition put_declarator (decl : declarator) : bytes :=
  if bool_decide (decl_constructors decl = []) then str "(" ++ put_fields (decl_fields decl) ++ str ")"
  else put_constructors (decl_constructors decl)
       ++ (if bool_decide (decl_fields decl = []) then [] else str " attributes " ++ str "(" ++ put_fields (decl_fields decl) ++ str ")").
(** Source: lib/cxxll/asdl/definition.cpp 29-33, operator<<. *)
Definition put_definition (def : definition) : bytes := def_name def ++ str " = " ++ put_declarator (def_declarator def).

(** ** Identifiers, in other words *)

Lemma letters_from_spec s : ∀ pre, letters_from (length s) (zlen pre) (pre ++ s) = forallb letter s.
Proof.
  induction s as [|c s IH]; intros pre; cbn [length letters_from forallb]; [done|]. rewrite zget_app_mid.
  destruct (letter c); cbn [negb andb]; [|done]. specialize (IH (pre ++ [c])). rewrite zlen_app in IH.
  change (zlen [c]) with 1 in IH. by rewrite <- app_assoc in IH.
Qed.
(** An identifier is a letter of the alphabet, then letters, digits and underscores. *)
Lemma valid_identifier_spec s : valid_identifier s = match s with c :: s => alpha c && forallb letter s | [] => false end.
Proof.
  destruct s as [|c s]; [done|]. unfold valid_identifier. change (zget (c :: s) 0) with (Some c). cbn iota beta.
  destruct (alpha c); [|done]. cbn [negb andb]. rewrite <- (letters_from_spec s [c]). by replace (length (c :: s) - 1)%nat with (length s) by (cbn; lia).
Qed.
Lemma valid_letters s : valid_identifier s = true → s ≠ [] ∧ forallb letter s = true.
Proof.
  rewrite valid_identifier_spec. destruct s as [|c s]; [done|]. intros [Hc Hs]%andb_true_iff. split; [done|].
  cbn. unfold letter at 1. by rewrite Hc, Hs.
Qed.

(** ** The parser *)

(** The longest prefix of letters. *)
Fixpoint word (s : bytes) : bytes * bytes :=
  match s with
  | c :: s' => if letter c then let '(w, r) := word s' in (c :: w, r) else ([], s)
  | [] => ([], [])
  end.
Definition get_cardinality (s : bytes) : cardinality * bytes :=
  match s with 63 :: s => (optional, s) | 42 :: s => (multiple, s) | _ => (single, s) end.
Definition get_field (s : bytes) : field * bytes :=
  let '(ty, s) := word s in
  let '(card, s) := get_cardinality s in
  let '(name, s) := match s with 32 :: s' => word s' | _ => ([], s) end in
  (Field ty name card, s).
(** What is between parentheses, the closing one included. *)
Fixpoint get_more_fields (fuel : nat) (s : bytes) : option (list field * bytes) :=
  match fuel with
  | O => None
  | S fuel =>
      let '(f, s) := get_field s in
      match s with
      | 44 :: s => '(l, s) ← get_more_fields fuel s; Some (f :: l, s)
      | 41 :: s => Some ([f], s)
      | _ => None
      end
  end.
Definition get_fields (fuel : nat) (s : bytes) : option (list field * bytes) :=
  match s with 41 :: s => Some ([], s) | _ => get_more_fields fuel s end.
Definition get_constructor (fuel : nat) (s : bytes) : option (constructor * bytes) :=
  let '(name, s) := word s in
  match s with
  | 40 :: s => '(l, s) ← get_fields fuel s; Some (Constructor name l, s)
  | _ => Some (Constructor name [], s)
  end.
Fixpoint get_constructors (fuel : nat) (s : bytes) : option (list constructor * bytes) :=
  match fuel with
  | O => None
  | S fuel =>
      '(c, s) ← get_constructor (S fuel) s;
      match s with
      | 32 :: 124 :: 32 :: s => '(l, s) ← get_constructors fuel s; Some (c :: l, s)
      | _ => Some ([c], s)
      end
  end.
Definition get_declarator (fuel : nat) (s : bytes) : option (declarator * bytes) :=
  match s with
  | 40 :: s => '(l, s) ← get_fields fuel s; Some (Declarator [] l, s)
  | _ =>
      '(cs, s) ← get_constructors fuel s;
      match s with
      | [] => Some (Declarator cs [], [])
      | _ => '(l, s) ← get_fields fuel (zdrop 13 s); Some (Declarator cs l, s)
      end
  end.
Definition get_definition (s : bytes) : option definition :=
  let '(name, s) := word s in
  '(d, s) ← get_declarator (length s) (zdrop 3 s);
  Some (AsdlDefinition name d).

(** ** The round trip *)

Definition valid_field (f : field) : Prop :=
  valid_type (fld_type f) = true ∧ (fld_name f = [] ∨ valid_identifier (fld_name f) = true).
Definition valid_con (c : constructor) : Prop := valid_constructor (con_name c) = true ∧ Forall valid_field (con_fields c).
(** What the comments in the header ask for. *)
Definition valid_definition (d : definition) : Prop :=
  valid_type (def_name d) = true ∧ Forall valid_con (decl_constructors (def_declarator d)) ∧
  Forall valid_field (decl_fields (def_declarator d)).

Definition stop (r : bytes) : Prop := match r with c :: _ => letter c = false | [] => True end.
Lemma word_app w r : forallb letter w = true → stop r → word (w ++ r) = (w, r).
Proof.
  intros Hw Hr. induction w as [|c w IH]; cbn [app word forallb] in *.
  - destruct r as [|c r]; [done|]. cbn in *. by rewrite Hr.
  - apply andb_true_iff in Hw as [Hc Hw]. by rewrite Hc, IH.
Qed.
Lemma valid_type_letters s : valid_type s = true → s ≠ [] ∧ forallb letter s = true.
Proof. intros [H _]%andb_true_iff. by apply valid_letters. Qed.
Lemma valid_constructor_letters s : valid_constructor s = true → s ≠ [] ∧ forallb letter s = true.
Proof. intros [H _]%andb_true_iff. by apply valid_letters. Qed.

Definition after_field (r : bytes) : Prop := ∃ c r', r = c :: r' ∧ (c = 44 ∨ c = 41).
Lemma get_field_put f r : valid_field f → after_field r → get_field (put_field f ++ r) = (f, r).
Proof.
  intros [Ht Hn] (c & r' & -> & Hc). destruct (valid_type_letters _ Ht) as [_ Hty]. unfold get_field, put_field.
  assert (Hname : word (fld_name f ++ c :: r') = (fld_name f, c :: r')).
  { apply word_app; [|by destruct Hc as [->| ->]]. destruct Hn as [->|Hn]; [done|]. by apply valid_letters. }
  rewrite <- !app_assoc, word_app; [|done|by destruct f as [? [|] []], Hc as [->| ->]].
  destruct f as [ty name card]. cbn [fld_type fld_name fld_cardinality] in *.
  destruct (bool_decide_reflect (name = [])) as [->|Hne].
  - destruct card, Hc as [->| ->]; reflexivity.
  - change (str " " ++ name) with (32 :: name).
    destruct card; [change (put_cardinality single) with (@nil Z)|change (put_cardinality optional) with [63]|change (put_cardinality multiple) with [42]];
      cbn [app get_cardinality]; by rewrite Hname.
Qed.

Lemma fields_text f g l : put_fields_loop true (f :: g :: l) = put_field f ++ 44 :: put_fields_loop true (g :: l).
Proof. done. Qed.
Lemma get_more_fields_put l : ∀ f fuel r, Forall valid_field (f :: l) → (length l < fuel)%nat →
  get_more_fields fuel (put_fields_loop true (f :: l) ++ 41 :: r) = Some (f :: l, r).
Proof.
  induction l as [|g l IH]; intros f [|fuel] r Hl Hf; cbn [length] in Hf; try lia; cbn [get_more_fields]; inversion_clear Hl as [|? ? Hvf Hvl].
  - cbn [put_fields_loop]. cbn [str app]. rewrite app_nil_r. rewrite get_field_put; [done|done|]. exists 41, r. auto.
  - rewrite fields_text, <- app_assoc. cbn [app]. rewrite get_field_put; [|done|eexists _, _; auto]. cbn iota beta.
    rewrite (IH g fuel r Hvl ltac:(lia)). done.
Qed.
Lemma put_field_first f : valid_field f → ∃ c s, put_field f = c :: s ∧ letter c = true.
Proof.
  intros [Ht _]. apply valid_type_letters in Ht as [Hne Hl]. unfold put_field. destruct (fld_type f) as [|c s]; [done|].
  cbn in Hl. apply andb_true_iff in Hl as [Hc _]. by eexists c, _.
Qed.
Lemma get_fields_put l fuel r : Forall valid_field l → (length l <= fuel)%nat →
  get_fields fuel (put_fields l ++ 41 :: r) = Some (l, r).
Proof.
  intros Hl Hf. destruct l as [|f l]; [done|]. unfold put_fields. cbn [length] in Hf.
  rewrite <- (get_more_fields_put l f fuel r Hl Hf). inversion_clear Hl as [|? ? Hv _].
  destruct (put_field_first f Hv) as (c & s & E & Hc). cbn [put_fields_loop str app]. rewrite E. unfold get_fields. cbn [app].
  destruct (decide (c = 41)) as [->|Hn]; [done|]. destruct c as [|p|p]; [done| |done]. do 6 (destruct p as [p|p|]; try done).
Qed.
Lemma fields_length b l : Forall valid_field l → (length l <= length (put_fields_loop b l))%nat.
Proof.
  intros Hl. revert b. induction Hl as [|f l Hf Hl IH]; intros b; [done|]. cbn [put_fields_loop length]. rewrite !length_app.
  destruct (put_field_first f Hf) as (c & s & -> & _). cbn [length]. specialize (IH false). lia.
Qed.

(** What may follow a constructor: nothing, a bar, or the attributes. *)
Definition after_con (r : bytes) : Prop := r = [] ∨ ∃ r', r = 32 :: r'.
Lemma get_constructor_put c fuel r : valid_con c → after_con r → (length (put_constructor c) <= fuel)%nat →
  get_constructor fuel (put_constructor c ++ r) = Some (c, r).
Proof.
  intros [Hn Hf] Hr Hfuel. destruct (valid_constructor_letters _ Hn) as [_ Hl]. unfold get_constructor, put_constructor in *.
  destruct c as [name fields]. cbn [con_name con_fields] in *. rewrite <- app_assoc. case_bool_decide as Hnil.
  - subst fields. rewrite word_app; [|done|]; destruct Hr as [->|[r' ->]]; done.
  - rewrite word_app; [|done|reflexivity]. change (str "(") with [40] in *. change (str ")") with [41] in *.
    rewrite <- !app_assoc. cbn [app]. rewrite get_fields_put; [done|done|].
    pose proof (fields_length true fields Hf) as Hlen. unfold put_fields in Hfuel. rewrite !length_app in Hfuel. lia.
Qed.
Lemma put_constructor_first c : valid_con c → ∃ a s, put_constructor c = a :: s ∧ upper a = true.
Proof.
  intros [Hn _]. unfold put_constructor. apply andb_true_iff in Hn as [Hi Hu]. destruct (con_name c) as [|a s]; [done|].
  exists a. by eexists.
Qed.
Definition after_cons (r : bytes) : Prop := r = [] ∨ ∃ r', r = 32 :: 97 :: r'.
Lemma get_constructors_put l : ∀ c fuel r, Forall valid_con (c :: l) → after_cons r →
  (length (put_constructors_loop true (c :: l)) <= fuel)%nat →
  get_constructors fuel (put_constructors_loop true (c :: l) ++ r) = Some (c :: l, r).
Proof.
  induction l as [|d l IH]; intros c fuel r Hl Hr Hf; inversion_clear Hl as [|? ? Hc Hl'];
    (destruct fuel as [|fuel]; [destruct (put_constructor_first c Hc) as (a & s & E & _); cbn [put_constructors_loop str app] in Hf; rewrite E in Hf; cbn in Hf; lia|]);
    cbn [get_constructors].
  - change (put_constructors_loop true [c]) with (put_constructor c ++ []) in *. rewrite app_nil_r in *.
    rewrite get_constructor_put; [|done|destruct Hr as [->|[r' ->]]; [by left|right; by eexists]|lia].
    destruct Hr as [->|[r' ->]]; done.
  - change (put_constructors_loop true (c :: d :: l)) with (put_constructor c ++ [32; 124; 32] ++ put_constructors_loop true (d :: l)) in *.
    rewrite !length_app in Hf. rewrite <- !app_assoc.
    rewrite get_constructor_put; [|done|right; by eexists|lia]. cbn [app mbind option_bind].
    rewrite (IH d fuel r Hl' Hr ltac:(cbn [length] in Hf; lia)). done.
Qed.

Lemma get_declarator_put d fuel : Forall valid_con (decl_constructors d) → Forall valid_field (decl_fields d) →
  (length (put_declarator d) <= fuel)%nat → get_declarator fuel (put_declarator d) = Some (d, []).
Proof.
  intros Hc Hf Hlen. destruct d as [cs fs]. unfold put_declarator in *. cbn [decl_constructors decl_fields] in *.
  pose proof (fields_length true fs Hf) as Hfl. fold (put_fields fs) in Hfl. case_bool_decide as Hnil.
  - subst cs. change (str "(") with [40] in *. change (str ")") with [41] in *. rewrite !length_app in Hlen. cbn [app get_declarator].
    rewrite get_fields_put; [done|done|lia].
  - destruct cs as [|c cs]; [done|]. unfold put_constructors in *. rewrite length_app in Hlen. inversion Hc as [|? ? Hc1 _]; subst.
    destruct (put_constructor_first c Hc1) as (a & s & E & Ha).
    set (tail := if bool_decide (fs = []) then [] else str " attributes " ++ str "(" ++ put_fields fs ++ str ")") in *.
    assert (Htail : after_cons tail) by (unfold tail; case_bool_decide; [by left|right; by eexists]).
    pose proof (get_constructors_put cs c fuel tail Hc Htail ltac:(lia)) as Hg.
    assert (Hhead : ∃ s', put_constructors_loop true (c :: cs) ++ tail = a :: s')
      by (cbn [put_constructors_loop str app]; rewrite E; by eexists).
    destruct Hhead as [s' Hs']. rewrite Hs' in *.
    assert (Hd : get_declarator fuel (a :: s') = '(cs, s) ← get_constructors fuel (a :: s');
      match s with [] => Some (Declarator cs [], []) | _ => '(l, s) ← get_fields fuel (zdrop 13 s); Some (Declarator cs l, s) end).
    { unfold get_declarator. destruct (decide (a = 40)) as [->|Hn]; [done|]. destruct a as [|p|p]; [done| |done]. do 6 (destruct p as [p|p|]; try done). }
    rewrite Hd, Hg. cbn [mbind option_bind]. unfold tail in *. case_bool_decide as Hfs; [by subst fs|].
    change (str " attributes " ++ str "(" ++ put_fields fs ++ str ")") with ([32; 97; 116; 116; 114; 105; 98; 117; 116; 101; 115; 32; 40] ++ put_fields fs ++ [41]).
    unfold zdrop. cbn [app]. change (drop (Z.to_nat 13) (32 :: 97 :: 116 :: 116 :: 114 :: 105 :: 98 :: 117 :: 116 :: 101 :: 115 :: 32 :: 40 :: put_fields fs ++ [41])) with (put_fields fs ++ [41]).
    rewrite get_fields_put; [done|done|]. rewrite !length_app in Hlen. lia.
Qed.

(** The text of a definition with valid names says exactly what the definition is: the
    parser reads it back from the text, so that two valid definitions with the same text
    are the same. *)
Theorem definition_roundtrip d : valid_definition d → get_definition (put_definition d) = Some d.
Proof.
  intros (Hn & Hc & Hf). destruct d as [name decl]. unfold put_definition, get_definition. cbn [def_name def_declarator] in *.
  destruct (valid_type_letters _ Hn) as [_ Hl]. rewrite word_app; [|done|reflexivity].
  change (str " = " ++ put_declarator decl) with ([32; 61; 32] ++ put_declarator decl). unfold zdrop. cbn [app].
  change (drop (Z.to_nat 3) (32 :: 61 :: 32 :: put_declarator decl)) with (put_declarator decl).
  rewrite get_declarator_put; [done|done|done|cbn [length]; lia].
Qed.

Definition expr_definition : definition :=
  AsdlDefinition (str "expr") (Declarator
    [Constructor (str "Const") [Field (str "int") [] single]; Constructor (str "Nil") [];
     Constructor (str "Call") [Field (str "identifier") (str "name") optional; Field (str "expr") (str "args") multiple]]
    [Field (str "int") (str "line") single]).
Lemma definition_roundtrip_witness :
  put_definition expr_definition = str "expr = Const(int) | Nil | Call(identifier? name,expr* args) attributes (int line)" ∧
  valid_definition expr_definition ∧ get_definition (put_definition expr_definition) = Some expr_definition.
Proof.
  assert (valid_definition expr_definition) as Hv.
  { assert (∀ f, valid_type (fld_type f) = true → (bool_decide (fld_name f = []) || valid_identifier (fld_name f)) = true → valid_field f) as Hfield.
    { intros f Ht [Hn%bool_decide_eq_true|Hn]%orb_true_iff; (split; [done|]); auto. }
    split; [reflexivity|]. split; [|by repeat constructor; apply Hfield].
    do 3 (apply Forall_cons; split; [split; [reflexivity|]; cbn [con_fields]; repeat (apply Forall_cons; split; [by apply Hfield|]); by apply Forall_nil|]).
    by apply Forall_nil. }
  split; [vm_compute; reflexivity|]. split; [exact Hv|]. exact (definition_roundtrip expr_definition Hv).
Defined.
