(* ===== verification/PgTestdb.v ===== *)
(** * A database server for tests (lib/cxxll/pg_testdb.cpp, src/pgtestshell.cpp)

    [pg_testdb] looks for the programs of PostgreSQL, makes a database in a temporary
    directory and runs a server on it; [pgtestshell] runs a program that finds this server
    in its environment.  The children are those of Subprocess.v, the directory and the
    files those of Posix.v and FileHandle.v, libpq that of PgQuery.v.

    [postgresql_prefix_spec], [postgresql_prefix_unchecked]: where the programs are taken
    from.
    [wait_for_socket_spec]: how often the socket is looked for.
    [server_gives_up]: a server that is starting up for too long passes for one that has
    come up.
    [shell_environment_spec]: the environment of the program: that of the shell without
    the variables of PostgreSQL, which are set for the test server instead. *)

From S2P Require Import Prelude StringRef StringSupport SourceSink Posix FileCache FileHandle PgPrivate PgQuery Subprocess.

(** The version numbers of directories are of type [double]; [sscanf] of [%lf] reads one
    from the start of a text. *)
Record doubles (V : Type) := Doubles { scan_double : bytes → option V; double_zero : V; double_le : V → V → bool; double_lt : V → V → bool }.
Arguments scan_double {V}. Arguments double_zero {V}. Arguments double_le {V}. Arguments double_lt {V}.

(** The system, libpq, and what was printed to [stderr]. *)
Record test_state (K C : Type) := TestState { td_k : K; td_pq : C; td_err : bytes }.
Arguments TestState {K C}. Arguments td_k {K C}. Arguments td_pq {K C}. Arguments td_err {K C}.

(** Source: lib/cxxll/pg_testdb.cpp 110-126, pg_testdb::impl. *)
Record testdb := Testdb {
  ti_program_prefix : bytes; ti_directory : bytes; ti_logfile : bytes; ti_notices : list bytes; ti_server : subprocess
}.

Definition INITDB : bytes := str "initdb".
Definition POSTMASTER : bytes := str "postgres".
Definition O_APPEND : Z := 1024.

Section Testdb.
Context {K : Type} (os : posix K) (pr : processes K) (io : stdio K) {V : Type} (dbl : doubles V) {C : Type} `{L : libpq C}.
(** [fprintf] to a file, [usleep], and the function of libpq for the callback. *)
Context (io_fprintf : Z → bytes → K → K) (usleep : Z → K → K) (PQsetNoticeProcessor : option Z → C → C) (fuel : nat).
Abbreviation St := (test_state K C).
Definition td : Type → Type := fsx St.
Abbreviation at_k k s := (TestState k (td_pq s) (td_err s)).
Definition on_k {A} (m : sx K A) : td A := λ s, let '(r, k) := m (td_k s) in Some (r, at_k k s).
Definition td_fun {A} (f : K → A * K) : td A := on_k (λ k, let '(a, k) := f k in (Ok a, k)).
Definition on_pq {A} (m : pg C A) : td A := λ s,
  let '(r, p) := m (PgSt (td_pq s) None None) in Some (r, TestState (td_k s) (server p) (td_err s)).
Definition say (text : bytes) : td unit := λ s, Some (Ok tt, TestState (td_k s) (td_pq s) (td_err s ++ text)).
Definition td_throw {A} (e : exn) : td A := λ s, Some (Throw e, s).
(** [m], and a destructor at its end. *)
Definition scoped {A} (m : td A) (destructor : K → option K) : td A := λ s,
  match m s with
  | None => None
  | Some (r, s) => match destructor (td_k s) with None => None | Some k => Some (r, at_k k s) end
  end.

(** ** The programs *)

(** Both tests are for [initdb].
    Source: lib/cxxll/pg_testdb.cpp 48-53, check_path. *)
Definition check_path (path : bytes) (k : K) : bool * K :=
  let '(a, k) := is_executable os (until_nul (path ++ INITDB)) k in
  if a then is_executable os (until_nul (path ++ INITDB)) k else (false, k).
Definition pgpath : bytes := str "/usr/lib/postgresql".
Definition read_entry (dir : Z) : td (option bytes) := λ s,
  match dir_readdir os fuel dir (td_k s) with None => None | Some (r, k) => Some (r, at_k k s) end.
(** Source: lib/cxxll/pg_testdb.cpp 69-82, postgresql_prefix. *)
Fixpoint best_server (n : nat) (dir : Z) (best_candidate : bytes) (best_ver : V) : td bytes :=
  match n with
  | O => λ _, None
  | S n =>
      d ← read_entry dir;
      match d with
      | None => mret best_candidate
      | Some d_name =>
          let '(ok, ver) := match scan_double dbl d_name with Some v => (true, v) | None => (false, double_zero dbl) end in
          if (negb ok && double_le dbl ver (double_zero dbl)) || double_lt dbl ver best_ver then best_server n dir best_candidate best_ver
          else
            let candidate := pgpath ++ [47] ++ d_name ++ str "/bin/" in
            found ← td_fun (check_path candidate);
            if (found : bool) then best_server n dir candidate ver else best_server n dir best_candidate best_ver
      end
  end.
(** Without the directory, the candidate is that which was not found.
    Source: lib/cxxll/pg_testdb.cpp 55-89, postgresql_prefix. *)
Definition postgresql_prefix : td bytes :=
  let candidate := str "/usr/bin/" in
  found ← td_fun (check_path candidate);
  if (found : bool) then mret candidate
  else
    isdir ← td_fun (is_directory os pgpath);
    candidate ← (if (isdir : bool) then
                   pgdir ← on_k (dir_handle_path os pgpath);
                   scoped (best_server fuel pgdir [] (double_zero dbl)) (λ k, Some (dir_destroy os (Some pgdir) k))
                 else mret candidate) : td bytes;
    if bool_decide (candidate = []) then td_throw (pg_exception (str "could not locate PostgreSQL server binaries"))
    else mret candidate.

(** ** Setting up *)

(** [strstr] in every line.
    Source: lib/cxxll/pg_testdb.cpp 98-105, uses_unix_socket_directories. *)
Fixpoint search_lines (n : nat) (conf : Z) : td bool := λ s,
  match n with
  | O => None
  | S n =>
      match fh_getline io conf (td_k s) with
      | (Throw e, k) => Some (Throw e, at_k k s)
      | (Ok None, k) => Some (Ok false, at_k k s)
      | (Ok (Some l), k) =>
          if memmem (until_nul l) (str "unix_socket_directories") then Some (Ok true, at_k k s) else search_lines n conf (at_k k s)
      end
  end.
(** Source: lib/cxxll/pg_testdb.cpp 94-107, uses_unix_socket_directories. *)
Definition uses_unix_socket_directories (confpath : bytes) : td bool :=
  conf ← on_k (fh_open io confpath (str "r"));
  scoped (search_lines fuel conf) (λ k, Some (fh_destroy io (Some conf) k)).

Definition in_directory (db : testdb) (name : bytes) : bytes := temporary_directory_path_of (ti_directory db) name.

#[local] Instance fd_source_ops : SourceOps (Z * K) := λ s len, let '(r, k) := fd_source_read (posix_kernel os) s.1 s.2 len in (r, (s.1, k)).
Fixpoint sub_args (l : list bytes) : sub (K := K) unit := match l with [] => mret tt | a :: l => arg a;; sub_args l end.
(** Source: lib/cxxll/pg_testdb.cpp 152-162, pg_testdb::impl::initdb. *)
Definition initdb_start (db : testdb) : sub (K := K) Z :=
  command (until_nul (ti_program_prefix db ++ INITDB));;
  redirect os std_in null;;
  redirect os std_out pipe;;
  sub_args [str "-A"; str "ident"; str "-D"; until_nul (ti_directory db); str "-E"; str "UTF8"; str "--locale"; str "en_US.UTF-8"];;
  start os pr;;
  pipefd std_out.
(** The child is destroyed on every way out.
    Source: lib/cxxll/pg_testdb.cpp 149-169, pg_testdb::impl::initdb. *)
Definition initdb (db : testdb) : td unit := λ s,
  let out_of x s := at_k (destroy os pr x) s in
  match initdb_start db (subprocess_new, td_k s) with
  | (Throw e, x) => Some (Throw e, out_of x s)
  | (Ok fd, (p, k)) =>
      match copy_source_to_sink fuel (fd, k) (StringSink []) with
      | None => None
      | Some (Throw e, (_, k), _) => Some (Throw e, out_of (p, k) s)
      | Some (Ok _, (_, k), out_string) =>
          match wait os pr (p, k) with
          | (Throw e, x) => Some (Throw e, out_of x s)
          | (Ok ret, x) =>
              if negb (ret =? 0) then
                Some (Throw (pg_exception (str "initdb failed")),
                      out_of x (TestState (td_k s) (td_pq s) (td_err s ++ until_nul (string_sink_data out_string))))
              else Some (Ok tt, out_of x s)
          end
      end
  end.

(** Source: lib/cxxll/pg_testdb.cpp 182-186, pg_testdb::impl::configure. *)
Definition conf_lines (sockdir_plural : bool) (directory : bytes) : list bytes :=
  [str "unix_socket_director" ++ (if sockdir_plural then str "ies" else str "y") ++ str " = '" ++ until_nul directory ++ str "'" ++ [10];
   str "unix_socket_permissions = 0700" ++ [10]; str "log_directory = '.'" ++ [10]; str "log_filename = 'server.log'" ++ [10]].
(** Source: lib/cxxll/pg_testdb.cpp 171-190, pg_testdb::impl::configure. *)
Definition configure (db : testdb) : td unit :=
  let confpath := until_nul (in_directory db (str "postgresql.conf")) in
  sockdir_plural ← uses_unix_socket_directories confpath;
  conf ← on_k (fh_open io confpath (str "a"));
  scoped (λ s,
    let k := foldl (λ k l, io_fprintf conf l k) (td_k s) (conf_lines sockdir_plural (ti_directory db)) in
    Some (if io_ferror io conf k then Throw (os_exception (io_errno io k)) else Ok tt, at_k k s))
    (λ k, Some (fh_destroy io (Some conf) k)).

(** The handle for the log file is closed on every way out.
    Source: lib/cxxll/pg_testdb.cpp 192-204, pg_testdb::impl::start. *)
Definition start_server (db : testdb) : sub (K := K) unit := λ '(p, k),
  match fd_open os (until_nul (ti_logfile db)) (Z.lor (Z.lor (Z.lor O_WRONLY O_APPEND) O_CREAT) O_TRUNC) 384 (fd_new, k) with
  | (Throw e, (fd, k)) => (Throw e, (p, fd_destroy os (fd, k)))
  | (Ok _, (fd, k)) =>
      let '(r, (p, k)) :=
        (command (until_nul (ti_program_prefix db ++ POSTMASTER));;
         sub_args [str "-D"; until_nul (ti_directory db); str "-h"; []; str "-F"];;
         redirect_to os std_out fd;; redirect_to os std_err fd;;
         start os pr) (p, k) in
      (r, (p, fd_destroy os (fd, k)))
  end.

(** Source: lib/cxxll/pg_testdb.cpp 210-215, pg_testdb::impl::wait_for_socket. *)
Fixpoint socket_loop (i : nat) (socket : bytes) (k : K) : bool * K :=
  match i with
  | O => (false, k)
  | S i =>
      let '(e, k) := path_exists os socket k in
      if e then (true, k) else socket_loop i socket (usleep 100000 k)
  end.
(** Source: lib/cxxll/pg_testdb.cpp 206-217, pg_testdb::impl::wait_for_socket. *)
Definition wait_for_socket (db : testdb) : td unit :=
  let socket := in_directory db (str ".s.PGSQL.5432") in
  found ← td_fun (socket_loop 150 (until_nul socket));
  if (found : bool) then mret tt else td_throw (pg_exception (until_nul (str "socket did not appear at: " ++ socket))).

(** The server as a member: the body of the [try] block.
    Source: lib/cxxll/pg_testdb.cpp 133-137, pg_testdb::impl::impl. *)
Definition impl_try (db : testdb) : fsx (subprocess * St) unit := λ '(p, s),
  match (initdb db;; configure db) s with
  | None => None
  | Some (Throw e, s) => Some (Throw e, (p, s))
  | Some (Ok _, s) =>
      match start_server db (p, td_k s) with
      | (Throw e, (p, k)) => Some (Throw e, (p, at_k k s))
      | (Ok _, (p, k)) =>
          match wait_for_socket db (at_k k s) with
          | None => None
          | Some (r, s) => Some (r, (p, s))
          end
      end
  end.
(** On an exception, the server is killed and the members are destroyed, the directory
    last.
    Source: lib/cxxll/pg_testdb.cpp 128-142, pg_testdb::impl::impl. *)
Definition impl_new : td testdb := λ s,
  match (prefix ← postgresql_prefix;
         tmp ← td_fun (temporary_directory_path os);
         directory ← on_k (make_temporary_directory os (tmp ++ str "/pg_testdb-"));
         mret (Testdb prefix directory (temporary_directory_path_of directory (str "server.log")) [] subprocess_new)) s with
  | None => None
  | Some (Throw e, s) => Some (Throw e, s)
  | Some (Ok db, s) =>
      match impl_try db (ti_server db, s) with
      | None => None
      | Some (Ok _, (p, s)) => Some (Ok (Testdb (ti_program_prefix db) (ti_directory db) (ti_logfile db) [] p), s)
      | Some (Throw e, (p, s)) =>
          let x := (destroy_nothrow pr (p, td_k s)).2 in
          match temporary_directory_destroy os fuel (ti_directory db) (destroy os pr x) with
          | None => None
          | Some k => Some (Throw e, at_k k s)
          end
      end
  end.
(** Source: lib/cxxll/pg_testdb.cpp 144-147, pg_testdb::impl::~impl. *)
Definition impl_destroy (db : testdb) (k : K) : option K :=
  let x := (destroy_nothrow pr (ti_server db, k)).2 in
  temporary_directory_destroy os fuel (ti_directory db) (destroy os pr x).
(** Source: lib/cxxll/pg_testdb.cpp 219-228, pg_testdb::impl::notice_processor. *)
Definition notice_processor (db : testdb) (message : bytes) : testdb :=
  Testdb (ti_program_prefix db) (ti_directory db) (ti_logfile db) (ti_notices db ++ [message]) (ti_server db).

(** ** Connections *)

(** A connection whose constructor does not throw gets the callback and leaves its handle.
    Source: lib/cxxll/pg_testdb.cpp 284-296, pg_testdb::connect. *)
Definition connect (db : testdb) (dbname : bytes) : td (option Z) :=
  on_pq (c ← call (λ _, PQconnectdbParams [str "host"; str "port"; str "dbname"]
                          [Some (until_nul (ti_directory db)); Some (str "5432"); Some dbname]);
         conn_new_from c;;
         call (λ p c, (tt, PQsetNoticeProcessor p c));;
         h ← conn_release; conn_destroy;; mret h).
(** Source: lib/cxxll/pg_testdb.cpp 298-304, pg_testdb::exec_test_sql. *)
Definition exec_test_sql (db : testdb) (dbname sql : bytes) : td unit :=
  c ← connect db dbname;
  on_pq (conn_new_from c;; (λ s, let '(r, s) := with_res (exec sql) s in (r, (conn_destroy s).2)) : pg C unit).

Definition starting_up : bytes := str "FATAL:  the database system is starting up" ++ [10].
(** Source: lib/cxxll/pg_testdb.cpp 236-237, wait_for_server. *)
Definition try_server (db : testdb) : td unit := c ← connect db (str "template1"); on_pq (conn_new_from c;; conn_destroy).
(** Source: lib/cxxll/pg_testdb.cpp 235-246, wait_for_server. *)
Fixpoint server_loop (i : nat) (db : testdb) : td unit := λ s,
  match i with
  | O => Some (Ok tt, s)
  | S i =>
      match try_server db s with
      | Some (Throw (pg_exception message), s) =>
          if bool_decide (message = starting_up) then server_loop i db (at_k (usleep 100000 (td_k s)) s)
          else Some (Throw (pg_exception message), s)
      | r => r
      end
  end.
(** Source: lib/cxxll/pg_testdb.cpp 232-247, wait_for_server. *)
Definition wait_for_server (db : testdb) : td unit := server_loop 150 db.
(** Source: lib/cxxll/pg_testdb.cpp 249-253, pg_testdb::pg_testdb. *)
Definition pg_testdb_new : td testdb :=
  db ← impl_new;
  (λ s, match wait_for_server db s with
        | Some (Ok _, s) => Some (Ok db, s)
        | Some (Throw e, s) => match impl_destroy db (td_k s) with None => None | Some k => Some (Throw e, at_k k s) end
        | None => None
        end) : td testdb.

(** [copy_source_to_sink] between two descriptors of one kernel.
    Source: lib/cxxll/source_sink.cpp 27-42, copy_source_to_sink. *)
Fixpoint copy_fds (n : nat) (from to : Z) (k : K) : option (res unit * K) :=
  match n with
  | O => None
  | S n =>
      match fd_source_read (posix_kernel os) from k 8192 with
      | (Throw e, k) => Some (Throw e, k)
      | (Ok buf, k) =>
          if negb (zlen buf <=? 8192) then Some (Throw assertion_failure, k)
          else if zlen buf =? 0 then Some (Ok tt, k)
          else
            match fd_sink_write (posix_kernel os) to k buf with
            | (Throw e, k) => Some (Throw e, k)
            | (Ok _, k) => copy_fds n from to k
            end
      end
  end.
(** The contents go to descriptor 2 behind the stream [stderr].
    Source: lib/cxxll/pg_testdb.cpp 306-316, pg_testdb::dump_logs. *)
Definition dump_logs (db : testdb) : td unit :=
  say (str "* PostgreSQL server log:" ++ [10]);;
  (λ s,
    match fd_open_read_only os (until_nul (ti_logfile db)) (fd_new, td_k s) with
    | (Throw e, (fd, k)) => Some (Throw e, at_k (fd_destroy os (fd, k)) s)
    | (Ok _, (fd, k)) =>
        match copy_fds fuel fd 2 k with
        | None => None
        | Some (r, k) => Some (r, at_k (fd_destroy os (fd, k)) s)
        end
    end) : td unit.
(** The object is destroyed while an exception is on its way, or not.
    Source: lib/cxxll/pg_testdb.cpp 255-264, pg_testdb::~pg_testdb. *)
Definition pg_testdb_destroy (uncaught : bool) (db : testdb) (s : St) : option St :=
  let finish s := match impl_destroy db (td_k s) with None => None | Some k => Some (at_k k s) end in
  if uncaught then
    match dump_logs db s with
    | None => None
    | Some (Ok _, s) => finish s
    | Some (Throw _, s) =>
        finish (TestState (td_k s) (td_pq s) (td_err s ++ str "warning: exception while dupming PostgreSQL logs" ++ [10]))
    end
  else finish s.

(** ** The shell *)

(** The environment of the program itself; an entry is a C string.
    Source: src/pgtestshell.cpp 53-61, main. *)
Fixpoint inherit_vars (environ : list bytes) : sub (K := K) unit :=
  match environ with
  | [] => mret tt
  | key_val :: rest =>
      (match find_byte 61 key_val with
       | Some sep =>
           if negb (starts_with key_val (str "PG")) then env (ztake sep key_val) (zdrop (sep + 1) key_val) else mret tt
       | None => mret tt
       end);;
      inherit_vars rest
  end.
(** Source: src/pgtestshell.cpp 51-68, main. *)
Definition shell_environment (db : testdb) (environ : list bytes) : sub (K := K) unit :=
  inherit_vars environ;;
  env (str "PGHOST") (until_nul (ti_directory db));;
  env (str "PGPASSFILE") (until_nul (ti_directory db ++ str "/pgpass"));;
  env (str "PGSERVICEFILE") (until_nul (ti_directory db ++ str "/pgservice")).
(** Source: src/pgtestshell.cpp 36-49, main. *)
Definition shell_command (args : list bytes) : sub (K := K) unit :=
  match args with
  | [] => x ← sx_get; command (match px_getenv os (str "SHELL") x.2 with None => str "/bin/sh" | Some shell => shell end)
  | cmd :: args => command cmd;; sub_args args
  end.
(** [args] are the arguments behind the name of the program.
    Source: src/pgtestshell.cpp 36-71, main. *)
Definition shell_run (db : testdb) (args : list bytes) : sub (K := K) Z :=
  shell_command args;;
  x ← sx_get;
  shell_environment db (pr_environ pr x.2);;
  start os pr;;
  wait os pr.
(** The child and the server are destroyed when [main] returns; an exception that
    leaves it ends the program.
    Source: src/pgtestshell.cpp 32-77, main. *)
Definition pgtestshell_main (args : list bytes) : td Z :=
  db ← pg_testdb_new;
  (λ s,
    let '(r, x) := shell_run db args (subprocess_new, td_k s) in
    match r with
    | Throw e => Some (Throw e, at_k x.2 s)
    | Ok ret =>
        let '(status, text) := if ret <? 0 then (255, str "error: subprocess killed by signal " ++ dec (- ret) ++ [10]) else (ret, []) in
        match pg_testdb_destroy false db (TestState (destroy os pr x) (td_pq s) (td_err s ++ text)) with
        | None => None
        | Some s => Some (Ok status, s)
        end
    end) : td Z.
End Testdb.

(** ** What holds *)

Section testdb_facts.
Context {K : Type} (os : posix K) {V : Type} (dbl : doubles V) {C : Type} `{L : libpq C} (usleep : Z → K → K) (fuel : nat).
Abbreviation St := (test_state K C).

(** The prefix names a directory below [pgpath] that had an executable [initdb]. *)
Definition below_pgpath (p : bytes) : Prop :=
  ∃ d k, p = pgpath ++ [47] ++ d ++ str "/bin/" ∧ (check_path os p k).1 = true.

Lemma best_server_below n dir best ver (s s' : St) p : best = [] ∨ below_pgpath best →
  best_server os dbl fuel n dir best ver s = Some (Ok p, s') → p = [] ∨ below_pgpath p.
Proof using.
  revert best ver s. induction n as [|n IH]; intros best ver s Hb; [done|]. cbn [best_server]. intros H.
  apply fsx_bind_Ok in H as (d & s1 & _ & H). destruct d as [d|]; [|apply fsx_ret_Ok in H as [-> _]; done].
  destruct (match scan_double dbl d with Some v => (true, v) | None => (false, double_zero dbl) end) as [ok v].
  destruct (_ || _) in H; [by eapply IH|]. apply fsx_bind_Ok in H as (found & s2 & Hf & H). destruct found; [|by eapply IH].
  eapply IH; [|exact H]. right. exists d, (td_k s1). split; [done|].
  unfold td_fun, on_k in Hf. destruct (check_path os _ (td_k s1)) as [b k]. by simplify_eq/=.
Qed.

(** The server is that of [/usr/bin], found or not, or one below [pgpath] that was found. *)
Lemma postgresql_prefix_spec (s s' : St) p : postgresql_prefix os dbl fuel s = Some (Ok p, s') →
  p = str "/usr/bin/" ∨ below_pgpath p.
Proof using.
  unfold postgresql_prefix. intros H. apply fsx_bind_Ok in H as (found & s1 & _ & H).
  destruct found; [apply fsx_ret_Ok in H as [-> _]; by left|].
  apply fsx_bind_Ok in H as (isdir & s2 & _ & H). apply fsx_bind_Ok in H as (c & s3 & Hc & H).
  case_bool_decide as Hn; [done|]. apply fsx_ret_Ok in H as [-> _].
  destruct isdir; [|apply fsx_ret_Ok in Hc as [-> _]; by left].
  apply fsx_bind_Ok in Hc as (dir & s4 & _ & Hc). unfold scoped in Hc.
  destruct (best_server _ _ _ _ _ _ _ s4) as [[[q|e] s5]|] eqn:Eb; simplify_eq/=.
  destruct (best_server_below _ _ _ _ _ _ _ (or_introl eq_refl) Eb); [done|by right].
Qed.

(** Without [pgpath] the directory that was tried first is the answer although it was
    refused. *)
Lemma postgresql_prefix_unchecked (s : St) k1 k2 : check_path os (str "/usr/bin/") (td_k s) = (false, k1) →
  is_directory os pgpath k1 = (false, k2) →
  postgresql_prefix os dbl fuel s = Some (Ok (str "/usr/bin/"), TestState k2 (td_pq s) (td_err s)).
Proof using.
  intros H1 H2. unfold postgresql_prefix. cbv zeta.
  rewrite (fsx_bind_run _ _ s false (TestState k1 (td_pq s) (td_err s))) by (unfold td_fun, on_k; by rewrite H1).
  cbn iota beta. rewrite (fsx_bind_run _ _ _ false (TestState k2 (td_pq s) (td_err s))) by (unfold td_fun, on_k; cbn [td_k]; by rewrite H2).
  reflexivity.
Qed.

(** The socket is looked for at most [i] times, with a pause after each failure; the loop
    ends with the first success. *)
Definition polls (socket : bytes) (k : K) (j : nat) : K := Nat.iter j (λ k, usleep 100000 (path_exists os socket k).2) k.
Lemma polls_S socket k j : polls socket k (S j) = polls socket (usleep 100000 (path_exists os socket k).2) j.
Proof using. unfold polls. by rewrite Nat.iter_succ_r. Qed.
Lemma wait_for_socket_spec i socket k :
  let r := socket_loop os usleep i socket k in
  if r.1 then ∃ j, (j < i)%nat ∧ path_exists os socket (polls socket k j) = (true, r.2) ∧
                   ∀ l, (l < j)%nat → (path_exists os socket (polls socket k l)).1 = false
  else r.2 = polls socket k i ∧ ∀ l, (l < i)%nat → (path_exists os socket (polls socket k l)).1 = false.
Proof using.
  revert k. induction i as [|i IH]; intros k; cbn [socket_loop]; [split; [done|lia]|].
  destruct (path_exists os socket k) as [[] k1] eqn:E; cbn zeta.
  - exists 0%nat. split; [lia|]. split; [done|lia].
  - specialize (IH (usleep 100000 k1)). cbn zeta in IH.
    assert (Hk : ∀ j, polls socket k (S j) = polls socket (usleep 100000 k1) j) by (intros j; by rewrite polls_S, E).
    destruct (socket_loop os usleep i socket (usleep 100000 k1)) as [[] k2]; cbn [fst snd] in *.
    + destruct IH as (j & Hj & Hp & Hl). exists (S j). split; [lia|]. rewrite Hk. split; [done|].
      intros [|l] Hl'; [unfold polls; cbn; by rewrite E|]. rewrite Hk. apply Hl. lia.
    + destruct IH as [-> Hl]. split; [by rewrite Hk|].
      intros [|l] Hl'; [unfold polls; cbn; by rewrite E|]. rewrite Hk. apply Hl. lia.
Qed.

(** After 150 refusals the loop ends as it does after a success. *)
Lemma server_gives_up (notify : option Z → C → C) db :
  (∀ s : St, ∃ s', try_server notify db s = Some (Throw (pg_exception starting_up), s')) →
  ∀ s : St, ∃ s', wait_for_server usleep notify db s = Some (Ok tt, s').
Proof using.
  intros H. unfold wait_for_server. generalize 150%nat as i. induction i as [|i IH]; intros s; [by eexists|].
  cbn [server_loop]. destruct (H s) as [s' ->]. rewrite bool_decide_eq_true_2 by done. apply IH.
Qed.
End testdb_facts.

(** The program gets every variable of the shell but those whose names start with [PG],
    and the three that lead to the test server. *)
Definition inherited (e : bytes) : bool := bool_decide (61 ∈ e) && negb (starts_with e (str "PG")).
Definition shell_vars (db : testdb) (environ : list bytes) : list bytes :=
  List.filter inherited environ ++
  [str "PGHOST=" ++ until_nul (ti_directory db); str "PGPASSFILE=" ++ until_nul (ti_directory db ++ str "/pgpass");
   str "PGSERVICEFILE=" ++ until_nul (ti_directory db ++ str "/pgservice")].
Definition with_vars (vars : list bytes) (s : subprocess) : subprocess := with_envv (map Some vars ++ [None]) s.

Section shell_facts.
Context {K : Type}.
Lemma env_appends vars key value s (k : K) : 61 ∉ key →
  env key value (with_vars vars s, k) = (Ok tt, (with_vars (vars ++ [key ++ [61] ++ value]) s, k)).
Proof using.
  intros Hk. unfold env, update, sx_modify. rewrite bool_decide_eq_false_2 by done. cbn [fst snd].
  unfold set_last, with_vars. cbn [sp_envv with_envv]. by rewrite removelast_last, map_app.
Qed.
Lemma first_equals e sep : find_byte 61 e = Some sep →
  61 ∉ ztake sep e ∧ e = ztake sep e ++ [61] ++ zdrop (sep + 1) e ∧ 61 ∈ e.
Proof using.
  intros (Hs & Hn & t & Ht)%find_byte_Some.
  assert (He : e = ztake sep e ++ [61] ++ zdrop (sep + 1) e).
  { rewrite <- (take_drop (Z.to_nat sep) e) at 1. f_equal. unfold zdrop in *. rewrite Ht. cbn. f_equal.
    replace (Z.to_nat (sep + 1)) with (Z.to_nat sep + 1)%nat by lia. rewrite <- drop_drop, Ht. done. }
  split_and!; [|done|rewrite He; set_solver]. intros Hin. rewrite Forall_forall in Hn. by apply (Hn 61).
Qed.
Lemma inherit_vars_spec environ : ∀ vars s (k : K),
  inherit_vars environ (with_vars vars s, k) = (Ok tt, (with_vars (vars ++ List.filter inherited environ) s, k)).
Proof using.
  induction environ as [|e environ IH]; intros vars s k; [cbn; by rewrite app_nil_r|].
  cbn [inherit_vars List.filter]. unfold inherited at 1. unfold mbind, sx_bind.
  destruct (find_byte 61 e) as [sep|] eqn:Ef.
  - apply first_equals in Ef as (Hn & He & Hin). rewrite bool_decide_eq_true_2 by done.
    destruct (starts_with e (str "PG")); cbn [negb andb]; [by rewrite <- IH|].
    rewrite env_appends by done. rewrite <- He, IH, <- app_assoc. done.
  - apply find_byte_None in Ef. rewrite bool_decide_eq_false_2; [by rewrite <- IH|].
    intros Hin. rewrite Forall_forall in Ef. by apply (Ef 61).
Qed.
Lemma shell_environment_spec db environ s (k : K) : sp_envv s = [None] →
  shell_environment db environ (s, k) = (Ok tt, (with_vars (shell_vars db environ) s, k)).
Proof using.
  intros He. replace s with (with_vars [] s) at 1 by (destruct s; cbn in *; by subst).
  unfold shell_environment, mbind, sx_bind. rewrite inherit_vars_spec.
  rewrite !env_appends by (apply (bool_decide_unpack _); vm_compute; exact I).
  unfold shell_vars. by rewrite <- !app_assoc.
Qed.
End shell_facts.

(** A server in [/t]; the variables of its client are replaced. *)
Definition in_t : testdb := Testdb (str "/usr/bin/") (str "/t") (str "/t/server.log") [] subprocess_new.
Lemma shell_environment_spec_witness :
  sp_envv subprocess_new = [None] ∧
  shell_environment in_t [str "HOME=/root"; str "PGHOST=db"; str "odd"; str "A=b=c"] (subprocess_new, 0) =
    (Ok tt, (with_vars [str "HOME=/root"; str "A=b=c"; str "PGHOST=/t"; str "PGPASSFILE=/t/pgpass";
                        str "PGSERVICEFILE=/t/pgservice"] subprocess_new, 0)).
Proof. split; [done|]. exact (shell_environment_spec in_t _ subprocess_new 0 eq_refl). Defined.

(** A system in which nothing can be executed: the programs are still taken from
    [/usr/bin]. *)
Definition bare_kernel : posix unit := {|
  px_errno _ := 0; px_open _ _ _ k := (3, k); px_openat _ _ _ _ k := (3, k); px_close _ k := (0, k);
  px_mkostemp _ _ k := ((3, []), k); px_dup _ k := (3, k); px_dupfd_cloexec _ k := (3, k);
  px_getfd _ k := (0, k); px_setfd _ _ k := (0, k); px_fsync _ k := (0, k);
  px_read _ _ k := ((0, []), k); px_write _ _ k := (0, k); px_mkdirat _ _ _ k := (0, k);
  px_unlinkat _ _ _ k := (0, k); px_renameat _ _ _ _ k := (0, k); px_fstatat _ _ k := (None, k);
  px_stat _ k := (None, k); px_mkdtemp _ k := (None, k); px_mkdir _ _ k := (0, k); px_rmdir _ k := (0, k);
  px_access _ _ k := (-1, k); px_getenv _ _ := None; px_opendir _ k := (None, k); px_fdopendir _ k := (None, k);
  px_readdir _ k := ((None, 0), k); px_closedir _ k := (0, k); px_dirfd _ _ := -1;
  px_getcwd _ k := (None, k); px_readlink _ _ k := ((-1, []), k); px_realpath _ k := (None, k)
|}.
Definition no_doubles : doubles Z := Doubles _ (λ _, None) 0 Z.leb Z.ltb.
Definition bare_state : test_state unit unit := TestState tt tt [].
Lemma postgresql_prefix_unchecked_witness :
  check_path bare_kernel (str "/usr/bin/") tt = (false, tt) ∧ is_directory bare_kernel pgpath tt = (false, tt) ∧
  postgresql_prefix bare_kernel no_doubles 9 bare_state = Some (Ok (str "/usr/bin/"), bare_state).
Proof.
  split; [done|]. split; [done|]. exact (postgresql_prefix_unchecked bare_kernel no_doubles 9 bare_state tt tt eq_refl eq_refl).
Defined.
Lemma postgresql_prefix_spec_witness :
  str "/usr/bin/" = str "/usr/bin/" ∨ below_pgpath bare_kernel (str "/usr/bin/").
Proof. apply (postgresql_prefix_spec bare_kernel no_doubles 9 bare_state bare_state). reflexivity. Defined.
